(* ===== verification/_CoqProject ===== *)
-Q . S2P
Prelude.v
StringUtils.v
FileSystem.v
FileUtils.v
Preview.v
Floats.v
FloatText.v
Process.v
ProcessSession.v
Json.v
Version.v
Interpolation.v
ProcessUtils.v
ProcessRun.v
Scene.v
CoreConfig.v
Palette.v
ConfigCodec.v
ModelManager.v
ConfigStore.v
ConfigRouter.v
Migration.v
Dbus.v
StateMachine.v
AudioUtils.v
AudioBuffer.v
OutputDucker.v
Vad.v
RecognitionContract.v
AsyncSession.v
SessionLifecycle.v
Streaming.v
SessionManager.v
RecognitionResult.v
ClientProtocol.v
ClientFraming.v
Supervisor.v
Notification.v
CommandBatch.v
CommandStreaming.v
ProviderDelivery.v
PostProcessor.v
ContextWriter.v
Vocabulary.v
ModelInstall.v
Registry.v
Scripts.v
AudioCapture.v
DbusService.v
ModelCache.v
CommandLine.v
Hotwords.v
LocalBackends.v
HttpClient.v
Sandbox.v
GuiForms.v
SettingsWindow.v
ResourcePage.v
Frontend.v
Controller.v
