(* ===== verification/Prelude.v ===== *)
(** * fcitx5-vinput: verification of the voice-input daemon, its addon and their shared code

    fcitx5-vinput is a voice input method: a daemon records audio, sends it to a
    speech recogniser, optionally lets a language model rewrite the text, and hands
    the result to the Fcitx5 addon over D-Bus and to managed client processes over
    JSON lines. This library models the program's own logic, function by function, and
    proves what makes it correct.

    ** The program and the files

    The runtime (src/src/daemon/runtime, src/src/daemon/asr/runtime):
    - [Controller]: daemon_runtime_controller.cpp. Starts, stops and cancels
      recordings, feeds audio to the active session, runs the worker thread that
      turns a stopped recording into a committed payload, accepts injected text and
      defers backend reloads. A handler is a function on the record [Controller];
      [worker_step] is one step of WorkerMain; [handler_step] and [ctl_step] are
      the interleavings.
    - [StateMachine]: runtime_state_machine.cpp, the phase and the pending
      post-processing action, one function per event.
    - [SessionLifecycle]: session_lifecycle_manager.cpp, who owns which session
      object, event polling and result collection.
    - [AsyncSession]: async_recognition_session.cpp, the bounded queue and the
      thread between the capture callback and a backend session. Every critical
      section is one step; the worker has a program counter.
    - [Streaming]: the asynchronous session as an instance of the session interface,
      composed with the lifecycle manager.
    - [SessionManager]: recognition_session_manager.cpp and backend_factory.cpp,
      the effective backend, its signature and the reload worker.
    - [RecognitionContract]: recognition_contract.h. The interfaces of sessions and
      backends are the classes [RecognitionSession] and [AsrBackend]; the files
      above are proved against them, for any backend.
    - [AudioBuffer], [AudioUtils], [OutputDucker]: audio_recording_buffer.cpp,
      audio_utils.cpp, output_ducker.cpp (clients, worker and volume calls as a step
      relation). [Vad]: vad_trimmer.cpp, vad_segmentation.cpp. [Hotwords]:
      hotword_utils.cpp.
    - [RecognitionResult]: recognition_result.cpp and recognition_pipeline.cpp;
      [PostProcessor]: post_processor.cpp and candidate_parser.cpp.
    - [CommandBatch], [CommandStreaming]: the backends that run a provider process;
      [ProviderDelivery] composes the streaming one with the asynchronous session.
      [LocalBackends]: sherpa_offline_backend.cpp, sherpa_streaming_backend.cpp,
      local_asr_model_loader.cpp, the backends over the speech library.
    - [AudioCapture]: audio_capture.cpp, audio_types.h and pipewire_device.cpp, the
      capture stream, the callback between the owner's calls and the queue.
    - [DbusService]: dbus_service.cpp, desktop_notification_sender.cpp, main.cpp and the
      client in cli/runtime/dbus_client.cpp: the methods from caller to handler and back,
      the emission queue between its threads, the turns of the main loop.

    Processes (src/src/common/utils, client, llm, notify):
    - [Process], [ProcessSession], [ProcessRun], [ProcessUtils]: process_utils.cpp,
      process_session.cpp, process_internal.h. The pump thread and its callers
      interleave step by step; stopping a process runs over a trace of the process
      table in which pids are reused.
    - [Supervisor], [ClientFraming]: client_manager.cpp and adapter_manager.cpp;
      [Notification]: notification_bridge.cpp.
    - [ClientProtocol]: client_command.cpp, client_event.cpp; [Dbus]:
      dbus_interface.h, asr_backend_state_utils.h.

    The addon (src/src/addon): [Frontend] (vinput.cpp, vinput_dbus.cpp,
    vinput_keyevent.cpp, status_poll_gate.h, the menus), [Palette], [Preview],
    [ContextWriter].

    The command line tool (src/src/cli): [CommandLine], the actions on configuration,
    resources and the daemon, against the interface [CliWorld] of the components they call.
    [Sandbox]: systemd_client.cpp and daemon_actions.cpp, with sandbox.cpp, the installation
    of the service unit (vinput.cpp) and download_progress.cpp.

    The settings window (src/src/gui): [GuiForms] (gui_helpers.cpp, the dialogs,
    download_worker.cpp), the forms and what they accept, over the class [Qt];
    [SettingsWindow] (the pages and mainwindow.cpp), every action that changes the
    configuration, the resources or the daemon, over [CliWorld] and [GuiWorld], with what the
    rest of the system does while a dialog is open; [ResourcePage] (resource_page.cpp,
    i18n_cache.cpp), rows and buttons, and refreshes and downloads as state machines.

    Configuration, text and data (src/src/common):
    - [CoreConfig]: core_config_{types.h,view.cpp,normalize.cpp,validate.cpp,
      resolve.cpp}; [ConfigCodec], [ConfigStore], [ConfigRouter], [Migration]: the
      files of the same names; [Scene]: postprocess_scene.cpp; [ModelCache]:
      provider_model_cache.cpp.
    - [Json]: json_access.h; [StringUtils]: string_utils.h; [Version]:
      version_utils.cpp; [Interpolation]: interpolation.cpp and prompt_template.cpp.
    - [Floats], [FloatText]: IEEE binary32 and binary64 on the Standard Library's
      [SpecFloat], and doubles as text.

    Files, models and the registry (src/src/common/utils, asr, registry):
    - [FileSystem]: trees of files, the system calls on them with their failures, and
      every state a crash could find; paths as text. [FileUtils]: file_utils.cpp and
      path_utils.cpp.
    - [HttpClient]: http_client.cpp and http_types.h, pooled connections and downloads.
    - [ModelManager]: model_manager.cpp; [Vocabulary]: bpe_vocab_exporter.cpp;
      [ModelInstall]: registry_models.cpp and downloader.cpp; [Registry]:
      registry_cache.cpp, registry_fetch.cpp, registry_i18n.cpp,
      installed_manifest.cpp; [Scripts]: registry_scripts.cpp.

    This file holds the byte strings with their literals, record update
    ([r <| f := v |>]), the error monad [result] with [let!], 64-bit arithmetic,
    list deduplication, and the tactics and hints the other files share.

    ** How the code is represented

    Strings are lists of bytes; a [bool] with an error out-parameter is a [result];
    [std::size_t] counters wrap at 2^64; samples are integers with a proved 16-bit
    range; [float] and [double] are exact SpecFloat values, and a conversion that C++
    leaves undefined gives [None]. A mutex-protected section is an atomic step.
    Pointers to sessions are identifiers into a store of session objects. What the
    daemon sends (D-Bus signals, broadcasts, capture commands) is a list of outputs.
    Maps are [gmap]s, or lists in key order where the order shows.

    The JSON library, the speech backends, cpp-httplib, libarchive, SHA-256,
    PipeWire, Fcitx, Qt, the Unicode library, the clock and the environment are not part of
    this program: they are arguments of the definitions that use them, often classes
    ([Glaze], [Provider], [Archive], [HttpClient], [Links], [PipeWire], [OfflineLibrary],
    [OnlineLibrary], [Qt]), with the documented behaviour a theorem needs as its hypotheses
    or laws. The command line tool and the settings window are proved against the classes
    [CliWorld] and [GuiWorld] of what they call, with the laws of the store they rely on
    ([CliStore], [GuiStore]); the installers take the HTTP client as a class of their own.

    Loops whose recursion is not structural take fuel, and the theorems show it to
    be enough: the push loop of the controller gets the length of the streaming
    buffer plus one, and each iteration pops a chunk of 800 samples; splitting,
    interpolation, the scanners of vocabularies, hotwords and previews and the chunked
    read of a file get the length of the text plus one, and each iteration consumes a
    byte; the worker of a session completes within [worker_fuel], linear in its queue.
    Where the system decides how long a loop runs (the pump of a process, waiting for a
    provider or for a process to end, the write loop), the answers are a list the loop
    consumes; the termination theorems name what the system must do, as laws of a class.
    Following symbolic links has the budget of the code, 32. Decoding a stream has the
    library's backlog plus one, and the law of the library is that a decoding lowers it;
    copying a capture buffer has its number of samples, and each iteration copies some.

    ** What is proved

    - The daemon (Controller): in every interleaving the reported phase agrees with
      the active session, the order and the worker; a busy daemon becomes idle after
      at most seven worker steps whatever other threads do; a dictation is committed
      exactly once, with the text the pipeline computes; a cancellation during
      post-processing decides what is committed.
    - Sessions (AsyncSession, SessionLifecycle): the queue bound and its counters,
      delivery in order and completely when Finish succeeds, one final backend call,
      termination of Finish; the same end to end through the lifecycle manager
      (Streaming); exact ownership of session objects.
    - Backends (SessionManager, CommandBatch, CommandStreaming, ProviderDelivery):
      reloading converges to the backend of the last configuration; a provider
      receives the recording, completely and in order; a streaming session finishes
      with the final text and returns. Local sessions (LocalBackends): an offline session
      decodes cuts of the whole recording that contain all detected speech, whatever its
      chunks; a streaming session hands over all audio, decodes what is there, and its
      previews end with the text it commits; the temporary hotwords file is removed.
    - Capture (AudioCapture): what is taken from the queue and what is dropped is together
      what the callback heard, in order; a stream that is kept after a recording is released
      at its deadline; the device that is opened is the one that was listed.
    - The bus (DbusService): emissions of all threads are sent once, in the order of their
      pushes, and the main loop never sleeps on a queue with work; a client's call reaches
      its handler and its error text comes back; the backend state survives the wire; every
      reply has the signature of the method table.
    - The command line (CommandLine): a command that edits the configuration makes exactly
      the change asked for or none, and its exit code tells which; toggling follows the
      daemon's phase; a key is never printed whole. The service (Sandbox): the
      status command names a remedy for every missing permission; a download prints at most
      eleven progress lines.
    - The settings window (SettingsWindow, GuiForms, ResourcePage): an action makes the
      edit asked for or leaves the configuration alone, whatever happens while its dialog is
      open; an adapter stopped for an update is started again, also when the update fails; the editor
      of a command gives back lines it was filled with; a refresh ends with the button
      enabled, whatever the threads answer; news are shown once.
    - The network (HttpClient): a pooled connection has the address, the proxy and the
      credentials of the request it is used for; a download leaves the old file or the new.
    - Post-processing: what the pipeline commits, and the fallback to the recognised
      text on every error path.
    - Processes: every event is delivered once and in order, the queued output is
      bounded, a cancellation is a boundary for the child's input, a one-shot command
      closes its input and returns; only recorded processes are signalled although pids
      are reused; a supervised start is all or nothing and is found again.
    - The addon: pointers to input contexts are never dangling, hold-to-talk, delivery
      of results, recovery of a lost session; the history file and its queue.
    - The state machine: a well-formedness invariant, refinement of the lifecycle
      graph, accounting of captures and results.
    - Audio: totality and saturation of the gain stage; no sample lost, reordered or
      duplicated by the recording buffer; segmentation keeps speech; the output volume
      is restored.
    - Configuration: normalisation makes any configuration valid, is idempotent and
      establishes the invariant that all scene edits preserve; saving and loading; the
      cache; migration (its rules hold afterwards, backups come first, well-typed); the
      models offered are those of active providers.
    - Files and models: an atomic write leaves the old or the new content, on the disk,
      at every moment; the installation of a model is a transaction in the same sense;
      an archive stays in its directory; a model that was installed is listed; scripts
      are replaced as a whole and are then up to date; metadata names only files of the
      model.
    - Text: interpolation is equivalent to a reference scanner; the JSON single-value
      scanner accepts exactly one container; the framing of client output and of error
      output does not depend on its chunks; round trips of versions, split and join,
      client commands, payloads, hotwords, ids and the manifest.

    Other theorems show where the code does not do what it means to; the manifest of the
    library lists them as findings. The controller's: a cancelled recording start revived by
    the next one, a recording that loses its phase to an injection, a second injection that
    is dropped (its invariant therefore excludes scene injection). Backend reloading has
    three; command streaming, process sessions, the ducker, the notification bridge, the
    configuration store and router, the post-processor, the adapter manager, the model
    manager and the installer have one or more each. A capture stream that has to be created
    again records nothing; the command line tool has four, the settings window six, the HTTP
    client three.

    ** What is not modelled

    Layouts, tool tips and constructors of the Qt pages; argument parsing, tables, editor and
    listener of the command line tool; the builds without local recognition; transfer speeds;
    the labels of Fcitx options and its INI files; construction and shutdown in main.cpp;
    file permissions, memory maps and symbolic links below the model directory. They are
    calls of libraries in a fixed order, without decisions of this program, or what the
    libraries do with them is not in the sources. Log output and timings are
    left out, and exceptions other than those the sources throw themselves and those of the
    offline decoder. Apart from the recording start, a handler of the controller is one
    step: StopRecording and the push loop of HandleIncomingAudio are not interleaved at
    their unlocked calls. The controller takes the answers of the capture as arguments;
    AudioCapture is proved on its own, not composed with it. *)

From stdpp Require Export base list strings gmap sorting.
From Stdlib Require Export ZArith Lia.
From Stdlib Require Import Strings.Byte.

#[export] Set Warnings "-via-type-mismatch,-clear-no-such-hyp,-postfix-notation-not-level-1".
Set Warnings "-via-type-mismatch,-clear-no-such-hyp,-postfix-notation-not-level-1".

(** ** Byte strings

    [std::string] and [std::string_view] are byte sequences: both are modelled
    by [bytes], lists of 8-bit characters, with string literals as notation. *)

Abbreviation bytes := (list Ascii.ascii).

Inductive literal : Set :=
  | LitNil
  | LitCons (c : literal_char) (l : literal)
with literal_char : Set :=
  | LitChar (b0 b1 b2 b3 b4 b5 b6 b7 : bool).

Definition literal_char_of_byte (b : Byte.byte) : literal_char :=
  let '(b0, (b1, (b2, (b3, (b4, (b5, (b6, b7))))))) := Byte.to_bits b in
  LitChar b0 b1 b2 b3 b4 b5 b6 b7.

Definition byte_of_literal_char (c : literal_char) : Byte.byte :=
  let '(LitChar b0 b1 b2 b3 b4 b5 b6 b7) := c in
  Byte.of_bits (b0, (b1, (b2, (b3, (b4, (b5, (b6, b7))))))).

Fixpoint parse_literal (l : list Byte.byte) : literal :=
  match l with
  | [] => LitNil
  | b :: l => LitCons (literal_char_of_byte b) (parse_literal l)
  end.

Fixpoint print_literal (l : literal) : list Byte.byte :=
  match l with
  | LitNil => []
  | LitCons c l => byte_of_literal_char c :: print_literal l
  end.

Declare Scope bytes_scope.
Delimit Scope bytes_scope with bytes.
String Notation list parse_literal print_literal
  (via literal mapping [[nil] => LitNil, [cons] => LitCons, Ascii.Ascii => LitChar])
  : bytes_scope.
#[global] Open Scope bytes_scope.

(** [s.empty()] *)
Definition is_empty {A} (l : list A) : bool :=
  match l with [] => true | _ :: _ => false end.

Lemma is_empty_true {A} (l : list A) : is_empty l = true <-> l = [].
Proof. by destruct l. Qed.

Lemma is_empty_false {A} (l : list A) : is_empty l = false <-> l <> [].
Proof. by destruct l. Qed.

(** [s == t] on strings, [a == b] on enumerations. *)
Notation "a =b b" := (bool_decide (a = b)) (at level 70, no associativity) : bytes_scope.

(** ** Automation *)

Create HintDb vinput.
Create Rewrite HintDb vinput.

(** Split every conjunction of the context and of the goal. *)
Ltac split_all :=
  repeat match goal with
  | H : _ /\ _ |- _ => destruct H
  | H : exists _, _ |- _ => destruct H
  | |- _ /\ _ => split
  end.

(** Case analysis on the guard of the leftmost conditional or match. *)
Ltac case_branch :=
  match goal with
  | |- context [match ?x with _ => _ end] =>
      lazymatch x with
      | context [match _ with _ => _ end] => fail
      | _ => destruct x eqn:?
      end
  | H : context [match ?x with _ => _ end] |- _ =>
      lazymatch x with
      | context [match _ with _ => _ end] => fail
      | _ => destruct x eqn:?
      end
  end.

Ltac crush :=
  repeat (first [ progress simplify_eq/= | case_branch ]);
  try done; eauto with vinput.

(** ** Record update

    [r <| f := v |>] is the assignment [r.f = v]. A record type declares its
    constructor expanded over its fields ([Fields]); the setter of a field is that
    expansion with the projection replaced. *)

Class Fields (R : Type) := expand : R -> R.
Class FieldUpdate {R E : Type} (field : R -> E) := alter_field : (E -> E) -> R -> R.

Ltac derive_field_update :=
  lazymatch goal with
  | |- @FieldUpdate ?R ?E ?field =>
      let x := constr:(_ : Fields R) in
      let x := eval hnf in x in
      let x := eval pattern field in x in
      lazymatch x with
      | ?build _ => exact (fun f => ltac:(let t := constr:(build (fun r => f (field r))) in
                                          let t := eval cbv beta in t in exact t))
      end
  end.

#[export] Hint Extern 0 (FieldUpdate _) => derive_field_update : typeclass_instances.

Notation "r <| f := v |>" := (alter_field (field := f) (fun _ => v) r)
  (at level 12, left associativity, f at level 11, v at level 200, format "r  <|  f  :=  v  |>").

(** ** Machine integers *)

(** [std::size_t] and [std::uint64_t] arithmetic wraps at 2^64. *)
Definition u64_max : N := 18446744073709551615.
Definition u64_wrap (n : N) : N := (n mod 18446744073709551616)%N.
Definition u64_add (a b : N) : N := u64_wrap (a + b).

Definition u64_sub (a b : N) : N := u64_wrap (a + (18446744073709551616 - u64_wrap b)).

Lemma u64_wrap_idemp n : u64_wrap (u64_wrap n) = u64_wrap n.
Proof. unfold u64_wrap. by rewrite N.Div0.mod_mod. Qed.

Lemma u64_add_wrap_l a b : u64_add (u64_wrap a) b = u64_wrap (a + b).
Proof. unfold u64_add, u64_wrap. by rewrite N.Div0.add_mod_idemp_l. Qed.

Lemma u64_wrap_small n : (n <= u64_max)%N -> u64_wrap n = n.
Proof. intros H. unfold u64_wrap. apply N.mod_small. unfold u64_max in H. lia. Qed.

Lemma u64_add_small a b : (a + b <= u64_max)%N -> u64_add a b = (a + b)%N.
Proof. apply u64_wrap_small. Qed.

Lemma u64_sub_small a b : (a <= u64_max)%N -> (b <= a)%N -> u64_sub a b = (a - b)%N.
Proof.
  intros Ha Hb. unfold u64_sub. rewrite (u64_wrap_small b) by lia. unfold u64_wrap, u64_max in *.
  replace (a + (18446744073709551616 - b))%N with (a - b + 1 * 18446744073709551616)%N by lia.
  rewrite N.Div0.mod_add. apply N.mod_small. lia.
Qed.

(** ** Lists and options *)

Definition size {A} (l : list A) : N := N.of_nat (length l).

Lemma size_app {A} (l k : list A) : size (l ++ k) = (size l + size k)%N.
Proof. unfold size. rewrite length_app. lia. Qed.

Lemma mapM_app {A B} (f : A -> option B) l k :
  mapM f (l ++ k) = l' ← mapM f l; k' ← mapM f k; Some (l' ++ k').
Proof.
  induction l as [|x l IH]; simpl; [by destruct (mapM f k)|].
  destruct (f x); simpl; [|done]. rewrite IH.
  destruct (mapM f l); simpl; [|done]. by destruct (mapM f k).
Qed.

Lemma mapM_id {A} (f : A -> option A) l : (forall x, f x = Some x) -> mapM f l = Some l.
Proof. intros H. induction l as [|x l IH]; simpl; [done|]. by rewrite H, IH. Qed.

Lemma mapM_Forall {A B} (f : A -> option B) (g : A -> B) (P : A -> Prop) l :
  (forall x, P x -> f x = Some (g x)) -> Forall P l -> mapM f l = Some (g <$> l).
Proof. intros H. induction 1 as [|x l Hx _ IH]; simpl; [done|]. by rewrite H, IH by done. Qed.

Lemma filter_id {A} (P : A -> Prop) `{!forall x, Decision (P x)} (l : list A) :
  Forall P l -> filter P l = l.
Proof. induction 1 as [|x l Hx _ IH]; [done|]. by rewrite filter_cons_True, IH. Qed.

Lemma fmap_eq_fmap {A B C} (f : A -> C) (g : B -> C) (h : A -> B) (l : list A) :
  (forall x, g (h x) = f x) -> g <$> (h <$> l) = f <$> l.
Proof. intros Hx. rewrite <-list_fmap_compose. apply list_fmap_ext. intros _ x _. apply Hx. Qed.

(** ** Fallible operations

    A [bool] result with an error out-parameter becomes a [result]: [Ok] for
    [true], [Err message] for [false] (with the message written when the caller
    passes a non-null pointer). *)

Inductive result (A : Type) := Ok (a : A) | Err (msg : bytes).
Arguments Ok {A} a.
Arguments Err {A} msg.

Definition result_bind {A B} (m : result A) (k : A -> result B) : result B :=
  match m with Ok a => k a | Err e => Err e end.

Declare Scope result_scope.
Notation "'let!' x ':=' m 'in' k" := (result_bind m (fun x => k))
  (at level 10, x pattern, m at level 100, k at level 200) : result_scope.
#[global] Open Scope result_scope.

Lemma result_bind_Ok {A B} (m : result A) (k : A -> result B) b :
  result_bind m k = Ok b <-> exists a, m = Ok a /\ k a = Ok b.
Proof. destruct m; simpl; naive_solver. Qed.

(** ** Deduplication by key

    The normalisers keep the first entry of every key, in order. *)

Section dedup.
Context {A : Type} (key_of : A -> bytes).

(** [if (seen.insert(key).second) normalized.push_back(x)] *)
Fixpoint dedup (seen : gset bytes) (l : list A) : list A :=
  match l with
  | [] => []
  | x :: l => if bool_decide (key_of x ∈ seen) then dedup seen l
              else x :: dedup ({[key_of x]} ∪ seen) l
  end.

Lemma dedup_fresh seen l x : x ∈ dedup seen l -> key_of x ∉ seen.
Proof.
  revert seen. induction l as [|y l IH]; intros seen; simpl; [by intros ?%elem_of_nil|].
  case_bool_decide; [apply IH|]. intros [->|Hx]%elem_of_cons; [done|].
  specialize (IH _ Hx). set_solver.
Qed.

Lemma dedup_NoDup seen l : NoDup (key_of <$> dedup seen l).
Proof.
  revert seen. induction l as [|x l IH]; intros seen; simpl; [constructor|].
  case_bool_decide; [apply IH|]. simpl. constructor; [|apply IH].
  intros (y & Hk & Hy)%list_elem_of_fmap. apply dedup_fresh in Hy. set_solver.
Qed.

Lemma dedup_sublist seen l : sublist (dedup seen l) l.
Proof.
  revert seen. induction l as [|x l IH]; intros seen; simpl; [constructor|].
  case_bool_decide; by constructor.
Qed.

Lemma dedup_id seen l :
  NoDup (key_of <$> l) -> Forall (fun x => key_of x ∉ seen) l -> dedup seen l = l.
Proof.
  revert seen. induction l as [|x l IH]; intros seen; simpl; [done|].
  intros [Hx Hn]%NoDup_cons [Hs Hf]%Forall_cons. rewrite bool_decide_eq_false_2 by done.
  f_equal. apply IH; [done|]. rewrite Forall_forall in *. intros y Hy.
  assert (key_of y ∈ key_of <$> l) by (apply list_elem_of_fmap; eauto).
  specialize (Hf y Hy). set_solver.
Qed.

(** The first entry of a key not yet seen survives. *)
Lemma dedup_keys seen l k :
  k ∉ seen -> k ∈ key_of <$> l -> k ∈ key_of <$> dedup seen l.
Proof.
  revert seen. induction l as [|x l IH]; intros seen Hk; simpl; [done|].
  case_bool_decide as Hx; rewrite !elem_of_cons.
  - intros [->|Hin]; [done|by apply IH].
  - destruct (decide (k = key_of x)) as [->|Hne]; [by left|]. intros [|Hin]; [done|].
    right. apply IH; set_solver.
Qed.
End dedup.
