(* ===== verification/StringUtils.v ===== *)
(** * String utilities (src/src/common/utils/string_utils.h)

    The zero-copy helpers on [std::string_view], over byte lists. Positions are
    the C++ indices; [None] is [npos] or [nullopt]. [std::isspace],
    [std::isdigit] and [std::tolower] are those of the C locale. *)

From S2P Require Import Prelude.
From Stdlib Require Import Ascii.

(** ** <cctype> and <string_view> *)

Definition code (c : ascii) : N := N_of_ascii c.

Definition isspace (c : ascii) : bool :=
  let n := code c in ((n =? 32) || ((9 <=? n) && (n <=? 13)))%N.
Definition isdigit (c : ascii) : bool :=
  let n := code c in ((48 <=? n) && (n <=? 57))%N.
Definition tolower (c : ascii) : ascii :=
  let n := code c in if ((65 <=? n) && (n <=? 90))%N then ascii_of_N (n + 32) else c.

Definition ch_nl : ascii := "010".
Definition ch_cr : ascii := "013".

(** [std::find_if]: the index of the first element that satisfies [p]. *)
Fixpoint find_if {A} (p : A -> bool) (l : list A) : option nat :=
  match l with
  | [] => None
  | x :: l => if p x then Some 0 else S <$> find_if p l
  end.

(** [s.find(c, from)] *)
Definition find_char_from (s : bytes) (c : ascii) (from : nat) : option nat :=
  Nat.add from <$> find_if (fun x => x =b c) (drop from s).
Definition find_char (s : bytes) (c : ascii) : option nat := find_char_from s c 0.

(** [s.rfind(c)] *)
Definition rfind_char (s : bytes) (c : ascii) : option nat :=
  i ← find_if (fun x => x =b c) (reverse s); Some (length s - S i).

Fixpoint starts_with (s p : bytes) {struct p} : bool :=
  match p, s with
  | [], _ => true
  | _ :: _, [] => false
  | x :: p, y :: s => (x =b y) && starts_with s p
  end.

Definition ends_with (s p : bytes) : bool := starts_with (reverse s) (reverse p).

(** [s.c_str()] as the C functions read it: up to the first NUL. *)
Fixpoint c_str (s : bytes) : bytes :=
  match s with
  | c :: s => if bool_decide (c = Ascii.ascii_of_N 0) then [] else c :: c_str s
  | [] => []
  end.

(** [s.find(t, from)] for a substring. *)
Fixpoint find_sub (s t : bytes) : option nat :=
  if starts_with s t then Some 0
  else match s with [] => None | _ :: s => S <$> find_sub s t end.
Definition find_sub_from (s t : bytes) (from : nat) : option nat :=
  Nat.add from <$> find_sub (drop from s) t.

(** [s.find_first_of(set, from)] *)
Definition find_first_of_from (s set : bytes) (from : nat) : option nat :=
  Nat.add from <$> find_if (fun x => existsb (fun c => x =b c) set) (drop from s).

Definition substr (s : bytes) (pos len : nat) : bytes := take len (drop pos s).

(** ** 1. Trimming *)

Definition Trim (text : bytes) : bytes :=
  let not_ws c := negb (isspace c) in
  match find_if not_ws text with
  | None => []
  | Some begin_idx =>
      match find_if not_ws (reverse text) with
      | None => []
      | Some rstart =>
          let end_idx := length text - rstart in
          substr text begin_idx (end_idx - begin_idx)
      end
  end.

(** ** 3. Affixes *)

Definition StripSuffix (text suffix : bytes) : bytes :=
  if ends_with text suffix then substr text 0 (length text - length suffix) else text.

Definition ConsumePrefix (text prefix : bytes) : bool * bytes :=
  if starts_with text prefix then (true, drop (length prefix) text) else (false, text).

(** ** 4. Splitting *)

(** The loop of [Split]: [fuel] bounds the iterations; every iteration that
    continues moves [start] past a delimiter, so [S (S (length text))] is enough
    ([Split_spec] below). *)
Fixpoint Split_loop (fuel : nat) (text : bytes) (delim : ascii) (start : nat)
    (tokens : list bytes) : list bytes :=
  match fuel with
  | O => tokens
  | S fuel =>
      if start <=? length text then
        match find_char_from text delim start with
        | None => tokens ++ [drop start text]
        | Some e => Split_loop fuel text delim (e + 1) (tokens ++ [substr text start (e - start)])
        end
      else tokens
  end.

Definition Split (text : bytes) (delim : ascii) : list bytes :=
  Split_loop (S (S (length text))) text delim 0 [].

Fixpoint SplitLines_loop (fuel : nat) (text : bytes) (start : nat) (lines : list bytes)
  : list bytes :=
  match fuel with
  | O => lines
  | S fuel =>
      if start <? length text then
        match find_char_from text ch_nl start with
        | None => lines ++ [drop start text]
        | Some e =>
            let len := e - start in
            let len := if (0 <? len) && (text !! (start + len - 1) =b Some ch_cr)
                       then len - 1 else len in
            SplitLines_loop fuel text (e + 1) (lines ++ [substr text start len])
        end
      else lines
  end.

Definition SplitLines (text : bytes) : list bytes :=
  SplitLines_loop (S (length text)) text 0 [].

Definition SplitOnce (text : bytes) (delimiter : ascii) : option (bytes * bytes) :=
  pos ← find_char text delimiter; Some (substr text 0 pos, drop (pos + 1) text).

Definition RSplitOnce (text : bytes) (delimiter : ascii) : option (bytes * bytes) :=
  pos ← rfind_char text delimiter; Some (substr text 0 pos, drop (pos + 1) text).

(** A trailing carriage return is dropped. *)
Definition strip_cr (line : bytes) : bytes :=
  match last line with Some c => if c =b ch_cr then removelast line else line | None => line end.

(** ** 5. Joining *)

Definition Join (elements : list bytes) (delimiter : bytes) : bytes :=
  match elements with
  | [] => []
  | e :: es => foldl (fun result e => (result ++ delimiter) ++ e) e es
  end.

Definition JoinKeyValue (m : list (bytes * bytes)) (item_delimiter kv_delimiter : bytes) : bytes :=
  let entry '(k, v) := (k ++ kv_delimiter) ++ v in
  match m with
  | [] => []
  | e :: es => foldl (fun result e => (result ++ item_delimiter) ++ entry e) (entry e) es
  end.

(** ** 6. Case-insensitive comparison *)

Fixpoint EqualsIgnoreCase (a b : bytes) : bool :=
  match a, b with
  | [], [] => true
  | x :: a, y :: b => (tolower x =b tolower y) && EqualsIgnoreCase a b
  | _, _ => false
  end.

Definition StartsWithIgnoreCase (text prefix : bytes) : bool :=
  (length prefix <=? length text) && EqualsIgnoreCase (substr text 0 (length prefix)) prefix.

(** ** 7. Numeric parsing *)

Definition digit_value (c : ascii) : option Z :=
  let n := Z.of_N (code c) in
  if ((48 <=? n) && (n <=? 57))%Z then Some (n - 48)%Z
  else if ((97 <=? n) && (n <=? 122))%Z then Some (n - 87)%Z
  else if ((65 <=? n) && (n <=? 90))%Z then Some (n - 55)%Z
  else None.

(** The longest run of base-[base] digits: how many, their value, the rest. *)
Fixpoint scan_digits (base : Z) (count : nat) (acc : Z) (s : bytes) : nat * Z * bytes :=
  match s with
  | [] => (count, acc, [])
  | c :: s' =>
      match digit_value c with
      | Some d => if (d <? base)%Z then scan_digits base (S count) (acc * base + d)%Z s'
                  else (count, acc, s)
      | None => (count, acc, s)
      end
  end.

(** An integer type: signedness and range. *)
Record int_type := { it_signed : bool; it_min : Z; it_max : Z }.
Definition int32 : int_type := {| it_signed := true; it_min := -2147483648; it_max := 2147483647 |}.

(** [std::from_chars]: the value and the unconsumed rest; [None] for
    [invalid_argument] and [result_out_of_range]. *)
Definition from_chars (T : int_type) (base : Z) (s : bytes) : option (Z * bytes) :=
  let '(neg, s1) :=
    match s with
    | "-"%char :: s' => if it_signed T then (true, s') else (false, s)
    | _ => (false, s)
    end in
  let '(count, v, rest) := scan_digits base 0 0 s1 in
  if count =? 0 then None
  else
    let v := if neg : bool then (- v)%Z else v in
    if ((it_min T <=? v) && (v <=? it_max T))%Z then Some (v, rest) else None.

(** [std::stoi]: white space, a sign, the longest run of digits; what follows is ignored. *)
Definition is_c_space (c : Ascii.ascii) : bool := (c =b " "%char) || ((9 <=? Ascii.N_of_ascii c) && (Ascii.N_of_ascii c <=? 13))%N.
Fixpoint skip_c_space (s : bytes) : bytes :=
  match s with c :: s' => if is_c_space c then skip_c_space s' else s | [] => [] end.
Definition stoi (s : bytes) : option Z :=
  let '(neg, digits) :=
    match skip_c_space s with
    | "-"%char :: s => (true, s)
    | "+"%char :: s => (false, s)
    | s => (false, s)
    end in
  let '(count, v, _) := scan_digits 10 0 0 digits in
  if (count =? 0)%nat then None
  else
    let v := if neg : bool then (- v)%Z else v in
    if ((it_min int32 <=? v) && (v <=? it_max int32))%Z then Some v else None.

Definition ParseInteger (T : int_type) (text : bytes) (base : Z) : option Z :=
  let trimmed := Trim text in
  if is_empty trimmed then None
  else '(v, rest) ← from_chars T base trimmed; if is_empty rest then Some v else None.

(** ** Facts about searching *)

Lemma find_if_Some {A} (p : A -> bool) l i :
  find_if p l = Some i ->
  exists x, l = take i l ++ x :: drop (S i) l /\ p x = true /\
    Forall (fun y => p y = false) (take i l) /\ i < length l.
Proof.
  revert i. induction l as [|x l IH]; intros i; simpl; [done|].
  destruct (p x) eqn:E; [intros [= <-]; exists x; simpl; repeat split; auto; lia|].
  destruct (find_if p l) as [j|]; simpl; [|done]. intros [= <-].
  destruct (IH j eq_refl) as (y & Hl & Hy & Hf & Hlt). exists y. simpl. repeat split; auto; [|lia].
  by f_equal.
Qed.

Lemma find_if_None {A} (p : A -> bool) l :
  find_if p l = None <-> Forall (fun y => p y = false) l.
Proof.
  induction l as [|x l IH]; simpl; [done|]. rewrite Forall_cons, <-IH.
  destruct (p x); [|destruct (find_if p l); simpl]; split; intuition congruence.
Qed.

Lemma find_if_app {A} (p : A -> bool) l x k :
  Forall (fun y => p y = false) l -> p x = true -> find_if p (l ++ x :: k) = Some (length l).
Proof.
  intros Hl Hx. induction Hl as [|y l Hy _ IH]; simpl; [by rewrite Hx|]. by rewrite Hy, IH.
Qed.

Lemma starts_with_spec s p : starts_with s p = true <-> exists r, s = p ++ r.
Proof.
  revert s. induction p as [|x p IH]; intros s; simpl; [by split; [exists s|]|].
  destruct s as [|y s]; [split; [done|by intros [? ?]]|].
  rewrite andb_true_iff, bool_decide_eq_true, IH. split.
  - intros [-> [r ->]]. eauto.
  - intros [r [= -> ->]]. eauto.
Qed.

Lemma ends_with_spec s p : ends_with s p = true <-> exists r, s = r ++ p.
Proof.
  unfold ends_with. rewrite starts_with_spec. split.
  - intros [r H]. exists (reverse r). by rewrite <-(reverse_involutive s), H, reverse_app, !reverse_involutive.
  - intros [r ->]. exists (reverse r). by rewrite reverse_app.
Qed.

(** ** Trimming: the reference definition *)

Definition blank (s : bytes) : Prop := Forall (fun c => isspace c = true) s.

(** Neither the first nor the last character is white space. *)
Definition trimmed (s : bytes) : Prop :=
  (forall c, head s = Some c -> isspace c = false) /\
  (forall c, last s = Some c -> isspace c = false).

Lemma not_ws_blank l : Forall (fun c => negb (isspace c) = false) l <-> blank l.
Proof. unfold blank. rewrite !Forall_forall. by setoid_rewrite negb_false_iff. Qed.

Lemma trimmed_reverse s : trimmed s -> trimmed (reverse s).
Proof. unfold trimmed. rewrite head_reverse, last_reverse. tauto. Qed.

(** Every text begins with a maximal blank prefix. *)
Lemma blank_prefix text :
  exists pre rest, text = pre ++ rest /\ blank pre /\
    (forall c, head rest = Some c -> isspace c = false).
Proof.
  induction text as [|c text (pre & rest & -> & Hp & Hr)];
    [exists [], []; split_and!; [done|constructor|done]|].
  destruct (isspace c) eqn:E.
  - exists (c :: pre), rest. split_and!; [done|by constructor|done].
  - exists [], (c :: pre ++ rest). split_and!; [done|constructor|]. by intros c' [= <-].
Qed.

Lemma trim_decompose text :
  exists pre core post, text = pre ++ core ++ post /\ blank pre /\ blank post /\ trimmed core.
Proof.
  destruct (blank_prefix text) as (pre & rest & -> & Hpre & Hr).
  destruct (blank_prefix (reverse rest)) as (post & core & Heq & Hpost & Hc).
  exists pre, (reverse core), (reverse post).
  assert (rest = reverse core ++ reverse post) as ->
    by (by rewrite <-reverse_app, <-Heq, reverse_involutive).
  split_and!; [done|done|by apply Forall_reverse|]. split; intros c Hc'.
  - apply Hr. rewrite head_app. by rewrite Hc'.
  - rewrite last_reverse in Hc'. auto.
Qed.

(** [Trim] computes the core of any such decomposition. *)
Lemma Trim_core pre core post :
  blank pre -> blank post -> trimmed core -> Trim (pre ++ core ++ post) = core.
Proof.
  intros Hpre Hpost [Hh Hl]. unfold Trim. set (not_ws c := negb (isspace c)).
  destruct core as [|x core].
  { rewrite (proj2 (find_if_None _ _)); [done|]. apply not_ws_blank. simpl.
    by apply Forall_app. }
  assert (exists core' y, x :: core = core' ++ [y]) as (core' & y & Hy)
    by (destruct (exists_last (l:=x :: core)) as (?&?&->); eauto).
  rewrite (find_if_app _ pre x (core ++ post)); [|by apply not_ws_blank|by unfold not_ws; rewrite Hh].
  replace (reverse (pre ++ (x :: core) ++ post)) with (reverse post ++ y :: reverse (pre ++ core'))
    by (by rewrite Hy, !reverse_app, reverse_singleton, <-!app_assoc).
  rewrite (find_if_app _ (reverse post) y);
    [|by apply not_ws_blank, Forall_reverse
     |unfold not_ws; rewrite Hl; [done|by rewrite Hy, last_snoc]].
  unfold substr. rewrite drop_app_length, length_reverse, !length_app.
  replace (_ - _ - _) with (length (x :: core)) by lia. by rewrite take_app_length.
Qed.

(** [Trim] removes exactly the surrounding white space: the text is a blank
    prefix, the trimmed part and a blank suffix, and the trimmed part neither
    begins nor ends with white space. *)
Theorem Trim_spec text :
  exists pre post, text = pre ++ Trim text ++ post /\ blank pre /\ blank post /\ trimmed (Trim text).
Proof.
  destruct (trim_decompose text) as (pre & core & post & -> & Hpre & Hpost & Hc).
  exists pre, post. by rewrite Trim_core.
Qed.

Lemma Trim_trimmed s : trimmed s -> Trim s = s.
Proof. intros H. rewrite <-(Trim_core [] s []) at 2; [|constructor..|done]. by rewrite app_nil_r. Qed.

Lemma trimmed_Trim s : trimmed (Trim s).
Proof. destruct (trim_decompose s) as (? & ? & ? & -> & ? & ? & ?). by rewrite Trim_core. Qed.

Lemma Trim_idemp s : Trim (Trim s) = Trim s.
Proof. apply Trim_trimmed, trimmed_Trim. Qed.
#[export] Hint Resolve trimmed_Trim : vinput.
#[export] Hint Rewrite Trim_idemp : vinput.

(** ** Splitting: the reference definition *)

Fixpoint split_ref (delim : ascii) (text : bytes) : list bytes :=
  match text with
  | [] => [[]]
  | c :: text =>
      if c =b delim then [] :: split_ref delim text
      else match split_ref delim text with
           | [] => [[c]]
           | t :: ts => (c :: t) :: ts
           end
  end.

Lemma split_ref_nonempty delim text : exists t ts, split_ref delim text = t :: ts.
Proof. destruct text as [|c text]; simpl; [eauto|]. repeat case_match; eauto. Qed.

Lemma split_ref_no_delim delim text : delim ∉ text -> split_ref delim text = [text].
Proof.
  induction text as [|c text IH]; [done|]. intros [Hc Ht]%not_elem_of_cons. simpl.
  rewrite bool_decide_eq_false_2 by done. by rewrite IH.
Qed.

Lemma split_ref_app delim tok rest :
  delim ∉ tok -> split_ref delim (tok ++ delim :: rest) = tok :: split_ref delim rest.
Proof.
  induction tok as [|c tok IH]; simpl; [by rewrite bool_decide_eq_true_2|].
  intros [Hc Ht]%not_elem_of_cons. by rewrite bool_decide_eq_false_2, IH by done.
Qed.

Lemma find_char_from_None s c from :
  find_char_from s c from = None -> c ∉ drop from s.
Proof.
  unfold find_char_from. destruct (find_if _ _) eqn:E; [done|]. intros _.
  apply find_if_None in E. rewrite Forall_forall in E. intros Hin.
  specialize (E c Hin). by rewrite bool_decide_eq_true_2 in E.
Qed.

Lemma find_char_from_Some s c from i :
  find_char_from s c from = Some i ->
  from <= i < length s /\ (c ∉ substr s from (i - from)) /\
  drop from s = substr s from (i - from) ++ (c :: drop (i + 1) s).
Proof.
  unfold find_char_from, substr. destruct (find_if _ _) as [j|] eqn:E; [|done].
  simpl. intros [= <-]. destruct (find_if_Some _ _ _ E) as (x & Hd & Hx & Hf & Hj).
  apply bool_decide_eq_true in Hx as ->. rewrite length_drop in Hj.
  replace (from + j - from) with j by lia. split; [lia|]. split.
  - rewrite Forall_forall in Hf. intros Hin. specialize (Hf c Hin).
    by rewrite bool_decide_eq_true_2 in Hf.
  - rewrite Hd at 1. rewrite drop_drop. by replace (from + S j) with (from + j + 1) by lia.
Qed.

Lemma Split_loop_spec fuel text delim start tokens :
  start <= length text -> length text - start < fuel ->
  Split_loop fuel text delim start tokens = tokens ++ split_ref delim (drop start text).
Proof.
  revert start tokens. induction fuel as [|fuel IH]; intros start tokens Hs Hf; [lia|].
  cbn [Split_loop]. rewrite (proj2 (Nat.leb_le _ _)) by done.
  destruct (find_char_from text delim start) as [e|] eqn:E.
  - destruct (find_char_from_Some _ _ _ _ E) as (He & Hn & Hd).
    rewrite IH by lia. rewrite <-app_assoc. f_equal. rewrite Hd.
    by rewrite split_ref_app.
  - by rewrite split_ref_no_delim by (by apply find_char_from_None).
Qed.

(** The loop terminates within its fuel and computes the reference split. *)
Lemma Split_spec text delim : Split text delim = split_ref delim text.
Proof. unfold Split. rewrite Split_loop_spec by lia. done. Qed.

Lemma RSplitOnce_absent s c : c ∉ s -> RSplitOnce s c = None.
Proof.
  intros Hc. unfold RSplitOnce, rfind_char. replace (find_if _ (reverse s)) with (@None nat); [done|].
  symmetry. apply find_if_None, Forall_forall. intros x Hx. apply bool_decide_eq_false. intros ->.
  by rewrite elem_of_reverse in Hx.
Qed.

(** The last occurrence is the one with no other after it. *)
Lemma RSplitOnce_app t c s : c ∉ s -> RSplitOnce (t ++ c :: s) c = Some (t, s).
Proof.
  intros Hc. unfold RSplitOnce, rfind_char. rewrite reverse_app, reverse_cons, <-app_assoc. cbn [app].
  rewrite (find_if_app _ (reverse s) c (reverse t)).
  - simpl. rewrite length_app, length_reverse. simpl. replace (length t + S (length s) - S (length s)) with (length t) by lia.
    unfold substr. rewrite drop_0, take_app_length, <-drop_drop, drop_app_length. done.
  - apply Forall_forall. intros x Hx. apply bool_decide_eq_false. intros ->. by rewrite elem_of_reverse in Hx.
  - by apply bool_decide_eq_true.
Qed.

Lemma strip_cr_trimmed s : trimmed s -> strip_cr s = s.
Proof.
  intros [_ Hl]. unfold strip_cr. destruct (last s) as [c|]; [|done]. specialize (Hl c eq_refl).
  rewrite bool_decide_eq_false_2; [done|]. by intros ->.
Qed.

Lemma SplitLines_step line rest pre :
  ch_nl ∉ line ->
  let text := pre ++ line ++ ch_nl :: rest in
  find_char_from text ch_nl (length pre) = Some (length pre + length line) /\
  substr text (length pre)
    (if (0 <? length line) && (text !! (length pre + length line - 1) =b Some ch_cr)
     then length line - 1 else length line) = strip_cr line.
Proof.
  intros Hl text. split.
  - unfold find_char_from, text. rewrite drop_app_length. rewrite (find_if_app _ line ch_nl rest); [done| |by apply bool_decide_eq_true].
    apply Forall_forall. intros x Hx. apply bool_decide_eq_false. by intros ->.
  - unfold substr, text. rewrite drop_app_length. destruct line as [|c line _] using rev_ind; [done|].
    rewrite length_app. cbn [length]. replace (0 <? length line + 1) with true by (symmetry; apply Nat.ltb_lt; lia).
    rewrite lookup_app_r by lia. replace (length pre + (length line + 1) - 1 - length pre) with (length line) by lia.
    rewrite <-app_assoc, lookup_app_r, Nat.sub_diag by lia. cbn [app]. cbn. unfold strip_cr. rewrite last_snoc.
    destruct (decide (c = ch_cr)) as [-> |Hn].
    + rewrite !bool_decide_eq_true_2 by done. rewrite List.removelast_last.
      replace (length line + 1 - 1) with (length line) by lia. apply take_app_length.
    + rewrite !bool_decide_eq_false_2 by congruence. replace (c :: ch_nl :: rest) with ([c] ++ ch_nl :: rest) by done.
      rewrite app_assoc. apply take_app_length'. rewrite length_app. simpl. lia.
Qed.

Lemma SplitLines_loop_lines {A} (f : A -> bytes) l fuel pre acc :
  Forall (fun x => (ch_nl ∉ f x) /\ strip_cr (f x) = f x) l ->
  (length l < fuel)%nat ->
  SplitLines_loop fuel (pre ++ concat ((fun x => f x ++ [ch_nl]) <$> l)) (length pre) acc = acc ++ (f <$> l).
Proof.
  intros Hl. revert fuel pre acc. induction Hl as [|x l [Hx Hs] _ IH]; intros fuel pre acc Hf; (destruct fuel as [|fuel]; [simpl in Hf; lia|]).
  - simpl. rewrite !app_nil_r. by rewrite (proj2 (Nat.ltb_ge _ _)).
  - rewrite fmap_cons. cbn [concat]. rewrite <-app_assoc. cbn [app SplitLines_loop].
    rewrite (proj2 (Nat.ltb_lt _ _)) by (rewrite !length_app; simpl; lia).
    destruct (SplitLines_step (f x) (concat ((fun x => f x ++ [ch_nl]) <$> l)) pre Hx) as [-> Hsub].
    replace (length pre + length (f x) - length pre) with (length (f x)) by lia. rewrite Hsub, Hs.
    replace (pre ++ f x ++ ch_nl :: concat ((fun x => f x ++ [ch_nl]) <$> l))
      with ((pre ++ f x ++ [ch_nl]) ++ concat ((fun x => f x ++ [ch_nl]) <$> l)) by (by rewrite <-!app_assoc).
    replace (length pre + length (f x) + 1) with (length (pre ++ f x ++ [ch_nl])) by (rewrite !length_app; simpl; lia).
    rewrite IH by (simpl in Hf; lia). by rewrite <-app_assoc.
Qed.

(** Lines that are written one after the other are read back. *)
Lemma SplitLines_lines {A} (f : A -> bytes) l :
  Forall (fun x => (ch_nl ∉ f x) /\ strip_cr (f x) = f x) l ->
  SplitLines (concat ((fun x => f x ++ [ch_nl]) <$> l)) = f <$> l.
Proof.
  intros Hl. unfold SplitLines. apply (SplitLines_loop_lines f l _ [] []); [done|].
  assert (length l <= length (concat ((fun x => f x ++ [ch_nl]) <$> l))) as H; [|lia].
  clear Hl. induction l as [|x l IH]; [done|]. rewrite fmap_cons. cbn [concat]. rewrite !length_app. simpl. lia.
Qed.

Lemma foldl_app_l {A} (f : A -> bytes) (a b : bytes) (es : list A) :
  foldl (fun r e => r ++ f e) (a ++ b) es = a ++ foldl (fun r e => r ++ f e) b es.
Proof.
  revert b. induction es as [|e es IH]; intros b; simpl; [done|]. by rewrite <-app_assoc, IH.
Qed.

Lemma Join_cons2 e1 e2 es d : Join (e1 :: e2 :: es) d = e1 ++ d ++ Join (e2 :: es) d.
Proof.
  unfold Join. simpl. rewrite <-(app_assoc e1 d e2).
  assert (forall r es, foldl (fun result e => (result ++ d) ++ e) r es
    = foldl (fun result e => result ++ (d ++ e)) r es) as H.
  { intros r es'. revert r. induction es' as [|e es' IH]; intros r; simpl; [done|].
    by rewrite app_assoc, IH. }
  by rewrite !H, !foldl_app_l.
Qed.

Lemma Join_split_ref delim text : Join (split_ref delim text) [delim] = text.
Proof.
  induction text as [|c text IH]; [done|]. simpl.
  destruct (split_ref_nonempty delim text) as (t & ts & E). rewrite E in *.
  case_bool_decide as Hc.
  - rewrite Join_cons2, IH, Hc. done.
  - destruct ts as [|t2 ts]; [simpl in *; by rewrite IH|].
    rewrite Join_cons2 in *. by rewrite <-IH.
Qed.

Lemma split_ref_Join delim tokens :
  tokens <> [] -> Forall (fun t => delim ∉ t) tokens ->
  split_ref delim (Join tokens [delim]) = tokens.
Proof.
  intros Hne H. induction H as [|t ts Ht Hts IH]; [done|].
  destruct ts as [|t2 ts]; [by apply split_ref_no_delim|].
  rewrite Join_cons2. cbn [app]. rewrite split_ref_app by done. by rewrite IH.
Qed.

Lemma split_ref_tokens delim text : Forall (fun t => delim ∉ t) (split_ref delim text).
Proof.
  induction text as [|c text IH]; simpl; [repeat constructor; apply not_elem_of_nil|].
  case_bool_decide as Hc; [constructor; [apply not_elem_of_nil|done]|].
  destruct (split_ref delim text); inversion IH; subst; repeat constructor; try done;
    apply not_elem_of_cons; auto using not_elem_of_nil.
Qed.

(** [Split] and [Join] are inverse: splitting never fails to terminate,
    gives back the text when joined with the delimiter, yields tokens without
    the delimiter, and recovers any non-empty list of such tokens. *)
Theorem Split_Join_roundtrip delim text tokens :
  Join (Split text delim) [delim] = text /\
  Forall (fun t => delim ∉ t) (Split text delim) /\
  (tokens <> [] -> Forall (fun t => delim ∉ t) tokens ->
   Split (Join tokens [delim]) delim = tokens).
Proof.
  rewrite !Split_spec. split_and!;
    [apply Join_split_ref|apply split_ref_tokens|apply split_ref_Join].
Qed.

(** ** Decimal printing ([std::to_string] of a non-negative integer) *)

Definition digit_char (d : Z) : ascii := ascii_of_N (Z.to_N (48 + d)).

Fixpoint to_dec (fuel : nat) (n : Z) : bytes :=
  match fuel with
  | O => []
  | S fuel => if (n <? 10)%Z then [digit_char n]
              else to_dec fuel (n / 10) ++ [digit_char (n mod 10)]
  end.

(** A value below [10^fuel] needs at most [fuel] digits, and [n < 10^(n+1)]. *)
Definition dec_fuel (n : Z) : nat := S (Z.to_nat (Z.log2 n)).

Definition to_string (n : Z) : bytes :=
  if (n <? 0)%Z then "-" ++ to_dec (dec_fuel (- n)) (- n) else to_dec (dec_fuel n) n.

Definition is_dec (c : ascii) : Prop := exists d, (0 <= d < 10)%Z /\ c = digit_char d.

Lemma digit_char_facts d :
  (0 <= d < 10)%Z ->
  digit_value (digit_char d) = Some d /\ isspace (digit_char d) = false /\
  digit_char d <> "."%char /\ digit_char d <> "-"%char /\ digit_char d <> "v"%char /\
  digit_char d <> "V"%char.
Proof.
  intros H. assert (d ∈ [0;1;2;3;4;5;6;7;8;9]%Z) as Hd by set_solver by lia.
  repeat (apply elem_of_cons in Hd as [->|Hd]; [by vm_compute|]). by apply elem_of_nil in Hd.
Qed.

Lemma digit_value_char d : (0 <= d < 10)%Z -> digit_value (digit_char d) = Some d.
Proof. intros H. apply (digit_char_facts d H). Qed.

Lemma to_dec_digits fuel n : (0 <= n)%Z -> Forall is_dec (to_dec fuel n).
Proof.
  revert n. induction fuel as [|fuel IH]; intros n Hn; simpl; [constructor|].
  destruct (Z.ltb_spec n 10).
  - repeat constructor. exists n. split; [lia|done].
  - apply Forall_app. split; [apply IH; apply Z.div_pos; lia|].
    repeat constructor. eexists. split; [|done]. by apply Z.mod_pos_bound.
Qed.

Definition dec_value (acc : Z) (s : bytes) : Z :=
  foldl (fun a c => a * 10 + default 0 (digit_value c))%Z acc s.

Lemma to_dec_value fuel n : (0 <= n < 2 ^ Z.of_nat fuel)%Z -> dec_value 0 (to_dec fuel n) = n.
Proof.
  revert n. induction fuel as [|fuel IH]; intros n Hn; simpl.
  { change (2 ^ Z.of_nat 0)%Z with 1%Z in Hn. unfold dec_value; simpl. lia. }
  destruct (Z.ltb_spec n 10).
  - unfold dec_value. simpl. by rewrite digit_value_char by lia.
  - unfold dec_value in *. rewrite foldl_app. simpl.
    rewrite IH; [|split; [apply Z.div_pos; lia|apply Z.div_lt_upper_bound; [lia|]]].
    + rewrite digit_value_char by (by apply Z.mod_pos_bound).
      simpl. rewrite (Z.div_mod n 10) at 3 by lia. lia.
    + rewrite Nat2Z.inj_succ, Z.pow_succ_r in Hn by lia. lia.
Qed.

Lemma dec_fuel_enough n : (0 <= n)%Z -> (0 <= n < 2 ^ Z.of_nat (dec_fuel n))%Z.
Proof.
  intros Hn. split; [done|]. unfold dec_fuel.
  rewrite Nat2Z.inj_succ, Z2Nat.id by apply Z.log2_nonneg.
  destruct (decide (n = 0)%Z) as [->|]; [done|]. apply Z.log2_spec. lia.
Qed.

Lemma to_string_digits n : (0 <= n)%Z -> Forall is_dec (to_string n) /\ to_string n <> [].
Proof.
  intros Hn. unfold to_string. destruct (Z.ltb_spec n 0); [lia|].
  split; [by apply to_dec_digits|]. unfold dec_fuel; simpl.
  case_match; [done|]. by intros [_ ?]%app_eq_nil.
Qed.

Lemma scan_digits_app count acc s t :
  Forall is_dec s ->
  scan_digits 10 count acc (s ++ t) = scan_digits 10 (count + length s) (dec_value acc s) t.
Proof.
  intros Hs. revert count acc. induction Hs as [|c s (d & Hd & ->) _ IH]; intros count acc; simpl.
  { by rewrite Nat.add_0_r. }
  rewrite digit_value_char by done. rewrite (proj2 (Z.ltb_lt _ _)) by lia.
  rewrite IH. f_equal. lia.
Qed.

(** Printing and scanning back: the value and the untouched rest. *)
Lemma from_chars_printed T n rest :
  (0 <= n)%Z -> (it_min T <= n <= it_max T)%Z ->
  (forall c, head rest = Some c -> digit_value c = None) ->
  from_chars T 10 (to_string n ++ rest) = Some (n, rest).
Proof.
  intros Hn HT Hr. destruct (to_string_digits n Hn) as [Hd Hne].
  assert (scan_digits 10 0 0 (to_string n ++ rest) = (length (to_string n), n, rest)) as Hs.
  { rewrite scan_digits_app by done. unfold to_string. destruct (Z.ltb_spec n 0); [lia|].
    rewrite to_dec_value by (apply dec_fuel_enough; lia). simpl.
    destruct rest as [|c rest]; [done|]. simpl. by rewrite (Hr c). }
  unfold from_chars. destruct (to_string n) as [|c s] eqn:E; [done|].
  inversion Hd as [|? ? (d & Hd' & ->) _]; subst. cbn [app].
  assert (forall (A : Type) (x y : A), match digit_char d with "-"%char => x | _ => y end = y) as Hm.
  { intros A x y. destruct (digit_char_facts d Hd') as (_ & _ & _ & Hn' & _).
    destruct (digit_char d) as [[] [] [] [] [] [] [] []]; done. }
  rewrite Hm. cbn [app] in Hs. rewrite Hs. simpl.
  destruct (_ && _) eqn:Eb; [done|]. apply andb_false_iff in Eb as [?|?]; lia.
Qed.
Lemma from_chars_to_string n rest :
  (0 <= n <= 2147483647)%Z ->
  (forall c, head rest = Some c -> digit_value c = None) ->
  from_chars int32 10 (to_string n ++ rest) = Some (n, rest).
Proof. intros Hn Hr. apply from_chars_printed; [lia|cbn; lia|done]. Qed.

Lemma EqualsIgnoreCase_refl s : EqualsIgnoreCase s s = true.
Proof. induction s as [|c s IH]; [done|]. cbn. rewrite bool_decide_eq_true_2 by done. exact IH. Qed.
