(* ===== verification/FileSystem.v ===== *)
(** * The file system

    What the utilities, the model manager and the installer use of it: a tree of
    directories and files, the system calls that change it, and the lexical part of
    [std::filesystem::path]. A path is the list of its names below the root; the trees
    here hold no symbolic links (where the code looks at links, it asks a parameter).
    A system call may fail for a reason of its own: the failures are a list the calls
    consume. Every state a call leaves behind is kept, in order: it is what a crash
    after that call would find, except that a file's data survives a power failure only
    once it has been synced. *)

From S2P Require Import Prelude StringUtils.
From Stdlib Require Import Ascii.

Inductive node := File (data : bytes) (synced : bool) | Dir (children : gmap bytes node).
Abbreviation path := (list bytes).

Definition is_dir (n : node) : bool := match n with Dir _ => true | File _ _ => false end.

Fixpoint walk (t : node) (p : path) : option node :=
  match p with
  | [] => Some t
  | name :: p => match t with
                 | Dir m => match m !! name with Some c => walk c p | None => None end
                 | File _ _ => None
                 end
  end.

(** The tree with [o] at [p]; unchanged when the parent of [p] is not a directory. *)
Fixpoint graft (p : path) (o : option node) (t : node) : node :=
  match p with
  | [] => default t o
  | name :: p' =>
      match t with
      | File _ _ => t
      | Dir m =>
          match p' with
          | [] => Dir (partial_alter (fun _ => o) name m)
          | _ => match m !! name with Some c => Dir (<[name := graft p' o c]> m) | None => t end
          end
      end
  end.

Definition parent_of (p : path) : path := take (length p - 1) p.
Definition has_parent (t : node) (p : path) : bool :=
  negb (is_empty p) && match walk t (parent_of p) with Some n => is_dir n | None => false end.

(** ** Queries *)

Definition exists_at (t : node) (p : path) : bool := bool_decide (is_Some (walk t p)).
Definition is_regular_file (t : node) (p : path) : bool := match walk t p with Some (File _ _) => true | _ => false end.
Definition is_directory (t : node) (p : path) : bool := match walk t p with Some (Dir _) => true | _ => false end.
Definition read_file (t : node) (p : path) : option bytes := match walk t p with Some (File data _) => Some data | _ => None end.

(** ** The calls, on a tree *)

Definition prefix_of (p q : path) : bool := bool_decide (p `prefix_of` q).

(** rename(2): a directory replaces an empty directory only, a file replaces a file. *)
Definition rename (from to : path) (t : node) : result node :=
  match walk t from with
  | None => Err "No such file or directory"
  | Some n =>
      if from =b to then Ok t
      else if prefix_of from to then Err "Invalid argument"
      else if prefix_of to from then Err (if is_dir n then "Directory not empty" else "Is a directory")
      else if negb (has_parent t to) then Err "No such file or directory"
      else
        let moved := graft to (Some n) (graft from None t) in
        match walk t to, n with
        | None, _ => Ok moved
        | Some (File _ _), File _ _ => Ok moved
        | Some (Dir m), Dir _ => if decide (m = ∅) then Ok moved else Err "Directory not empty"
        | Some (File _ _), Dir _ => Err "Not a directory"
        | Some (Dir _), File _ _ => Err "Is a directory"
        end
  end.

Definition mkdir (p : path) (t : node) : result node :=
  if exists_at t p then Err "File exists"
  else if negb (has_parent t p) then Err "No such file or directory"
  else Ok (graft p (Some (Dir ∅)) t).

(** ** The calls, as the program makes them *)

Record World := { fs : node; faults : list (option bytes); seen : list node }.
#[export] Instance World_fields : Fields World :=
  fun w => {| fs := fs w; faults := faults w; seen := seen w |}.

Definition next_fault (w : World) : option bytes * World :=
  match faults w with
  | [] => (None, w)
  | f :: rest => (f, w <| faults := rest |>)
  end.

Definition set_fs (t : node) (w : World) : World := w <| fs := t |> <| seen := seen w ++ [t] |>.

Definition call (f : node -> result node) (w : World) : result unit * World :=
  let '(fault, w) := next_fault w in
  match fault with
  | Some e => (Err e, w)
  | None => match f (fs w) with Ok t => (Ok tt, set_fs t w) | Err e => (Err e, w) end
  end.

(** [std::filesystem::create_directories]: the missing directories, from the top. *)
Fixpoint make_directories (above below : path) (w : World) : result unit * World :=
  match below with
  | [] => (Ok tt, w)
  | name :: rest =>
      let here := above ++ [name] in
      match walk (fs w) here with
      | Some (Dir _) => make_directories here rest w
      | Some (File _ _) => (Err "Not a directory", w)
      | None =>
          match call (mkdir here) w with
          | (Ok _, w) => make_directories here rest w
          | (Err e, w) => (Err e, w)
          end
      end
  end.
Definition create_directories (p : path) (w : World) : result unit * World := make_directories [] p w.

(** [std::filesystem::remove_all] is not one call: [leftover] is what it has left of the
    tree when it is interrupted or fails. *)
Section remove_all.
Context (leftover : node -> node).

Definition remove_all (p : path) (w : World) : result unit * World :=
  match walk (fs w) p with
  | None => (Ok tt, w)
  | Some n =>
      let w := set_fs (graft p (Some (leftover n)) (fs w)) w in
      let '(fault, w) := next_fault w in
      match fault with Some e => (Err e, w) | None => (Ok tt, set_fs (graft p None (fs w)) w) end
  end.
End remove_all.

(** ** Paths as text *)

(** [std::filesystem::path]: whether it is absolute, and the names it is iterated over. A
    trailing slash gives an empty last name; empty names between slashes are dropped. *)
Record fpath := { rooted : bool; names : path }.

Definition name_list (text : bytes) : path :=
  let raw := split_ref "/"%char text in
  let dirs := filter (fun n => n <> []) (take (length raw - 1) raw) in
  dirs ++ (if is_empty dirs then filter (fun n => n <> []) (drop (length raw - 1) raw) else drop (length raw - 1) raw).
Definition to_fpath (text : bytes) : fpath := {| rooted := starts_with text "/"; names := name_list text |}.

Definition show (p : fpath) : bytes := (if rooted p then "/"%char :: Join (names p) "/" else Join (names p) "/").
Definition empty_path (p : fpath) : bool := negb (rooted p) && is_empty (names p).
Definition parent_path (p : fpath) : fpath := {| rooted := rooted p; names := parent_of (names p) |}.
Definition filename (p : fpath) : bytes := default [] (last (names p)).
(** [operator/]: an empty path on the right leaves a trailing slash. *)
Definition join (p q : fpath) : fpath :=
  if rooted q then q
  else
    let stem := if bool_decide (last (names p) = Some []) then parent_of (names p) else names p in
    {| rooted := rooted p; names := stem ++ (if is_empty (names q) && negb (is_empty stem) then [[]] else names q) |}.

(** [lexically_normal]: dots are dropped, a name before dot-dot is dropped with it. *)
Definition dot_name (n : bytes) : bool := (n =b "." ) || is_empty n.
Fixpoint fold_dots (rooted : bool) (stack : path) (p : path) : path :=
  match p with
  | [] => stack
  | n :: p =>
      if dot_name n then fold_dots rooted stack p
      else if n =b ".." then
        if is_empty stack || bool_decide (last stack = Some "..") then fold_dots rooted (if rooted then stack else stack ++ [n]) p
        else fold_dots rooted (parent_of stack) p
      else fold_dots rooted (stack ++ [n]) p
  end.
(** Where an absolute path leads when there are no links. *)
Definition resolve_names (p : fpath) : path := fold_dots true [] (names p).
Definition trails (p : path) : bool := match last p with Some n => dot_name n || (n =b "..") | None => false end.
Definition lexically_normal (p : fpath) : fpath :=
  if empty_path p then p
  else
    let stack := fold_dots (rooted p) [] (names p) in
    {| rooted := rooted p;
       names := if is_empty stack then (if rooted p then [] else ["."])
                else if trails (names p) && negb (bool_decide (last stack = Some "..")) then stack ++ [[]] else stack |}.

(** ** Lemmas *)

Lemma walk_app t p q : walk t (p ++ q) = match walk t p with Some n => walk n q | None => None end.
Proof. revert t. induction p as [|name p IH]; intros t; [done|]. destruct t as [|m]; [done|]. cbn. by destruct (m !! name). Qed.

Lemma parent_snoc p name : parent_of (p ++ [name]) = p.
Proof. unfold parent_of. rewrite length_app. cbn. by rewrite Nat.add_sub, take_app_length. Qed.

Lemma has_parent_snoc t p name : has_parent t (p ++ [name]) = match walk t p with Some n => is_dir n | None => false end.
Proof. unfold has_parent. rewrite parent_snoc. destruct (is_empty (p ++ [name])) eqn:E; [|done]. apply is_empty_true in E. by destruct p. Qed.

Lemma has_parent_cons t name name' p :
  has_parent t (name :: name' :: p) = match t with Dir m => match m !! name with Some c => has_parent c (name' :: p) | None => false end | File _ _ => false end.
Proof.
  destruct (exists_last (l := name' :: p)) as (q & x & ->); [done|].
  rewrite (has_parent_snoc t (name :: q) x : has_parent t (name :: q ++ [x]) = _). destruct t as [|m]; [done|]. cbn.
  destruct (m !! name); [|done]. by rewrite has_parent_snoc.
Qed.

(** What is at a grafted path, and elsewhere. *)
Lemma walk_graft p o t : has_parent t p = true -> walk (graft p o t) p = o.
Proof.
  revert t. induction p as [|name p IH]; intros t Hp; [done|].
  destruct p as [|name' p].
  - destruct t as [|m]; [done|]. cbn. rewrite lookup_partial_alter_eq. by destruct o.
  - rewrite has_parent_cons in Hp. destruct t as [|m]; [done|]. cbn [graft].
    destruct (m !! name) as [c|] eqn:Ec; [|done]. cbn [walk]. rewrite lookup_insert_eq. by apply IH.
Qed.

Definition apart (p q : path) : Prop := ~ p `prefix_of` q /\ ~ q `prefix_of` p.

Lemma walk_graft_apart p o t q : apart p q -> walk (graft p o t) q = walk t q.
Proof.
  revert t q. induction p as [|name p IH]; intros t q [H1 H2]; [by destruct H1; apply prefix_nil|].
  destruct q as [|name2 q]; [by destruct H2; apply prefix_nil|].
  destruct t as [|m]; [done|].
  destruct (decide (name2 = name)) as [->|Hne].
  - assert (apart p q) as Ha by (split; intros Hx; [apply H1|apply H2]; by apply prefix_cons).
    destruct p as [|name' p]; [by destruct Ha as [[] _]; apply prefix_nil|].
    cbn [graft]. destruct (m !! name) as [c|] eqn:Ec; [|done]. cbn [walk]. rewrite lookup_insert_eq, Ec. by apply IH.
  - destruct p as [|name' p]; cbn [graft].
    + cbn [walk]. by rewrite lookup_partial_alter_ne.
    + destruct (m !! name); [|done]. cbn [walk]. by rewrite lookup_insert_ne.
Qed.

(** A directory above a grafted path stays a directory. *)
Lemma graft_above p o t q : q `prefix_of` p -> q <> p -> is_directory t q = true -> is_directory (graft p o t) q = true.
Proof.
  intros [r ->] Hne. unfold is_directory. revert t. induction q as [|name q IH]; intros t.
  - destruct r as [|name r]; [done|]. destruct t as [|m]; [done|]. cbn. intros _. destruct r; [done|]. by destruct (m !! name).
  - assert (Hq : q <> q ++ r) by (intros E; apply Hne; cbn; by rewrite <-E). specialize (IH Hq).
    destruct t as [|m]; [done|]. cbn [app graft walk]. destruct (m !! name) as [c|] eqn:Ec; [|done]. intros Hd.
    destruct (q ++ r) as [|n' l] eqn:E; [by destruct q; [destruct r|]|].
    cbn [walk]. rewrite lookup_insert_eq. by apply IH.
Qed.

Lemma has_parent_directory t p : has_parent t p = true <-> p <> [] /\ is_directory t (parent_of p) = true.
Proof.
  unfold has_parent, is_directory. rewrite andb_true_iff, negb_true_iff, is_empty_false.
  split; (intros [? H]; split; [done|]); by destruct (walk t (parent_of p)) as [[]|].
Qed.

Lemma parent_prefix p : p <> [] -> parent_of p `prefix_of` p /\ parent_of p <> p.
Proof.
  intros Hp. unfold parent_of. split; [apply prefix_take|]. intros E. apply (f_equal length) in E.
  rewrite length_take in E. destruct p; [done|]. cbn in E. lia.
Qed.

Lemma has_parent_graft p o t : has_parent t p = true -> has_parent (graft p o t) p = true.
Proof. intros [Hne Hd]%has_parent_directory. apply has_parent_directory. split; [done|]. by apply graft_above; [apply parent_prefix..|]. Qed.

Lemma apart_sym p q : apart p q -> apart q p.
Proof. by intros []. Qed.

Lemma apart_below p q r s : apart p q -> apart (p ++ r) (q ++ s).
Proof.
  revert q. induction p as [|x p IH]; intros q [H1 H2]; [by destruct H1; apply prefix_nil|].
  destruct q as [|y q]; [by destruct H2; apply prefix_nil|].
  destruct (decide (x = y)) as [<-|Hne].
  - assert (apart p q) as Ha by (split; intros Hx; [apply H1|apply H2]; by apply prefix_cons).
    destruct (IH q Ha) as [I1 I2]. cbn. split; intros Hx%prefix_cons_inv_2; [by apply I1|by apply I2].
  - cbn. split; intros Hx%prefix_cons_inv_1; congruence.
Qed.

Lemma apart_names p x y q r : x <> y -> apart (p ++ x :: q) (p ++ y :: r).
Proof.
  intros Hne. split; intros [k Hk]; rewrite <-app_assoc in Hk; apply app_inv_head in Hk; cbn in Hk; congruence.
Qed.

(** A rename that succeeds moves the subtree and nothing else. *)
Lemma rename_Ok from to t t' : rename from to t = Ok t' ->
  (from = to /\ t' = t) \/
  (apart from to /\ exists n, walk t from = Some n /\ t' = graft to (Some n) (graft from None t) /\ has_parent t to = true).
Proof.
  unfold rename. destruct (walk t from) as [n|] eqn:Ew; [|done].
  case_bool_decide as E1; [intros [= <-]; by left|]. unfold prefix_of.
  case_bool_decide as E2; [done|]. case_bool_decide as E3; [done|].
  destruct (has_parent t to) eqn:Ep; cbn [negb]; [|done]. intros H. right. split; [by split|]. exists n.
  destruct (walk t to) as [[|m]|]; destruct n; try (case_decide; [|done]); by simplify_eq.
Qed.

Lemma rename_moves from to t t' n : rename from to t = Ok t' -> apart from to -> walk t from = Some n ->
  walk t' to = Some n /\ (has_parent t from = true -> walk t' from = None).
Proof.
  intros H Ha Hn. destruct (rename_Ok _ _ _ _ H) as [[-> _]|(_ & n' & Hn' & -> & Hp)]; [by destruct Ha as [[] _]|].
  assert (n' = n) as -> by congruence. apply has_parent_directory in Hp as [Hne Hd].
  split.
  - apply walk_graft. apply has_parent_directory. split; [done|].
    destruct (decide (parent_of to `prefix_of` from)) as [Hpre|Hpre].
    + apply graft_above; [done| |done]. intros E. destruct Ha as [[] _]. rewrite <-E. by apply parent_prefix.
    + unfold is_directory. rewrite walk_graft_apart; [done|]. split; [|done]. intros Hx. destruct Ha as [[] _].
      etrans; [exact Hx|by apply parent_prefix].
  - intros Hf. rewrite walk_graft_apart by (by apply apart_sym). by apply walk_graft.
Qed.

Lemma rename_frame from to t t' q : rename from to t = Ok t' -> apart from q -> apart to q -> walk t' q = walk t q.
Proof.
  intros H Hf Ht. destruct (rename_Ok _ _ _ _ H) as [[_ ->]|(_ & n & _ & -> & _)]; [done|].
  by rewrite !walk_graft_apart.
Qed.

(** Only what lies above a new directory, and that directory, changes. *)
Lemma mkdir_keeps p t t' q : mkdir p t = Ok t' -> ~ q `prefix_of` p -> walk t' q = walk t q.
Proof.
  unfold mkdir, exists_at. case_bool_decide as Ex; [done|]. destruct (has_parent t p) eqn:Ep; [|done]. intros [= <-] Hq.
  destruct (decide (p `prefix_of` q)) as [[r ->]|Hpq]; [|by apply walk_graft_apart].
  rewrite !walk_app, walk_graft by done. destruct (walk t p); [by destruct Ex|].
  destruct r as [|n r]; [by destruct Hq; rewrite app_nil_r|]. cbn. by rewrite lookup_empty.
Qed.

Lemma mkdir_makes p t t' : mkdir p t = Ok t' -> walk t' p = Some (Dir ∅).
Proof. unfold mkdir. destruct (exists_at t p); [done|]. destruct (has_parent t p) eqn:Ep; [|done]. intros [= <-]. by apply walk_graft. Qed.

Lemma mkdir_directory p t t' q : mkdir p t = Ok t' -> is_directory t q = true -> is_directory t' q = true.
Proof.
  intros Hm Hd. destruct (decide (q = p)) as [->|Hne]; [unfold is_directory; by rewrite (mkdir_makes _ _ _ Hm)|].
  destruct (decide (q `prefix_of` p)) as [Hq|Hq]; [|unfold is_directory; by rewrite (mkdir_keeps _ _ _ _ Hm)].
  revert Hm. unfold mkdir. destruct (exists_at t p); [done|]. destruct (has_parent t p); [|done]. intros [= <-]. by apply graft_above.
Qed.

(** Below a grafted path there is what was grafted, or nothing has changed. *)
Lemma walk_graft_below p o t r :
  walk (graft p o t) (p ++ r) = match o with Some n => walk n r | None => None end \/ graft p o t = t.
Proof.
  revert t. induction p as [|name p IH]; intros t.
  - destruct o; [by left|by right].
  - destruct t as [|m]; [by right|]. destruct p as [|name' p].
    + left. cbn. rewrite lookup_partial_alter_eq. by destruct o.
    + change (graft (name :: name' :: p) o (Dir m)) with
        (match m !! name with Some c => Dir (<[name := graft (name' :: p) o c]> m) | None => Dir m end).
      destruct (m !! name) as [c|] eqn:Ec; [|by right]. destruct (IH c) as [H|H].
      * left. cbn [app walk]. by rewrite lookup_insert_eq.
      * right. by rewrite H, insert_id.
Qed.

Lemma exists_has_parent t p n : walk t p = Some n -> p <> [] -> has_parent t p = true.
Proof.
  intros Hw Hp. destruct (exists_last Hp) as (q & x & ->). rewrite has_parent_snoc. rewrite walk_app in Hw.
  destruct (walk t q) as [[|m]|]; [done|done|done].
Qed.

(** A file is in nobody's way. *)
Lemma walk_graft_file p o t q data b :
  ~ p `prefix_of` q -> walk t q = Some (File data b) -> walk (graft p o t) q = Some (File data b).
Proof.
  revert t q. induction p as [|name p IH]; intros t q Hp Hq; [by destruct Hp; apply prefix_nil|].
  destruct q as [|name2 q]; [cbn in Hq; by simplify_eq|].
  destruct t as [|m]; [done|]. cbn [walk] in Hq.
  destruct (decide (name2 = name)) as [->|Hne].
  - assert (~ p `prefix_of` q) as Hpq by (intros Hx; apply Hp; by apply prefix_cons).
    destruct p as [|name' p]; [by destruct Hpq; apply prefix_nil|].
    cbn [graft]. destruct (m !! name) as [c|] eqn:Ec; [|done]. cbn [walk]. rewrite lookup_insert_eq. by apply IH.
  - destruct p as [|name' p]; cbn [graft].
    + cbn [walk]. by rewrite lookup_partial_alter_ne.
    + destruct (m !! name); cbn [walk]; [by rewrite lookup_insert_ne|done].
Qed.

Lemma mkdir_file p t t' q data b : mkdir p t = Ok t' -> walk t q = Some (File data b) -> walk t' q = Some (File data b).
Proof.
  intros Hm Hq. destruct (decide (p `prefix_of` q)) as [Hp|Hp].
  - destruct (decide (q = p)) as [->|Hne].
    + revert Hm. unfold mkdir, exists_at. by rewrite Hq.
    + rewrite (mkdir_keeps _ _ _ _ Hm); [done|]. intros Hx. apply Hne. by apply (anti_symm prefix).
  - revert Hm. unfold mkdir. destruct (exists_at t p); [done|]. destruct (has_parent t p); [|done]. intros [= <-].
    by apply walk_graft_file.
Qed.

(** ** What holds of every state *)

(** [P] holds now and [Q] held at every moment. *)
Definition so_far (P Q : node -> Prop) (w : World) : Prop := P (fs w) /\ Forall Q (seen w).
Definition always (P : node -> Prop) (w : World) : Prop := so_far P P w.

Lemma always_impl (P Q : node -> Prop) w : always P w -> (forall t, P t -> Q t) -> always Q w.
Proof. intros [H1 H2] HPQ. split; [by apply HPQ|]. eapply Forall_impl; [exact H2|exact HPQ]. Qed.

Lemma so_far_set (P Q : node -> Prop) t w : so_far P Q w -> (forall t, P t -> Q t) -> P t -> so_far P Q (set_fs t w).
Proof. intros [_ Hs] HPQ Ht. split; [done|]. cbn. rewrite Forall_app. split; [done|]. apply Forall_singleton. by apply HPQ. Qed.

Lemma always_set (P : node -> Prop) t w : always P w -> P t -> always P (set_fs t w).
Proof. intros Hw Ht. by apply so_far_set. Qed.

Lemma call_cases f w r w' : call f w = (r, w') ->
  (exists e, r = Err e /\ fs w' = fs w /\ seen w' = seen w) \/
  (r = Ok tt /\ exists t, f (fs w) = Ok t /\ fs w' = t /\ seen w' = seen w ++ [t]).
Proof.
  unfold call, next_fault. destruct (faults w) as [|[e|] rest]; cbn.
  - destruct (f (fs w)) as [t|e] eqn:E; intros [= <- <-]; [right; split; [done|]; by exists t|left; by exists e].
  - intros [= <- <-]. left. by exists e.
  - destruct (f (fs w)) as [t|e] eqn:E; intros [= <- <-]; [right; split; [done|]; by exists t|left; by exists e].
Qed.

Lemma call_so_far (P Q : node -> Prop) f w r w' :
  call f w = (r, w') -> so_far P Q w -> (forall t, P t -> Q t) -> (forall t, f (fs w) = Ok t -> P t) -> so_far P Q w'.
Proof.
  intros Hc [H1 H2] HPQ Hf. destruct (call_cases _ _ _ _ Hc) as [(e & -> & Hfs & Hs)|(-> & t & Ht & Hfs & Hs)]; unfold so_far; rewrite Hfs, Hs.
  - done.
  - split; [by apply Hf|]. apply Forall_app. split; [done|]. apply Forall_singleton. by apply HPQ, Hf.
Qed.

Lemma call_always (P : node -> Prop) f w r w' :
  call f w = (r, w') -> always P w -> (forall t, f (fs w) = Ok t -> P t) -> always P w'.
Proof. intros Hc Hw Hf. by apply (call_so_far P P _ _ _ _ Hc Hw). Qed.

Lemma make_directories_so_far (P Q : node -> Prop) above below w r w' :
  make_directories above below w = (r, w') -> so_far P Q w -> (forall t, P t -> Q t) ->
  (forall p t t', p `prefix_of` (above ++ below) -> P t -> mkdir p t = Ok t' -> P t') -> so_far P Q w'.
Proof.
  intros Hm HP HPQ. revert above w HP Hm. induction below as [|name rest IH]; intros above w HP; cbn [make_directories].
  { by intros [= <- <-]. }
  intros Hm Hp. assert (Hp' : forall p t t', p `prefix_of` (above ++ [name]) ++ rest -> P t -> mkdir p t = Ok t' -> P t')
    by (rewrite <-app_assoc; exact Hp).
  destruct (walk (fs w) (above ++ [name])) as [[]|] eqn:Ew; [by injection Hm as <- <-|by apply (IH _ _ HP Hm)|].
  destruct (call (mkdir (above ++ [name])) w) as [r1 w1] eqn:Ec.
  assert (so_far P Q w1) as H1.
  { apply (call_so_far _ _ _ _ _ _ Ec HP HPQ). intros t Ht. apply (Hp' (above ++ [name]) (fs w)); [by apply prefix_app_r|apply HP|done]. }
  destruct r1; [by apply (IH _ _ H1 Hm)|by injection Hm as <- <-].
Qed.

Lemma make_directories_always (P : node -> Prop) above below w r w' :
  make_directories above below w = (r, w') -> always P w ->
  (forall p t t', p `prefix_of` (above ++ below) -> P t -> mkdir p t = Ok t' -> P t') -> always P w'.
Proof. intros Hm Hw Hp. by apply (make_directories_so_far P P _ _ _ _ _ Hm). Qed.

Lemma make_directories_Ok above below w w' :
  make_directories above below w = (Ok tt, w') -> is_directory (fs w) above = true -> is_directory (fs w') (above ++ below) = true.
Proof.
  revert above w. induction below as [|name rest IH]; intros above w; cbn [make_directories].
  { intros [= <-]. by rewrite app_nil_r. }
  intros Hm Ha. rewrite (cons_middle name above rest), app_assoc.
  destruct (walk (fs w) (above ++ [name])) as [[]|] eqn:Ew; [done|apply (IH _ _ Hm); unfold is_directory; by rewrite Ew|].
  destruct (call (mkdir (above ++ [name])) w) as [[[]|e] w1] eqn:Ec; [|done]. apply (IH _ _ Hm).
  destruct (call_cases _ _ _ _ Ec) as [(e & [=] & _)|(_ & t & Ht & Hfs & _)]. unfold is_directory. by rewrite Hfs, (mkdir_makes _ _ _ Ht).
Qed.

Lemma remove_all_always (P : node -> Prop) leftover p w :
  always P w -> (forall o t, P t -> P (graft p o t)) -> always P (snd (remove_all leftover p w)).
Proof.
  intros Hw Hp. unfold remove_all. destruct (walk (fs w) p) as [n|]; [|done].
  set (w1 := set_fs _ w). assert (H1 : always P w1) by (apply always_set; [done|apply Hp, Hw]). clearbody w1.
  unfold next_fault. destruct (faults w1) as [|[e|] rest]; cbn.
  - apply always_set; [done|]. apply Hp, H1.
  - exact H1.
  - apply always_set; [exact H1|]. apply Hp, H1.
Qed.

Lemma remove_all_gone leftover p w u w' :
  remove_all leftover p w = (Ok u, w') -> has_parent (fs w) p = true -> walk (fs w') p = None.
Proof.
  unfold remove_all. destruct (walk (fs w) p) as [n|] eqn:En; [|by intros [= _ <-]]. intros Hr Hp.
  set (w1 := set_fs _ w) in Hr. assert (H1 : has_parent (fs w1) p = true) by (by apply has_parent_graft). clearbody w1.
  revert Hr. unfold next_fault. destruct (faults w1) as [|[e|] rest]; [|done|]; intros [= _ <-]; by apply walk_graft.
Qed.
