(* ===== verification/FileUtils.v ===== *)
(** * File utilities (src/src/common/utils/file_utils.cpp, path_utils.cpp)

    Resolving symbolic links, writing a file atomically, reading with a limit, temporary
    directories, and the check that a path lies below a root. What the system says of
    links is the class [Links]; the answers of write(2) are an argument. *)

From S2P Require Import Prelude StringUtils FileSystem.
From Stdlib Require Import Ascii.

(** ** IsPathWithinRoot *)

(** The loop that removes a trailing slash of the root. *)
Definition strip_trailing (p : fpath) : fpath :=
  if is_empty (filename p) && negb (is_empty (names p)) then parent_path p else p.

Fixpoint leads (root p : path) : bool :=
  match root, p with
  | [], _ => true
  | _ :: _, [] => false
  | r :: root, n :: p => (n =b r) && leads root p
  end.

(** The iteration starts with the root directory of an absolute path. *)
Definition IsPathWithinRoot (p root : fpath) : bool :=
  let norm_path := lexically_normal p in
  let norm_root := strip_trailing (lexically_normal root) in
  match rooted norm_root with
  | true => rooted norm_path && leads (names norm_root) (names norm_path)
  | false => if rooted norm_path then is_empty (names norm_root) else leads (names norm_root) (names norm_path)
  end.

(** ** Symbolic links *)

Inductive status := Missing | StatusFailed (e : bytes) | NotLink | IsLink.

Class Links := {
  symlink_status : fpath -> status;
  read_symlink : fpath -> result fpath;
  canonical : fpath -> option fpath;
}.

Definition kMaxSymlinkDepth : nat := 32.

Section resolve.
Context `{Links}.

Definition ResolveRelativeSymlinkTarget (symlink_path link_target : fpath) : fpath :=
  if rooted link_target then link_target
  else
    let parent := parent_path symlink_path in
    if empty_path parent then lexically_normal link_target
    else match canonical parent with
         | Some canonical_parent => lexically_normal (join canonical_parent link_target)
         | None => lexically_normal (join parent link_target)
         end.

(** [budget] is the number of links that may still be followed; the inner recursion climbs
    to the parent of a missing path. [None]: the recursion would not end, which takes a
    missing root directory. *)
Fixpoint ResolveSymlinkPathImpl (budget : nat) : nat -> fpath -> option (result fpath) :=
  fix climb (fuel : nat) (p : fpath) {struct fuel} : option (result fpath) :=
    match budget with
    | O => Some (Err ("Too many symlink levels while resolving " ++ show p))
    | S budget =>
        match symlink_status p with
        | Missing =>
            let parent := parent_path p in
            if empty_path parent then Some (Ok p)
            else match fuel with
                 | O => None
                 | S fuel =>
                     match climb fuel parent with
                     | Some (Ok resolved_parent) =>
                         Some (Ok (if is_empty (filename p) then resolved_parent
                                   else lexically_normal (join resolved_parent {| rooted := false; names := [filename p] |})))
                     | other => other
                     end
                 end
        | StatusFailed e => Some (Err ("Failed to inspect path " ++ show p ++ ": " ++ e))
        | NotLink => Some (Ok p)
        | IsLink =>
            match read_symlink p with
            | Err e => Some (Err ("Failed to read symlink " ++ show p ++ ": " ++ e))
            | Ok link_target =>
                let target := ResolveRelativeSymlinkTarget p link_target in
                ResolveSymlinkPathImpl budget (length (names target)) target
            end
        end
    end.

Definition ResolveSymlinkPath (p : fpath) : option (result fpath) :=
  ResolveSymlinkPathImpl kMaxSymlinkDepth (length (names p)) p.

End resolve.

(** ** Writing *)

(** write(2): how much it took, a signal, or an error. *)
Inductive write_answer := Wrote (n : nat) | Interrupted | WriteFailed (e : bytes).

Definition store (p : path) (data : bytes) (w : World) : World := set_fs (graft p (Some (File data false)) (fs w)) w.

(** mkstemp: a new file, under a name that is not in use. *)
Definition make_file (p : path) : node -> result node := fun t =>
  if exists_at t p then Err "File exists"
  else if has_parent t p then Ok (graft p (Some (File [] false)) t) else Err "No such file or directory".

Definition unlink (p : path) : node -> result node := fun t =>
  match walk t p with
  | Some (File _ _) => Ok (graft p None t)
  | Some (Dir _) => Err "Is a directory"
  | None => Err "No such file or directory"
  end.

(** fsync: the data written so far is on the disk. *)
Definition sync_file (p : path) : node -> result node := fun t =>
  match walk t p with
  | Some (File data _) => Ok (graft p (Some (File data true)) t)
  | _ => Err "Bad file descriptor"
  end.

(** The write loop. The kernel takes at most what it is given; when no answer is left, the
    rest is taken at once. *)
Fixpoint write_loop (tmp : path) (answers : list write_answer) (done_ rest : bytes) (w : World) : result unit * World :=
  match rest with
  | [] => (Ok tt, w)
  | _ =>
      match answers with
      | [] => (Ok tt, store tmp (done_ ++ rest) w)
      | Wrote n :: answers =>
          write_loop tmp answers (done_ ++ take n rest) (drop n rest) (store tmp (done_ ++ take n rest) w)
      | Interrupted :: answers => write_loop tmp answers done_ rest w
      | WriteFailed e :: _ => (Err ("write failed: " ++ e), snd (call (unlink tmp) w))
      end
  end.

Definition EnsureParentDirectory (p : path) (w : World) : result unit * World :=
  let parent := parent_of p in
  if exists_at (fs w) parent then (Ok tt, w)
  else match create_directories parent w with
       | (Err e, w) => (Err ("Failed to create directory " ++ show {| rooted := true; names := parent |} ++ ": " ++ e), w)
       | ok => ok
       end.

(** The name mkstemp makes of the template; [suffix] are its six characters. *)
Definition temp_name (target : path) (suffix : bytes) : path :=
  parent_of target ++ [default [] (last target) ++ ".tmp." ++ suffix].

(** The part after the links are resolved. *)
Definition write_resolved (target : path) (content suffix : bytes) (answers : list write_answer) (w : World)
  : result unit * World :=
  match EnsureParentDirectory target w with
  | (Err e, w) => (Err e, w)
  | (Ok _, w) =>
      let tmp := temp_name target suffix in
      match call (make_file tmp) w with
      | (Err e, w) => (Err ("mkstemp failed: " ++ e), w)
      | (Ok _, w) =>
          match write_loop tmp answers [] content w with
          | (Err e, w) => (Err e, w)
          | (Ok _, w) =>
              match call (sync_file tmp) w with
              | (Err e, w) => (Err ("fsync failed: " ++ e), snd (call (unlink tmp) w))
              | (Ok _, w) =>
                  match call (rename tmp target) w with
                  | (Err e, w) => (Err ("rename failed: " ++ e), snd (call (unlink tmp) w))
                  | (Ok _, w) => (Ok tt, w)
                  end
              end
          end
      end
  end.

Definition AtomicWriteTextFile `{Links} (target : fpath) (content suffix : bytes) (answers : list write_answer) (w : World)
  : option (result unit * World) :=
  match ResolveSymlinkPath target with
  | None => None
  | Some (Err e) => Some (Err e, w)
  | Some (Ok resolved_target) => Some (write_resolved (names resolved_target) content suffix answers w)
  end.

(** ** Reading *)

(** The chunked read of a file of the given content, at most [max_bytes] of it; [0] is no
    limit. *)
Definition kChunk : nat := 8192.
Fixpoint read_loop (fuel : nat) (data content : bytes) (max_bytes : nat) : bytes :=
  match fuel with
  | O => content
  | S fuel =>
      if length content <? max_bytes then
        let to_read := Nat.min kChunk (max_bytes - length content) in
        match take to_read data with
        | [] => content
        | chunk => read_loop fuel (drop to_read data) (content ++ chunk) max_bytes
        end
      else content
  end.

(** [None]: the file cannot be opened. *)
Definition ReadTextFile (p : bytes) (file : option bytes) (max_bytes : nat) : result bytes :=
  match file with
  | None => Err ("Failed to open file " ++ p)
  | Some data => Ok (if (0 <? max_bytes)%nat then read_loop (S (length data)) data [] max_bytes else data)
  end.

(** ** Temporary directories *)

Record ScopedTempDir := { td_path : path; td_active : bool }.
#[export] Instance ScopedTempDir_fields : Fields ScopedTempDir := fun d => {| td_path := td_path d; td_active := td_active d |}.

(** mkdtemp in [base_dir]; [suffix] are the six characters it chooses. *)
Definition ScopedTempDir_Create (base_dir : path) (prefix suffix : bytes) (w : World) : result ScopedTempDir * World :=
  match create_directories base_dir w with
  | (Err e, w) => (Err ("Failed to create directory " ++ show {| rooted := true; names := base_dir |} ++ ": " ++ e), w)
  | (Ok _, w) =>
      let dir := base_dir ++ [prefix ++ suffix] in
      match call (mkdir dir) w with
      | (Err e, w) => (Err ("Failed to create temporary directory: " ++ e), w)
      | (Ok _, w) => (Ok {| td_path := dir; td_active := true |}, w)
      end
  end.

Definition ScopedTempDir_Dismiss (d : ScopedTempDir) : ScopedTempDir := d <| td_active := false |>.
(** [Remove], which the destructor calls. *)
Definition ScopedTempDir_Remove (leftover : node -> node) (d : ScopedTempDir) (w : World) : World :=
  if td_active d && negb (is_empty (td_path d)) then snd (remove_all leftover (td_path d) w) else w.

(** ** A path below a root *)

Lemma leads_prefix root p : leads root p = true <-> root `prefix_of` p.
Proof.
  revert p. induction root as [|r root IH]; intros p; cbn.
  - split; [intros _; apply prefix_nil|done].
  - destruct p as [|n p]; [split; [done|by intros ?%prefix_nil_inv]|].
    rewrite andb_true_iff, bool_decide_eq_true, IH. split.
    + intros [-> Hp]. by apply prefix_cons.
    + intros Hp. split; [by apply prefix_cons_inv_1 in Hp|by apply prefix_cons_inv_2 in Hp].
Qed.

(** Names that cannot move out of a directory. *)
Definition plain_name (n : bytes) : Prop := n <> [] /\ n <> "." /\ n <> "..".
#[export] Instance plain_name_dec n : Decision (plain_name n).
Proof. unfold plain_name. apply _. Defined.

Lemma fold_dots_plain b stack p : Forall plain_name p -> fold_dots b stack p = stack ++ p.
Proof.
  revert stack. induction p as [|n p IH]; intros stack Hp; [by rewrite app_nil_r|].
  inversion_clear Hp as [|? ? (H1 & H2 & H3) Hp']. cbn [fold_dots]. unfold dot_name.
  rewrite (bool_decide_eq_false_2 _ H2), (proj2 (is_empty_false n) H1), (bool_decide_eq_false_2 _ H3). cbn.
  rewrite IH by done. by rewrite <-app_assoc.
Qed.

Lemma trails_plain p : Forall plain_name p -> trails p = false.
Proof.
  intros Hp. unfold trails. destruct (last p) as [n|] eqn:E; [|done].
  apply last_Some_elem_of in E. rewrite Forall_forall in Hp. destruct (Hp n E) as (H1 & H2 & H3). unfold dot_name.
  by rewrite (bool_decide_eq_false_2 _ H2), (proj2 (is_empty_false n) H1), (bool_decide_eq_false_2 _ H3).
Qed.

Lemma lexically_normal_plain p : Forall plain_name p -> lexically_normal {| rooted := true; names := p |} = {| rooted := true; names := p |}.
Proof.
  intros Hp. unfold lexically_normal. cbn [empty_path rooted names negb andb].
  rewrite (fold_dots_plain _ _ _ Hp), (trails_plain _ Hp), app_nil_l. by destruct p.
Qed.

(** On canonical paths the check is exactly: the root's names come first. *)
Theorem within_root_exact p root :
  Forall plain_name p -> Forall plain_name root ->
  IsPathWithinRoot {| rooted := true; names := p |} {| rooted := true; names := root |} = true <-> root `prefix_of` p.
Proof.
  intros Hp Hr. unfold IsPathWithinRoot. rewrite !lexically_normal_plain by done.
  assert (strip_trailing {| rooted := true; names := root |} = {| rooted := true; names := root |}) as ->.
  { unfold strip_trailing, filename. cbn [names]. destruct (last root) as [n|] eqn:E.
    - apply last_Some_elem_of in E. rewrite Forall_forall in Hr. destruct (Hr n E) as (H1 & _). cbn. by rewrite (proj2 (is_empty_false n) H1).
    - apply last_None in E as ->. done. }
  cbn. apply leads_prefix.
Qed.

(** ** Links *)

Section resolve_facts.
Context `{Links}.

(** The recursion ends whenever the root directory exists: a missing path climbs to a
    parent with fewer names, a link uses up the budget. *)
Theorem resolve_returns p :
  symlink_status {| rooted := true; names := [] |} <> Missing -> is_Some (ResolveSymlinkPath p).
Proof.
  intros Hroot. unfold ResolveSymlinkPath. generalize kMaxSymlinkDepth as budget. intros budget.
  revert p. induction budget as [|budget IHb]; intros p; [by destruct (length (names p))|].
  remember (length (names p)) as n eqn:En. revert p En. induction n as [|n IHn]; intros p En.
  - cbn [ResolveSymlinkPathImpl]. destruct (symlink_status p) eqn:Es; [|done|done|destruct (read_symlink p); [apply IHb|done]].
    destruct p as [[] l]; cbn in En; destruct l; try done.
  - cbn [ResolveSymlinkPathImpl]. destruct (symlink_status p) eqn:Es; [|done|done|destruct (read_symlink p); [apply IHb|done]].
    destruct (empty_path (parent_path p)); [done|].
    destruct (IHn (parent_path p)) as [r Hr].
    { cbn. unfold parent_of. rewrite length_take. lia. }
    cbn [ResolveSymlinkPathImpl] in Hr. rewrite Hr. by destruct r.
Qed.
End resolve_facts.

(** ** Reading *)

Lemma kChunk_pos : (1 <= kChunk)%nat.
Proof. by apply Nat.leb_le. Qed.

Lemma read_loop_take fuel data content max :
  (length data < fuel)%nat -> (length content <= max)%nat ->
  read_loop fuel data content max = content ++ take (max - length content) data.
Proof.
  revert data content. induction fuel as [|fuel IH]; intros data content Hf Hc; [lia|]. cbn [read_loop].
  destruct (Nat.ltb_spec (length content) max) as [Hlt|Hge].
  - set (k := Nat.min kChunk (max - length content)).
    assert (1 <= k <= max - length content)%nat as Hk by (pose proof kChunk_pos; unfold k; lia). clearbody k.
    destruct (take k data) as [|b chunk] eqn:Et.
    + apply (f_equal length) in Et. rewrite length_take in Et. cbn in Et.
      destruct data; [|cbn in Et; lia]. by rewrite take_nil, app_nil_r.
    + assert (length (b :: chunk) <= k)%nat by (rewrite <-Et, length_take; lia).
      assert (length (drop k data) < fuel)%nat as Hd.
      { rewrite length_drop. destruct data; [rewrite take_nil in Et; done|]. cbn in Hf |- *. lia. }
      rewrite IH; [|done|rewrite length_app; lia]. rewrite <-app_assoc. f_equal.
      rewrite length_app, <-Et, length_take. destruct (le_lt_dec k (length data)).
      * rewrite take_take_drop. f_equal. lia.
      * rewrite (drop_ge data k), take_nil, app_nil_r, !take_ge by lia. done.
  - replace (max - length content)%nat with 0%nat by lia. by rewrite app_nil_r.
Qed.

(** A limited read gives the beginning of the file, whatever the chunks. *)
Lemma ReadTextFile_take p data max :
  ReadTextFile p (Some data) max = Ok (if (0 <? max)%nat then take max data else data).
Proof.
  unfold ReadTextFile. destruct (Nat.ltb_spec 0 max); [|done]. rewrite read_loop_take by (cbn; lia). cbn. by rewrite Nat.sub_0_r.
Qed.

(** ** The atomic write *)

Section atomic_write.
Context (target : path) (content suffix : bytes) (t0 : node).
Hypothesis Htarget : target <> [].
Let tmp := temp_name target suffix.

(** Nothing but the temporary file and missing directories has been touched. *)
Definition untouched (t : node) : Prop :=
  walk t target = walk t0 target /\
  forall q data b, q <> target -> walk t0 q = Some (File data b) -> walk t q = Some (File data b).

Definition replaced (t : node) : Prop :=
  walk t target = Some (File content true) /\
  forall q data b, q <> target -> walk t0 q = Some (File data b) -> walk t q = Some (File data b).

Definition safe (t : node) : Prop := untouched t \/ replaced t.

(** What is asked of every moment. *)
Context (Q : node -> Prop).
Hypothesis HQ : forall t, safe t -> Q t.

Lemma untouched_Q t : untouched t -> Q t.
Proof. intros Ht. apply HQ. by left. Qed.

(** The temporary file with the data written so far. *)
Definition holds (data : bytes) (synced : bool) (t : node) : Prop :=
  walk t tmp = Some (File data synced) /\ has_parent t tmp = true.

Lemma tmp_sibling : exists p name, target = p ++ [name] /\ tmp = p ++ [name ++ ".tmp." ++ suffix].
Proof.
  destruct (exists_last Htarget) as (p & name & E). exists p, name. split; [done|].
  unfold tmp, temp_name. rewrite E, parent_snoc, last_snoc. done.
Qed.

Lemma tmp_apart : apart tmp target.
Proof.
  destruct tmp_sibling as (p & name & E1 & E2). rewrite E1, E2. apply apart_names.
  intros E. apply (f_equal length) in E. rewrite !length_app in E. cbn in E. lia.
Qed.

Lemma tmp_nonempty : tmp <> [].
Proof. destruct tmp_sibling as (p & name & _ & ->). by destruct p. Qed.

Lemma tmp_parent : parent_of tmp = parent_of target.
Proof. destruct tmp_sibling as (p & name & E1 & E2). by rewrite E1, E2, !parent_snoc. Qed.

(** The temporary file was not a file before. *)
Definition fresh : Prop := forall data b, walk t0 tmp <> Some (File data b).

Lemma graft_tmp o data b t : fresh -> untouched t -> holds data b t -> untouched (graft tmp o t).
Proof.
  intros Hf [H1 H2] [Ht Hp]. split.
  - rewrite walk_graft_apart; [done|apply tmp_apart].
  - intros q d b' Hq Hd. specialize (H2 q d b' Hq Hd). destruct (decide (tmp `prefix_of` q)) as [[r ->]|Hn].
    + rewrite walk_app, Ht in H2. destruct r; [|done]. rewrite app_nil_r in Hd. by destruct (Hf d b').
    + by apply walk_graft_file.
Qed.

Lemma holds_graft data b data' b' t : holds data b t -> holds data' b' (graft tmp (Some (File data' b')) t).
Proof.
  intros [Ht Hp]. split; [by apply walk_graft|by apply has_parent_graft].
Qed.

Lemma mkdir_untouched p t t' : p `prefix_of` parent_of target -> untouched t -> mkdir p t = Ok t' -> untouched t'.
Proof.
  intros Hp [H1 H2] Hm. split.
  - rewrite <-H1. apply (mkdir_keeps _ _ _ _ Hm). intros Hx. destruct (parent_prefix target Htarget) as [_ Hne]. apply Hne.
    apply (anti_symm prefix); [by apply parent_prefix|by etrans].
  - intros q d b Hq Hd. apply (mkdir_file _ _ _ _ _ _ Hm). by apply H2.
Qed.

Lemma EnsureParentDirectory_spec w r w' :
  EnsureParentDirectory target w = (r, w') -> so_far untouched Q w -> so_far untouched Q w'.
Proof.
  unfold EnsureParentDirectory. destruct (exists_at (fs w) (parent_of target)); [by intros [= <- <-]|].
  destruct (create_directories (parent_of target) w) as [r1 w1] eqn:Ec. intros Hr Hw.
  assert (so_far untouched Q w1) by (apply (make_directories_so_far _ _ _ _ _ _ _ Ec Hw untouched_Q); intros p t t' Hp; by apply mkdir_untouched).
  by destruct r1; injection Hr as <- <-.
Qed.

Lemma store_spec data data' b w :
  fresh -> so_far untouched Q w -> holds data b (fs w) -> so_far untouched Q (store tmp data' w) /\ holds data' false (fs (store tmp data' w)).
Proof.
  intros Hf Hw Hh. split; [|by apply (holds_graft data b)]. apply so_far_set; [done|apply untouched_Q|]. by apply (graft_tmp _ data b); [|apply Hw|].
Qed.

Lemma unlink_always w : fresh -> so_far untouched Q w -> (exists data b, holds data b (fs w)) -> so_far untouched Q (snd (call (unlink tmp) w)).
Proof.
  intros Hf Hw (data & b & Hh). destruct (call (unlink tmp) w) as [r w'] eqn:Ec. apply (call_so_far _ _ _ _ _ _ Ec Hw untouched_Q).
  intros t. unfold unlink. rewrite (proj1 Hh). intros [= <-]. by apply (graft_tmp _ data b); [|apply Hw|].
Qed.

Lemma write_loop_spec answers done_ rest w r w' :
  write_loop tmp answers done_ rest w = (r, w') -> fresh -> so_far untouched Q w -> (exists b, holds done_ b (fs w)) ->
  so_far untouched Q w' /\ (r = Ok tt -> exists b, holds (done_ ++ rest) b (fs w')).
Proof.
  revert done_ rest w. induction answers as [|a answers IH]; intros done_ rest w Hl Hf Hw [b Hh]; destruct rest as [|c rest].
  - injection Hl as <- <-. split; [done|]. intros _. exists b. by rewrite app_nil_r.
  - injection Hl as <- <-. destruct (store_spec done_ (done_ ++ c :: rest) b w Hf Hw Hh) as [H1 H2]. split; [done|]. eauto.
  - injection Hl as <- <-. split; [done|]. intros _. exists b. by rewrite app_nil_r.
  - cbn [write_loop] in Hl. destruct a as [n| |e].
    + destruct (store_spec done_ (done_ ++ take n (c :: rest)) b w Hf Hw Hh) as [H1 H2].
      destruct (IH _ _ _ Hl Hf H1 (ex_intro _ false H2)) as [H3 H4]. split; [done|]. intros Hr.
      destruct (H4 Hr) as [b' Hb]. exists b'. by rewrite <-app_assoc, take_drop in Hb.
    + by apply (IH _ _ _ Hl Hf Hw (ex_intro _ b Hh)).
    + injection Hl as <- <-. split; [|done]. apply unlink_always; eauto.
Qed.

Lemma make_file_spec w w' : call (make_file tmp) w = (Ok tt, w') -> so_far untouched Q w ->
  fresh /\ so_far untouched Q w' /\ holds [] false (fs w').
Proof.
  intros Hc Hw. destruct (call_cases _ _ _ _ Hc) as [(e & [=] & _)|(_ & t & Ht & Hfs & Hs)].
  unfold make_file, exists_at in Ht. case_bool_decide as Ex; [done|]. destruct (has_parent (fs w) tmp) eqn:Ep; [|done].
  injection Ht as Ht. assert (fresh) as Hf.
  { intros data b Hd. apply Ex. destruct Hw as [[_ H2] _]. rewrite (H2 tmp data b); [done| |done]. intros E. destruct tmp_apart as [[] _]. by rewrite E. }
  split; [done|]. split.
  - apply (call_so_far _ _ _ _ _ _ Hc Hw untouched_Q). intros t'. unfold make_file, exists_at. rewrite bool_decide_eq_false_2, Ep by done. intros [= <-].
    destruct Hw as [[H1 H2] _]. split; [rewrite walk_graft_apart; [done|apply tmp_apart]|].
    intros q d b Hq Hd. specialize (H2 q d b Hq Hd). destruct (decide (tmp `prefix_of` q)) as [[x ->]|Hn].
    + rewrite walk_app in H2. by destruct (walk (fs w) tmp); [destruct Ex|].
    + by apply walk_graft_file.
  - rewrite Hfs, <-Ht. split; [by apply walk_graft|by apply has_parent_graft].
Qed.

Lemma sync_spec w w' data : call (sync_file tmp) w = (Ok tt, w') -> fresh -> so_far untouched Q w -> (exists b, holds data b (fs w)) ->
  so_far untouched Q w' /\ holds data true (fs w').
Proof.
  intros Hc Hf Hw [b Hh]. destruct (call_cases _ _ _ _ Hc) as [(e & [=] & _)|(_ & t & Ht & Hfs & Hs)].
  unfold sync_file in Ht. rewrite (proj1 Hh) in Ht. injection Ht as Ht. split.
  - apply (call_so_far _ _ _ _ _ _ Hc Hw untouched_Q). intros t'. unfold sync_file. rewrite (proj1 Hh). intros [= <-].
    by apply (graft_tmp _ data b); [|apply Hw|].
  - rewrite Hfs, <-Ht. by apply (holds_graft data b).
Qed.

Lemma rename_spec t t' : rename tmp target t = Ok t' -> fresh -> untouched t -> holds content true t ->
  replaced t' /\ walk t' tmp = None.
Proof.
  intros Hr Hf [H1 H2] [Ht Hp]. destruct (rename_moves _ _ _ _ _ Hr tmp_apart Ht) as [Hm Hn]. split; [split; [done|]|by apply Hn].
  intros q d b Hq Hd. specialize (H2 q d b Hq Hd).
  destruct (rename_Ok _ _ _ _ Hr) as [[E _]|(_ & n & Hw & -> & Hpt)]; [by destruct tmp_apart as [[] _]; rewrite E|].
  assert (~ tmp `prefix_of` q) as Htq.
  { intros [x ->]. rewrite walk_app, Ht in H2. destruct x; [|done]. rewrite app_nil_r in Hd. by destruct (Hf d b). }
  apply walk_graft_file; [|by apply walk_graft_file].
  intros [x ->]. rewrite walk_app in H2. destruct (walk t target) as [[]|] eqn:Et; [|revert Hr|done].
  - destruct x; [by rewrite app_nil_r in Hq|done].
  - unfold rename. rewrite Ht, Et, Hpt. destruct tmp_apart as [A1 A2].
    rewrite bool_decide_eq_false_2 by (intros E; apply A1; by rewrite E). unfold prefix_of.
    by rewrite (bool_decide_eq_false_2 _ A1), (bool_decide_eq_false_2 _ A2).
Qed.

Lemma always_safe w : so_far untouched Q w -> so_far safe Q w.
Proof. intros [Hw Hs]. split; [by left|done]. Qed.

(** The temporary file is complete and synced: the rename. *)
Lemma rename_phase w r w' : call (rename tmp target) w = (r, w') -> fresh -> so_far untouched Q w -> holds content true (fs w) ->
  match r with
  | Ok _ => so_far safe Q w' /\ replaced (fs w') /\ walk (fs w') tmp = None
  | Err _ => so_far untouched Q (snd (call (unlink tmp) w'))
  end.
Proof.
  intros Hc Hf Hw Hh. destruct (call_cases _ _ _ _ Hc) as [(e & -> & Hfs & Hs)|(-> & t & Ht & Hfs & Hs)].
  - apply unlink_always; [done| |rewrite Hfs; eauto]. unfold so_far. by rewrite Hfs, Hs.
  - destruct (rename_spec _ _ Ht Hf (proj1 Hw) Hh) as [Hr Hn]. split; [|by rewrite Hfs].
    apply (call_so_far _ _ _ _ _ _ Hc (always_safe _ Hw) HQ). intros t' Ht'. assert (t' = t) as -> by congruence. by right.
Qed.

Lemma write_resolved_spec answers w r w' :
  write_resolved target content suffix answers w = (r, w') -> so_far untouched Q w ->
  so_far safe Q w' /\ match r with Ok _ => replaced (fs w') /\ walk (fs w') tmp = None | Err _ => untouched (fs w') end.
Proof.
  unfold write_resolved. intros Hr Hw.
  assert (Hfail : forall w1, so_far untouched Q w1 -> so_far safe Q w1 /\ untouched (fs w1)) by (intros w1 H1; split; [by apply always_safe|apply H1]).
  destruct (EnsureParentDirectory target w) as [r1 w1] eqn:E1. pose proof (EnsureParentDirectory_spec _ _ _ E1 Hw) as H1.
  destruct r1 as [u1|e1]; [|injection Hr as <- <-; by apply Hfail]. fold tmp in Hr.
  destruct (call (make_file tmp) w1) as [r2 w2] eqn:E2. destruct r2 as [[]|e2].
  2: { injection Hr as <- <-. apply Hfail. destruct (call_cases _ _ _ _ E2) as [(e & _ & Hfs & Hs)|([=] & _)].
       unfold so_far. by rewrite Hfs, Hs. }
  destruct (make_file_spec _ _ E2 H1) as (Hf & H2 & Hh2).
  destruct (write_loop tmp answers [] content w2) as [r3 w3] eqn:E3.
  destruct (write_loop_spec _ _ _ _ _ _ E3 Hf H2 (ex_intro _ false Hh2)) as [H3 Hh3].
  destruct r3 as [[]|e3]; [|injection Hr as <- <-; by apply Hfail]. specialize (Hh3 eq_refl). cbn in Hh3.
  destruct (call (sync_file tmp) w3) as [r4 w4] eqn:E4. destruct r4 as [[]|e4].
  2: { injection Hr as <- <-. apply Hfail. destruct (call_cases _ _ _ _ E4) as [(e & _ & Hfs & Hs)|([=] & _)].
       apply unlink_always; [done| |rewrite Hfs; destruct Hh3; eauto]. unfold so_far. by rewrite Hfs, Hs. }
  destruct (sync_spec _ _ _ E4 Hf H3 Hh3) as [H4 Hh4].
  destruct (call (rename tmp target) w4) as [r5 w5] eqn:E5. pose proof (rename_phase _ _ _ E5 Hf H4 Hh4) as H5.
  destruct r5; injection Hr as <- <-; [by destruct H5 as (? & ? & ?)|by apply Hfail].
Qed.

(** Without failures the write goes through. *)
Lemma call_unfailing f w : faults w = [] ->
  call f w = match f (fs w) with Ok t => (Ok tt, set_fs t w) | Err e => (Err e, w) end.
Proof. intros Hn. unfold call, next_fault. by rewrite Hn. Qed.

Lemma write_loop_unfailing answers done_ rest w : Forall (fun a => forall e, a <> WriteFailed e) answers -> faults w = [] ->
  exists w', write_loop tmp answers done_ rest w = (Ok tt, w') /\ faults w' = [].
Proof.
  revert done_ rest w. induction answers as [|a answers IH]; intros done_ rest w Ha Hn; destruct rest as [|c rest]; cbn [write_loop]; [eauto..|].
  inversion_clear Ha as [|? ? Ha1 Ha2]. destruct a as [n| |e]; [by apply IH|by apply IH|by destruct (Ha1 e)].
Qed.

Lemma write_resolved_succeeds answers :
  Forall (fun a => forall e, a <> WriteFailed e) answers -> has_parent t0 target = true -> walk t0 tmp = None ->
  is_directory t0 target = false -> fst (write_resolved target content suffix answers {| fs := t0; faults := []; seen := [] |}) = Ok tt.
Proof.
  intros Ha Hp Hn Hd. set (w := {| fs := t0; faults := []; seen := [] |}).
  assert (Hw : so_far untouched Q w) by (by split; [split|constructor]).
  assert (Hp' : has_parent t0 tmp = true).
  { apply has_parent_directory in Hp as [_ Hp]. apply has_parent_directory. rewrite tmp_parent. split; [apply tmp_nonempty|done]. }
  unfold write_resolved, EnsureParentDirectory. assert (exists_at (fs w) (parent_of target) = true) as ->.
  { unfold exists_at. cbn. apply has_parent_directory in Hp as [_ Hp]. unfold is_directory in Hp. by destruct (walk t0 (parent_of target)) as [[]|]. }
  cbv beta zeta iota. fold tmp. rewrite (call_unfailing _ w) by done.
  assert (make_file tmp (fs w) = Ok (graft tmp (Some (File [] false)) t0)) as E.
  { unfold make_file, exists_at. cbn [w fs]. by rewrite Hn, Hp'. }
  assert (Ec : call (make_file tmp) w = (Ok tt, set_fs (graft tmp (Some (File [] false)) t0) w)) by (by rewrite call_unfailing, E).
  rewrite E. destruct (make_file_spec _ _ Ec Hw) as (Hf & H2 & Hh2). set (w2 := set_fs _ w) in *.
  destruct (write_loop_unfailing answers [] content w2 Ha eq_refl) as (w3 & E3 & Hn3). clearbody w2. rewrite E3.
  destruct (write_loop_spec _ _ _ _ _ _ E3 Hf H2 (ex_intro _ false Hh2)) as [H3 Hh3]. destruct (Hh3 eq_refl) as [b Hb]. cbn in Hb.
  assert (Es : call (sync_file tmp) w3 = (Ok tt, set_fs (graft tmp (Some (File content true)) (fs w3)) w3)).
  { rewrite (call_unfailing _ w3 Hn3). unfold sync_file. by rewrite (proj1 Hb). }
  rewrite Es. destruct (sync_spec _ _ _ Es Hf H3 (Hh3 eq_refl)) as [H4 Hh4]. set (w4 := set_fs _ w3) in *.
  assert (Hn4 : faults w4 = []) by done. clearbody w4. rewrite (call_unfailing _ w4 Hn4).
  unfold rename. rewrite (proj1 Hh4). destruct tmp_apart as [A1 A2].
  rewrite bool_decide_eq_false_2 by (intros E'; apply A1; by rewrite E'). unfold prefix_of.
  rewrite (bool_decide_eq_false_2 _ A1), (bool_decide_eq_false_2 _ A2).
  assert (has_parent (fs w4) target = true) as ->.
  { destruct Hh4 as [_ [_ H]%has_parent_directory]. rewrite tmp_parent in H. by apply has_parent_directory. }
  destruct H4 as [[-> _] _]. unfold is_directory in Hd. by destruct (walk t0 target) as [[]|].
Qed.
End atomic_write.

(** ** What an atomic write leaves alone *)

Section write_frame.
Context (P : node -> Prop) (target : path) (suffix : bytes).
Let tmp := temp_name target suffix.
Hypothesis Hmkdir : forall p t t', p `prefix_of` target -> P t -> mkdir p t = Ok t' -> P t'.
Hypothesis Htmp : forall o t, P t -> P (graft tmp o t).
Hypothesis Htarget : forall o t, P t -> P (graft target o t).

Lemma rename_stable from to t t' : (forall o t, P t -> P (graft from o t)) -> (forall o t, P t -> P (graft to o t)) ->
  P t -> rename from to t = Ok t' -> P t'.
Proof. intros Hf Ht HP Hr. destruct (rename_Ok _ _ _ _ Hr) as [[_ ->]|(_ & n & _ & -> & _)]; [done|]. by apply Ht, Hf. Qed.

Lemma call_stable f w : always P w -> (forall t t', P t -> f t = Ok t' -> P t') -> always P (snd (call f w)).
Proof. intros Hw Hf. destruct (call f w) as [r w'] eqn:Ec. apply (call_always _ _ _ _ _ Ec Hw). intros t. apply Hf, Hw. Qed.

Lemma unlink_stable w : always P w -> always P (snd (call (unlink tmp) w)).
Proof.
  intros Hw. apply call_stable; [done|]. intros t t' Ht. unfold unlink.
  destruct (walk t tmp) as [[]|]; try done. intros [= <-]. by apply Htmp.
Qed.

Lemma write_loop_stable answers done_ rest w : always P w -> always P (snd (write_loop tmp answers done_ rest w)).
Proof.
  revert done_ rest w. induction answers as [|a answers IH]; intros done_ rest w Hw; destruct rest as [|c rest]; cbn [write_loop snd]; try done.
  - apply always_set; [done|]. apply Htmp, Hw.
  - destruct a as [n| |e]; [|by apply IH|by apply unlink_stable]. apply IH. apply always_set; [done|]. apply Htmp, Hw.
Qed.

Lemma EnsureParentDirectory_stable w : always P w -> always P (snd (EnsureParentDirectory target w)).
Proof.
  intros Hw. unfold EnsureParentDirectory. destruct (exists_at (fs w) (parent_of target)); [done|].
  destruct (create_directories (parent_of target) w) as [r1 w1] eqn:Ec.
  assert (always P w1).
  { apply (make_directories_always _ _ _ _ _ _ Ec Hw). intros p t t' Hp. apply Hmkdir. etrans; [exact Hp|]. apply prefix_take. }
  by destruct r1.
Qed.

Lemma write_resolved_stable content answers w : always P w -> always P (snd (write_resolved target content suffix answers w)).
Proof.
  intros Hw. unfold write_resolved. pose proof (EnsureParentDirectory_stable w Hw) as H1.
  destruct (EnsureParentDirectory target w) as [[u1|e1] w1]; [|done]. cbn [snd] in H1. fold tmp.
  assert (Hm : forall t t', P t -> make_file tmp t = Ok t' -> P t').
  { intros t t' Ht. unfold make_file. destruct (exists_at t tmp); [done|]. destruct (has_parent t tmp); [|done]. intros [= <-]. by apply Htmp. }
  assert (Hs : forall t t', P t -> sync_file tmp t = Ok t' -> P t').
  { intros t t' Ht. unfold sync_file. destruct (walk t tmp) as [[]|]; try done. intros [= <-]. by apply Htmp. }
  assert (Hr : forall t t', P t -> rename tmp target t = Ok t' -> P t') by (intros t t'; by apply rename_stable).
  pose proof (call_stable _ _ H1 Hm) as H2. destruct (call (make_file tmp) w1) as [[u2|e2] w2]; [|done]. cbn [snd] in H2.
  pose proof (write_loop_stable answers [] content _ H2) as H3. destruct (write_loop tmp answers [] content w2) as [[u3|e3] w3]; [|done]. cbn [snd] in H3.
  pose proof (call_stable _ _ H3 Hs) as H4. destruct (call (sync_file tmp) w3) as [[u4|e4] w4]; cbn [snd] in H4; [|by apply unlink_stable].
  pose proof (call_stable _ _ H4 Hr) as H5. destruct (call (rename tmp target) w4) as [[u5|e5] w5]; cbn [snd] in H5; [done|by apply unlink_stable].
Qed.
End write_frame.

(** Other files are left alone. *)
Lemma write_resolved_other target content suffix answers w r w' q data b :
  target <> [] -> write_resolved target content suffix answers w = (r, w') -> q <> target ->
  walk (fs w) q = Some (File data b) -> walk (fs w') q = Some (File data b).
Proof.
  intros Ht Hw Hq Hd.
  destruct (write_resolved_spec target content suffix (fs w) Ht (fun _ => True) (fun _ _ => I) _ _ _ _ Hw) as [_ H2].
  { split; [by split|]. by apply Forall_true. }
  destruct r; [destruct H2 as [[_ H2] _]|destruct H2 as [_ H2]]; by apply H2.
Qed.

Lemma write_resolved_replaces target content suffix answers w u w' :
  target <> [] -> write_resolved target content suffix answers w = (Ok u, w') -> walk (fs w') target = Some (File content true).
Proof.
  intros Ht Hw. destruct (write_resolved_spec target content suffix (fs w) Ht (fun _ => True) (fun _ _ => I) _ _ _ _ Hw) as [_ [[H2 _] _]]; [|done].
  split; [by split|]. by apply Forall_true.
Qed.

(** C28. Whatever calls fail and wherever a crash stops it, an atomic write leaves the old file
    or the complete new content, already on the disk, under the target's name, and every
    other file as it was. It reports success exactly when the new content is there, and
    then has left no temporary file; when no call fails, it succeeds. *)
Theorem atomic_write_crash_safe target content suffix answers t0 fl r w' :
  target <> [] ->
  write_resolved target content suffix answers {| fs := t0; faults := fl; seen := [] |} = (r, w') ->
  Forall (fun t => untouched target t0 t \/ replaced target content t0 t) (seen w') /\
  match r with
  | Ok _ => replaced target content t0 (fs w') /\ walk (fs w') (temp_name target suffix) = None
  | Err _ => untouched target t0 (fs w')
  end /\
  (fl = [] -> Forall (fun a => forall e, a <> WriteFailed e) answers -> has_parent t0 target = true ->
   walk t0 (temp_name target suffix) = None -> is_directory t0 target = false -> r = Ok tt).
Proof.
  intros Ht Hw. apply and_assoc. split.
  2: { intros -> Ha Hp Hn Hd. pose proof (write_resolved_succeeds target content suffix t0 Ht (safe target content t0) (fun _ H => H) answers Ha Hp Hn Hd) as E. by rewrite Hw in E. }
  destruct (write_resolved_spec target content suffix t0 Ht (safe target content t0) (fun _ H => H) _ _ _ _ Hw) as [[_ H1] H2]; [|done].
  split; [by split|by constructor].
Qed.

Definition etc_tree : node := Dir {[ "etc" := Dir {[ "conf" := File "old" true ]} ]}.

Definition etc_run : result unit * World :=
  write_resolved ["etc"; "conf"] "new content" "abc123" [Wrote 3; Interrupted; Wrote 4] {| fs := etc_tree; faults := []; seen := [] |}.

Lemma atomic_write_crash_safe_witness :
  fst etc_run = Ok tt /\ length (seen (snd etc_run)) = 6%nat /\ walk (fs (snd etc_run)) ["etc"; "conf"] = Some (File "new content" true) /\
  Forall (fun t => untouched ["etc"; "conf"] etc_tree t \/ replaced ["etc"; "conf"] "new content" etc_tree t) (seen (snd etc_run)).
Proof.
  split_and!; [vm_compute; reflexivity..|].
  exact (proj1 (atomic_write_crash_safe ["etc"; "conf"] "new content" "abc123" [Wrote 3; Interrupted; Wrote 4] etc_tree []
    (fst etc_run) (snd etc_run) ltac:(discriminate) (surjective_pairing etc_run))).
Defined.

(** ** Locations (path_utils.cpp) *)

Section locations.
Context (getenv : bytes -> option bytes) (in_sandbox : bool).

Definition GetEnvNonEmpty (name : bytes) : option bytes :=
  match getenv name with Some v => if is_empty v then None else Some v | None => None end.

Definition below_dir (p : fpath) (l : list bytes) : fpath := foldl (fun p n => join p (to_fpath n)) p l.

(** The XDG directory, else the default below the home directory, else no path. *)
Definition xdg_home (variable : bytes) (default_ : list bytes) : fpath :=
  match GetEnvNonEmpty variable with
  | Some xdg => to_fpath xdg
  | None => match GetEnvNonEmpty "HOME" with
            | Some home => below_dir (to_fpath home) default_
            | None => {| rooted := false; names := [] |}
            end
  end.
Definition XdgConfigHome : fpath := xdg_home "XDG_CONFIG_HOME" [".config"].
Definition XdgDataHome : fpath := xdg_home "XDG_DATA_HOME" [".local"; "share"].
Definition XdgCacheHome : fpath := xdg_home "XDG_CACHE_HOME" [".cache"].

Definition VinputConfigDir : fpath := below_dir XdgConfigHome ["vinput"].
Definition VinputDataDir : fpath := below_dir XdgDataHome ["vinput"].
Definition VinputCacheDir : fpath := below_dir XdgCacheHome ["vinput"].

Definition DaemonServiceUnitName : bytes := "vinput-daemon.service".
Definition FlatpakAddonRootDir : fpath := below_dir (to_fpath "/app") ["addons"; "Vinput"].
Definition DaemonExecutablePath : fpath :=
  if in_sandbox then below_dir FlatpakAddonRootDir ["bin"; "vinput-daemon"] else to_fpath "vinput-daemon".
Definition UserSystemdUnitDir : fpath := below_dir XdgConfigHome ["systemd"; "user"].
Definition DaemonServiceUnitInstallPath : fpath := below_dir UserSystemdUnitDir [DaemonServiceUnitName].
Definition DaemonServiceUnitTemplatePath : fpath :=
  if in_sandbox then below_dir FlatpakAddonRootDir ["share"; "systemd"; "user"; DaemonServiceUnitName]
  else {| rooted := false; names := [] |}.

Definition ExpandUserPath (p : bytes) : fpath :=
  match p with
  | c :: rest =>
      if c =b "~"%char then
        match GetEnvNonEmpty "HOME" with
        | None => {| rooted := false; names := [] |}
        | Some home => join (to_fpath home) (to_fpath (match rest with d :: rest' => if d =b "/"%char then rest' else rest | [] => [] end))
        end
      else to_fpath p
  | [] => to_fpath []
  end.

Definition DefaultModelBaseDir : fpath := below_dir VinputDataDir ["models"].
Definition NormalizeBaseDir (raw_path : bytes) : fpath := if is_empty raw_path then DefaultModelBaseDir else ExpandUserPath raw_path.
Definition CoreConfigPath : fpath := below_dir VinputConfigDir ["config.json"].
Definition FcitxAddonConfigPath : fpath :=
  if empty_path XdgConfigHome then {| rooted := false; names := [] |} else below_dir XdgConfigHome ["fcitx5"; "conf"; "vinput.conf"].
Definition RegistryCacheDir : fpath := below_dir VinputCacheDir ["registry"].
Definition ManagedResourceDir (category : bytes) : fpath := below_dir VinputDataDir [category].
Definition ManagedAsrProviderDir : fpath := ManagedResourceDir "providers".
Definition ManagedLlmAdapterDir : fpath := ManagedResourceDir "adapters".

Definition runtime_dir_of (what : bytes) : fpath :=
  match GetEnvNonEmpty "XDG_RUNTIME_DIR" with
  | Some xdg_runtime => below_dir (to_fpath xdg_runtime) ["vinput"; what]
  | None => below_dir (to_fpath (default "/tmp" (GetEnvNonEmpty "TMPDIR"))) ["vinput"; what]
  end.
Definition AdapterRuntimeDir : fpath := runtime_dir_of "adapters".
Definition ClientRuntimeDir : fpath := runtime_dir_of "clients".
Definition ContextCachePath : fpath := below_dir VinputCacheDir ["context.jsonl"].
Definition ReadNotificationsPath : fpath := below_dir VinputCacheDir ["read_notifications"].
Definition ProviderModelCachePath : fpath := below_dir VinputCacheDir ["provider_models.json"].
Definition InstalledManifestCachePath : fpath := below_dir VinputCacheDir ["installed.json"].
Definition I18nCachePath (locale : bytes) : fpath := below_dir RegistryCacheDir ["i18n"; locale ++ ".json"].
End locations.

Definition demo_home : bytes -> option bytes := fun name => if name =b "HOME" then Some "/home/u" else None.
Example config_location : show (CoreConfigPath demo_home) = "/home/u/.config/vinput/config.json" /\
  show (ExpandUserPath demo_home "~/m") = "/home/u/m" /\ show (AdapterRuntimeDir demo_home) = "/tmp/vinput/adapters".
Proof. split_and!; vm_compute; reflexivity. Qed.

(** Another user's home directory is not looked up: the name is taken below the own one. *)
Example tilde_user : show (ExpandUserPath demo_home "~other/m") = "/home/u/other/m".
Proof. vm_compute. reflexivity. Qed.

(** Without a home directory the paths are relative to the working directory. *)
Example no_home : show (CoreConfigPath (fun _ => None)) = "vinput/config.json".
Proof. vm_compute. reflexivity. Qed.
