(* ===== verification/Preview.v ===== *)
(** * The live preview (src/src/addon/dbus/vinput_dbus.cpp, text helpers)

    While the user speaks, the transcript is shown in the preedit, shortened in the
    middle to a display width. The Unicode library decodes, segments and measures; it is
    a class of operations. *)

From S2P Require Import Prelude StringUtils.
From Stdlib Require Import Ascii.

(** [unicode::utf8::decode], [encode], [grapheme_length], [width] with wide ambiguous
    characters, and the character classes the addon asks for. *)
Class Unicode := {
  u_decode : bytes -> list N;
  u_encode : list N -> bytes;
  grapheme_length : list N -> nat;
  u_width : list N -> Z;
  decode_codepoint : bytes -> option N;      (* the first code point, when there is one *)
  is_unified_ideograph : N -> bool;
  is_ideographic : N -> bool;
  is_sentence_terminal : N -> bool;
}.

Section preview.
Context `{Unicode}.

Definition gwidth (g : list N) : nat := Z.to_nat (u_width g).

(** The grapheme clusters of a text, cut off the front one by one; [None]: a cluster of
    length zero, with which the source does not end. *)
Fixpoint graphemes (fuel : nat) (u32 : list N) : option (list (list N)) :=
  match u32 with
  | [] => Some []
  | _ :: _ =>
      match fuel with
      | O => None
      | S fuel =>
          let glen := grapheme_length u32 in
          gs ← graphemes fuel (drop glen u32); Some (take glen u32 :: gs)
      end
  end.

(** How many clusters from the front fit into [budget]. *)
Fixpoint fitting (budget cur : nat) (gs : list (list N)) : nat :=
  match gs with
  | [] => 0
  | g :: gs => if budget <? cur + gwidth g then 0 else S (fitting budget (cur + gwidth g) gs)
  end.

Definition ellipsis : bytes := "...".

Definition head_width (available : nat) : nat :=
  let w := Nat.max 6 (Nat.min 14 (available / 4)) in
  if available <=? w then available / 2 else w.

(** The clusters at the end of [gs] that fit. *)
Definition tail_of (budget : nat) (gs : list (list N)) : list (list N) :=
  drop (length gs - fitting budget 0 (reverse gs)) gs.

Definition LimitPreviewText (text : bytes) (max_display_width : Z) : option bytes :=
  if (max_display_width <=? 0)%Z || is_empty text then Some text
  else
    let max_width := Z.to_nat max_display_width in
    let u32 := u_decode text in
    if gwidth u32 <=? max_width then Some text
    else
      let ellipsis_width := gwidth (u_decode ellipsis) in
      gs ← graphemes (length u32) u32;
      if max_width <=? ellipsis_width + 4 then
        let tail := tail_of max_width gs in
        Some (if is_empty tail then [] else u_encode (concat tail))
      else
        let available := max_width - ellipsis_width in
        let target_head := head_width available in
        let head_count := fitting target_head 0 gs in
        let tail := tail_of (available - target_head) (drop head_count gs) in
        Some (u_encode (concat (take head_count gs)) ++ ellipsis ++ u_encode (concat tail)).

Definition ComposeLivePreedit (transcript_text fallback_text : bytes) (max_display_width : Z) : option bytes :=
  if is_empty transcript_text then Some fallback_text else LimitPreviewText transcript_text max_display_width.

(** ** The shortened text fits *)

Definition shown_width (gs : list (list N)) : nat := foldr (fun g n => gwidth g + n) 0 gs.

Lemma shown_width_cons g gs : shown_width (g :: gs) = gwidth g + shown_width gs.
Proof. done. Qed.
Lemma shown_width_app a b : shown_width (a ++ b) = shown_width a + shown_width b.
Proof. induction a as [|g a IH]; cbn [app]; [done|]. rewrite !shown_width_cons. lia. Qed.

Lemma fitting_width budget cur gs :
  fitting budget cur gs <= length gs /\
  (cur <= budget -> cur + shown_width (take (fitting budget cur gs) gs) <= budget).
Proof.
  revert cur. induction gs as [|g gs IH]; intros cur; cbn [fitting]; [cbn [length take]; unfold shown_width; cbn; lia|].
  destruct (Nat.ltb_spec budget (cur + gwidth g)); [cbn [length take]; unfold shown_width; cbn; lia|].
  destruct (IH (cur + gwidth g)) as [Hl Hw]. cbn [length take]. rewrite shown_width_cons. split; [lia|].
  intros Hc. specialize (Hw ltac:(lia)). lia.
Qed.

Lemma shown_width_reverse gs : shown_width (reverse gs) = shown_width gs.
Proof.
  induction gs as [|g gs IH]; [done|]. rewrite reverse_cons, shown_width_app, IH, !shown_width_cons. unfold shown_width at 2. cbn [foldr]. lia.
Qed.

Lemma tail_of_width budget gs : shown_width (tail_of budget gs) <= budget.
Proof.
  unfold tail_of. destruct (fitting_width budget 0 (reverse gs)) as [Hl Hw]. rewrite length_reverse in Hl.
  specialize (Hw ltac:(lia)). rewrite take_reverse in Hw. rewrite shown_width_reverse in Hw.
  exact Hw.
Qed.

(** A cluster takes at least one character and no more than there are. *)
Context (grapheme_ok : forall u, u <> [] -> 1 <= grapheme_length u <= length u).

Lemma graphemes_total fuel u32 :
  length u32 <= fuel -> exists gs, graphemes fuel u32 = Some gs /\ concat gs = u32.
Proof.
  revert u32. induction fuel as [|fuel IH]; intros [|c u] Hf; cbn [graphemes]; try (by exists []); [cbn in Hf; lia|].
  destruct (grapheme_ok (c :: u) ltac:(done)) as [H1 H2].
  destruct (IH (drop (grapheme_length (c :: u)) (c :: u))) as (gs & -> & Hgs).
  { rewrite length_drop. cbn [length] in *. lia. }
  eexists. split; [reflexivity|]. cbn. rewrite Hgs. apply take_drop.
Qed.

(** The preview always ends and fits: a transcript that is wider than the display is
    shown as some of its first clusters, an ellipsis and some of its last ones (or, on a
    very narrow display, its last ones only), which do not overlap and whose clusters
    together with the ellipsis are at most as wide as the display; a narrower one is
    shown unchanged. *)
Theorem preview_fits text max :
  (0 < max)%Z -> text <> [] ->
  exists gs shown, concat gs = u_decode text /\ LimitPreviewText text max = Some shown /\
    ((gwidth (u_decode text) <= Z.to_nat max /\ shown = text) \/
     (exists head middle tail, gs = head ++ middle ++ tail /\
        ((shown = u_encode (concat head) ++ ellipsis ++ u_encode (concat tail) /\
          shown_width head + gwidth (u_decode ellipsis) + shown_width tail <= Z.to_nat max) \/
         (head = [] /\ shown = (if is_empty tail then [] else u_encode (concat tail)) /\
          shown_width tail <= Z.to_nat max)))).
Proof.
  intros Hm Ht. destruct (graphemes_total (length (u_decode text)) (u_decode text)) as (gs & Hg & Hc); [done|].
  unfold LimitPreviewText. rewrite (proj2 (Z.leb_gt _ _) Hm), (proj2 (is_empty_false _) Ht). cbn [orb].
  destruct (Nat.leb_spec (gwidth (u_decode text)) (Z.to_nat max)) as [Hw|Hw].
  { exists gs, text. split_and!; auto. }
  rewrite Hg. cbn [mbind option_bind]. exists gs.
  destruct (Nat.leb_spec (Z.to_nat max) (gwidth (u_decode ellipsis) + 4)) as [Hn|Hn];
    eexists; (split; [done|]); (split; [reflexivity|right]).
  - exists [], (take (length gs - fitting (Z.to_nat max) 0 (reverse gs)) gs), (tail_of (Z.to_nat max) gs).
    split; [by unfold tail_of; rewrite take_drop|]. right. split_and!; [done|done|apply tail_of_width].
  - set (available := Z.to_nat max - gwidth (u_decode ellipsis)). set (th := head_width available).
    set (rest := drop (fitting th 0 gs) gs).
    exists (take (fitting th 0 gs) gs), (take (length rest - fitting (available - th) 0 (reverse rest)) rest), (tail_of (available - th) rest).
    split; [unfold tail_of; rewrite take_drop; by unfold rest; rewrite take_drop|]. left. split; [done|].
    pose proof (tail_of_width (available - th) rest). destruct (fitting_width th 0 gs) as [_ Hh]. specialize (Hh ltac:(lia)).
    assert (th <= available) as Hth.
    { unfold th, head_width. destruct (Nat.leb_spec available (Nat.max 6 (Nat.min 14 (available / 4)))); [|lia].
      apply Nat.Div0.div_le_upper_bound. lia. }
    unfold available in *. lia.
Qed.
End preview.

(** A library for which every ASCII character is a cluster of width one. *)
#[export] Instance ascii_unicode : Unicode :=
  {| u_decode := fmap N_of_ascii; u_encode := fmap ascii_of_N;
     grapheme_length := fun u => match u with [] => 0 | _ => 1 end; u_width := fun u => Z.of_nat (length u);
     decode_codepoint := fun s => N_of_ascii <$> head s; is_unified_ideograph := fun _ => false; is_ideographic := fun _ => false;
     is_sentence_terminal := fun c => bool_decide (c ∈ [33; 46; 63]%N) |}.

Example preview_example :
  LimitPreviewText "this is a long transcript that goes on" 20 = Some ("this i...hat goes on" : bytes).
Proof. reflexivity. Qed.

Lemma preview_fits_witness :
  exists gs shown, concat gs = u_decode "this is a long transcript" /\ LimitPreviewText "this is a long transcript" 12 = Some shown.
Proof.
  destruct (preview_fits (fun u (H : u <> []) => ltac:(destruct u; [done|cbn; lia])) "this is a long transcript" 12)
    as (gs & shown & H1 & H2 & _); [lia|discriminate|]. exists gs, shown. split; [exact H1|exact H2].
Defined.
