(* ===== verification/Floats.v ===== *)
(** * IEEE-754 arithmetic as the sources use it

    [float] and [double] are binary32 and binary64, computed with the Standard
    Library's executable specification [SpecFloat] (round to nearest, ties to
    even). Conversions to integers are partial: the C++ conversion is undefined
    for a NaN and for a value whose truncation does not fit, and [None] says so. *)

From S2P Require Import Prelude.
From Stdlib Require Import SpecFloat.

Abbreviation flt := spec_float.

Definition f32_prec : Z := 24.
Definition f32_emax : Z := 128.
Definition f64_prec : Z := 53.
Definition f64_emax : Z := 1024.

(** The decimal literal [m * 10^k] (k <= 0), correctly rounded. *)
Definition literal_in (prec emax m den : Z) : flt :=
  SFdiv prec emax (binary_normalize prec emax m 0 false) (binary_normalize prec emax den 0 false).

Definition f32_of_Z (z : Z) : flt := binary_normalize f32_prec f32_emax z 0 false.
Definition f64_of_Z (z : Z) : flt := binary_normalize f64_prec f64_emax z 0 false.
Definition f32_mul : flt -> flt -> flt := SFmul f32_prec f32_emax.
Definition f64_mul : flt -> flt -> flt := SFmul f64_prec f64_emax.
Definition f32_lit (m den : Z) : flt := literal_in f32_prec f32_emax m den.
Definition f64_lit (m den : Z) : flt := literal_in f64_prec f64_emax m den.

(** [static_cast<float>(d)] of a double, and the exact widening back. *)
Definition f32_of_f64 (x : flt) : flt :=
  match x with
  | S754_finite s m e => binary_round f32_prec f32_emax s m e
  | _ => x
  end.
Definition f64_of_f32 (x : flt) : flt :=
  match x with
  | S754_finite s m e => binary_round f64_prec f64_emax s m e
  | _ => x
  end.

Definition is_finite (x : flt) : bool :=
  match x with S754_zero _ | S754_finite _ _ _ => true | _ => false end.

(** [std::clamp(v, lo, hi)]: (v < lo) ? lo : (hi < v) ? hi : v. *)
Definition fclamp (v lo hi : flt) : flt :=
  if SFltb v lo then lo else if SFltb hi v then hi else v.

(** Truncation towards zero of a finite value. *)
Definition trunc (x : flt) : option Z :=
  match x with
  | S754_zero _ => Some 0%Z
  | S754_finite s m e => Some (cond_Zopp s (Z.shiftl (Zpos m) e))
  | _ => None
  end.

(** [static_cast<T>(x)] for an integer type with range [lo, hi]. *)
Definition to_int (lo hi : Z) (x : flt) : option Z :=
  z ← trunc x; if ((lo <=? z) && (z <=? hi))%Z then Some z else None.

Example f32_literal_tenth : literal_in f32_prec f32_emax 1 10 = S754_finite false 13421773 (-27).
Proof. reflexivity. Qed.

(** ** Mantissas stay below the precision *)

Lemma digits2_pos_bound p : (Zpos p < 2 ^ Zpos (digits2_pos p))%Z.
Proof.
  induction p as [p IH|p IH|]; simpl digits2_pos; [| |done].
  all: rewrite Pos2Z.inj_succ, Z.pow_succ_r by done; lia.
Qed.

Lemma Zdigits2_bound m : (0 <= m)%Z -> (m < 2 ^ Zdigits2 m)%Z.
Proof. destruct m; simpl; [done| |done]. intros _. apply digits2_pos_bound. Qed.

Lemma shr_1_m mrs : (0 <= shr_m mrs)%Z -> shr_m (shr_1 mrs) = (shr_m mrs / 2)%Z.
Proof.
  destruct mrs as [m r s]; simpl. destruct m as [|[p|p|]|p]; simpl; try done; intros _.
  - rewrite Pos2Z.inj_xI, Z.add_comm, Z.mul_comm, Z.div_add by done. done.
  - rewrite Pos2Z.inj_xO, Z.mul_comm, Z.div_mul by done. done.
Qed.

Lemma iter_shr_1_m p mrs :
  (0 <= shr_m mrs)%Z -> shr_m (iter_pos shr_1 p mrs) = (shr_m mrs / 2 ^ Zpos p)%Z.
Proof.
  revert mrs. induction p as [p IH|p IH|]; intros mrs H; simpl iter_pos.
  - assert (0 <= shr_m (shr_1 mrs))%Z by (rewrite shr_1_m by done; apply Z.div_pos; lia).
    rewrite IH, IH, shr_1_m by (rewrite ?IH; try done; apply Z.div_pos; lia).
    rewrite !Z.div_div by lia. f_equal.
    replace (Zpos p~1) with (1 + Zpos p + Zpos p)%Z by lia.
    rewrite !Z.pow_add_r by lia. lia.
  - rewrite IH, IH by (rewrite ?IH; try done; apply Z.div_pos; lia).
    rewrite Z.div_div by lia. f_equal.
    replace (Zpos p~0) with (Zpos p + Zpos p)%Z by lia.
    rewrite !Z.pow_add_r by lia. lia.
  - by rewrite shr_1_m.
Qed.

Lemma shr_record_of_loc_m m l : shr_m (shr_record_of_loc m l) = m.
Proof. by destruct l as [|[]]. Qed.

(** After a shift to the format's exponent the mantissa is nonnegative and has
    at most [prec] bits. *)
Lemma shr_fexp_bound prec emax m e l :
  (0 <= m)%Z -> (0 <= prec)%Z ->
  (0 <= shr_m (shr_fexp prec emax m e l).1 < 2 ^ prec)%Z.
Proof.
  intros Hm Hp. unfold shr_fexp.
  pose proof (Zdigits2_bound m Hm) as Hd.
  set (n := (fexp prec emax (Zdigits2 m + e) - e)%Z).
  assert (Zdigits2 m <= prec + n)%Z as Hn by (unfold n, fexp; lia).
  assert (0 <= Zdigits2 m)%Z by (destruct m; simpl; lia).
  destruct n as [|k|k] eqn:Ek; simpl.
  - rewrite shr_record_of_loc_m. split; [done|].
    eapply Z.lt_le_trans; [exact Hd|]. apply Z.pow_le_mono_r; lia.
  - rewrite iter_shr_1_m by (by rewrite shr_record_of_loc_m).
    rewrite shr_record_of_loc_m. split; [apply Z.div_pos; lia|].
    apply Z.div_lt_upper_bound; [lia|]. rewrite <-Z.pow_add_r by lia.
    eapply Z.lt_le_trans; [exact Hd|]. apply Z.pow_le_mono_r; lia.
  - rewrite shr_record_of_loc_m. split; [done|].
    eapply Z.lt_le_trans; [exact Hd|]. apply Z.pow_le_mono_r; lia.
Qed.

Lemma round_nearest_even_nonneg m l : (0 <= m)%Z -> (0 <= round_nearest_even m l)%Z.
Proof. destruct l as [|[]]; simpl; try case_match; lia. Qed.

(** A float whose mantissa fits the precision. *)
Definition fits (prec : Z) (x : flt) : Prop :=
  match x with S754_finite _ m _ => (Zpos m < 2 ^ prec)%Z | _ => True end.

Lemma binary_round_aux_fits prec emax s m e l :
  (0 <= m)%Z -> (0 <= prec)%Z ->
  fits prec (binary_round_aux prec emax s m e l) /\ binary_round_aux prec emax s m e l <> S754_nan.
Proof.
  intros Hm Hp. unfold binary_round_aux.
  pose proof (shr_fexp_bound prec emax m e l Hm Hp) as H1.
  destruct (shr_fexp prec emax m e l) as [mrs' e']; simpl in H1.
  pose proof (shr_fexp_bound prec emax
    (round_nearest_even (shr_m mrs') (loc_of_shr_record mrs')) e' loc_Exact
    (round_nearest_even_nonneg _ _ (proj1 H1)) Hp) as H2.
  destruct (shr_fexp prec emax _ e' loc_Exact) as [mrs'' e'']; simpl in H2.
  destruct (shr_m mrs''); [done| |lia]. case_match; simpl; split; try done; lia.
Qed.

Lemma SFmul_fits prec emax x y :
  (0 <= prec)%Z -> is_finite x = true -> is_finite y = true ->
  fits prec (SFmul prec emax x y) /\ SFmul prec emax x y <> S754_nan.
Proof.
  intros Hp Hx Hy. destruct x as [| | |sx mx ex], y as [| | |sy my ey]; try done.
  simpl. apply binary_round_aux_fits; lia.
Qed.

(** ** Clamping makes the integer conversion defined *)

Lemma fclamp_cases v lo hi :
  (fclamp v lo hi = lo) \/ (fclamp v lo hi = hi) \/
  (fclamp v lo hi = v /\ SFltb v lo = false /\ SFltb hi v = false).
Proof. unfold fclamp. repeat case_match; auto. Qed.

Lemma fclamp_idemp v lo hi :
  SFltb lo lo = false -> SFltb hi hi = false -> SFltb hi lo = false ->
  fclamp (fclamp v lo hi) lo hi = fclamp v lo hi.
Proof.
  intros Hl Hh Hlh. unfold fclamp.
  destruct (SFltb v lo) eqn:E1; [by rewrite Hl, Hlh|].
  destruct (SFltb hi v) eqn:E2; [|by rewrite E1, E2].
  rewrite Hh. by case_match.
Qed.

Lemma shiftl_neg m k : (0 <= k)%Z -> Z.shiftl m (- k) = (m / 2 ^ k)%Z.
Proof. intros. rewrite Z.shiftl_opp_r. by apply Z.shiftr_div_pow2. Qed.

(** [static_cast<int16_t>(std::clamp(v, -32768.0F, 32767.0F))] *)
Definition clamp_to_i16 (v : flt) : option Z :=
  to_int (-32768) 32767 (fclamp v (f32_of_Z (-32768)) (f32_of_Z 32767)).

Lemma to_int_Some lo hi x z : trunc x = Some z -> (lo <= z <= hi)%Z -> to_int lo hi x = Some z.
Proof.
  intros Hx Hz. unfold to_int. rewrite Hx. simpl.
  destruct (_ && _) eqn:E; [done|]. apply andb_false_iff in E as [E|E]; lia.
Qed.

Lemma to_int_range lo hi x z : to_int lo hi x = Some z -> (lo <= z <= hi)%Z.
Proof.
  unfold to_int. destruct (trunc x); simpl; [|done].
  destruct (_ && _) eqn:E; intros; simplify_eq. apply andb_prop in E as [??]. lia.
Qed.

Lemma shiftr_range m k lim b :
  (0 <= k)%Z -> (0 < lim)%Z -> (Zpos m < lim * 2 ^ k)%Z -> (lim <= b + 1)%Z ->
  (0 <= Z.shiftl (Zpos m) (- k) <= b)%Z.
Proof.
  intros Hk Hl Hm Hb. rewrite shiftl_neg by done. split; [apply Z.div_pos; lia|].
  assert (Zpos m / 2 ^ k < lim)%Z; [|lia]. apply Z.div_lt_upper_bound; lia.
Qed.

Lemma pos_cont_compare a b : Pos.compare_cont Eq a b = (a ?= b)%positive.
Proof. done. Qed.

Lemma f32_min_i16 : f32_of_Z (-32768) = S754_finite true 8388608 (-8).
Proof. vm_compute. reflexivity. Qed.
Lemma f32_max_i16 : f32_of_Z 32767 = S754_finite false 16776704 (-9).
Proof. vm_compute. reflexivity. Qed.

(** A clamped binary32 value always converts to a 16-bit integer. *)
Lemma clamp_to_i16_defined v :
  fits f32_prec v -> v <> S754_nan ->
  exists z, clamp_to_i16 v = Some z /\ (-32768 <= z <= 32767)%Z.
Proof.
  intros Hf Hn. unfold clamp_to_i16. rewrite f32_min_i16, f32_max_i16.
  destruct (fclamp_cases v (S754_finite true 8388608 (-8)) (S754_finite false 16776704 (-9)))
    as [->|[->|(-> & Hlo & Hhi)]];
    [exists (-32768)%Z; split; [reflexivity|lia]|exists 32767%Z; split; [reflexivity|lia]|].
  unfold SFltb in *. destruct v as [s|[]| |[] m e]; try done.
  - by exists 0%Z.
  - clear Hhi. unfold fits, f32_prec in Hf; cbn [SFcompare] in Hlo. rewrite pos_cont_compare in Hlo.
    assert (0 <= Z.shiftl (Zpos m) e <= 32768)%Z.
    { destruct (Z.compare_spec e (-8)) as [->|He|He]; [| |done].
      - apply (shiftr_range m 8 32769); [lia|lia| |lia].
        destruct (Z.lt_ge_cases 8388608 (Zpos m)) as [Hm|Hm]; [|lia].
        rewrite (proj2 (Pos.compare_gt_iff _ _) Hm) in Hlo. done.
      - replace e with (- (- e))%Z by lia. apply (shiftr_range m (- e) 32768); [lia|lia| |lia].
        assert (2 ^ 9 <= 2 ^ (- e))%Z by (apply Z.pow_le_mono_r; lia). lia. }
    eexists; split; [apply to_int_Some; [reflexivity|]|]; cbn [cond_Zopp]; lia.
  - clear Hlo. unfold fits, f32_prec in Hf; cbn [SFcompare] in Hhi. rewrite pos_cont_compare in Hhi.
    assert (0 <= Z.shiftl (Zpos m) e <= 32767)%Z.
    { destruct (Z.compare_spec (-9) e) as [<-|He|He]; [|done|].
      - apply (shiftr_range m 9 32768); [lia|lia| |lia].
        destruct (Z.lt_ge_cases 16776704 (Zpos m)) as [Hm|Hm]; [|lia].
        rewrite (proj2 (Pos.compare_lt_iff _ _) Hm) in Hhi. done.
      - replace e with (- (- e))%Z by lia. apply (shiftr_range m (- e) 32768); [lia|lia| |lia].
        assert (2 ^ 10 <= 2 ^ (- e))%Z by (apply Z.pow_le_mono_r; lia). lia. }
    eexists; split; [apply to_int_Some; [reflexivity|]|]; cbn [cond_Zopp]; lia.
Qed.

(** ** Integers below 2^53 are exact *)

Lemma iter_xO_value m d : Zpos (Pos.iter xO m d) = (Zpos m * 2 ^ Zpos d)%Z.
Proof.
  induction d as [|d IH] using Pos.peano_ind; [cbn; lia|].
  rewrite Pos.iter_succ, Pos2Z.inj_xO, IH, Pos2Z.inj_succ, Z.pow_succ_r by lia. lia.
Qed.

Lemma iter_xO_digits m d : digits2_pos (Pos.iter xO m d) = (digits2_pos m + d)%positive.
Proof.
  induction d as [|d IH] using Pos.peano_ind; [cbn; lia|].
  rewrite Pos.iter_succ. cbn [digits2_pos]. rewrite IH. lia.
Qed.

Lemma digits2_pos_lower p : (2 ^ (Zpos (digits2_pos p) - 1) <= Zpos p)%Z.
Proof.
  induction p as [p IH|p IH|]; cbn [digits2_pos]; [| |done].
  all: replace (Zpos (Pos.succ (digits2_pos p)) - 1)%Z with (Z.succ (Zpos (digits2_pos p) - 1)) by lia.
  all: rewrite Z.pow_succ_r by lia; lia.
Qed.

(** A canonical mantissa is not rounded. *)
Lemma binary_round_aux_exact s m e :
  fexp f64_prec f64_emax (Zpos (digits2_pos m) + e) = e -> (e <= f64_emax - f64_prec)%Z ->
  binary_round_aux f64_prec f64_emax s (Zpos m) e loc_Exact = S754_finite s m e.
Proof.
  intros He Hmax. unfold binary_round_aux, shr_fexp. cbn [Zdigits2]. rewrite He, Z.sub_diag.
  cbn [shr shr_record_of_loc loc_of_shr_record shr_m round_nearest_even Zdigits2]. rewrite He, Z.sub_diag. cbn [shr shr_m].
  by apply Z.leb_le in Hmax as ->.
Qed.

Lemma f64_of_Z_exact p : (Zpos p < 2 ^ 53)%Z ->
  exists m e, f64_of_Z (Zpos p) = S754_finite false m e /\ (-52 <= e <= 0)%Z /\ Zpos m = (Zpos p * 2 ^ (- e))%Z.
Proof.
  intros Hp. set (d := digits2_pos p).
  assert (Hd : (Zpos d <= 53)%Z).
  { destruct (Z_le_gt_dec (Zpos d) 53) as [|Hgt]; [done|]. pose proof (digits2_pos_lower p) as Hl. fold d in Hl.
    assert (2 ^ 53 <= 2 ^ (Zpos d - 1))%Z by (apply Z.pow_le_mono_r; lia). lia. }
  assert (Hf : fexp f64_prec f64_emax (Zpos d + 0) = (Zpos d - 53)%Z) by (unfold fexp, emin, f64_prec, f64_emax; lia).
  unfold f64_of_Z. cbn [binary_normalize]. unfold binary_round. fold d. rewrite Hf. unfold shl_align. rewrite Z.sub_0_r.
  destruct (Zpos d - 53)%Z as [|k|k] eqn:Ek; [|lia|].
  - exists p, 0%Z. split; [|split; [lia|by rewrite Z.mul_1_r]]. apply binary_round_aux_exact; [fold d; rewrite Hf; lia|done].
  - exists (Pos.iter xO p k), (Zneg k). split; [|split; [lia|by rewrite iter_xO_value]].
    apply binary_round_aux_exact; [|unfold f64_emax, f64_prec; lia]. rewrite iter_xO_digits. fold d.
    unfold fexp, emin, f64_prec, f64_emax. lia.
Qed.
