(* ===== verification/FloatText.v ===== *)
(** * Doubles as text

    [std::from_chars] for a double in the general format, and [snprintf("%.4F")]: the two
    conversions between doubles and decimal text the sources use. Both are exact: the
    value of the text is rounded once, to nearest, ties to even. *)

From S2P Require Import Prelude StringUtils Floats.
From Stdlib Require Import Ascii SpecFloat.

(** ** Reading *)

Definition digit_of (c : ascii) : Z := Z.of_N (N_of_ascii c) - 48.

(** The leading digits, as a number and a count, and the rest. *)
Fixpoint scan_digits (acc : Z) (n : nat) (s : bytes) : Z * nat * bytes :=
  match s with
  | c :: rest => if isdigit c then scan_digits (acc * 10 + digit_of c) (S n) rest else (acc, n, s)
  | [] => (acc, n, [])
  end.

(** [digits . digits]: the number without its point, the digits after it, and the rest;
    [None] when there is no digit. *)
Definition scan_mantissa (s : bytes) : option (Z * nat * bytes) :=
  let '(m, whole, rest) := scan_digits 0 0 s in
  let '(m, frac, rest) :=
    match rest with
    | c :: after =>
        if c =b "."%char then
          let '(m', n, rest') := scan_digits m 0 after in
          if (whole =? 0) && (n =? 0) then (m, 0, rest) else (m', n, rest')
        else (m, 0, rest)
    | [] => (m, 0, [])
    end in
  if (whole =? 0) && (frac =? 0) then None else Some (m, frac, rest).

(** An exponent is taken only when a digit follows. *)
Definition scan_exponent (s : bytes) : Z * bytes :=
  match s with
  | c :: rest =>
      if (c =b "e"%char) || (c =b "E"%char) then
        let '(neg, digits) :=
          match rest with
          | d :: after => if d =b "-"%char then (true, after) else if d =b "+"%char then (false, after) else (false, rest)
          | [] => (false, [])
          end in
        let '(e, n, rest') := scan_digits 0 0 digits in
        if n =? 0 then (0%Z, s) else ((if neg : bool then - e else e)%Z, rest')
      else (0%Z, s)
  | [] => (0%Z, [])
  end.

(** [m * 10^e], rounded once. *)
Definition decimal (negative : bool) (m e : Z) : flt :=
  match m with
  | Zpos p =>
      if (0 <=? e)%Z
      then binary_round f64_prec f64_emax negative (Z.to_pos (Zpos p * 10 ^ e)) 0
      else SFdiv f64_prec f64_emax (S754_finite negative p 0) (S754_finite false (Z.to_pos (10 ^ (- e))) 0)
  | _ => S754_zero negative
  end.

Definition special (s : bytes) : option (flt * bytes) :=
  if StartsWithIgnoreCase s "infinity" then Some (S754_infinity false, drop 8 s)
  else if StartsWithIgnoreCase s "inf" then Some (S754_infinity false, drop 3 s)
  else if StartsWithIgnoreCase s "nan" then Some (S754_nan, drop 3 s)
  else None.

(** The double at the front of the text and what follows it; a value too large, or a
    nonzero one too small, is out of range. *)
Definition from_chars_double (s : bytes) : option (flt * bytes) :=
  let '(negative, digits) :=
    match s with c :: rest => if c =b "-"%char then (true, rest) else (false, s) | [] => (false, []) end in
  match special digits with
  | Some (v, rest) => Some (if negative then SFopp v else v, rest)
  | None =>
      '(m, frac, rest) ← scan_mantissa digits;
      let '(e, rest) := scan_exponent rest in
      let v := decimal negative m (e - Z.of_nat frac) in
      match v with
      | S754_zero _ => if (m =? 0)%Z then Some (v, rest) else None
      | S754_finite _ _ _ => Some (v, rest)
      | _ => None
      end
  end.

(** ** Writing *)

(** [m / d] rounded to an integer, ties to even. *)
Definition div_nearest_even (m d : Z) : Z :=
  let q := (m / d)%Z in
  match (2 * (m mod d) ?= d)%Z with
  | Lt => q
  | Gt => q + 1
  | Eq => if Z.even q then q else q + 1
  end%Z.

Definition pad4 (n : Z) : bytes :=
  let s := to_string n in replicate (4 - length s) "0"%char ++ s.

Definition fixed4 (point : bytes) (n : Z) : bytes := to_string (n / 10000) ++ point ++ pad4 (n mod 10000).

(** [snprintf(buf, size, "%.4F", v)]: the text that would be written. [point] is the
    decimal point of the process's locale. *)
Definition format_fixed4 (point : bytes) (v : flt) : bytes :=
  match v with
  | S754_zero s => (if s then "-" else [] : bytes) ++ fixed4 point 0
  | S754_infinity s => (if s then "-" else [] : bytes) ++ "INF"
  | S754_nan => "NAN"
  | S754_finite s m e =>
      (if s then "-" else [] : bytes) ++
      fixed4 point (if (0 <=? e)%Z then Zpos m * 2 ^ e * 10000 else div_nearest_even (Zpos m * 10000) (2 ^ (- e)))%Z
  end.

Example parse_quarter : from_chars_double "0.25 [MUTED]" = Some (f64_lit 25 100, " [MUTED]" : bytes).
Proof. reflexivity. Qed.
Example parse_exponent : from_chars_double "-1e-2e" = Some (SFopp (f64_lit 1 100), "e" : bytes).
Proof. reflexivity. Qed.
Example parse_no_digits : from_chars_double "." = None /\ from_chars_double "+1" = None /\ from_chars_double "1e999" = None.
Proof. split_and!; reflexivity. Qed.
Example format_third : format_fixed4 "." (f64_lit 1 3) = "0.3333" /\ format_fixed4 "." (f64_lit 12 10) = "1.2000".
Proof. split; reflexivity. Qed.

(** Where the decimal point is a comma, a reader that expects a point sees zero. *)
Example format_comma :
  format_fixed4 "," (f64_lit 2 10) = "0,2000" /\ from_chars_double "0,2000" = Some (f64_of_Z 0, ",2000" : bytes).
Proof. split; reflexivity. Qed.

(** A volume with up to four decimals is written and read back exactly, checked for every
    value a volume control can show (two decimals, up to 150%). *)
Example fixed4_roundtrip :
  Forall (fun k => from_chars_double (format_fixed4 "." (f64_lit k 100)) = Some (f64_lit k 100, [])) (Z.of_nat <$> seq 0 151).
Proof. repeat (constructor; [vm_compute; reflexivity|]). constructor. Qed.
