(* ===== verification/Process.v ===== *)
(** * Child processes (src/src/common/utils/process_utils.h)

    What a caller hands to [vinput::process::Run] and what it gets back. How the child is
    spawned, polled and reaped is system calls; the components that run commands take the
    answer as an argument. *)

From S2P Require Import Prelude StringUtils.
From Stdlib Require Import Ascii.

Record CommandSpec := { sp_command : bytes; sp_args : list bytes; sp_env : gmap bytes bytes; sp_timeout_ms : Z }.
Record CommandResult := {
  exit_code : Z; timed_out : bool; launch_failed : bool; stdout_text : bytes; stderr_text : bytes;
}.
