(* ===== verification/ProcessSession.v ===== *)
(** * Child processes that outlive a call (src/src/common/utils/process_session.cpp,
      process_session.h, process_internal.h)

    A pump thread owns the child, its three pipes and the two queues between it and the
    caller. The pump is a state machine with a program counter: every access to a queue or
    to an atomic flag is one step, so that the caller's operations may come between any two
    of them. What the operating system answers (the exit of the child, poll, write, read)
    and the clock are arguments of a step. *)

From S2P Require Import Prelude StringUtils.
From Stdlib Require Import Ascii.

Inductive ChildEvent :=
  | StdoutChunk (data : bytes)
  | StderrChunk (data : bytes)
  | Cancelled
  | Exited (exit_code : Z) (killed_by_us : bool).
#[export] Instance ChildEvent_eq_dec : EqDecision ChildEvent.
Proof. solve_decision. Defined.

Definition event_data (e : ChildEvent) : bytes :=
  match e with StdoutChunk d | StderrChunk d => d | _ => [] end.
Definition is_output (e : ChildEvent) : bool :=
  match e with StdoutChunk _ | StderrChunk _ => true | _ => false end.

Inductive Signal := SIGTERM | SIGKILL.

Definition kPostExitDrain : Z := 200.
Definition kTerminateGrace : Z := 300.
Definition kForceGrace : Z := 1000.
Definition kMaxQueuedOutputBytes : N := 1024 * 1024.
Definition kReadBudgetBytes : N := 64 * 1024.
Definition kReadBufferBytes : N := 4096.

(** The program counter of [Pump]. *)
Inductive PumpPc :=
  | PTop                                             (* reap, deadlines, next block of input *)
  | PClosed                                          (* no block: is the input closed? *)
  | PPoll
  | POut (out_ready err_ready cancel_ready : bool)
  | PErr (err_ready cancel_ready : bool)
  | PCancel (cancel_ready : bool)
  | PTerm                                            (* the signal that follows [Cancelled] *)
  | PDrain (deadline : Z)                            (* after the loop *)
  | PDrainErr (deadline : Z) (drained : N)
  | PDrainPoll (deadline : Z) (drained : N)
  | PLast
  | PEmit (events : list ChildEvent) (next : PumpPc) (* [QueueEvent], the queue *)
  | PAdd (size : N) (next : PumpPc)                  (* [QueueEvent], the byte counter *)
  | PFinish
  | PDone.

Record Impl := {
  direct_out : bool; direct_err : bool;              (* sinks instead of events *)
  stdin_queue : list bytes; event_queue : list ChildEvent; queued_output_bytes : N;
  stdin_channel_open : bool; stdout_channel_open : bool; stderr_channel_open : bool;
  pending : bytes; pending_offset : nat;
  exit_code : Z; reaped : bool; killed_by_us : bool;
  stdin_closed : bool; pump_finished : bool; cancel_event : bool;
  cancel_seen : bool; force_kill_sent : bool; terminate_deadline : option Z; pc : PumpPc;
  (* what happened so far *)
  accepted : bytes; written : bytes; published : list ChildEvent; popped : list ChildEvent;
  sunk : list ChildEvent; signals : list Signal;
}.
#[export] Instance Impl_fields : Fields Impl :=
  fun s => Build_Impl (direct_out s) (direct_err s) (stdin_queue s) (event_queue s) (queued_output_bytes s)
    (stdin_channel_open s) (stdout_channel_open s) (stderr_channel_open s) (pending s) (pending_offset s)
    (exit_code s) (reaped s) (killed_by_us s) (stdin_closed s) (pump_finished s) (cancel_event s)
    (cancel_seen s) (force_kill_sent s) (terminate_deadline s) (pc s)
    (accepted s) (written s) (published s) (popped s) (sunk s) (signals s).

(** After [Open] and [StartPump]. *)
Definition StartPump (out_sink err_sink : bool) : Impl := {|
  direct_out := out_sink; direct_err := err_sink; stdin_queue := []; event_queue := []; queued_output_bytes := 0;
  stdin_channel_open := true; stdout_channel_open := true; stderr_channel_open := true; pending := []; pending_offset := 0;
  exit_code := -1; reaped := false; killed_by_us := false; stdin_closed := false; pump_finished := false; cancel_event := false;
  cancel_seen := false; force_kill_sent := false; terminate_deadline := None; pc := PTop;
  accepted := []; written := []; published := []; popped := []; sunk := []; signals := [];
|}.

Definition CloseStdinChannel (s : Impl) : Impl := s <| stdin_channel_open := false |> <| pending := [] |> <| pending_offset := 0 |>.
Definition CloseOutputChannel (is_stdout : bool) (s : Impl) : Impl :=
  if is_stdout then s <| stdout_channel_open := false |> else s <| stderr_channel_open := false |>.
Definition send (g : Signal) (s : Impl) : Impl := s <| signals := signals s ++ [g] |>.

(** What [DrainBudgeted] reads: the chunks, and whether the peer closed the channel. *)
Record DrainOutcome := { chunks : list bytes; closed : bool }.
Definition bytes_read (o : DrainOutcome) : N := foldr (fun c n => (size c + n)%N) 0%N (chunks o).
Definition drain_ok (o : DrainOutcome) : bool :=
  forallb (fun c => negb (is_empty c) && (size c <=? kReadBufferBytes)%N) (chunks o) && (bytes_read o <=? kReadBudgetBytes)%N.

(** [DrainBudgeted] on what the reads find: an empty read is the end of the channel, and a
    read takes at most the buffer and what is left of the budget. *)
Inductive ReadAnswer := ReadData (data : bytes) | ReadAgain | ReadFailed.
Fixpoint DrainBudgeted (reads : list ReadAnswer) (budget : N) : DrainOutcome :=
  if (budget =? 0)%N then {| chunks := []; closed := false |}
  else match reads with
  | [] | ReadAgain :: _ => {| chunks := []; closed := false |}
  | ReadFailed :: _ | ReadData [] :: _ => {| chunks := []; closed := true |}
  | ReadData data :: reads =>
      let got := take (N.to_nat (N.min kReadBufferBytes budget)) data in
      let rest := DrainBudgeted reads (budget - size got) in
      {| chunks := got :: chunks rest; closed := closed rest |}
  end.
Lemma DrainBudgeted_within reads budget :
  forallb (fun c => negb (is_empty c) && (size c <=? kReadBufferBytes)%N) (chunks (DrainBudgeted reads budget)) = true
  /\ (bytes_read (DrainBudgeted reads budget) <= budget)%N.
Proof.
  revert budget. induction reads as [|r reads IH]; intros budget; cbn [DrainBudgeted];
    (destruct (N.eqb_spec budget 0) as [->|Hb]; [done|]); [split; [done|apply N.le_0_l]|].
  destruct r as [[|c data]| |]; try (split; [done|apply N.le_0_l]).
  set (got := take _ (c :: data)). assert (Hg : got <> [] /\ (size got <= N.min kReadBufferBytes budget)%N).
  { subst got. assert (Hm : (0 < N.min kReadBufferBytes budget)%N) by (unfold kReadBufferBytes; lia).
    split; [|unfold size; rewrite length_take; lia]. destruct (N.to_nat (N.min kReadBufferBytes budget)) eqn:E; [lia|done]. }
  clearbody got. destruct Hg as [Hne%is_empty_false Hs]. destruct (IH (budget - size got)%N) as [IH1 IH2]. cbv zeta. split.
  - cbn [chunks forallb]. rewrite Hne, IH1, andb_true_r. apply N.leb_le. lia.
  - unfold bytes_read. cbn [chunks foldr]. fold (bytes_read (DrainBudgeted reads (budget - size got))). lia.
Qed.
(** What the pump assumes of a drain is what [DrainBudgeted] gives. *)
Lemma DrainBudgeted_ok reads : drain_ok (DrainBudgeted reads kReadBudgetBytes) = true.
Proof. destruct (DrainBudgeted_within reads kReadBudgetBytes) as [H1 H2]. unfold drain_ok. rewrite H1. by apply N.leb_le. Qed.

Definition chunk_event (is_stdout : bool) (data : bytes) : ChildEvent :=
  if is_stdout then StdoutChunk data else StderrChunk data.

(** [ServiceOutputChannel] with [DrainOutput]; the events are queued one by one. The second
    component is what was read. *)
Definition ServiceOutputChannel (is_stdout : bool) (o : DrainOutcome) (s : Impl) : list ChildEvent * N * Impl :=
  if negb (if is_stdout then stdout_channel_open s else stderr_channel_open s) then ([], 0%N, s)
  else
    let direct := if is_stdout then direct_out s else direct_err s in
    if negb direct && (kMaxQueuedOutputBytes <=? queued_output_bytes s)%N then ([], 0%N, s)
    else
      let events := chunk_event is_stdout <$> chunks o in
      let s := if closed o then CloseOutputChannel is_stdout s else s in
      if direct then ([], bytes_read o, s <| sunk := sunk s ++ events |>) else (events, bytes_read o, s).

(** The answer of poll: interrupted or timed out, failed, or what is ready. *)
Inductive InputReady := InIdle | InWritten (n : nat) | InAgain | InFailed.
Inductive PollAnswer := PollAgain | PollFailed | PollReady (input : InputReady) (out_ready err_ready : bool).

Record Answer := { now : Z; reap : option Z; poll : PollAnswer; drain : DrainOutcome }.

Definition pump_top (a : Answer) (s : Impl) : Impl :=
  match reap a with
  | Some code =>
      let s := s <| reaped := true |> <| exit_code := code |> <| pc := PDrain (now a + kPostExitDrain)%Z |> in
      if cancel_seen s then send SIGKILL s else s
  | None =>
      let expired := match terminate_deadline s with Some d => (d <=? now a)%Z | None => false end in
      if expired && force_kill_sent s then s <| pc := PDrain (now a + kPostExitDrain)%Z |>
      else
        let s := if expired then send SIGKILL s <| force_kill_sent := true |> <| terminate_deadline := Some (now a + kForceGrace)%Z |> else s in
        if stdin_channel_open s && (length (pending s) <=? pending_offset s)%nat then
          match stdin_queue s with
          | b :: q => s <| pending := b |> <| pending_offset := 0 |> <| stdin_queue := q |> <| pc := PPoll |>
          | [] => s <| pending := [] |> <| pending_offset := 0 |> <| pc := PClosed |>
          end
        else s <| pc := PPoll |>
  end.

Definition write_ready (i : InputReady) (s : Impl) : option Impl :=
  let watched := stdin_channel_open s && (pending_offset s <? length (pending s))%nat in
  match i with
  | InIdle => Some s
  | InWritten n =>
      if watched && (0 <? n)%nat && (pending_offset s + n <=? length (pending s))%nat then
        let s := s <| written := written s ++ take n (drop (pending_offset s) (pending s)) |> in
        Some (if (length (pending s) <=? pending_offset s + n)%nat then s <| pending := [] |> <| pending_offset := 0 |>
              else s <| pending_offset := (pending_offset s + n)%nat |>)
      else None
  | InAgain => if watched then Some s else None
  | InFailed => if watched then Some (CloseStdinChannel s) else None
  end.

(** [PollAgain]: the slice passed, or the call was interrupted. *)
Definition pump_poll (a : Answer) (s : Impl) : option Impl :=
  let pressure := (kMaxQueuedOutputBytes <=? queued_output_bytes s)%N in
  match poll a with
  | PollAgain => Some (s <| pc := PTop |>)
  | PollFailed => Some (s <| pc := PDrain (now a + kPostExitDrain)%Z |>)
  | PollReady i o e =>
      let out := stdout_channel_open s && negb pressure && o in
      let err := stderr_channel_open s && negb pressure && e in
      s ← write_ready i s;
      Some (s <| pc := POut out err (cancel_event s) |>)
  end.

Definition begin_cancel (s : Impl) : Impl :=
  let s := s <| cancel_event := false |> in
  if cancel_seen s then s <| pc := PTop |>
  else CloseStdinChannel (s <| cancel_seen := true |> <| killed_by_us := true |> <| stdin_closed := true |>)
         <| pc := PEmit [Cancelled] PTerm |>.

(** [QueueEvent] up to the byte counter, which [PAdd] updates in a step of its own. *)
Definition QueueEvent (e : ChildEvent) (next : PumpPc) (s : Impl) : Impl :=
  let s := s <| event_queue := event_queue s ++ [e] |> <| published := published s ++ [e] |> in
  s <| pc := if is_output e then PAdd (size (event_data e)) next else next |>.

(** One step of the pump; [None]: the answer is impossible, or the pump is done. *)
Definition pump_step (a : Answer) (s : Impl) : option Impl :=
  match pc s with
  | PTop => Some (pump_top a s)
  | PClosed => Some ((if stdin_closed s then CloseStdinChannel s else s) <| pc := PPoll |>)
  | PPoll => pump_poll a s
  | POut o e c =>
      if negb (drain_ok (drain a)) then None
      else if o then let '(events, _, s) := ServiceOutputChannel true (drain a) s in Some (s <| pc := PEmit events (PErr e c) |>)
      else Some (s <| pc := PErr e c |>)
  | PErr e c =>
      if negb (drain_ok (drain a)) then None
      else if e then let '(events, _, s) := ServiceOutputChannel false (drain a) s in Some (s <| pc := PEmit events (PCancel c) |>)
      else Some (s <| pc := PCancel c |>)
  | PCancel c => Some (if c then begin_cancel s else s <| pc := PTop |>)
  | PTerm => Some (send SIGTERM s <| terminate_deadline := Some (now a + kTerminateGrace)%Z |> <| pc := PTop |>)
  | PDrain d =>
      if negb (stdout_channel_open s || stderr_channel_open s) || (d <=? now a)%Z then Some (s <| pc := PLast |>)
      else if negb (drain_ok (drain a)) then None
      else let '(events, n, s) := ServiceOutputChannel true (drain a) s in Some (s <| pc := PEmit events (PDrainErr d n) |>)
  | PDrainErr d n =>
      if negb (drain_ok (drain a)) then None
      else let '(events, m, s) := ServiceOutputChannel false (drain a) s in Some (s <| pc := PEmit events (PDrainPoll d (n + m)) |>)
  | PDrainPoll d n =>
      Some (s <| pc :=
        if negb (stdout_channel_open s || stderr_channel_open s) then PLast
        else if (0 <? n)%N then PDrain d
        else match poll a with PollFailed => PLast | _ => PDrain d end |>)
  | PLast =>
      let s := if reaped s then s else match reap a with Some code => s <| reaped := true |> <| exit_code := code |> | None => s end in
      let s := if stdin_channel_open s then CloseStdinChannel s else s in
      let s := CloseOutputChannel false (CloseOutputChannel true s) in
      Some (s <| pc := PEmit [Exited (if reaped s then exit_code s else -1) (killed_by_us s)] PFinish |>)
  | PEmit [] k => Some (s <| pc := k |>)
  | PEmit (e :: l) k => Some (QueueEvent e (PEmit l k) s)
  | PAdd n k => Some (s <| queued_output_bytes := u64_add (queued_output_bytes s) n |> <| pc := k |>)
  | PFinish => Some (s <| pump_finished := true |> <| pc := PDone |>)
  | PDone => None
  end.

(** ** The caller *)

(** [room]: the bounded queue takes one more block. *)
Definition PushStdin (room : bool) (data : bytes) (s : Impl) : bool * Impl :=
  if is_empty data then (true, s)
  else if pump_finished s || stdin_closed s || negb room then (false, s)
  else (true, s <| stdin_queue := stdin_queue s ++ [data] |> <| accepted := accepted s ++ data |>).
Definition CloseStdin (s : Impl) : Impl := s <| stdin_closed := true |>.
Definition Cancel (s : Impl) : Impl := s <| cancel_event := true |>.
Definition PopEvent (s : Impl) : option ChildEvent * Impl :=
  match event_queue s with
  | [] => (None, s)
  | e :: q =>
      let s := s <| event_queue := q |> <| popped := popped s ++ [e] |> in
      (Some e, if is_output e then s <| queued_output_bytes := u64_sub (queued_output_bytes s) (size (event_data e)) |> else s)
  end.
Definition HasExited (s : Impl) : option Z := if pump_finished s then Some (exit_code s) else None.

Definition WaitForExit_round (remaining : Z) (s : Impl) : option (bool * option Z) :=
  match HasExited s with
  | Some code => Some (true, Some code)
  | None => if (remaining <=? 0)%Z then Some (false, None) else None
  end.

(** [Start]: what [Open] said, then the pump. *)
Definition Start (command : bytes) (open_error : option bytes) (out_sink err_sink : bool) : result Impl :=
  if is_empty command then Err "Command is empty."
  else match open_error with Some e => Err e | None => Ok (StartPump out_sink err_sink) end.

(** The end of [Shutdown], when the pump has been joined. *)
Definition Shutdown_joined (s : Impl) : Impl := if reaped s then s else send SIGKILL s <| reaped := true |>.

(** One round of the loop of [NextEvent]. The pump may run between the attempt to pop and
    the look at its flag; [between] is the state found then. *)
Inductive Round := Got (e : ChildEvent) | Nothing | Again.
Definition next_round (remaining : Z) (between : Impl) (popped_event : option ChildEvent) : Round :=
  match popped_event with
  | Some e => Got e
  | None => if pump_finished between then Nothing else if (remaining <=? 0)%Z then Nothing else Again
  end.

(** ** All interleavings *)

Inductive action := APump (a : Answer) | APush (room : bool) (data : bytes) | AClose | ACancel | APop.
Definition act (x : action) (s : Impl) : option Impl :=
  match x with
  | APump a => pump_step a s
  | APush room data => Some (PushStdin room data s).2
  | AClose => Some (CloseStdin s)
  | ACancel => Some (Cancel s)
  | APop => Some (PopEvent s).2
  end.
Inductive reachable (out_sink err_sink : bool) : Impl -> Prop :=
  | reach_start : reachable out_sink err_sink (StartPump out_sink err_sink)
  | reach_act x s s' : reachable out_sink err_sink s -> act x s = Some s' -> reachable out_sink err_sink s'.

(** *** The input of the child *)

Definition input_inv (s : Impl) : Prop :=
  (exists rest, accepted s = written s ++ rest) /\
  (stdin_channel_open s = true ->
   accepted s = written s ++ drop (pending_offset s) (pending s) ++ concat (stdin_queue s)).

Definition input_view (s : Impl) :=
  (accepted s, written s, stdin_queue s, (pending s, pending_offset s, stdin_channel_open s)).
Lemma input_inv_view s s' : input_view s' = input_view s -> input_inv s -> input_inv s'.
Proof. unfold input_view, input_inv. intros [= -> -> -> -> -> ->]. done. Qed.
Lemma input_inv_close s : input_inv s -> input_inv (CloseStdinChannel s).
Proof. intros [Hp _]. by split. Qed.
Lemma input_service b o s : input_view (ServiceOutputChannel b o s).2 = input_view s.
Proof. unfold ServiceOutputChannel, CloseOutputChannel. repeat case_match; done. Qed.

Lemma input_inv_top a s : input_inv s -> input_inv (pump_top a s).
Proof.
  intros [Hp Ho]. unfold pump_top. destruct (reap a).
  { case_match; by split. }
  set (expired := match terminate_deadline s with Some _ => _ | None => _ end). case_match; [by split|].
  set (s1 := if expired then _ else s). assert (H1 : input_view s1 = input_view s) by (subst s1; by case_match).
  assert (Hi : input_inv s1) by (eapply input_inv_view; [exact H1 | by split]). clearbody s1. clear H1 Hp Ho. destruct Hi as [Hp Ho].
  destruct (stdin_channel_open s1 && (length (pending s1) <=? pending_offset s1)) eqn:Hfill; [|by split].
  apply andb_true_iff in Hfill as [Hopen Hl%Nat.leb_le]. specialize (Ho Hopen). rewrite drop_ge in Ho by lia.
  destruct (stdin_queue s1) as [|b q] eqn:Eq; (split; [exact Hp|]); intros _.
  - change (accepted s1 = written s1 ++ [] ++ concat (stdin_queue s1)). by rewrite Eq.
  - exact Ho.
Qed.
Lemma input_inv_write i s s' : input_inv s -> write_ready i s = Some s' -> input_inv s'.
Proof.
  intros Hi. unfold write_ready. cbv zeta. destruct i as [|n| |]; intros Hw; [by simplify_eq| | |];
    (destruct (_ && _) eqn:Hg in Hw; [|discriminate]); simplify_eq; [|done|by apply input_inv_close].
  destruct Hi as [Hp Ho].
  repeat match goal with H : _ && _ = true |- _ => apply andb_true_iff in H as [? ?] end.
  specialize (Ho ltac:(done)). rewrite Nat.leb_le in *. 
  assert (Hacc : accepted s = (written s ++ take n (drop (pending_offset s) (pending s)))
                   ++ drop (pending_offset s + n) (pending s) ++ concat (stdin_queue s)).
  { rewrite Ho, <- (take_drop n (drop (pending_offset s) (pending s))) at 1. rewrite drop_drop, <- !app_assoc. done. }
  set (s1 := s <| written := _ |>). destruct (Nat.leb_spec (length (pending s1)) (pending_offset s1 + n)) as [Hle|Hlt]; (split; [eexists; exact Hacc | intros _]).
  - rewrite (drop_ge (pending s) (pending_offset s + n)) in Hacc by exact Hle. exact Hacc.
  - exact Hacc.
Qed.
Lemma input_inv_act x s s' : input_inv s -> act x s = Some s' -> input_inv s'.
Proof.
  intros Hi H. destruct x as [a|room data| | |]; cbn in H; [|injection H as <-..].
  - unfold pump_step in H.
    assert (Hserve : forall b k, input_inv ((ServiceOutputChannel b (drain a) s).2 <| pc := k |>)).
    { intros b k. eapply input_inv_view; [|exact Hi]. exact (input_service b (drain a) s). }
    destruct (pc s) as [| | |o e c|e c|c| |d|d n|d n| |[|e l] k|n k| |].
    + injection H as <-. by apply input_inv_top.
    + injection H as <-. case_match; [by apply input_inv_close | exact Hi].
    + unfold pump_poll in H. destruct (poll a); [injection H as <-; exact Hi..|].
      destruct (write_ready input s) as [s1|] eqn:Hw; [|discriminate]. injection H as <-. exact (input_inv_write _ _ _ Hi Hw).
    + destruct (negb _); [discriminate|]. destruct o; [|injection H as <-; exact Hi]. pose proof (Hserve true) as Hs.
      destruct (ServiceOutputChannel _ _ s) as [[ev n] s1]. injection H as <-. apply Hs.
    + destruct (negb _); [discriminate|]. destruct e; [|injection H as <-; exact Hi]. pose proof (Hserve false) as Hs.
      destruct (ServiceOutputChannel _ _ s) as [[ev n] s1]. injection H as <-. apply Hs.
    + injection H as <-. destruct c; [|exact Hi]. unfold begin_cancel. cbv zeta. case_match; [exact Hi|].
      set (s1 := s <| cancel_event := _ |> <| cancel_seen := _ |> <| killed_by_us := _ |> <| stdin_closed := _ |>).
      assert (H1 : input_inv (CloseStdinChannel s1)) by (apply input_inv_close; exact Hi). exact H1.
    + injection H as <-. exact Hi.
    + destruct (_ || _); [injection H as <-; exact Hi|]. destruct (negb _); [discriminate|]. pose proof (Hserve true) as Hs.
      destruct (ServiceOutputChannel _ _ s) as [[ev n] s1]. injection H as <-. apply Hs.
    + destruct (negb _); [discriminate|]. pose proof (Hserve false) as Hs.
      destruct (ServiceOutputChannel _ _ s) as [[ev m] s1]. injection H as <-. apply Hs.
    + injection H as <-. exact Hi.
    + injection H as <-.
      set (s1 := if reaped s then s else _). assert (H1 : input_view s1 = input_view s) by (subst s1; by repeat case_match).
      assert (Hi1 : input_inv s1) by (by eapply input_inv_view). clearbody s1.
      set (s2 := if stdin_channel_open s1 then CloseStdinChannel s1 else s1).
      assert (Hi2 : input_inv s2) by (subst s2; case_match; [by apply input_inv_close | done]). clearbody s2. exact Hi2.
    + injection H as <-. exact Hi.
    + injection H as <-. exact Hi.
    + injection H as <-. exact Hi.
    + injection H as <-. exact Hi.
    + discriminate.
  - unfold PushStdin. repeat case_match; try done. destruct Hi as [[rest Hp] Ho]. split.
    + exists (rest ++ data). cbn. by rewrite Hp, app_assoc.
    + intros Hopen. specialize (Ho Hopen). cbn in *. rewrite concat_app, Ho. cbn. by rewrite app_nil_r, <- !app_assoc.
  - done.
  - done.
  - unfold PopEvent. repeat case_match; done.
Qed.

(** *** What the caller is told *)

(** The events the program counter still has to queue, what it still has to count, and
    whether [Exited] is among or behind them. *)
Fixpoint todo (k : PumpPc) : list ChildEvent :=
  match k with PEmit l k => l ++ todo k | PAdd _ k => todo k | _ => [] end.
Fixpoint to_add (k : PumpPc) : N :=
  match k with PEmit _ k => to_add k | PAdd n k => (n + to_add k)%N | _ => 0%N end.
Fixpoint final (k : PumpPc) : bool :=
  match k with PEmit _ k | PAdd _ k => final k | PFinish | PDone => true | _ => false end.

Definition is_exit (e : ChildEvent) : bool := match e with Exited _ _ => true | _ => false end.
Definition cancels (l : list ChildEvent) : nat := length (filter (eq Cancelled) l).

Record event_inv (s : Impl) : Prop := {
  ei_order : published s = popped s ++ event_queue s;
  ei_killed : killed_by_us s = cancel_seen s;
  ei_done : pump_finished s = true <-> pc s = PDone;
  ei_shape : exists body code,
    published s ++ todo (pc s) = body ++ (if final (pc s) then [Exited code (cancel_seen s)] else [])
    /\ Forall (fun e => is_exit e = false) body /\ cancels body = (if cancel_seen s then 1 else 0);
}.

Lemma cancels_app l1 l2 : cancels (l1 ++ l2) = cancels l1 + cancels l2.
Proof. unfold cancels. by rewrite filter_app, length_app. Qed.
Lemma chunk_events b l : Forall (fun e => is_exit e = false) (chunk_event b <$> l) /\ cancels (chunk_event b <$> l) = 0.
Proof. induction l as [|c l [IH1 IH2]]; [done|]. destruct b; (split; [by constructor | exact IH2]). Qed.

Definition event_view (s : Impl) := (published s, popped s, event_queue s, killed_by_us s, cancel_seen s, pump_finished s).
(** A step that only changes the program counter, to one with the same future. *)
Lemma event_inv_move s s' :
  event_view s' = event_view s -> todo (pc s') = todo (pc s) -> final (pc s') = final (pc s) ->
  pc s <> PDone -> pc s' <> PDone -> event_inv s -> event_inv s'.
Proof.
  unfold event_view. intros [= E1 E2 E3 E4 E5 E6] Ht Hf Hn Hn' [H1 H2 H3 H4]. constructor.
  - congruence.
  - congruence.
  - rewrite E6, H3. split; congruence.
  - by rewrite E1, E5, Ht, Hf.
Qed.
(** A step that plans the events of a channel. *)
Lemma event_inv_plan s s' b l k :
  event_view s' = event_view s -> todo (pc s) = [] -> final (pc s) = false -> pc s' = PEmit (chunk_event b <$> l) k ->
  todo k = [] -> final k = false -> pc s <> PDone -> event_inv s -> event_inv s'.
Proof.
  unfold event_view. intros [= E1 E2 E3 E4 E5 E6] Ht Hf Hp Htk Hfk Hn [H1 H2 H3 (body & code & H4 & H5 & H6)]. constructor.
  - congruence.
  - congruence.
  - rewrite E6, H3, Hp. split; [congruence | discriminate].
  - rewrite Ht, Hf, !app_nil_r in H4. rewrite E1, E5, Hp. cbn. rewrite Htk, Hfk, app_nil_r, H4.
    destruct (chunk_events b l) as [C1 C2]. exists (body ++ (chunk_event b <$> l)), code.
    split_and!; [by rewrite app_nil_r | by apply Forall_app | by rewrite cancels_app, H6, C2, Nat.add_0_r].
Qed.
Lemma service_view b o s : event_view (ServiceOutputChannel b o s).2 = event_view s
  /\ exists l, (ServiceOutputChannel b o s).1.1 = chunk_event b <$> l /\ (l = [] \/ l = chunks o).
Proof.
  unfold ServiceOutputChannel, CloseOutputChannel.
  repeat case_match; (split; [done|]); try (by exists []; eauto); exists (chunks o); eauto.
Qed.

(** Program counters of the loop itself: nothing planned. *)
Definition plain (k : PumpPc) : bool := match k with PEmit _ _ | PAdd _ _ | PFinish | PDone => false | _ => true end.
Lemma plain_facts k : plain k = true -> todo k = [] /\ final k = false /\ to_add k = 0%N /\ k <> PDone.
Proof. by destruct k. Qed.
Lemma event_inv_plain s s' :
  event_view s' = event_view s -> plain (pc s) = true -> plain (pc s') = true -> event_inv s -> event_inv s'.
Proof.
  intros Hv Hp Hp'. destruct (plain_facts _ Hp) as (T & F & _ & N), (plain_facts _ Hp') as (T' & F' & _ & N').
  apply event_inv_move; congruence.
Qed.

Lemma top_plain a s : event_view (pump_top a s) = event_view s /\ plain (pc (pump_top a s)) = true.
Proof.
  unfold pump_top. destruct (reap a); [cbv zeta; case_match; by split|]. cbv zeta.
  set (x := match terminate_deadline s with Some _ => _ | None => _ end). destruct (x && force_kill_sent s); [by split|].
  destruct x; cbn [stdin_channel_open]; case_match; try (by split); case_match; by split.
Qed.
Lemma write_view i s s' : write_ready i s = Some s' -> event_view s' = event_view s /\ queued_output_bytes s' = queued_output_bytes s.
Proof.
  unfold write_ready. cbv zeta. destruct i; intros H; [by simplify_eq| | |];
    (destruct (_ && _) in H; [|discriminate]); injection H as <-; [case_match|..]; done.
Qed.
Lemma poll_plain a s s' : pump_poll a s = Some s' ->
  event_view s' = event_view s /\ plain (pc s') = true /\ queued_output_bytes s' = queued_output_bytes s.
Proof.
  unfold pump_poll. destruct (poll a); [intros [= <-]; by split..|].
  destruct (write_ready input s) as [s1|] eqn:Hw; [|discriminate]. intros [= <-].
  destruct (write_view _ _ _ Hw) as [Hv Hq]. by split_and!.
Qed.

Lemma event_inv_serve b o s k : plain (pc s) = true -> plain k = true -> event_inv s ->
  event_inv ((ServiceOutputChannel b o s).2 <| pc := PEmit (ServiceOutputChannel b o s).1.1 k |>).
Proof.
  intros Hp Hk. destruct (plain_facts _ Hp) as (T & F & _ & N), (plain_facts _ Hk) as (T' & F' & _ & N').
  destruct (service_view b o s) as [Hv (l & El & _)].
  apply (event_inv_plan _ _ b l k); try done. by rewrite El.
Qed.
Lemma event_inv_cancel s : plain (pc s) = true -> event_inv s -> event_inv (begin_cancel s).
Proof.
  intros Hp Hi. destruct (plain_facts _ Hp) as (T & F & _ & N). unfold begin_cancel. cbv zeta.
  change (cancel_seen (s <| cancel_event := false |>)) with (cancel_seen s). destruct (cancel_seen s) eqn:Ec.
  - by eapply event_inv_plain; [|exact Hp| |exact Hi].
  - destruct Hi as [H1 H2 H3 (body & code & H4 & H5 & H6)]. rewrite T, F, !app_nil_r, Ec in *. constructor.
    + exact H1.
    + done.
    + change (pump_finished s = true <-> PEmit [Cancelled] PTerm = PDone). rewrite H3. split; [congruence | discriminate].
    + exists (body ++ [Cancelled]), code. change ((published s ++ [Cancelled]) = (body ++ [Cancelled]) ++ []
        /\ Forall (fun e => is_exit e = false) (body ++ [Cancelled]) /\ cancels (body ++ [Cancelled]) = 1).
      rewrite H4, app_nil_r, cancels_app, H6. split_and!; try done. apply Forall_app. by repeat constructor.
Qed.
Lemma event_inv_last a s : pc s = PLast -> event_inv s -> event_inv (default s (pump_step a s)).
Proof.
  intros Hp [H1 H2 H3 (body & code & H4 & H5 & H6)]. unfold pump_step. rewrite Hp. cbv zeta. cbn [default].
  set (s1 := if reaped s then s else _). assert (Hv : event_view s1 = event_view s) by (subst s1; by repeat case_match).
  clearbody s1. set (s2 := if stdin_channel_open s1 then CloseStdinChannel s1 else s1).
  assert (Hv2 : event_view s2 = event_view s) by (unfold s2; destruct (stdin_channel_open s1); exact Hv). clearbody s2.
  unfold event_view in Hv2. injection Hv2 as E1 E2 E3 E4 E5 E6.
  rewrite Hp in H3, H4. cbn in H4. rewrite !app_nil_r in H4. constructor.
  - change (published s2 = popped s2 ++ event_queue s2). congruence.
  - change (killed_by_us s2 = cancel_seen s2). congruence.
  - change (pump_finished s2 = true <-> PEmit [Exited (if reaped s2 then exit_code s2 else -1) (killed_by_us s2)] PFinish = PDone).
    rewrite E6, H3. split; discriminate.
  - exists body, (if reaped s2 then exit_code s2 else -1)%Z.
    change (published s2 ++ [Exited (if reaped s2 then exit_code s2 else -1) (killed_by_us s2)]
              = body ++ [Exited (if reaped s2 then exit_code s2 else -1) (cancel_seen s2)]
      /\ Forall (fun e => is_exit e = false) body /\ cancels body = (if cancel_seen s2 then 1 else 0)).
    rewrite E1, E4, E5, H4, H2. by split_and!.
Qed.

(** The continuations of [PEmit] and [PAdd] never end the pump. *)
Fixpoint pc_ok (k : PumpPc) : Prop :=
  match k with PEmit _ k | PAdd _ k => k <> PDone /\ pc_ok k | _ => True end.
Lemma plain_ok k : plain k = true -> k <> PDone /\ pc_ok k.
Proof. by destruct k. Qed.

(** Every case of a pump step, once for all invariants: the loop's own steps leave a plain
    program counter and the events alone. *)
Inductive pump_case (a : Answer) (s : Impl) : Impl -> Prop :=
  | case_plain s' : plain (pc s) = true -> plain (pc s') = true -> event_view s' = event_view s ->
      queued_output_bytes s' = queued_output_bytes s -> pump_case a s s'
  | case_serve b k : plain (pc s) = true -> plain k = true -> drain_ok (drain a) = true ->
      pump_case a s ((ServiceOutputChannel b (drain a) s).2 <| pc := PEmit (ServiceOutputChannel b (drain a) s).1.1 k |>)
  | case_cancel : pc s = PCancel true -> pump_case a s (begin_cancel s)
  | case_last : pc s = PLast -> pump_case a s (default s (pump_step a s))
  | case_emitted k : pc s = PEmit [] k -> pump_case a s (s <| pc := k |>)
  | case_emit e l k : pc s = PEmit (e :: l) k ->
      pump_case a s (s <| event_queue := event_queue s ++ [e] |> <| published := published s ++ [e] |>
                       <| pc := if is_output e then PAdd (size (event_data e)) (PEmit l k) else PEmit l k |>)
  | case_add n k : pc s = PAdd n k -> pump_case a s (s <| queued_output_bytes := u64_add (queued_output_bytes s) n |> <| pc := k |>)
  | case_finish : pc s = PFinish -> pump_case a s (s <| pump_finished := true |> <| pc := PDone |>).

Lemma top_queued a s : queued_output_bytes (pump_top a s) = queued_output_bytes s.
Proof.
  unfold pump_top. destruct (reap a); [cbv zeta; by case_match|]. cbv zeta.
  set (x := match terminate_deadline s with Some _ => _ | None => _ end). destruct (x && force_kill_sent s); [done|].
  destruct x; cbn [stdin_channel_open]; case_match; try done; by case_match.
Qed.
Lemma pump_cases a s s' : pump_step a s = Some s' -> pump_case a s s'.
Proof.
  intros H. pose proof H as H0. unfold pump_step in H.
  destruct (pc s) as [| | |o e c|e c|c| |d|d n|d n| |[|e l] k|n k| |] eqn:Hp.
  - injection H as <-. destruct (top_plain a s). apply case_plain; [by rewrite Hp|done..|apply top_queued].
  - injection H as <-. apply case_plain; [by rewrite Hp|done|by case_match|by case_match].
  - destruct (poll_plain _ _ _ H) as (? & ? & ?). apply case_plain; [by rewrite Hp|done..].
  - destruct (drain_ok (drain a)) eqn:Hd; [|discriminate]. cbn [negb] in H. destruct o.
    + rewrite (surjective_pairing (ServiceOutputChannel _ _ s)), (surjective_pairing (ServiceOutputChannel _ _ s).1) in H.
      injection H as <-. apply case_serve; [by rewrite Hp|done..].
    + injection H as <-. apply case_plain; [by rewrite Hp|done..].
  - destruct (drain_ok (drain a)) eqn:Hd; [|discriminate]. cbn [negb] in H. destruct e.
    + rewrite (surjective_pairing (ServiceOutputChannel _ _ s)), (surjective_pairing (ServiceOutputChannel _ _ s).1) in H.
      injection H as <-. apply case_serve; [by rewrite Hp|done..].
    + injection H as <-. apply case_plain; [by rewrite Hp|done..].
  - injection H as <-. destruct c; [by apply case_cancel|]. apply case_plain; [by rewrite Hp|done..].
  - injection H as <-. apply case_plain; [by rewrite Hp|done..].
  - destruct (_ || _); [injection H as <-; apply case_plain; [by rewrite Hp|done..]|].
    destruct (drain_ok (drain a)) eqn:Hd; [|discriminate]. cbn [negb] in H.
    rewrite (surjective_pairing (ServiceOutputChannel _ _ s)), (surjective_pairing (ServiceOutputChannel _ _ s).1) in H.
    injection H as <-. apply case_serve; [by rewrite Hp|done..].
  - destruct (drain_ok (drain a)) eqn:Hd; [|discriminate]. cbn [negb] in H.
    rewrite (surjective_pairing (ServiceOutputChannel _ _ s)), (surjective_pairing (ServiceOutputChannel _ _ s).1) in H.
    injection H as <-. apply case_serve; [by rewrite Hp|done..].
  - injection H as <-. apply case_plain; [by rewrite Hp| |done..]. cbn. by repeat case_match.
  - assert (E : s' = default s (pump_step a s)) by (by rewrite H0). rewrite E. by apply case_last.
  - injection H as <-. by apply case_emitted.
  - injection H as <-. by apply case_emit.
  - injection H as <-. by apply case_add.
  - injection H as <-. by apply case_finish.
  - discriminate.
Qed.

Lemma last_pc a s : pc s = PLast -> exists e, is_output e = false /\ pc (default s (pump_step a s)) = PEmit [e] PFinish
  /\ queued_output_bytes (default s (pump_step a s)) = queued_output_bytes s
  /\ event_queue (default s (pump_step a s)) = event_queue s.
Proof.
  intros Hp. unfold pump_step. rewrite Hp. cbv zeta. cbn [default from_option id].
  set (s1 := if reaped s then s else _).
  assert (H1 : queued_output_bytes s1 = queued_output_bytes s /\ event_queue s1 = event_queue s) by (subst s1; by repeat case_match).
  clearbody s1. set (s2 := if stdin_channel_open s1 then CloseStdinChannel s1 else s1).
  assert (H2 : queued_output_bytes s2 = queued_output_bytes s /\ event_queue s2 = event_queue s)
    by (unfold s2; destruct (stdin_channel_open s1); exact H1). clearbody s2.
  eexists. repeat split; [done|apply H2..].
Qed.
Lemma pc_ok_pump a s s' : pc_ok (pc s) -> pump_case a s s' -> pc_ok (pc s').
Proof.
  intros Hk [s2 _ H _ _|b k _ H _|H|H|k H|e l k H|n k H|H].
  - by apply plain_ok.
  - by apply plain_ok.
  - unfold begin_cancel. cbv zeta. by case_match.
  - destruct (last_pc a s H) as (e & _ & -> & _). by split.
  - rewrite H in Hk. apply Hk.
  - rewrite H in Hk. destruct (is_output e); [split; [done|exact Hk] | exact Hk].
  - rewrite H in Hk. apply Hk.
  - done.
Qed.

Lemma event_inv_emit e l k s : pc s = PEmit (e :: l) k -> k <> PDone -> event_inv s ->
  event_inv (s <| event_queue := event_queue s ++ [e] |> <| published := published s ++ [e] |>
               <| pc := if is_output e then PAdd (size (event_data e)) (PEmit l k) else PEmit l k |>).
Proof.
  intros Hp Hk [H1 H2 H3 (body & code & H4 & H5 & H6)]. rewrite Hp in *. constructor.
  - change (published s ++ [e] = popped s ++ event_queue s ++ [e]). by rewrite H1, app_assoc.
  - exact H2.
  - change (pump_finished s = true <-> (if is_output e then PAdd (size (event_data e)) (PEmit l k) else PEmit l k) = PDone).
    rewrite H3. split; [discriminate | by destruct (is_output e)].
  - exists body, code. split_and!; [|exact H5|exact H6]. cbn in H4.
    change ((published s ++ [e]) ++ todo (if is_output e then PAdd (size (event_data e)) (PEmit l k) else PEmit l k)
      = body ++ (if final (if is_output e then PAdd (size (event_data e)) (PEmit l k) else PEmit l k) then [Exited code (cancel_seen s)] else [])).
    rewrite <- app_assoc. destruct (is_output e); exact H4.
Qed.
Lemma event_inv_finish s : pc s = PFinish -> event_inv s -> event_inv (s <| pump_finished := true |> <| pc := PDone |>).
Proof.
  intros Hp [H1 H2 H3 H4]. rewrite Hp in *. constructor; [exact H1|exact H2|by split|exact H4].
Qed.
Lemma event_inv_pop s : event_inv s -> event_inv (PopEvent s).2.
Proof.
  intros Hi. unfold PopEvent. destruct (event_queue s) as [|e q] eqn:Eq; [exact Hi|]. destruct Hi as [H1 H2 H3 H4]. cbn [snd].
  assert (H1' : published s = (popped s ++ [e]) ++ q) by (by rewrite H1, Eq, <- app_assoc).
  destruct (is_output e); constructor; first [exact H1' | exact H2 | exact H3 | exact H4].
Qed.
Lemma event_inv_act x s s' : pc_ok (pc s) -> event_inv s -> act x s = Some s' -> event_inv s'.
Proof.
  intros Hk Hi H. destruct x as [a|room data| | |]; cbn in H; [|injection H as <-..].
  - apply pump_cases in H as [s2 Hp Hp' Hv _|b k Hp Hp' _|Hp|Hp|k Hp|e l k Hp|n k Hp|Hp].
    + by apply (event_inv_plain s).
    + by apply event_inv_serve.
    + apply event_inv_cancel; [by rewrite Hp|done].
    + by apply event_inv_last.
    + rewrite Hp in Hk. apply (event_inv_move s); rewrite ?Hp; [done..|apply Hk|exact Hi].
    + rewrite Hp in Hk. apply event_inv_emit; [done|apply Hk|exact Hi].
    + rewrite Hp in Hk. apply (event_inv_move s); rewrite ?Hp; [done..|apply Hk|exact Hi].
    + by apply event_inv_finish.
  - unfold PushStdin. destruct (is_empty data); [exact Hi|]. destruct (_ || _); [exact Hi|]. by destruct Hi.
  - by destruct Hi.
  - by destruct Hi.
  - by apply event_inv_pop.
Qed.

(** *** The bytes of the output that nobody has taken yet *)

Definition out_total (l : list ChildEvent) : N := foldr (fun e n => ((if is_output e then size (event_data e) else 0) + n)%N) 0%N l.
Lemma out_total_app l1 l2 : out_total (l1 ++ l2) = (out_total l1 + out_total l2)%N.
Proof. unfold out_total. induction l1 as [|e l1 IH]; [done|]. cbn [app foldr]. rewrite IH. lia. Qed.
Lemma out_total_cons e l : out_total (e :: l) = ((if is_output e then size (event_data e) else 0) + out_total l)%N.
Proof. done. Qed.
Lemma out_total_chunks b l : out_total (chunk_event b <$> l) = foldr (fun c n => (size c + n)%N) 0%N l.
Proof. unfold out_total. induction l as [|c l IH]; [done|]. rewrite fmap_cons. cbn [foldr]. rewrite IH. by destruct b. Qed.

Definition counter_inv (s : Impl) : Prop :=
  (queued_output_bytes s <= u64_max)%N /\
  u64_add (queued_output_bytes s) (to_add (pc s)) = out_total (event_queue s) /\
  (out_total (event_queue s) + out_total (todo (pc s)) < kMaxQueuedOutputBytes + kReadBudgetBytes)%N.

Lemma u64_wrap_le n : (u64_wrap n <= u64_max)%N.
Proof. unfold u64_wrap, u64_max. pose proof (N.mod_upper_bound n 18446744073709551616). lia. Qed.
Lemma u64_sub_add a s t r : (a <= u64_max)%N -> (s <= u64_max)%N -> u64_add a t = (s + r)%N -> (s + r <= u64_max)%N ->
  u64_add (u64_sub a s) t = r.
Proof.
  intros Ha Hs H Hr. unfold u64_sub. rewrite (u64_wrap_small s) by lia. rewrite u64_add_wrap_l.
  unfold u64_add, u64_wrap, u64_max in *.
  pose proof (N.Div0.div_mod (a + t) 18446744073709551616) as Hd. rewrite H in Hd.
  replace (a + (18446744073709551616 - s) + t)%N with (r + (1 + (a + t) / 18446744073709551616) * 18446744073709551616)%N by lia.
  rewrite N.Div0.mod_add. apply N.mod_small. lia.
Qed.
Lemma counter_inv_pop s : counter_inv s -> counter_inv (PopEvent s).2.
Proof.
  intros Hi. unfold PopEvent. destruct (event_queue s) as [|e q] eqn:Eq; [exact Hi|]. cbn [snd].
  destruct Hi as (Hm & Hc & Hb). rewrite Eq in *.
  rewrite out_total_cons in Hc, Hb. unfold kMaxQueuedOutputBytes, kReadBudgetBytes in *.
  destruct (is_output e) eqn:He; [|by split_and!].
  change ((u64_sub (queued_output_bytes s) (size (event_data e)) <= u64_max)%N /\
    u64_add (u64_sub (queued_output_bytes s) (size (event_data e))) (to_add (pc s)) = out_total q /\
    (out_total q + out_total (todo (pc s)) < 1024 * 1024 + 64 * 1024)%N).
  split_and!; [apply u64_wrap_le | apply u64_sub_add; unfold u64_max in *; [lia..|exact Hc|lia] | lia].
Qed.
Lemma service_bytes b o s :
  queued_output_bytes (ServiceOutputChannel b o s).2 = queued_output_bytes s
  /\ event_queue (ServiceOutputChannel b o s).2 = event_queue s
  /\ ((ServiceOutputChannel b o s).1.1 = []
      \/ (queued_output_bytes s < kMaxQueuedOutputBytes)%N /\ out_total (ServiceOutputChannel b o s).1.1 = bytes_read o).
Proof.
  unfold ServiceOutputChannel, CloseOutputChannel.
  destruct (negb (if b then _ else _)); [by split_and!; [..|left]|].
  destruct (negb (if b then direct_out s else direct_err s) && _) eqn:Hg; [by split_and!; [..|left]|].
  destruct (if b then direct_out s else direct_err s).
  { destruct (closed o), b; split_and!; [done..|by left| | |by left| | |by left| | |by left]; done. }
  apply N.leb_gt in Hg. pose proof (out_total_chunks b (chunks o)) as Ht. 
  destruct (closed o), b; (split_and!; [done..|right; by split]).
Qed.
Lemma counter_inv_serve b o k s : plain (pc s) = true -> plain k = true -> drain_ok o = true -> counter_inv s ->
  counter_inv ((ServiceOutputChannel b o s).2 <| pc := PEmit (ServiceOutputChannel b o s).1.1 k |>).
Proof.
  intros Hp Hk Hd (Hm & Hc & Hb). destruct (plain_facts _ Hp) as (T & _ & A & _), (plain_facts _ Hk) as (T' & _ & A' & _).
  rewrite T, A in *. unfold u64_add in Hc. rewrite N.add_0_r, u64_wrap_small in Hc by done.
  destruct (service_bytes b o s) as (Eq & Ec & Hl). unfold counter_inv.
  change (queued_output_bytes (ServiceOutputChannel b o s).2 <= u64_max
    /\ u64_add (queued_output_bytes (ServiceOutputChannel b o s).2) (to_add k) = out_total (event_queue (ServiceOutputChannel b o s).2)
    /\ out_total (event_queue (ServiceOutputChannel b o s).2) + out_total ((ServiceOutputChannel b o s).1.1 ++ todo k) < kMaxQueuedOutputBytes + kReadBudgetBytes)%N.
  rewrite Eq, Ec, T', A', app_nil_r. unfold u64_add. rewrite N.add_0_r, u64_wrap_small by done.
  split_and!; [done..|]. unfold drain_ok in Hd. apply andb_true_iff in Hd as [_ Hd%N.leb_le].
  destruct Hl as [-> | [Hq Ht]]; [exact Hb|]. rewrite Ht. lia.
Qed.
Lemma counter_inv_emit e l k s : pc s = PEmit (e :: l) k -> counter_inv s ->
  counter_inv (s <| event_queue := event_queue s ++ [e] |> <| published := published s ++ [e] |>
                 <| pc := if is_output e then PAdd (size (event_data e)) (PEmit l k) else PEmit l k |>).
Proof.
  intros Hp (Hm & Hc & Hb). rewrite Hp in *. cbn [todo app to_add] in Hb, Hc. rewrite out_total_cons in Hb. unfold counter_inv.
  change ((queued_output_bytes s <= u64_max)%N
    /\ u64_add (queued_output_bytes s) (to_add (if is_output e then PAdd (size (event_data e)) (PEmit l k) else PEmit l k)) = out_total (event_queue s ++ [e])
    /\ (out_total (event_queue s ++ [e]) + out_total (todo (if is_output e then PAdd (size (event_data e)) (PEmit l k) else PEmit l k))
        < kMaxQueuedOutputBytes + kReadBudgetBytes)%N).
  rewrite out_total_app, out_total_cons. change (out_total []) with 0%N.
  assert (Hu : (out_total (event_queue s) + size (event_data e) <= u64_max)%N -> 
    u64_add (queued_output_bytes s) (size (event_data e) + to_add k) = (out_total (event_queue s) + size (event_data e))%N).
  { intros Hs. unfold u64_add at 1.
    replace (queued_output_bytes s + (size (event_data e) + to_add k))%N with (queued_output_bytes s + to_add k + size (event_data e))%N by lia.
    rewrite <- u64_add_wrap_l. change (u64_wrap (queued_output_bytes s + to_add k)) with (u64_add (queued_output_bytes s) (to_add k)).
    rewrite Hc. by apply u64_add_small. }
  unfold kMaxQueuedOutputBytes, kReadBudgetBytes, u64_max in *.
  destruct (is_output e); cbn [todo to_add app]; (split_and!; [done| |lia]); [rewrite Hu; lia | rewrite Hc; lia].
Qed.
Lemma counter_inv_act x s s' : counter_inv s -> act x s = Some s' -> counter_inv s'.
Proof.
  intros Hi H. destruct x as [a|room data| | |]; cbn in H; [|injection H as <-..].
  - unfold counter_inv in *. destruct Hi as (Hm & Hc & Hb).
    apply pump_cases in H as [s2 Hp Hp' Hv Hq|b k Hp Hk Hd|Hp|Hp|k Hp|e l k Hp|n k Hp|Hp].
    + injection Hv as _ _ E _ _ _. destruct (plain_facts _ Hp) as (T & _ & A & _), (plain_facts _ Hp') as (T' & _ & A' & _).
      rewrite E, Hq, T', A'. by rewrite T, A in *.
    + by apply counter_inv_serve.
    + unfold begin_cancel. cbv zeta. rewrite Hp in *. by case_match.
    + destruct (last_pc a s Hp) as (e & He & -> & -> & ->). rewrite Hp in *. cbn in *. by rewrite He.
    + by rewrite Hp in *.
    + by apply counter_inv_emit.
    + rewrite Hp in *. cbn [to_add todo] in Hc, Hb.
      change ((u64_add (queued_output_bytes s) n <= u64_max)%N /\ u64_add (u64_add (queued_output_bytes s) n) (to_add k) = out_total (event_queue s)
        /\ (out_total (event_queue s) + out_total (todo k) < kMaxQueuedOutputBytes + kReadBudgetBytes)%N).
      split_and!; [apply u64_wrap_le| |done]. rewrite <- Hc. unfold u64_add at 2. rewrite u64_add_wrap_l. unfold u64_add. f_equal. lia.
    + by rewrite Hp in *.
  - unfold PushStdin. by repeat case_match.
  - done.
  - done.
  - by apply counter_inv_pop.
Qed.

(** *** Cancellation *)

Fixpoint target (k : PumpPc) : PumpPc := match k with PEmit _ k | PAdd _ k => target k | k => k end.

(** Signals, the grace deadline and the pending SIGTERM all come from a cancellation, which
    closed the input first; the wait for the next block starts with nothing pending. *)
Record cancel_inv (s : Impl) : Prop := {
  ci_input : cancel_seen s = true -> stdin_channel_open s = false /\ stdin_closed s = true;
  ci_signals : signals s <> [] -> cancel_seen s = true;
  ci_deadline : terminate_deadline s <> None -> cancel_seen s = true;
  ci_term : target (pc s) = PTerm -> cancel_seen s = true;
  ci_idle : target (pc s) = PClosed -> pending s = [];
}.
Definition cancel_view (s : Impl) := (cancel_seen s, stdin_channel_open s, stdin_closed s, signals s, terminate_deadline s).
Lemma cancel_inv_move s s' : cancel_view s' = cancel_view s -> (target (pc s') = PTerm -> target (pc s) = PTerm) ->
  (target (pc s') = PClosed -> pending s' = []) -> cancel_inv s -> cancel_inv s'.
Proof.
  unfold cancel_view. intros [= E1 E2 E3 E4 E5] Ht Hc [H1 H2 H3 H4 H5].
  constructor; rewrite ?E1, ?E2, ?E3, ?E4, ?E5; try done. intros H%Ht. by apply H4.
Qed.
Lemma cancel_inv_close s k : target k <> PTerm -> target k <> PClosed -> cancel_inv s -> cancel_inv (CloseStdinChannel s <| pc := k |>).
Proof.
  intros Hk Hk' [H1 H2 H3 H4 H5]. constructor; try done.
  intros Hs. destruct (H1 Hs) as [_ Hc]. by split.
Qed.
Lemma cancelled_inv s : cancel_seen s = true -> stdin_channel_open s = false -> stdin_closed s = true ->
  target (pc s) <> PClosed -> cancel_inv s.
Proof. by intros; constructor. Qed.
Lemma service_cancel b o s : cancel_view (ServiceOutputChannel b o s).2 = cancel_view s.
Proof. unfold ServiceOutputChannel, CloseOutputChannel. repeat case_match; done. Qed.
Lemma cancel_inv_top a s : cancel_inv s -> cancel_inv (pump_top a s).
Proof.
  intros Hi. pose proof Hi as [H1 H2 H3 H4 H5]. unfold pump_top. destruct (reap a).
  { cbv zeta. change (cancel_seen (s <| reaped := true |> <| exit_code := z |> <| pc := PDrain (now a + kPostExitDrain) |>)) with (cancel_seen s).
    destruct (cancel_seen s) eqn:Ec; [|by apply (cancel_inv_move s)]. destruct (H1 eq_refl). by apply cancelled_inv. }
  set (expired := match terminate_deadline s with Some d => (d <=? now a)%Z | None => false end). cbv zeta.
  destruct (expired && force_kill_sent s); [by apply (cancel_inv_move s)|].
  set (s1 := if expired then _ else s).
  assert (Hi1 : cancel_inv (s1 <| pc := PPoll |>)).
  { subst s1. destruct expired eqn:Ex; [|by apply (cancel_inv_move s)].
    assert (Hc : cancel_seen s = true) by (apply H3; subst expired; by destruct (terminate_deadline s)).
    destruct (H1 Hc). by apply cancelled_inv. }
  clearbody s1. destruct (stdin_channel_open s1 && _); [|exact Hi1].
  destruct (stdin_queue s1); (eapply cancel_inv_move; [| |..|exact Hi1]; done).
Qed.
Lemma cancel_inv_write i s s' k : target k <> PTerm -> target k <> PClosed -> cancel_inv s -> write_ready i s = Some s' -> cancel_inv (s' <| pc := k |>).
Proof.
  intros Hk Hk' Hi. unfold write_ready. cbv zeta.
  destruct i; intros H; [injection H as <-| | |]; try (destruct (_ && _) in H; [|discriminate]; injection H as <-).
  - by apply (cancel_inv_move s).
  - case_match; by apply (cancel_inv_move s).
  - by apply (cancel_inv_move s).
  - by apply cancel_inv_close.
Qed.
Lemma cancel_inv_pump a s s' : cancel_inv s -> pump_step a s = Some s' -> cancel_inv s'.
Proof.
  intros Hi H. unfold pump_step in H.
  assert (Hserve : forall b k, target k <> PTerm -> target k <> PClosed -> cancel_inv ((ServiceOutputChannel b (drain a) s).2 <| pc := k |>)).
  { intros b k Hk Hk'. apply (cancel_inv_move s); [exact (service_cancel b (drain a) s)|by intros ?|by intros ?|exact Hi]. }
  destruct (pc s) as [| | |o e c|e c|c| |d|d n|d n| |[|e l] k|n k| |] eqn:Hp.
  - injection H as <-. by apply cancel_inv_top.
  - injection H as <-. case_match; [by apply cancel_inv_close | by apply (cancel_inv_move s)].
  - unfold pump_poll in H. destruct (poll a); [injection H as <-; by apply (cancel_inv_move s)..|].
    destruct (write_ready input s) as [s1|] eqn:Hw; [|discriminate]. injection H as <-. by apply (cancel_inv_write input s).
  - destruct (negb _); [discriminate|]. destruct o; [|injection H as <-; by apply (cancel_inv_move s)].
    pose proof (Hserve true) as Hs. destruct (ServiceOutputChannel _ _ s) as [[ev n] s1]. injection H as <-. by apply Hs.
  - destruct (negb _); [discriminate|]. destruct e; [|injection H as <-; by apply (cancel_inv_move s)].
    pose proof (Hserve false) as Hs. destruct (ServiceOutputChannel _ _ s) as [[ev n] s1]. injection H as <-. by apply Hs.
  - injection H as <-. destruct c; [|by apply (cancel_inv_move s)]. unfold begin_cancel. cbv zeta.
    change (cancel_seen (s <| cancel_event := false |>)) with (cancel_seen s).
    destruct (cancel_seen s); [by apply (cancel_inv_move s)|]. by apply cancelled_inv.
  - injection H as <-. destruct Hi as [H1 H2 H3 H4 H5]. assert (Hc : cancel_seen s = true) by (apply H4; by rewrite Hp).
    destruct (H1 Hc). by apply cancelled_inv.
  - destruct (_ || _); [injection H as <-; by apply (cancel_inv_move s)|]. destruct (negb _); [discriminate|].
    pose proof (Hserve true) as Hs. destruct (ServiceOutputChannel _ _ s) as [[ev n] s1]. injection H as <-. by apply Hs.
  - destruct (negb _); [discriminate|]. pose proof (Hserve false) as Hs.
    destruct (ServiceOutputChannel _ _ s) as [[ev m] s1]. injection H as <-. by apply Hs.
  - injection H as <-. apply (cancel_inv_move s); [done| | |done]; cbn; by repeat case_match.
  - injection H as <-. set (s1 := if reaped s then s else _).
    assert (H1 : cancel_inv (s1 <| pc := PLast |>)) by (subst s1; repeat case_match; by apply (cancel_inv_move s)). clearbody s1.
    destruct (stdin_channel_open s1); [|eapply cancel_inv_move; [| | |exact H1]; done].
    eapply cancel_inv_move; [| | |apply (cancel_inv_close (s1 <| pc := PLast |>) PLast); [done..|exact H1]]; done.
  - injection H as <-. apply (cancel_inv_move s); [done|by rewrite Hp| |done]. intros Hk. apply (ci_idle s Hi). by rewrite Hp.
  - injection H as <-. apply (cancel_inv_move s); [done|rewrite Hp; cbn; by destruct (is_output e)| |done].
    intros Hk. apply (ci_idle s Hi). rewrite Hp. cbn in Hk |- *. by destruct (is_output e).
  - injection H as <-. apply (cancel_inv_move s); [done|by rewrite Hp| |done]. intros Hk. apply (ci_idle s Hi). by rewrite Hp.
  - injection H as <-. by apply (cancel_inv_move s).
  - discriminate.
Qed.

(** *** The invariants of a session *)

Lemma cancel_inv_same s s' : cancel_view s' = cancel_view s -> pc s' = pc s -> pending s' = pending s -> cancel_inv s -> cancel_inv s'.
Proof. intros Hv Hp Hq Hi. apply (cancel_inv_move s); [done|congruence| |done]. rewrite Hp, Hq. apply (ci_idle s Hi). Qed.
Record session_inv (s : Impl) : Prop := {
  si_pc : pc_ok (pc s); si_input : input_inv s; si_events : event_inv s; si_counter : counter_inv s; si_cancel : cancel_inv s;
}.
Lemma session_inv_act x s s' : session_inv s -> act x s = Some s' -> session_inv s'.
Proof.
  intros [H1 H2 H3 H4 H5] H. constructor.
  - destruct x as [a|room data| | |]; [eapply pc_ok_pump; [exact H1|by apply pump_cases]|injection H as <-..]; [|exact H1..|].
    + unfold PushStdin. by repeat case_match.
    + unfold PopEvent. by repeat case_match.
  - by eapply input_inv_act.
  - by eapply event_inv_act.
  - by eapply counter_inv_act.
  - destruct x as [a|room data| | |]; [by eapply cancel_inv_pump|injection H as <-..].
    + unfold PushStdin. repeat case_match; try done. by apply (cancel_inv_same s).
    + destruct H5 as [C1 C2 C3 C4 C5]. constructor; try done. intros Hc. split; [by apply C1 | done].
    + by apply (cancel_inv_same s).
    + unfold PopEvent. repeat case_match; try done; by apply (cancel_inv_same s).
Qed.
Lemma session_inv_start o e : session_inv (StartPump o e).
Proof.
  constructor; [done|split; [by exists []|done]| |by split_and!|by constructor].
  constructor; [done..|]. exists [], 0%Z. by split_and!.
Qed.
Lemma session_inv_reachable o e s : reachable o e s -> session_inv s.
Proof. induction 1 as [|x s s' _ IH Ha]; [apply session_inv_start | by eapply session_inv_act]. Qed.

Fixpoint run (xs : list action) (s : Impl) : option Impl :=
  match xs with [] => Some s | x :: xs => s ← act x s; run xs s end.
Lemma run_reachable o e xs s s' : reachable o e s -> run xs s = Some s' -> reachable o e s'.
Proof.
  revert s. induction xs as [|x xs IH]; intros s Hr H; cbn in H; [by simplify_eq|].
  destruct (act x s) as [s1|] eqn:Ha; [|discriminate]. apply (IH s1); [by eapply reach_act | exact H].
Qed.

(** A closed input stays closed, and nothing is written into it. *)
Lemma top_closed a s : stdin_channel_open s = false -> stdin_channel_open (pump_top a s) = false /\ written (pump_top a s) = written s.
Proof.
  intros Hc. unfold pump_top. destruct (reap a); [cbv zeta; by case_match|]. cbv zeta.
  set (x := match terminate_deadline s with Some _ => _ | None => _ end). destruct (x && force_kill_sent s); [done|].
  set (s1 := if x then _ else s). assert (H1 : stdin_channel_open s1 = false /\ written s1 = written s) by (subst s1; by case_match).
  clearbody s1. destruct H1 as [H1 H1']. by rewrite H1.
Qed.
Lemma closed_act x s s' : act x s = Some s' -> stdin_channel_open s = false -> stdin_channel_open s' = false /\ written s' = written s.
Proof.
  intros H Hc. destruct x as [a|room data| | |]; [|injection H as <-..].
  - cbn in H. unfold pump_step in H.
    assert (Hs : forall b o, stdin_channel_open (ServiceOutputChannel b o s).2 = false /\ written (ServiceOutputChannel b o s).2 = written s).
    { intros b o. pose proof (input_service b o s) as [= E1 E2 E3 E4 E5 E6]. by rewrite E6, E2. }
    destruct (pc s) as [| | |o e c|e c|c| |d|d n|d n| |[|e l] k|n k| |].
    + injection H as <-. by apply top_closed.
    + injection H as <-. by case_match.
    + unfold pump_poll in H. destruct (poll a) as [| |i o e]; [injection H as <-; done..|]. unfold write_ready in H. rewrite Hc in H. cbn in H.
      destruct i; [|discriminate..]. injection H as <-. done.
    + destruct (negb _); [discriminate|]. destruct o; [|injection H as <-; done].
      pose proof (Hs true (drain a)) as Hs'. destruct (ServiceOutputChannel _ _ s) as [[ev n] s1]. injection H as <-. exact Hs'.
    + destruct (negb _); [discriminate|]. destruct e; [|injection H as <-; done].
      pose proof (Hs false (drain a)) as Hs'. destruct (ServiceOutputChannel _ _ s) as [[ev n] s1]. injection H as <-. exact Hs'.
    + injection H as <-. destruct c; [|done]. unfold begin_cancel. cbv zeta. by case_match.
    + injection H as <-. done.
    + destruct (_ || _); [injection H as <-; done|]. destruct (negb _); [discriminate|].
      pose proof (Hs true (drain a)) as Hs'. destruct (ServiceOutputChannel _ _ s) as [[ev n] s1]. injection H as <-. exact Hs'.
    + destruct (negb _); [discriminate|]. pose proof (Hs false (drain a)) as Hs'.
      destruct (ServiceOutputChannel _ _ s) as [[ev m] s1]. injection H as <-. exact Hs'.
    + injection H as <-. done.
    + injection H as <-. set (s1 := if reaped s then s else _).
      assert (H1 : stdin_channel_open s1 = false /\ written s1 = written s) by (subst s1; by repeat case_match). clearbody s1.
      destruct H1 as [H1 H1']. rewrite H1. by split.
    + injection H as <-. done.
    + injection H as <-. done.
    + injection H as <-. done.
    + injection H as <-. done.
    + discriminate.
  - unfold PushStdin. by repeat case_match.
  - done.
  - done.
  - unfold PopEvent. by repeat case_match.
Qed.
Lemma closed_run xs s s' : run xs s = Some s' -> stdin_channel_open s = false -> written s' = written s.
Proof.
  revert s. induction xs as [|x xs IH]; intros s H Hc; cbn in H; [by simplify_eq|].
  destruct (act x s) as [s1|] eqn:Ha; [|discriminate]. destruct (closed_act _ _ _ Ha Hc) as [Hc1 <-]. by apply IH.
Qed.

(** ** What a session promises *)

(** What the child reads is a prefix of what the caller handed over, in the caller's order,
    in every interleaving; and when the pump finds the queue empty and the input closed, the
    child has received all of it before it sees the end. *)
Theorem child_input o e s :
  reachable o e s ->
  (exists rest, accepted s = written s ++ rest) /\
  (forall a s', pump_step a s = Some s' -> pc s = PClosed -> stdin_queue s = [] ->
     stdin_channel_open s = true -> stdin_channel_open s' = false -> written s' = accepted s').
Proof.
  intros Hr. destruct (session_inv_reachable _ _ _ Hr) as [_ [Hp Ho] _ _ Hc]. split; [exact Hp|].
  intros a s' H Hpc Hq Hopen Hclosed. specialize (Ho Hopen).
  rewrite Hq, (ci_idle s Hc) in Ho by (by rewrite Hpc). rewrite drop_nil, app_nil_r in Ho.
  unfold pump_step in H. rewrite Hpc in H. injection H as <-. by destruct (stdin_closed s).
Qed.

(** C23. A cancellation is a boundary: once [Cancelled] was queued the child reads nothing more
    whatever happens, further input is refused, and no signal was sent without one. *)
Theorem cancel_boundary o e s :
  reachable o e s ->
  (In Cancelled (published s) -> forall xs s', run xs s = Some s' -> written s' = written s) /\
  (In Cancelled (published s) -> forall room data, data <> [] -> (PushStdin room data s).1 = false) /\
  (signals s <> [] -> cancel_seen s = true).
Proof.
  intros Hr. destruct (session_inv_reachable _ _ _ Hr) as [_ _ [_ _ _ (body & code & E & Hx & Hn)] _ [C1 C2 _ _ _]].
  assert (Hs : In Cancelled (published s) -> cancel_seen s = true).
  { intros Hin. destruct (cancel_seen s); [done|]. exfalso.
    assert (Hin' : In Cancelled (published s ++ todo (pc s))) by (apply in_app_iff; by left).
    rewrite E in Hin'. apply in_app_iff in Hin' as [Hin'|Hin']; [|by destruct (final (pc s)); [destruct Hin' as [|[]]|]].
    unfold cancels in Hn. apply nil_length_inv in Hn.
    assert (Hf : Cancelled ∈ filter (eq Cancelled) body) by (apply list_elem_of_filter; by rewrite list_elem_of_In). rewrite Hn in Hf. by apply not_elem_of_nil in Hf. }
  split_and!; [| |exact C2].
  - intros Hin xs s' H. eapply closed_run; [exact H|]. by apply C1, Hs.
  - intros Hin room data Hd. destruct (C1 (Hs Hin)) as [_ Hc]. unfold PushStdin. apply is_empty_false in Hd. rewrite Hd, Hc.
    by rewrite orb_true_r.
Qed.

(** C22. The caller gets every event once and in the order the pump queued them; [Exited] is the
    last one, carries the cancellation, and is there when the session counts as finished;
    [Cancelled] is there once exactly when the session was cancelled. *)
Theorem events_delivered o e s :
  reachable o e s ->
  published s = popped s ++ event_queue s /\
  (pump_finished s = true -> exists body code,
     published s = body ++ [Exited code (cancel_seen s)] /\ Forall (fun e => is_exit e = false) body /\
     cancels body = (if cancel_seen s then 1 else 0)) /\
  cancels (published s) <= 1.
Proof.
  intros Hr. destruct (session_inv_reachable _ _ _ Hr) as [_ _ [H1 _ H3 (body & code & E & Hx & Hn)] _ _]. split_and!.
  - exact H1.
  - intros Hd%H3. rewrite Hd, app_nil_r in E. exists body, code. by split_and!.
  - assert (Hc : cancels (published s) + cancels (todo (pc s)) = cancels body).
    { rewrite <- cancels_app, E, cancels_app. destruct (final (pc s)); apply Nat.add_0_r. }
    destruct (cancel_seen s); lia.
Qed.


Lemma run_cons x xs s s1 r : act x s = Some s1 -> run xs s1 = r -> run (x :: xs) s = r.
Proof. cbn. by intros -> <-. Qed.
Lemma exited_top a code s : reap a = Some code ->
  pc (pump_top a s) = PDrain (now a + kPostExitDrain) /\ reaped (pump_top a s) = true /\ exit_code (pump_top a s) = code
  /\ published (pump_top a s) = published s /\ killed_by_us (pump_top a s) = killed_by_us s
  /\ signals (pump_top a s) = signals s ++ (if cancel_seen s then [SIGKILL] else []).
Proof.
  intros Ha. unfold pump_top. rewrite Ha. cbv zeta.
  change (cancel_seen (s <| reaped := true |> <| exit_code := code |> <| pc := PDrain (now a + kPostExitDrain) |>)) with (cancel_seen s).
  destruct (cancel_seen s); split_and!; try done. cbn. by rewrite app_nil_r.
Qed.
Lemma last_exited a code s : pc s = PLast -> reaped s = true -> exit_code s = code ->
  exists s', pump_step a s = Some s' /\ pc s' = PEmit [Exited code (killed_by_us s)] PFinish /\ exit_code s' = code
    /\ published s' = published s /\ signals s' = signals s.
Proof.
  intros Hp Hr Hc. unfold pump_step. rewrite Hp, Hr. cbv zeta. destruct (stdin_channel_open s); eexists; (split; [reflexivity|]);
    (split_and!; [|exact Hc|done|done]); cbn; by rewrite Hr, Hc.
Qed.

(** When the child has exited the pump reports its code and finishes as soon as the drain
    window is over, whatever still holds the pipes open; a cancelled group is killed. *)
Theorem exit_reported a b code s :
  pc s = PTop -> reap a = Some code -> (now a + kPostExitDrain <= now b)%Z ->
  exists s', run (APump a :: repeat (APump b) 5) s = Some s' /\ HasExited s' = Some code /\
    published s' = published s ++ [Exited code (killed_by_us s)] /\
    signals s' = signals s ++ (if cancel_seen s then [SIGKILL] else []).
Proof.
  intros Hp Ha Hb. apply Z.leb_le in Hb.
  destruct (exited_top a code s Ha) as (P1 & P2 & P3 & P4 & P5 & P6).
  set (s1 := pump_top a s) in *. assert (E1 : pump_step a s = Some s1) by (unfold pump_step; by rewrite Hp). clearbody s1.
  assert (E2 : pump_step b s1 = Some (s1 <| pc := PLast |>)) by (unfold pump_step; by rewrite P1, Hb, orb_true_r).
  destruct (last_exited b code (s1 <| pc := PLast |>)) as (s3 & E3 & Q1 & Q2 & Q3 & Q4); [done..|].
  eexists. split.
  { cbn [repeat]. do 3 (eapply run_cons; [first [exact E1|exact E2|exact E3]|]).
    eapply run_cons; [cbn [act]; unfold pump_step; rewrite Q1; reflexivity|]. do 2 (eapply run_cons; [reflexivity|]). reflexivity. }
  cbn. rewrite Q2, Q3, Q4. cbn. by rewrite P4, P5, P6.
Qed.

(** ** Runs *)

Definition quiet (t : Z) : Answer := {| now := t; reap := None; poll := PollAgain; drain := {| chunks := []; closed := false |} |}.
Definition ready (t : Z) (i : InputReady) (out : bool) (data : list bytes) : Answer :=
  {| now := t; reap := None; poll := PollReady i out false; drain := {| chunks := data; closed := false |} |}.
Definition gone (t : Z) (code : Z) : Answer := {| now := t; reap := Some code; poll := PollAgain; drain := {| chunks := []; closed := false |} |}.

(** A block is handed over and written, the input is closed, the pump looks. *)
Definition fed : list action :=
  [APush true "audio"%bytes; APump (quiet 0); APump (ready 0 (InWritten 5) false []); APump (quiet 0); APump (quiet 0); APump (quiet 0);
   AClose; APump (quiet 1)].
Definition fed_state : Impl := default (StartPump false false) (run fed (StartPump false false)).
(** A line of output, a cancellation with its SIGTERM; then the exit and the end. *)
Definition cancelled_run : list action :=
  [APump (quiet 0); APump (quiet 0)] ++ repeat (APump (ready 0 InIdle true ["line"%bytes])) 2 ++ repeat (APump (quiet 0)) 5
  ++ ACancel :: [APump (quiet 1); APump (quiet 1); APump (ready 1 InIdle false [])] ++ repeat (APump (quiet 1)) 6.
Definition cancelled_state : Impl := default (StartPump false false) (run cancelled_run (StartPump false false)).
Definition exited_run : list action := cancelled_run ++ [APump (gone 2 143)] ++ repeat (APump (quiet 300)) 5.
Definition exited_state : Impl := default (StartPump false false) (run exited_run (StartPump false false)).

Lemma fed_reachable : reachable false false fed_state.
Proof. apply (run_reachable false false fed (StartPump false false)); [constructor | vm_compute; reflexivity]. Qed.
Lemma cancelled_reachable : reachable false false cancelled_state.
Proof. apply (run_reachable false false cancelled_run (StartPump false false)); [constructor | vm_compute; reflexivity]. Qed.
Lemma exited_reachable : reachable false false exited_state.
Proof. apply (run_reachable false false exited_run (StartPump false false)); [constructor | vm_compute; reflexivity]. Qed.

Lemma child_input_witness : written (default fed_state (pump_step (quiet 1) fed_state)) = "audio"%bytes.
Proof.
  destruct (child_input false false fed_state fed_reachable) as [_ H].
  etransitivity; [apply (H (quiet 1)); vm_compute; reflexivity | vm_compute; reflexivity].
Defined.

Lemma cancel_boundary_witness : signals cancelled_state = [SIGTERM] /\ (PushStdin true "more"%bytes cancelled_state).1 = false.
Proof.
  destruct (cancel_boundary false false cancelled_state cancelled_reachable) as (_ & H & _). split; [vm_compute; reflexivity|].
  apply H; [vm_compute; by right; left | discriminate].
Defined.
Lemma events_delivered_witness : pump_finished exited_state = true /\ cancels (published exited_state) <= 1 /\
  published exited_state = [StdoutChunk "line"%bytes; Cancelled; Exited 143 true].
Proof.
  destruct (events_delivered false false exited_state exited_reachable) as (_ & _ & H).
  split_and!; [vm_compute; reflexivity | exact H | vm_compute; reflexivity].
Defined.
Lemma exit_reported_witness : exists s', run (APump (gone 2 143) :: repeat (APump (quiet 300)) 5) cancelled_state = Some s' /\ HasExited s' = Some 143%Z.
Proof.
  destruct (exit_reported (gone 2 143) (quiet 300) 143 cancelled_state) as (s' & H & He & _); [vm_compute; reflexivity..|vm_compute; discriminate|].
  exists s'. split; [exact H | exact He].
Defined.

(** The race the pump does not see: a block and the close arrive between its look into the
    queue and its look at the flag. The block was accepted and the child never gets it. *)
Definition race : list action :=
  [APump (quiet 0); APush true "tail"%bytes; AClose; APump (quiet 0)].
Theorem close_race_drops_block :
  exists s, run race (StartPump false false) = Some s /\ accepted s = "tail"%bytes /\ killed_by_us s = false /\
    stdin_channel_open s = false /\ forall xs s', run xs s = Some s' -> written s' = [].
Proof.
  eexists. split; [vm_compute; reflexivity|]. split_and!; [reflexivity..|].
  intros xs s' H. etransitivity; [eapply closed_run; [exact H | reflexivity] | reflexivity].
Qed.

(** [NextEvent] looks into the queue, then at the flag: when the pump finishes in between,
    the caller is told that nothing is left while [Exited] waits in the queue. *)
Definition finishing : list action :=
  [APump (gone 0 0)] ++ repeat (APump (quiet 300)) 5.
Theorem exit_mistaken_for_nothing :
  exists s, run finishing (StartPump false false) = Some s /\
    next_round 1000 s (PopEvent (StartPump false false)).1 = Nothing /\ event_queue s = [Exited 0 false].
Proof. eexists. split; [vm_compute; reflexivity|]. split; vm_compute; reflexivity. Qed.
