(* ===== verification/Json.v ===== *)
(** * JSON trees (src/src/common/json/json_access.h)

    [glz::json_t] is a variant over null, double, string, bool, array and object;
    an object is a [std::map], here a list of members in key order. The text
    reader and writer of Glaze are not part of the repository. *)

From S2P Require Import Prelude StringUtils Floats.
From Stdlib Require Import Ascii SpecFloat.

#[local] Set Warnings "-register-all".

Inductive json :=
  | JNull
  | JNumber (d : flt)
  | JString (s : bytes)
  | JBool (b : bool)
  | JArray (items : list json)
  | JObject (members : list (bytes * json)).

Definition is_object (v : json) : bool := match v with JObject _ => true | _ => false end.
Definition is_array (v : json) : bool := match v with JArray _ => true | _ => false end.
Definition is_string (v : json) : bool := match v with JString _ => true | _ => false end.

(** ** [std::map<std::string, V>] in key order *)

(** [std::less<std::string>]: lexicographic on unsigned bytes. *)
Fixpoint bytes_ltb (a b : bytes) : bool :=
  match a, b with
  | _, [] => false
  | [], _ :: _ => true
  | x :: a, y :: b => if (code x <? code y)%N then true
                      else if (code y <? code x)%N then false else bytes_ltb a b
  end.

Section ordered_map.
Context {V : Type}.

Fixpoint map_find (k : bytes) (m : list (bytes * V)) : option V :=
  match m with
  | [] => None
  | (k', v) :: m => if k =b k' then Some v else map_find k m
  end.

(** [m[k] = v] *)
Fixpoint map_set (k : bytes) (v : V) (m : list (bytes * V)) : list (bytes * V) :=
  match m with
  | [] => [(k, v)]
  | (k', v') :: m' =>
      if k =b k' then (k, v) :: m'
      else if bytes_ltb k k' then (k, v) :: m
      else (k', v') :: map_set k v m'
  end.

(** [m.emplace(k, v)]: no effect when the key is present. *)
Definition map_emplace (k : bytes) (v : V) (m : list (bytes * V)) : list (bytes * V) :=
  match map_find k m with Some _ => m | None => map_set k v m end.

(** [m.erase(k)] *)
Definition map_erase (k : bytes) (m : list (bytes * V)) : list (bytes * V) :=
  filter (fun kv => kv.1 <> k) m.

Lemma map_find_set_eq k v m : map_find k (map_set k v m) = Some v.
Proof.
  induction m as [|[k' v'] m IH]; simpl; [by rewrite bool_decide_eq_true_2|].
  destruct (decide (k = k')) as [->|Hne].
  - rewrite bool_decide_eq_true_2 by done. simpl. by rewrite bool_decide_eq_true_2.
  - rewrite (bool_decide_eq_false_2 (k = k')) by done. destruct (bytes_ltb k k'); simpl.
    + by rewrite bool_decide_eq_true_2.
    + by rewrite bool_decide_eq_false_2.
Qed.

Lemma map_find_set_ne k k' v m : k <> k' -> map_find k (map_set k' v m) = map_find k m.
Proof.
  intros Hne. induction m as [|[k2 v2] m IH]; simpl; [by rewrite bool_decide_eq_false_2|].
  destruct (decide (k' = k2)) as [->|Hne2].
  - rewrite (bool_decide_eq_true_2 (k2 = k2)) by done. simpl.
    by rewrite !bool_decide_eq_false_2.
  - rewrite (bool_decide_eq_false_2 (k' = k2)) by done. destruct (bytes_ltb k' k2); simpl.
    + by rewrite (bool_decide_eq_false_2 (k = k')).
    + by rewrite IH.
Qed.

Lemma map_find_erase_eq k m : map_find k (map_erase k m) = None.
Proof.
  unfold map_erase. induction m as [|[k' v'] m IH]; simpl; [done|].
  rewrite filter_cons; simpl. case_decide; simpl; [|done]. by rewrite bool_decide_eq_false_2.
Qed.

Lemma map_find_erase_ne k k' m : k <> k' -> map_find k (map_erase k' m) = map_find k m.
Proof.
  intros Hne. unfold map_erase. induction m as [|[k2 v2] m IH]; simpl; [done|].
  rewrite filter_cons; simpl. case_decide as Hd; simpl; [by rewrite IH|].
  rewrite IH, bool_decide_eq_false_2; [done|]. intros ->. by destruct Hd.
Qed.
End ordered_map.

(** ** Typed accessors *)

Definition Find (object : json) (key : bytes) : option json :=
  match object with JObject members => map_find key members | _ => None end.

Definition String (object : json) (key fallback : bytes) : bytes :=
  match Find object key with Some (JString s) => s | _ => fallback end.

Definition Number (object : json) (key : bytes) (fallback : flt) : flt :=
  match Find object key with Some (JNumber d) => d | _ => fallback end.

Definition i64_min : Z := -9223372036854775808.
Definition i64_max : Z := 9223372036854775807.

(** [std::trunc(d) != d] *)
Definition has_fraction (d : flt) : bool :=
  match d with
  | S754_finite _ m e => if (e <? 0)%Z then negb (Z.shiftl (Z.shiftr (Zpos m) (- e)) (- e) =? Zpos m)%Z else false
  | _ => false
  end.

(** The range check of [Int64]: [true] when the fallback is returned. *)
Definition int64_rejects (d : flt) : bool :=
  negb (is_finite d) || has_fraction d ||
  SFltb d (f64_of_Z i64_min) || SFltb (f64_of_Z i64_max) d.

(** [None]: the final conversion is undefined behaviour. *)
Definition Int64 (object : json) (key : bytes) (fallback : Z) : option Z :=
  match Find object key with
  | Some (JNumber d) => if int64_rejects d then Some fallback else to_int i64_min i64_max d
  | _ => Some fallback
  end.

(** [static_cast<int>] of a 64-bit value keeps the low 32 bits. *)
Definition to_i32 (z : Z) : Z := ((z + 2147483648) mod 4294967296 - 2147483648)%Z.
Definition Int (object : json) (key : bytes) (fallback : Z) : option Z :=
  to_i32 <$> Int64 object key fallback.

Definition Bool (object : json) (key : bytes) (fallback : bool) : bool :=
  match Find object key with Some (JBool b) => b | _ => fallback end.

Definition string_items (items : list json) : list bytes :=
  omap (fun v => match v with JString s => Some s | _ => None end) items.
Definition Strings (value : json) : list bytes :=
  match value with JArray items => string_items items | _ => [] end.
Definition Strings_at (object : json) (key : bytes) : list bytes :=
  match Find object key with Some v => Strings v | None => [] end.

Definition StringMap (value : json) : list (bytes * bytes) :=
  match value with
  | JObject members =>
      omap (fun kv => match kv.2 with JString s => Some (kv.1, s) | _ => None end) members
  | _ => []
  end.
Definition StringMap_at (object : json) (key : bytes) : list (bytes * bytes) :=
  match Find object key with Some v => StringMap v | None => [] end.

Definition FromStrings (values : list bytes) : json := JArray (JString <$> values).
Definition FromStringMap (values : list (bytes * bytes)) : json :=
  JObject (prod_map id JString <$> values).

Definition EmptyObject : json := JObject [].
Definition Object (object : json) (key : bytes) : json :=
  match Find object key with
  | Some v => if is_object v then v else EmptyObject
  | None => EmptyObject
  end.

(** ** [IsSingleJsonValue] *)

Definition ch_quote : ascii := "034".
Definition ch_backslash : ascii := "\".
Definition is_open (c : ascii) : bool := (c =b "{"%char) || (c =b "["%char).
Definition is_close (c : ascii) : bool := (c =b "}"%char) || (c =b "]"%char).

Definition skip_space : bytes -> bytes :=
  fix go s := match s with c :: s' => if isspace c then go s' else s | [] => [] end.
Definition skip_nonspace : bytes -> bytes :=
  fix go s := match s with c :: s' => if isspace c then s else go s' | [] => [] end.

(** The container loop: [Some rest] when the outermost bracket closes, [None]
    when the text ends first (an open container or string) or the depth goes
    negative; the three cases of [None] are all rejected. *)
Fixpoint scan_container (s : bytes) (depth : Z) (in_string : bool) {struct s} : option bytes :=
  match s with
  | [] => None
  | c :: s =>
      if in_string then
        if c =b ch_backslash
        then match s with [] => None | _ :: s => scan_container s depth true end
        else scan_container s depth (negb (c =b ch_quote))
      else if c =b ch_quote then scan_container s depth true
      else if is_open c then scan_container s (depth + 1) false
      else if is_close c then
        if (depth - 1 =? 0)%Z then Some s
        else if (depth - 1 <? 0)%Z then None
        else scan_container s (depth - 1) false
      else scan_container s depth false
  end.

(** The string loop: [None] when a trailing backslash moves [pos] past the end. *)
Fixpoint scan_string (s : bytes) : option bytes :=
  match s with
  | [] => Some []
  | c :: s =>
      if c =b ch_backslash then match s with [] => None | _ :: s => scan_string s end
      else if c =b ch_quote then Some s
      else scan_string s
  end.

Definition IsSingleJsonValue (text : bytes) : bool :=
  match skip_space text with
  | [] => false
  | first :: rest =>
      let after :=
        if is_open first then scan_container (first :: rest) 0 false
        else if first =b ch_quote then scan_string rest
        else Some (skip_nonspace (first :: rest)) in
      match after with
      | Some rest => is_empty (skip_space rest)
      | None => false
      end
  end.

(** ** Exactly one value

    A container text: brackets around plain characters, string literals and
    nested containers. [string_body] is the text between two quotes. *)

Inductive string_body : bytes -> Prop :=
  | sb_nil : string_body []
  | sb_char c s : c <> ch_quote -> c <> ch_backslash -> string_body s -> string_body (c :: s)
  | sb_escape c s : string_body s -> string_body (ch_backslash :: c :: s).

Definition plain (c : ascii) : Prop := c <> ch_quote /\ is_open c = false /\ is_close c = false.

Inductive container_body : bytes -> Prop :=
  | cb_nil : container_body []
  | cb_plain c s : plain c -> container_body s -> container_body (c :: s)
  | cb_string b s : string_body b -> container_body s ->
      container_body (ch_quote :: b ++ ch_quote :: s)
  | cb_nested o b cl s : is_open o = true -> is_close cl = true ->
      container_body b -> container_body s -> container_body (o :: b ++ cl :: s).

Lemma scan_string_body b rest depth :
  string_body b -> scan_container (b ++ ch_quote :: rest) depth true = scan_container rest depth false.
Proof.
  induction 1 as [|c s Hq Hb _ IH|c s _ IH]; simpl; [done| |done].
  rewrite (bool_decide_eq_false_2 _ Hb), (bool_decide_eq_false_2 _ Hq). apply IH.
Qed.

Lemma open_not_quote c : is_open c = true -> (c =b ch_quote) = false.
Proof.
  intros H. apply bool_decide_eq_false_2. intros ->. by vm_compute in H.
Qed.

Lemma close_not c : is_close c = true -> (c =b ch_quote) = false /\ is_open c = false.
Proof.
  unfold is_close. intros [->%bool_decide_eq_true| ->%bool_decide_eq_true]%orb_true_iff;
  by vm_compute.
Qed.

(** Scanning a body at positive depth reaches the text behind it. *)
Lemma scan_body b rest depth :
  container_body b -> (1 <= depth)%Z ->
  scan_container (b ++ rest) depth false = scan_container rest depth false.
Proof.
  intros Hb. revert rest depth.
  induction Hb as [|c s (Hq & Ho & Hc) _ IH|b s Hsb _ IH|o b cl s Ho Hcl _ IHb _ IHs];
    intros rest depth Hd; cbn [app scan_container]; [done| | |].
  - rewrite (bool_decide_eq_false_2 _ Hq), Ho, Hc. by apply IH.
  - rewrite bool_decide_eq_true_2, <-app_assoc by done. cbn [app].
    rewrite scan_string_body by done. by apply IH.
  - rewrite open_not_quote, Ho, <-app_assoc by done. rewrite IHb by lia. cbn [app scan_container].
    destruct (close_not _ Hcl) as [-> ->]. rewrite Hcl.
    destruct (Z.eqb_spec (depth + 1 - 1) 0); [lia|]. destruct (Z.ltb_spec (depth + 1 - 1) 0); [lia|].
    replace (depth + 1 - 1)%Z with depth by lia. by apply IHs.
Qed.

Lemma skip_space_blank w s : blank w -> skip_space (w ++ s) = skip_space s.
Proof. induction 1 as [|c w Hc _ IH]; simpl; [done|]. by rewrite Hc. Qed.

Lemma skip_space_empty s : is_empty (skip_space s) = forallb isspace s.
Proof. induction s as [|c s IH]; simpl; [done|]. by destruct (isspace c). Qed.

Lemma open_not_space c : is_open c = true -> isspace c = false.
Proof.
  unfold is_open. intros [->%bool_decide_eq_true| ->%bool_decide_eq_true]%orb_true_iff; done.
Qed.

Lemma single_container w o b cl rest :
  blank w -> is_open o = true -> container_body b -> is_close cl = true ->
  IsSingleJsonValue (w ++ (o :: b ++ [cl]) ++ rest) = forallb isspace rest.
Proof.
  intros Hw Ho Hb Hcl. unfold IsSingleJsonValue. rewrite skip_space_blank by done.
  cbn [app skip_space]. rewrite open_not_space, Ho by done.
  cbn [scan_container]. rewrite open_not_quote, Ho, <-app_assoc by done.
  rewrite scan_body by done || lia. cbn [app scan_container].
  destruct (close_not _ Hcl) as [-> ->]. rewrite Hcl. apply skip_space_empty.
Qed.

(** A document that starts with an object or array is accepted exactly when
    nothing but white space follows the container: brackets and escapes inside
    string literals are not mistaken for structure, at any nesting depth, and any
    trailing junk is rejected. *)
Theorem IsSingleJsonValue_container w o b cl rest :
  blank w -> is_open o = true -> container_body b -> is_close cl = true ->
  IsSingleJsonValue (w ++ (o :: b ++ [cl]) ++ rest) = forallb isspace rest.
Proof. apply single_container. Qed.

Lemma IsSingleJsonValue_container_witness :
  IsSingleJsonValue (" " ++ ("{"%char :: [ch_quote; "}"%char; ch_quote] ++ ["}"%char]) ++ " x") = false.
Proof.
  rewrite (IsSingleJsonValue_container " " "{" [ch_quote; "}"%char; ch_quote] "}" " x");
    [reflexivity|by constructor|reflexivity| |reflexivity].
  apply (cb_string ["}"%char] []); [|constructor]. constructor; [done|done|constructor].
Defined.

(** ** [Int64] *)

Lemma Strings_FromStrings values : Strings (FromStrings values) = values.
Proof. simpl. induction values as [|v values IH]; simpl; [done|]. by f_equal. Qed.

Lemma StringMap_FromStringMap values : StringMap (FromStringMap values) = values.
Proof. simpl. induction values as [|[k v] values IH]; simpl; [done|]. by f_equal. Qed.

Definition two_63 : flt := S754_finite false 4503599627370496 11.

Lemma f64_i64_min : f64_of_Z i64_min = S754_finite true 4503599627370496 11.
Proof. vm_compute. reflexivity. Qed.
Lemma f64_i64_max : f64_of_Z i64_max = two_63.
Proof. vm_compute. reflexivity. Qed.

Definition valid_double (d : flt) : bool := valid_binary f64_prec f64_emax d.

(** A canonical mantissa has at most 53 bits, and exactly 53 when the exponent
    is not the least one. *)
Lemma valid_double_mantissa s m e :
  valid_double (S754_finite s m e) = true ->
  (Zpos m < 2 ^ 53)%Z /\ ((-1074 < e)%Z -> (2 ^ 52 <= Zpos m)%Z).
Proof.
  intros [H%Z.eqb_eq _]%andb_prop. unfold fexp, SpecFloat.emin, f64_prec, f64_emax in H.
  pose proof (digits2_pos_bound m) as Hu. pose proof (digits2_pos_lower m) as Hl.
  split.
  - eapply Z.lt_le_trans; [exact Hu|]. apply Z.pow_le_mono_r; lia.
  - intros He. etrans; [|exact Hl]. apply Z.pow_le_mono_r; lia.
Qed.

Lemma shiftl_small m e :
  (Zpos m < 2 ^ 53)%Z -> (e <= 10)%Z -> (0 <= Z.shiftl (Zpos m) e <= i64_max)%Z.
Proof.
  intros Hm He. unfold i64_max. destruct (Z.le_gt_cases 0 e).
  - rewrite Z.shiftl_mul_pow2 by done.
    assert (2 ^ e <= 2 ^ 10)%Z by (apply Z.pow_le_mono_r; lia).
    assert (0 < 2 ^ e)%Z by (apply Z.pow_pos_nonneg; lia).
    split; [nia|]. change (2 ^ 53)%Z with 9007199254740992%Z in Hm.
    change (2 ^ 10)%Z with 1024%Z in *. nia.
  - replace e with (- - e)%Z by lia.
    apply (shiftr_range m (- e) 9223372036854775808); [lia|lia| |lia].
    assert (1 <= 2 ^ (- e))%Z by (apply (Z.pow_le_mono_r 2 0); lia).
    change (2 ^ 53)%Z with 9007199254740992%Z in Hm. nia.
Qed.

Lemma mantissa_below m : (2 ^ 52 <= Zpos m)%Z -> ~ (m < 4503599627370496)%positive.
Proof. intros H1 H2%Pos2Z.pos_lt_pos. by apply Z.lt_nge in H2. Qed.

(** A double that passes the range check is at most 2^63 in magnitude. *)
Lemma int64_accepted d :
  valid_double d = true -> int64_rejects d = false ->
  d = two_63 \/ exists z, to_int i64_min i64_max d = Some z.
Proof.
  intros Hv [[[Hf _]%orb_false_iff Hlo]%orb_false_iff Hhi]%orb_false_iff.
  rewrite f64_i64_min in Hlo. rewrite f64_i64_max in Hhi. unfold SFltb in *.
  destruct d as [s|s| |s m e]; try done; [right; by exists 0%Z|].
  destruct (valid_double_mantissa _ _ _ Hv) as [Hm Hc].
  destruct s; cbn [SFcompare two_63] in Hlo, Hhi.
  - right. assert (0 <= Z.shiftl (Zpos m) e <= 9223372036854775808)%Z as Hr.
    { destruct (Z.compare_spec e 11) as [->|He|He]; [| |done].
      - rewrite pos_cont_compare in Hlo. destruct (Pos.compare_spec m 4503599627370496) as [->|Hlt|]; [vm_compute; split; discriminate| |done].
        by destruct (mantissa_below m (Hc eq_refl)).
      - pose proof (shiftl_small m e Hm) as Hs. unfold i64_max in Hs. lia. }
    eexists. apply to_int_Some; [reflexivity|]. cbn [cond_Zopp]. unfold i64_min, i64_max. lia.
  - destruct (Z.compare_spec 11 e) as [<-|He|He]; [|done|].
    + left. rewrite pos_cont_compare in Hhi. destruct (Pos.compare_spec 4503599627370496 m) as [<-| |Hlt]; [done|done|].
      by destruct (mantissa_below m (Hc eq_refl)).
    + right. eexists. apply to_int_Some; [reflexivity|]. cbn [cond_Zopp].
      pose proof (shiftl_small m e Hm). unfold i64_min. lia.
Qed.

(** [Int64] avoids the undefined double-to-integer conversion for every
    JSON number except one: the bound compares with INT64_MAX rounded up to 2^63,
    so exactly the number 2^63 itself still reaches the undefined conversion. *)
Theorem Int64_undefined_iff object key fallback :
  (forall d, Find object key = Some (JNumber d) -> valid_double d = true) ->
  Int64 object key fallback = None <-> Find object key = Some (JNumber two_63).
Proof.
  intros Hv. unfold Int64. destruct (Find object key) as [[|d| | | |]|] eqn:Hf; try (split; congruence).
  destruct (int64_rejects d) eqn:Hr.
  - split; [done|]. intros [= ->]. by vm_compute in Hr.
  - destruct (int64_accepted d (Hv _ eq_refl) Hr) as [->|[z Hz]].
    + split; [done|]. intros _. by vm_compute.
    + rewrite Hz. split; [done|]. intros [= ->]. by vm_compute in Hz.
Qed.

Lemma Int64_undefined_iff_witness :
  Int64 (JObject [("n", JNumber two_63)]) "n" 0 = None /\
  Int64 (JObject [("n", JNumber (f64_of_Z 9007199254740992))]) "n" 0 = Some 9007199254740992%Z.
Proof.
  split; [|reflexivity].
  apply (Int64_undefined_iff (JObject [("n", JNumber two_63)]) "n" 0); [|reflexivity].
  intros d Hd. vm_compute in Hd. injection Hd as <-. reflexivity.
Defined.
