(* ===== verification/Version.v ===== *)
(** * Semantic versions (src/src/common/utils/version_utils.cpp) *)

From S2P Require Import Prelude StringUtils.
From Stdlib Require Import Ascii.

Record SemanticVersion := { major : Z; minor : Z; patch : Z }.

#[export] Instance SemanticVersion_eq_dec : EqDecision SemanticVersion.
Proof. solve_decision. Defined.

(** [operator<=>]: defaulted, so lexicographic in declaration order. *)
Definition version_compare (a b : SemanticVersion) : comparison :=
  match (major a ?= major b)%Z with
  | Eq => match (minor a ?= minor b)%Z with
          | Eq => (patch a ?= patch b)%Z
          | c => c
          end
  | c => c
  end.
Definition version_ltb (a b : SemanticVersion) : bool :=
  match version_compare a b with Lt => true | _ => false end.

(** One version component: the whole token is an [int], not negative. *)
Definition parse_component (s : bytes) : option Z :=
  '(v, rest) ← from_chars int32 10 s;
  if is_empty rest && (0 <=? v)%Z then Some v else None.

Definition Parse (str : bytes) : option SemanticVersion :=
  let str := Trim str in
  let str := if starts_with str "v" || starts_with str "V" then drop 1 str else str in
  match Split str "." with
  | [s0; s1] =>
      ma ← parse_component s0; mi ← parse_component s1;
      Some {| major := ma; minor := mi; patch := 0 |}
  | [s0; s1; s2] =>
      ma ← parse_component s0; mi ← parse_component s1;
      let patch_str := match find_char s2 "-" with
                       | Some dash => substr s2 0 dash
                       | None => s2
                       end in
      pa ← parse_component patch_str;
      Some {| major := ma; minor := mi; patch := pa |}
  | _ => None
  end.

Inductive Op := OpEqual | OpGreater | OpGreaterEqual | OpLess | OpLessEqual.

Definition constraint_op (token : bytes) : Op * bytes :=
  if starts_with token ">=" then (OpGreaterEqual, drop 2 token)
  else if starts_with token "<=" then (OpLessEqual, drop 2 token)
  else if starts_with token ">" then (OpGreater, drop 1 token)
  else if starts_with token "<" then (OpLess, drop 1 token)
  else if starts_with token "=" then (OpEqual, drop 1 token)
  else (OpEqual, token).

Definition op_holds (op : Op) (c : comparison) : bool :=
  match op, c with
  | OpEqual, Eq => true
  | OpGreater, Gt => true
  | OpGreaterEqual, (Gt | Eq) => true
  | OpLess, Lt => true
  | OpLessEqual, (Lt | Eq) => true
  | _, _ => false
  end.

Definition CheckSingleConstraint (current : SemanticVersion) (token : bytes) : bool :=
  let token := Trim token in
  if is_empty token || (token =b "*") then true
  else
    let '(op, token) := constraint_op token in
    match Parse (Trim token) with
    | None => false
    | Some target => op_holds op (version_compare current target)
    end.

Definition Satisfies (current_ver constraint : bytes) : bool :=
  let constraint := Trim constraint in
  if is_empty constraint || (constraint =b "*") then true
  else
    match Parse current_ver with
    | None => false
    | Some cur => forallb (CheckSingleConstraint cur) (Split constraint ",")
    end.

(** ** The order on versions *)

Lemma version_compare_eq a b : version_compare a b = Eq <-> a = b.
Proof.
  unfold version_compare. destruct a as [a1 a2 a3], b as [b1 b2 b3]; simpl.
  split; [|intros [= -> -> ->]; by rewrite !Z.compare_refl].
  destruct (Z.compare_spec a1 b1), (Z.compare_spec a2 b2), (Z.compare_spec a3 b3); naive_solver.
Qed.

Lemma version_compare_antisym a b : version_compare b a = CompOpp (version_compare a b).
Proof.
  unfold version_compare.
  rewrite (Z.compare_antisym (major a)), (Z.compare_antisym (minor a)), (Z.compare_antisym (patch a)).
  by destruct (major a ?= major b)%Z, (minor a ?= minor b)%Z, (patch a ?= patch b)%Z.
Qed.

Lemma version_ltb_lex a b :
  version_ltb a b = true <->
  (major a < major b \/
   major a = major b /\ (minor a < minor b \/ minor a = minor b /\ patch a < patch b))%Z.
Proof.
  unfold version_ltb, version_compare.
  destruct (Z.compare_spec (major a) (major b)), (Z.compare_spec (minor a) (minor b)),
    (Z.compare_spec (patch a) (patch b)); split; intros; try done; lia.
Qed.

Lemma version_ltb_trans a b c :
  version_ltb a b = true -> version_ltb b c = true -> version_ltb a c = true.
Proof. rewrite !version_ltb_lex. lia. Qed.

(** Exactly one of "older", "same", "newer" holds. *)
Lemma version_trichotomy a b :
  version_ltb a b = true \/ a = b \/ version_ltb b a = true.
Proof.
  unfold version_ltb. rewrite (version_compare_antisym a b).
  destruct (version_compare a b) eqn:E; simpl; auto. apply version_compare_eq in E. auto.
Qed.

(** ** Printing and parsing back *)

(** [std::to_string(major) + "." + ...], the form [GetTargetVersionConstraint] prints. *)
Definition print_version (v : SemanticVersion) : bytes :=
  Join [to_string (major v); to_string (minor v); to_string (patch v)] ".".

Definition valid_version (v : SemanticVersion) : Prop :=
  (0 <= major v <= 2147483647 /\ 0 <= minor v <= 2147483647 /\ 0 <= patch v <= 2147483647)%Z.

Lemma parse_component_to_string n :
  (0 <= n <= 2147483647)%Z -> parse_component (to_string n) = Some n.
Proof.
  intros Hn. unfold parse_component. rewrite <-(app_nil_r (to_string n)).
  rewrite from_chars_to_string by done. simpl. destruct (Z.leb_spec 0 n); [done|lia].
Qed.

Lemma to_string_no_char n c :
  (0 <= n)%Z -> (forall d, (0 <= d < 10)%Z -> digit_char d <> c) -> c ∉ to_string n.
Proof.
  intros Hn Hc Hin. destruct (to_string_digits n Hn) as [Hd _].
  rewrite Forall_forall in Hd. destruct (Hd c Hin) as (d & Hd' & ->). by apply (Hc d).
Qed.

Lemma dec_digit_not c :
  c ∈ ["."; "-"; "v"; "V"]%char -> forall d, (0 <= d < 10)%Z -> digit_char d <> c.
Proof. intros Hc d Hd. destruct (digit_char_facts d Hd) as (_ & _ & ? & ? & ? & ?). set_solver. Qed.

Lemma find_char_absent s c : c ∉ s -> find_char s c = None.
Proof.
  intros Hc. destruct (find_char s c) as [i|] eqn:E; [|done].
  unfold find_char in E. destruct (find_char_from_Some _ _ _ _ E) as (_ & _ & Hd).
  exfalso. apply Hc. rewrite drop_0 in Hd. rewrite Hd. set_solver.
Qed.

Lemma digits_trimmed_app n m p :
  (0 <= n)%Z -> (0 <= p)%Z -> trimmed (to_string n ++ m ++ to_string p).
Proof.
  intros Hn Hp. destruct (to_string_digits n Hn) as [Hdn Hnn], (to_string_digits p Hp) as [Hdp Hnp].
  split; intros c Hc.
  - destruct (to_string n) as [|x l]; [done|]. simplify_eq/=.
    inversion Hdn as [|? ? (d & Hd & ->) _]. apply (digit_char_facts d Hd).
  - rewrite app_assoc, last_app in Hc. destruct (last (to_string p)) as [x|] eqn:E.
    + simplify_eq. apply last_Some_elem_of in E. rewrite Forall_forall in Hdp.
      destruct (Hdp c E) as (d & Hd & ->). apply (digit_char_facts d Hd).
    + by apply last_None in E.
Qed.

Lemma digits_no_prefix n rest c :
  (0 <= n)%Z -> c ∈ ["."; "-"; "v"; "V"]%char -> starts_with (to_string n ++ rest) [c] = false.
Proof.
  intros Hn Hc. destruct (to_string_digits n Hn) as [Hd Hne].
  destruct (to_string n) as [|x l]; [done|]. inversion Hd as [|? ? (d & Hd' & ->) _]. simpl.
  rewrite bool_decide_eq_false_2; [done|]. intros ->. by apply (dec_digit_not _ Hc d).
Qed.

Lemma print_version_app v :
  print_version v = to_string (major v) ++ ("." ++ to_string (minor v) ++ ".") ++ to_string (patch v).
Proof. unfold print_version. rewrite !Join_cons2. simpl Join. by rewrite <-!app_assoc. Qed.

Lemma Trim_print_version v : valid_version v -> Trim (print_version v) = print_version v.
Proof.
  intros (?&?&?). apply Trim_trimmed. rewrite print_version_app. apply digits_trimmed_app; lia.
Qed.

Lemma Parse_printed v : valid_version v -> Parse (print_version v) = Some v.
Proof.
  intros Hv. pose proof Hv as (H1 & H2 & H3). unfold Parse. rewrite Trim_print_version by done.
  rewrite print_version_app, !digits_no_prefix by (set_solver || lia). simpl orb. cbv iota.
  rewrite <-print_version_app, Split_spec. unfold print_version.
  rewrite split_ref_Join; [|done|].
  - rewrite !parse_component_to_string by done. simpl mbind.
    rewrite find_char_absent, parse_component_to_string by
      (done || (apply to_string_no_char; [lia|apply dec_digit_not; set_solver])).
    by destruct v.
  - repeat constructor; (apply to_string_no_char; [lia|apply dec_digit_not; set_solver]).
Qed.

(** Parsing a printed version gives the version back, for every version
    whose components fit a non-negative [int]. *)
Theorem Parse_print_version v : valid_version v -> Parse (print_version v) = Some v.
Proof. apply Parse_printed. Qed.

Lemma Parse_print_version_witness :
  print_version {| major := 2; minor := 4; patch := 0 |} = "2.4.0" /\
  Parse (print_version {| major := 2; minor := 4; patch := 0 |})
  = Some {| major := 2; minor := 4; patch := 0 |}.
Proof.
  split; [reflexivity|]. apply Parse_print_version. unfold valid_version; simpl; lia.
Defined.

Lemma Trim_ge_print v : valid_version v -> Trim (">=" ++ print_version v) = ">=" ++ print_version v.
Proof.
  intros (?&?&?). apply Trim_trimmed. rewrite print_version_app.
  destruct (digits_trimmed_app (major v) ("." ++ to_string (minor v) ++ ".") (patch v)) as [_ Hl];
    [lia..|].
  split; [by intros c [= <-]|]. intros c. rewrite last_app.
  destruct (last (to_string (major v) ++ _)) as [x|] eqn:E; [intros [= <-]; by apply Hl|].
  apply last_None, app_eq_nil in E as [E _]. destruct (to_string_digits (major v)) as [_ ?]; [lia|done].
Qed.

Lemma print_version_no_comma v : valid_version v -> ","%char ∉ print_version v.
Proof.
  intros (?&?&?). rewrite print_version_app.
  assert (forall n, (0 <= n)%Z -> ","%char ∉ to_string n) as Hn.
  { intros n Hn. apply to_string_no_char; [done|]. intros d Hd.
    assert (d ∈ [0;1;2;3;4;5;6;7;8;9]%Z) as Hin by set_solver by lia.
    repeat (apply elem_of_cons in Hin as [->|Hin]; [by vm_compute|]). by apply elem_of_nil in Hin. }
  rewrite !not_elem_of_app. split_and!; try (apply Hn; lia); set_solver.
Qed.

(** A [>=] constraint means what it says: the host version satisfies
    [">=target"] exactly when it is not older than the target. *)
Theorem Satisfies_ge cur target :
  valid_version cur -> valid_version target ->
  Satisfies (print_version cur) (">=" ++ print_version target) = negb (version_ltb cur target).
Proof.
  intros Hc Ht. unfold Satisfies. rewrite Trim_ge_print by done.
  change (is_empty (">=" ++ print_version target)) with false.
  rewrite (bool_decide_eq_false_2 (_ = "*")) by done. cbn [orb].
  rewrite Parse_printed by done.
  rewrite Split_spec, split_ref_no_delim by (pose proof (print_version_no_comma _ Ht); set_solver).
  cbn [forallb]. rewrite andb_true_r. unfold CheckSingleConstraint.
  rewrite Trim_ge_print by done.
  change (is_empty (">=" ++ print_version target)) with false.
  rewrite (bool_decide_eq_false_2 (_ = "*")) by done. cbn [orb].
  change (constraint_op (">=" ++ print_version target)) with (OpGreaterEqual, print_version target).
  cbv iota beta. rewrite Trim_print_version, Parse_printed by done.
  unfold version_ltb. by destruct (version_compare cur target).
Qed.

Lemma Satisfies_ge_witness :
  Satisfies (print_version {| major := 2; minor := 4; patch := 1 |})
    (">=" ++ print_version {| major := 2; minor := 4; patch := 0 |}) =
  negb (version_ltb {| major := 2; minor := 4; patch := 1 |} {| major := 2; minor := 4; patch := 0 |}).
Proof. apply Satisfies_ge; unfold valid_version; simpl; lia. Defined.
