(* ===== verification/Interpolation.v ===== *)
(** * Placeholder interpolation (src/src/common/utils/interpolation.cpp) and the
    scene prompt templates (src/src/daemon/postprocess/prompt_template.cpp) *)

From S2P Require Import Prelude StringUtils.
From Stdlib Require Import Ascii.

Record Placeholder := { raw : bytes; scheme : bytes; key : bytes }.

Abbreviation Resolver := (Placeholder -> option bytes).

Record ParsedPlaceholder := { placeholder : Placeholder; plength : nat }.

(** [scheme.key] / [scheme:key]: the body of a double-brace placeholder. *)
Definition parse_braced (r inner : bytes) (len : nat) : option ParsedPlaceholder :=
  if is_empty inner then None
  else
    let '(valid, sch, k) :=
      match find_first_of_from inner ".:" 0 with
      | Some sep =>
          let sch := Trim (substr inner 0 sep) in
          (negb (is_empty sch), sch, Trim (drop (sep + 1) inner))
      | None => (true, [], inner)
      end in
    if (valid : bool) && negb (is_empty k)
    then Some {| placeholder := {| raw := r; scheme := sch; key := k |}; plength := len |}
    else None.

(** The two flags are in-out parameters: the result is the placeholder and the
    updated [can_close_dollar] and [can_close_brace]. *)
Definition TryParsePlaceholder (remaining : bytes) (can_close_dollar can_close_brace : bool)
  : option ParsedPlaceholder * (bool * bool) :=
  (* 1. Dollar syntax: ${...} *)
  let '(dollar, cd) :=
    if can_close_dollar && starts_with remaining "${" then
      match find_char_from remaining "}" 2 with
      | None => (None, false)
      | Some e =>
          let inner := Trim (substr remaining 2 (e - 2)) in
          (if negb (is_empty inner)
           then Some {| placeholder := {| raw := substr remaining 0 (e + 1);
                                          scheme := "env"; key := inner |};
                        plength := e + 1 |}
           else None, can_close_dollar)
      end
    else (None, can_close_dollar) in
  match dollar with
  | Some p => (Some p, (cd, can_close_brace))
  | None =>
      (* 2. Double-brace syntax: {{...}} *)
      if can_close_brace && starts_with remaining "{{" then
        match find_sub_from remaining "}}" 2 with
        | None => (None, (cd, false))
        | Some e =>
            let inner := Trim (substr remaining 2 (e - 2)) in
            (parse_braced (substr remaining 0 (e + 2)) inner (e + 2), (cd, can_close_brace))
        end
      else (None, (cd, can_close_brace))
  end.

Definition HasInterpolation (text : bytes) : bool :=
  bool_decide (is_Some (find_sub text "${")) || bool_decide (is_Some (find_sub text "{{")).

(** [text.find_first_of("${", i)], [text.find('$', i)] or [text.find('{', i)]. *)
Definition next_marker (text : bytes) (i : nat) (cd cb : bool) : option nat :=
  if cd && cb then find_first_of_from text "${" i
  else if cd then find_char_from text "$" i
  else find_char_from text "{" i.

(** The loop of [Interpolate]; every iteration advances [i] or leaves, so
    [S (length text)] iterations are enough. *)
Fixpoint Interpolate_loop (fuel : nat) (resolver : Resolver) (text : bytes) (i : nat)
    (result : bytes) (cd cb : bool) : bytes :=
  match fuel with
  | O => result
  | S fuel =>
      if i <? length text then
        if negb cd && negb cb then result ++ drop i text
        else
          match next_marker text i cd cb with
          | None => result ++ drop i text
          | Some next =>
              let result := result ++ substr text i (next - i) in
              let i := next in
              let '(parsed, (cd, cb)) := TryParsePlaceholder (drop i text) cd cb in
              match (p ← parsed; rep ← resolver (placeholder p); Some (rep, plength p)) with
              | Some (rep, len) =>
                  Interpolate_loop fuel resolver text (i + len) (result ++ rep) cd cb
              | None =>
                  Interpolate_loop fuel resolver text (i + 1)
                    (result ++ take 1 (drop i text)) cd cb
              end
          end
      else result
  end.

(** A null [std::function] is [None]. *)
Definition Interpolate (text : bytes) (resolver : option Resolver) : bytes :=
  match resolver with
  | None => text
  | Some r => if is_empty text then text
              else Interpolate_loop (S (length text)) r text 0 [] true true
  end.

(** [getenv] is the process environment, a parameter. *)
Definition InterpolateEnv (getenv : bytes -> option bytes) (text : bytes) : bytes :=
  Interpolate text (Some (fun p =>
    if scheme p =b "env" then Some (default [] (getenv (key p))) else None)).

(** ** prompt_template.cpp *)

Record Vars := { asr : bytes; selected : bytes; context : bytes }.

Definition kFileUriPrefix : bytes := "file:///".
Definition IsFileUri (s : bytes) : bool := starts_with s kFileUriPrefix.
Definition PromptHasInterpolation (s : bytes) : bool := bool_decide (is_Some (find_sub s "{{")).

Definition prompt_resolver (vars : Vars) : Resolver := fun p =>
  if starts_with (raw p) "{{" && is_empty (scheme p) then
    if key p =b "asr" then Some (asr vars)
    else if key p =b "selected" then Some (selected vars)
    else if key p =b "context" then Some (context vars)
    else None
  else None.

Definition PromptInterpolate (tpl : bytes) (vars : Vars) : bytes :=
  Interpolate tpl (Some (prompt_resolver vars)).

Example prompt_example :
  PromptInterpolate "say {{ asr }} to {{x}} ${asr} {{context" {| asr := "{{selected}}"; selected := "S"; context := [] |}
  = "say {{selected}} to {{x}} ${asr} {{context".
Proof. vm_compute. reflexivity. Qed.

(** ** Reference semantics: scan left to right, no bookkeeping

    At every position the longest-standing rule applies: a well-formed
    placeholder the resolver handles is replaced, anything else is copied one
    character at a time. The replacement itself is never scanned again. *)

Definition parse_at (s : bytes) : option ParsedPlaceholder := (TryParsePlaceholder s true true).1.

Fixpoint interp_ref (fuel : nat) (r : Resolver) (s : bytes) : bytes :=
  match fuel, s with
  | O, _ | _, [] => []
  | S fuel, c :: s' =>
      match (p ← parse_at s; rep ← r (placeholder p); Some (rep, plength p)) with
      | Some (rep, len) => rep ++ interp_ref fuel r (drop len s)
      | None => c :: interp_ref fuel r s'
      end
  end.

Definition interp (r : Resolver) (s : bytes) : bytes := interp_ref (length s) r s.

(** [no_dollar s]: no [${] placeholder starts at or after the head of [s]. *)
Definition no_dollar (s : bytes) : Prop := "}"%char ∉ drop 2 s.
Definition no_brace (s : bytes) : Prop := forall n, starts_with (drop (2 + n) s) "}}" = false.

Definition flags_ok (cd cb : bool) (s : bytes) : Prop :=
  (cd = false -> no_dollar s) /\ (cb = false -> no_brace s).

Lemma elem_of_drop_le (c : ascii) n m s : n <= m -> c ∈ drop m s -> c ∈ drop n s.
Proof.
  intros H Hin. replace (drop m s) with (drop (m - n) (drop n s)) in Hin
    by (rewrite drop_drop; f_equal; lia).
  rewrite <-(take_drop (m - n) (drop n s)). set_solver.
Qed.

Lemma flags_ok_drop cd cb n s : flags_ok cd cb s -> flags_ok cd cb (drop n s).
Proof.
  intros [Hd Hb]. split; intros E.
  - unfold no_dollar in *. rewrite drop_drop. intros Hin. apply (Hd E).
    eapply elem_of_drop_le; [|exact Hin]. lia.
  - intros k. rewrite drop_drop. replace (n + (2 + k)) with (2 + (n + k)) by lia. by apply Hb.
Qed.

Lemma find_sub_None s t : find_sub s t = None -> forall n, starts_with (drop n s) t = false.
Proof.
  induction s as [|c s IH]; intros H n; cbn [find_sub] in H; destruct (starts_with _ t) eqn:E; try done.
  - by destruct n.
  - destruct (find_sub s t) eqn:Es; [done|]. destruct n as [|n]; [done|]. by apply IH.
Qed.

Lemma find_char_from_absent s c from : c ∉ drop from s -> find_char_from s c from = None.
Proof.
  intros Hc. destruct (find_char_from s c from) as [i|] eqn:E; [|done].
  destruct (find_char_from_Some _ _ _ _ E) as (_ & _ & Hd). exfalso. apply Hc. rewrite Hd. set_solver.
Qed.

Lemma find_sub_absent s t : (forall n, starts_with (drop n s) t = false) -> find_sub s t = None.
Proof.
  induction s as [|c s IH]; intros H; pose proof (H 0) as H0; rewrite drop_0 in H0;
    cbn [find_sub]; rewrite H0; [done|].
  rewrite IH; [done|]. intros n. apply (H (S n)).
Qed.

(** Under valid flags, disabling a search changes neither the result nor the
    validity of the flags. *)
Lemma TryParse_flags cd cb s :
  flags_ok cd cb s ->
  (TryParsePlaceholder s cd cb).1 = parse_at s /\
  let '(cd', cb') := (TryParsePlaceholder s cd cb).2 in flags_ok cd' cb' s.
Proof.
  intros [Hd Hb]. unfold parse_at, TryParsePlaceholder.
  assert (no_dollar s -> find_char_from s "}" 2 = None) as Hnd by apply find_char_from_absent.
  assert (no_brace s -> find_sub_from s "}}" 2 = None) as Hnb.
  { intros H. unfold find_sub_from. rewrite find_sub_absent; [done|].
    intros n. rewrite drop_drop. apply H. }
  assert (find_char_from s "}" 2 = None -> no_dollar s) as Hnd' by apply find_char_from_None.
  assert (find_sub_from s "}}" 2 = None -> no_brace s) as Hnb'.
  { unfold find_sub_from. destruct (find_sub (drop 2 s) "}}") eqn:E; [done|]. intros _ n.
    pose proof (find_sub_None _ _ E n) as Hs. by rewrite drop_drop in Hs. }
  destruct (starts_with s "${") eqn:Ed, (starts_with s "{{") eqn:Eb; cbn [andb].
  1: { apply starts_with_spec in Ed as [? ->], Eb as [? ?]. done. }
  all: destruct cd, cb; cbn [andb]; split; try done;
    repeat (first [rewrite Hnd by auto | rewrite Hnb by auto | case_match]);
    simplify_eq/=; try done; split; auto.
Qed.

(** A character that opens no enabled syntax is copied by the reference. *)
Definition opens (cd cb : bool) (c : ascii) : bool :=
  (cd && (c =b "$"%char)) || (cb && (c =b "{"%char)).

Lemma parse_at_closed cd cb c s :
  flags_ok cd cb (c :: s) -> opens cd cb c = false -> parse_at (c :: s) = None.
Proof.
  intros Hf Ho. rewrite <-(proj1 (TryParse_flags cd cb (c :: s) Hf)).
  unfold TryParsePlaceholder, opens in *. apply orb_false_iff in Ho as [H1 H2].
  assert (cd && starts_with (c :: s) "${" = false) as ->.
  { destruct cd; [|done]. simpl in *. rewrite bool_decide_eq_false in H1.
    by rewrite bool_decide_eq_false_2. }
  assert (cb && starts_with (c :: s) "{{" = false) as ->.
  { destruct cb; [|done]. simpl in *. rewrite bool_decide_eq_false in H2.
    by rewrite bool_decide_eq_false_2. }
  done.
Qed.

Lemma interp_ref_cons fuel r c s :
  parse_at (c :: s) = None -> interp_ref (S fuel) r (c :: s) = c :: interp_ref fuel r s.
Proof. intros H. simpl. by rewrite H. Qed.

(** Enough fuel is any fuel: the reference consumes at least one byte a step. *)
Lemma parse_at_length s p : parse_at s = Some p -> 0 < plength p.
Proof.
  unfold parse_at, TryParsePlaceholder, parse_braced. intros H.
  repeat case_match; simplify_eq/=; lia.
Qed.

Lemma interp_ref_fuel fuel fuel' r s :
  length s <= fuel -> length s <= fuel' -> interp_ref fuel r s = interp_ref fuel' r s.
Proof.
  revert fuel' s. induction fuel as [|fuel IH]; intros [|fuel'] [|c s] H H'; simpl in *; try done; try lia.
  destruct (parse_at (c :: s)) as [p|] eqn:E; simpl.
  - apply parse_at_length in E. destruct (r (placeholder p)); simpl.
    + f_equal. apply IH; rewrite length_drop; simpl; lia.
    + f_equal. apply IH; lia.
  - f_equal. apply IH; lia.
Qed.

Lemma interp_cons r c s :
  interp r (c :: s) =
  match (p ← parse_at (c :: s); rep ← r (placeholder p); Some (rep, plength p)) with
  | Some (rep, len) => rep ++ interp r (drop len (c :: s))
  | None => c :: interp r s
  end.
Proof.
  unfold interp. cbn [length interp_ref].
  destruct (parse_at (c :: s)) as [p|] eqn:E; simpl; [|done].
  apply parse_at_length in E. destruct (r (placeholder p)); simpl; [|done].
  f_equal. apply interp_ref_fuel; rewrite length_drop; simpl; lia.
Qed.

(** Characters that open no enabled syntax are copied verbatim. *)
Lemma interp_skip r cd cb pre s :
  flags_ok cd cb (pre ++ s) -> Forall (fun c => opens cd cb c = false) pre ->
  interp r (pre ++ s) = pre ++ interp r s.
Proof.
  intros Hf Hp. induction Hp as [|c pre Hc Hp IH]; [done|]. simpl app in *.
  rewrite interp_cons, (parse_at_closed cd cb) by done. simpl. f_equal.
  apply IH. by apply (flags_ok_drop _ _ 1) in Hf.
Qed.

Lemma next_marker_opens text i cd cb :
  cd || cb = true ->
  next_marker text i cd cb = Nat.add i <$> find_if (opens cd cb) (drop i text).
Proof.
  assert (forall (p q : ascii -> bool) l, (forall c, p c = q c) -> find_if p l = find_if q l) as Hext.
  { intros p q l H. induction l as [|c l IH]; simpl; [done|]. by rewrite H, IH. }
  intros H. unfold next_marker, find_first_of_from, find_char_from.
  destruct cd, cb; try done; cbn [andb]; f_equal; apply Hext; intros c; unfold opens; simpl.
  - by rewrite orb_false_r.
  - by rewrite orb_false_r.
Qed.

Lemma Interpolate_loop_spec fuel r text i result cd cb :
  length text - i < fuel -> flags_ok cd cb (drop i text) ->
  Interpolate_loop fuel r text i result cd cb = result ++ interp r (drop i text).
Proof.
  revert i result cd cb. induction fuel as [|fuel IH]; intros i result cd cb Hf Hok; [lia|].
  cbn [Interpolate_loop]. destruct (Nat.ltb_spec i (length text)) as [Hi|Hi]; cycle 1.
  { rewrite drop_ge by done. by rewrite app_nil_r. }
  assert (forall s, Forall (fun c => opens cd cb c = false) s -> flags_ok cd cb s -> interp r s = s) as Hall.
  { intros s Hs Hfs. rewrite <-(app_nil_r s) in Hfs |- * at 1. rewrite (interp_skip r cd cb) by done.
    by rewrite app_nil_r. }
  destruct (negb cd && negb cb) eqn:Eb.
  { rewrite Hall; [done| |done]. apply Forall_forall. intros c _.
    unfold opens. by destruct cd, cb. }
  rewrite next_marker_opens by (by destruct cd, cb).
  destruct (find_if (opens cd cb) (drop i text)) as [j|] eqn:E; simpl; cycle 1.
  { apply find_if_None in E. by rewrite Hall. }
  destruct (find_if_Some _ _ _ E) as (c & Hd & Hc & Hpre & Hj). rewrite length_drop in Hj.
  replace (i + j - i) with j by lia. unfold substr.
  assert (drop (i + j) text = c :: drop (S (i + j)) text) as Hs.
  { rewrite <-drop_drop, Hd, drop_app_length' by (rewrite length_take, length_drop; lia).
    rewrite drop_drop. f_equal. f_equal. lia. }
  assert (flags_ok cd cb (drop (i + j) text)) as Hok' by (rewrite <-drop_drop; by apply flags_ok_drop).
  assert (interp r (drop i text) = take j (drop i text) ++ interp r (drop (i + j) text)) as ->.
  { rewrite <-(take_drop j (drop i text)) at 1. rewrite (interp_skip r cd cb), drop_drop; [done| |done].
    by rewrite take_drop. }
  destruct (TryParse_flags cd cb _ Hok') as [Hp Hfl].
  destruct (TryParsePlaceholder (drop (i + j) text) cd cb) as [parsed [cd' cb']]; simpl in *.
  rewrite Hs in Hp |- *. rewrite interp_cons, <-Hp.
  destruct (p ← parsed; _) as [[rep len]|] eqn:Er.
  - rewrite IH.
    + rewrite <-!app_assoc. by rewrite <-Hs, drop_drop.
    + destruct parsed as [p|]; [|done]. simpl in Er. destruct (r (placeholder p)); simplify_eq/=.
      symmetry in Hp. apply parse_at_length in Hp. lia.
    + rewrite <-drop_drop. by apply flags_ok_drop.
  - rewrite IH; [|lia|rewrite <-drop_drop; by apply flags_ok_drop].
    simpl take. rewrite <-!app_assoc. simpl. by replace (i + j + 1) with (S (i + j)) by lia.
Qed.

(** The single-pass interpolation with its "no closer ahead" flags is
    equivalent to the reference scan, for every resolver and every text: the
    flags only save searches, the loop terminates within its fuel, and resolved
    text is never scanned again. *)
Theorem Interpolate_correct text r : Interpolate text (Some r) = interp r text.
Proof.
  unfold Interpolate. destruct text as [|c text]; [done|]. cbn [is_empty].
  rewrite Interpolate_loop_spec; [done|lia|by split].
Qed.
