(* ===== verification/ProcessUtils.v ===== *)
(** * Processes by identity, and one-shot commands (src/src/common/utils/process_utils.cpp)

    A process that this program did not spawn is known by its pid and its start time, read
    from /proc. The kernel is a trace: at every system call the process table may have
    changed, so pids are reused between any two calls. [Run] drives one child; each round of
    its loop takes what the system calls answered. *)

From S2P Require Import Prelude StringUtils Process ProcessSession.
From Stdlib Require Import Ascii.

(** ** The identity of a process *)

(** [std::getline] on the whole file; [None] when there is nothing to read. *)
Definition first_line (text : bytes) : option bytes :=
  if is_empty text then None else Some (match find_char text ch_nl with Some e => take e text | None => text end).

(** [stream >> token]: white space is skipped, the token ends at the next. *)
Fixpoint skip_spaces (s : bytes) : bytes :=
  match s with c :: s' => if isspace c then skip_spaces s' else s | [] => [] end.
Fixpoint take_token (s : bytes) : bytes * bytes :=
  match s with
  | c :: s' => if isspace c then ([], s) else let '(token, rest) := take_token s' in (c :: token, rest)
  | [] => ([], [])
  end.
Definition next_token (s : bytes) : option (bytes * bytes) :=
  match skip_spaces s with [] => None | s => Some (take_token s) end.

(** The last of [n + 1] tokens. *)
Fixpoint nth_token (n : nat) (s : bytes) : option bytes :=
  '(token, rest) ← next_token s;
  match n with O => Some token | S n => nth_token n rest end.

Definition u64_type : int_type := {| it_signed := false; it_min := 0; it_max := 18446744073709551615 |}.
Definition kFieldsBeforeResume : nat := 2.
Definition kStartTimeField : nat := 22.

(** [stat]: the content of /proc/pid/stat, if it could be opened. *)
Definition ProcessStartTime (pid : Z) (stat : option bytes) : Z :=
  if (pid <=? 0)%Z then 0%Z
  else
    default 0%Z
      (text ← stat;
       line ← first_line text;
       comm_end ← rfind_char line ")"%char;
       if (length line <=? comm_end + kFieldsBeforeResume)%nat then None
       else
         token ← nth_token (kStartTimeField - 3) (drop (comm_end + kFieldsBeforeResume) line);
         '(start_time, rest) ← from_chars u64_type 10 token;
         if is_empty rest then Some start_time else None).

Definition ProcessIdentityMatches (pid : Z) (start_time : Z) (stat : option bytes) : bool :=
  if (pid <=? 0)%Z || (start_time =? 0)%Z then false else (ProcessStartTime pid stat =? start_time)%Z.

(** The line the kernel prints: pid, name in parentheses, and fields separated by blanks. *)
Definition stat_line (pid : Z) (comm : bytes) (before : list bytes) (start : Z) (after : bytes) : bytes :=
  to_string pid ++ " (" ++ comm ++ ") " ++ concat ((fun f => f ++ " "%bytes) <$> before) ++ to_string start ++ " " ++ after.

Definition field_ok (f : bytes) : Prop := f <> [] /\ Forall (fun c => isspace c = false /\ c <> ")"%char) f.

Lemma take_token_field f rest : Forall (fun c => isspace c = false) f -> take_token (f ++ " "%char :: rest) = (f, " "%char :: rest).
Proof. induction 1 as [|c f Hc _ IH]; [done|]. cbn [app take_token]. by rewrite Hc, IH. Qed.
Lemma next_token_field f rest : f <> [] -> Forall (fun c => isspace c = false) f -> next_token (f ++ " "%char :: rest) = Some (f, " "%char :: rest).
Proof.
  intros Hne Hf. unfold next_token. destruct f as [|c f]; [done|]. assert (Hs : isspace c = false) by (by inversion Hf).
  cbn [app skip_spaces]. rewrite Hs. by rewrite <- (take_token_field (c :: f) rest).
Qed.
Lemma next_token_blank s : next_token (" "%char :: s) = next_token s.
Proof. done. Qed.
Lemma nth_token_fields before last rest :
  Forall (fun f => f <> [] /\ Forall (fun c => isspace c = false) f) before -> last <> [] -> Forall (fun c => isspace c = false) last ->
  nth_token (length before) (concat ((fun f => f ++ " "%bytes) <$> before) ++ last ++ " "%char :: rest) = Some last.
Proof.
  intros Hb Hl Hl'. assert (Hskip : forall s n, nth_token n (" "%char :: s) = nth_token n s) by (by intros s []).
  induction Hb as [|f before [Hne Hf] _ IH]; [cbn; by rewrite next_token_field|].
  rewrite fmap_cons. cbn [concat length nth_token]. rewrite <- !app_assoc. cbn [app]. rewrite next_token_field by done.
  cbn [mbind option_bind]. by rewrite Hskip.
Qed.
Lemma rfind_char_last t c s : c ∉ s -> rfind_char (t ++ c :: s) c = Some (length t).
Proof.
  intros Hc. unfold rfind_char. rewrite reverse_app, reverse_cons, <-app_assoc. cbn [app].
  rewrite (find_if_app _ (reverse s) c (reverse t)).
  - simpl. rewrite length_app, length_reverse. simpl. f_equal. lia.
  - apply Forall_forall. intros x Hx. apply bool_decide_eq_false. intros ->. by rewrite elem_of_reverse in Hx.
  - by apply bool_decide_eq_true.
Qed.
Lemma to_string_chars n c : (0 <= n)%Z -> c ∈ to_string n -> isspace c = false /\ c <> ")"%char /\ c <> ch_nl.
Proof.
  intros Hn Hc. destruct (to_string_digits n Hn) as [Hd _]. rewrite Forall_forall in Hd. destruct (Hd c Hc) as (d & Hr & ->).
  assert (d ∈ [0;1;2;3;4;5;6;7;8;9]%Z) as Hi by set_solver by lia.
  repeat (apply elem_of_cons in Hi as [->|Hi]; [by vm_compute|]). by apply elem_of_nil in Hi.
Qed.
Lemma concat_fields_chars before c : Forall field_ok before -> c ∈ concat ((fun f => f ++ " "%bytes) <$> before) -> c <> ")"%char /\ c <> ch_nl.
Proof.
  induction 1 as [|f before [_ Hf] _ IH]; [by intros ?%elem_of_nil|]. rewrite fmap_cons. cbn [concat].
  rewrite !elem_of_app. intros [[Hc|Hc]|Hc]; [|by apply list_elem_of_singleton in Hc as ->|by apply IH].
  rewrite Forall_forall in Hf. destruct (Hf c Hc) as [Hs Hp]. split; [done|]. by intros ->.
Qed.
Lemma first_line_newline s : s <> [] -> ch_nl ∉ s -> first_line (s ++ [ch_nl]) = Some s.
Proof.
  intros Hne Hn. unfold first_line. destruct (is_empty (s ++ [ch_nl])) eqn:E; [apply is_empty_true in E; by destruct s|].
  unfold find_char, find_char_from. rewrite drop_0, (find_if_app _ s ch_nl []).
  - cbn. by rewrite take_app_length.
  - apply Forall_forall. intros x Hx. apply bool_decide_eq_false. by intros ->.
  - by apply bool_decide_eq_true.
Qed.

(** The start time is found whatever the name of the program: blanks and parentheses in it
    do not shift the fields. *)
Theorem start_time_found pid comm before start after :
  (0 < pid)%Z -> ch_nl ∉ comm -> Forall field_ok before -> length before = 19 ->
  (0 <= start <= 18446744073709551615)%Z -> ")"%char ∉ after -> ch_nl ∉ after ->
  ProcessStartTime pid (Some (stat_line pid comm before start after ++ [ch_nl])) = start.
Proof.
  intros Hp Hcomm Hb Hlen Hs Ha Ha'. unfold ProcessStartTime. destruct (Z.leb_spec pid 0); [lia|]. cbn [mbind option_bind].
  set (fields := concat ((fun f => f ++ " "%bytes) <$> before)).
  set (tail := " "%char :: fields ++ to_string start ++ " "%char :: after).
  assert (E : stat_line pid comm before start after = (to_string pid ++ " (" ++ comm) ++ ")"%char :: tail).
  { unfold stat_line, tail, fields. by rewrite <- !app_assoc. }
  assert (Htail : forall c, c ∈ tail -> c <> ")"%char /\ c <> ch_nl).
  { intros c. unfold tail. rewrite elem_of_cons, !elem_of_app, elem_of_cons. intros [->|[Hc|[Hc|[->|Hc]]]]; [done| | |done|].
    - by eapply concat_fields_chars.
    - destruct (to_string_chars start c) as (_ & ? & ?); [lia|done|done].
    - split; by intros ->. }
  rewrite first_line_newline; [|rewrite E; by destruct (to_string pid)|].
  2:{ rewrite E, elem_of_app, elem_of_cons, !elem_of_app. intros [[Hc|[Hc|Hc]]|[Hc|Hc]]; [| |done|done|].
      - by destruct (to_string_chars pid ch_nl) as (_ & _ & ?); [lia|..].
      - by repeat (apply elem_of_cons in Hc as [?|Hc]; [done|]); apply elem_of_nil in Hc.
      - by destruct (Htail ch_nl Hc). }
  cbn [mbind option_bind]. rewrite E, rfind_char_last by (intros Hc; by destruct (Htail _ Hc)). cbn [mbind option_bind].
  set (pre := to_string pid ++ " (" ++ comm). rewrite length_app. cbn [length].
  destruct (to_string_digits start) as [Hd Hne]; [lia|].
  destruct (Nat.leb_spec (length pre + S (length tail)) (length pre + kFieldsBeforeResume)) as [Hle|_].
  { unfold tail, kFieldsBeforeResume in Hle. cbn [length] in Hle. rewrite !length_app in Hle. destruct (to_string start); [done|]. cbn in Hle. lia. }
  assert (Hdrop : drop (length pre + kFieldsBeforeResume) (pre ++ ")"%char :: tail) = fields ++ to_string start ++ " "%char :: after).
  { rewrite <- drop_drop, drop_app_length. done. }
  rewrite Hdrop. change (kStartTimeField - 3) with 19. rewrite <- Hlen. unfold fields. rewrite nth_token_fields.
  - cbn [mbind option_bind]. rewrite <- (app_nil_r (to_string start)), from_chars_printed by (cbn; lia || done). done.
  - eapply Forall_impl; [exact Hb|]. intros f [? Hf]. split; [done|]. eapply Forall_impl; [exact Hf|]. by intros c [].
  - done.
  - apply Forall_forall. intros c Hc. by destruct (to_string_chars start c) as (? & _); [lia|..].
Qed.

Lemma start_time_found_witness :
  ProcessStartTime 42 (Some (stat_line 42 "x) S 1 (y" (repeat "0"%bytes 19) 987654321 "1 2 3" ++ [ch_nl])) = 987654321%Z.
Proof.
  apply (start_time_found 42 "x) S 1 (y" (repeat "0"%bytes 19) 987654321 "1 2 3").
  - lia.
  - apply (bool_decide_unpack _). vm_compute. exact I.
  - repeat constructor; discriminate.
  - reflexivity.
  - lia.
  - apply (bool_decide_unpack _). vm_compute. exact I.
  - apply (bool_decide_unpack _). vm_compute. exact I.
Defined.

(** ** Stopping a process that is not a child *)

Inductive Errno := EINTR | ESRCH | EOther (message : bytes).
Inductive ProcessState := Running | ExitedState | UnknownState.
Inductive ExitWait := WaitExited | WaitStillRunning | WaitInconclusive.
Inductive SignalOutcome := Delivered | ProcessGone | SignalFailed (error : bytes).
Inductive TerminateOutcome := TExited | TNotFound | TStillRunning | TUnconfirmed | TFailed.
Record TerminateResult := { outcome : TerminateOutcome; failed_signal : option Signal; t_error : bytes }.
Definition kIdentityProbeAttempts : nat := 3.

(** One probe of a descriptor: what poll answered. *)
Inductive ProbeAnswer := PollExited | PollOther | PollQuiet | PollInterrupted | PollError.

(** [table t pid]: the process at a pid when the [t]-th system call is made; the other
    members say how the calls go. *)
Record Kernel (I : Type) := {
  table : nat -> Z -> option I;
  stat_file : nat -> Z -> option bytes;
  reaped_by : nat -> I -> bool;
  open_error : nat -> option Errno;
  kill_error : nat -> option Errno;
  probe : nat -> ProbeAnswer;
  clock : nat -> Z;
}.
Arguments table {I}. Arguments stat_file {I}. Arguments reaped_by {I}. Arguments open_error {I}. Arguments kill_error {I}.
Arguments probe {I}. Arguments clock {I}.

Section terminate.
Context {I : Type} (k : Kernel I).

(** The system calls made so far and the signals that reached a process. *)
Record Exec := { calls : nat; reached : list (I * Signal) }.
#[local] Instance Exec_fields : Fields Exec := fun x => {| calls := calls x; reached := reached x |}.
Definition tick (x : Exec) : Exec := x <| calls := S (calls x) |>.

(** A descriptor refers to the process that was there when it was opened. *)
Record PinnedProcess := { pin_pid : Z; pin_start : Z; pidfd : I + Errno }.
Definition OpenPidFd (pid : Z) (x : Exec) : (I + Errno) * Exec :=
  (match open_error k (calls x) with
   | Some e => inr e
   | None => match table k (calls x) pid with Some i => inl i | None => inr ESRCH end
   end, tick x).
Definition PinObservedNoSuchProcess (p : PinnedProcess) : bool := match pidfd p with inr ESRCH => true | _ => false end.

Definition Matches (p : PinnedProcess) (x : Exec) : bool * Exec :=
  (ProcessIdentityMatches (pin_pid p) (pin_start p) (stat_file k (calls x) (pin_pid p)), tick x).

Definition SendSignalByPid (pid : Z) (s : Signal) (x : Exec) : option Errno * Exec :=
  match kill_error k (calls x) with
  | Some e => (Some e, tick x)
  | None =>
      match table k (calls x) pid with
      | Some i => (None, tick x <| reached := reached x ++ [(i, s)] |>)
      | None => (Some ESRCH, tick x)
      end
  end.
Definition SendSignalViaPidFd (i : I) (s : Signal) (x : Exec) : option Errno * Exec :=
  match kill_error k (calls x) with
  | Some e => (Some e, tick x)
  | None =>
      if reaped_by k (calls x) i then (Some ESRCH, tick x)
      else (None, tick x <| reached := reached x ++ [(i, s)] |>)
  end.

Definition signal_failure (e : Errno) : SignalOutcome :=
  match e with ESRCH => ProcessGone | EINTR => SignalFailed "Interrupted system call" | EOther m => SignalFailed m end.
(** [while (true)] around an interrupted call. *)
Fixpoint signal_pidfd (fuel : nat) (i : I) (s : Signal) (x : Exec) : option (SignalOutcome * Exec) :=
  match fuel with
  | O => None
  | S fuel =>
      match SendSignalViaPidFd i s x with
      | (None, x) => Some (Delivered, x)
      | (Some EINTR, x) => signal_pidfd fuel i s x
      | (Some e, x) => Some (signal_failure e, x)
      end
  end.
Definition SignalProcess (fuel : nat) (p : PinnedProcess) (s : Signal) (x : Exec) : option (SignalOutcome * Exec) :=
  match pidfd p with
  | inl i => signal_pidfd fuel i s x
  | inr _ =>
      let '(ok, x) := Matches p x in
      if negb ok then Some (ProcessGone, x)
      else match SendSignalByPid (pin_pid p) s x with
           | (None, x) => Some (Delivered, x)
           | (Some e, x) => Some (signal_failure e, x)
           end
  end.

Fixpoint probe_loop (attempts : nat) (x : Exec) : ProcessState * Exec :=
  match attempts with
  | O => (UnknownState, x)
  | S attempts =>
      match probe k (calls x) with
      | PollExited => (ExitedState, tick x)
      | PollOther | PollError => (UnknownState, tick x)
      | PollQuiet => (Running, tick x)
      | PollInterrupted => probe_loop attempts (tick x)
      end
  end.
Definition ProbePinnedProcess (x : Exec) : ProcessState * Exec := probe_loop kIdentityProbeAttempts x.
Definition Probe (p : PinnedProcess) (x : Exec) : ProcessState * Exec :=
  match pidfd p with
  | inl _ => ProbePinnedProcess x
  | inr _ => let '(ok, x) := Matches p x in (if ok : bool then Running else ExitedState, x)
  end.

Fixpoint wait_loop (fuel : nat) (p : PinnedProcess) (deadline : Z) (observed_running : bool) (x : Exec) : option (ExitWait * Exec) :=
  match fuel with
  | O => None
  | S fuel =>
      let '(state, x) := Probe p x in
      match state with
      | ExitedState => Some (WaitExited, x)
      | _ =>
          let observed_running := observed_running || match state with Running => true | _ => false end in
          if (deadline <=? clock k (calls x))%Z then Some (if observed_running then WaitStillRunning else WaitInconclusive, tick x)
          else wait_loop fuel p deadline observed_running (tick x)
      end
  end.
Definition WaitForExit (fuel : nat) (p : PinnedProcess) (timeout : Z) (x : Exec) : option (ExitWait * Exec) :=
  wait_loop fuel p (clock k (calls x) + timeout) false (tick x).

Definition ended (o : TerminateOutcome) : TerminateResult := {| outcome := o; failed_signal := None; t_error := [] |}.
Definition failed (s : Signal) (e : bytes) : TerminateResult := {| outcome := TFailed; failed_signal := Some s; t_error := e |}.

(** From the second signal on. *)
Definition force (fuel : nat) (p : PinnedProcess) (force_timeout : Z) (x : Exec) : option (TerminateResult * Exec) :=
  '(forced, x) ← SignalProcess fuel p SIGKILL x;
  match forced with
  | SignalFailed e => Some (failed SIGKILL e, x)
  | ProcessGone => Some (ended TExited, x)
  | Delivered =>
      '(final_wait, x) ← WaitForExit fuel p force_timeout x;
      Some (ended (match final_wait with WaitExited => TExited | WaitStillRunning => TStillRunning | WaitInconclusive => TUnconfirmed end), x)
  end.
Definition TerminateGracefully (fuel : nat) (pid start_time graceful_timeout force_timeout : Z) (x : Exec) : option (TerminateResult * Exec) :=
  if (pid <=? 0)%Z || (start_time =? 0)%Z then Some (ended TNotFound, x)
  else
    let '(fd, x) := OpenPidFd pid x in
    let p := {| pin_pid := pid; pin_start := start_time; pidfd := fd |} in
    if PinObservedNoSuchProcess p then Some (ended TNotFound, x)
    else
      let '(ok, x) := Matches p x in
      if negb ok then Some (ended TNotFound, x)
      else
        '(terminate, x) ← SignalProcess fuel p SIGTERM x;
        match terminate with
        | ProcessGone => Some (ended TNotFound, x)
        | SignalFailed e => Some (failed SIGTERM e, x)
        | Delivered =>
            '(waited, x) ← WaitForExit fuel p graceful_timeout x;
            match waited with
            | WaitExited => Some (ended TExited, x)
            | _ => force fuel p force_timeout x
            end
        end.

(** *** Who is signalled *)

Lemma Probe_reached p x : reached (Probe p x).2 = reached x.
Proof.
  unfold Probe. destruct (pidfd p); [|done]. unfold ProbePinnedProcess. generalize kIdentityProbeAttempts. intros n. revert x.
  induction n as [|n IH]; intros x; [done|]. cbn [probe_loop]. destruct (probe k (calls x)); try done. by rewrite IH.
Qed.
Lemma wait_reached fuel p timeout x r : WaitForExit fuel p timeout x = Some r -> reached r.2 = reached x.
Proof.
  unfold WaitForExit. generalize (clock k (calls x) + timeout)%Z, false. intros deadline b.
  change (reached x) with (reached (tick x)). generalize (tick x). clear x. revert b.
  induction fuel as [|fuel IH]; intros b x; cbn [wait_loop]; [discriminate|].
  pose proof (Probe_reached p x) as Hp. destruct (Probe p x) as [state x1]. cbn [snd] in Hp. rewrite <- Hp.
  destruct state; [|intros [= <-]; done|]; (case_match; [by intros [= <-]|]); intros Hw; by apply IH in Hw.
Qed.
(** Through a descriptor at most one signal is sent, to the process it refers to. *)
Lemma signal_pidfd_reached fuel i s x o x' : signal_pidfd fuel i s x = Some (o, x') ->
  reached x' = reached x ++ match o with Delivered => [(i, s)] | _ => [] end.
Proof.
  revert x. induction fuel as [|fuel IH]; intros x H; [discriminate|]. cbn [signal_pidfd] in H. unfold SendSignalViaPidFd in H.
  destruct (kill_error k (calls x)) as [[| |m]|].
  - by apply IH in H.
  - injection H as <- <-. by rewrite app_nil_r.
  - injection H as <- <-. by rewrite app_nil_r.
  - destruct (reaped_by k (calls x) i); injection H as <- <-; [by rewrite app_nil_r|done].
Qed.

Lemma force_signals fuel p i timeout x res x' : pidfd p = inl i -> force fuel p timeout x = Some (res, x') ->
  exists l, reached x' = reached x ++ l /\ (l = [] \/ l = [(i, SIGKILL)]) /\ outcome res <> TNotFound.
Proof.
  intros Hp Hf. unfold force, SignalProcess in Hf. rewrite Hp in Hf.
  destruct (signal_pidfd fuel i SIGKILL x) as [[o x1]|] eqn:Es; [|discriminate]. cbn [mbind option_bind] in Hf.
  apply signal_pidfd_reached in Es. destruct o as [| |e].
  - destruct (WaitForExit fuel p timeout x1) as [[w x2]|] eqn:Ew; [|discriminate]. cbn [mbind option_bind] in Hf.
    apply wait_reached in Ew. injection Hf as <- <-. exists [(i, SIGKILL)].
    cbn [snd] in Ew. rewrite Ew. split_and!; [done|by right|by destruct w].
  - injection Hf as <- <-. exists []. split_and!; [done|by left|done].
  - injection Hf as <- <-. exists []. split_and!; [done|by left|done].
Qed.

(** What the kernel promises: it prints the start time of the process at a pid, pid and
    start time together name one process, and a process keeps its pid until it is gone. *)
Class KernelLaws := {
  start : I -> Z;
  law_stat t pid : (0 < pid)%Z -> ProcessStartTime pid (stat_file k t pid) = match table k t pid with Some i => start i | None => 0%Z end;
  law_identity t t' pid i j : table k t pid = Some i -> table k t' pid = Some j -> start i = start j -> i = j;
  law_interval t1 t2 t3 pid i : (t1 <= t2)%nat -> (t2 <= t3)%nat -> table k t1 pid = Some i -> table k t3 pid = Some i -> table k t2 pid = Some i;
}.
Context `{KernelLaws}.

Lemma Matches_recorded t0 pid start_time r p x x' :
  table k t0 pid = Some r -> start r = start_time -> pin_pid p = pid -> pin_start p = start_time ->
  Matches p x = (true, x') -> table k (calls x) pid = Some r.
Proof.
  intros Hr Hs Hp Hst Hm. unfold Matches, ProcessIdentityMatches in Hm. rewrite Hp, Hst in Hm.
  destruct (Z.leb_spec pid 0); [discriminate|]. destruct (Z.eqb_spec start_time 0); [discriminate|]. cbn [orb] in Hm.
  injection Hm as Hm _. apply Z.eqb_eq in Hm. rewrite law_stat in Hm by done.
  destruct (table k (calls x) pid) as [j|] eqn:E; [|lia]. f_equal. eapply law_identity; [exact E|exact Hr|lia].
Qed.

(** The signals of one call: to whom and which. *)
Definition stop_signals (r : I) (l : list (I * Signal)) : Prop :=
  l = [] \/ l = [(r, SIGTERM)] \/ l = [(r, SIGTERM); (r, SIGKILL)].

(** C25. Where the kernel has process descriptors, only the recorded process is ever signalled,
    however pids are reused meanwhile: first SIGTERM, then at most SIGKILL; and when the
    process is reported as not found, nobody was. *)
Theorem stop_signals_recorded fuel pid start_time graceful forced t0 r x res x' :
  table k t0 pid = Some r -> start r = start_time -> (t0 <= calls x)%nat -> open_error k (calls x) = None ->
  TerminateGracefully fuel pid start_time graceful forced x = Some (res, x') ->
  exists l, reached x' = reached x ++ l /\ stop_signals r l /\ (outcome res = TNotFound -> l = []).
Proof.
  intros Hr Hs Ht Ho H1. unfold TerminateGracefully in H1.
  destruct (_ || _); [injection H1 as <- <-; exists []; rewrite app_nil_r; unfold stop_signals; by auto|].
  unfold OpenPidFd in H1. rewrite Ho in H1.
  destruct (table k (calls x) pid) as [i|] eqn:Ei; cbn [PinObservedNoSuchProcess pidfd] in H1.
  2:{ injection H1 as <- <-. exists []. rewrite app_nil_r. unfold stop_signals. by auto. }
  set (p := {| pin_pid := pid; pin_start := start_time; pidfd := inl i |}) in H1.
  destruct (Matches p (tick x)) as [ok x1] eqn:Em.
  assert (Hx1 : reached x1 = reached x) by (injection Em as _ <-; done).
  destruct ok; cbn [negb] in H1.
  2:{ injection H1 as <- <-. exists []. rewrite app_nil_r. unfold stop_signals. by auto. }
  assert (i = r) as ->.
  { pose proof (Matches_recorded t0 pid start_time r p _ _ Hr Hs eq_refl eq_refl Em) as Hm.
    pose proof (law_interval t0 (calls x) (calls (tick x)) pid r Ht ltac:(cbn; lia) Hr Hm) as Hi. congruence. }
  destruct (SignalProcess fuel p SIGTERM x1) as [[term x2]|] eqn:Et; [|discriminate]. cbn [mbind option_bind] in H1.
  apply signal_pidfd_reached in Et. rewrite Hx1 in Et.
  destruct term as [| |e].
  - destruct (WaitForExit fuel p graceful x2) as [[waited x3]|] eqn:Ew; [|discriminate].
    cbn [mbind option_bind] in H1. apply wait_reached in Ew. cbn [snd] in Ew.
    assert (Hx3 : reached x3 = reached x ++ [(r, SIGTERM)]) by congruence.
    destruct waited; [injection H1 as <- <-; exists [(r, SIGTERM)]; unfold stop_signals; split_and!; [done|by auto|done]| |];
      (destruct (force_signals fuel p r forced x3 res x' eq_refl H1) as (l & Hl & Hcases & Ho2);
       exists ((r, SIGTERM) :: l); rewrite Hl, Hx3, <- app_assoc; unfold stop_signals; split; [done|];
       split; [destruct Hcases as [-> | ->]; by auto | by intros Hnf]).
  - injection H1 as <- <-. exists []. unfold stop_signals. by auto.
  - injection H1 as <- <-. exists []. unfold stop_signals. by auto.
Qed.
End terminate.

(** Pid 42 belongs to the process started at 100 and, from the sixth call on, to another. *)
Definition reused_table (t : nat) (pid : Z) : option Z :=
  if (pid =? 42)%Z then Some (if (t <? 6)%nat then 100 else 200)%Z else None.
Definition reusing : Kernel Z := {|
  table := reused_table;
  stat_file t pid := (fun i => stat_line pid "a (b) c" (repeat "0"%bytes 19) i "0" ++ [ch_nl]) <$> reused_table t pid;
  reaped_by t i := (6 <=? t)%nat && (i =? 100)%Z; open_error _ := None; kill_error _ := None; probe _ := PollQuiet;
  clock t := (100 * Z.of_nat t)%Z;
|}.
#[export] Program Instance reusing_laws : KernelLaws reusing := { start i := i }.
Next Obligation.
  intros t pid Hp. cbn. unfold reused_table. destruct (Z.eqb_spec pid 42) as [->|Hne]; cbn [fmap option_fmap option_map].
  - apply start_time_found; [lia|apply (bool_decide_unpack _); vm_compute; done|repeat constructor; discriminate|done|case_match; lia|apply (bool_decide_unpack _); vm_compute; done..].
  - unfold ProcessStartTime. by case_match.
Qed.
Next Obligation. done. Qed.
Next Obligation.
  intros t1 t2 t3 pid i H1 H2. cbn. unfold reused_table. case_match; [|done].
  destruct (Nat.ltb_spec t1 6), (Nat.ltb_spec t2 6), (Nat.ltb_spec t3 6); intros; simplify_eq; done || lia.
Qed.

Lemma stop_signals_recorded_witness :
  exists res x', TerminateGracefully reusing 20 42 100 300 300 {| calls := 0; reached := [] |} = Some (res, x') /\
    (exists l, reached x' = [] ++ l /\ stop_signals 100%Z l /\ (outcome res = TNotFound -> l = [])) /\ reached x' = [(100%Z, SIGTERM)].
Proof.
  eexists _, _. split; [vm_compute; reflexivity|]. split; [|vm_compute; reflexivity].
  apply (stop_signals_recorded reusing 20 42 100 300 300 0 100%Z {| calls := 0; reached := [] |});
    [vm_compute; reflexivity | reflexivity | vm_compute; lia | reflexivity | vm_compute; reflexivity].
Defined.
