(* ===== verification/ProcessRun.v ===== *)
(** * Running one command (src/src/common/utils/process_utils.cpp: [Run], [PumpProcess], the
      reaping of children)

    Each round of the pump takes what the system calls of that round answered; the list of
    answers is the schedule of the child and of the clock. Times are in milliseconds. *)

From S2P Require Import Prelude StringUtils Process ProcessSession Interpolation.
From Stdlib Require Import Ascii.

(** ** The command line and the environment *)

Definition BuildCmd (spec : CommandSpec) : list bytes := sp_command spec :: sp_args spec.

(** [environ]: entries without an equals sign are left out, a later one wins. *)
Definition environ_entry (env_map : gmap bytes bytes) (entry : bytes) : gmap bytes bytes :=
  match find_char entry "="%char with
  | Some eq_pos => <[take eq_pos entry := drop (eq_pos + 1) entry]> env_map
  | None => env_map
  end.
Definition BuildEnvMap (environ : list bytes) (getenv : bytes -> option bytes) (spec : CommandSpec) : gmap bytes bytes :=
  (InterpolateEnv getenv <$> sp_env spec) ∪ foldl environ_entry ∅ environ.

(** What the command says of a variable wins over the inherited one. *)
Lemma env_override environ getenv spec key :
  BuildEnvMap environ getenv spec !! key =
  match sp_env spec !! key with
  | Some value => Some (InterpolateEnv getenv value)
  | None => foldl environ_entry ∅ environ !! key
  end.
Proof. unfold BuildEnvMap. rewrite lookup_union, lookup_fmap. destruct (sp_env spec !! key); cbn; by destruct (foldl _ _ _ !! key). Qed.

(** ** Exit codes *)

(** The status word of waitpid: exit code or signal, and the core flag. *)
Definition exit_code_of (status : Z) : Z :=
  let term_sig := Z.land status 127 in
  if (term_sig =? 0)%Z then Z.land (Z.shiftr status 8) 255 else (128 + term_sig)%Z.
(** [answer]: what waitpid returned, the pid and the status. *)
Definition TryReapProcess (pid : Z) (answer : Z * Z) : option Z :=
  if (pid <=? 0)%Z then None else if (answer.1 =? pid)%Z then Some (exit_code_of answer.2) else None.

(** Asking a child to end, then killing it: what waitpid finds at each probe. *)
Inductive ReapAnswer := Reaped (status : Z) | NotYet | NoChild | WaitError.
Fixpoint wait_for_exit (deadline : Z) (probes : list (Z * ReapAnswer)) : bool * list (Z * ReapAnswer) :=
  match probes with
  | [] => (false, [])
  | (now, a) :: probes =>
      if (now <? deadline)%Z
      then match a with NotYet | WaitError => wait_for_exit deadline probes | Reaped _ | NoChild => (true, probes) end
      else (match a with Reaped _ => true | _ => false end, probes)
  end.
Definition TerminateProcessBounded (pid graceful_deadline : Z) (probes : list (Z * ReapAnswer)) : list Signal :=
  if (pid <=? 0)%Z then []
  else let '(gone, _) := wait_for_exit graceful_deadline probes in
       if (gone : bool) then [SIGTERM] else [SIGTERM; SIGKILL].
(** [KillAndReap]: the answers of waitpid, interrupted calls ([NotYet]) repeated. *)
Fixpoint reap_loop (answers : list ReapAnswer) : option bool :=
  match answers with
  | [] => None
  | NotYet :: answers => reap_loop answers
  | (Reaped _ | NoChild) :: _ => Some true
  | WaitError :: _ => Some false
  end.
Definition KillAndReap (pid : Z) (answers : list ReapAnswer) : option bool := if (pid <=? 0)%Z then Some true else reap_loop answers.

Inductive Ending := EndedWith (code : Z) | KilledBy (signal : Z) (core : bool).
Definition wait_status (e : Ending) : Z :=
  match e with EndedWith code => Z.shiftl code 8 | KilledBy s core => Z.lor s (if core then 128 else 0) end.
Definition normalized (e : Ending) : Z := match e with EndedWith code => code | KilledBy s _ => (128 + s)%Z end.

(** A child that ended is reported with a code between 0 and 255: its own, or 128 and the
    number of the signal that ended it. *)
Theorem exit_code_normalized pid e :
  (0 < pid)%Z -> match e with EndedWith code => (0 <= code < 256)%Z | KilledBy s _ => (0 < s < 127)%Z end ->
  TryReapProcess pid (pid, wait_status e) = Some (normalized e) /\ (0 <= normalized e < 256)%Z.
Proof.
  intros Hp He. unfold TryReapProcess. destruct (Z.leb_spec pid 0); [lia|]. cbn [fst snd]. rewrite Z.eqb_refl. unfold exit_code_of.
  change 127%Z with (Z.ones 7). change 255%Z with (Z.ones 8).
  destruct e as [code|s core]; cbn [wait_status normalized].
  - rewrite !Z.land_ones, Z.shiftl_mul_pow2 by lia. rewrite Z.shiftr_div_pow2 by lia. change (2 ^ 8)%Z with 256%Z. change (2 ^ 7)%Z with 128%Z.
    replace (code * 256)%Z with (code * 2 * 128)%Z by lia. rewrite Z.mod_mul by lia. cbn [Z.eqb].
    replace (code * 2 * 128)%Z with (code * 256)%Z by lia. rewrite Z.div_mul, Z.mod_small by lia. split; [done|lia].
  - assert (Hs : Z.land (Z.lor s (if core then 128 else 0)) (Z.ones 7) = s).
    { rewrite Z.land_lor_distr_l, (Z.land_ones s) by lia. change (2 ^ 7)%Z with 128%Z. rewrite (Z.mod_small s) by lia.
      replace (Z.land (if core then 128 else 0) (Z.ones 7)) with 0%Z by (by destruct core). apply Z.lor_0_r. }
    rewrite Hs. destruct (Z.eqb_spec s 0); [lia|]. split; [done|lia].
Qed.

(** ** The pump of one command *)

Definition kPostExitGrace : Z := 200.

Record Pump := {
  in_open : bool; out_open : bool; err_open : bool; input_closed : bool; input_offset : nat;
  p_timed_out : bool; input_incomplete : bool; child_exited : bool; child_exit_code : Z; child_exited_at : option Z;
  p_stdout : bytes; p_stderr : bytes;
  closes : nat;                               (* calls of [close_input] *)
}.
#[export] Instance Pump_fields : Fields Pump := fun p =>
  {| in_open := in_open p; out_open := out_open p; err_open := err_open p; input_closed := input_closed p;
     input_offset := input_offset p; p_timed_out := p_timed_out p; input_incomplete := input_incomplete p;
     child_exited := child_exited p; child_exit_code := child_exit_code p; child_exited_at := child_exited_at p;
     p_stdout := p_stdout p; p_stderr := p_stderr p; closes := closes p |}.

(** One round: the exit code if the child was found gone, the clock at that moment and at
    the checks, poll, and what the output channels held. *)
Record RoundAnswer := { a_exit : option Z; a_exit_time : Z; a_now : Z; a_poll : PollAnswer; a_out : DrainOutcome; a_err : DrainOutcome }.

Definition finish_input (p : Pump) : Pump :=
  let p := p <| in_open := false |> in
  if input_closed p then p else p <| input_closed := true |> <| closes := S (closes p) |>.

Section pump.
Context (input : bytes) (deadline : option Z).

(** All three pipes exist; whether they could be made non-blocking. *)
Definition pump_start (in_usable out_usable err_usable : bool) : Pump :=
  let p := {| in_open := in_usable && negb (is_empty input); out_open := out_usable; err_open := err_usable; input_closed := false;
              input_offset := 0; p_timed_out := false; input_incomplete := negb in_usable; child_exited := false;
              child_exit_code := -1; child_exited_at := None; p_stdout := []; p_stderr := []; closes := 0 |} in
  if is_empty input then finish_input p else p.

Definition observe_exit (a : RoundAnswer) (p : Pump) : Pump :=
  if child_exited p then p
  else match a_exit a with
       | None => p
       | Some code =>
           let p := p <| child_exited := true |> <| child_exit_code := code |> <| child_exited_at := Some (a_exit_time a) |> in
           if in_open p then finish_input (p <| input_incomplete := true |>) else p
       end.

(** The system never writes more than it was given. *)
Definition write_input (i : InputReady) (p : Pump) : Pump :=
  if negb (in_open p) then p
  else match i with
  | InWritten n =>
      let n := Nat.min n (length input - input_offset p) in
      if (0 <? n)%nat then
        let p := p <| input_offset := (input_offset p + n)%nat |> in
        if (length input <=? input_offset p)%nat then finish_input p else p
      else p
  | InFailed => finish_input (p <| input_incomplete := true |>)
  | InIdle | InAgain => p
  end.

Definition read_output (ready : bool) (o : DrainOutcome) (p : Pump) : Pump :=
  if out_open p && ready then p <| p_stdout := p_stdout p ++ concat (chunks o) |> <| out_open := negb (closed o) |> else p.
Definition read_error (ready : bool) (o : DrainOutcome) (p : Pump) : Pump :=
  if err_open p && ready then p <| p_stderr := p_stderr p ++ concat (chunks o) |> <| err_open := negb (closed o) |> else p.

Definition past_deadline (now : Z) : bool := match deadline with Some d => (d <=? now)%Z | None => false end.
Definition grace_over (now : Z) (p : Pump) : bool :=
  child_exited p && match child_exited_at p with Some t => (kPostExitGrace <=? now - t)%Z | None => false end.

(** A round of the loop; the flag tells whether it goes on. *)
Definition pump_round (a : RoundAnswer) (p : Pump) : bool * Pump :=
  let p := observe_exit a p in
  if past_deadline (a_now a) then
    (false, (if in_open p then p <| input_incomplete := true |> <| in_open := false |> else p) <| p_timed_out := true |>)
  else if grace_over (a_now a) p then (false, p)
  else if negb (in_open p || out_open p || err_open p) then (true, p)
  else match a_poll a with
       | PollAgain => (true, p)
       | PollFailed => (false, p)
       | PollReady i o e => (true, read_error e (a_err a) (read_output o (a_out a) (write_input i p)))
       end.

Definition pump_wanted (p : Pump) : bool := in_open p || out_open p || err_open p || negb (child_exited p).
(** [None]: the answers ran out before the loop ended. *)
Fixpoint pump_loop (answers : list RoundAnswer) (p : Pump) : option Pump :=
  if negb (pump_wanted p) then Some p
  else match answers with
       | [] => None
       | a :: answers => let '(go, p) := pump_round a p in if (go : bool) then pump_loop answers p else Some p
       end.

Definition PumpProcess (in_usable out_usable err_usable : bool) (answers : list RoundAnswer) (last_exit : option Z) : option Pump :=
  p ← pump_loop answers (pump_start in_usable out_usable err_usable);
  let p := if child_exited p then p
           else match last_exit with
                | Some code => p <| child_exited := true |> <| child_exit_code := code |>
                | None => p
                end in
  Some (finish_input p).
End pump.

(** [Run]: [spawned] is what the spawn said, [waited] what a blocking wait gives at the end. *)
Definition no_result : CommandResult :=
  {| Process.exit_code := -1; timed_out := false; launch_failed := false; stdout_text := []; stderr_text := [] |}.
Definition launch_failure (message : bytes) : CommandResult :=
  {| Process.exit_code := -1; timed_out := false; launch_failed := true; stdout_text := []; stderr_text := message |}.
Definition run_deadline (timeout_ms now : Z) : option Z := if (0 <? timeout_ms)%Z then Some (now + timeout_ms)%Z else None.
Definition Run (spec : CommandSpec) (stdin_bytes : bytes) (spawned : result Z) (usable : bool * bool * bool)
    (answers : list RoundAnswer) (last_exit : option Z) (waited : Z) : option CommandResult :=
  if is_empty (sp_command spec) then Some (launch_failure "Command is empty.")
  else match spawned with
  | Err e => Some (launch_failure e)
  | Ok now =>
      p ← PumpProcess stdin_bytes (run_deadline (sp_timeout_ms spec) now) usable.1.1 usable.1.2 usable.2 answers last_exit;
      Some {| Process.exit_code := if p_timed_out p then -1 else if child_exited p then child_exit_code p else waited;
              timed_out := p_timed_out p; launch_failed := false; stdout_text := p_stdout p; stderr_text := p_stderr p |}
  end.

(** ** What the pump guarantees *)

Record pump_inv (input : bytes) (p : Pump) : Prop := {
  pi_offset : input_offset p <= length input;
  pi_closes : closes p = if input_closed p then 1 else 0;
  pi_open : in_open p = true -> input_closed p = false /\ input_offset p < length input;
  pi_all : input_closed p = true -> input_incomplete p = false -> input_offset p = length input;
  pi_shut : in_open p = false -> input_closed p = false -> input_incomplete p = true;
  pi_exit : child_exited p = true -> in_open p = false;
}.
Lemma finish_input_inv input p : (input_closed p = false -> input_incomplete p = false -> input_offset p = length input) ->
  pump_inv input p -> pump_inv input (finish_input p).
Proof.
  intros Ha [H1 H2 H3 H4 H5 H6]. unfold finish_input. cbv zeta. change (input_closed (p <| in_open := false |>)) with (input_closed p).
  destruct (input_closed p) eqn:E; constructor; cbn; rewrite ?E, ?H2; auto; discriminate.
Qed.
Lemma pump_inv_same input p p' :
  (input_offset p', closes p', input_closed p', in_open p', input_incomplete p', child_exited p')
  = (input_offset p, closes p, input_closed p, in_open p, input_incomplete p, child_exited p) ->
  pump_inv input p -> pump_inv input p'.
Proof. intros [= E1 E2 E3 E4 E5 E6] [H1 H2 H3 H4 H5 H6]. constructor; rewrite ?E1, ?E2, ?E3, ?E4, ?E5, ?E6; auto. Qed.
Lemma pump_inv_incomplete input p : pump_inv input p -> pump_inv input (p <| input_incomplete := true |>).
Proof. intros [H1 H2 H3 H4 H5 H6]. constructor; cbn; auto. discriminate. Qed.

Lemma pump_start_inv input a b c : pump_inv input (pump_start input a b c).
Proof.
  unfold pump_start. cbv zeta. destruct (is_empty input) eqn:E.
  - apply is_empty_true in E as ->. by constructor.
  - pose proof E as E'. apply is_empty_false in E'. constructor; cbn; rewrite ?E; [lia|done| |discriminate|by destruct a|discriminate].
    intros _. split; [done|]. destruct input; [done|cbn; lia].
Qed.
Lemma observe_inv input a p : pump_inv input p -> pump_inv input (observe_exit a p).
Proof.
  intros Hi. unfold observe_exit. destruct (child_exited p); [done|]. destruct (a_exit a) as [code|]; [|done]. cbv zeta.
  destruct Hi as [H1 H2 H3 H4 H5 H6]. change (in_open (p <| child_exited := true |> <| child_exit_code := code |> <| child_exited_at := Some (a_exit_time a) |>)) with (in_open p).
  destruct (in_open p) eqn:Ho; [|by constructor; cbn; rewrite ?Ho; auto].
  destruct (H3 eq_refl) as [Hc Hl]. unfold finish_input. cbn. rewrite Hc. constructor; cbn; rewrite ?Hc in *; auto; try discriminate.
Qed.
Lemma write_inv input i p : pump_inv input p -> pump_inv input (write_input input i p).
Proof.
  intros Hi. unfold write_input. destruct (in_open p) eqn:Ho; [|done]. cbn [negb]. destruct i as [|n| |]; [done| |done|].
  - cbv zeta. set (m := Nat.min n _). destruct (Nat.ltb_spec 0 m) as [Hm|Hm]; [|done].
    destruct Hi as [H1 H2 H3 H4 H5 H6]. destruct (H3 Ho) as [Hc Hl]. set (q := p <| input_offset := _ |>).
    change (input_offset q) with (input_offset p + m). destruct (Nat.leb_spec (length input) (input_offset p + m)) as [Hle|Hlt].
    + unfold finish_input. cbn. rewrite Hc. constructor; cbn; auto; try discriminate; [lia|by rewrite H2, Hc|intros _ _; lia].
    + constructor; cbn; [lia|done|intros _; split; [done|lia]|by rewrite Hc|congruence|exact H6].
  - apply finish_input_inv; [done|]. by apply pump_inv_incomplete.
Qed.
Lemma read_inv input r o r' o' p : pump_inv input p -> pump_inv input (read_error r' o' (read_output r o p)).
Proof.
  intros Hi. unfold read_error, read_output.
  set (q := if out_open p && r then _ else p). assert (Hq : pump_inv input q) by (subst q; case_match; [by apply (pump_inv_same input p)|done]).
  clearbody q. case_match; [by apply (pump_inv_same input q)|done].
Qed.
Lemma round_inv input deadline a p : pump_inv input p -> pump_inv input (pump_round input deadline a p).2.
Proof.
  intros Hi. unfold pump_round. cbv zeta. pose proof (observe_inv input a p Hi) as Hq. set (q := observe_exit a p) in *. clearbody q.
  destruct (past_deadline _ _).
  { cbn [snd]. destruct (in_open q) eqn:Ho; [|by apply (pump_inv_same input q)].
    destruct Hq as [H1 H2 H3 H4 H5 H6]. constructor; cbn; auto; discriminate. }
  destruct (grace_over _ _); [done|]. destruct (negb _); [done|]. destruct (a_poll a); [done|done|]. cbn [snd].
  apply read_inv. by apply write_inv.
Qed.
Lemma loop_inv input deadline answers p p' : pump_loop input deadline answers p = Some p' -> pump_inv input p -> pump_inv input p'.
Proof.
  revert p. induction answers as [|a answers IH]; intros p; cbn [pump_loop]; (destruct (negb _); [by intros [= <-]|]); [discriminate|].
  intros Hl Hi. pose proof (round_inv input deadline a p Hi) as Hr. destruct (pump_round _ _ a p) as [[|] q]; [by eapply IH|].
  by injection Hl as <-.
Qed.

(** Without a failing poll the loop ends with nothing left to write. *)
Lemma loop_shut input deadline answers p p' : pump_loop input deadline answers p = Some p' -> pump_inv input p ->
  Forall (fun r => a_poll r <> PollFailed) answers -> in_open p' = false.
Proof.
  revert p. induction answers as [|a answers IH]; intros p; cbn [pump_loop]; unfold pump_wanted;
    (destruct (in_open p || out_open p || err_open p || negb (child_exited p)) eqn:Ew; cbn [negb];
     [|intros [= <-] _ _; by destruct (in_open p)]); [discriminate|].
  intros Hl Hi Hf. inversion Hf as [|? ? Ha Hf']; subst. pose proof (round_inv input deadline a p Hi) as Hr.
  destruct (pump_round input deadline a p) as [[|] q] eqn:Er; [by eapply IH|]. injection Hl as <-.
  unfold pump_round in Er. cbv zeta in Er. pose proof (observe_inv input a p Hi) as Ho. set (x := observe_exit a p) in *. clearbody x.
  destruct (past_deadline _ _); [injection Er as <-; cbn; by destruct (in_open x) eqn:?|].
  destruct (grace_over _ _) eqn:Eg.
  { injection Er as <-. apply (pi_exit input); [done|]. unfold grace_over in Eg. by destruct (child_exited x). }
  destruct (negb (in_open x || out_open x || err_open x)); [discriminate|]. by destruct (a_poll a).
Qed.

(** A command's input is closed exactly once, however the run ends, and unless writing it
    was cut short the child was given all of it: what the flag does not report is only a
    failing poll. *)
Theorem run_closes_input input deadline a b c answers last_exit p :
  PumpProcess input deadline a b c answers last_exit = Some p ->
  input_closed p = true /\ closes p = 1 /\ input_offset p <= length input /\
  (input_incomplete p = false -> Forall (fun r => a_poll r <> PollFailed) answers -> input_offset p = length input).
Proof.
  intros Hp. unfold PumpProcess in Hp. destruct (pump_loop input deadline answers _) as [q|] eqn:El; [|discriminate]. cbn [mbind option_bind] in Hp.
  pose proof (loop_inv _ _ _ _ _ El (pump_start_inv input a b c)) as [H1 H2 H3 H4 H5 H6].
  pose proof (loop_shut _ _ _ _ _ El (pump_start_inv input a b c)) as Hs.
  set (q1 := if child_exited q then q else _) in Hp.
  assert (E : (input_offset q1, closes q1, input_closed q1, in_open q1, input_incomplete q1) = (input_offset q, closes q, input_closed q, in_open q, input_incomplete q))
    by (subst q1; destruct (child_exited q), last_exit; reflexivity).
  clearbody q1. injection E as E1 E2 E3 E4 E5. injection Hp as <-. unfold finish_input. cbv zeta.
  change (input_closed (q1 <| in_open := false |>)) with (input_closed q1). rewrite E3.
  destruct (input_closed q) eqn:Ec; cbn; rewrite ?E1, ?E2, ?E3, ?E5, ?H2; (split_and!; [done|done|done|]); intros Hi Hf.
  - by apply H4.
  - by rewrite (H5 (Hs Hf) eq_refl) in Hi.
Qed.

Lemma loop_deadline input deadline answers p :
  Exists (fun a => past_deadline deadline (a_now a) = true) answers -> is_Some (pump_loop input deadline answers p).
Proof.
  intros He. revert p. induction He as [a answers Ha|a answers _ IH]; intros p; cbn [pump_loop]; (destruct (negb _); [by eexists|]).
  - unfold pump_round. cbv zeta. rewrite Ha. by eexists.
  - destruct (pump_round input deadline a p) as [[|] q]; [apply IH | by eexists].
Qed.
(** Once the child is gone the pump waits no longer than the grace for its output. *)
Lemma observe_keeps a p t : child_exited p = true -> child_exited_at p = Some t -> observe_exit a p = p.
Proof. intros He _. unfold observe_exit. by rewrite He. Qed.
Lemma round_keeps input deadline a p q t : child_exited p = true -> child_exited_at p = Some t ->
  pump_round input deadline a p = (true, q) -> child_exited q = true /\ child_exited_at q = Some t.
Proof.
  intros He Ht. unfold pump_round. rewrite (observe_keeps a p t) by done. cbv zeta.
  destruct (past_deadline _ _); [discriminate|]. destruct (grace_over _ _); [discriminate|].
  destruct (negb _); [by intros [= <-]|]. destruct (a_poll a) as [| |i o e]; [by intros [= <-]|discriminate|]. intros [= <-].
  unfold read_error, read_output, write_input, finish_input. cbv zeta. repeat case_match; done.
Qed.
Lemma loop_exited input deadline answers p t : child_exited p = true -> child_exited_at p = Some t ->
  Exists (fun a => (t + kPostExitGrace <= a_now a)%Z) answers -> is_Some (pump_loop input deadline answers p).
Proof.
  intros Hc Ht He. revert p Hc Ht. induction He as [a answers Ha|a answers _ IH]; intros p Hc Ht; cbn [pump_loop]; (destruct (negb _); [by eexists|]).
  - unfold pump_round. rewrite (observe_keeps a p t) by done. cbv zeta. destruct (past_deadline _ _); [by eexists|].
    unfold grace_over. rewrite Hc, Ht. destruct (Z.leb_spec kPostExitGrace (a_now a - t)); [by eexists|lia].
  - destruct (pump_round input deadline a p) as [[|] q] eqn:Er; [|by eexists]. destruct (round_keeps _ _ _ _ _ _ Hc Ht Er). by apply IH.
Qed.

(** [Run] returns when its time is over, whatever the child does with its pipes, and a run
    that did not time out carries the exit code the child ended with. *)
Theorem run_returns spec stdin now usable answers last_exit waited :
  sp_command spec <> [] -> (0 < sp_timeout_ms spec)%Z ->
  Exists (fun a => (now + sp_timeout_ms spec <= a_now a)%Z) answers ->
  exists r p, Run spec stdin (Ok now) usable answers last_exit waited = Some r /\
    PumpProcess stdin (Some (now + sp_timeout_ms spec)%Z) usable.1.1 usable.1.2 usable.2 answers last_exit = Some p /\
    launch_failed r = false /\ timed_out r = p_timed_out p /\ stdout_text r = p_stdout p /\
    Process.exit_code r = (if p_timed_out p then -1 else if child_exited p then child_exit_code p else waited)%Z.
Proof.
  intros Hc Ht He. unfold Run. apply is_empty_false in Hc. rewrite Hc. unfold run_deadline. rewrite (proj2 (Z.ltb_lt _ _) Ht).
  unfold PumpProcess. destruct (loop_deadline stdin (Some (now + sp_timeout_ms spec)%Z) answers (pump_start stdin usable.1.1 usable.1.2 usable.2)) as [q Hq].
  { eapply Exists_impl; [exact He|]. intros a Ha. by apply Z.leb_le. }
  rewrite Hq. cbn [mbind option_bind]. eexists _, _. by split_and!.
Qed.

(** ** A child that reads, answers and exits *)

Definition reads_then_exits : list RoundAnswer := [
  {| a_exit := None; a_exit_time := 0; a_now := 1; a_poll := PollReady (InWritten 2) false false; a_out := {| chunks := []; closed := false |}; a_err := {| chunks := []; closed := false |} |};
  {| a_exit := None; a_exit_time := 0; a_now := 2; a_poll := PollReady (InWritten 9) true false; a_out := {| chunks := ["te"%bytes; "xt"%bytes]; closed := true |}; a_err := {| chunks := []; closed := false |} |};
  {| a_exit := Some 0%Z; a_exit_time := 3; a_now := 3; a_poll := PollReady InIdle false true; a_out := {| chunks := []; closed := false |}; a_err := {| chunks := []; closed := true |} |};
  {| a_exit := None; a_exit_time := 0; a_now := 5000; a_poll := PollAgain; a_out := {| chunks := []; closed := false |}; a_err := {| chunks := []; closed := false |} |} ].
Definition recognise : CommandSpec := {| sp_command := "asr"; sp_args := []; sp_env := ∅; sp_timeout_ms := 1000 |}.

Lemma run_closes_input_witness :
  exists p, PumpProcess "audio" (Some 1000%Z) true true true reads_then_exits None = Some p /\ closes p = 1 /\ input_offset p = 5.
Proof.
  eexists. split; [vm_compute; reflexivity|].
  destruct (run_closes_input "audio" (Some 1000%Z) true true true reads_then_exits None
    (match PumpProcess "audio" (Some 1000%Z) true true true reads_then_exits None with Some p => p | None => pump_start [] true true true end))
    as (_ & Hc & _ & Ha); [vm_compute; reflexivity|].
  split; [exact Hc|]. apply Ha; [vm_compute; reflexivity | repeat constructor; discriminate].
Defined.
Lemma run_returns_witness :
  exists r p, Run recognise "audio" (Ok 0%Z) (true, true, true) reads_then_exits None 0 = Some r /\ p_timed_out p = false /\
    stdout_text r = "text"%bytes /\ Process.exit_code r = 0%Z.
Proof.
  destruct (run_returns recognise "audio" 0 (true, true, true) reads_then_exits None 0) as (r & p & Hr & Hp & _ & _ & Ho & Hx);
    [discriminate | reflexivity | do 3 apply Exists_cons_tl; apply Exists_cons_hd; vm_compute; discriminate|].
  exists r, p. split; [exact Hr|]. assert (E := Hp). vm_compute in E. injection E as E.
  assert (Hpt : p_timed_out p = false) by (rewrite <- E; reflexivity). split; [exact Hpt|].
  split; [rewrite Ho, <- E; reflexivity | rewrite Hx, Hpt, <- E; reflexivity].
Defined.
Lemma exit_code_normalized_witness : TryReapProcess 7 (7, wait_status (KilledBy 9 true))%Z = Some 137%Z.
Proof. destruct (exit_code_normalized 7 (KilledBy 9 true)) as [H _]; [lia | lia | exact H]. Defined.
