(* ===== verification/Scene.v ===== *)
(** * Scenes (src/src/common/scene/postprocess_scene.cpp)

    A scene is a post-processing recipe; the scene configuration is an ordered
    list of definitions with an active one. *)

From S2P Require Import Prelude.

Definition kMinLlmMaxCandidates : Z := 0.
Definition kMaxLlmMaxCandidates : Z := 9.
Definition kDefaultLlmMaxCandidates : Z := 1.
Definition kDefaultTimeoutMs : Z := 4000.
Definition kDefaultContextLines : Z := 0.
Definition kRawSceneId : bytes := "__raw__".
Definition kCommandSceneId : bytes := "__command__".
Definition kRawSceneLabelKey : bytes := "__label_raw__".
Definition kCommandSceneLabelKey : bytes := "__label_command__".

Record Scene := {
  sc_id : bytes;
  sc_label : bytes;
  sc_prompt : bytes;
  sc_provider_id : bytes;
  sc_model : bytes;
  llm_max_candidates : Z;
  timeout_ms : Z;
  context_lines : Z;
  raw_cand : bool;
  raw_prev : bool;
  builtin : bool;
}.

#[export] Instance Scene_eq_dec : EqDecision Scene.
Proof. solve_decision. Defined.
#[export] Instance Scene_fields : Fields Scene :=
  fun s => Build_Scene (sc_id s) (sc_label s) (sc_prompt s) (sc_provider_id s) (sc_model s) (llm_max_candidates s) (timeout_ms s)
             (context_lines s) (raw_cand s) (raw_prev s) (builtin s).

Definition default_scene : Scene :=
  {| sc_id := []; sc_label := []; sc_prompt := []; sc_provider_id := []; sc_model := [];
     llm_max_candidates := kDefaultLlmMaxCandidates; timeout_ms := kDefaultTimeoutMs;
     context_lines := kDefaultContextLines; raw_cand := true; raw_prev := true;
     builtin := false |}.

Record SceneConfig := { activeSceneId : bytes; scenes : list Scene }.

Definition NormalizeLlmMaxCandidates (n : Z) : Z :=
  if (n <? kMinLlmMaxCandidates)%Z then kMinLlmMaxCandidates
  else if (kMaxLlmMaxCandidates <? n)%Z then kMaxLlmMaxCandidates
  else n.

Definition IsBuiltinSceneId (id : bytes) : bool :=
  (id =b kRawSceneId) || (id =b kCommandSceneId).
Definition IsBuiltinSceneLabelKey (label : bytes) : bool :=
  (label =b kRawSceneLabelKey) || (label =b kCommandSceneLabelKey).

Definition NormalizeDefinition (s : Scene) : Scene :=
  {| sc_id := sc_id s; sc_label := sc_label s; sc_prompt := sc_prompt s;
     sc_provider_id := sc_provider_id s; sc_model := sc_model s;
     llm_max_candidates := NormalizeLlmMaxCandidates (llm_max_candidates s);
     timeout_ms := if (timeout_ms s <=? 0)%Z then kDefaultTimeoutMs else timeout_ms s;
     context_lines := Z.max (context_lines s) 0;
     raw_cand := raw_cand s; raw_prev := raw_prev s;
     builtin := if IsBuiltinSceneId (sc_id s) then true else builtin s |}.

Definition ValidateDefinition (s : Scene) (require_id : bool) : result unit :=
  if require_id && is_empty (sc_id s) then Err "Scene id must not be empty."
  else if (llm_max_candidates s <? 0)%Z then Err "Scene LLM max candidates must be 0 or greater."
  else if (timeout_ms s <=? 0)%Z then Err "Scene timeout must be greater than 0."
  else if negb (Bool.eqb (negb (is_empty (sc_provider_id s))) (negb (is_empty (sc_model s))))
  then Err "Scene provider and model must be configured together."
  else Ok tt.

Definition FindScene (l : list Scene) (id : bytes) : option Scene :=
  snd <$> list_find (fun s => sc_id s = id) l.

Definition Resolve (c : SceneConfig) (id : bytes) : Scene :=
  match FindScene (scenes c) id with
  | Some s => s
  | None => match FindScene (scenes c) (activeSceneId c) with
            | Some s => s
            | None => default_scene
            end
  end.

Definition BuiltinSceneLabel (id : bytes) : option bytes :=
  if id =b kRawSceneId then Some "Raw" else if id =b kCommandSceneId then Some "Command" else None.
Definition BuiltinSceneLabelFromKey (label : bytes) : option bytes :=
  if label =b kRawSceneLabelKey then Some "Raw"
  else if label =b kCommandSceneLabelKey then Some "Command" else None.

Definition DisplayLabel (s : Scene) : bytes :=
  match BuiltinSceneLabelFromKey (sc_label s) with
  | Some l => l
  | None => if negb (is_empty (sc_label s)) then sc_label s
            else match BuiltinSceneLabel (sc_id s) with Some l => l | None => sc_id s end
  end.

Definition AddScene (c : SceneConfig) (def : Scene) : result SceneConfig :=
  let normalized := NormalizeDefinition def in
  let! _ := ValidateDefinition normalized true in
  match FindScene (scenes c) (sc_id normalized) with
  | Some _ => Err ("Scene id '" ++ sc_id normalized ++ "' already exists.")
  | None => Ok {| activeSceneId := activeSceneId c; scenes := scenes c ++ [normalized] |}
  end.

(** The edited fields of [UpdateScene]: id and builtin flag are kept. *)
Definition edit_scene (s def : Scene) : Scene :=
  NormalizeDefinition
    {| sc_id := sc_id s; sc_label := sc_label def; sc_prompt := sc_prompt def;
       sc_provider_id := sc_provider_id def; sc_model := sc_model def;
       llm_max_candidates := llm_max_candidates def; timeout_ms := timeout_ms def;
       context_lines := context_lines def; raw_cand := raw_cand def;
       raw_prev := raw_prev def; builtin := builtin s |}.

Definition UpdateScene (c : SceneConfig) (id : bytes) (def : Scene) : result SceneConfig :=
  match list_find (fun s => sc_id s = id) (scenes c) with
  | Some (i, s) =>
      let updated := edit_scene s def in
      let! _ := ValidateDefinition updated true in
      Ok {| activeSceneId := activeSceneId c; scenes := <[i := updated]> (scenes c) |}
  | None => Err ("Scene id '" ++ id ++ "' not found.")
  end.

(** [config->scenes.empty() ? empty : config->scenes.front().id] *)
Definition front_id (l : list Scene) : bytes := match l with [] => [] | s :: _ => sc_id s end.

Definition RemoveScene (c : SceneConfig) (id : bytes) (force : bool) : result SceneConfig :=
  if match FindScene (scenes c) id with Some s => builtin s | None => false end
  then Err ("Cannot remove built-in scene '" ++ id ++ "'.")
  else if negb force && (activeSceneId c =b id)
  then Err ("Cannot remove active scene '" ++ id ++ "'.")
  else
    match list_find (fun s => sc_id s = id) (scenes c) with
    | Some (i, _) =>
        let rest := delete i (scenes c) in
        Ok {| activeSceneId :=
                if activeSceneId c =b id
                then front_id rest
                else activeSceneId c;
              scenes := rest |}
    | None => Err ("Scene id '" ++ id ++ "' not found.")
    end.

Definition SetActiveScene (c : SceneConfig) (id : bytes) : result SceneConfig :=
  match FindScene (scenes c) id with
  | None => Err ("Scene id '" ++ id ++ "' not found.")
  | Some _ => Ok {| activeSceneId := id; scenes := scenes c |}
  end.

Definition ClearProviderReferences (c : SceneConfig) (provider_id : bytes) : Z * SceneConfig :=
  if is_empty provider_id then (0%Z, c)
  else
    (Z.of_nat (length (filter (fun s => sc_provider_id s = provider_id) (scenes c))),
     {| activeSceneId := activeSceneId c;
        scenes := (fun s =>
          if sc_provider_id s =b provider_id then
            {| sc_id := sc_id s; sc_label := sc_label s; sc_prompt := sc_prompt s;
               sc_provider_id := []; sc_model := [];
               llm_max_candidates := llm_max_candidates s; timeout_ms := timeout_ms s;
               context_lines := context_lines s; raw_cand := raw_cand s;
               raw_prev := raw_prev s; builtin := builtin s |}
          else s) <$> scenes c |}).

(** ** Well-formed scene configurations *)

Record scene_ok (s : Scene) : Prop := {
  so_valid : ValidateDefinition s true = Ok tt;
  so_normal : NormalizeDefinition s = s;
}.

Record config_ok (c : SceneConfig) : Prop := {
  co_unique : NoDup (sc_id <$> scenes c);
  co_scenes : Forall scene_ok (scenes c);
  co_raw : kRawSceneId ∈ sc_id <$> scenes c;
  co_command : kCommandSceneId ∈ sc_id <$> scenes c;
  co_active : activeSceneId c = [] \/ activeSceneId c ∈ sc_id <$> scenes c;
}.

Lemma NormalizeLlmMaxCandidates_range n : (0 <= NormalizeLlmMaxCandidates n <= 9)%Z.
Proof.
  unfold NormalizeLlmMaxCandidates, kMinLlmMaxCandidates, kMaxLlmMaxCandidates.
  destruct (Z.ltb_spec n 0); [lia|]. destruct (Z.ltb_spec 9 n); lia.
Qed.

Lemma NormalizeDefinition_idemp s : NormalizeDefinition (NormalizeDefinition s) = NormalizeDefinition s.
Proof.
  unfold NormalizeDefinition; simpl. pose proof (NormalizeLlmMaxCandidates_range (llm_max_candidates s)) as H.
  f_equal.
  - unfold NormalizeLlmMaxCandidates at 1, kMinLlmMaxCandidates, kMaxLlmMaxCandidates.
    destruct (Z.ltb_spec (NormalizeLlmMaxCandidates (llm_max_candidates s)) 0); [lia|].
    destruct (Z.ltb_spec 9 (NormalizeLlmMaxCandidates (llm_max_candidates s))); lia.
  - destruct (Z.leb_spec (timeout_ms s) 0); [done|]. destruct (Z.leb_spec (timeout_ms s) 0); lia.
  - lia.
  - by destruct (IsBuiltinSceneId (sc_id s)).
Qed.

Lemma scene_ok_normalized s :
  ValidateDefinition (NormalizeDefinition s) true = Ok tt -> scene_ok (NormalizeDefinition s).
Proof. intros H. split; [done|apply NormalizeDefinition_idemp]. Qed.

Lemma FindScene_None l id : FindScene l id = None <-> id ∉ sc_id <$> l.
Proof.
  unfold FindScene. rewrite fmap_None, list_find_None, Forall_forall, list_elem_of_fmap. naive_solver.
Qed.

Lemma FindScene_Some l id s : FindScene l id = Some s -> s ∈ l /\ sc_id s = id.
Proof.
  unfold FindScene. intros H. apply fmap_Some in H as ([i s'] & Hf & ->).
  apply list_find_Some in Hf as (Hi & Hid & _). eauto using list_elem_of_lookup_2.
Qed.

(** A list of ids is unchanged by replacing an entry by one of the same id. *)
Lemma insert_same_id (l : list Scene) (i : nat) s s' :
  l !! i = Some s -> sc_id s' = sc_id s -> sc_id <$> <[i := s']> l = sc_id <$> l.
Proof.
  intros Hi Hid. rewrite list_fmap_insert, Hid. apply list_insert_id.
  by rewrite list_lookup_fmap, Hi.
Qed.

Lemma builtin_flag s : scene_ok s -> IsBuiltinSceneId (sc_id s) = true -> builtin s = true.
Proof. intros [_ Hn] Hb. rewrite <-Hn. simpl. by rewrite Hb. Qed.

Lemma fmap_delete_ids (l : list Scene) (i : nat) s id :
  l !! i = Some s -> id ∈ sc_id <$> l -> id <> sc_id s -> id ∈ sc_id <$> delete i l.
Proof.
  intros Hi Hin Hne. rewrite <-(take_drop_middle l i s Hi), fmap_app, fmap_cons in Hin.
  rewrite delete_take_drop, fmap_app. set_solver.
Qed.

(** ** Editing a scene configuration *)

Inductive scene_op :=
  | OpAdd (def : Scene)
  | OpUpdate (id : bytes) (def : Scene)
  | OpRemove (id : bytes) (force : bool)
  | OpSetActive (id : bytes)
  | OpClearProvider (provider_id : bytes).

Definition run_scene_op (c : SceneConfig) (o : scene_op) : result SceneConfig :=
  match o with
  | OpAdd def => AddScene c def
  | OpUpdate id def => UpdateScene c id def
  | OpRemove id force => RemoveScene c id force
  | OpSetActive id => SetActiveScene c id
  | OpClearProvider p => Ok (snd (ClearProviderReferences c p))
  end.

(** A sequence of edits; a rejected edit leaves the configuration as it was. *)
Fixpoint edit_scenes (c : SceneConfig) (ops : list scene_op) : SceneConfig :=
  match ops with
  | [] => c
  | o :: ops => edit_scenes (match run_scene_op c o with Ok c' => c' | Err _ => c end) ops
  end.

Lemma AddScene_ok c def c' : config_ok c -> AddScene c def = Ok c' -> config_ok c'.
Proof.
  intros [Hu Hs Hr Hc Ha]. unfold AddScene.
  intros ([] & Hv & H)%result_bind_Ok. destruct (FindScene _ _) eqn:Hf; [done|].
  simplify_eq/=. apply FindScene_None in Hf. simpl in Hf.
  split; simpl; rewrite ?fmap_app; simpl.
  - apply NoDup_app. split; [done|]. split; [|apply NoDup_singleton]. set_solver.
  - apply Forall_app. split; [done|]. constructor; [by apply scene_ok_normalized|constructor].
  - set_solver.
  - set_solver.
  - destruct Ha; [by left|right; set_solver].
Qed.

Lemma UpdateScene_ok c id def c' : config_ok c -> UpdateScene c id def = Ok c' -> config_ok c'.
Proof.
  intros [Hu Hs Hr Hc Ha]. unfold UpdateScene. destruct (list_find _ _) as [[i s]|] eqn:Hf; [|done].
  intros ([] & Hv & H)%result_bind_Ok. simplify_eq/=.
  apply list_find_Some in Hf as (Hi & Hid & _).
  split; simpl; rewrite ?(insert_same_id _ _ s) by done; try done.
  by apply Forall_insert; [|apply scene_ok_normalized].
Qed.

Lemma head_id_or_empty (l : list Scene) : front_id l = [] \/ front_id l ∈ sc_id <$> l.
Proof. destruct l; [by left|right; simpl; constructor]. Qed.

Lemma RemoveScene_ok c id force c' : config_ok c -> RemoveScene c id force = Ok c' -> config_ok c'.
Proof.
  intros [Hu Hs Hr Hc Ha]. unfold RemoveScene.
  destruct (match FindScene (scenes c) id with Some s => builtin s | None => false end) eqn:Hb; [done|].
  destruct (_ && _); [done|]. destruct (list_find _ _) as [[i s]|] eqn:Hf; [|done].
  intros [= <-]. assert (FindScene (scenes c) id = Some s) as Hfs by (unfold FindScene; by rewrite Hf).
  rewrite Hfs in Hb. apply list_find_Some in Hf as (Hi & Hid & _).
  assert (scene_ok s) as Hsok by by eapply Forall_lookup_1.
  assert (IsBuiltinSceneId (sc_id s) = false) as Hnb.
  { destruct (IsBuiltinSceneId (sc_id s)) eqn:E; [|done]. by rewrite builtin_flag in Hb. }
  apply orb_false_iff in Hnb as [?%bool_decide_eq_false ?%bool_decide_eq_false].
  split; simpl.
  - eapply sublist_NoDup; [exact Hu|]. apply fmap_sublist, sublist_delete.
  - by apply Forall_delete.
  - eapply fmap_delete_ids; eauto.
  - eapply fmap_delete_ids; eauto.
  - case_bool_decide; [apply head_id_or_empty|].
    destruct Ha; [by left|]. right. eapply fmap_delete_ids; eauto. congruence.
Qed.

Lemma SetActiveScene_ok c id c' : config_ok c -> SetActiveScene c id = Ok c' -> config_ok c'.
Proof.
  intros [Hu Hs Hr Hc Ha]. unfold SetActiveScene. destruct (FindScene _ _) eqn:Hf; [|done].
  intros [= <-]. apply FindScene_Some in Hf as [Hin <-].
  split; simpl; try done. right. by apply list_elem_of_fmap_2.
Qed.

Lemma ClearProviderReferences_ok c p : config_ok c -> config_ok (snd (ClearProviderReferences c p)).
Proof.
  intros [Hu Hs Hr Hc Ha]. unfold ClearProviderReferences. destruct (is_empty p); [by split|].
  assert (forall f, (forall s, sc_id (f s) = sc_id s) -> sc_id <$> (f <$> scenes c) = sc_id <$> scenes c) as Hids.
  { intros f Hf. rewrite <-list_fmap_compose. apply list_fmap_ext. intros _ s _. apply Hf. }
  split; simpl; rewrite ?Hids by (intros s; by case_bool_decide); try done.
  apply Forall_fmap. eapply Forall_impl; [exact Hs|]. intros s [Hv Hn]. simpl.
  case_bool_decide; [|by split]. split.
  - unfold ValidateDefinition in *; simpl in *. clear Hn Hids. crush.
  - clear Hv. destruct s. unfold NormalizeDefinition in *; simpl in *. injection Hn as E1 E2 E3 E4. f_equal; done.
Qed.

Lemma run_scene_op_ok c o c' : config_ok c -> run_scene_op c o = Ok c' -> config_ok c'.
Proof.
  destruct o; simpl; eauto using AddScene_ok, UpdateScene_ok, RemoveScene_ok, SetActiveScene_ok.
  intros Hok [= <-]. by apply ClearProviderReferences_ok.
Qed.

(** Every sequence of scene edits, accepted or rejected, keeps the scene
    configuration well formed: ids stay unique, every definition is valid and
    normalised, the two built-in scenes can never be lost, and the active scene
    is either unset or one of the scenes. *)
Theorem edit_scenes_ok c ops : config_ok c -> config_ok (edit_scenes c ops).
Proof.
  revert c. induction ops as [|o ops IH]; intros c Hc; simpl; [done|].
  apply IH. destruct (run_scene_op c o) eqn:E; eauto using run_scene_op_ok.
Qed.

Definition sample_scene (id prov model : bytes) : Scene :=
  NormalizeDefinition
    {| sc_id := id; sc_label := []; sc_prompt := "p"; sc_provider_id := prov; sc_model := model;
       llm_max_candidates := 12; timeout_ms := 0; context_lines := -3; raw_cand := true;
       raw_prev := false; builtin := false |}.
Definition sample_scenes : SceneConfig :=
  {| activeSceneId := kRawSceneId;
     scenes := [sample_scene kRawSceneId [] []; sample_scene kCommandSceneId "p1" "m"] |}.

Lemma sample_scenes_ok : config_ok sample_scenes.
Proof.
  split; [apply (bool_decide_unpack _); vm_compute; exact I
         |repeat constructor
         |apply (bool_decide_unpack _); vm_compute; exact I
         |apply (bool_decide_unpack _); vm_compute; exact I
         |right; apply (bool_decide_unpack _); vm_compute; exact I].
Qed.

Lemma edit_scenes_ok_witness :
  config_ok (edit_scenes sample_scenes
    [OpAdd (sample_scene "mail" "p1" "m"); OpSetActive "mail"; OpRemove "mail" false;
     OpRemove kRawSceneId true; OpClearProvider "p1"; OpRemove "mail" true]) /\
  scenes (edit_scenes sample_scenes
    [OpAdd (sample_scene "mail" "p1" "m"); OpSetActive "mail"; OpRemove "mail" false;
     OpRemove kRawSceneId true; OpClearProvider "p1"; OpRemove "mail" true])
  = [sample_scene kRawSceneId [] []; sample_scene kCommandSceneId [] []].
Proof. split; [apply edit_scenes_ok, sample_scenes_ok|vm_compute; reflexivity]. Defined.
