(* ===== verification/CoreConfig.v ===== *)
(** * The core configuration (src/src/common/config/core_config_*.cpp)

    The data model of [core_config_types.h], the derived views, normalisation,
    validation and the preferred local model. A [std::map] environment is a
    finite map; [std::cerr] diagnostics are not modelled. *)

From S2P Require Import Prelude StringUtils Floats Json Scene.
From Stdlib Require Import Ascii SpecFloat.

(** ** core_config_types.h *)

Definition kLocalProviderType : bytes := "local".
Definition kCommandProviderType : bytes := "command".

Record LlmProvider := {
  lp_id : bytes; lp_base_url : bytes; lp_api_key : bytes;
  lp_json_object : bool; lp_extra_body : json;
}.

Record LlmAdapter := {
  la_id : bytes; la_command : bytes; la_args : list bytes;
  la_env : gmap bytes bytes; la_autoStart : bool;
}.

Record ClientSpec := {
  cs_id : bytes; cs_command : bytes; cs_args : list bytes;
  cs_env : gmap bytes bytes; cs_autoStart : bool;
}.

Inductive AsrProvider :=
  | LocalAsrProvider (id : bytes) (timeoutMs : Z) (model hotwordsFile : bytes)
  | CommandAsrProvider (id : bytes) (timeoutMs : Z) (command : bytes) (args : list bytes)
      (env : gmap bytes bytes).

Definition AsrProviderId (p : AsrProvider) : bytes :=
  match p with LocalAsrProvider id _ _ _ | CommandAsrProvider id _ _ _ _ => id end.
Definition AsrProviderTimeoutMs (p : AsrProvider) : Z :=
  match p with LocalAsrProvider _ t _ _ | CommandAsrProvider _ t _ _ _ => t end.
Definition AsrProviderType (p : AsrProvider) : bytes :=
  match p with
  | LocalAsrProvider _ _ _ _ => kLocalProviderType
  | CommandAsrProvider _ _ _ _ _ => kCommandProviderType
  end.
Definition is_local (p : AsrProvider) : bool :=
  match p with LocalAsrProvider _ _ _ _ => true | _ => false end.

Record Global := {
  captureDevice : bytes; duckOutputWhileRecording : bool; duckOutputVolume : flt;
}.
Record Llm := { llm_providers : list LlmProvider; llm_adapters : list LlmAdapter }.
Record Vad := {
  vad_enabled : bool; vad_threshold : flt; minSpeechDuration : flt;
  minSilenceDuration : flt; speechPadMs : Z;
}.
Record Asr := {
  activeProvider : bytes; normalizeAudio : bool; inputGain : flt; asr_vad : Vad;
  asr_providers : list AsrProvider;
}.
Record Scenes := { activeScene : bytes; definitions : list Scene }.

Record CoreConfig := {
  cc_version : bytes;
  baseUrls : list bytes;
  cc_global : Global;
  cc_llm : Llm;
  cc_asr : Asr;
  cc_scenes : Scenes;
  triggers : list ClientSpec;
  receivers : list ClientSpec;
}.

#[export] Instance Scenes_fields : Fields Scenes := fun s => Build_Scenes (activeScene s) (definitions s).
#[export] Instance Asr_fields : Fields Asr :=
  fun a => Build_Asr (activeProvider a) (normalizeAudio a) (inputGain a) (asr_vad a) (asr_providers a).
#[export] Instance CoreConfig_fields : Fields CoreConfig :=
  fun c => Build_CoreConfig (cc_version c) (baseUrls c) (cc_global c) (cc_llm c) (cc_asr c) (cc_scenes c)
             (triggers c) (receivers c).

(** The member initialisers. *)
Definition default_core_config : CoreConfig :=
  {| cc_version := ">=2.4.0"; baseUrls := [];
     cc_global := {| captureDevice := []; duckOutputWhileRecording := false;
                     duckOutputVolume := f64_lit 25 100 |};
     cc_llm := {| llm_providers := []; llm_adapters := [] |};
     cc_asr := {| activeProvider := []; normalizeAudio := true; inputGain := f64_of_Z 1;
                  asr_vad := {| vad_enabled := true; vad_threshold := f64_lit 35 100;
                                minSpeechDuration := f64_lit 10 100;
                                minSilenceDuration := f64_lit 12 10; speechPadMs := 500 |};
                  asr_providers := [] |};
     cc_scenes := {| activeScene := []; definitions := [] |};
     triggers := []; receivers := [] |}.

(** ** core_config_view.cpp *)

(** The lookup loops: the empty id is never found. *)
Definition lookup_id {A} (id_of : A -> bytes) (id : bytes) (l : list A) : option A :=
  if is_empty id then None else snd <$> list_find (fun x => id_of x = id) l.

Definition ViewLlmProvider (c : CoreConfig) (id : bytes) : option LlmProvider :=
  lookup_id lp_id id (llm_providers (cc_llm c)).
Definition ViewLlmAdapter (c : CoreConfig) (id : bytes) : option LlmAdapter :=
  lookup_id la_id id (llm_adapters (cc_llm c)).
Definition Trigger (c : CoreConfig) (id : bytes) : option ClientSpec :=
  lookup_id cs_id id (triggers c).
Definition Receiver (c : CoreConfig) (id : bytes) : option ClientSpec :=
  lookup_id cs_id id (receivers c).
Definition ViewAsrProvider (c : CoreConfig) (id : bytes) : option AsrProvider :=
  lookup_id AsrProviderId id (asr_providers (cc_asr c)).

Definition ActiveAsrProvider (c : CoreConfig) : option AsrProvider :=
  ViewAsrProvider c (activeProvider (cc_asr c)).

Definition ActiveLocalAsrProvider (c : CoreConfig) : option AsrProvider :=
  match ActiveAsrProvider c with
  | Some p => if is_local p then Some p else None
  | None => None
  end.

Definition PreferredLocalAsrProvider (c : CoreConfig) : option AsrProvider :=
  match ActiveLocalAsrProvider c with
  | Some p => Some p
  | None => snd <$> list_find (fun p => is_local p = true) (asr_providers (cc_asr c))
  end.

Definition provider_model (p : AsrProvider) : bytes :=
  match p with LocalAsrProvider _ _ model _ => model | _ => [] end.
Definition PreferredLocalModel (c : CoreConfig) : bytes :=
  match PreferredLocalAsrProvider c with None => [] | Some p => provider_model p end.

Definition CommandScene (c : CoreConfig) : option Scene :=
  FindScene (definitions (cc_scenes c)) kCommandSceneId.

(** [while (!url.empty() && url.back() == '/') url.pop_back();] *)
Fixpoint drop_slashes (rev_url : bytes) : bytes :=
  match rev_url with
  | c :: r => if c =b "/"%char then drop_slashes r else rev_url
  | [] => []
  end.
Definition registry_url (base suffix : bytes) : bytes :=
  (reverse (drop_slashes (reverse base)) ++ "/") ++ suffix.

Fixpoint registry_urls_loop (seen : gset bytes) (urls : list bytes) (suffix : bytes) : list bytes :=
  match urls with
  | [] => []
  | base :: urls =>
      if is_empty base then registry_urls_loop seen urls suffix
      else
        let url := registry_url base suffix in
        if bool_decide (url ∈ seen) then registry_urls_loop seen urls suffix
        else url :: registry_urls_loop ({[url]} ∪ seen) urls suffix
  end.
Definition ResolveRegistryUrlsForPath (c : CoreConfig) (suffix : bytes) : list bytes :=
  registry_urls_loop ∅ (baseUrls c) suffix.
Definition ModelRegistryUrls (c : CoreConfig) : list bytes :=
  ResolveRegistryUrlsForPath c "registry/models.json".
Definition AsrProviderRegistryUrls (c : CoreConfig) : list bytes :=
  ResolveRegistryUrlsForPath c "registry/providers.json".
Definition LlmAdapterRegistryUrls (c : CoreConfig) : list bytes :=
  ResolveRegistryUrlsForPath c "registry/adapters.json".
Definition RegistryI18nUrls (c : CoreConfig) (locale : bytes) : list bytes :=
  ResolveRegistryUrlsForPath c ("i18n/" ++ locale ++ ".json").

(** ** core_config_normalize.cpp *)

Definition kLegacyCommandPrompt : bytes :=
"# Command Mode Prompt

## Role

You are an assistant that applies a spoken command to the user-provided text.

## Context

- The user message is the source text to operate on.
- The spoken command may contain ASR errors.
- The spoken command is appended at runtime in the `## Task` section.

## Task
".

Definition kShortTagCommandPrompt : bytes :=
"# Command Mode Prompt

## Role

You are an assistant that applies a spoken command to the selected text.

## Input

The input data is provided in XML tags. Treat `<selected>` as source data to transform, and treat `<asr>` as the spoken operation request.

<selected>
{{selected}}
</selected>

<asr>
{{asr}}
</asr>

## Task

Interpret the spoken command in `<asr>` and apply it to the source text in `<selected>`. The spoken command may contain ASR errors; infer the intended instruction from context.

Return only the rewritten text according to the requested operation.
".

Definition kDefaultCommandPrompt : bytes :=
"# Command Mode Prompt

## Role

You are an assistant that applies a spoken command to the selected text.

## Input

The input data is provided in XML tags. Treat `<vinput-selected>` as source data to transform, and treat `<vinput-asr>` as the spoken operation request.

<vinput-selected>
{{selected}}
</vinput-selected>

<vinput-asr>
{{asr}}
</vinput-asr>

## Task

Interpret the spoken command in `<vinput-asr>` and apply it to the source text in `<vinput-selected>`. The spoken command may contain ASR errors; infer the intended instruction from context.

Return only the rewritten text according to the requested operation.
".

(** A scene with id, label and prompt replaced. *)
Definition set_prompt (s : Scene) (prompt : bytes) : Scene :=
  {| sc_id := sc_id s; sc_label := sc_label s; sc_prompt := prompt;
     sc_provider_id := sc_provider_id s; sc_model := sc_model s;
     llm_max_candidates := llm_max_candidates s; timeout_ms := timeout_ms s;
     context_lines := context_lines s; raw_cand := raw_cand s; raw_prev := raw_prev s;
     builtin := builtin s |}.

Definition MakeBuiltinScene (id : bytes) : Scene :=
  let scene label prompt max_candidates :=
    {| sc_id := id; sc_label := label; sc_prompt := prompt; sc_provider_id := []; sc_model := [];
       llm_max_candidates := max_candidates; timeout_ms := kDefaultTimeoutMs;
       context_lines := kDefaultContextLines; raw_cand := true; raw_prev := true;
       builtin := true |} in
  NormalizeDefinition
    (if id =b kRawSceneId then scene kRawSceneLabelKey [] 0%Z
     else if id =b kCommandSceneId
     then scene kCommandSceneLabelKey kDefaultCommandPrompt kDefaultLlmMaxCandidates
     else scene [] [] kDefaultLlmMaxCandidates).

Definition EraseEmptyEnvKeys (env : gmap bytes bytes) : gmap bytes bytes := delete [] env.

(** The normalisation loop shared by the sections of the configuration: entries
    with an empty or an already seen id are skipped, the id is recorded as seen,
    and the entry is rewritten, or skipped, by [keep]. *)
Fixpoint normalize_loop {A} (id_of : A -> bytes) (keep : A -> option A) (seen : gset bytes)
    (l : list A) : gset bytes * list A :=
  match l with
  | [] => (seen, [])
  | x :: l =>
      if is_empty (id_of x) then normalize_loop id_of keep seen l
      else if bool_decide (id_of x ∈ seen) then normalize_loop id_of keep seen l
      else
        let '(seen', l') := normalize_loop id_of keep ({[id_of x]} ∪ seen) l in
        (seen', match keep x with Some y => y :: l' | None => l' end)
  end.

Definition keep_adapter (a : LlmAdapter) : option LlmAdapter :=
  Some {| la_id := la_id a; la_command := la_command a; la_args := la_args a;
          la_env := EraseEmptyEnvKeys (la_env a); la_autoStart := la_autoStart a |}.

Definition keep_client (c : ClientSpec) : option ClientSpec :=
  Some {| cs_id := cs_id c; cs_command := cs_command c; cs_args := cs_args c;
          cs_env := EraseEmptyEnvKeys (cs_env c); cs_autoStart := cs_autoStart c |}.

Definition keep_asr (p : AsrProvider) : option AsrProvider :=
  match p with
  | LocalAsrProvider _ _ _ _ => Some p
  | CommandAsrProvider id t command args env =>
      if is_empty command then None
      else Some (CommandAsrProvider id t command args (EraseEmptyEnvKeys env))
  end.

Definition outdated_prompt (s : Scene) : bool :=
  (sc_id s =b kCommandSceneId) &&
  (is_empty (sc_prompt s) || (sc_prompt s =b kLegacyCommandPrompt)
   || (sc_prompt s =b kShortTagCommandPrompt)).
Definition upgrade_prompt (s : Scene) : Scene :=
  if outdated_prompt s then set_prompt s kDefaultCommandPrompt else s.

Fixpoint normalize_scenes_loop (seen : gset bytes) (l : list Scene) : gset bytes * list Scene :=
  match l with
  | [] => (seen, [])
  | scene :: l =>
      let scene := upgrade_prompt (NormalizeDefinition scene) in
      match ValidateDefinition scene true with
      | Err _ => normalize_scenes_loop seen l
      | Ok _ =>
          if bool_decide (sc_id scene ∈ seen) then normalize_scenes_loop seen l
          else let '(seen', l') := normalize_scenes_loop ({[sc_id scene]} ∪ seen) l in
               (seen', scene :: l')
      end
  end.

Definition normalize_scenes (l : list Scene) : list Scene :=
  let '(seen, normalized) := normalize_scenes_loop ∅ l in
  let '(seen, normalized) :=
    if bool_decide (kRawSceneId ∈ seen) then (seen, normalized)
    else ({[kRawSceneId]} ∪ seen, normalized ++ [MakeBuiltinScene kRawSceneId]) in
  if bool_decide (kCommandSceneId ∈ seen) then normalized
  else normalized ++ [MakeBuiltinScene kCommandSceneId].

Definition normalize_urls (l : list bytes) : list bytes :=
  (normalize_loop id Some ∅ l).2.

Definition normalize_vad (v : Vad) : Vad :=
  {| vad_enabled := vad_enabled v;
     vad_threshold := fclamp (vad_threshold v) (f64_lit 5 100) (f64_lit 95 100);
     minSpeechDuration := fclamp (minSpeechDuration v) (f64_lit 5 100) (f64_of_Z 2);
     minSilenceDuration := fclamp (minSilenceDuration v) (f64_lit 5 100) (f64_of_Z 5);
     speechPadMs := Z.min (Z.max (speechPadMs v) 0) 2000 |}.

Definition NormalizeCoreConfig (c : CoreConfig) : CoreConfig :=
  let '(client_ids, triggers') := normalize_loop cs_id keep_client ∅ (triggers c) in
  let '(_, receivers') := normalize_loop cs_id keep_client client_ids (receivers c) in
  let providers := (normalize_loop AsrProviderId keep_asr ∅ (asr_providers (cc_asr c))).2 in
  let defs := normalize_scenes (definitions (cc_scenes c)) in
  {| cc_version := cc_version c;
     baseUrls := normalize_urls (baseUrls c);
     cc_global :=
       {| captureDevice := captureDevice (cc_global c);
          duckOutputWhileRecording := duckOutputWhileRecording (cc_global c);
          duckOutputVolume := fclamp (duckOutputVolume (cc_global c)) (f64_of_Z 0) (f64_of_Z 1) |};
     cc_llm :=
       {| llm_providers := (normalize_loop lp_id Some ∅ (llm_providers (cc_llm c))).2;
          llm_adapters := (normalize_loop la_id keep_adapter ∅ (llm_adapters (cc_llm c))).2 |};
     cc_asr :=
       {| activeProvider :=
            match lookup_id AsrProviderId (activeProvider (cc_asr c)) providers with
            | Some _ => activeProvider (cc_asr c)
            | None => []
            end;
          normalizeAudio := normalizeAudio (cc_asr c);
          inputGain := fclamp (inputGain (cc_asr c)) (f64_lit 1 10) (f64_of_Z 10);
          asr_vad := normalize_vad (asr_vad (cc_asr c));
          asr_providers := providers |};
     cc_scenes :=
       {| activeScene :=
            match FindScene defs (activeScene (cc_scenes c)) with
            | Some _ => activeScene (cc_scenes c)
            | None => []
            end;
          definitions := defs |};
     triggers := triggers';
     receivers := receivers' |}.

(** ** core_config_validate.cpp *)

Fixpoint CheckUniqueId {A} (id_of : A -> bytes) (label : bytes) (seen : gset bytes) (items : list A)
  : result unit :=
  match items with
  | [] => Ok tt
  | item :: items =>
      if is_empty (id_of item) then Err (label ++ " id must not be empty.")
      else if bool_decide (id_of item ∈ seen)
      then Err ("Duplicate " ++ label ++ " id '" ++ id_of item ++ "'.")
      else CheckUniqueId id_of label ({[id_of item]} ∪ seen) items
  end.

Fixpoint check_asr_providers (seen : gset bytes) (l : list AsrProvider) : result unit :=
  match l with
  | [] => Ok tt
  | p :: l =>
      let id := AsrProviderId p in
      if is_empty id then Err "ASR provider id must not be empty."
      else if bool_decide (id ∈ seen) then Err ("Duplicate ASR provider id '" ++ id ++ "'.")
      else if match p with CommandAsrProvider _ _ cmd _ _ => is_empty cmd | _ => false end
      then Err ("Command ASR provider '" ++ id ++ "' must not have an empty command.")
      else check_asr_providers ({[id]} ∪ seen) l
  end.

(** The scene loop, with the [hasRaw] and [hasCommand] flags. *)
Fixpoint check_scenes (seen : gset bytes) (hasRaw hasCommand : bool) (l : list Scene)
  : result (bool * bool) :=
  match l with
  | [] => Ok (hasRaw, hasCommand)
  | s :: l =>
      match ValidateDefinition s true with
      | Err sceneError => Err ("Invalid scene '" ++ sc_id s ++ "': " ++ sceneError)
      | Ok _ =>
          if bool_decide (sc_id s ∈ seen) then Err ("Duplicate scene id '" ++ sc_id s ++ "'.")
          else check_scenes ({[sc_id s]} ∪ seen)
                 (hasRaw || (sc_id s =b kRawSceneId)) (hasCommand || (sc_id s =b kCommandSceneId)) l
      end
  end.

Definition ValidateCoreConfig (c : CoreConfig) : result unit :=
  let! _ := CheckUniqueId lp_id "LLM provider" ∅ (llm_providers (cc_llm c)) in
  let! _ := CheckUniqueId la_id "LLM adapter" ∅ (llm_adapters (cc_llm c)) in
  let! _ := check_asr_providers ∅ (asr_providers (cc_asr c)) in
  let active := activeProvider (cc_asr c) in
  let! _ :=
    if negb (is_empty active) && match ViewAsrProvider c active with None => true | _ => false end
    then Err ("Active ASR provider '" ++ active ++ "' does not exist.") else Ok tt in
  let! (hasRaw, hasCommand) := check_scenes ∅ false false (definitions (cc_scenes c)) in
  if negb hasRaw then Err "Builtin scene '__raw__' is required."
  else if negb hasCommand then Err "Builtin scene '__command__' is required."
  else
    let scene := activeScene (cc_scenes c) in
    if negb (is_empty scene) &&
       match FindScene (definitions (cc_scenes c)) scene with None => true | _ => false end
    then Err ("Active scene '" ++ scene ++ "' does not exist.") else Ok tt.

(** ** core_config_resolve.cpp *)

Definition set_model (p : AsrProvider) (model : bytes) : AsrProvider :=
  match p with
  | LocalAsrProvider id t _ hotwords => LocalAsrProvider id t model hotwords
  | CommandAsrProvider _ _ _ _ _ => p
  end.

Definition with_asr_providers (c : CoreConfig) (providers : list AsrProvider) : CoreConfig :=
  {| cc_version := cc_version c; baseUrls := baseUrls c; cc_global := cc_global c;
     cc_llm := cc_llm c;
     cc_asr := {| activeProvider := activeProvider (cc_asr c);
                  normalizeAudio := normalizeAudio (cc_asr c); inputGain := inputGain (cc_asr c);
                  asr_vad := asr_vad (cc_asr c); asr_providers := providers |};
     cc_scenes := cc_scenes c; triggers := triggers c; receivers := receivers c |}.

Definition SetPreferredLocalModel (c : CoreConfig) (model : bytes) : result CoreConfig :=
  match PreferredLocalAsrProvider c with
  | None => Err "No local ASR provider configured."
  | Some provider =>
      let providerId := AsrProviderId provider in
      match list_find (fun p => AsrProviderId p = providerId /\ is_local p = true)
              (asr_providers (cc_asr c)) with
      | Some (i, p) =>
          Ok (with_asr_providers c (<[i := set_model p model]> (asr_providers (cc_asr c))))
      | None => Err "Local ASR provider not found."
      end
  end.

(** ** The normalisation loop *)

Section normalize_loop_facts.
Context {A : Type} (id_of : A -> bytes) (keep : A -> option A).

(** What the loop guarantees of its output. *)
Record loop_ok (seen : gset bytes) (l : list A) : Prop := {
  lo_unique : NoDup (id_of <$> l);
  lo_named : Forall (fun x => id_of x <> []) l;
  lo_fresh : Forall (fun x => id_of x ∉ seen) l;
  lo_kept : Forall (fun x => keep x = Some x) l;
}.

Lemma loop_ok_weaken seen seen' l : seen ⊆ seen' -> loop_ok seen' l -> loop_ok seen l.
Proof.
  intros Hs [Hu Hn Hf Hk]. split; try done. eapply Forall_impl; [exact Hf|]. set_solver.
Qed.

Lemma loop_ok_cons seen x l :
  loop_ok seen (x :: l) <->
  is_empty (id_of x) = false /\ (id_of x ∉ seen) /\ keep x = Some x /\
  loop_ok ({[id_of x]} ∪ seen) l.
Proof.
  split.
  - intros [[Hx Hu]%NoDup_cons [Hn Hn']%Forall_cons [Hf Hf']%Forall_cons [Hk Hk']%Forall_cons].
    split_and!; try done; [by apply is_empty_false|]. split; try done.
    rewrite Forall_forall in *. intros z Hz. specialize (Hf' z Hz).
    assert (id_of z ∈ id_of <$> l) by (by apply list_elem_of_fmap_2). set_solver.
  - intros (Hn%is_empty_false & Hf & Hk & [Hu Hn' Hf' Hk']). split; simpl; try by constructor.
    + constructor; [|done]. intros (z & Hz & Hin)%list_elem_of_fmap.
      rewrite Forall_forall in Hf'. specialize (Hf' z Hin). set_solver.
    + constructor; [done|]. eapply Forall_impl; [exact Hf'|]. set_solver.
Qed.

(** The loop is the identity on its own output, and the recorded ids are
    exactly those of the entries and the initial set. *)
Lemma normalize_loop_id seen l :
  loop_ok seen l ->
  normalize_loop id_of keep seen l = (list_to_set (id_of <$> l) ∪ seen, l).
Proof.
  revert seen. induction l as [|x l IH]; intros seen; simpl; [intros _; f_equal; set_solver|].
  intros (Hn & Hf & Hk & Hl)%loop_ok_cons. rewrite Hn, bool_decide_eq_false_2 by done.
  rewrite IH, Hk by done. f_equal. set_solver.
Qed.

Lemma CheckUniqueId_ok label seen l : loop_ok seen l -> CheckUniqueId id_of label seen l = Ok tt.
Proof.
  revert seen. induction l as [|x l IH]; intros seen; simpl; [done|].
  intros (Hn & Hf & _ & Hl)%loop_ok_cons. rewrite Hn, bool_decide_eq_false_2 by done. by apply IH.
Qed.

Context (keep_id : forall x y, keep x = Some y -> id_of y = id_of x).
Context (keep_idemp : forall x y, keep x = Some y -> keep y = Some y).

Lemma normalize_loop_ok seen l : loop_ok seen (normalize_loop id_of keep seen l).2.
Proof.
  revert seen. induction l as [|x l IH]; intros seen; simpl; [split; by constructor|].
  destruct (is_empty (id_of x)) eqn:He; [done|]. case_bool_decide as Hs; [done|].
  specialize (IH ({[id_of x]} ∪ seen)).
  destruct (normalize_loop id_of keep _ l) as [seen' l'] eqn:E; simpl in *.
  destruct (keep x) as [y|] eqn:Hk; [|eapply loop_ok_weaken; [|exact IH]; set_solver].
  apply loop_ok_cons. rewrite (keep_id _ _ Hk). eauto.
Qed.

Lemma normalize_loop_seen seen l :
  seen ∪ list_to_set (id_of <$> (normalize_loop id_of keep seen l).2)
    ⊆ (normalize_loop id_of keep seen l).1.
Proof.
  revert seen. induction l as [|x l IH]; intros seen; simpl; [set_solver|].
  destruct (is_empty (id_of x)); [done|]. case_bool_decide; [done|].
  specialize (IH ({[id_of x]} ∪ seen)).
  destruct (normalize_loop id_of keep _ l) as [seen' l']; simpl in *.
  destruct (keep x) as [y|] eqn:Hk; simpl; [rewrite (keep_id _ _ Hk)|]; set_solver.
Qed.

Lemma normalize_loop_twice seen l :
  (normalize_loop id_of keep seen (normalize_loop id_of keep seen l).2).2
  = (normalize_loop id_of keep seen l).2.
Proof. by rewrite (normalize_loop_id seen) by apply normalize_loop_ok. Qed.
End normalize_loop_facts.

(** The per-section rewrites keep ids and are idempotent. *)
Section keep_facts.
Lemma keep_adapter_id x y : keep_adapter x = Some y -> la_id y = la_id x.
Proof. by intros [= <-]. Qed.
Lemma keep_adapter_idemp x y : keep_adapter x = Some y -> keep_adapter y = Some y.
Proof. intros [= <-]. unfold keep_adapter, EraseEmptyEnvKeys; simpl. by rewrite delete_delete_eq. Qed.
Lemma keep_client_id x y : keep_client x = Some y -> cs_id y = cs_id x.
Proof. by intros [= <-]. Qed.
Lemma keep_client_idemp x y : keep_client x = Some y -> keep_client y = Some y.
Proof. intros [= <-]. unfold keep_client, EraseEmptyEnvKeys; simpl. by rewrite delete_delete_eq. Qed.
Lemma keep_asr_id x y : keep_asr x = Some y -> AsrProviderId y = AsrProviderId x.
Proof. destruct x as [|? ? cmd]; simpl; [by intros [= <-]|]. destruct (is_empty cmd); by intros [= <-]. Qed.
Lemma keep_asr_idemp x y : keep_asr x = Some y -> keep_asr y = Some y.
Proof.
  destruct x as [|? ? cmd]; simpl; [by intros [= <-]|]. destruct (is_empty cmd) eqn:E; [done|].
  intros [= <-]. simpl. rewrite E. unfold EraseEmptyEnvKeys. by rewrite delete_delete_eq.
Qed.
Lemma keep_all_id {A} (id_of : A -> bytes) x y : Some x = Some y -> id_of y = id_of x.
Proof. by intros [= ->]. Qed.
Lemma keep_all_idemp {A} (x y : A) : Some x = Some y -> Some y = Some y.
Proof. done. Qed.
End keep_facts.

#[export] Hint Resolve keep_adapter_id keep_adapter_idemp keep_client_id keep_client_idemp
  keep_asr_id keep_asr_idemp keep_all_id keep_all_idemp : vinput.

(** ** Scenes *)

Record normal_scene (s : Scene) : Prop := {
  ns_ok : scene_ok s;
  ns_prompt : upgrade_prompt s = s;
}.

Lemma default_prompt_current :
  is_empty kDefaultCommandPrompt || (kDefaultCommandPrompt =b kLegacyCommandPrompt)
  || (kDefaultCommandPrompt =b kShortTagCommandPrompt) = false.
Proof. vm_compute. reflexivity. Qed.

Lemma upgrade_prompt_idemp s : upgrade_prompt (upgrade_prompt s) = upgrade_prompt s.
Proof.
  unfold upgrade_prompt at 2 3. destruct (outdated_prompt s) eqn:E; unfold upgrade_prompt; [|by rewrite E].
  unfold outdated_prompt. cbn [set_prompt sc_id sc_prompt].
  by rewrite default_prompt_current, andb_false_r.
Qed.

Lemma NormalizeDefinition_upgrade s :
  NormalizeDefinition (upgrade_prompt (NormalizeDefinition s)) = upgrade_prompt (NormalizeDefinition s).
Proof.
  unfold upgrade_prompt. destruct (outdated_prompt _); [|apply NormalizeDefinition_idemp].
  pose proof (NormalizeDefinition_idemp s) as H. unfold NormalizeDefinition, set_prompt in *; simpl in *.
  injection H as -> -> -> ->. done.
Qed.

Lemma normal_scene_prepared s :
  ValidateDefinition (upgrade_prompt (NormalizeDefinition s)) true = Ok tt ->
  normal_scene (upgrade_prompt (NormalizeDefinition s)).
Proof. intros H. split; [split; [done|apply NormalizeDefinition_upgrade]|apply upgrade_prompt_idemp]. Qed.

Record scenes_ok (seen : gset bytes) (l : list Scene) : Prop := {
  sok_unique : NoDup (sc_id <$> l);
  sok_fresh : Forall (fun s => sc_id s ∉ seen) l;
  sok_normal : Forall normal_scene l;
}.

Lemma scenes_ok_cons seen s l :
  scenes_ok seen (s :: l) <->
  (sc_id s ∉ seen) /\ normal_scene s /\ scenes_ok ({[sc_id s]} ∪ seen) l.
Proof.
  split.
  - intros [[Hx Hu]%NoDup_cons [Hf Hf']%Forall_cons [Hn Hn']%Forall_cons]. split_and!; try done.
    split; try done. rewrite Forall_forall in *. intros z Hz. specialize (Hf' z Hz).
    assert (sc_id z ∈ sc_id <$> l) by (by apply list_elem_of_fmap_2). set_solver.
  - intros (Hf & Hn & [Hu Hf' Hn']). split; simpl; try by constructor.
    + constructor; [|done]. intros (z & Hz & Hin)%list_elem_of_fmap.
      rewrite Forall_forall in Hf'. specialize (Hf' z Hin). set_solver.
    + constructor; [done|]. eapply Forall_impl; [exact Hf'|]. set_solver.
Qed.

Lemma normalize_scenes_loop_ok seen l :
  scenes_ok seen (normalize_scenes_loop seen l).2 /\
  (normalize_scenes_loop seen l).1 = list_to_set (sc_id <$> (normalize_scenes_loop seen l).2) ∪ seen.
Proof.
  revert seen. induction l as [|s l IH]; intros seen; cbn [normalize_scenes_loop].
  { split; [split; by constructor|set_solver]. }
  destruct (ValidateDefinition (upgrade_prompt _) true) as [[]|] eqn:Hv; [|done].
  case_bool_decide as Hs; [done|].
  specialize (IH ({[sc_id (upgrade_prompt (NormalizeDefinition s))]} ∪ seen)).
  destruct (normalize_scenes_loop _ l) as [seen' l']; simpl in *. destruct IH as [Hok ->].
  split; [|set_solver]. apply scenes_ok_cons. auto using normal_scene_prepared.
Qed.

Lemma normalize_scenes_loop_id seen l :
  scenes_ok seen l -> normalize_scenes_loop seen l = (list_to_set (sc_id <$> l) ∪ seen, l).
Proof.
  revert seen. induction l as [|s l IH]; intros seen; cbn [normalize_scenes_loop].
  { intros _. f_equal. set_solver. }
  intros (Hf & [[Hv Hn] Hp] & Hl)%scenes_ok_cons.
  rewrite Hn, Hp, Hv, bool_decide_eq_false_2, (IH _ Hl) by done. f_equal. set_solver.
Qed.

(** What scene normalisation establishes. *)
Record scene_list_ok (l : list Scene) : Prop := {
  slo_ok : scenes_ok ∅ l;
  slo_raw : kRawSceneId ∈ sc_id <$> l;
  slo_command : kCommandSceneId ∈ sc_id <$> l;
}.

Lemma scenes_ok_app l s :
  scenes_ok ∅ l -> sc_id s ∉ sc_id <$> l -> normal_scene s -> scenes_ok ∅ (l ++ [s]).
Proof.
  intros [Hu Hf Hn] Hs Hns. split.
  - rewrite fmap_app. apply NoDup_app. split; [done|]. split; [|apply NoDup_singleton]. set_solver.
  - apply Forall_app. split; [done|]. constructor; [set_solver|constructor].
  - apply Forall_app. auto.
Qed.

Lemma builtin_scenes_normal :
  normal_scene (MakeBuiltinScene kRawSceneId) /\ normal_scene (MakeBuiltinScene kCommandSceneId).
Proof. split; (split; [split|]); vm_compute; reflexivity. Qed.

Lemma normalize_scenes_ok l : scene_list_ok (normalize_scenes l).
Proof.
  unfold normalize_scenes. destruct (normalize_scenes_loop_ok ∅ l) as [Hok Hseen].
  destruct (normalize_scenes_loop ∅ l) as [seen l']; cbn [fst snd] in *. subst seen.
  destruct builtin_scenes_normal as [Hr Hc].
  assert (forall id, bool_decide (id ∈ (list_to_set (sc_id <$> l') ∪ ∅ : gset bytes)) = bool_decide (id ∈ sc_id <$> l')) as Hb.
  { intros id. apply bool_decide_ext. set_solver. }
  rewrite Hb. case_bool_decide as H1; cbn [fst snd].
  - rewrite Hb. case_bool_decide as H2; [by split|].
    split; [apply scenes_ok_app; done| |]; rewrite fmap_app; set_solver.
  - assert (scenes_ok ∅ (l' ++ [MakeBuiltinScene kRawSceneId])) as Hok1 by (by apply scenes_ok_app).
    case_bool_decide as H2.
    + split; [done| |]; rewrite fmap_app; set_solver.
    + split; [apply scenes_ok_app; [done| |done]| |]; rewrite !fmap_app; set_solver.
Qed.

Lemma normalize_scenes_id l : scene_list_ok l -> normalize_scenes l = l.
Proof.
  intros [Hok Hr Hc]. unfold normalize_scenes. rewrite normalize_scenes_loop_id by done.
  rewrite (bool_decide_eq_true_2 (kRawSceneId ∈ _)) by set_solver.
  by rewrite (bool_decide_eq_true_2 (kCommandSceneId ∈ _)) by set_solver.
Qed.

(** ** Properties of normalisation *)

Lemma double_consts :
  Forall (fun '(lo, hi) => SFltb lo lo = false /\ SFltb hi hi = false /\ SFltb hi lo = false)
    [(f64_lit 1 10, f64_of_Z 10); (f64_of_Z 0, f64_of_Z 1); (f64_lit 5 100, f64_lit 95 100);
     (f64_lit 5 100, f64_of_Z 2); (f64_lit 5 100, f64_of_Z 5)].
Proof. repeat constructor; vm_compute; reflexivity. Qed.

Lemma lookup_id_Some {A} (id_of : A -> bytes) id l x :
  lookup_id id_of id l = Some x -> x ∈ l /\ id_of x = id /\ id <> [].
Proof.
  unfold lookup_id. destruct (is_empty id) eqn:E; [done|]. intros H.
  apply fmap_Some in H as ([i y] & Hf & ->). apply list_find_Some in Hf as (Hi & Hid & _).
  apply is_empty_false in E. eauto using list_elem_of_lookup_2.
Qed.

Lemma lookup_id_present {A} (id_of : A -> bytes) l x :
  x ∈ l -> id_of x <> [] -> exists y, lookup_id id_of (id_of x) l = Some y.
Proof.
  intros Hin Hne. unfold lookup_id. destruct (is_empty (id_of x)) eqn:E; [by apply is_empty_true in E|].
  destruct (list_find_elem_of (fun y => id_of y = id_of x) l x Hin eq_refl) as [[i y] Hf].
  exists y. by rewrite Hf.
Qed.

Lemma check_asr_providers_ok seen l :
  loop_ok AsrProviderId keep_asr seen l -> check_asr_providers seen l = Ok tt.
Proof.
  revert seen. induction l as [|p l IH]; intros seen; simpl; [done|].
  intros (Hn & Hf & Hk & Hl)%loop_ok_cons. rewrite Hn, bool_decide_eq_false_2 by done.
  destruct p as [|? ? cmd]; [by apply IH|]. simpl in Hk. destruct (is_empty cmd); [done|by apply IH].
Qed.

Lemma check_scenes_ok seen l r c :
  scenes_ok seen l ->
  check_scenes seen r c l
  = Ok (r || bool_decide (kRawSceneId ∈ sc_id <$> l), c || bool_decide (kCommandSceneId ∈ sc_id <$> l)).
Proof.
  revert seen r c. induction l as [|s l IH]; intros seen r c; cbn [check_scenes].
  { intros _. rewrite !bool_decide_eq_false_2, !orb_false_r by (by intros ?%elem_of_nil). done. }
  intros (Hf & [[Hv _] _] & Hl)%scenes_ok_cons. rewrite Hv, bool_decide_eq_false_2, IH by done.
  f_equal. rewrite fmap_cons, <-!orb_assoc.
  f_equal; f_equal; rewrite <-bool_decide_or; apply bool_decide_ext; rewrite elem_of_cons; naive_solver.
Qed.

(** The clamps, the deduplicated sections and the scenes of a normalised configuration. *)
Lemma fclamp_normal v lo hi :
  (lo, hi) ∈ [(f64_lit 1 10, f64_of_Z 10); (f64_of_Z 0, f64_of_Z 1); (f64_lit 5 100, f64_lit 95 100);
     (f64_lit 5 100, f64_of_Z 2); (f64_lit 5 100, f64_of_Z 5)] ->
  fclamp (fclamp v lo hi) lo hi = fclamp v lo hi.
Proof.
  intros H. pose proof double_consts as Hc. rewrite Forall_forall in Hc.
  destruct (Hc _ H) as (? & ? & ?). by apply fclamp_idemp.
Qed.

Lemma normalize_vad_idemp v : normalize_vad (normalize_vad v) = normalize_vad v.
Proof.
  unfold normalize_vad; cbn [vad_enabled vad_threshold minSpeechDuration minSilenceDuration speechPadMs].
  rewrite !fclamp_normal by (repeat constructor). f_equal. lia.
Qed.

Lemma normalize_clients_spec ts rs :
  let '(ids, ts') := normalize_loop cs_id keep_client ∅ ts in
  let '(_, rs') := normalize_loop cs_id keep_client ids rs in
  loop_ok cs_id keep_client ∅ ts' /\
  loop_ok cs_id keep_client (list_to_set (cs_id <$> ts')) rs'.
Proof.
  pose proof (normalize_loop_ok cs_id keep_client keep_client_id keep_client_idemp ∅ ts) as Ht.
  pose proof (normalize_loop_seen cs_id keep_client keep_client_id keep_client_idemp ∅ ts) as Hs.
  destruct (normalize_loop cs_id keep_client ∅ ts) as [ids ts']; simpl in *.
  pose proof (normalize_loop_ok cs_id keep_client keep_client_id keep_client_idemp ids rs) as Hr.
  destruct (normalize_loop cs_id keep_client ids rs) as [ids' rs']; simpl in *.
  split; [done|]. eapply loop_ok_weaken; [|exact Hr]. set_solver.
Qed.

Lemma Normalize_validates c : ValidateCoreConfig (NormalizeCoreConfig c) = Ok tt.
Proof.
  unfold NormalizeCoreConfig. pose proof (normalize_clients_spec (triggers c) (receivers c)) as _.
  destruct (normalize_loop cs_id _ ∅ _) as [ids ts], (normalize_loop cs_id _ ids _) as [ids' rs].
  unfold ValidateCoreConfig, ViewAsrProvider;
    cbn [cc_llm llm_providers llm_adapters cc_asr asr_providers activeProvider cc_scenes definitions activeScene].
  rewrite (CheckUniqueId_ok lp_id Some) by (apply normalize_loop_ok; eauto with vinput). cbn [result_bind].
  rewrite (CheckUniqueId_ok la_id keep_adapter) by (apply normalize_loop_ok; eauto with vinput). cbn [result_bind].
  rewrite check_asr_providers_ok by (apply normalize_loop_ok; eauto with vinput). cbn [result_bind].
  destruct (lookup_id AsrProviderId (activeProvider (cc_asr c)) _) eqn:Ha;
    [rewrite Ha, andb_false_r|]; cbn [result_bind is_empty negb andb].
  all: destruct (normalize_scenes_ok (definitions (cc_scenes c))) as [Hok Hr Hc];
    rewrite check_scenes_ok by done; cbn [result_bind];
    rewrite !bool_decide_eq_true_2 by done; cbn [orb negb];
    destruct (FindScene _ (activeScene (cc_scenes c))) eqn:Hs; [rewrite Hs, andb_false_r|]; done.
Qed.

(** Whatever the user's file contains, the normalised configuration passes
    validation: no empty or duplicate ids, no command provider without a command,
    the active provider and scene exist, and both built-in scenes are present. *)
Theorem NormalizeCoreConfig_valid c : ValidateCoreConfig (NormalizeCoreConfig c) = Ok tt.
Proof. apply Normalize_validates. Qed.

(** What normalisation establishes, section by section: it is the identity exactly
    on these configurations. *)
Record config_normal (c : CoreConfig) : Prop := {
  cn_urls : loop_ok id Some ∅ (baseUrls c);
  cn_duck : fclamp (duckOutputVolume (cc_global c)) (f64_of_Z 0) (f64_of_Z 1)
            = duckOutputVolume (cc_global c);
  cn_providers : loop_ok lp_id Some ∅ (llm_providers (cc_llm c));
  cn_adapters : loop_ok la_id keep_adapter ∅ (llm_adapters (cc_llm c));
  cn_asr : loop_ok AsrProviderId keep_asr ∅ (asr_providers (cc_asr c));
  cn_active : activeProvider (cc_asr c) = []
              \/ is_Some (lookup_id AsrProviderId (activeProvider (cc_asr c)) (asr_providers (cc_asr c)));
  cn_gain : fclamp (inputGain (cc_asr c)) (f64_lit 1 10) (f64_of_Z 10) = inputGain (cc_asr c);
  cn_vad : normalize_vad (asr_vad (cc_asr c)) = asr_vad (cc_asr c);
  cn_scenes : scene_list_ok (definitions (cc_scenes c));
  cn_scene : activeScene (cc_scenes c) = []
             \/ is_Some (FindScene (definitions (cc_scenes c)) (activeScene (cc_scenes c)));
  cn_triggers : loop_ok cs_id keep_client ∅ (triggers c);
  cn_receivers : loop_ok cs_id keep_client (list_to_set (cs_id <$> triggers c)) (receivers c);
}.

Lemma config_normal_Normalize c : config_normal (NormalizeCoreConfig c).
Proof.
  unfold NormalizeCoreConfig. pose proof (normalize_clients_spec (triggers c) (receivers c)) as Hcl.
  destruct (normalize_loop cs_id _ ∅ _) as [ids ts], (normalize_loop cs_id _ ids _) as [ids' rs].
  destruct Hcl as [Ht Hr]. unfold normalize_urls.
  split; cbn -[normalize_loop normalize_scenes fclamp f64_lit f64_of_Z normalize_vad lookup_id FindScene];
    try done; try (apply normalize_loop_ok; eauto with vinput); try (apply fclamp_normal; repeat constructor).
  - destruct (lookup_id _ (activeProvider (cc_asr c)) _) eqn:Ha; [right; by rewrite Ha|by left].
  - apply normalize_vad_idemp.
  - apply normalize_scenes_ok.
  - destruct (FindScene _ (activeScene (cc_scenes c))) eqn:Ha; [right; by rewrite Ha|by left].
Qed.

Lemma Normalize_normal c : config_normal c -> NormalizeCoreConfig c = c.
Proof.
  intros [Hu Hd Hp Ha Hs Hact Hg Hv Hsc Hscene Ht Hr]. unfold NormalizeCoreConfig, normalize_urls.
  rewrite (normalize_loop_id _ _ ∅ (triggers c)), (right_id_L ∅ (∪)) by done.
  rewrite (normalize_loop_id _ _ _ (receivers c)) by done.
  rewrite !normalize_loop_id, normalize_scenes_id, Hd, Hg, Hv by done. cbn [snd].
  destruct c as [ver urls [] [] [act] [sc] trs rcs]; cbn -[FindScene lookup_id normalize_vad fclamp] in *.
  replace (match lookup_id AsrProviderId act _ with Some _ => act | None => [] end) with act
    by (destruct Hact as [->|[x ->]]; [by destruct (lookup_id _ _ _)|done]).
  replace (match FindScene _ sc with Some _ => sc | None => [] end) with sc
    by (destruct Hscene as [->|[x ->]]; [by destruct (FindScene _ _)|done]).
  done.
Qed.

(** Normalisation is idempotent: a configuration that was normalised once is
    left unchanged, so saving and reloading it never drops or rewrites an entry. *)
Theorem NormalizeCoreConfig_idemp c :
  NormalizeCoreConfig (NormalizeCoreConfig c) = NormalizeCoreConfig c.
Proof. apply Normalize_normal, config_normal_Normalize. Qed.

(** After normalisation every managed client id is non-empty and names one
    client only, across triggers and receivers together: looking an id up among
    the triggers and the receivers never finds both. *)
Theorem NormalizeCoreConfig_clients_unique c :
  let n := NormalizeCoreConfig c in
  NoDup (cs_id <$> triggers n ++ receivers n) /\
  Forall (fun s => cs_id s <> []) (triggers n ++ receivers n) /\
  (forall id, Trigger n id = None \/ Receiver n id = None).
Proof.
  unfold NormalizeCoreConfig. pose proof (normalize_clients_spec (triggers c) (receivers c)) as Hcl.
  destruct (normalize_loop cs_id _ ∅ _) as [ids ts], (normalize_loop cs_id _ ids _) as [ids' rs].
  destruct Hcl as [[Htu Htn _ _] [Hru Hrn Hrf _]]. unfold Trigger, Receiver; cbn [triggers receivers].
  rewrite Forall_forall in Hrf.
  assert (forall t r, t ∈ ts -> r ∈ rs -> cs_id t <> cs_id r) as Hdisj.
  { intros t r Hti Hri Heq. apply (Hrf r Hri). rewrite <-Heq. apply elem_of_list_to_set.
    by apply list_elem_of_fmap_2. }
  split_and!.
  - rewrite fmap_app. apply NoDup_app. split_and!; [done| |done].
    intros x (t & -> & Hti)%list_elem_of_fmap (r & Heq & Hri)%list_elem_of_fmap. by eapply Hdisj.
  - by apply Forall_app.
  - intros id. destruct (lookup_id cs_id id ts) as [t|] eqn:Et; [right|by left].
    destruct (lookup_id cs_id id rs) as [r|] eqn:Er; [exfalso|done].
    apply lookup_id_Some in Et as (Hti & <- & _), Er as (Hri & Heq & _). by eapply Hdisj.
Qed.

(** Normalisation establishes the invariant that the scene editing operations
    maintain (unique, valid and normalised definitions, both built-in scenes, an
    active scene that exists). *)
Theorem NormalizeCoreConfig_scene_config c :
  let s := cc_scenes (NormalizeCoreConfig c) in
  config_ok {| activeSceneId := activeScene s; scenes := definitions s |}.
Proof.
  unfold NormalizeCoreConfig.
  destruct (normalize_loop cs_id _ ∅ _) as [ids ts], (normalize_loop cs_id _ ids _) as [ids' rs].
  cbn [cc_scenes definitions activeScene].
  destruct (normalize_scenes_ok (definitions (cc_scenes c))) as [[Hu _ Hn] Hr Hc].
  split; cbn [scenes activeSceneId]; try done.
  - eapply Forall_impl; [exact Hn|]. by intros s [].
  - destruct (FindScene _ _) as [s|] eqn:E; [right|by left].
    apply FindScene_Some in E as [Hin <-]. by apply list_elem_of_fmap_2.
Qed.

(** ** The preferred local model *)

Lemma list_find_first {A} (P Q : A -> Prop) `{!forall x, Decision (P x), !forall x, Decision (Q x)} l i x :
  list_find P l = Some (i, x) -> Q x -> (forall y, Q y -> P y) -> list_find Q l = Some (i, x).
Proof.
  intros (Hi & _ & Hbefore)%list_find_Some HQ Himp. apply list_find_Some.
  split_and!; [done|done|]. intros j y Hj Hlt HQy. eapply Hbefore; eauto.
Qed.

(** Replacing an entry by one that the search treats alike moves no result. *)
Lemma list_find_insert {A} (P : A -> Prop) `{!forall x, Decision (P x)} (l : list A) (i : nat) x y :
  l !! i = Some x -> (P x <-> P y) ->
  list_find P (<[i := y]> l) = (fun '(j, z) => (j, if decide (i = j) then y else z)) <$> list_find P l.
Proof.
  revert i. induction l as [|z l IH]; intros [|i] Hi Hxy; simplify_eq/=.
  - destruct (decide (P x)), (decide (P y)); try naive_solver.
    by destruct (list_find P l) as [[]|].
  - destruct (decide (P z)); [done|]. rewrite (IH i Hi Hxy).
    destruct (list_find P l) as [[j w]|]; simpl; [|done].
    by destruct (decide (i = j)), (decide (S i = S j)); try lia.
Qed.

(** The preferred local provider is the first entry of one of two searches. *)
Lemma PreferredLocal_find c p :
  PreferredLocalAsrProvider c = Some p ->
  is_local p = true /\
  exists i, list_find (fun q => AsrProviderId q = AsrProviderId p /\ is_local q = true)
              (asr_providers (cc_asr c)) = Some (i, p) /\
   (activeProvider (cc_asr c) <> [] /\
    list_find (fun q => AsrProviderId q = activeProvider (cc_asr c)) (asr_providers (cc_asr c)) = Some (i, p)
    \/ ActiveLocalAsrProvider c = None /\
    list_find (fun q => is_local q = true) (asr_providers (cc_asr c)) = Some (i, p)).
Proof.
  unfold PreferredLocalAsrProvider.
  destruct (ActiveLocalAsrProvider c) as [a|] eqn:Ha.
  - intros [= <-]. unfold ActiveLocalAsrProvider, ActiveAsrProvider, ViewAsrProvider, lookup_id in Ha.
    destruct (is_empty _) eqn:He; [done|]. apply is_empty_false in He.
    destruct (list_find _ _) as [[i q]|] eqn:Hf; [|done]. simpl in Ha.
    destruct (is_local q) eqn:Hl; [|done]. injection Ha as <-. split; [done|]. exists i.
    pose proof Hf as (_ & Hid & _)%list_find_Some. split; [|by left].
    eapply list_find_first; [exact Hf|done|]. intros y [? _]. congruence.
  - intros ([i q] & Hf & ->)%fmap_Some. pose proof Hf as (_ & Hl & _)%list_find_Some.
    split; [done|]. exists i. split; [|by right]. eapply list_find_first; [exact Hf|done|]. by intros y [].
Qed.

Lemma set_model_facts p model :
  is_local p = true ->
  AsrProviderId (set_model p model) = AsrProviderId p /\ is_local (set_model p model) = true /\
  provider_model (set_model p model) = model.
Proof. by destruct p. Qed.

(** Setting the preferred local model succeeds whenever a local provider is
    configured, and reading the preferred model back yields it: the same provider
    stays preferred, provider ids and order and the rest of the configuration are
    untouched. Without a local provider the error says so; the second error
    message of the function is unreachable. *)
Theorem SetPreferredLocalModel_spec c model :
  match PreferredLocalAsrProvider c with
  | None => SetPreferredLocalModel c model = Err "No local ASR provider configured."
  | Some p => exists c',
      SetPreferredLocalModel c model = Ok c' /\
      PreferredLocalAsrProvider c' = Some (set_model p model) /\
      PreferredLocalModel c' = model /\
      AsrProviderId <$> asr_providers (cc_asr c') = AsrProviderId <$> asr_providers (cc_asr c) /\
      c' = with_asr_providers c (asr_providers (cc_asr c'))
  end.
Proof.
  unfold SetPreferredLocalModel. destruct (PreferredLocalAsrProvider c) as [p|] eqn:Hp; [|done].
  apply PreferredLocal_find in Hp as (Hl & i & Hf & Hcase). rewrite Hf.
  destruct (set_model_facts p model Hl) as (Hid & Hloc & Hm).
  pose proof Hf as (Hi & _)%list_find_Some. eexists; split; [done|].
  assert (PreferredLocalAsrProvider (with_asr_providers c (<[i:=set_model p model]> (asr_providers (cc_asr c))))
    = Some (set_model p model)) as Hpref; [|split; [done|split; [|split; [|done]]]].
  - unfold PreferredLocalAsrProvider, ActiveLocalAsrProvider, ActiveAsrProvider, ViewAsrProvider, lookup_id in *.
    cbn [with_asr_providers cc_asr asr_providers activeProvider].
    rewrite (list_find_insert (fun q => AsrProviderId q = activeProvider (cc_asr c)) _ i p) by (done || by rewrite Hid).
    rewrite (list_find_insert (fun q => is_local q = true) _ i p) by (done || by rewrite Hl, Hloc).
    destruct Hcase as [[He Ha]|[Hnone Ha]].
    + apply is_empty_false in He. rewrite He, Ha. simpl. by rewrite decide_True, Hloc.
    + rewrite Ha. clear Hf Ha. revert Hnone. destruct (is_empty _); simpl; [by rewrite decide_True|].
      destruct (list_find _ _) as [[j q]|] eqn:Hq; simpl; [|by rewrite decide_True].
      destruct (decide (i = j)) as [<-|]; [|destruct (is_local q); [done|by rewrite decide_True]].
      apply list_find_Some in Hq as (Hq & _). simplify_eq. by rewrite Hl.
  - unfold PreferredLocalModel. by rewrite Hpref.
  - cbn [with_asr_providers cc_asr asr_providers]. rewrite list_fmap_insert, Hid. apply list_insert_id.
    by rewrite list_lookup_fmap, Hi.
Qed.
