(* ===== verification/Palette.v ===== *)
(** * The command palette (src/src/addon/menu/palette_command.cpp and the palette part of
    vinput_menu.cpp)

    A menu of commands and of what they offer: speech models, scenes, command models and
    adapters. A query that starts with a slash names a command; other text filters the
    items. What the items are made of (translations, installed models, running adapters)
    is an argument. *)

From S2P Require Import Prelude StringUtils Json Scene CoreConfig.
From Stdlib Require Import Ascii.

Inductive PaletteCategory := CatAsr | CatScene | CatCommandModel | CatAdapter | CatCustom.
#[export] Instance PaletteCategory_eq_dec : EqDecision PaletteCategory.
Proof. solve_decision. Defined.

Record PaletteItem := {
  pi_category : PaletteCategory; pi_id : bytes; pi_text : bytes; pi_comment : bytes; pi_search_text : bytes;
  pi_active : bool; pi_provider_id : bytes; pi_model_id : bytes; pi_scene_id : bytes; pi_adapter_id : bytes;
  pi_adapter_running : bool; pi_is_command_entry : bool; pi_command_token : bytes;
}.

(** The callbacks of a command are told apart by its category. *)
Record PaletteCommand := {
  pc_id : bytes; pc_name : bytes; pc_alias : bytes; pc_title : bytes; pc_description : bytes;
  pc_category : PaletteCategory;
}.

(** ** The registry *)

Fixpoint registerCommand (command : PaletteCommand) (commands : list PaletteCommand) : list PaletteCommand :=
  match commands with
  | [] => [command]
  | c :: cs => if pc_id c =b pc_id command then command :: cs else c :: registerCommand command cs
  end.

Definition command_named (token : bytes) (c : PaletteCommand) : bool :=
  EqualsIgnoreCase (pc_name c) token || (negb (is_empty (pc_alias c)) && EqualsIgnoreCase (pc_alias c) token).
Definition findByNameOrAlias (token : bytes) (commands : list PaletteCommand) : option PaletteCommand :=
  if is_empty token then None else snd <$> list_find (fun c => command_named token c = true) commands.
Definition findByCategory (category : PaletteCategory) (commands : list PaletteCommand) : option PaletteCommand :=
  snd <$> list_find (fun c => pc_category c = category) commands.

(** ** Queries *)

Definition NormalizeSearchText (text : bytes) : bytes := tolower <$> text.

(** The words [stream >> term] gives. *)
Fixpoint words (text word : bytes) : list bytes :=
  match text with
  | [] => if is_empty word then [] else [word]
  | c :: text =>
      if isspace c then (if is_empty word then words text [] else word :: words text [])
      else words text (word ++ [c])
  end.
Definition SplitSearchTerms (text : bytes) : list bytes := words (NormalizeSearchText text) [].

Definition MatchesAllTerms (haystack query : bytes) : bool :=
  if is_empty query then true
  else forallb (fun term => match find_sub (NormalizeSearchText haystack) term with Some _ => true | None => false end)
         (SplitSearchTerms query).

(** [(c & 0xC0) == 0x80] *)
Definition is_continuation (c : ascii) : bool := (N.land (N_of_ascii c) 192 =? 128)%N.
Definition PopLastUtf8Char (text : bytes) : bytes :=
  (fix pop (r : bytes) : bytes :=
     match r with
     | [] => []
     | c :: r => if is_continuation c then pop r else reverse r
     end) (reverse text).

Record ParsedPaletteQuery := { pq_command : option PaletteCommand; pq_terms : bytes; pq_is_command_mode : bool }.

Fixpoint drop_while (p : ascii -> bool) (s : bytes) : bytes :=
  match s with c :: r => if p c then drop_while p r else s | [] => [] end.
Fixpoint take_while (p : ascii -> bool) (s : bytes) : bytes :=
  match s with c :: r => if p c then c :: take_while p r else [] | [] => [] end.

Definition slash : ascii := "/".
Definition ParsePaletteQuery (raw_query : bytes) (registry : list PaletteCommand) : ParsedPaletteQuery :=
  let q := drop_while isspace raw_query in
  match q with
  | [] => {| pq_command := None; pq_terms := []; pq_is_command_mode := false |}
  | c :: rest =>
      let skip := drop_while (fun c => isspace c || (c =b slash)) in
      if c =b slash then
        let token := take_while (fun c => negb (isspace c) && negb (c =b slash)) rest in
        {| pq_command := (if is_empty token then None else findByNameOrAlias token registry);
           pq_terms := skip (drop (length token) rest); pq_is_command_mode := true |}
      else {| pq_command := None; pq_terms := skip q; pq_is_command_mode := false |}
  end.

Definition PaletteMenuTitle (parsed : ParsedPaletteQuery) : bytes :=
  match pq_command parsed with
  | Some c => if is_empty (pq_terms parsed) then pc_title c else pc_title c ++ ": " ++ pq_terms parsed
  | None =>
      if pq_is_command_mode parsed then "Command Palette"
      else if negb (is_empty (pq_terms parsed)) then "Search: " ++ pq_terms parsed else "Command Palette"
  end.

(** ** Items *)

(** The texts and lists that come from elsewhere: installed speech models that are not
    broken (with whether they are the active one), titles, cached command models, running
    adapters. *)
Record PaletteWorld := {
  pw_local_models : list (bytes * bool);
  pw_title : bytes -> bytes;
  pw_models : list (bytes * bytes * bytes * bool);   (* full id, provider, model, active *)
  pw_running : bytes -> bool;
}.

Definition starred (active : bool) (label : bytes) : bytes := if active then label ++ " *" else label.

Definition item (category : PaletteCategory) (id text comment search : bytes) (active : bool) : PaletteItem :=
  {| pi_category := category; pi_id := id; pi_text := text; pi_comment := comment; pi_search_text := search;
     pi_active := active; pi_provider_id := []; pi_model_id := []; pi_scene_id := []; pi_adapter_id := [];
     pi_adapter_running := false; pi_is_command_entry := false; pi_command_token := [] |}.
#[export] Instance PaletteItem_fields : Fields PaletteItem :=
  fun i => Build_PaletteItem (pi_category i) (pi_id i) (pi_text i) (pi_comment i) (pi_search_text i) (pi_active i)
             (pi_provider_id i) (pi_model_id i) (pi_scene_id i) (pi_adapter_id i) (pi_adapter_running i)
             (pi_is_command_entry i) (pi_command_token i).

Definition model_items (w : PaletteWorld) : list PaletteItem :=
  (fun '(full_id, provider_id, model, active) =>
     item CatCommandModel full_id (provider_id ++ " / " ++ model) (starred active "Cmd-Model")
       (full_id ++ " " ++ provider_id ++ " " ++ model ++ " model cmd") active
       <| pi_provider_id := provider_id |> <| pi_model_id := model |>) <$> pw_models w.

Definition kLocalProvider : bytes := "sherpa-onnx".

Definition local_asr_items (w : PaletteWorld) (c : CoreConfig) : list PaletteItem :=
  let is_local_active := (activeProvider (cc_asr c) =b kLocalProvider) || is_empty (activeProvider (cc_asr c)) in
  (fun '(id, is_active_model) =>
     let is_active := is_local_active && is_active_model in
     let title := pw_title w id in
     let display := if is_empty title then id else title in
     item CatAsr id display (starred is_active "ASR") (id ++ " " ++ display ++ " asr") is_active
       <| pi_provider_id := kLocalProvider |> <| pi_model_id := id |>) <$> pw_local_models w.

Definition remote_asr_item (w : PaletteWorld) (c : CoreConfig) (p : AsrProvider) : option PaletteItem :=
  match p with
  | LocalAsrProvider _ _ _ _ => None
  | _ =>
      let pid := AsrProviderId p in
      if is_empty pid then None
      else
        let is_active := pid =b activeProvider (cc_asr c) in
        let title := pw_title w pid in
        Some (item CatAsr pid title (starred is_active "ASR") (pid ++ " " ++ title ++ " asr") is_active
                <| pi_provider_id := pid |>)
  end.
Definition asr_items (w : PaletteWorld) (c : CoreConfig) : list PaletteItem :=
  local_asr_items w c ++ omap (remote_asr_item w c) (asr_providers (cc_asr c)).

Definition scene_items (c : CoreConfig) : list PaletteItem :=
  (fun s =>
     let is_active := sc_id s =b activeScene (cc_scenes c) in
     let label := DisplayLabel s in
     item CatScene (sc_id s) label (starred is_active "Scene") (sc_id s ++ " " ++ label ++ " scene") is_active
       <| pi_scene_id := sc_id s |>) <$> definitions (cc_scenes c).

(** A middle dot between spaces, in UTF-8. *)
Definition kMiddleDot : bytes := [" "; "194"; "183"; " "]%char.
Definition adapter_items (w : PaletteWorld) (c : CoreConfig) : list PaletteItem :=
  (fun a =>
     let running := pw_running w (la_id a) in
     let title := pw_title w (la_id a) in
     item CatAdapter (la_id a) title
       ("Proc (" ++ (if running then "running" else "stopped" : bytes) ++ (if la_autoStart a then kMiddleDot ++ "autostart" else [] : bytes) ++ ")")
       (la_id a ++ " " ++ title ++ (if running then " running" else " stopped" : bytes) ++ " adapter proc ps") false
       <| pi_adapter_id := la_id a |> <| pi_adapter_running := running |>) <$> llm_adapters (cc_llm c).

Definition getItems (w : PaletteWorld) (c : CoreConfig) (command : PaletteCommand) : list PaletteItem :=
  match pc_category command with
  | CatAsr => asr_items w c
  | CatScene => scene_items c
  | CatCommandModel => model_items w
  | CatAdapter => adapter_items w c
  | CatCustom => []
  end.

Definition palette_command (id alias title description : bytes) (category : PaletteCategory) : PaletteCommand :=
  {| pc_id := id; pc_name := id; pc_alias := alias; pc_title := title; pc_description := description; pc_category := category |}.
Definition clear (commands : list PaletteCommand) : list PaletteCommand := [].
Definition initializePaletteRegistry : list PaletteCommand :=
  foldl (fun cs c => registerCommand c cs) (clear [])
    [palette_command "model" "m" "Cmd-Model" "Switch command model" CatCommandModel;
     palette_command "asr" "a" "ASR" "Switch ASR provider or model" CatAsr;
     palette_command "scene" "s" "Scene" "Switch dictation scene" CatScene;
     palette_command "proc" "p" "Proc" "Manage adapter processes" CatAdapter].

Definition command_token (c : PaletteCommand) : bytes := if is_empty (pc_alias c) then pc_name c else pc_alias c.
Definition command_entry (c : PaletteCommand) : PaletteItem :=
  item (pc_category c) ("cmd:" ++ pc_id c)
    ("/" ++ pc_name c ++ (if is_empty (pc_alias c) then [] else " (/" ++ pc_alias c ++ ")"))
    (pc_description c) (pc_name c ++ " " ++ pc_alias c ++ " " ++ pc_description c) false
    <| pi_is_command_entry := true |> <| pi_command_token := command_token c |>.

Definition reloadPaletteItems (w : PaletteWorld) (c : CoreConfig) (commands : list PaletteCommand) : list PaletteItem :=
  (command_entry <$> commands) ++ concat (getItems w c <$> commands).

(** Is the item listed for the query? *)
Definition listed (query : bytes) (parsed : ParsedPaletteQuery) (i : PaletteItem) : bool :=
  let matching := is_empty (pq_terms parsed) || MatchesAllTerms (pi_search_text i) (pq_terms parsed) in
  if pi_is_command_entry i then
    if is_empty query then true
    else match pq_command parsed with
         | None => pq_is_command_mode parsed && matching
         | Some _ => false
         end
  else if is_empty query then false
  else
    match pq_command parsed with
    | Some c => (pi_category i =b pc_category c) && matching
    | None => negb (pq_is_command_mode parsed) && MatchesAllTerms (pi_search_text i) (pq_terms parsed)
    end.

(** The filter of [rebuildPaletteMenu]: the indices of the listed items, in order. *)
Definition palette_filtered (query : bytes) (commands : list PaletteCommand) (items : list PaletteItem) : list nat :=
  let parsed := ParsePaletteQuery query commands in
  omap (fun '(i, it) => if listed query parsed it then Some i else None) (imap pair items).

(** The query a selected command entry leads to. *)
Definition entry_query (i : PaletteItem) : bytes := "/" ++ pi_command_token i ++ " ".

(** [SetActiveCommandModel]: the configuration that is saved. *)
Fixpoint set_command_model (provider model : bytes) (l : list Scene) : option (list Scene) :=
  match l with
  | [] => None
  | s :: l =>
      if sc_id s =b kCommandSceneId then Some ((s <| sc_provider_id := provider |> <| sc_model := model |>) :: l)
      else cons s <$> set_command_model provider model l
  end.
Definition SetActiveCommandModel (provider model : bytes) (c : CoreConfig) : CoreConfig :=
  let defs := definitions (cc_scenes c) in
  let defs :=
    default (defs ++ [default_scene <| sc_id := kCommandSceneId |> <| sc_label := kCommandSceneLabelKey |>
                                    <| sc_provider_id := provider |> <| sc_model := model |> <| builtin := true |>])
      (set_command_model provider model defs) in
  NormalizeCoreConfig (c <| cc_scenes := cc_scenes c <| definitions := defs |> |>).

(** [onSelect] of the scene and speech commands, on the configuration that is saved;
    the error is the notification. *)
Definition select_scene (i : PaletteItem) (c : CoreConfig) : CoreConfig :=
  c <| cc_scenes := cc_scenes c <| activeScene := pi_scene_id i |> |>.
Definition select_asr (i : PaletteItem) (c : CoreConfig) : result CoreConfig :=
  let c := c <| cc_asr := cc_asr c <| activeProvider := pi_provider_id i |> |> in
  if is_empty (pi_model_id i) then Ok c else SetPreferredLocalModel c (pi_model_id i).

(** ** What the palette does *)

Lemma take_while_app p a b : forallb p a = true -> take_while p (a ++ b) = a ++ take_while p b.
Proof. induction a as [|c a IH]; [done|]. cbn. intros [-> Ha]%andb_true_iff. by rewrite IH. Qed.

(** A name that can be typed after the slash. *)
Definition token_ok (t : bytes) : bool := negb (is_empty t) && forallb (fun c => negb (isspace c) && negb (c =b slash)) t.

(** The query of a command entry is read back as that command, without search terms. *)
Lemma ParsePaletteQuery_entry t commands :
  token_ok t = true ->
  ParsePaletteQuery ("/" ++ t ++ " ") commands =
  {| pq_command := findByNameOrAlias t commands; pq_terms := []; pq_is_command_mode := true |}.
Proof.
  intros [Hne Ht]%andb_true_iff. unfold ParsePaletteQuery.
  change (drop_while isspace ("/" ++ t ++ " ")) with (slash :: t ++ " ").
  cbv zeta iota. rewrite bool_decide_eq_true_2 by done.
  rewrite take_while_app by done. change (take_while _ " ") with ([] : bytes). rewrite app_nil_r, drop_app_length.
  apply negb_true_iff in Hne. by rewrite Hne.
Qed.

(** Backspace removes one character: its first byte and all that continue it. *)
Lemma PopLastUtf8Char_char s lead conts :
  is_continuation lead = false -> Forall (fun c => is_continuation c = true) conts ->
  PopLastUtf8Char (s ++ lead :: conts) = s.
Proof.
  intros Hl Hc. unfold PopLastUtf8Char. rewrite reverse_app, reverse_cons, <-app_assoc. cbn [app].
  apply Forall_reverse in Hc. induction Hc as [|c cs Hcc _ IH]; cbn [app]; [by rewrite Hl, reverse_involutive|by rewrite Hcc].
Qed.

Lemma register_ids c cs :
  NoDup (pc_id <$> cs) -> NoDup (pc_id <$> registerCommand c cs) /\
  (forall x, x ∈ registerCommand c cs -> x = c \/ x ∈ cs).
Proof.
  induction cs as [|d cs IH]; intros Hnd; cbn.
  - split; [repeat constructor; set_solver|]. set_solver.
  - apply NoDup_cons in Hnd as [Hd Hnd]. destruct (IH Hnd) as [Hn Hin]. case_bool_decide as E.
    + split; [|set_solver]. cbn. rewrite <-E. by constructor.
    + split; [|set_solver]. cbn. constructor; [|done]. intros (x & Hx & Hin')%list_elem_of_fmap.
      destruct (Hin x Hin') as [-> |Hc]; [congruence|]. apply Hd. rewrite Hx. by apply list_elem_of_fmap_2.
Qed.

(** The indices of the menu are those of the listed items, in ascending order. *)
Lemma palette_filtered_spec query commands items k :
  k ∈ palette_filtered query commands items <->
  exists it, items !! k = Some it /\ listed query (ParsePaletteQuery query commands) it = true.
Proof.
  unfold palette_filtered. rewrite list_elem_of_omap. split.
  - intros ([j it] & Hin & Hj). apply elem_of_lookup_imap in Hin as (i & y & [= -> ->] & Hi).
    destruct (listed _ _ y) eqn:El; [|done]. injection Hj as ->. eauto.
  - intros (it & Hi & Hl). exists (k, it). rewrite Hl. split; [|done]. apply elem_of_lookup_imap. eauto.
Qed.

(** The palette opens what it names: in a palette whose commands have distinct names and
    aliases that can be typed, selecting the entry of a command leads to a query that is
    read as this command with no search terms, and the menu then lists exactly the items
    of the command's category and no command entries. The built-in commands are such a
    palette. *)
Theorem palette_entry_opens commands items c :
  c ∈ commands -> token_ok (command_token c) = true ->
  (forall d, d ∈ commands -> command_named (command_token c) d = true -> d = c) ->
  let query := entry_query (command_entry c) in
  pq_command (ParsePaletteQuery query commands) = Some c /\
  forall k, k ∈ palette_filtered query commands items <->
    exists it, items !! k = Some it /\ pi_is_command_entry it = false /\ pi_category it = pc_category c.
Proof.
  intros Hc Ht Hu query.
  assert (ParsePaletteQuery query commands = {| pq_command := Some c; pq_terms := []; pq_is_command_mode := true |}) as Hp.
  { unfold query, entry_query. cbn [pi_command_token command_entry]. change (pi_command_token _) with (command_token c).
    rewrite ParsePaletteQuery_entry by done. f_equal. unfold findByNameOrAlias.
    apply andb_true_iff in Ht as Ht'. destruct Ht' as [Hne _]. apply negb_true_iff in Hne. rewrite Hne.
    assert (command_named (command_token c) c = true) as Hself.
    { unfold command_named, command_token. destruct (is_empty (pc_alias c)); [by rewrite EqualsIgnoreCase_refl|].
      cbn [negb andb]. by rewrite (EqualsIgnoreCase_refl (pc_alias c)), orb_true_r. }
    destruct (list_find _ commands) as [[i d]|] eqn:El.
    - apply list_find_Some in El as (Hi & Hd & _). cbn. f_equal. apply Hu; [|done]. by eapply list_elem_of_lookup_2.
    - exfalso. apply list_find_None in El. rewrite Forall_forall in El. by apply (El c Hc). }
  rewrite Hp. split; [done|]. intros k. rewrite palette_filtered_spec, Hp. unfold listed. cbn [pq_command pq_terms pq_is_command_mode].
  assert (is_empty query = false) as -> by done. split.
  - intros (it & Hi & Hl). exists it. split; [done|]. destruct (pi_is_command_entry it); [done|]. split; [done|].
    apply andb_true_iff in Hl as [Hl _]. by apply bool_decide_eq_true in Hl.
  - intros (it & Hi & He & Hcat). exists it. split; [done|]. rewrite He. cbn. by rewrite bool_decide_eq_true_2.
Qed.

Lemma palette_entry_opens_witness :
  pq_command (ParsePaletteQuery "/s " initializePaletteRegistry)
  = Some (palette_command "scene" "s" "Scene" "Switch dictation scene" CatScene).
Proof.
  apply (palette_entry_opens initializePaletteRegistry []
           (palette_command "scene" "s" "Scene" "Switch dictation scene" CatScene)).
  - vm_compute. do 2 right. left.
  - reflexivity.
  - intros d Hd. change initializePaletteRegistry with
      [palette_command "model" "m" "Cmd-Model" "Switch command model" CatCommandModel;
       palette_command "asr" "a" "ASR" "Switch ASR provider or model" CatAsr;
       palette_command "scene" "s" "Scene" "Switch dictation scene" CatScene;
       palette_command "proc" "p" "Proc" "Manage adapter processes" CatAdapter] in Hd.
    rewrite !elem_of_cons in Hd. destruct Hd as [-> |[-> |[-> |[-> |Hd%elem_of_nil]]]]; [discriminate..|reflexivity|discriminate|done].
Defined.
