(* ===== verification/ConfigCodec.v ===== *)
(** * The configuration codec (src/src/common/config/core_config_json.cpp)

    The wire types, both conversions, and the reader and writer of config.json.
    Glaze, which turns wire values into text and back, is a parameter (the class
    [Glaze]); the file's own part is which member is written when, and how a
    missing, mistyped or unknown member is read. *)

From S2P Require Import Prelude StringUtils Floats Json Scene CoreConfig.

(** ** The wire types: an optional member is absent from the text *)

Record LlmProviderWire := {
  lpw_id : bytes; lpw_base_url : option bytes; lpw_api_key : option bytes;
  lpw_json_object : option bool; lpw_extra_body : option json;
}.

(** [ClientSpecWire] is the same type. *)
Record LlmAdapterWire := {
  law_id : bytes; law_command : bytes; law_args : option json; law_env : option json;
  law_auto_start : option bool;
}.
Abbreviation ClientSpecWire := LlmAdapterWire.

Record AsrProviderWire := {
  apw_id : bytes; apw_type : bytes; apw_model : option bytes; apw_hotwords_file : option bytes;
  apw_command : option bytes; apw_args : option json; apw_env : option json;
  apw_timeout_ms : option Z;
}.

Record GlobalWire := {
  gw_capture_device : bytes; gw_duck_output_while_recording : bool; gw_duck_output_volume : flt;
}.

Record VadWire := {
  vw_enabled : bool; vw_threshold : flt; vw_min_speech_duration : flt;
  vw_min_silence_duration : flt; vw_speech_pad_ms : Z;
}.

Record RegistryWire := { rw_base_urls : option json }.

Record SceneWire := {
  sw_id : bytes; sw_label : option bytes; sw_prompt : option bytes; sw_provider_id : option bytes;
  sw_model : option bytes; sw_count : option Z; sw_timeout_ms : option Z;
  sw_context_lines : option Z; sw_raw_cand : option bool; sw_raw_prev : option bool;
}.

Record LlmWire := {
  lw_providers : option (list LlmProviderWire); lw_adapters : option (list LlmAdapterWire);
}.

Record AsrWire := {
  aw_active_provider : bytes; aw_normalize_audio : bool; aw_input_gain : flt;
  aw_vad : option VadWire; aw_providers : option (list AsrProviderWire);
}.

Record ScenesWire := { ssw_active_scene : bytes; ssw_definitions : option (list SceneWire) }.

Record CoreConfigWire := {
  ccw_version : option json; ccw_registry : option RegistryWire; ccw_global : option GlobalWire;
  ccw_asr : option AsrWire; ccw_llm : option LlmWire; ccw_scenes : option ScenesWire;
  ccw_triggers : option (list ClientSpecWire); ccw_receivers : option (list ClientSpecWire);
}.

(** ** [std::map<std::string, std::string>] as a list in key order *)

Definition key_le (a b : bytes * bytes) : Prop := bytes_ltb b.1 a.1 = false.
#[export] Instance key_le_dec : RelDecision key_le.
Proof. intros a b. unfold key_le. apply _. Defined.

Definition map_entries (m : gmap bytes bytes) : list (bytes * bytes) :=
  merge_sort key_le (map_to_list m).

Lemma list_to_map_entries m : list_to_map (map_entries m) = m.
Proof.
  unfold map_entries. rewrite (list_to_map_proper _ (map_to_list m)).
  - apply list_to_map_to_list.
  - rewrite merge_sort_Permutation. apply NoDup_fst_map_to_list.
  - apply merge_sort_Permutation.
Qed.

(** ** Wire to domain

    Every [FromWire] fills a default-constructed value. *)

Definition FromWire_LlmProvider (w : LlmProviderWire) : LlmProvider :=
  {| lp_id := lpw_id w;
     lp_base_url := default [] (lpw_base_url w);
     lp_api_key := default [] (lpw_api_key w);
     lp_json_object := default true (lpw_json_object w);
     lp_extra_body := match lpw_extra_body w with
                      | Some v => if is_object v then v else EmptyObject
                      | None => EmptyObject
                      end |}.

Definition wire_args (args : option json) : list bytes :=
  match args with Some v => Strings v | None => [] end.
Definition wire_env (env : option json) : gmap bytes bytes :=
  match env with Some v => list_to_map (StringMap v) | None => ∅ end.

Definition FromWire_LlmAdapter (w : LlmAdapterWire) : LlmAdapter :=
  {| la_id := law_id w; la_command := law_command w; la_args := wire_args (law_args w);
     la_env := wire_env (law_env w); la_autoStart := default false (law_auto_start w) |}.

Definition FromWire_ClientSpec (w : ClientSpecWire) : ClientSpec :=
  {| cs_id := law_id w; cs_command := law_command w; cs_args := wire_args (law_args w);
     cs_env := wire_env (law_env w); cs_autoStart := default false (law_auto_start w) |}.

(** Unknown provider kinds keep the default-constructed provider. *)
Definition FromWire_AsrProvider (w : AsrProviderWire) : AsrProvider :=
  if apw_type w =b kLocalProviderType then
    LocalAsrProvider (apw_id w) (default 0%Z (apw_timeout_ms w)) (default [] (apw_model w))
      (default [] (apw_hotwords_file w))
  else if apw_type w =b kCommandProviderType then
    CommandAsrProvider (apw_id w) (default 0%Z (apw_timeout_ms w)) (default [] (apw_command w))
      (wire_args (apw_args w)) (wire_env (apw_env w))
  else LocalAsrProvider [] 0 [] [].

Definition FromWire_Global (w : GlobalWire) : Global :=
  {| captureDevice := gw_capture_device w;
     duckOutputWhileRecording := gw_duck_output_while_recording w;
     duckOutputVolume := gw_duck_output_volume w |}.

Definition FromWire_Vad (w : VadWire) : Vad :=
  {| vad_enabled := vw_enabled w; vad_threshold := vw_threshold w;
     minSpeechDuration := vw_min_speech_duration w;
     minSilenceDuration := vw_min_silence_duration w; speechPadMs := vw_speech_pad_ms w |}.

Definition FromWire_Registry (w : RegistryWire) : list bytes :=
  match rw_base_urls w with
  | Some v => filter (fun url => is_empty url = false) (Strings v)
  | None => []
  end.

Definition FromWire_Scene (w : SceneWire) : Scene :=
  {| sc_id := sw_id w; sc_label := default [] (sw_label w); sc_prompt := default [] (sw_prompt w);
     sc_provider_id := default [] (sw_provider_id w); sc_model := default [] (sw_model w);
     llm_max_candidates := default kDefaultLlmMaxCandidates (sw_count w);
     timeout_ms := default kDefaultTimeoutMs (sw_timeout_ms w);
     context_lines := default kDefaultContextLines (sw_context_lines w);
     raw_cand := default true (sw_raw_cand w); raw_prev := default true (sw_raw_prev w);
     builtin := false |}.

(** The sections overwrite only the members that are present. *)
Definition FromWire_Llm (w : LlmWire) (llm : Llm) : Llm :=
  {| llm_providers := match lw_providers w with
                      | Some l => FromWire_LlmProvider <$> l | None => llm_providers llm end;
     llm_adapters := match lw_adapters w with
                     | Some l => FromWire_LlmAdapter <$> l | None => llm_adapters llm end |}.

Definition FromWire_Asr (w : AsrWire) (asr : Asr) : Asr :=
  {| activeProvider := aw_active_provider w; normalizeAudio := aw_normalize_audio w;
     inputGain := aw_input_gain w;
     asr_vad := match aw_vad w with Some v => FromWire_Vad v | None => asr_vad asr end;
     asr_providers := match aw_providers w with
                      | Some l => FromWire_AsrProvider <$> l | None => asr_providers asr end |}.

Definition FromWire_Scenes (w : ScenesWire) (s : Scenes) : Scenes :=
  {| activeScene := ssw_active_scene w;
     definitions := match ssw_definitions w with
                    | Some l => FromWire_Scene <$> l | None => definitions s end |}.

(** ** Domain to wire: only meaningful members are written *)

(** [if (!s.empty()) wire.member = s;] *)
Definition when {A} (b : bool) (x : A) : option A := if b then Some x else None.
Definition nonempty {A} (l : list A) : bool := negb (is_empty l).

(** [glz::json_t::empty] of an object *)
Definition object_empty (v : json) : bool := match v with JObject ms => is_empty ms | _ => true end.

Definition ToWire_LlmProvider (p : LlmProvider) : LlmProviderWire :=
  {| lpw_id := lp_id p;
     lpw_base_url := when (nonempty (lp_base_url p)) (lp_base_url p);
     lpw_api_key := when (nonempty (lp_api_key p)) (lp_api_key p);
     lpw_json_object := when (negb (lp_json_object p)) false;
     lpw_extra_body := when (is_object (lp_extra_body p) && negb (object_empty (lp_extra_body p)))
                         (lp_extra_body p) |}.

Definition args_wire (args : list bytes) : option json := when (nonempty args) (FromStrings args).
Definition env_wire (env : gmap bytes bytes) : option json :=
  when (nonempty (map_entries env)) (FromStringMap (map_entries env)).

Definition ToWire_LlmAdapter (a : LlmAdapter) : LlmAdapterWire :=
  {| law_id := la_id a; law_command := la_command a; law_args := args_wire (la_args a);
     law_env := env_wire (la_env a); law_auto_start := when (la_autoStart a) true |}.

Definition ToWire_ClientSpec (c : ClientSpec) : ClientSpecWire :=
  {| law_id := cs_id c; law_command := cs_command c; law_args := args_wire (cs_args c);
     law_env := env_wire (cs_env c); law_auto_start := when (cs_autoStart c) true |}.

Definition ToWire_AsrProvider (p : AsrProvider) : AsrProviderWire :=
  match p with
  | LocalAsrProvider id timeoutMs model hotwordsFile =>
      {| apw_id := id; apw_type := AsrProviderType p; apw_model := when (nonempty model) model;
         apw_hotwords_file := when (nonempty hotwordsFile) hotwordsFile;
         apw_command := None; apw_args := None; apw_env := None;
         apw_timeout_ms := when (0 <? timeoutMs)%Z timeoutMs |}
  | CommandAsrProvider id timeoutMs command args env =>
      {| apw_id := id; apw_type := AsrProviderType p; apw_model := None; apw_hotwords_file := None;
         apw_command := when (nonempty command) command; apw_args := args_wire args;
         apw_env := env_wire env; apw_timeout_ms := when (0 <? timeoutMs)%Z timeoutMs |}
  end.

Definition ToWire_Global (g : Global) : GlobalWire :=
  {| gw_capture_device := captureDevice g;
     gw_duck_output_while_recording := duckOutputWhileRecording g;
     gw_duck_output_volume := duckOutputVolume g |}.

Definition ToWire_Vad (v : Vad) : VadWire :=
  {| vw_enabled := vad_enabled v; vw_threshold := vad_threshold v;
     vw_min_speech_duration := minSpeechDuration v;
     vw_min_silence_duration := minSilenceDuration v; vw_speech_pad_ms := speechPadMs v |}.

Definition ToWire_Registry (urls : list bytes) : RegistryWire := {| rw_base_urls := args_wire urls |}.

Definition ToWire_Scene (s : Scene) : SceneWire :=
  {| sw_id := sc_id s;
     sw_label := when (nonempty (sc_label s) && negb (IsBuiltinSceneLabelKey (sc_label s))
                       && negb (IsBuiltinSceneId (sc_id s))) (sc_label s);
     sw_prompt := when (nonempty (sc_prompt s)) (sc_prompt s);
     sw_provider_id := when (nonempty (sc_provider_id s)) (sc_provider_id s);
     sw_model := when (nonempty (sc_model s)) (sc_model s);
     sw_count := when (negb (llm_max_candidates s =? kDefaultLlmMaxCandidates)%Z) (llm_max_candidates s);
     sw_timeout_ms := when (negb (timeout_ms s =? kDefaultTimeoutMs)%Z) (timeout_ms s);
     sw_context_lines := when (negb (context_lines s =? kDefaultContextLines)%Z) (context_lines s);
     sw_raw_cand := when (negb (raw_cand s)) false;
     sw_raw_prev := when (negb (raw_prev s)) false |}.

Definition ToWire_Llm (llm : Llm) : LlmWire :=
  {| lw_providers := Some (ToWire_LlmProvider <$> llm_providers llm);
     lw_adapters := Some (ToWire_LlmAdapter <$> llm_adapters llm) |}.

Definition ToWire_Asr (asr : Asr) : AsrWire :=
  {| aw_active_provider := activeProvider asr; aw_normalize_audio := normalizeAudio asr;
     aw_input_gain := inputGain asr; aw_vad := Some (ToWire_Vad (asr_vad asr));
     aw_providers := Some (ToWire_AsrProvider <$> asr_providers asr) |}.

Definition ToWire_Scenes (s : Scenes) : ScenesWire :=
  {| ssw_active_scene := activeScene s; ssw_definitions := Some (ToWire_Scene <$> definitions s) |}.

Definition ToWire (c : CoreConfig) : CoreConfigWire :=
  {| ccw_version := Some (JString (cc_version c));
     ccw_registry := Some (ToWire_Registry (baseUrls c));
     ccw_global := Some (ToWire_Global (cc_global c));
     ccw_asr := Some (ToWire_Asr (cc_asr c));
     ccw_llm := Some (ToWire_Llm (cc_llm c));
     ccw_scenes := Some (ToWire_Scenes (cc_scenes c));
     ccw_triggers := when (nonempty (triggers c)) (ToWire_ClientSpec <$> triggers c);
     ccw_receivers := when (nonempty (receivers c)) (ToWire_ClientSpec <$> receivers c) |}.

(** ** Text *)

(** The JSON library: the writer of a whole configuration, the generic tree reader
    and writer, and the readers of each section's type with the options of
    [kConfigReadOpts] (unknown keys ignored, a mistyped member is an error). *)
Class Glaze := {
  write_config : CoreConfigWire -> option bytes;
  read_tree : bytes -> result json;
  write_tree : json -> option bytes;
  read_registry : bytes -> option RegistryWire;
  read_global : bytes -> option GlobalWire;
  read_llm : bytes -> option LlmWire;
  read_scenes : bytes -> option ScenesWire;
  read_asr : bytes -> option AsrWire;
  read_clients : bytes -> option (list ClientSpecWire);
}.

Section codec.
Context `{Glaze}.

Definition CoreConfigToJson (c : CoreConfig) : bytes := default [] (write_config (ToWire c)).

(** [None]: the section is skipped. *)
Definition ReadSection {T} (read : bytes -> option T) (root : json) (key : bytes) : option T :=
  node ← Find root key; section_text ← write_tree node; read section_text.

(** A numeric version is truncated to [int]; [None] when that is undefined. *)
Definition read_version (root : json) (fallback : bytes) : option bytes :=
  match Find root "version" with
  | Some (JString text) => Some text
  | Some (JNumber numeric) => to_string <$> to_int (-2147483648) 2147483647 numeric
  | _ => Some fallback
  end.

(** A section of the default configuration, replaced when it can be read. *)
Definition section {T A} (read : bytes -> option T) (root : json) (key : bytes) (from : T -> A) (dflt : A) : A :=
  match ReadSection read root key with Some wire => from wire | None => dflt end.

Definition parse_sections (version : bytes) (root : json) : CoreConfig :=
  let parsed := default_core_config in
  {| cc_version := version;
     baseUrls := section read_registry root "registry" FromWire_Registry (baseUrls parsed);
     cc_global := section read_global root "global" FromWire_Global (cc_global parsed);
     cc_llm := section read_llm root "llm" (fun w => FromWire_Llm w (cc_llm parsed)) (cc_llm parsed);
     cc_asr := section read_asr root "asr" (fun w => FromWire_Asr w (cc_asr parsed)) (cc_asr parsed);
     cc_scenes := section read_scenes root "scenes" (fun w => FromWire_Scenes w (cc_scenes parsed))
                    (cc_scenes parsed);
     triggers := section read_clients root "triggers" (fmap FromWire_ClientSpec) (triggers parsed);
     receivers := section read_clients root "receivers" (fmap FromWire_ClientSpec) (receivers parsed) |}.

(** [None]: undefined behaviour in the conversion of the version number. *)
Definition CoreConfigFromJson (text : bytes) : option (result CoreConfig) :=
  if is_empty text then Some (Err "Config is empty.")
  else
    match read_tree text with
    | Err e => Some (Err e)
    | Ok root =>
        if negb (is_object root) then Some (Err "Config root is not a JSON object.")
        else
          version ← read_version root (cc_version default_core_config);
          Some (Ok (parse_sections version root))
    end.

(** What the code relies on: the text written for a value [w], possibly followed by
    white space [tail], reads back as an object that has exactly the members of [w],
    and each member's node reads back as the member. *)
Definition member_back {T} (read : bytes -> option T) (root : json) (key : bytes) (member : option T) : Prop :=
  match member with
  | Some v => exists node text, Find root key = Some node /\ write_tree node = Some text /\ read text = Some v
  | None => Find root key = None
  end.

Record reads_back (w : CoreConfigWire) (text tail : bytes) (root : json) : Prop := {
  rb_written : write_config w = Some text;
  rb_nonempty : text <> [];
  rb_read : read_tree (text ++ tail) = Ok root;
  rb_object : is_object root = true;
  rb_version : Find root "version" = ccw_version w;
  rb_registry : member_back read_registry root "registry" (ccw_registry w);
  rb_global : member_back read_global root "global" (ccw_global w);
  rb_llm : member_back read_llm root "llm" (ccw_llm w);
  rb_asr : member_back read_asr root "asr" (ccw_asr w);
  rb_scenes : member_back read_scenes root "scenes" (ccw_scenes w);
  rb_triggers : member_back read_clients root "triggers" (ccw_triggers w);
  rb_receivers : member_back read_clients root "receivers" (ccw_receivers w);
}.

Lemma section_back {T A} read root key (member : option T) (from : T -> A) dflt :
  member_back read root key member ->
  section read root key from dflt = match member with Some w => from w | None => dflt end.
Proof.
  unfold section, ReadSection, member_back. destruct member; [|by intros ->].
  intros (node & text & -> & Hw & Hr). simpl. rewrite Hw. simpl. by rewrite Hr.
Qed.
End codec.

(** ** What survives a save and a load *)

Definition persist_LlmProvider (p : LlmProvider) : LlmProvider :=
  {| lp_id := lp_id p; lp_base_url := lp_base_url p; lp_api_key := lp_api_key p;
     lp_json_object := lp_json_object p;
     lp_extra_body := if is_object (lp_extra_body p) then lp_extra_body p else EmptyObject |}.

Definition persist_AsrProvider (p : AsrProvider) : AsrProvider :=
  match p with
  | LocalAsrProvider id t model hotwords => LocalAsrProvider id (Z.max t 0) model hotwords
  | CommandAsrProvider id t command args env => CommandAsrProvider id (Z.max t 0) command args env
  end.

(** The label of a built-in scene, and a label that is a translation key, are not
    written; the [builtin] flag is [flag]. *)
Definition persist_Scene (flag : bytes -> bool) (s : Scene) : Scene :=
  {| sc_id := sc_id s;
     sc_label := if IsBuiltinSceneLabelKey (sc_label s) || IsBuiltinSceneId (sc_id s)
                 then [] else sc_label s;
     sc_prompt := sc_prompt s; sc_provider_id := sc_provider_id s; sc_model := sc_model s;
     llm_max_candidates := llm_max_candidates s; timeout_ms := timeout_ms s;
     context_lines := context_lines s; raw_cand := raw_cand s; raw_prev := raw_prev s;
     builtin := flag (sc_id s) |}.

Definition persist_with (flag : bytes -> bool) (c : CoreConfig) : CoreConfig :=
  {| cc_version := cc_version c;
     baseUrls := filter (fun url => is_empty url = false) (baseUrls c);
     cc_global := cc_global c;
     cc_llm := {| llm_providers := persist_LlmProvider <$> llm_providers (cc_llm c);
                  llm_adapters := llm_adapters (cc_llm c) |};
     cc_asr := {| activeProvider := activeProvider (cc_asr c); normalizeAudio := normalizeAudio (cc_asr c);
                  inputGain := inputGain (cc_asr c); asr_vad := asr_vad (cc_asr c);
                  asr_providers := persist_AsrProvider <$> asr_providers (cc_asr c) |};
     cc_scenes := {| activeScene := activeScene (cc_scenes c);
                     definitions := persist_Scene flag <$> definitions (cc_scenes c) |};
     triggers := triggers c; receivers := receivers c |}.

(** What the reader returns, and what normalisation makes of it. *)
Definition persist : CoreConfig -> CoreConfig := persist_with (fun _ => false).
Definition settled : CoreConfig -> CoreConfig := persist_with IsBuiltinSceneId.

Lemma default_when {A} (b : bool) (x d : A) : default d (when b x) = if b then x else d.
Proof. by destruct b. Qed.

Lemma default_when_list {A} (l : list A) : default [] (when (nonempty l) l) = l.
Proof. by destruct l. Qed.

Lemma args_roundtrip args : wire_args (args_wire args) = args.
Proof.
  unfold wire_args, args_wire. destruct args as [|a args]; [done|]. simpl. f_equal.
  induction args as [|b args IH]; [done|]. simpl. by f_equal.
Qed.

Lemma env_roundtrip env : wire_env (env_wire env) = env.
Proof.
  rewrite <-(list_to_map_entries env) at 2. unfold wire_env, env_wire.
  destruct (map_entries env) as [|kv l] eqn:E; [done|].
  cbn [when nonempty is_empty negb]. by rewrite StringMap_FromStringMap.
Qed.

#[export] Hint Rewrite @default_when @default_when_list args_roundtrip env_roundtrip : vinput.

Lemma FromTo_LlmProvider p : FromWire_LlmProvider (ToWire_LlmProvider p) = persist_LlmProvider p.
Proof.
  destruct p as [id url key obj eb]. unfold FromWire_LlmProvider, ToWire_LlmProvider, persist_LlmProvider.
  simpl. autorewrite with vinput. f_equal; [by destruct obj|].
  destruct eb as [| | | | |[|m ms]]; done.
Qed.

Lemma FromTo_LlmAdapter a : FromWire_LlmAdapter (ToWire_LlmAdapter a) = a.
Proof.
  destruct a as [id cmd args env []]; unfold FromWire_LlmAdapter, ToWire_LlmAdapter; simpl;
    by autorewrite with vinput.
Qed.

Lemma FromTo_ClientSpec a : FromWire_ClientSpec (ToWire_ClientSpec a) = a.
Proof.
  destruct a as [id cmd args env []]; unfold FromWire_ClientSpec, ToWire_ClientSpec; simpl;
    by autorewrite with vinput.
Qed.

Lemma timeout_roundtrip t : default 0%Z (when (0 <? t)%Z t) = Z.max t 0.
Proof. rewrite default_when. destruct (Z.ltb_spec 0 t); lia. Qed.

Lemma FromTo_AsrProvider p : FromWire_AsrProvider (ToWire_AsrProvider p) = persist_AsrProvider p.
Proof.
  destruct p; unfold FromWire_AsrProvider, ToWire_AsrProvider; cbn -[timeout_roundtrip];
    rewrite timeout_roundtrip; by autorewrite with vinput.
Qed.

Lemma default_int (z d : Z) : default d (when (negb (z =? d)%Z) z) = z.
Proof. rewrite default_when. by destruct (Z.eqb_spec z d). Qed.

Lemma default_flag (b : bool) : default true (when (negb b) false) = b.
Proof. by destruct b. Qed.

Lemma FromTo_Scene s : FromWire_Scene (ToWire_Scene s) = persist_Scene (fun _ => false) s.
Proof.
  unfold FromWire_Scene, ToWire_Scene, persist_Scene. simpl.
  rewrite !default_int, !default_flag. autorewrite with vinput. f_equal.
  destruct (sc_label s); simpl; [by case_match|].
  by destruct (IsBuiltinSceneLabelKey _), (IsBuiltinSceneId _).
Qed.

Lemma clients_roundtrip l :
  match when (nonempty l) (ToWire_ClientSpec <$> l) with
  | Some w => FromWire_ClientSpec <$> w | None => [] end = l.
Proof.
  destruct l as [|c l]; [done|]. cbn [when nonempty is_empty negb].
  by rewrite (fmap_eq_fmap id), list_fmap_id by apply FromTo_ClientSpec.
Qed.

(** The reader gives back what was written, up to the documented omissions. *)
Lemma FromJson_ToJson `{Glaze} c text tail root :
  reads_back (ToWire c) text tail root ->
  CoreConfigToJson c = text /\ CoreConfigFromJson (text ++ tail) = Some (Ok (persist c)).
Proof.
  intros [Hw Hne Hr Ho Hv]. unfold CoreConfigToJson, CoreConfigFromJson. rewrite Hw. split; [done|].
  destruct text as [|ch text]; [done|]. cbn [app is_empty]. cbn [app] in Hr. rewrite Hr, Ho. cbn [negb].
  unfold read_version. rewrite Hv. cbn [ToWire ccw_version mbind option_bind]. do 2 f_equal.
  unfold parse_sections, persist, persist_with.
  erewrite !section_back by eassumption.
  cbn [ToWire ccw_registry ccw_global ccw_llm ccw_asr ccw_scenes ccw_triggers ccw_receivers].
  rewrite !clients_roundtrip. f_equal.
  - unfold FromWire_Registry, ToWire_Registry; simpl. destruct (baseUrls c) as [|u us] eqn:E; [done|].
    change (match args_wire (u :: us) with Some v => filter (fun url => is_empty url = false) (Strings v) | None => [] end
      = filter (fun url => is_empty url = false) (u :: us)).
    f_equal. apply (args_roundtrip (u :: us)).
  - by destruct (cc_global c).
  - unfold FromWire_Llm, ToWire_Llm; simpl. f_equal; [apply fmap_eq_fmap, FromTo_LlmProvider|].
    rewrite (fmap_eq_fmap id), list_fmap_id by apply FromTo_LlmAdapter. done.
  - unfold FromWire_Asr, ToWire_Asr; simpl. f_equal; [by destruct (asr_vad _)|].
    apply fmap_eq_fmap, FromTo_AsrProvider.
  - unfold FromWire_Scenes, ToWire_Scenes; simpl. f_equal. apply fmap_eq_fmap, FromTo_Scene.
Qed.

(** ** Normalisation after a load *)

(** A rewrite that keeps the ids and the kept entries keeps the loop's guarantee. *)
Lemma loop_ok_fmap {A} (id_of : A -> bytes) keep (f : A -> A) seen l :
  (forall x, id_of (f x) = id_of x) -> (forall x, keep x = Some x -> keep (f x) = Some (f x)) ->
  loop_ok id_of keep seen l -> loop_ok id_of keep seen (f <$> l).
Proof.
  intros Hid Hk [Hu Hn Hf Hkeep]. split.
  - by rewrite (fmap_eq_fmap id_of).
  - apply Forall_fmap. eapply Forall_impl; [exact Hn|]. intros x; simpl. by rewrite Hid.
  - apply Forall_fmap. eapply Forall_impl; [exact Hf|]. intros x; simpl. by rewrite Hid.
  - apply Forall_fmap. eapply Forall_impl; [exact Hkeep|]. intros x; simpl. auto.
Qed.

Lemma list_find_fmap_is_Some {A} (id_of : A -> bytes) (f : A -> A) id l :
  (forall x, id_of (f x) = id_of x) ->
  is_Some (list_find (fun x => id_of x = id) l) -> is_Some (list_find (fun x => id_of x = id) (f <$> l)).
Proof.
  intros Hid [[i x] (Hi & Hx & _)%list_find_Some].
  apply (list_find_elem_of _ _ (f x)); [|by rewrite Hid].
  apply list_elem_of_fmap_2. eauto using list_elem_of_lookup_2.
Qed.

Lemma persist_Scene_normal s : normal_scene s -> normal_scene (persist_Scene IsBuiltinSceneId s).
Proof.
  intros [[Hv Hn] Hp]. split; [split|].
  - done.
  - unfold NormalizeDefinition in *; destruct s; simpl in *. injection Hn as Hmax Ht Hc Hb.
    rewrite Hmax, Ht, Hc. unfold persist_Scene; simpl. f_equal. by destruct (IsBuiltinSceneId sc_id).
  - unfold upgrade_prompt, outdated_prompt in *. cbn [persist_Scene sc_id sc_prompt].
    destruct (_ && _); [|done]. unfold set_prompt in *. destruct s; simpl in *. by injection Hp as <-.
Qed.

Lemma settled_normal c : config_normal c -> config_normal (settled c).
Proof.
  intros [Hu Hd Hp Ha Hs Hact Hg Hv [[Hsu Hsf Hsn] Hraw Hcmd] Hscene Ht Hr].
  assert (forall l : list Scene, sc_id <$> (persist_Scene IsBuiltinSceneId <$> l) = sc_id <$> l) as Hids.
  { intros l. by apply fmap_eq_fmap. }
  split; cbn -[lookup_id FindScene normalize_vad fclamp]; try done.
  - rewrite filter_id; [done|]. destruct Hu as [_ Hn _ _].
    eapply Forall_impl; [exact Hn|]. intros u. apply is_empty_false.
  - by apply loop_ok_fmap.
  - apply loop_ok_fmap; [by intros []| |done]. intros [|? ? cmd]; simpl; [done|].
    destruct (is_empty cmd); [done|]. by intros [= ->].
  - destruct Hact as [?|Hs']; [by left|right]. revert Hs'. unfold lookup_id.
    destruct (is_empty _); [done|]. rewrite !fmap_is_Some. apply list_find_fmap_is_Some. by intros [].
  - split; [split|..]; rewrite ?Hids; try done; apply Forall_fmap.
    + eapply Forall_impl; [exact Hsf|]. done.
    + eapply Forall_impl; [exact Hsn|]. intros s; apply persist_Scene_normal.
  - destruct Hscene as [?|Hs']; [by left|right]. revert Hs'. unfold FindScene.
    rewrite !fmap_is_Some. by apply list_find_fmap_is_Some.
Qed.

(** Scene normalisation reads a definition only through [NormalizeDefinition]. *)
Lemma normalize_scenes_ext l l' :
  NormalizeDefinition <$> l = NormalizeDefinition <$> l' -> normalize_scenes l = normalize_scenes l'.
Proof.
  intros Heq. unfold normalize_scenes. generalize (∅ : gset bytes) as seen.
  assert (forall seen, normalize_scenes_loop seen l = normalize_scenes_loop seen l') as Hl; [|by intros; rewrite Hl].
  revert l' Heq. induction l as [|s l IH]; intros [|s' l']; try done.
  rewrite !fmap_cons. intros Heq seen. pose proof (f_equal (head (A := Scene)) Heq) as Hs.
  pose proof (f_equal tail Heq) as Hl. cbn [head tail] in Hs, Hl. apply (inj Some) in Hs.
  cbn [normalize_scenes_loop]. rewrite Hs.
  destruct (ValidateDefinition _ _); [|auto]. case_bool_decide; [auto|]. by rewrite (IH l' Hl).
Qed.

Lemma Normalize_persist c : config_normal c -> NormalizeCoreConfig (persist c) = settled c.
Proof.
  intros Hc. rewrite <-(Normalize_normal (settled c)) by (by apply settled_normal).
  assert (normalize_scenes (persist_Scene (fun _ => false) <$> definitions (cc_scenes c))
    = normalize_scenes (persist_Scene IsBuiltinSceneId <$> definitions (cc_scenes c))) as Hs.
  { apply normalize_scenes_ext. rewrite <-!list_fmap_compose. apply list_fmap_ext. intros _ s _.
    unfold compose, NormalizeDefinition; simpl. f_equal. by destruct (IsBuiltinSceneId _). }
  unfold NormalizeCoreConfig, persist, settled, persist_with.
  cbn [cc_version baseUrls cc_global cc_llm cc_asr cc_scenes triggers receivers llm_providers llm_adapters
       activeProvider normalizeAudio inputGain asr_vad asr_providers activeScene definitions].
  by rewrite Hs.
Qed.

Lemma settled_idemp c : settled (settled c) = settled c.
Proof.
  unfold settled, persist_with.
  cbn [cc_version baseUrls cc_global cc_llm cc_asr cc_scenes triggers receivers llm_providers llm_adapters
       activeProvider normalizeAudio inputGain asr_vad asr_providers activeScene definitions].
  f_equal; [|f_equal; apply fmap_eq_fmap|f_equal; apply fmap_eq_fmap|f_equal; apply fmap_eq_fmap].
  - apply filter_id, Forall_forall. by intros x [? ?]%list_elem_of_filter.
  - intros []. unfold persist_LlmProvider; simpl. f_equal. destruct (is_object lp_extra_body) eqn:E; by rewrite ?E.
  - intros []; simpl; f_equal; lia.
  - intros []. unfold persist_Scene; simpl. f_equal.
    destruct (IsBuiltinSceneLabelKey sc_label) eqn:E1, (IsBuiltinSceneId sc_id) eqn:E2; simpl; by rewrite ?E1.
Qed.

(** C38. A configuration that is saved and loaded comes back: for any configuration,
    reading the text written for its normalised form succeeds, and normalising the
    result gives [settled] of it, which differs only in what the writer leaves out
    by design (labels of built-in scenes, non-object request bodies, negative
    timeouts). Saving and loading once more changes nothing. *)
Theorem config_save_load `{Glaze} c tail text root :
  let n := NormalizeCoreConfig c in
  reads_back (ToWire n) text tail root ->
  (exists parsed, CoreConfigFromJson (CoreConfigToJson n ++ tail) = Some (Ok parsed) /\
     NormalizeCoreConfig parsed = settled n) /\
  NormalizeCoreConfig (settled n) = settled n /\ settled (settled n) = settled n.
Proof.
  intros n Hb. pose proof (config_normal_Normalize c : config_normal n) as Hn.
  destruct (FromJson_ToJson n text tail root Hb) as [-> Hr]. split_and!.
  - exists (persist n). split; [done|by apply Normalize_persist].
  - by apply Normalize_normal, settled_normal.
  - apply settled_idemp.
Qed.

(** A library that knows one text: enough to run the codec on one configuration. *)
Definition demo_config : CoreConfig :=
  {| cc_version := ">=2.4.0"; baseUrls := ["https://a"];
     cc_global := cc_global default_core_config;
     cc_llm := {| llm_providers := [{| lp_id := "p"; lp_base_url := "u"; lp_api_key := [];
                                       lp_json_object := false; lp_extra_body := JNull |}];
                  llm_adapters := [] |};
     cc_asr := {| activeProvider := "local"; normalizeAudio := false; inputGain := f64_of_Z 1;
                  asr_vad := asr_vad (cc_asr default_core_config);
                  asr_providers := [LocalAsrProvider "local" (-5) "m" [];
                                    CommandAsrProvider "c" 10 "cmd" ["x"] {[ "K" := "V" ]}] |};
     cc_scenes := {| activeScene := kRawSceneId; definitions := [] |};
     triggers := [{| cs_id := "t"; cs_command := "run"; cs_args := []; cs_env := ∅; cs_autoStart := true |}];
     receivers := [] |}.

Definition demo_glaze (w : CoreConfigWire) : Glaze :=
  {| write_config := fun _ => Some "{}";
     read_tree := fun _ => Ok (JObject (map_set "version" (default JNull (ccw_version w))
        (map (fun k => (k, JNull)) ["asr"; "global"; "llm"; "registry"; "scenes"; "triggers"])));
     write_tree := fun _ => Some "null";
     read_registry := fun _ => ccw_registry w; read_global := fun _ => ccw_global w;
     read_llm := fun _ => ccw_llm w; read_scenes := fun _ => ccw_scenes w;
     read_asr := fun _ => ccw_asr w; read_clients := fun _ => ccw_triggers w |}.

Lemma demo_reads_back w tail v :
  ccw_version w = Some v ->
  ccw_registry w <> None -> ccw_global w <> None -> ccw_llm w <> None -> ccw_scenes w <> None ->
  ccw_asr w <> None -> ccw_triggers w <> None -> ccw_receivers w = None ->
  @reads_back (demo_glaze w) w "{}" tail
    (JObject (map_set "version" v
       (map (fun k => (k, JNull)) ["asr"; "global"; "llm"; "registry"; "scenes"; "triggers"]))).
Proof.
  intros Hv. destruct w as [ver reg gl asr llm sc tr rc]; simpl in *. subst ver.
  intros. split; try done; destruct reg, gl, asr, llm, sc, tr; try done; unfold member_back; simpl; eauto.
  by subst rc.
Qed.

Lemma config_save_load_witness :
  let n := NormalizeCoreConfig demo_config in
  exists parsed, @CoreConfigFromJson (demo_glaze (ToWire n)) "{}" = Some (Ok parsed) /\
    NormalizeCoreConfig parsed = settled n.
Proof.
  intros n. pose (G := demo_glaze (ToWire n)).
  assert (@reads_back G (ToWire n) "{}" [] _) as Hb
    by (apply (demo_reads_back (ToWire n) [] (JString (cc_version n))); vm_compute; done).
  exact (proj1 (config_save_load (H := G) demo_config [] "{}" _ Hb)).
Defined.
