(* ===== verification/ModelManager.v ===== *)
(** * The model manager (src/src/common/asr/model_manager.cpp)

    Local recognition models: the directory a model id names, the models that are
    installed, the metadata in vinput-model.json, its validation, and removal. The file
    system is a tree; [weakly_canonical], which resolves symbolic links, is a parameter. *)

From S2P Require Import Prelude StringUtils FileSystem FileUtils Floats FloatText Json ConfigCodec.
From Stdlib Require Import Ascii SpecFloat.

Definition manifest_name : bytes := "vinput-model.json".

(** ** Model ids *)

Definition bad_segment (s : bytes) : bool := is_empty s || (s =b ".") || (s =b "..").

(** The name is rebuilt from the segments after the source. *)
Definition rebuild_name (segments : list bytes) : bytes :=
  foldl (fun name s => (if negb (is_empty name) then name ++ "." else name) ++ s) [] segments.

Definition SplitModelId (model_id : bytes) : list bytes :=
  if bad_segment model_id || bool_decide ("/"%char ∈ model_id) || bool_decide ("\"%char ∈ model_id) then []
  else
    match Split model_id "."%char with
    | first :: source :: rest =>
        if (length rest <? 1) || negb (first =b "model") then []
        else if existsb bad_segment (first :: source :: rest) then []
        else
          let name := rebuild_name rest in
          if is_empty source || is_empty name then [] else ["model"; source; name]
    | _ => []
    end.

Definition RelativePathForId (model_id : bytes) : path :=
  match SplitModelId model_id with
  | [first; source; name] => if first =b "model" then [source; name] else []
  | _ => []
  end.

Definition IdFromRelativePath (relative_path : path) : bytes :=
  if existsb bad_segment relative_path then []
  else if length relative_path =? 2 then Join ("model" :: relative_path) "."
  else [].

Definition ModelDir (base_dir : path) (model_id : bytes) : path :=
  match RelativePathForId model_id with [] => [] | relative => base_dir ++ relative end.

(** ** The installed models *)

Definition hidden (name : bytes) : bool := bad_segment name || starts_with name ".".

(** The directories of the form <engine>/<name> with a manifest, with the manifest's text. *)
Definition ForEachInstalledModelDir (t : node) (base_dir : path) : list (bytes * bytes) :=
  match walk t base_dir with
  | Some (Dir engines) =>
      flat_map (fun '(engine, e) =>
        match e with
        | File _ _ => []
        | Dir models =>
            if hidden engine then []
            else flat_map (fun '(name, m) =>
              match m with
              | File _ _ => []
              | Dir files =>
                  if hidden name then []
                  else
                    let model_id := IdFromRelativePath [engine; name] in
                    if is_empty model_id then []
                    else match files !! manifest_name with
                         | Some (File content _) => [(model_id, content)]
                         | _ => []
                         end
              end) (map_to_list models)
        end) (map_to_list engines)
  | _ => []
  end.

Definition id_le (a b : bytes) : Prop := bytes_ltb b a = false.
#[export] Instance id_le_dec : RelDecision id_le.
Proof. intros a b. unfold id_le. apply _. Defined.

(** [std::ranges::unique] *)
Fixpoint unique (l : list bytes) : list bytes :=
  match l with
  | x :: (y :: _) as rest => if x =b y then unique rest else x :: unique rest
  | _ => l
  end.

Definition ListModels (t : node) (base_dir : path) : list bytes :=
  unique (merge_sort id_le (fst <$> ForEachInstalledModelDir t base_dir)).

(** ** Metadata *)

Record ModelInfo := {
  mi_backend : bytes; mi_runtime : bytes; mi_family : bytes; mi_model_type : bytes; mi_language : bytes;
  mi_supports_hotwords : bool; mi_size_bytes : N;
  mi_files : gmap bytes bytes; rejected_files : gmap bytes bytes; mi_params : gmap bytes bytes;
  recognizer_config : json; model_config : json;
}.
#[export] Instance ModelInfo_fields : Fields ModelInfo := fun i =>
  {| mi_backend := mi_backend i; mi_runtime := mi_runtime i; mi_family := mi_family i; mi_model_type := mi_model_type i;
     mi_language := mi_language i; mi_supports_hotwords := mi_supports_hotwords i; mi_size_bytes := mi_size_bytes i;
     mi_files := mi_files i; rejected_files := rejected_files i; mi_params := mi_params i;
     recognizer_config := recognizer_config i; model_config := model_config i |}.

Definition info_File (info : ModelInfo) (key : bytes) : bytes := default [] (mi_files info !! key).
Definition info_Param (info : ModelInfo) (key default_val : bytes) : bytes := default default_val (mi_params info !! key).
Definition info_ParamBool (info : ModelInfo) (key : bytes) (default_val : bool) : bool :=
  match mi_params info !! key with Some v => (v =b "true") || (v =b "1") | None => default_val end.

(** [std::to_string(double)]: six digits after the point. *)
Definition fixed6 (n : Z) : bytes :=
  let s := to_string (n mod 1000000) in
  to_string (n / 1000000) ++ "." ++ replicate (6 - length s) "0"%char ++ s.
Definition to_string_double (v : flt) : bytes :=
  match v with
  | S754_zero s => (if s then "-" else [] : bytes) ++ fixed6 0
  | S754_infinity s => (if s then "-" else [] : bytes) ++ "inf"
  | S754_nan => "nan"
  | S754_finite s m e =>
      (if s then "-" else [] : bytes) ++
      fixed6 (if (0 <=? e)%Z then Zpos m * 2 ^ e * 1000000 else div_nearest_even (Zpos m * 1000000) (2 ^ (- e)))%Z
  end.

(** [None]: the conversion to a 64-bit integer is undefined. *)
Definition FormatNumber (value : flt) : option bytes :=
  z ← to_int i64_min i64_max value;
  Some (if SFeqb value (f64_of_Z z) then to_string z else to_string_double value).

Definition add_param (key text : bytes) (info : ModelInfo) : ModelInfo :=
  info <| mi_params := <[key := text]> (mi_params info) |>.

Definition AddScalarParam (key : bytes) (value : json) (info : ModelInfo) : option ModelInfo :=
  if is_empty key then Some info
  else match value with
       | JString text => Some (add_param key text info)
       | JBool flag => Some (add_param key (if flag then "true" else "false") info)
       | JNumber number => text ← FormatNumber number; Some (add_param key text info)
       | _ => Some info
       end.

(** The overloads that read a field, with a fallback. *)
Definition AddFieldParam (key : bytes) (object : json) (field : bytes) (fallback : json) (info : ModelInfo) : option ModelInfo :=
  AddScalarParam key (default fallback (Find object field)) info.

Section metadata.
Context `{Glaze} (weakly_canonical : fpath -> result fpath).

Definition ResolveModelMetadataPath (model_dir model_root : fpath) (raw_path : bytes) : result fpath :=
  match weakly_canonical (join model_dir (to_fpath raw_path)) with
  | Err e => Err ("failed to resolve path '" ++ raw_path ++ "': " ++ e)
  | Ok candidate =>
      if IsPathWithinRoot candidate model_root then Ok candidate
      else Err ("path escapes model directory: " ++ raw_path)
  end.

Definition ResolveModelFileField (dir model_root : fpath) (obj : json) (field file_key : bytes) (info : ModelInfo) : ModelInfo :=
  match Find obj field with
  | Some (JString raw_path) =>
      if is_empty raw_path then info
      else match ResolveModelMetadataPath dir model_root raw_path with
           | Err _ => info <| rejected_files := <[file_key := raw_path]> (rejected_files info) |>
           | Ok resolved => info <| mi_files := <[file_key := show resolved]> (mi_files info) |>
           end
  | _ => info
  end.

(** What ParseModelJson reads, in order. *)
Inductive field_step :=
  | FileField (obj : json) (field file_key : bytes)
  | FieldParam (key : bytes) (object : json) (field : bytes) (fallback : json)
  | ScalarParam (key : bytes) (value : json).

Definition run_step (dir model_root : fpath) (info : ModelInfo) (step : field_step) : option ModelInfo :=
  match step with
  | FileField obj field file_key => Some (ResolveModelFileField dir model_root obj field file_key info)
  | FieldParam key object field fallback => AddFieldParam key object field fallback info
  | ScalarParam key value => AddScalarParam key value info
  end.

Fixpoint run_steps (dir model_root : fpath) (info : ModelInfo) (steps : list field_step) : option ModelInfo :=
  match steps with
  | [] => Some info
  | step :: steps => info ← run_step dir model_root info step; run_steps dir model_root info steps
  end.

Definition zero : json := JNumber (S754_zero false).
Definition in_object (object : json) (key : bytes) (steps : json -> list field_step) : list field_step :=
  match Find object key with Some (JObject members) => steps (JObject members) | _ => [] end.

Definition parse_steps (family : bytes) (model recognizer : json) : list field_step :=
  [ FileField model "tokens" "tokens"; FileField model "bpe_vocab" "bpe_vocab";
    FileField model "bpe_model" "bpe_model"; FileField model "telespeech_ctc" "telespeech_ctc" ] ++
  in_object recognizer "lm_config" (fun lm => [ FileField lm "model" "lm"; FieldParam "lm_scale" lm "scale" zero ]) ++
  [ FileField recognizer "hotwords_file" "hotwords_file"; FileField recognizer "rule_fsts" "rule_fsts";
    FileField recognizer "rule_fars" "rule_fars" ] ++
  in_object recognizer "ctc_fst_decoder_config"
    (fun ctc => [ FileField ctc "graph" "graph"; FieldParam "ctc_fst_max_active" ctc "max_active" zero ]) ++
  in_object recognizer "hr" (fun hr => [ FileField hr "lexicon" "hr_lexicon"; FileField hr "rule_fsts" "hr_rule_fsts" ]) ++
  [ FieldParam "decoding_method" recognizer "decoding_method" (JString []);
    FieldParam "max_active_paths" recognizer "max_active_paths" zero;
    FieldParam "enable_endpoint" recognizer "enable_endpoint" zero;
    FieldParam "rule1_min_trailing_silence" recognizer "rule1_min_trailing_silence" zero;
    FieldParam "rule2_min_trailing_silence" recognizer "rule2_min_trailing_silence" zero;
    FieldParam "rule3_min_utterance_length" recognizer "rule3_min_utterance_length" zero;
    FieldParam "hotwords_score" recognizer "hotwords_score" zero;
    FieldParam "blank_penalty" recognizer "blank_penalty" zero;
    FieldParam "num_threads" model "num_threads" zero; FieldParam "debug" model "debug" zero;
    FieldParam "provider" model "provider" (JString []); FieldParam "model_type" model "model_type" (JString []);
    FieldParam "modeling_unit" model "modeling_unit" (JString []) ] ++
  match Find model family with
  | Some (JObject members) =>
      flat_map (fun '(key, value) =>
        (if is_string value then [ FileField (JObject members) key key ] else []) ++ [ ScalarParam key value ]) members
  | _ => []
  end.

Definition object_or (fallback : json) (o : option json) : json :=
  match o with Some (JObject members) => JObject members | _ => fallback end.

(** [static_cast<uint64_t>] of a 64-bit signed value. *)
Definition to_u64 (z : Z) : N := Z.to_N (z mod 18446744073709551616).

(** [None]: an undefined conversion. *)
Definition ParseModelJson (dir : fpath) (json_path content : bytes) : option (result ModelInfo) :=
  match read_tree content with
  | Err e => Some (Err ("failed to parse '" ++ json_path ++ "': " ++ e))
  | Ok j =>
      match weakly_canonical dir with
      | Err e => Some (Err ("failed to resolve model root '" ++ show dir ++ "': " ++ e))
      | Ok model_root =>
          size_bytes ← Int64 j "size_bytes" 0;
          let family := String j "family" [] in
          let recognizer := object_or EmptyObject (Find j "recognizer") in
          let model := object_or EmptyObject (Find j "model") in
          let info :=
            {| mi_backend := String j "backend" []; mi_runtime := String j "runtime" []; mi_family := family;
               mi_model_type := family; mi_language := String j "language" "auto";
               mi_supports_hotwords := Bool j "supports_hotwords" false; mi_size_bytes := to_u64 size_bytes;
               mi_files := ∅; rejected_files := ∅; mi_params := ∅;
               recognizer_config := recognizer; model_config := model |} in
          info ← run_steps dir model_root info (parse_steps family model recognizer);
          Some (Ok info)
      end
  end.

(** ** Validation *)

Definition FamilyUsesTokenizerAsset (family : bytes) : bool := (family =b "funasr_nano") || (family =b "qwen3_asr").

(** [std::filesystem::exists] of a path given as text. *)
Definition exists_text (t : node) (text : bytes) : bool := exists_at t (filter (fun n => n <> []) (name_list text)).

Definition has_file (t : node) (info : ModelInfo) (key : bytes) : bool :=
  negb (is_empty (info_File info key)) && exists_text t (info_File info key).
Definition HasRequiredTextAsset (t : node) (info : ModelInfo) : bool :=
  if FamilyUsesTokenizerAsset (mi_family info) then has_file t info "tokenizer" else has_file t info "tokens".
Definition RequiredTextAssetField (info : ModelInfo) : bytes :=
  if FamilyUsesTokenizerAsset (mi_family info) then "model.tokenizer" else "model.tokens".
Definition RequiredTextAssetPathKey (info : ModelInfo) : bytes :=
  if FamilyUsesTokenizerAsset (mi_family info) then "tokenizer" else "tokens".

Definition auxiliary_keys : list bytes :=
  ["tokens"; "tokenizer"; "bpe_vocab"; "bpe_model"; "hotwords_file"; "lm"; "rule_fsts"; "rule_fars"; "graph"; "hr_lexicon"; "hr_rule_fsts"].
Definition HasModelFiles (t : node) (info : ModelInfo) : bool :=
  existsb (fun '(key, file) => negb (bool_decide (key ∈ auxiliary_keys)) && negb (is_empty file) && exists_text t file)
    (map_entries (mi_files info)).

Definition absolute (p : path) : fpath := {| rooted := true; names := p |}.

(** The manager's own model; [base_dir] is absolute, [cwd] the working directory. An id with
    no directory leaves the manifest's name alone, relative to [cwd]. *)
Definition own_dir (base_dir cwd : path) (model_id : bytes) : path :=
  match ModelDir base_dir model_id with [] => cwd | dir => dir end.
Definition own_dir_text (base_dir : path) (model_id : bytes) : bytes :=
  match ModelDir base_dir model_id with [] => [] | dir => show (absolute dir) end.

Definition GetModelInfo (t : node) (base_dir cwd : path) (model_id : bytes) : option (result ModelInfo) :=
  let json_path := own_dir base_dir cwd model_id ++ [manifest_name] in
  if negb (exists_at t json_path) then Some (Err ("missing 'vinput-model.json' in " ++ own_dir_text base_dir model_id))
  else
    let dir := match ModelDir base_dir model_id with [] => {| rooted := false; names := [] |} | dir => absolute dir end in
    ParseModelJson dir (show (join dir (to_fpath manifest_name))) (default [] (read_file t json_path)).

Definition EnsureModels (t : node) (base_dir cwd : path) (model_id : bytes) : option (result unit) :=
  r ← GetModelInfo t base_dir cwd model_id;
  Some (match r with
        | Err e => Err e
        | Ok info =>
            if is_empty (mi_family info) then Err ("'vinput-model.json' is missing family for model '" ++ model_id ++ "'")
            else match map_entries (rejected_files info) with
                 | (key, raw_path) :: _ => Err ("'vinput-model.json' contains invalid path for '" ++ key ++ "': " ++ raw_path)
                 | [] =>
                     if negb (HasRequiredTextAsset t info)
                     then Err (RequiredTextAssetPathKey info ++ " file not found for model '" ++ model_id ++ "'")
                     else if negb (HasModelFiles t info) then Err ("no model files found for model '" ++ model_id ++ "'")
                     else Ok tt
                 end
        end).

Definition Validate (t : node) (base_dir : path) (model_id : bytes) : option (result unit) :=
  match ModelDir base_dir model_id with
  | [] => Some (Err ("invalid model id: " ++ model_id))
  | dir =>
      if negb (is_directory t dir) then Some (Err ("model directory does not exist: " ++ show (absolute dir)))
      else
        let json_path := dir ++ [manifest_name] in
        if negb (is_regular_file t json_path) then Some (Err ("vinput-model.json not found in " ++ show (absolute dir)))
        else
          r ← ParseModelJson (absolute dir) (show (absolute json_path)) (default [] (read_file t json_path));
          Some (match r with
                | Err e => Err e
                | Ok info =>
                    if is_empty (mi_family info) then Err "vinput-model.json missing required field: family"
                    else match map_entries (rejected_files info) with
                         | (key, raw_path) :: _ =>
                             Err ("vinput-model.json contains out-of-bounds file path for '" ++ key ++ "': " ++ raw_path)
                         | [] =>
                             if negb (HasRequiredTextAsset t info) then
                               let path_key := RequiredTextAssetPathKey info in
                               let asset_path := info_File info path_key in
                               if is_empty asset_path then Err ("vinput-model.json missing required field: " ++ RequiredTextAssetField info)
                               else Err (path_key ++ " file not found: " ++ asset_path)
                             else if negb (HasModelFiles t info) then Err "no model/encoder files found in model directory"
                             else Ok tt
                         end
                end)
  end.

(** ** Removal *)

Definition Remove (leftover : node -> node) (base_dir : path) (model_id : bytes) (w : World) : result unit * World :=
  match ModelDir base_dir model_id with
  | [] => (Err ("invalid model id: " ++ model_id), w)
  | requested_dir =>
      match weakly_canonical (absolute requested_dir), weakly_canonical (absolute base_dir) with
      | Err e, _ => (Err ("failed to resolve model directory: " ++ e), w)
      | _, Err e => (Err ("failed to resolve model base directory: " ++ e), w)
      | Ok dir, Ok base =>
          if negb (IsPathWithinRoot dir base) then (Err ("invalid model id: " ++ model_id), w)
          else if negb (exists_at (fs w) (names dir)) then (Err ("model directory does not exist: " ++ show dir), w)
          else
            match remove_all leftover (names dir) w with
            | (Err e, w) => (Err ("failed to remove model directory: " ++ e), w)
            | (Ok _, w) => (Ok tt, w)
            end
      end
  end.

(** ** The detailed list *)

Inductive ModelState := Installed | Active | Broken.
Record ModelSummary := {
  sm_id : bytes; sm_state : ModelState; sm_type : bytes; sm_language : bytes; sm_hotwords : bool; sm_size : N }.

Definition field_ok (ok : json -> bool) (o : option json) : bool := match o with None => true | Some v => ok v end.
Definition is_boolean (v : json) : bool := match v with JBool _ => true | _ => false end.
Definition is_number (v : json) : bool := match v with JNumber _ => true | _ => false end.

Definition broken (id : bytes) : ModelSummary :=
  {| sm_id := id; sm_state := Broken; sm_type := []; sm_language := []; sm_hotwords := false; sm_size := 0 |}.

Definition summary (active_model model_id content : bytes) : option ModelSummary :=
  match read_tree content with
  | Ok (JObject members) =>
      let j := JObject members in
      if field_ok is_string (Find j "family") && field_ok is_string (Find j "language") &&
         field_ok is_boolean (Find j "supports_hotwords") && field_ok is_number (Find j "size_bytes")
      then
        size_bytes ← Int64 j "size_bytes" 0;
        Some {| sm_id := model_id; sm_state := if model_id =b active_model then Active else Installed;
                sm_type := String j "family" []; sm_language := String j "language" "auto";
                sm_hotwords := Bool j "supports_hotwords" false; sm_size := to_u64 size_bytes |}
      else Some (broken model_id)
  | _ => Some (broken model_id)
  end.

Definition summary_le (a b : ModelSummary) : Prop := id_le (sm_id a) (sm_id b).
#[export] Instance summary_le_dec : RelDecision summary_le.
Proof. intros a b. unfold summary_le. apply _. Defined.

Definition ListDetailed (t : node) (base_dir : path) (active_model : bytes) : option (list ModelSummary) :=
  merge_sort summary_le <$> mapM (fun '(id, content) => summary active_model id content) (ForEachInstalledModelDir t base_dir).

End metadata.

(** [ModelInfo::RuntimeLanguageHint] *)
Definition looks_like_runtime_hint (value : bytes) : bool :=
  negb (is_empty value) &&
  forallb (fun c => ((97 <=? code c) && (code c <=? 122))%N || (c =b "-"%char) || (c =b "_"%char)) value &&
  negb (value =b "multilingual") && negb (bool_decide ("_"%char ∈ value)).

Definition RuntimeLanguageHint (info : ModelInfo) : bytes :=
  let own :=
    match Find (model_config info) (mi_family info) with
    | Some (JObject members) =>
        match Find (JObject members) "language" with
        | Some (JString s) => Some s
        | _ => match Find (JObject members) "src_lang" with Some (JString s) => Some s | _ => None end
        end
    | _ => None
    end in
  match own with
  | Some s => s
  | None => if looks_like_runtime_hint (mi_language info) then mi_language info else []
  end.

(** ** Ids and directories *)

Lemma rebuild_name_Join segments : Forall (fun s => s <> []) segments -> rebuild_name segments = Join segments ".".
Proof.
  unfold rebuild_name. destruct segments as [|s segments]; [done|]. intros Hs. cbn [foldl].
  inversion_clear Hs as [|? ? H1 H2]. cbn [is_empty negb app].
  revert s H1. induction segments as [|s' segments IH]; intros s H1; [done|].
  inversion_clear H2 as [|? ? Hs' H3]. cbn [foldl]. rewrite (proj2 (is_empty_false s) H1). cbn [negb].
  rewrite IH; [|done|by destruct s]. rewrite Join_cons2.
  destruct segments as [|s2 segments]; [cbn; by rewrite <-app_assoc|]. by rewrite !Join_cons2, <-!app_assoc.
Qed.

Lemma bad_segment_plain s : bad_segment s = false <-> plain_name s.
Proof.
  unfold bad_segment, plain_name. rewrite !orb_false_iff, is_empty_false, !bool_decide_eq_false. tauto.
Qed.

Lemma bad_segments_plain l : existsb bad_segment l = false -> Forall plain_name l.
Proof.
  intros Hl. apply Forall_forall. intros x Hx. apply bad_segment_plain. destruct (bad_segment x) eqn:E; [|done].
  rewrite <-Hl. symmetry. apply existsb_exists. exists x. split; [by apply list_elem_of_In|done].
Qed.

(** The two names of a valid id: what they are made of. *)
Lemma RelativePathForId_inv id p : RelativePathForId id = p -> p <> [] ->
  exists source rest, p = [source; Join rest "."] /\ split_ref "."%char id = "model" :: source :: rest /\
    rest <> [] /\ Forall plain_name (source :: rest) /\ "/"%char ∉ id.
Proof.
  unfold RelativePathForId, SplitModelId.
  destruct (bad_segment id) eqn:Eb; cbn [orb]; [congruence|].
  case_bool_decide as Es; cbn [orb]; [congruence|]. case_bool_decide; [congruence|]. rewrite Split_spec.
  destruct (split_ref "."%char id) as [|first [|source rest]] eqn:Ei; [congruence..|].
  destruct (Nat.ltb_spec (length rest) 1); cbn [orb]; [congruence|]. case_bool_decide as Ef; cbn [negb]; [|congruence].
  destruct (existsb bad_segment _) eqn:Ebad; [congruence|]. apply bad_segments_plain in Ebad. inversion_clear Ebad as [|? ? _ Hp].
  rewrite rebuild_name_Join.
  2: { inversion_clear Hp as [|? ? _ Hr]. eapply Forall_impl; [exact Hr|]. by intros x []. }
  destruct (is_empty source || _); [congruence|]. rewrite bool_decide_eq_true_2 by done. intros <- _.
  exists source, rest. split_and!; try done; [by rewrite Ef|destruct rest; [cbn in *; lia|done]].
Qed.

(** A model id and its directory determine each other. *)
Theorem model_id_roundtrip id p :
  RelativePathForId id = p -> p <> [] -> IdFromRelativePath p = id /\ Forall plain_name p /\ Forall (fun n => hidden n = false) p.
Proof.
  intros Hp Hne. destruct (RelativePathForId_inv _ _ Hp Hne) as (source & rest & -> & Hsplit & Hrest & Hplain & Hslash).
  inversion_clear Hplain as [|? ? Hs Hr]. pose proof (Join_split_ref "."%char id) as Hj. rewrite Hsplit in Hj.
  pose proof (split_ref_tokens "."%char id) as Htok. rewrite Hsplit in Htok.
  destruct rest as [|r rest]; [done|]. inversion_clear Hr as [|? ? Hr1 Hr2].
  assert (Hnodot : forall x l, x ∉ l -> starts_with l [x] = false).
  { intros x [|y l] Hx; [done|]. cbn. case_bool_decide as E; [|done]. subst. by destruct Hx; left. }
  assert (Hname : plain_name (Join (r :: rest) ".") /\ starts_with (Join (r :: rest) ".") "." = false).
  { inversion_clear Htok as [|? ? _ H2]. inversion_clear H2 as [|? ? _ H3]. inversion_clear H3 as [|? ? H4 _].
    destruct r as [|c r]; [by destruct Hr1|].
    assert (starts_with (Join ((c :: r) :: rest) ".") "." = false) as Hst.
    { assert (exists tl, Join ((c :: r) :: rest) "." = c :: tl) as [tl ->] by (destruct rest; [by eexists|rewrite Join_cons2; by eexists]).
      cbn. case_bool_decide as E; [|done]. subst. by destruct H4; left. }
    split; [|done]. split_and!; intros E; rewrite E in Hst; cbn in Hst; try done.
    destruct rest; [done|]. by rewrite Join_cons2 in E. }
  assert (Hsrc : starts_with source "." = false).
  { inversion_clear Htok as [|? ? _ H2]. inversion_clear H2 as [|? ? H3 _]. by apply Hnodot. }
  destruct Hname as [Hn Hst].
  assert (Hb : bad_segment source = false /\ bad_segment (Join (r :: rest) ".") = false) by (split; by apply bad_segment_plain).
  split_and!.
  - unfold IdFromRelativePath. cbn [existsb length Nat.eqb]. rewrite (proj1 Hb), (proj2 Hb). cbn [orb].
    rewrite <-Hj, !Join_cons2. done.
  - by rewrite !Forall_cons.
  - unfold hidden. rewrite !Forall_cons. split_and!; [by rewrite (proj1 Hb), Hsrc|by rewrite (proj2 Hb), Hst|done].
Qed.

Lemma model_id_roundtrip_witness : IdFromRelativePath ["sherpa-onnx"; "zipformer.v1"] = "model.sherpa-onnx.zipformer.v1".
Proof. apply (model_id_roundtrip "model.sherpa-onnx.zipformer.v1" ["sherpa-onnx"; "zipformer.v1"]); [vm_compute; reflexivity|discriminate]. Defined.

(** A directory whose engine contains a dot is listed under the id of another one. *)
Theorem dotted_engine_confused :
  IdFromRelativePath ["a.b"; "c"] = "model.a.b.c" /\ RelativePathForId "model.a.b.c" = ["a"; "b.c"].
Proof. split; reflexivity. Qed.

(** ** The list of models *)

Lemma elem_of_unique x l : x ∈ unique l <-> x ∈ l.
Proof.
  induction l as [|a l IH]; [done|]. cbn [unique]. destruct l as [|b l]; [done|].
  case_bool_decide as E; [|by rewrite elem_of_cons, IH, !elem_of_cons]. subst.
  rewrite IH, !elem_of_cons. tauto.
Qed.

Lemma installed_dirs t base id content :
  (id, content) ∈ ForEachInstalledModelDir t base <->
  exists engine name synced, hidden engine = false /\ hidden name = false /\ id = IdFromRelativePath [engine; name] /\
    walk t (base ++ [engine; name; manifest_name]) = Some (File content synced).
Proof.
  rewrite list_elem_of_In. unfold ForEachInstalledModelDir. split.
  - destruct (walk t base) as [[|engines]|] eqn:Eb; [done| |done]. rewrite in_flat_map. intros ([engine e] & He & Hin).
    apply list_elem_of_In, elem_of_map_to_list in He. destruct e as [|models]; [done|]. destruct (hidden engine) eqn:Hhe; [done|].
    rewrite in_flat_map in Hin. destruct Hin as ([name m] & Hm & Hin). apply list_elem_of_In, elem_of_map_to_list in Hm.
    destruct m as [|files]; [done|]. destruct (hidden name) eqn:Hhn; [done|].
    destruct (is_empty _); [done|]. destruct (files !! manifest_name) as [[c s|]|] eqn:Ef; [|done|done].
    destruct Hin as [[= <- <-]|[]]. exists engine, name, s. split_and!; try done. rewrite walk_app, Eb. cbn. by rewrite He, Hm, Ef.
  - intros (engine & name & s & He & Hn & -> & Hw). rewrite walk_app in Hw. destruct (walk t base) as [[|engines]|] eqn:Eb; [done| |done].
    cbn in Hw. destruct (engines !! engine) as [[|models]|] eqn:E1; [done| |done].
    destruct (models !! name) as [[|files]|] eqn:E2; [done| |done]. destruct (files !! manifest_name) as [f|] eqn:E3; [|done].
    injection Hw as ->. apply in_flat_map. exists (engine, Dir models). split; [by apply list_elem_of_In, elem_of_map_to_list|].
    rewrite He. apply in_flat_map. exists (name, Dir files). split; [by apply list_elem_of_In, elem_of_map_to_list|].
    rewrite Hn. unfold hidden in He, Hn. apply orb_false_iff in He as [He _]. apply orb_false_iff in Hn as [Hn _].
    assert (IdFromRelativePath [engine; name] = Join ["model"; engine; name] ".") as Eid
      by (unfold IdFromRelativePath; cbn [existsb]; by rewrite He, Hn).
    rewrite Eid. cbn [is_empty Join foldl app]. rewrite E3. by left.
Qed.

(** A model is listed exactly when its directory, in the installation layout, has a manifest;
    one whose directory its id names is listed under that id. *)
Theorem list_models_spec t base :
  (forall id, id ∈ ListModels t base <->
     exists engine name content synced, hidden engine = false /\ hidden name = false /\ id = IdFromRelativePath [engine; name] /\
       walk t (base ++ [engine; name; manifest_name]) = Some (File content synced)) /\
  (forall id p content synced, RelativePathForId id = p -> p <> [] ->
     walk t (base ++ p ++ [manifest_name]) = Some (File content synced) -> id ∈ ListModels t base).
Proof.
  assert (Hspec : forall id, id ∈ ListModels t base <->
     exists engine name content synced, hidden engine = false /\ hidden name = false /\ id = IdFromRelativePath [engine; name] /\
       walk t (base ++ [engine; name; manifest_name]) = Some (File content synced)).
  { intros id. unfold ListModels. rewrite elem_of_unique, (merge_sort_Permutation id_le _), list_elem_of_fmap. split.
    - intros ([i content] & -> & Hin). apply installed_dirs in Hin as (engine & name & s & H). exists engine, name, content, s. exact H.
    - intros (engine & name & content & s & H). exists (id, content). split; [done|]. apply installed_dirs. eauto. }
  split; [exact Hspec|]. intros id p content synced Hp Hne Hw.
  destruct (RelativePathForId_inv _ _ Hp Hne) as (source & rest & E & _). apply Hspec.
  destruct (model_id_roundtrip id p Hp Hne) as (Hid & _ & Hh). subst p. rewrite E in Hid, Hh, Hw.
  inversion_clear Hh as [|? ? H1 H2]. inversion_clear H2 as [|? ? H3 _].
  exists source, (Join rest "."), content, synced. by split_and!.
Qed.

(** ** Files named by the metadata *)

Section metadata_facts.
Context `{Glaze} (weakly_canonical : fpath -> result fpath).

Definition below (root : fpath) (text : bytes) : Prop := exists p, text = show p /\ IsPathWithinRoot p root = true.
Definition confined (root : fpath) (info : ModelInfo) : Prop := map_Forall (fun _ text => below root text) (mi_files info).

Lemma ResolveModelFileField_confined dir root obj field key info :
  confined root info -> confined root (ResolveModelFileField weakly_canonical dir root obj field key info).
Proof.
  intros Hc. unfold ResolveModelFileField. destruct (Find obj field) as [[| |raw| | |]|]; try done. destruct (is_empty raw); [done|].
  destruct (ResolveModelMetadataPath weakly_canonical dir root raw) as [p|] eqn:Er; [|done].
  apply map_Forall_insert_2; [|exact Hc]. exists p. split; [done|]. revert Er. unfold ResolveModelMetadataPath.
  destruct (weakly_canonical _); [|done]. destruct (IsPathWithinRoot _ root) eqn:Ei; [|done]. by intros [= <-].
Qed.

Lemma AddScalarParam_files key value info info' : AddScalarParam key value info = Some info' -> mi_files info' = mi_files info.
Proof.
  unfold AddScalarParam. destruct (is_empty key); [by intros [= <-]|]. destruct value; try (by intros [= <-]).
  destruct (FormatNumber d); [|done]. by intros [= <-].
Qed.

Lemma run_steps_confined dir root info steps info' :
  run_steps weakly_canonical dir root info steps = Some info' -> confined root info -> confined root info'.
Proof.
  revert info. induction steps as [|step steps IH]; intros info Hr Hc; [by injection Hr as <-|].
  cbn [run_steps] in Hr. destruct (run_step weakly_canonical dir root info step) as [i|] eqn:Es; [|done]. apply (IH i Hr).
  destruct step as [obj field key|key obj field fallback|key value]; cbn in Es.
  - injection Es as <-. by apply ResolveModelFileField_confined.
  - unfold confined. by rewrite (AddScalarParam_files _ _ _ _ Es).
  - unfold confined. by rewrite (AddScalarParam_files _ _ _ _ Es).
Qed.

(** Whatever vinput-model.json says, each file it makes the daemon open lies in the model's
    own directory, links resolved. *)
Lemma metadata_confined dir json_path content info :
  ParseModelJson weakly_canonical dir json_path content = Some (Ok info) ->
  exists root, weakly_canonical dir = Ok root /\ confined root info.
Proof.
  unfold ParseModelJson. destruct (read_tree content) as [j|]; [|done]. destruct (weakly_canonical dir) as [root|]; [|done].
  destruct (Int64 j "size_bytes" 0); [|done]. cbn [mbind option_bind]. destruct (run_steps _ _ _ _ _) as [i|] eqn:Er; [|done].
  intros [= <-]. exists root. split; [done|]. apply (run_steps_confined _ _ _ _ _ Er). apply map_Forall_empty.
Qed.

(** A model that validates has its manifest, names only files in its own directory, and the
    text asset its family needs and at least one model file exist. *)
Theorem validated_model t base id :
  Validate weakly_canonical t base id = Some (Ok tt) ->
  exists p content info root, RelativePathForId id = p /\ p <> [] /\ read_file t (base ++ p ++ [manifest_name]) = Some content /\
    ParseModelJson weakly_canonical (absolute (base ++ p)) (show (absolute (base ++ p ++ [manifest_name]))) content = Some (Ok info) /\
    mi_family info <> [] /\ rejected_files info = ∅ /\
    weakly_canonical (absolute (base ++ p)) = Ok root /\ confined root info /\
    exists_text t (info_File info (RequiredTextAssetPathKey info)) = true /\
    exists key file, mi_files info !! key = Some file /\ (key ∉ auxiliary_keys) /\ exists_text t file = true.
Proof.
  unfold Validate, ModelDir. destruct (RelativePathForId id) as [|n p] eqn:Ep; [done|].
  destruct (base ++ n :: p) as [|x dir] eqn:Ed; [by destruct base|]. rewrite <-Ed. clear x dir Ed.
  destruct (is_directory t _); [|done]. cbn [negb]. unfold is_regular_file.
  destruct (walk t _) as [[content b|]|] eqn:Ew; [|done|done]. cbn [negb].
  unfold read_file at 1. rewrite Ew. cbn [from_option]. unfold Datatypes.id.
  destruct (ParseModelJson _ _ _ content) as [[info|]|] eqn:Ej; [|done|done]. cbn [mbind option_bind].
  destruct (is_empty (mi_family info)) eqn:Ef; [done|]. destruct (map_entries (rejected_files info)) as [|[]] eqn:Er; [|done].
  destruct (HasRequiredTextAsset t info) eqn:Ea; cbn [negb]; [|cbv zeta; destruct (is_empty (info_File info (RequiredTextAssetPathKey info))); discriminate].
  destruct (HasModelFiles t info) eqn:Em; [|done]. intros _.
  destruct (metadata_confined _ _ _ _ Ej) as (root & Hroot & Hc).
  exists (n :: p), content, info, root. rewrite <-app_assoc in Ew, Ej. split_and!; try done.
  - unfold read_file. by rewrite Ew.
  - by apply is_empty_false.
  - rewrite <-(list_to_map_entries (rejected_files info)), Er. done.
  - revert Ea. unfold HasRequiredTextAsset, RequiredTextAssetPathKey, has_file. destruct (FamilyUsesTokenizerAsset _); by intros [_ ?]%andb_true_iff.
  - revert Em. unfold HasModelFiles. rewrite existsb_exists. intros ([key file] & Hin & Hk).
    apply andb_true_iff in Hk as [[Hk _]%andb_true_iff Hx]. apply negb_true_iff, bool_decide_eq_false in Hk.
    exists key, file. split_and!; [|done|done]. apply elem_of_map_to_list. apply list_elem_of_In in Hin.
    unfold map_entries in Hin. by rewrite (merge_sort_Permutation key_le) in Hin.
Qed.

(** Removing a model changes nothing outside the model directory, at any moment; when it
    reports success the directory is gone. [weakly_canonical] gives normal paths. *)
Theorem remove_confined leftover base id w r w' base' :
  (forall p q, weakly_canonical p = Ok q -> rooted q = true /\ Forall plain_name (names q)) ->
  Remove weakly_canonical leftover base id w = (r, w') -> seen w = [] ->
  weakly_canonical (absolute base) = Ok base' ->
  Forall (fun t => forall q, apart (names base') q -> walk t q = walk (fs w) q) (seen w') /\
  (r = Ok tt -> exists dir, weakly_canonical (absolute (ModelDir base id)) = Ok dir /\
                 (has_parent (fs w) (names dir) = true -> walk (fs w') (names dir) = None)).
Proof.
  intros Hcanon Hr Hs Hbase. unfold Remove in Hr.
  assert (Hfail : forall e (w1 : World), w1 = w -> Forall (fun t => forall q, apart (names base') q -> walk t q = walk (fs w) q) (seen w1) /\
    (@Err unit e = Ok tt -> exists dir, weakly_canonical (absolute (ModelDir base id)) = Ok dir /\
       (has_parent (fs w) (names dir) = true -> walk (fs w1) (names dir) = None))).
  { intros e w1 ->. rewrite Hs. by split. }
  destruct (ModelDir base id) as [|x d] eqn:Ed; [injection Hr as <- <-; by apply Hfail|]. rewrite Hbase in Hr.
  destruct (weakly_canonical (absolute (x :: d))) as [dir|] eqn:Ec; [|injection Hr as <- <-; by apply Hfail].
  destruct (Hcanon _ _ Ec) as [Hd1 Hd2]. destruct (Hcanon _ _ Hbase) as [Hb1 Hb2].
  destruct (IsPathWithinRoot dir base') eqn:Ei; [cbn [negb] in Hr|injection Hr as <- <-; by apply Hfail].
  destruct (exists_at (fs w) (names dir)) eqn:Ex; [cbn [negb] in Hr|injection Hr as <- <-; by apply Hfail].
  assert (Hpre : names base' `prefix_of` names dir).
  { apply within_root_exact; [done..|]. destruct dir, base'. cbn in *. by subst. }
  assert (Hal : always (fun t => forall q, apart (names base') q -> walk t q = walk (fs w) q) (snd (remove_all leftover (names dir) w))).
  { apply remove_all_always; [split; [done|by rewrite Hs]|]. intros o t Ht q Hq. rewrite walk_graft_apart; [by apply Ht|].
    destruct Hpre as [k ->]. rewrite <-(app_nil_r q). by apply apart_below. }
  destruct (remove_all leftover (names dir) w) as [[u|e] w1] eqn:Er; injection Hr as <- <-; (split; [apply Hal|]); [|done].
  intros _. exists dir. split; [done|]. by apply (remove_all_gone _ _ _ _ _ Er).
Qed.
End metadata_facts.

(** ** Two oddities *)

(** An id that names no directory makes the manager read the manifest of the working
    directory. *)
Theorem invalid_id_reads_cwd `{Glaze} weakly_canonical t base cwd id content synced :
  RelativePathForId id = [] -> walk t (cwd ++ [manifest_name]) = Some (File content synced) ->
  GetModelInfo weakly_canonical t base cwd id =
    ParseModelJson weakly_canonical {| rooted := false; names := [] |} "vinput-model.json" content.
Proof.
  intros Hid Hw. unfold GetModelInfo, own_dir, ModelDir. rewrite Hid. unfold exists_at, read_file. rewrite Hw. done.
Qed.

(** A number beyond 64 bits in the metadata is converted to an integer all the same. *)
Theorem huge_parameter_undefined : FormatNumber (f64_of_Z (10 ^ 19)) = None.
Proof. vm_compute. reflexivity. Qed.
