(* ===== verification/ConfigStore.v ===== *)
(** * The configuration file (src/src/common/config/core_config_store.cpp,
    core_config_defaults.cpp, config_router.cpp)

    Loading and saving with the process-wide cache, and single values addressed by
    JSON pointers. The file is a value with its modification time; the file system's
    answers (directory creation, the atomic write, stat) are arguments. *)

From S2P Require Import Prelude StringUtils Floats Json Scene CoreConfig ConfigCodec.
From Stdlib Require Import Ascii.

(** [f_stat]: querying time and size succeeds; [f_opens]: it can be opened. *)
Record File := { f_text : bytes; f_mtime : Z; f_stat : bool; f_opens : bool }.

Record ConfigCache := { hasCache : bool; ca_mtime : Z; ca_size : N; cached : CoreConfig }.

Definition GetConfigStat (file : option File) : option (Z * N) :=
  match file with
  | Some f => if f_stat f then Some (f_mtime f, size (f_text f)) else None
  | None => None
  end.

Definition set_label (s : Scene) (label : bytes) : Scene :=
  {| sc_id := sc_id s; sc_label := label; sc_prompt := sc_prompt s;
     sc_provider_id := sc_provider_id s; sc_model := sc_model s;
     llm_max_candidates := llm_max_candidates s; timeout_ms := timeout_ms s;
     context_lines := context_lines s; raw_cand := raw_cand s; raw_prev := raw_prev s;
     builtin := builtin s |}.

Definition materialize_scene (s : Scene) : Scene :=
  if negb (IsBuiltinSceneId (sc_id s)) then s
  else if is_empty (sc_label s) || IsBuiltinSceneLabelKey (sc_label s)
  then set_label s (DisplayLabel s) else s.

Definition with_scenes (c : CoreConfig) (defs : list Scene) : CoreConfig :=
  {| cc_version := cc_version c; baseUrls := baseUrls c; cc_global := cc_global c;
     cc_llm := cc_llm c; cc_asr := cc_asr c;
     cc_scenes := {| activeScene := activeScene (cc_scenes c); definitions := defs |};
     triggers := triggers c; receivers := receivers c |}.

Definition MaterializeBuiltinSceneLabels (c : CoreConfig) : CoreConfig :=
  with_scenes c (materialize_scene <$> definitions (cc_scenes c)).

Section store.
Context `{Glaze}.

(** The configuration that was parsed, and whether it could be; the file keeps the
    default configuration when it cannot. *)
Definition LoadCoreConfigFromFile (f : File) : option (bool * CoreConfig) :=
  if negb (f_opens f) then Some (false, default_core_config)
  else
    r ← CoreConfigFromJson (f_text f);
    Some (match r with Ok c => (true, c) | Err _ => (false, default_core_config) end).

(** [text]: the bundled default file, when it opens; [path]: its name. *)
Definition LoadBundledDefaultCoreConfig (path : bytes) (text : option bytes) : option (result CoreConfig) :=
  match text with
  | None => Some (Err ("Failed to open bundled default config: " ++ path))
  | Some text =>
      r ← CoreConfigFromJson text;
      Some (match r with
            | Ok c => Ok c
            | Err e => Err ("Failed to parse bundled default config: " ++ e)
            end)
  end.

Definition cache_hit (stat : option (Z * N)) (cache : ConfigCache) : bool :=
  match stat with
  | Some (mtime, size) => hasCache cache && (ca_mtime cache =? mtime)%Z && (ca_size cache =? size)%N
  | None => false
  end.

Definition drop_cache (cache : ConfigCache) : ConfigCache :=
  {| hasCache := false; ca_mtime := ca_mtime cache; ca_size := ca_size cache; cached := cached cache |}.

Definition fill_cache (stat : option (Z * N)) (c : CoreConfig) (cache : ConfigCache) : ConfigCache :=
  match stat with
  | Some (mtime, size) => {| hasCache := true; ca_mtime := mtime; ca_size := size; cached := c |}
  | None => drop_cache cache
  end.

(** [None]: undefined behaviour while parsing. When no bundled default exists the
    cache is left as it is. *)
Definition LoadCoreConfig (path : bytes) (bundled : option bytes) (file : option File)
    (cache : ConfigCache) : option (CoreConfig * ConfigCache) :=
  let stat := GetConfigStat file in
  if cache_hit stat cache then Some (cached cache, cache)
  else
    match stat, file with
    | Some _, Some f =>
        '(parsed, config) ← LoadCoreConfigFromFile f;
        let config := NormalizeCoreConfig config in
        Some (config, if (parsed : bool) then fill_cache stat config cache else drop_cache cache)
    | _, _ =>
        r ← LoadBundledDefaultCoreConfig path bundled;
        Some (match r with
              | Err _ => (default_core_config, cache)
              | Ok config => (NormalizeCoreConfig config, drop_cache cache)
              end)
    end.

(** The file system's side of a save. *)
Record SaveEnv := { dir_ok : bool; write_ok : bool; new_mtime : Z; new_stat : bool; new_opens : bool }.

Definition SaveCoreConfig (env : SaveEnv) (c : CoreConfig) (file : option File) (cache : ConfigCache)
  : bool * option File * ConfigCache :=
  if negb (dir_ok env) then (false, file, cache)
  else
    let normalized := NormalizeCoreConfig c in
    match ValidateCoreConfig normalized with
    | Err _ => (false, file, cache)
    | Ok _ =>
        let normalized := MaterializeBuiltinSceneLabels normalized in
        let serialized := CoreConfigToJson normalized in
        if is_empty serialized then (false, file, cache)
        else if negb (write_ok env) then (false, file, cache)
        else
          let file := Some {| f_text := serialized ++ [ch_nl]; f_mtime := new_mtime env;
                              f_stat := new_stat env; f_opens := new_opens env |} in
          (true, file, fill_cache (GetConfigStat file) normalized cache)
    end.

Definition InitializeCoreConfig (env : SaveEnv) (path : bytes) (bundled : option bytes)
    (file : option File) (cache : ConfigCache) : option (result unit * option File * ConfigCache) :=
  r ← LoadBundledDefaultCoreConfig path bundled;
  Some (match r with
        | Err e => (Err e, file, cache)
        | Ok config =>
            let '(saved, file, cache) := SaveCoreConfig env config file cache in
            (if (saved : bool) then Ok tt else Err "Failed to save default config.", file, cache)
        end).
End store.

(** ** Facts about the labels *)

Lemma persist_materialize flag c : persist_with flag (MaterializeBuiltinSceneLabels c) = persist_with flag c.
Proof.
  unfold persist_with; cbn. f_equal. f_equal. apply fmap_eq_fmap. intros s. unfold materialize_scene.
  destruct (IsBuiltinSceneId (sc_id s)) eqn:E; [cbn [negb]|done].
  destruct (is_empty _ || _); [|done]. unfold persist_Scene; cbn. by rewrite E, !orb_true_r.
Qed.

Lemma materialize_scene_id s : sc_id (materialize_scene s) = sc_id s.
Proof. unfold materialize_scene. by repeat case_match. Qed.

Lemma set_label_normal s label : normal_scene s -> normal_scene (set_label s label).
Proof.
  intros [[Hv Hn] Hp]. split; [split|].
  - done.
  - destruct s. unfold NormalizeDefinition, set_label in *; simpl in *. by injection Hn as -> -> -> ->.
  - unfold upgrade_prompt, outdated_prompt in *. cbn [set_label sc_id sc_prompt].
    destruct (_ && _); [|done]. unfold set_prompt in *. destruct s; simpl in *. by injection Hp as <-.
Qed.

Lemma materialize_scene_normal s : normal_scene s -> normal_scene (materialize_scene s).
Proof. intros Hs. unfold materialize_scene. repeat case_match; auto using set_label_normal. Qed.

Lemma materialize_normal c : config_normal c -> config_normal (MaterializeBuiltinSceneLabels c).
Proof.
  intros [Hu Hd Hp Ha Hs Hact Hg Hv [[Hsu Hsf Hsn] Hraw Hcmd] Hscene Ht Hr].
  assert (forall l : list Scene, sc_id <$> (materialize_scene <$> l) = sc_id <$> l) as Hids.
  { intros l. apply fmap_eq_fmap, materialize_scene_id. }
  split; cbn -[lookup_id FindScene normalize_vad fclamp materialize_scene]; try done.
  - split; [split|..]; rewrite ?Hids; try done; apply Forall_fmap.
    + eapply Forall_impl; [exact Hsf|]. intros s; simpl. by rewrite materialize_scene_id.
    + eapply Forall_impl; [exact Hsn|]. intros s; apply materialize_scene_normal.
  - destruct Hscene as [?|Hs']; [by left|right]. revert Hs'. unfold FindScene.
    rewrite !fmap_is_Some. apply list_find_fmap_is_Some, materialize_scene_id.
Qed.

(** ** The cache *)

Section coherence.
Context `{Glaze} (path : bytes) (bundled : option bytes).

Definition no_cache : ConfigCache :=
  {| hasCache := false; ca_mtime := 0; ca_size := 0; cached := default_core_config |}.

(** What can happen to the file and the cache. Another program may replace the file,
    and its edit changes the modification time or the size; a file that was saved can
    be opened, and its text reads back. *)
Inductive store_step : option File * ConfigCache -> option File * ConfigCache -> Prop :=
  | step_load file cache c cache' :
      LoadCoreConfig path bundled file cache = Some (c, cache') -> store_step (file, cache) (file, cache')
  | step_save env c file cache saved file' cache' text root :
      reads_back (ToWire (MaterializeBuiltinSceneLabels (NormalizeCoreConfig c))) text [ch_nl] root ->
      new_opens env = true ->
      SaveCoreConfig env c file cache = (saved, file', cache') -> store_step (file, cache) (file', cache')
  | step_edit file file' cache :
      cache_hit (GetConfigStat file') cache = false -> store_step (file, cache) (file', cache).

(** What the cache holds is, up to what a file cannot hold, what the file says. *)
Definition coherent (s : option File * ConfigCache) : Prop :=
  cache_hit (GetConfigStat s.1) s.2 = true ->
  exists f c, s.1 = Some f /\ f_opens f = true /\ CoreConfigFromJson (f_text f) = Some (Ok c) /\
    config_normal (cached s.2) /\ settled (cached s.2) = settled (NormalizeCoreConfig c).

Lemma drop_cache_coherent file cache : coherent (file, drop_cache cache).
Proof. intros Hhit. unfold cache_hit in Hhit. simpl in Hhit. by destruct (GetConfigStat file) as [[]|]. Qed.

Lemma load_coherent_step file cache c cache' :
  coherent (file, cache) -> LoadCoreConfig path bundled file cache = Some (c, cache') -> coherent (file, cache').
Proof.
  intros Hco. unfold LoadCoreConfig. destruct (cache_hit _ _) eqn:Hhit; [by intros [= <- <-]|].
  assert (coherent (file, cache)) as Hkeep by done.
  destruct (GetConfigStat file) as [[m n]|] eqn:Hst.
  - destruct file as [f|]; [|done]. unfold LoadCoreConfigFromFile.
    destruct (f_opens f) eqn:Ho; cbn [negb mbind option_bind];
      [|intros [= <- <-]; apply drop_cache_coherent].
    destruct (CoreConfigFromJson (f_text f)) as [[p|e]|] eqn:Hp; cbn [mbind option_bind]; [| |done];
      intros [= <- <-]; [|apply drop_cache_coherent].
    intros _. exists f, p. split_and!; try done. apply config_normal_Normalize.
  - destruct (LoadBundledDefaultCoreConfig _ _) as [[]|]; cbn [mbind option_bind]; [| |by destruct file];
      destruct file; intros [= <- <-]; done || apply drop_cache_coherent.
Qed.

Lemma save_coherent_step env c file cache saved file' cache' text root :
  reads_back (ToWire (MaterializeBuiltinSceneLabels (NormalizeCoreConfig c))) text [ch_nl] root ->
  new_opens env = true -> coherent (file, cache) ->
  SaveCoreConfig env c file cache = (saved, file', cache') -> coherent (file', cache').
Proof.
  intros Hb Hop Hco. unfold SaveCoreConfig.
  destruct (dir_ok env); cbn [negb]; [|by intros [= <- <- <-]].
  destruct (ValidateCoreConfig _); [|by intros [= <- <- <-]].
  destruct (FromJson_ToJson _ _ _ _ Hb) as [-> Hr].
  destruct (is_empty text); [by intros [= <- <- <-]|].
  destruct (write_ok env); cbn [negb]; [|by intros [= <- <- <-]].
  intros [= <- <- <-]. unfold fill_cache, GetConfigStat; simpl.
  destruct (new_stat env) eqn:Hst; [|apply drop_cache_coherent].
  intros _. eexists _, _. split; [done|]. split; [done|]. split; [exact Hr|]. cbn [snd cached].
  pose proof (materialize_normal _ (config_normal_Normalize c)) as Hn. split; [done|].
  rewrite Normalize_persist, settled_idemp by done. done.
Qed.

Lemma reachable_coherent s s' : coherent s -> rtc store_step s s' -> coherent s'.
Proof.
  intros Hs Hr. induction Hr as [s|s s1 s2 Hstep _ IH]; [done|]. apply IH. clear IH s2.
  destruct Hstep; [by eapply load_coherent_step|by eapply save_coherent_step|].
  intros Hhit. simpl in Hhit. congruence.
Qed.

Lemma load_fresh file cache c cache' :
  coherent (file, cache) ->
  LoadCoreConfig path bundled file cache = Some (c, cache') ->
  exists fresh, fst <$> LoadCoreConfig path bundled file no_cache = Some fresh /\ settled c = settled fresh.
Proof.
  intros Hco. unfold LoadCoreConfig. destruct (cache_hit _ cache) eqn:Hhit.
  - intros [= <- <-]. destruct (Hco Hhit) as (f & p & Hf & Ho & Hp & _ & Hs). simpl in Hf, Hs. subst file.
    exists (NormalizeCoreConfig p). split; [|done].
    destruct (GetConfigStat (Some f)) as [[m n]|] eqn:Hst; [|by unfold cache_hit in Hhit]. cbn [cache_hit no_cache hasCache andb].
    unfold LoadCoreConfigFromFile. rewrite Ho. cbn [negb]. by rewrite Hp.
  - intros Hl. exists c. split; [|done].
    destruct (GetConfigStat file) as [[m n]|] eqn:Hst; cbn [cache_hit no_cache hasCache andb].
    + destruct file as [f|]; [|done]. destruct (LoadCoreConfigFromFile f) as [[]|]; cbn [mbind option_bind] in *; [|done].
      by injection Hl as <- _.
    + destruct (LoadBundledDefaultCoreConfig _ _) as [[]|]; destruct file; cbn [mbind option_bind] in *; try done;
        by injection Hl as <- _.
Qed.
End coherence.

(** The configuration cache is coherent: in any sequence of loads, saves and edits
    by other programs (which change the file's time or size), LoadCoreConfig returns
    what a process without a cache would read from the file, up to what the file does
    not hold by design, and its result passes validation unless neither the file nor
    the bundled default can be read. *)
Theorem config_cache_coherent `{Glaze} path bundled file0 file cache c cache' :
  rtc (store_step path bundled) (file0, no_cache) (file, cache) ->
  LoadCoreConfig path bundled file cache = Some (c, cache') ->
  (exists fresh, fst <$> LoadCoreConfig path bundled file no_cache = Some fresh /\ settled c = settled fresh) /\
  (ValidateCoreConfig c = Ok tt \/ GetConfigStat file = None /\ c = default_core_config).
Proof.
  intros Hr Hl. pose proof (reachable_coherent path bundled _ _ (drop_cache_coherent file0 no_cache) Hr) as Hco.
  split; [by eapply load_fresh|].
  assert (forall n, config_normal n -> ValidateCoreConfig n = Ok tt) as Hval.
  { intros n Hn. rewrite <-(Normalize_normal n Hn). apply Normalize_validates. }
  revert Hl. unfold LoadCoreConfig. destruct (cache_hit _ cache) eqn:Hhit.
  - intros [= <- <-]. left. destruct (Hco Hhit) as (? & ? & _ & _ & _ & Hn & _). by apply Hval.
  - destruct (GetConfigStat file) as [[m n]|] eqn:Hst.
    + destruct file as [f|]; [|done]. destruct (LoadCoreConfigFromFile f) as [[]|]; cbn [mbind option_bind]; [|done].
      intros [= <- _]. left. apply Normalize_validates.
    + destruct (LoadBundledDefaultCoreConfig _ _) as [[]|]; destruct file; cbn [mbind option_bind]; try done;
        intros [= <- _]; [left; apply Normalize_validates..|by right|by right].
Qed.

Definition demo_env : SaveEnv :=
  {| dir_ok := true; write_ok := true; new_mtime := 7; new_stat := true; new_opens := true |}.

(** The demo configuration with a user's label for the raw scene. *)
Definition labelled_config : CoreConfig :=
  with_scenes demo_config [set_label (MakeBuiltinScene kRawSceneId) "Mine"].

Definition saved_demo (c : CoreConfig) : CoreConfig :=
  MaterializeBuiltinSceneLabels (NormalizeCoreConfig c).

Lemma config_cache_coherent_witness :
  let G := demo_glaze (ToWire (saved_demo labelled_config)) in
  let '(_, file, cache) := @SaveCoreConfig G demo_env labelled_config None no_cache in
  exists c cache', @LoadCoreConfig G [] None file cache = Some (c, cache') /\
    ValidateCoreConfig c = Ok tt.
Proof.
  intros G. destruct (@SaveCoreConfig G demo_env labelled_config None no_cache) as [[saved file] cache] eqn:E.
  assert (exists c cache', @LoadCoreConfig G [] None file cache = Some (c, cache') /\ GetConfigStat file <> None) as (c & cache' & Hl & Hst).
  { vm_compute in E. injection E as <- <- <-. do 2 eexists. split; [vm_compute; reflexivity|done]. }
  exists c, cache'. split; [done|].
  assert (rtc (@store_step G [] None) (None, no_cache) (file, cache)) as Hr.
  { apply rtc_once. eapply (@step_save G [] None demo_env labelled_config); [|done|exact E].
    apply (demo_reads_back (ToWire (saved_demo labelled_config)) [ch_nl] (JString ">=2.4.0")); by vm_compute. }
  destruct (proj2 (@config_cache_coherent G [] None None file cache c cache' Hr Hl)) as [?|[]]; done.
Defined.

(** A label given to a built-in scene is lost: saving keeps it in the cache, so
    the running process shows it, but never writes it to the file, so every other
    process and the next start show the built-in label again. *)
Theorem builtin_label_not_saved `{Glaze} path bundled env c s file cache file' cache' text root :
  let n := NormalizeCoreConfig c in
  s ∈ definitions (cc_scenes n) -> IsBuiltinSceneId (sc_id s) = true ->
  is_empty (sc_label s) = false -> IsBuiltinSceneLabelKey (sc_label s) = false ->
  reads_back (ToWire (MaterializeBuiltinSceneLabels n)) text [ch_nl] root ->
  new_stat env = true -> new_opens env = true ->
  SaveCoreConfig env c file cache = (true, file', cache') ->
  (exists r cache2, LoadCoreConfig path bundled file' cache' = Some (r, cache2) /\
     s ∈ definitions (cc_scenes r)) /\
  (exists r cache2, LoadCoreConfig path bundled file' no_cache = Some (r, cache2) /\
     Forall (fun t => IsBuiltinSceneId (sc_id t) = true -> Some (DisplayLabel t) = BuiltinSceneLabel (sc_id t))
       (definitions (cc_scenes r))).
Proof.
  intros n Hs Hid Hne Hkey Hb Hst Hop. unfold SaveCoreConfig. fold n.
  destruct (dir_ok env); cbn [negb]; [|done]. destruct (ValidateCoreConfig n); [|done].
  destruct (FromJson_ToJson _ _ _ _ Hb) as [-> Hr]. destruct (is_empty text); [done|].
  destruct (write_ok env); cbn [negb]; [|done]. intros [= <- <-]. rewrite Hst, Hop.
  cbn [GetConfigStat f_stat f_mtime f_text fill_cache]. split.
  - eexists _, _. split.
    + unfold LoadCoreConfig. cbn [GetConfigStat f_stat f_mtime f_text cache_hit hasCache ca_mtime ca_size].
      rewrite Z.eqb_refl, N.eqb_refl. reflexivity.
    + cbn. apply list_elem_of_fmap. exists s. split; [|done].
      unfold materialize_scene. by rewrite Hid, Hne, Hkey.
  - eexists _, _. split.
    + unfold LoadCoreConfig. cbn [GetConfigStat f_stat f_mtime f_text cache_hit no_cache hasCache andb].
      unfold LoadCoreConfigFromFile. cbn [f_opens negb f_text]. rewrite Hr. reflexivity.
    + rewrite Normalize_persist by apply materialize_normal, config_normal_Normalize.
      cbn [settled persist_with cc_scenes definitions]. apply Forall_fmap, Forall_forall. intros t _.
      unfold compose, DisplayLabel. cbn [persist_Scene sc_id sc_label]. intros Ht. rewrite Ht, orb_true_r.
      unfold IsBuiltinSceneId, BuiltinSceneLabel in *.
      by destruct (sc_id t =b kRawSceneId), (sc_id t =b kCommandSceneId).
Qed.

Lemma builtin_label_not_saved_witness :
  let G := demo_glaze (ToWire (saved_demo labelled_config)) in
  let '(_, file, cache) := @SaveCoreConfig G demo_env labelled_config None no_cache in
  exists r cache2, @LoadCoreConfig G [] None file cache = Some (r, cache2) /\
    set_label (MakeBuiltinScene kRawSceneId) "Mine" ∈ definitions (cc_scenes r).
Proof.
  intros G. destruct (@SaveCoreConfig G demo_env labelled_config None no_cache) as [[saved file] cache] eqn:E.
  assert (saved = true) as -> by (vm_compute in E; by injection E as <- _ _).
  assert (set_label (MakeBuiltinScene kRawSceneId) "Mine"
    ∈ definitions (cc_scenes (NormalizeCoreConfig labelled_config))) as Hin by (vm_compute; constructor).
  assert (@reads_back G (ToWire (MaterializeBuiltinSceneLabels (NormalizeCoreConfig labelled_config))) "{}" [ch_nl] _) as Hb
    by (apply (demo_reads_back (ToWire (saved_demo labelled_config)) [ch_nl] (JString ">=2.4.0")); by vm_compute).
  exact (proj1 (@builtin_label_not_saved G [] None demo_env labelled_config _ None no_cache file cache "{}" _
    Hin eq_refl eq_refl eq_refl Hb eq_refl eq_refl E)).
Defined.
