(* ===== verification/ConfigRouter.v ===== *)
(** * Single configuration values (src/src/common/config/config_router.cpp)

    [vinput config get/set] address a node of the configuration's JSON tree by an
    RFC 6901 pointer. A [glz::json_t*] into the tree is the path from the root to
    the node; writing through the pointer is [assign] along that path. *)

From S2P Require Import Prelude StringUtils Floats Json Scene CoreConfig ConfigCodec ConfigStore.
From Stdlib Require Import Ascii.

Inductive step := Member (key : bytes) | Item (index : nat).

Definition size_t : int_type := {| it_signed := false; it_min := 0; it_max := 18446744073709551615 |}.

Definition ChildAt (node : json) (segment : bytes) : option (step * json) :=
  match node with
  | JObject members => v ← map_find segment members; Some (Member segment, v)
  | JArray items =>
      '(index, rest) ← from_chars size_t 10 segment;
      if negb (is_empty rest) || (Z.of_nat (length items) <=? index)%Z then None
      else v ← items !! Z.to_nat index; Some (Item (Z.to_nat index), v)
  | _ => None
  end.

(** One segment with its escapes, up to the next slash. *)
Fixpoint read_segment (s segment : bytes) : option (bytes * bytes) :=
  match s with
  | [] => Some (segment, [])
  | "/"%char :: _ => Some (segment, s)
  | "~"%char :: s =>
      match s with
      | "1"%char :: s => read_segment s (segment ++ "/")
      | "0"%char :: s => read_segment s (segment ++ "~")
      | _ => None
      end
  | c :: s => read_segment s (segment ++ [c])
  end.

(** The outer loop; each round consumes a slash. *)
Fixpoint seek (fuel : nat) (node : json) (path : list step) (pointer : bytes) : option (list step * json) :=
  match fuel with
  | O => None
  | S fuel =>
      match pointer with
      | [] => Some (path, node)
      | "/"%char :: pointer =>
          '(segment, rest) ← read_segment pointer [];
          '(st, child) ← ChildAt node segment;
          seek fuel child (path ++ [st]) rest
      | _ => None
      end
  end.
Definition SeekPointer (root : json) (pointer : bytes) : option (list step * json) :=
  seek (S (length pointer)) root [] pointer.

(** [*node = v] for the node at [path]. *)
Fixpoint assign (path : list step) (v : json) (node : json) : json :=
  match path with
  | [] => v
  | Member key :: path =>
      match node with
      | JObject members =>
          JObject ((fun kv => if kv.1 =b key then (kv.1, assign path v kv.2) else kv) <$> members)
      | _ => node
      end
  | Item index :: path =>
      match node with
      | JArray items => JArray (alter (assign path v) index items)
      | _ => node
      end
  end.

Section router.
Context `{Glaze} (path : bytes) (bundled : option bytes).

Definition FormatNode (node : json) : bytes := default [] (write_tree node).

Definition ParseSetValue (value : bytes) : json :=
  if IsSingleJsonValue value
  then match read_tree value with Ok parsed => parsed | Err _ => JString value end
  else JString value.

(** [None]: undefined behaviour while loading; the inner [Err]: the tree cannot be read. *)
Definition LoadConfigTree (file : option File) (cache : ConfigCache) : option (result json * ConfigCache) :=
  '(config, cache) ← LoadCoreConfig path bundled file cache;
  Some (read_tree (CoreConfigToJson (NormalizeCoreConfig config)), cache).

Definition not_found (pointer : bytes) : bytes := "Config path not found: " ++ pointer.

Definition GetConfigValue (pointer : bytes) (file : option File) (cache : ConfigCache)
  : option (result bytes * ConfigCache) :=
  '(tree, cache) ← LoadConfigTree file cache;
  Some (match tree with
        | Err _ => Err "Failed to load config."
        | Ok root =>
            match SeekPointer root pointer with
            | None => Err (not_found pointer)
            | Some (_, JString text) => Ok text
            | Some (_, node) => Ok (FormatNode node)
            end
        end, cache).

(** Parsing and saving the updated tree. *)
Definition save_tree (env : SaveEnv) (root : json) (file : option File) (cache : ConfigCache)
  : option (result unit * option File * ConfigCache) :=
  r ← CoreConfigFromJson (FormatNode root);
  Some (match r with
        | Err e => (Err (if is_empty e then "Failed to parse updated config." else e), file, cache)
        | Ok updated =>
            let '(saved, file, cache) := SaveCoreConfig env updated file cache in
            if (saved : bool) then (Ok tt, file, cache)
            else
              match ValidateCoreConfig (NormalizeCoreConfig updated) with
              | Err e => (Err (if is_empty e then "Failed to save config." else e), file, cache)
              | Ok _ => (Err "Failed to save config.", file, cache)
              end
        end).

Definition SetConfigValue (env : SaveEnv) (pointer value : bytes) (file : option File) (cache : ConfigCache)
  : option (result unit * option File * ConfigCache) :=
  '(tree, cache) ← LoadConfigTree file cache;
  match tree with
  | Err _ => Some (Err "Failed to load config.", file, cache)
  | Ok root =>
      match SeekPointer root pointer with
      | None => Some (Err (not_found pointer), file, cache)
      | Some (node, _) => save_tree env (assign node (ParseSetValue value) root) file cache
      end
  end.
End router.

(** ** Pointers *)

(** The escaped form of a key, and the pointer of a list of keys. *)
Definition escape_char (c : ascii) : bytes :=
  if c =b "/"%char then "~1" else if c =b "~"%char then "~0" else [c].
Definition escape (segment : bytes) : bytes := segment ≫= escape_char.
Definition pointer_of (segments : list bytes) : bytes := segments ≫= (fun s => "/" ++ escape s).

(** Following keys without any text in between. *)
Fixpoint walk (node : json) (path : list step) (segments : list bytes) : option (list step * json) :=
  match segments with
  | [] => Some (path, node)
  | s :: segments => '(st, child) ← ChildAt node s; walk child (path ++ [st]) segments
  end.

Definition ends_segment (rest : bytes) : Prop := rest = [] \/ exists r, rest = "/"%char :: r.

Lemma read_segment_plain c s acc :
  c <> "/"%char -> c <> "~"%char -> read_segment (c :: s) acc = read_segment s (acc ++ [c]).
Proof. intros H1 H2. destruct c as [[] [] [] [] [] [] [] []]; try reflexivity; done. Qed.

Lemma read_segment_escape s acc rest :
  ends_segment rest -> read_segment (escape s ++ rest) acc = Some (acc ++ s, rest).
Proof.
  intros Hr. revert acc. induction s as [|c s IH]; intros acc.
  - simpl. rewrite app_nil_r. destruct Hr as [->|[r ->]]; done.
  - change (escape (c :: s)) with (escape_char c ++ escape s). rewrite <-app_assoc. unfold escape_char.
    case_bool_decide as H1; [|case_bool_decide as H2].
    + subst c. simpl. rewrite IH. by rewrite <-app_assoc.
    + subst c. simpl. rewrite IH. by rewrite <-app_assoc.
    + cbn [app]. rewrite read_segment_plain, IH, <-app_assoc by done. done.
Qed.

Lemma pointer_of_ends segments : ends_segment (pointer_of segments).
Proof. destruct segments; [by left|]. right. eexists. reflexivity. Qed.

Lemma seek_pointer_of fuel node path segments :
  (length segments < fuel)%nat -> seek fuel node path (pointer_of segments) = walk node path segments.
Proof.
  revert fuel node path. induction segments as [|s segments IH]; intros [|fuel] node path Hf;
    simpl in Hf; try lia; [done|].
  change (pointer_of (s :: segments)) with (("/"%char :: escape s) ++ pointer_of segments). cbn [app seek walk].
  rewrite read_segment_escape by apply pointer_of_ends. cbn [mbind option_bind app].
  destruct (ChildAt node s) as [[st child]|]; cbn [mbind option_bind]; [|done]. apply IH. lia.
Qed.

Lemma pointer_of_length segments : (length segments <= length (pointer_of segments))%nat.
Proof.
  induction segments as [|s segments IH]; [done|].
  change (pointer_of (s :: segments)) with (("/"%char :: escape s) ++ pointer_of segments).
  rewrite length_app. simpl. lia.
Qed.

(** ** Writing through a pointer *)

(** Following a path. *)
Definition child_at (node : json) (st : step) : option json :=
  match st, node with
  | Member key, JObject members => map_find key members
  | Item index, JArray items => items !! index
  | _, _ => None
  end.

Lemma ChildAt_child node segment st child :
  ChildAt node segment = Some (st, child) -> child_at node st = Some child.
Proof.
  destruct node; try done; simpl.
  - destruct (from_chars size_t 10 segment) as [[index rest]|]; [|done]. cbn [mbind option_bind].
    destruct (negb _ || _); [done|]. destruct (items !! _) eqn:E; [|done]. by intros [= <- <-].
  - destruct (map_find segment members) eqn:E; [|done]. by intros [= <- <-].
Qed.

(** The step a segment selects depends on the shape of the node only. *)
Lemma map_find_update {V} key k (f : V -> V) (members : list (bytes * V)) :
  map_find k ((fun kv => if kv.1 =b key then (kv.1, f kv.2) else kv) <$> members)
  = (if k =b key then f else id) <$> map_find k members.
Proof.
  induction members as [|[k' v] members IH]; [done|]. rewrite fmap_cons. cbn [fst snd].
  destruct (decide (k = k')) as [<-|Hne].
  - destruct (k =b key); simpl; by rewrite !bool_decide_eq_true_2.
  - transitivity (map_find k ((fun kv => if kv.1 =b key then (kv.1, f kv.2) else kv) <$> members));
      [destruct (k' =b key)|rewrite IH]; simpl; by rewrite (bool_decide_eq_false_2 (k = k')).
Qed.

Lemma ChildAt_assign_same node segment st child rest v :
  ChildAt node segment = Some (st, child) ->
  ChildAt (assign (st :: rest) v node) segment = Some (st, assign rest v child).
Proof.
  destruct node; try done; simpl.
  - destruct (from_chars size_t 10 segment) as [[index tl]|] eqn:Ef; [|done]. cbn [mbind option_bind].
    destruct (negb _ || _) eqn:E; [done|]. destruct (items !! _) eqn:Ei; [|done]. intros [= <- <-]. simpl.
    rewrite Ef. cbn [mbind option_bind]. rewrite length_alter, E, list_lookup_alter, decide_True, Ei by done. done.
  - destruct (map_find segment members) eqn:E; [|done]. intros [= <- <-]. simpl.
    rewrite map_find_update, E, bool_decide_eq_true_2 by done. done.
Qed.

Lemma ChildAt_assign_other node segment st child st' rest v :
  ChildAt node segment = Some (st, child) -> st <> st' ->
  ChildAt (assign (st' :: rest) v node) segment = Some (st, child).
Proof.
  destruct node; try done; simpl; [|].
  - destruct (from_chars size_t 10 segment) as [[index tl]|] eqn:Ef; [|done]. cbn [mbind option_bind].
    destruct (negb _ || _) eqn:E; [done|]. destruct (items !! _) eqn:Ei; [|done]. intros [= <- <-] Hne.
    destruct st' as [|i]; simpl; rewrite Ef; cbn [mbind option_bind]; [by rewrite E, Ei|].
    rewrite length_alter, E, list_lookup_alter, decide_False, Ei by congruence. done.
  - destruct (map_find segment members) eqn:E; [|done]. intros [= <- <-] Hne.
    destruct st' as [key|]; simpl; [|by rewrite E].
    rewrite map_find_update, E, bool_decide_eq_false_2 by congruence. done.
Qed.

(** One round of the loop. *)
Lemma seek_Some fuel node acc pointer q c :
  seek fuel node acc pointer = Some (q, c) ->
  exists fuel', fuel = S fuel' /\
  ((pointer = [] /\ q = acc /\ c = node) \/
   exists rest seg st child tl, pointer = "/"%char :: rest /\ read_segment rest [] = Some (seg, tl) /\
     ChildAt node seg = Some (st, child) /\ seek fuel' child (acc ++ [st]) tl = Some (q, c)).
Proof.
  destruct fuel as [|fuel]; [done|]. intros Hs. exists fuel. split; [done|].
  destruct pointer as [|ch rest]; cbn [seek] in Hs; [injection Hs as <- <-; by left|right].
  destruct (decide (ch = "/"%char)) as [->|Hne];
    [|destruct ch as [[] [] [] [] [] [] [] []]; done].
  destruct (read_segment rest []) as [[seg tl]|] eqn:Hr; cbn [mbind option_bind] in Hs; [|done].
  destruct (ChildAt node seg) as [[st child]|] eqn:Hc; cbn [mbind option_bind] in Hs; [|done].
  eauto 10.
Qed.

Lemma seek_path fuel node acc pointer q c :
  seek fuel node acc pointer = Some (q, c) -> exists p, q = acc ++ p.
Proof.
  revert node acc pointer. induction fuel as [|fuel IH]; intros node acc pointer; [done|].
  intros (fuel' & [= <-] & [(-> & -> & ->)|(rest & seg & st & child & tl & -> & _ & _ & Hs)])%seek_Some.
  - exists []. by rewrite app_nil_r.
  - destruct (IH _ _ _ Hs) as [p ->]. exists (st :: p). by rewrite <-app_assoc.
Qed.

Lemma seek_round fuel node acc rest seg tl st child :
  read_segment rest [] = Some (seg, tl) -> ChildAt node seg = Some (st, child) ->
  seek (S fuel) node acc ("/"%char :: rest) = seek fuel child (acc ++ [st]) tl.
Proof. intros Hr Hc. cbn [seek]. rewrite Hr. cbn [mbind option_bind]. by rewrite Hc. Qed.

Lemma seek_assign_same fuel node acc pointer p c v :
  seek fuel node acc pointer = Some (acc ++ p, c) ->
  seek fuel (assign p v node) acc pointer = Some (acc ++ p, v).
Proof.
  revert node acc pointer p. induction fuel as [|fuel IH]; intros node acc pointer p; [done|].
  intros (fuel' & [= <-] & [(-> & Hq & ->)|(rest & seg & st & child & tl & -> & Hr & Hc & Hs)])%seek_Some.
  - assert (p = []) as -> by (apply (app_inv_head acc); by rewrite app_nil_r).
    cbn. by rewrite app_nil_r.
  - destruct (seek_path _ _ _ _ _ _ Hs) as [p' Hp']. rewrite <-app_assoc in Hp'.
    apply app_inv_head in Hp' as ->. cbn [app] in *.
    rewrite (seek_round _ _ _ _ _ _ _ _ Hr (ChildAt_assign_same _ _ _ _ p' v Hc)).
    rewrite (app_assoc acc [st] p' : acc ++ st :: p' = _) in Hs |- *. by apply IH.
Qed.

(** Neither path leads through the other. *)
Definition diverge (p q : list step) : Prop := ~ p `prefix_of` q /\ ~ q `prefix_of` p.

Lemma seek_assign_other fuel node acc pointer p q c v :
  seek fuel node acc pointer = Some (acc ++ q, c) -> diverge p q ->
  seek fuel (assign p v node) acc pointer = Some (acc ++ q, c).
Proof.
  revert node acc pointer p q. induction fuel as [|fuel IH]; intros node acc pointer p q; [done|].
  intros (fuel' & [= <-] & [(-> & Hq & ->)|(rest & seg & st & child & tl & -> & Hr & Hc & Hs)])%seek_Some Hd.
  - assert (q = []) as -> by (apply (app_inv_head acc); by rewrite app_nil_r).
    destruct Hd as [_ []]. apply prefix_nil.
  - destruct (seek_path _ _ _ _ _ _ Hs) as [q' Hq']. rewrite <-app_assoc in Hq'.
    apply app_inv_head in Hq' as ->. destruct p as [|st' p]; [destruct Hd as [[] _]; apply prefix_nil|].
    cbn [app] in *. rewrite (app_assoc acc [st] q' : acc ++ st :: q' = _) in Hs |- *.
    assert (st' = st \/ st <> st') as [->|Hne].
    { destruct st, st'; try (right; congruence).
      - destruct (decide (key0 = key)) as [->|]; [by left|right; congruence].
      - destruct (decide (index0 = index)) as [->|]; [by left|right; congruence]. }
    + rewrite (seek_round _ _ _ _ _ _ _ _ Hr (ChildAt_assign_same _ _ _ _ p v Hc)). apply IH; [done|].
      destruct Hd as [Hd1 Hd2]. split; intros Hp; [apply Hd1|apply Hd2]; by apply prefix_cons.
    + by rewrite (seek_round _ _ _ _ _ _ _ _ Hr (ChildAt_assign_other _ _ _ _ _ p v Hc Hne)).
Qed.

(** Configuration values are addressed by RFC 6901 pointers: the pointer made of
    any escaped keys follows exactly those keys; writing a value through a pointer and
    reading the same pointer gives the value back, and every pointer to a node that is
    neither above nor below it still reads what it read before. *)
Theorem pointer_set_get root pointer path old v :
  SeekPointer root pointer = Some (path, old) ->
  (forall segments, SeekPointer root (pointer_of segments) = walk root [] segments) /\
  SeekPointer (assign path v root) pointer = Some (path, v) /\
  (forall other path' old', SeekPointer root other = Some (path', old') -> diverge path path' ->
     SeekPointer (assign path v root) other = Some (path', old')).
Proof.
  intros Hs. split_and!.
  - intros segments. apply seek_pointer_of. pose proof (pointer_of_length segments). lia.
  - by apply (seek_assign_same _ _ [] _ _ _ v) in Hs.
  - intros other path' old' Ho Hd. by apply (seek_assign_other _ _ [] _ path _ _ v Ho Hd).
Qed.

Lemma pointer_set_get_witness :
  let root := JObject [("a/b", JArray [JNull; JBool true]); ("c", JString "x")] in
  SeekPointer root "/a~1b/1" = Some ([Member "a/b"; Item 1], JBool true) /\
  SeekPointer (assign [Member "a/b"; Item 1] (JString "v") root) "/c" = Some ([Member "c"], JString "x").
Proof.
  intros root. split; [reflexivity|].
  refine (proj2 (proj2 (pointer_set_get root "/a~1b/1" [Member "a/b"; Item 1] (JBool true) (JString "v") eq_refl))
    "/c" [Member "c"] (JString "x") eq_refl _).
  split; intros [k Hk]; discriminate Hk.
Defined.

(** ** Setting a value *)

Lemma SaveCoreConfig_file `{Glaze} env c file cache saved file' cache' :
  SaveCoreConfig env c file cache = (saved, file', cache') ->
  if saved
  then exists f, file' = Some f /\
    f_text f = CoreConfigToJson (MaterializeBuiltinSceneLabels (NormalizeCoreConfig c)) ++ [ch_nl]
  else file' = file /\ cache' = cache.
Proof.
  unfold SaveCoreConfig. destruct (dir_ok env); cbn [negb]; [|by intros [= <- <- <-]].
  destruct (ValidateCoreConfig _); [|by intros [= <- <- <-]].
  destruct (is_empty _); [by intros [= <- <- <-]|].
  destruct (write_ok env); cbn [negb]; intros [= <- <- <-]; eauto.
Qed.

(** Setting one value is all or nothing: an error (unknown path, unreadable tree,
    a result that does not parse, a failed write) leaves the file as it was; success
    means the file holds the normalised configuration that the updated tree parses to. *)
Theorem SetConfigValue_atomic `{Glaze} path bundled env pointer value file cache r file' cache' :
  SetConfigValue path bundled env pointer value file cache = Some (r, file', cache') ->
  match r with
  | Err _ => file' = file
  | Ok _ => exists root node old updated f,
      fst <$> LoadConfigTree path bundled file cache = Some (Ok root) /\
      SeekPointer root pointer = Some (node, old) /\
      CoreConfigFromJson (FormatNode (assign node (ParseSetValue value) root)) = Some (Ok updated) /\
      file' = Some f /\
      f_text f = CoreConfigToJson (MaterializeBuiltinSceneLabels (NormalizeCoreConfig updated)) ++ [ch_nl]
  end.
Proof.
  unfold SetConfigValue. destruct (LoadConfigTree _ _ _ _) as [[[root|e] cache1]|]; cbn [mbind option_bind]; [| |done].
  2: by intros [= <- <- <-].
  destruct (SeekPointer root pointer) as [[node old]|] eqn:Hs; [|by intros [= <- <- <-]].
  unfold save_tree. destruct (CoreConfigFromJson _) as [[updated|e]|] eqn:Hp; cbn [mbind option_bind]; [| |done].
  2: by intros [= <- <- <-].
  destruct (SaveCoreConfig _ _ _ _) as [[saved f1] c1] eqn:Hsave. apply SaveCoreConfig_file in Hsave.
  destruct saved.
  - destruct Hsave as (f & -> & Hf). intros [= <- <- <-]. exists root, node, old, updated, f.
    by rewrite Hp.
  - destruct Hsave as [-> ->]. destruct (ValidateCoreConfig _); by intros [= <- <- <-].
Qed.

Definition demo_tree : json := JObject [("asr", JObject [("input_gain", JNumber (f64_of_Z 1))])].
Definition demo_router : Glaze :=
  {| write_config := fun _ => Some "{}"; read_tree := fun text =>
       if text =b "new" then Ok (JObject [("asr", JObject [("input_gain", JString "loud")])])
       else if text =b "{}" then Ok demo_tree else Err "syntax_error";
     write_tree := fun _ => Some "new";
     read_registry := fun _ => None; read_global := fun _ => None; read_llm := fun _ => None;
     read_scenes := fun _ => None; read_asr := fun _ => None; read_clients := fun _ => None |}.

Definition demo_cache : ConfigCache :=
  {| hasCache := true; ca_mtime := 3; ca_size := 2; cached := NormalizeCoreConfig demo_config |}.
Definition demo_file : option File :=
  Some {| f_text := "{}"; f_mtime := 3; f_stat := true; f_opens := true |}.

Lemma SetConfigValue_atomic_witness :
  exists r file' cache',
    @SetConfigValue demo_router [] None demo_env "/asr/gain" "loud" demo_file demo_cache = Some (Err r, file', cache')
    /\ file' = demo_file.
Proof.
  eexists _, _, _. split; [vm_compute; reflexivity|].
  refine (@SetConfigValue_atomic demo_router [] None demo_env "/asr/gain" "loud" demo_file demo_cache
    (Err _) _ _ _). vm_compute. reflexivity.
Defined.

(** A mistyped value resets its whole section: when the updated section can no longer
    be read (a word for a number, say), setting the value still reports success, and the
    saved configuration has the default section: for the recogniser section, every
    provider is gone. *)
Theorem set_value_resets_section `{Glaze} path bundled env pointer value file cache root node old cache1 text ver file' cache' r :
  let updated := assign node (ParseSetValue value) root in
  LoadConfigTree path bundled file cache = Some (Ok root, cache1) ->
  SeekPointer root pointer = Some (node, old) ->
  write_tree updated = Some text -> text <> [] -> read_tree text = Ok updated -> is_object updated = true ->
  ReadSection read_asr updated "asr" = None ->
  read_version updated (cc_version default_core_config) = Some ver ->
  dir_ok env = true -> write_ok env = true -> new_stat env = true ->
  (forall c, CoreConfigToJson c <> []) ->
  SetConfigValue path bundled env pointer value file cache = Some (r, file', cache') ->
  r = Ok tt /\ asr_providers (cc_asr (cached cache')) = [] /\ hasCache cache' = true.
Proof.
  intros updated Hl Hs Hw Hne Hr Ho Hasr Hv Hd Hwr Hst Hser. unfold SetConfigValue, save_tree, FormatNode.
  rewrite Hl. cbn [mbind option_bind]. rewrite Hs. fold updated. rewrite Hw. change (default [] (Some text)) with text.
  unfold CoreConfigFromJson. destruct text as [|ch text]; [done|]. cbn [is_empty].
  rewrite Hr, Ho. cbn [negb]. rewrite Hv. cbn [mbind option_bind].
  set (parsed := parse_sections _ _).
  assert (asr_providers (cc_asr parsed) = []) as Hp.
  { unfold parsed, parse_sections, section. by rewrite Hasr. }
  unfold SaveCoreConfig. rewrite Hd, Hwr, Normalize_validates. cbn [negb].
  pose proof (Hser (MaterializeBuiltinSceneLabels (NormalizeCoreConfig parsed))) as Hs2.
  apply is_empty_false in Hs2. rewrite Hs2. unfold fill_cache, GetConfigStat; cbn [f_stat]. rewrite Hst.
  intros [= <- <- <-]. split; [done|]. split; [|done]. cbn [cached].
  unfold MaterializeBuiltinSceneLabels, NormalizeCoreConfig. rewrite Hp.
  by destruct (normalize_loop _ _ _ _), (normalize_loop _ _ _ _).
Qed.

Lemma set_value_resets_section_witness :
  asr_providers (cc_asr (cached demo_cache)) <> [] /\
  exists r file' cache',
    @SetConfigValue demo_router [] None demo_env "/asr/input_gain" "loud" demo_file demo_cache
      = Some (r, file', cache') /\
    r = Ok tt /\ asr_providers (cc_asr (cached cache')) = [] /\ hasCache cache' = true.
Proof.
  split; [vm_compute; discriminate|].
  destruct (@SetConfigValue demo_router [] None demo_env "/asr/input_gain" "loud" demo_file demo_cache)
    as [[[r file'] cache']|] eqn:E; [|vm_compute in E; discriminate E].
  exists r, file', cache'. split; [done|].
  refine (@set_value_resets_section demo_router [] None demo_env "/asr/input_gain" "loud" demo_file demo_cache
    demo_tree [Member "asr"; Member "input_gain"] (JNumber (f64_of_Z 1)) demo_cache "new" ">=2.4.0"
    file' cache' r _ _ _ _ _ _ _ _ _ _ _ _ E); try (vm_compute; reflexivity); [intros [=]|intros c [=]].
Defined.
