(* ===== verification/Migration.v ===== *)
(** * Configuration migration (src/src/common/config/config_migration.cpp)

    A table of rules rewrites config.json (a JSON tree) and vinput.conf (an Fcitx
    configuration tree). The Fcitx tree is a parameter, the class [RawConfig]; the
    files' answers are arguments of [RunConfigMigration]. *)

From S2P Require Import Prelude StringUtils Floats Json Version ConfigCodec.
From Stdlib Require Import Ascii SpecFloat.

(** ** The rules *)

Inductive ActionType := Rename | Remove | Ensure | ReplaceIfDefault | IniReplaceKey | IniRemoveKey.
#[export] Instance ActionType_eq_dec : EqDecision ActionType.
Proof. solve_decision. Defined.

Record MigrationRule := {
  mr_version : bytes; target_file : bytes; mr_action : ActionType; mr_path : bytes; new_key : bytes;
  default_value : json; expected_value : json; to_value : json;
}.

(** The constructor's default arguments. *)
Definition plain_rule (version file : bytes) (action : ActionType) (path key : bytes) : MigrationRule :=
  {| mr_version := version; target_file := file; mr_action := action; mr_path := path; new_key := key;
     default_value := JNull; expected_value := JNull; to_value := JNull |}.
Definition replace_rule (version path : bytes) (expected to : flt) : MigrationRule :=
  {| mr_version := version; target_file := "config.json"; mr_action := ReplaceIfDefault; mr_path := path;
     new_key := []; default_value := JNull; expected_value := JNumber expected; to_value := JNumber to |}.

Definition GetRules : list MigrationRule :=
  [ plain_rule "2.3.15" "config.json" Rename "scenes.*.*.candidate_count" "count";
    plain_rule "2.3.15" "config.json" Rename "llm.adaptors" "adapters";
    plain_rule "2.3.15" "vinput.conf" IniReplaceKey "SceneMenuKey" "MenuKey";
    plain_rule "2.3.15" "vinput.conf" IniRemoveKey "AsrMenuKey" [];
    plain_rule "2.3.25" "config.json" Rename "scenes.*.*.show_raw" "raw_cand";
    {| mr_version := "2.3.25"; target_file := "config.json"; mr_action := Ensure;
       mr_path := "scenes.*.*.raw_prev"; new_key := []; default_value := JBool true;
       expected_value := JNull; to_value := JNull |};
    plain_rule "2.3.27" "config.json" Remove "global.default_language" [];
    plain_rule "2.4.0" "vinput.conf" IniRemoveKey "HoldActivationDelay" [];
    replace_rule "2.4.0" "asr.vad.threshold" (f64_lit 45 100) (f64_lit 35 100);
    replace_rule "2.4.0" "asr.vad.min_speech_duration" (f64_lit 15 100) (f64_lit 10 100);
    replace_rule "2.4.0" "asr.vad.min_silence_duration" (f64_lit 5 10) (f64_lit 12 10);
    replace_rule "2.4.0" "asr.vad.speech_pad_ms" (f64_of_Z 30) (f64_of_Z 500);
    replace_rule "2.4.0" "asr.vad.speech_pad_ms" (f64_of_Z 300) (f64_of_Z 500) ].

Definition zero_version : SemanticVersion := {| major := 0; minor := 0; patch := 0 |}.

Definition GetMaxRuleVersion : SemanticVersion :=
  foldl (fun max_ver rule =>
           match Parse (mr_version rule) with
           | Some parsed => if version_ltb max_ver parsed then parsed else max_ver
           | None => max_ver
           end) zero_version GetRules.

Definition GetTargetVersionConstraint : bytes := ">=" ++ print_version GetMaxRuleVersion.

Fixpoint drop_bound (s : bytes) : bytes :=
  match s with
  | c :: s' => if (c =b ">"%char) || (c =b "="%char) || (c =b " "%char) then drop_bound s' else s
  | [] => []
  end.

Definition ParseConfigLowerBoundVersion (ver_str : bytes) : option SemanticVersion :=
  let ver_str := Trim ver_str in
  if is_empty ver_str then None
  else
    let ver_str := match find_char ver_str ","%char with Some pos => take pos ver_str | None => ver_str end in
    Parse (drop_bound ver_str).

(** ** config.json *)

(** [std::abs(a - b) < 1e-4] *)
Definition close (a b : flt) : bool := SFltb (SFabs (SFsub f64_prec f64_emax a b)) (f64_lit 1 10000).

Definition JsonEquals (actual expected : json) : bool :=
  match actual, expected with
  | JNumber a, JNumber e => close a e
  | JBool a, JBool e => Bool.eqb a e
  | JString a, JString e => a =b e
  | JNull, JNull => true
  | _, _ => false
  end.

Definition contains {V} (key : bytes) (members : list (bytes * V)) : bool :=
  match map_find key members with Some _ => true | None => false end.

(** The outcome of a rewrite: the node, whether it changed, the descriptions. *)
Record Rewrite (A : Type) := { rw_node : A; rw_changed : bool; rw_changes : list bytes }.
Arguments rw_node {A}. Arguments rw_changed {A}. Arguments rw_changes {A}.
Definition unchanged {A} (node : A) : Rewrite A := {| rw_node := node; rw_changed := false; rw_changes := [] |}.
Definition changed {A} (node : A) (description : bytes) : Rewrite A :=
  {| rw_node := node; rw_changed := true; rw_changes := [description] |}.

Definition path_desc (desc key : bytes) : bytes := if is_empty desc then key else desc ++ "." ++ key.

Section json_rules.
Context `{Glaze}.

Definition FormatJson (value : json) : bytes := default [] (write_tree value).

(** The members of an object node. *)
Definition ApplyActionToTarget (rule : MigrationRule) (desc key : bytes) (object : list (bytes * json))
  : Rewrite (list (bytes * json)) :=
  let desc_prefix := path_desc desc key in
  let owner := if is_empty desc then key else desc in
  match mr_action rule with
  | Rename =>
      match map_find key object with
      | Some value =>
          if negb (contains (new_key rule) object)
          then changed (map_erase key (map_emplace (new_key rule) value object))
                 (desc_prefix ++ ": renamed '" ++ key ++ "' to '" ++ new_key rule ++ "'")
          else changed (map_erase key object)
                 (desc_prefix ++ ": removed obsolete duplicate key '" ++ key ++ "'")
      | None => unchanged object
      end
  | Remove =>
      if contains key object
      then changed (map_erase key object) (owner ++ ": removed obsolete field '" ++ key ++ "'")
      else unchanged object
  | Ensure =>
      if negb (contains key object)
      then changed (map_set key (default_value rule) object) (owner ++ ": added '" ++ key ++ "'")
      else unchanged object
  | ReplaceIfDefault =>
      match map_find key object with
      | Some val =>
          if JsonEquals val (expected_value rule)
          then changed (map_set key (to_value rule) object)
                 (desc_prefix ++ ": upgraded legacy default " ++ FormatJson (expected_value rule) ++
                  " to " ++ FormatJson (to_value rule))
          else unchanged object
      | None => unchanged object
      end
  | IniReplaceKey | IniRemoveKey => unchanged object
  end.

(** Collecting the children of a wildcard, in order. *)
Definition collect {A B} (f : A -> Rewrite B) (l : list A) : Rewrite (list B) :=
  {| rw_node := (fun x => rw_node (f x)) <$> l;
     rw_changed := existsb (fun x => rw_changed (f x)) l;
     rw_changes := l ≫= (fun x => rw_changes (f x)) |}.
Definition rewrap {A B} (g : A -> B) (r : Rewrite A) : Rewrite B :=
  {| rw_node := g (rw_node r); rw_changed := rw_changed r; rw_changes := rw_changes r |}.

Definition child_id (idx : nat) (child : json) : bytes :=
  match Find child "id" with Some (JString id) => id | _ => to_string (Z.of_nat idx) end.
Definition item_desc (desc : bytes) (idx : nat) (child : json) : bytes :=
  (if is_empty desc then "[" else desc ++ "[") ++ child_id idx child ++ "]".

Fixpoint WalkAndApply (segments : list bytes) (node : json) (desc : bytes) (rule : MigrationRule) : Rewrite json :=
  match segments with
  | [] => unchanged node
  | seg :: sub_segments =>
      match sub_segments with
      | [] =>
          match node with
          | JObject object => rewrap JObject (ApplyActionToTarget rule desc seg object)
          | _ => unchanged node
          end
      | _ :: _ =>
          if seg =b "*" then
            match node with
            | JObject object =>
                rewrap JObject (collect (fun '(child_key, child_value) =>
                  rewrap (pair child_key)
                    (WalkAndApply sub_segments child_value (path_desc desc child_key) rule)) object)
            | JArray array =>
                rewrap JArray (collect (fun '(idx, child) =>
                  WalkAndApply sub_segments child (item_desc desc idx child) rule) (imap pair array))
            | _ => unchanged node
            end
          else
            match node with
            | JObject object =>
                match map_find seg object with
                | Some child =>
                    rewrap (fun child => JObject (map_set seg child object))
                      (WalkAndApply sub_segments child (path_desc desc seg) rule)
                | None => unchanged node
                end
            | _ => unchanged node
            end
      end
  end.

Definition rule_applies (config_ver : option SemanticVersion) (file : bytes) (rule : MigrationRule) : bool :=
  (target_file rule =b file) &&
  match Parse (mr_version rule) with
  | None => false
  | Some rule_ver => match config_ver with None => true | Some v => version_ltb v rule_ver end
  end.

Definition apply_json_rule (r : Rewrite json) (rule : MigrationRule) : Rewrite json :=
  let w := WalkAndApply (Split (mr_path rule) "."%char) (rw_node r) [] rule in
  {| rw_node := rw_node w; rw_changed := rw_changed r || rw_changed w;
     rw_changes := rw_changes r ++ rw_changes w |}.

(** [config_data["version"]] as a string *)
Definition version_string (config_data : json) : option bytes :=
  match Find config_data "version" with Some (JString s) => Some s | _ => None end.

Definition config_version (config_data : json) : option SemanticVersion :=
  s ← version_string config_data; ParseConfigLowerBoundVersion s.

Definition drop_legacy_version (r : Rewrite json) : Rewrite json :=
  match rw_node r with
  | JObject object =>
      if contains "vinput_version" object
      then {| rw_node := JObject (map_erase "vinput_version" object); rw_changed := true;
              rw_changes := rw_changes r ++ ["removed legacy 'vinput_version' field"] |}
      else r
  | _ => r
  end.

Definition standardize_version (r : Rewrite json) : Rewrite json :=
  match rw_node r with
  | JObject object =>
      if version_string (rw_node r) =b Some GetTargetVersionConstraint then r
      else {| rw_node := JObject (map_set "version" (JString GetTargetVersionConstraint) object);
              rw_changed := true;
              rw_changes := rw_changes r ++ ["version: standardized constraint to '" ++
                                             GetTargetVersionConstraint ++ "'"] |}
  | _ => r
  end.

(** The slow path on config.json: the rules newer than the file, in order. *)
Definition MigrateJson (config_data : json) : Rewrite json :=
  if is_object config_data then
    let ver := config_version config_data in
    standardize_version (drop_legacy_version
      (foldl apply_json_rule (unchanged config_data)
         (filter (fun rule => rule_applies ver "config.json" rule = true) GetRules)))
  else unchanged config_data.

(** The fast path: the file's constraint admits the host and reaches the last rule. *)
Definition config_satisfies (host : bytes) (config_data : json) : bool :=
  match version_string config_data, Find config_data "vinput_version" with
  | Some ver_str, None =>
      match ParseConfigLowerBoundVersion ver_str with
      | Some lower_bound => negb (version_ltb lower_bound GetMaxRuleVersion) && Satisfies host ver_str
      | None => false
      end
  | _, _ => false
  end.
End json_rules.

(** ** What a rule achieves

    [at_path P prefix node]: every object the prefix leads to (wildcards included)
    satisfies [P]. *)
Fixpoint at_path (P : list (bytes * json) -> Prop) (prefix : list bytes) (node : json) : Prop :=
  match prefix with
  | [] => match node with JObject object => P object | _ => True end
  | seg :: prefix =>
      if seg =b "*" then
        match node with
        | JObject object => Forall (fun kv => at_path P prefix kv.2) object
        | JArray array => Forall (at_path P prefix) array
        | _ => True
        end
      else
        match node with
        | JObject object => match map_find seg object with Some child => at_path P prefix child | None => True end
        | _ => True
        end
  end.

(** The state of the target member after the rule's action. *)
Definition rule_post (rule : MigrationRule) (key : bytes) (object : list (bytes * json)) : Prop :=
  match mr_action rule with
  | Rename | Remove => map_find key object = None
  | Ensure => map_find key object <> None
  | ReplaceIfDefault =>
      match map_find key object with Some v => JsonEquals v (expected_value rule) = false | None => True end
  | IniReplaceKey | IniRemoveKey => True
  end.

Definition rule_prefix (rule : MigrationRule) : list bytes := removelast (Split (mr_path rule) "."%char).
Definition rule_key (rule : MigrationRule) : bytes := List.last (Split (mr_path rule) "."%char) [].
Definition rule_holds (rule : MigrationRule) (node : json) : Prop :=
  at_path (rule_post rule (rule_key rule)) (rule_prefix rule) node.

(** The members an action writes. *)
Definition touched (rule : MigrationRule) : list bytes :=
  match mr_action rule with Rename => [rule_key rule; new_key rule] | _ => [rule_key rule] end.

(** Sufficient conditions, decided on the table: a rule's action establishes its own
    postcondition, and no rule of the table destroys another's. *)
Definition self_ok (rule : MigrationRule) : bool :=
  match mr_action rule with
  | Rename => negb (new_key rule =b rule_key rule)
  | ReplaceIfDefault => negb (JsonEquals (to_value rule) (expected_value rule))
  | _ => true
  end.
Definition leaf_compat (r1 r2 : MigrationRule) : bool :=
  negb (bool_decide (rule_key r1 ∈ touched r2))
  || ((rule_key r1 =b rule_key r2) && (mr_action r1 =b mr_action r2) && self_ok r2
      && match mr_action r1 with
         | ReplaceIfDefault => negb (JsonEquals (to_value r2) (expected_value r1))
         | _ => true
         end).
Definition literal_head (prefix : list bytes) : option bytes :=
  match prefix with s :: _ => if s =b "*" then None else Some s | [] => None end.
Definition compatible (r1 r2 : MigrationRule) : bool :=
  if rule_prefix r1 =b rule_prefix r2 then leaf_compat r1 r2
  else match literal_head (rule_prefix r1), literal_head (rule_prefix r2) with
       | Some s1, Some s2 => negb (s1 =b s2)
       | _, _ => false
       end.

Definition json_rules : list MigrationRule := filter (fun r => target_file r = "config.json") GetRules.

Lemma table_ok :
  forallb (fun r1 => self_ok r1 && forallb (compatible r1) json_rules
    && match literal_head (rule_prefix r1) with
       | Some s => negb (s =b "version") && negb (s =b "vinput_version") | None => false end
    && (Split (mr_path r1) "."%char =b rule_prefix r1 ++ [rule_key r1])) json_rules = true.
Proof. vm_compute. reflexivity. Qed.

Section walk_facts.
Context `{Glaze}.

(** Looking up a member that the action does not touch. *)
Lemma ApplyAction_other rule desc object k :
  k ∉ touched rule ->
  map_find k (rw_node (ApplyActionToTarget rule desc (rule_key rule) object)) = map_find k object.
Proof.
  unfold touched, ApplyActionToTarget. intros Hk.
  destruct (mr_action rule); [|apply not_elem_of_cons in Hk as [Hk _]..]; try done.
  - apply not_elem_of_cons in Hk as [H1 [H2 _]%not_elem_of_cons].
    destruct (map_find (rule_key rule) object) eqn:E; [|done].
    destruct (negb _); cbn [rw_node changed]; rewrite map_find_erase_ne by done; [|done].
    unfold map_emplace. destruct (map_find (new_key rule) object); [done|]. by apply map_find_set_ne.
  - destruct (contains _ _); [|done]. by apply map_find_erase_ne.
  - destruct (negb _); [|done]. by apply map_find_set_ne.
  - destruct (map_find (rule_key rule) object); [|done]. destruct (JsonEquals _ _); [|done]. by apply map_find_set_ne.
Qed.

Lemma contains_false {V} k (m : list (bytes * V)) : contains k m = false <-> map_find k m = None.
Proof. unfold contains. by destruct (map_find k m). Qed.

Lemma ApplyAction_post rule desc object :
  self_ok rule = true -> rule_post rule (rule_key rule) (rw_node (ApplyActionToTarget rule desc (rule_key rule) object)).
Proof.
  unfold self_ok, rule_post, ApplyActionToTarget. destruct (mr_action rule); intros Hs; try done.
  - destruct (map_find (rule_key rule) object) eqn:E; [|done].
    destruct (negb (contains _ _)); apply map_find_erase_eq.
  - destruct (contains (rule_key rule) object) eqn:E; [apply map_find_erase_eq|by apply contains_false in E].
  - destruct (contains (rule_key rule) object) eqn:E; simpl; [|by rewrite map_find_set_eq].
    intros Hn. apply contains_false in Hn. congruence.
  - destruct (map_find (rule_key rule) object) eqn:E; simpl; [|by rewrite E].
    destruct (JsonEquals j (expected_value rule)) eqn:Ej; simpl; [|by rewrite E].
    rewrite map_find_set_eq. by apply negb_true_iff.
Qed.

Lemma rule_post_ext r k m m' : map_find k m = map_find k m' -> rule_post r k m -> rule_post r k m'.
Proof. intros E. unfold rule_post. by rewrite E. Qed.

Lemma ApplyAction_keeps r1 r2 desc object :
  leaf_compat r1 r2 = true -> rule_post r1 (rule_key r1) object ->
  rule_post r1 (rule_key r1) (rw_node (ApplyActionToTarget r2 desc (rule_key r2) object)).
Proof.
  unfold leaf_compat. intros [Ht|Hsame]%orb_true_iff Hp.
  - apply negb_true_iff, bool_decide_eq_false in Ht.
    eapply rule_post_ext; [symmetry; by apply ApplyAction_other|done].
  - apply andb_true_iff in Hsame as [[[Hk Ha]%andb_true_iff Hself]%andb_true_iff Hm].
    apply bool_decide_eq_true in Hk, Ha. rewrite Hk in *.
    pose proof (ApplyAction_post r2 desc object Hself) as Hpost. revert Hpost Hp Hm. unfold rule_post.
    rewrite Ha. destruct (mr_action r2) eqn:Ea; try done. unfold ApplyActionToTarget. rewrite Ea.
    destruct (map_find (rule_key r2) object) eqn:E; simpl; [|by rewrite E].
    destruct (JsonEquals j (expected_value r2)); simpl; [|by rewrite E].
    rewrite map_find_set_eq. intros _ _. apply negb_true_iff.
Qed.

Lemma Walk_cons seg sub node desc rule :
  sub <> [] ->
  WalkAndApply (seg :: sub) node desc rule =
  if seg =b "*" then
    match node with
    | JObject object =>
        rewrap JObject (collect (fun '(child_key, child_value) =>
          rewrap (pair child_key) (WalkAndApply sub child_value (path_desc desc child_key) rule)) object)
    | JArray array =>
        rewrap JArray (collect (fun '(idx, child) =>
          WalkAndApply sub child (item_desc desc idx child) rule) (imap pair array))
    | _ => unchanged node
    end
  else
    match node with
    | JObject object =>
        match map_find seg object with
        | Some child => rewrap (fun child => JObject (map_set seg child object))
                          (WalkAndApply sub child (path_desc desc seg) rule)
        | None => unchanged node
        end
    | _ => unchanged node
    end.
Proof. by destruct sub. Qed.

(** If the leaf action takes [Q] to [P], a walk takes [Q] at the prefix to [P] there. *)
Lemma Walk_leaf (P Q : list (bytes * json) -> Prop) rule prefix key node desc :
  (forall d object, Q object -> P (rw_node (ApplyActionToTarget rule d key object))) ->
  at_path Q prefix node -> at_path P prefix (rw_node (WalkAndApply (prefix ++ [key]) node desc rule)).
Proof.
  intros HQ. revert node desc. induction prefix as [|seg prefix IH]; intros node desc.
  { simpl. destruct node; try done. apply HQ. }
  cbn [app]. rewrite Walk_cons by (by destruct prefix). cbn [at_path].
  destruct (seg =b "*") eqn:Hseg.
  - destruct node as [| | | |items|members]; try done.
    + cbn. intros Hall. rewrite Forall_forall in Hall. apply Forall_fmap, Forall_forall. intros [idx child] Hin. simpl.
      apply IH, Hall. apply elem_of_lookup_imap in Hin as (i & y & [= -> ->] & Hi).
      eauto using list_elem_of_lookup_2.
    + cbn. intros Hall. apply Forall_fmap. eapply Forall_impl; [exact Hall|].
      intros [k v] Hv. simpl. by apply IH.
  - destruct node as [| | | | |members]; try done.
    destruct (map_find seg members) as [child|] eqn:E; cbn; rewrite ?E; [|done].
    intros Hc. rewrite map_find_set_eq. by apply IH.
Qed.

Lemma at_path_True prefix node : at_path (fun _ => True) prefix node.
Proof.
  revert node. induction prefix as [|seg prefix IH]; intros node; cbn [at_path]; [by destruct node|].
  destruct (seg =b "*"), node; try done; try (apply Forall_forall; naive_solver).
  by destruct (map_find seg members).
Qed.

(** Only the child under the first literal segment changes. *)
Lemma Walk_other P seg prefix seg' sub node desc rule :
  seg <> "*" -> seg' <> "*" -> seg <> seg' -> sub <> [] ->
  at_path P (seg :: prefix) node -> at_path P (seg :: prefix) (rw_node (WalkAndApply (seg' :: sub) node desc rule)).
Proof.
  intros H1 H2 Hne Hsub. rewrite Walk_cons by done. cbn [at_path].
  rewrite !bool_decide_eq_false_2 by done. destruct node as [| | | | |members]; try done.
  destruct (map_find seg' members) eqn:E; [|done]. cbn. by rewrite map_find_set_ne.
Qed.

Lemma literal_head_Some prefix s :
  literal_head prefix = Some s -> s <> "*" /\ exists rest, prefix = s :: rest.
Proof. destruct prefix as [|x rest]; [done|]. simpl. case_bool_decide; [done|]. intros [= <-]. eauto. Qed.

Lemma table_rule r :
  r ∈ json_rules ->
  self_ok r = true /\ (forall r2, r2 ∈ json_rules -> compatible r r2 = true) /\
  (exists s, literal_head (rule_prefix r) = Some s /\ s <> "version" /\ s <> "vinput_version") /\
  Split (mr_path r) "."%char = rule_prefix r ++ [rule_key r].
Proof.
  intros Hr. pose proof table_ok as Ht. rewrite forallb_forall in Ht.
  specialize (Ht r (proj1 (list_elem_of_In _ _) Hr)).
  apply andb_true_iff in Ht as [[[Hs Hc]%andb_true_iff Hl]%andb_true_iff Hsp]. apply bool_decide_eq_true in Hsp.
  split_and!; [done| | |done].
  - intros r2 Hr2. rewrite forallb_forall in Hc. by apply Hc, list_elem_of_In.
  - destruct (literal_head _) as [s|]; [|done]. apply andb_true_iff in Hl as [Hv Hvv].
    apply negb_true_iff, bool_decide_eq_false in Hv, Hvv. eauto.
Qed.

Lemma apply_rule_establishes r x :
  r ∈ json_rules -> rule_holds r (rw_node (apply_json_rule x r)).
Proof.
  intros Hr. destruct (table_rule r Hr) as (Hs & _ & _ & Hsplit). unfold apply_json_rule, rule_holds; cbn [rw_node].
  rewrite Hsplit. apply Walk_leaf with (Q := fun _ => True); [|apply at_path_True].
  intros d object _. by apply ApplyAction_post.
Qed.

Lemma apply_rule_keeps r r2 x :
  r ∈ json_rules -> r2 ∈ json_rules -> rule_holds r (rw_node x) -> rule_holds r (rw_node (apply_json_rule x r2)).
Proof.
  intros Hr Hr2. destruct (table_rule r Hr) as (_ & Hc & _ & _), (table_rule r2 Hr2) as (_ & _ & _ & Hsplit).
  specialize (Hc r2 Hr2). unfold apply_json_rule, rule_holds; cbn [rw_node]. rewrite Hsplit.
  unfold compatible in Hc. case_bool_decide as Hp.
  - rewrite Hp. apply Walk_leaf. intros d object. by apply ApplyAction_keeps.
  - destruct (literal_head (rule_prefix r)) as [s|] eqn:E1; [|done].
    destruct (literal_head (rule_prefix r2)) as [s2|] eqn:E2; [|done].
    apply literal_head_Some in E1 as (H1 & rest1 & ->), E2 as (H2 & rest2 & ->).
    apply negb_true_iff, bool_decide_eq_false in Hc. apply Walk_other; try done. by destruct rest2.
Qed.
End walk_facts.

Section migrate_facts.
Context `{Glaze}.

Lemma fold_keeps r rules x :
  r ∈ json_rules -> Forall (.∈ json_rules) rules -> rule_holds r (rw_node x) ->
  rule_holds r (rw_node (foldl apply_json_rule x rules)).
Proof.
  intros Hr Hall. revert x. induction Hall as [|r2 rules Hr2 _ IH]; intros x Hx; [done|].
  simpl. by apply IH, apply_rule_keeps.
Qed.

Lemma fold_establishes r rules x :
  Forall (.∈ json_rules) rules -> r ∈ rules -> rule_holds r (rw_node (foldl apply_json_rule x rules)).
Proof.
  intros Hall. revert x. induction Hall as [|r2 rules Hr2 Hall IH]; intros x; [by intros ?%elem_of_nil|].
  intros [->|Hin]%elem_of_cons; simpl; [|by apply IH]. by apply fold_keeps, apply_rule_establishes.
Qed.

Lemma Walk_object segments node desc rule :
  is_object node = true -> is_object (rw_node (WalkAndApply segments node desc rule)) = true.
Proof.
  destruct segments as [|seg [|seg2 sub]]; [done| |]; destruct node; try done. intros _.
  rewrite Walk_cons by done. destruct (seg =b "*"); [done|]. by destruct (map_find seg members).
Qed.

Lemma fold_object rules x :
  is_object (rw_node x) = true -> is_object (rw_node (foldl apply_json_rule x rules)) = true.
Proof. revert x. induction rules as [|r rules IH]; intros x Hx; [done|]. by apply IH, Walk_object. Qed.

(** The two last steps write members no rule's path goes through. *)
Lemma drop_legacy_find r k : k <> "vinput_version" -> Find (rw_node (drop_legacy_version r)) k = Find (rw_node r) k.
Proof.
  intros Hk. unfold drop_legacy_version. destruct (rw_node r) eqn:E; rewrite ?E; try done.
  destruct (contains _ _); simpl; [by apply map_find_erase_ne|by rewrite E].
Qed.

Lemma standardize_find r k : k <> "version" -> Find (rw_node (standardize_version r)) k = Find (rw_node r) k.
Proof.
  intros Hk. unfold standardize_version. destruct (rw_node r) eqn:E; rewrite ?E; try done.
  case_bool_decide; simpl; [by rewrite E|by apply map_find_set_ne].
Qed.

Lemma at_path_find P s rest node node' :
  s <> "*" -> Find node' s = Find node s -> at_path P (s :: rest) node -> at_path P (s :: rest) node'.
Proof.
  intros Hs. cbn [at_path]. rewrite bool_decide_eq_false_2 by done. intros Hf.
  destruct node' as [| | | | |ms']; try done. simpl in Hf. rewrite Hf. destruct node; done.
Qed.

Lemma applicable_rules ver :
  Forall (.∈ json_rules) (filter (fun rule => rule_applies ver "config.json" rule = true) GetRules).
Proof.
  apply Forall_forall. intros r [Ha Hin]%list_elem_of_filter. apply list_elem_of_filter. split; [|done].
  by apply andb_true_iff in Ha as [Ht%bool_decide_eq_true _].
Qed.

Lemma MigrateJson_object data : is_object (rw_node (MigrateJson data)) = is_object data.
Proof.
  unfold MigrateJson. destruct (is_object data) eqn:Ho; [|done].
  set (x := foldl _ _ _). assert (is_object (rw_node x) = true) as Hx by (by apply fold_object).
  unfold standardize_version, drop_legacy_version. destruct (rw_node x) eqn:E; try done.
  destruct (contains _ _); cbn [rw_node]; [case_bool_decide; done|].
  rewrite E. case_bool_decide; [by rewrite E|done].
Qed.

Lemma MigrateJson_version data :
  is_object data = true ->
  Find (rw_node (MigrateJson data)) "version" = Some (JString GetTargetVersionConstraint) /\
  Find (rw_node (MigrateJson data)) "vinput_version" = None.
Proof.
  intros Ho. unfold MigrateJson. rewrite Ho. set (x := foldl _ _ _).
  assert (is_object (rw_node x) = true) as Hx by (by apply fold_object).
  assert (is_object (rw_node (drop_legacy_version x)) = true /\
          Find (rw_node (drop_legacy_version x)) "vinput_version" = None) as [Hd Hn].
  { unfold drop_legacy_version. destruct (rw_node x) eqn:E; try done.
    destruct (contains _ _) eqn:Ec; simpl; [split; [done|apply map_find_erase_eq]|].
    rewrite E. split; [done|]. by apply contains_false. }
  split; [|by rewrite standardize_find].
  unfold standardize_version. destruct (rw_node (drop_legacy_version x)) eqn:E; try done.
  case_bool_decide as Hv; [|apply map_find_set_eq]. rewrite E. revert Hv. unfold version_string.
  destruct (Find (JObject members) "version") as [[]|]; try done. by intros [= ->].
Qed.

(** The table's last version, and what the migrated file's version parses to. *)
Lemma target_version :
  GetTargetVersionConstraint = ">=2.4.0" /\
  ParseConfigLowerBoundVersion GetTargetVersionConstraint = Some GetMaxRuleVersion /\
  filter (fun rule => rule_applies (Some GetMaxRuleVersion) "config.json" rule = true) GetRules = [].
Proof. vm_compute. done. Qed.

Lemma MigrateJson_settled data :
  is_object data = true -> Find data "version" = Some (JString GetTargetVersionConstraint) ->
  Find data "vinput_version" = None -> MigrateJson data = unchanged data.
Proof.
  intros Ho Hv Hn. unfold MigrateJson. rewrite Ho. destruct target_version as (_ & Hp & Hf).
  assert (version_string data = Some GetTargetVersionConstraint) as Hs by (unfold version_string; by rewrite Hv).
  unfold config_version. rewrite Hs. cbn [mbind option_bind]. rewrite Hp, Hf. cbn [foldl].
  destruct data as [| | | | |ms]; [discriminate Ho..|]. unfold drop_legacy_version. cbn [rw_node unchanged].
  apply contains_false in Hn. rewrite Hn. unfold standardize_version. cbn [rw_node unchanged].
  rewrite Hs, (bool_decide_eq_true_2 _ eq_refl). reflexivity.
Qed.
End migrate_facts.


(** Migration runs once: a migrated configuration is not changed by a second run,
    whatever the version of the program that runs it, and nothing is reported. *)
Theorem MigrateJson_idemp `{Glaze} data :
  MigrateJson (rw_node (MigrateJson data)) = unchanged (rw_node (MigrateJson data)).
Proof.
  destruct (is_object data) eqn:Ho.
  - destruct (MigrateJson_version data Ho) as [Hv Hn]. apply MigrateJson_settled; [|done..].
    by rewrite MigrateJson_object.
  - unfold MigrateJson at 2 3. rewrite Ho. cbn [rw_node unchanged]. unfold MigrateJson. by rewrite Ho.
Qed.

(** Every rule newer than the file takes effect, and no later rule undoes it: in the
    migrated tree, wherever the rule's path leads, the renamed or removed member is gone,
    the ensured member is there, and the replaced default no longer has its old value. *)
Theorem migration_rules_hold `{Glaze} data rule :
  is_object data = true -> rule ∈ GetRules ->
  rule_applies (config_version data) "config.json" rule = true ->
  rule_holds rule (rw_node (MigrateJson data)).
Proof.
  intros Ho Hin Ha. unfold MigrateJson. rewrite Ho.
  set (rules := filter _ _). assert (rule ∈ rules) as Hr by (apply list_elem_of_filter; done).
  pose proof (applicable_rules (config_version data)) as Hall. fold rules in Hall.
  pose proof (fold_establishes rule rules (unchanged data) Hall Hr) as Hh.
  rewrite Forall_forall in Hall. destruct (table_rule rule (Hall rule Hr)) as (_ & _ & (s & Hs & Hv & Hvv) & _).
  revert Hh. unfold rule_holds. apply literal_head_Some in Hs as (Hstar & rest & ->).
  apply at_path_find; [done|]. by rewrite standardize_find, drop_legacy_find.
Qed.

Lemma migration_rules_hold_witness :
  let data := JObject [("scenes", JObject [("definitions",
    JArray [JObject [("id", JString "a"); ("show_raw", JBool false)]])])] in
  let rule := plain_rule "2.3.25" "config.json" Rename "scenes.*.*.show_raw" "raw_cand" in
  rule_holds rule (rw_node (@MigrateJson (demo_glaze (ToWire CoreConfig.default_core_config)) data)).
Proof.
  intros data rule. apply (@migration_rules_hold (demo_glaze (ToWire CoreConfig.default_core_config)) data rule);
    [reflexivity| |vm_compute; reflexivity].
  unfold GetRules. do 4 right. by left.
Defined.

(** ** vinput.conf

    What the code uses of [fcitx::RawConfig]: all items below the root with their
    paths and names, whether a node exists, whether it has a child, copying a child to
    a new name, and removing a child. The root has the empty path. *)
Class RawConfig (T : Type) := {
  visitSubItems : T -> list (bytes * bytes);
  has_node : T -> bytes -> bool;
  has_child : T -> bytes -> bytes -> bool;
  copy_child : T -> bytes -> bytes -> bytes -> T;
  remove_child : T -> bytes -> bytes -> T * bool;
}.

Definition kOutdatedKeys : list bytes := ["SceneMenuKey"; "AsrMenuKey"; "HoldActivationDelay"].

Section ini.
Context {T : Type} `{RawConfig T}.

Definition HasOutdatedIniKeys (conf : T) : bool :=
  existsb (fun item => bool_decide (item.2 ∈ kOutdatedKeys)) (visitSubItems conf).

Definition matches_rule (rule : MigrationRule) (item : bytes * bytes) : bool :=
  match find_char (mr_path rule) "/"%char with
  | Some _ => item.1 =b mr_path rule
  | None => item.2 =b mr_path rule
  end.

(** The parent's path and the key; [None] when the parent is gone. *)
Definition locate (root : T) (path : bytes) : option (bytes * bytes) :=
  match rfind_char path "/"%char with
  | Some slash => if has_node root (take slash path) then Some (take slash path, drop (S slash) path) else None
  | None => Some ([], path)
  end.

(** One matching path: the tree, whether it changed, the description. *)
Definition apply_at (rule : MigrationRule) (r : Rewrite T) (path : bytes) : Rewrite T :=
  let root := rw_node r in
  match locate root path with
  | None => r
  | Some (parent, key) =>
      let step node description :=
        {| rw_node := node; rw_changed := true; rw_changes := rw_changes r ++ [description] |} in
      match mr_action rule with
      | IniReplaceKey =>
          if has_child root parent key then
            if negb (has_child root parent (new_key rule))
            then step (remove_child (copy_child root parent key (new_key rule)) parent key).1
                   ("replaced key '" ++ mr_path rule ++ "' with '" ++ new_key rule ++ "'")
            else step (remove_child root parent key).1
                   ("removed obsolete duplicate key '" ++ mr_path rule ++ "'")
          else r
      | IniRemoveKey =>
          let '(root', removed) := remove_child root parent key in
          if (removed : bool) then step root' ("removed obsolete key '" ++ mr_path rule ++ "'")
          else {| rw_node := root'; rw_changed := rw_changed r; rw_changes := rw_changes r |}
      | _ => r
      end
  end.

Definition ApplyIniRule (r : Rewrite T) (rule : MigrationRule) : Rewrite T :=
  foldl (apply_at rule) r (fst <$> filter (fun item => matches_rule rule item = true) (visitSubItems (rw_node r))).

Definition MigrateIni (conf : T) : Rewrite T :=
  foldl ApplyIniRule (unchanged conf) (filter (fun rule => target_file rule = "vinput.conf") GetRules).

Lemma ini_rules_outdated :
  Forall (fun rule => mr_path rule ∈ kOutdatedKeys /\ find_char (mr_path rule) "/"%char = None)
    (filter (fun rule => target_file rule = "vinput.conf") GetRules).
Proof. repeat constructor; simpl; try (vm_compute; reflexivity); set_solver. Qed.

(** The fast path's test is complete: without an outdated key no rule does anything. *)
Lemma MigrateIni_current conf : HasOutdatedIniKeys conf = false -> MigrateIni conf = unchanged conf.
Proof.
  intros Hno. unfold MigrateIni. pose proof ini_rules_outdated as Hall.
  induction Hall as [|rule rules [Hk Hs] _ IH]; [done|]. cbn [foldl].
  assert (ApplyIniRule (unchanged conf) rule = unchanged conf) as ->; [|done].
  unfold ApplyIniRule. cbn [rw_node unchanged].
  assert (filter (fun item => matches_rule rule item = true) (visitSubItems conf) = []) as ->; [|done].
  unfold HasOutdatedIniKeys in Hno. induction (visitSubItems conf) as [|item l IHl]; [done|].
  simpl in Hno. apply orb_false_iff in Hno as [Hi Hl]. rewrite filter_cons_False; [by apply IHl|].
  unfold matches_rule. rewrite Hs. intros He%bool_decide_eq_true. apply bool_decide_eq_false in Hi. congruence.
Qed.
End ini.

(** ** The run *)

Record MigrationReport := {
  needed : bool; applied : bool; mchanges : list (bytes * bytes); merror : bytes;
}.
Definition report_of (needed applied : bool) (changes : list (bytes * bytes)) (error : bytes) : MigrationReport :=
  {| needed := needed; applied := applied; mchanges := changes; merror := error |}.

Section run.
Context `{Glaze} {T : Type} `{RawConfig T} (write_pretty : json -> option bytes).

Definition FormatPrettyJson (value : json) : bytes := default [] (write_pretty value).

(** The writes of a run, in order. *)
Inductive Write :=
  | BackupConfig (text : bytes) | WriteConfig (text : bytes)
  | BackupConf (text : bytes) | WriteConf (conf : T).

(** The file system: resolving the two names, the two files (absent, unreadable, or their
    text and, for vinput.conf, the tree Fcitx reads), and the answer to each write. *)
Record MigrationEnv := {
  config_name : bytes; conf_name : bytes; resolve : result unit;
  config_file : option (result bytes); conf_file : option (result (bytes * T));
  write_answer : Write -> result unit;
}.

Definition read_config (env : MigrationEnv) : result (option (bytes * json)) :=
  match config_file env with
  | None => Ok None
  | Some (Err e) => Err e
  | Some (Ok raw) =>
      match read_tree raw with
      | Ok data => Ok (Some (raw, data))
      | Err _ => Err ("Failed to parse " ++ config_name env ++ ": invalid JSON")
      end
  end.
Definition read_conf (env : MigrationEnv) : result (option (bytes * T)) :=
  match conf_file env with None => Ok None | Some (Err e) => Err e | Some (Ok c) => Ok (Some c) end.

(** A backup and the new file; [Err] stops the run. *)
Definition replace_file (env : MigrationEnv) (name : bytes) (backup new : Write) (failed : bytes -> bytes)
  : result unit * list Write :=
  match write_answer env backup with
  | Err e => (Err ("Failed to create backup for " ++ name ++ ": " ++ e), [backup])
  | Ok _ =>
      match write_answer env new with
      | Err e => (Err (failed e), [backup; new])
      | Ok _ => (Ok tt, [backup; new])
      end
  end.

Definition changes_of (file : bytes) (l : list bytes) : list (bytes * bytes) := pair file <$> l.

Definition write_back (env : MigrationEnv) (changes : list (bytes * bytes))
    (config : option (bytes * Rewrite json)) (conf : option (bytes * Rewrite T))
  : MigrationReport * list Write :=
  let '(r1, w1) :=
    match config with
    | Some (raw, m) =>
        if rw_changed m
        then replace_file env (config_name env) (BackupConfig raw)
               (WriteConfig (FormatPrettyJson (rw_node m) ++ [ch_nl]))
               (fun e => "Failed to write migrated " ++ config_name env ++ ": " ++ e)
        else (Ok tt, [])
    | None => (Ok tt, [])
    end in
  match r1 with
  | Err e => (report_of true false changes e, w1)
  | Ok _ =>
      let '(r2, w2) :=
        match conf with
        | Some (raw, m) =>
            if rw_changed m
            then replace_file env (conf_name env) (BackupConf raw) (WriteConf (rw_node m))
                   (fun _ => "Failed to write migrated " ++ conf_name env)
            else (Ok tt, [])
        | None => (Ok tt, [])
        end in
      match r2 with
      | Err e => (report_of true false changes e, w1 ++ w2)
      | Ok _ => (report_of true true changes [], w1 ++ w2)
      end
  end.

Definition slow_path (dry_run : bool) (env : MigrationEnv) (config : option (bytes * json))
    (conf : option (bytes * T)) : MigrationReport * list Write :=
  let mconfig := (fun '(raw, data) => (raw, MigrateJson data)) <$> config in
  let mconf := (fun '(raw, c) => (raw, MigrateIni c)) <$> conf in
  let changes :=
    changes_of "config.json" (match mconfig with Some (_, m) => rw_changes m | None => [] end) ++
    changes_of "vinput.conf" (match mconf with Some (_, m) => rw_changes m | None => [] end) in
  let any_changed :=
    match mconfig with Some (_, m) => rw_changed m | None => false end
    || match mconf with Some (_, m) => rw_changed m | None => false end in
  let needed := negb (is_empty changes) || any_changed in
  if negb needed || dry_run then (report_of needed false changes [], [])
  else write_back env changes mconfig mconf.

Definition RunConfigMigration (dry_run : bool) (host : bytes) (env : MigrationEnv)
  : MigrationReport * list Write :=
  match resolve env with
  | Err e => (report_of false false [] e, [])
  | Ok _ =>
      match read_config env, read_conf env with
      | Err e, _ | Ok _, Err e => (report_of false false [] e, [])
      | Ok config, Ok conf =>
          let satisfied := match config with Some (_, data) => config_satisfies host data | None => true end in
          let outdated := match conf with Some (_, c) => HasOutdatedIniKeys c | None => false end in
          if satisfied && negb outdated then (report_of false false [] [], [])
          else slow_path dry_run env config conf
      end
  end.

Definition HasPendingMigrations (host : bytes) (env : MigrationEnv) : bool :=
  needed (RunConfigMigration true host env).1.
End run.

Section run_facts.
Context `{Glaze} {T : Type} `{RawConfig T} (write_pretty : json -> option bytes).
Implicit Types env : MigrationEnv (T := T).

(** A write list in which each new file directly follows the successful backup of the
    text that was read. *)
Definition backed_up env (ws : list (Write (T := T))) : Prop :=
  forall pre w post, ws = pre ++ w :: post ->
  match w with
  | WriteConfig _ => exists pre' raw, pre = pre' ++ [BackupConfig raw] /\
      config_file env = Some (Ok raw) /\ write_answer env (BackupConfig raw) = Ok tt
  | WriteConf _ => exists pre' raw tree, pre = pre' ++ [BackupConf raw] /\
      conf_file env = Some (Ok (raw, tree)) /\ write_answer env (BackupConf raw) = Ok tt
  | _ => True
  end.

Lemma backed_up_nil env : backed_up env [].
Proof. intros pre ? post Heq. by destruct pre as [|? ?]. Qed.

(** A backup with its new file, and the two files of a run. *)
Lemma backed_up_app env ws1 ws2 :
  (forall w, head ws2 = Some w -> match w with WriteConfig _ | WriteConf _ => False | _ => True end) ->
  backed_up env ws1 -> backed_up env ws2 -> backed_up env (ws1 ++ ws2).
Proof.
  intros Hhead H1 H2 pre w post Heq.
  apply app_eq_inv in Heq as [(k & -> & Hk)|(k & -> & Hk)].
  - destruct k as [|x k]; simpl in Hk.
    + specialize (Hhead w). rewrite <-Hk in Hhead. specialize (Hhead eq_refl). by destruct w.
    + injection Hk as <- _. by apply (H1 pre w k).
  - specialize (H2 k w post Hk). destruct w; try done.
    + destruct H2 as (pre' & raw & -> & ?). exists (ws1 ++ pre'), raw. by rewrite <-app_assoc.
    + destruct H2 as (pre' & raw & tree & -> & ?). exists (ws1 ++ pre'), raw, tree. by rewrite <-app_assoc.
Qed.

Lemma replace_file_spec env name backup new failed r ws :
  replace_file env name backup new failed = (r, ws) ->
  ws = [backup] \/ ws = [backup; new] /\ write_answer env backup = Ok tt.
Proof.
  unfold replace_file. destruct (write_answer env backup) as [[]|]; [|intros [= <- <-]; by left].
  destruct (write_answer env new); intros [= <- <-]; by right.
Qed.

Lemma replace_config_backed env name raw text failed r ws :
  config_file env = Some (Ok raw) ->
  replace_file env name (BackupConfig raw) (WriteConfig text) failed = (r, ws) -> backed_up env ws.
Proof.
  intros Hf [->|[-> Hok]]%replace_file_spec [|a [|b pre]] w post Heq; simplify_eq/=; try done.
  all: first [by exists [], raw | by destruct pre].
Qed.

Lemma replace_conf_backed env name raw tree new failed r ws :
  conf_file env = Some (Ok (raw, tree)) ->
  replace_file env name (BackupConf raw) (WriteConf new) failed = (r, ws) -> backed_up env ws.
Proof.
  intros Hf [->|[-> Hok]]%replace_file_spec [|a [|b pre]] w post Heq; simplify_eq/=; try done.
  all: first [by exists [], raw, tree | by destruct pre].
Qed.
End run_facts.

Lemma write_back_backed `{Glaze} {T} `{RawConfig T} wp (env : MigrationEnv (T := T)) changes config conf :
  match config with Some (raw, _) => config_file env = Some (Ok raw) | None => True end ->
  match conf with Some (raw, _) => exists tree, conf_file env = Some (Ok (raw, tree)) | None => True end ->
  backed_up env (write_back wp env changes config conf).2.
Proof.
  intros Hconfig Hconf. unfold write_back.
  assert (forall r ws, match config with
    | Some (raw, m) => if rw_changed m then replace_file env (config_name env) (BackupConfig raw)
          (WriteConfig (FormatPrettyJson wp (rw_node m) ++ [ch_nl]))
          (fun e => "Failed to write migrated " ++ config_name env ++ ": " ++ e) else (Ok tt, [])
    | None => (Ok tt, []) end = (r, ws) -> backed_up env ws) as H1.
  { intros r ws. destruct config as [[raw m]|]; [|intros [= _ <-]; apply backed_up_nil].
    destruct (rw_changed m); [by apply replace_config_backed|intros [= _ <-]; apply backed_up_nil]. }
  destruct (match config with Some _ => _ | None => _ end) as [r1 w1] eqn:E1. specialize (H1 _ _ eq_refl).
  destruct r1; [|done]. destruct conf as [[raw m]|]; simpl; [|by rewrite app_nil_r].
  destruct (rw_changed m); [|simpl; by rewrite app_nil_r]. destruct Hconf as [tree Hconf].
  destruct (replace_file env (conf_name env) _ _ _) as [r2 w2] eqn:E2.
  assert (backed_up env (w1 ++ w2)) as Hall; [|by destruct r2].
  apply backed_up_app; [|done|by eapply replace_conf_backed].
  intros w. apply replace_file_spec in E2 as [->|[-> _]]; simpl; by intros [= <-].
Qed.

Lemma write_back_needed `{Glaze} {T} `{RawConfig T} wp (env : MigrationEnv (T := T)) changes config conf :
  needed (write_back wp env changes config conf).1 = true.
Proof. unfold write_back. by repeat case_match. Qed.

(** A migration never loses a file: a dry run and a run that finds nothing to do write
    nothing, a real run overwrites config.json or vinput.conf only directly after it has
    successfully written a backup that holds the text it read, and HasPendingMigrations
    announces exactly the real runs that have something to do. *)
Theorem migration_backs_up `{Glaze} {T} `{RawConfig T} wp dry_run host (env : MigrationEnv (T := T)) :
  let run := RunConfigMigration wp dry_run host env in
  backed_up env run.2 /\ (dry_run = true \/ needed run.1 = false -> run.2 = []) /\
  HasPendingMigrations wp host env = needed (RunConfigMigration wp false host env).1.
Proof.
  split_and!; unfold HasPendingMigrations, RunConfigMigration.
  - destruct (resolve env); [|apply backed_up_nil]. unfold read_config, read_conf, slow_path.
    destruct (config_file env) as [[raw|]|] eqn:Ec; [destruct (read_tree raw) as [data|]|..]; try apply backed_up_nil;
    destruct (conf_file env) as [[[craw tree]|]|] eqn:Ef; try apply backed_up_nil;
    (destruct (_ && negb _); [apply backed_up_nil|]); (destruct (negb _ || dry_run); [apply backed_up_nil|]);
    apply write_back_backed; simpl; eauto.
  - destruct (resolve env); [|done]. unfold slow_path.
    destruct (read_config env) as [config|], (read_conf env) as [conf|]; try done.
    destruct (_ && negb _); [done|]. destruct (negb _ || dry_run) eqn:E; [done|].
    apply orb_false_iff in E as [_ ->]. intros [|Hd]; [done|]. by rewrite write_back_needed in Hd.
  - destruct (resolve env); [|done]. destruct (read_config env), (read_conf env); try done.
    destruct (_ && negb _); [done|]. unfold slow_path. rewrite orb_true_r, orb_false_r.
    destruct (negb (negb _ || _)) eqn:E; [done|]. rewrite write_back_needed. by apply negb_false_iff in E.
Qed.

(** A migration is run once: when a run has written the migrated config.json, and the
    file reads back as the tree that was written and vinput.conf has no outdated key left,
    the next run, by any version of the program, has nothing to do. *)
Theorem migration_rerun `{Glaze} {T} `{RawConfig T} wp host (env env' : MigrationEnv (T := T)) raw data text :
  config_file env = Some (Ok raw) -> read_tree raw = Ok data -> is_object data = true ->
  config_file env' = Some (Ok text) -> read_tree text = Ok (rw_node (MigrateJson data)) ->
  resolve env' = Ok tt ->
  match conf_file env' with
  | None => True
  | Some (Err _) => False
  | Some (Ok (_, conf)) => HasOutdatedIniKeys conf = false
  end ->
  needed (RunConfigMigration wp false host env').1 = false /\ (RunConfigMigration wp false host env').2 = [] /\
  merror (RunConfigMigration wp false host env').1 = [].
Proof.
  intros _ _ Ho Hf Hr Hres Hconf. unfold RunConfigMigration, read_config, read_conf. rewrite Hres, Hf, Hr.
  destruct (MigrateJson_version data Ho) as [Hv Hn].
  pose proof (MigrateJson_settled (rw_node (MigrateJson data)) (eq_trans (MigrateJson_object data) Ho) Hv Hn) as Hset.
  destruct (conf_file env') as [[[craw conf]|]|]; [|done|].
  - rewrite Hconf. destruct (config_satisfies _ _ && _); [done|].
    unfold slow_path. cbn [fmap option_fmap option_map]. by rewrite Hset, (MigrateIni_current conf Hconf).
  - destruct (config_satisfies _ _ && _); [done|]. unfold slow_path. cbn [fmap option_fmap option_map].
    by rewrite Hset.
Qed.

(** A configuration tree without items: enough to run a migration of config.json. *)
Definition empty_raw_config : RawConfig unit :=
  {| visitSubItems := fun _ => []; has_node := fun _ _ => false; has_child := fun _ _ _ => false;
     copy_child := fun t _ _ _ => t; remove_child := fun t _ _ => (t, false) |}.

Definition old_data : json := JObject [("global", JObject [("default_language", JString "en")])].
Definition migration_glaze (old new : json) : Glaze :=
  {| write_config := fun _ => None; read_tree := fun text => Ok (if text =b "old" then old else new);
     write_tree := fun _ => Some "x"; read_registry := fun _ => None; read_global := fun _ => None;
     read_llm := fun _ => None; read_scenes := fun _ => None; read_asr := fun _ => None;
     read_clients := fun _ => None |}.
Definition demo_migration_env (text : bytes) : MigrationEnv (T := unit) :=
  {| config_name := "config.json"; conf_name := "vinput.conf"; resolve := Ok tt;
     config_file := Some (Ok text); conf_file := None; write_answer := fun _ => Ok tt |}.

Definition new_data : json := Eval vm_compute in rw_node (@MigrateJson (migration_glaze JNull JNull) old_data).

Lemma migration_rerun_witness :
  let G := migration_glaze old_data new_data in
  needed (@RunConfigMigration G unit empty_raw_config (fun _ => Some "new") false "1.0.0" (demo_migration_env "old")).1 = true /\
  needed (@RunConfigMigration G unit empty_raw_config (fun _ => Some "new") false "1.0.0" (demo_migration_env "new")).1 = false.
Proof.
  intros G. split; [vm_compute; reflexivity|].
  refine (proj1 (@migration_rerun G unit empty_raw_config (fun _ => Some "new") "1.0.0"
    (demo_migration_env "old") (demo_migration_env "new") "old" old_data "new" eq_refl _ eq_refl eq_refl _ eq_refl I));
    vm_compute; reflexivity.
Defined.
