(* ===== verification/Dbus.v ===== *)
(** * The D-Bus vocabulary (src/src/common/dbus)

    The daemon phase [Status] with its wire names, and the classification of a
    requested ASR backend against the daemon's reported backend state. *)

From S2P Require Import Prelude.

(** ** dbus_interface.h *)

Definition kStatusIdle : bytes := "idle".
Definition kStatusRecording : bytes := "recording".
Definition kStatusInferring : bytes := "inferring".
Definition kStatusPostprocessing : bytes := "postprocessing".
Definition kStatusError : bytes := "error".

Inductive Status := Idle | Recording | Inferring | Postprocessing | Error.

#[export] Instance Status_eq_dec : EqDecision Status.
Proof. solve_decision. Defined.

Definition StatusToString (s : Status) : bytes :=
  match s with
  | Idle => kStatusIdle
  | Recording => kStatusRecording
  | Inferring => kStatusInferring
  | Postprocessing => kStatusPostprocessing
  | Error => kStatusError
  end.

Definition StringToStatus (s : bytes) : Status :=
  if s =b kStatusIdle then Idle
  else if s =b kStatusRecording then Recording
  else if s =b kStatusInferring then Inferring
  else if s =b kStatusPostprocessing then Postprocessing
  else if s =b kStatusError then Error
  else Idle.

Lemma StringToStatus_StatusToString s : StringToStatus (StatusToString s) = s.
Proof. by destruct s. Qed.

(** ** asr_backend_state_utils.h *)

Record AsrBackendState := {
  target_provider_id : bytes;
  target_model_id : bytes;
  effective_provider_id : bytes;
  effective_model_id : bytes;
  last_error : bytes;
  reload_in_progress : bool;
  has_effective_backend : bool;
  remote_endpoints : list bytes;
}.

Inductive RequestedAsrBackendStatus :=
  | kUnknown
  | kConfigSaved
  | kReloadInProgress
  | kApplied
  | kFailedStillUsingPrevious
  | kFailedNoUsableBackend.

Definition MatchesRequestedAsrBackend (state : AsrBackendState)
    (provider_id model_id : bytes) (effective : bool) : bool :=
  let state_provider :=
    if effective then effective_provider_id state else target_provider_id state in
  let state_model :=
    if effective then effective_model_id state else target_model_id state in
  (state_provider =b provider_id) && (state_model =b model_id).

Definition ClassifyRequestedAsrBackend (state : AsrBackendState)
    (provider_id model_id : bytes) : RequestedAsrBackendStatus :=
  let target_matches := MatchesRequestedAsrBackend state provider_id model_id false in
  let effective_matches := MatchesRequestedAsrBackend state provider_id model_id true in
  if reload_in_progress state && target_matches then kReloadInProgress
  else if negb (is_empty (last_error state)) && target_matches && negb effective_matches then
    if has_effective_backend state then kFailedStillUsingPrevious else kFailedNoUsableBackend
  else if effective_matches then kApplied
  else if target_matches then kConfigSaved
  else kUnknown.
