(* ===== verification/StateMachine.v ===== *)
(** * The runtime state machine (src/src/daemon/runtime/runtime_state_machine.cpp)

    The pure core of the daemon: the phase, the pending post-processing action
    and the mode of the current utterance, with one operation per event. *)

From S2P Require Import Prelude Dbus.

Inductive PostprocessingState := Inactive | Dictation | Command | Discard | CommitRaw.

#[export] Instance PostprocessingState_eq_dec : EqDecision PostprocessingState.
Proof. solve_decision. Defined.

Record StateTransitionResult := {
  accepted : bool;
  previous_phase : Status;
  new_phase : Status;
  rejection_reason : bytes;
  should_start_capture : bool;
  should_stop_capture : bool;
  should_submit_inference : bool;
  should_cancel_session : bool;
  should_enter_postprocessing : bool;
  should_commit_result : bool;
  should_commit_raw_text : bool;
  should_discard_text : bool;
  is_too_short : bool;
}.

Record RuntimeStateMachine := {
  phase_ : Status;
  postprocessing_state_ : PostprocessingState;
  is_command_ : bool;
  selected_text_ : bytes;
}.

Definition initial : RuntimeStateMachine :=
  {| phase_ := Idle; postprocessing_state_ := Inactive; is_command_ := false; selected_text_ := [] |}.

(** [StateTransitionResult res; res.accepted = true; ...]: every flag false. *)
Definition accept (prev next : Status) : StateTransitionResult :=
  {| accepted := true; previous_phase := prev; new_phase := next; rejection_reason := [];
     should_start_capture := false; should_stop_capture := false;
     should_submit_inference := false; should_cancel_session := false;
     should_enter_postprocessing := false; should_commit_result := false;
     should_commit_raw_text := false; should_discard_text := false; is_too_short := false |}.

Definition Reject (phase : Status) (reason : bytes) : StateTransitionResult :=
  {| accepted := false; previous_phase := phase; new_phase := phase; rejection_reason := reason;
     should_start_capture := false; should_stop_capture := false;
     should_submit_inference := false; should_cancel_session := false;
     should_enter_postprocessing := false; should_commit_result := false;
     should_commit_raw_text := false; should_discard_text := false; is_too_short := false |}.

Definition msg_busy : bytes :=
  "Voice input daemon is busy. Please wait for the current request to finish.".
Definition msg_not_recording : bytes := "Recording is not active.".
Definition msg_no_action : bytes := "Requested post-processing action is not available.".
Definition msg_no_cancel : bytes := "No cancellable operation in current phase.".

Definition AbortRecordingToIdle (m : RuntimeStateMachine) (prev : Status) (too_short : bool)
  : StateTransitionResult * RuntimeStateMachine :=
  ({| accepted := true; previous_phase := prev; new_phase := Idle; rejection_reason := [];
      should_start_capture := false; should_stop_capture := true;
      should_submit_inference := false; should_cancel_session := true;
      should_enter_postprocessing := false; should_commit_result := false;
      should_commit_raw_text := false; should_discard_text := false;
      is_too_short := too_short |},
   {| phase_ := Idle; postprocessing_state_ := postprocessing_state_ m;
      is_command_ := false; selected_text_ := [] |}).

Definition CompleteToIdle (m : RuntimeStateMachine) (prev : Status)
  : StateTransitionResult * RuntimeStateMachine :=
  ({| accepted := true; previous_phase := prev; new_phase := Idle; rejection_reason := [];
      should_start_capture := false; should_stop_capture := false;
      should_submit_inference := false; should_cancel_session := false;
      should_enter_postprocessing := false; should_commit_result := true;
      should_commit_raw_text := false; should_discard_text := false;
      is_too_short := false |},
   {| phase_ := Idle; postprocessing_state_ := Inactive; is_command_ := false;
      selected_text_ := [] |}).

Definition Clear (m : RuntimeStateMachine) : RuntimeStateMachine :=
  {| phase_ := Idle; postprocessing_state_ := Inactive; is_command_ := false;
     selected_text_ := [] |}.

Definition OnStartRecording (m : RuntimeStateMachine) (is_command : bool) (selected_text : bytes)
  : StateTransitionResult * RuntimeStateMachine :=
  if negb (phase_ m =b Idle) then (Reject (phase_ m) msg_busy, m)
  else
    ({| accepted := true; previous_phase := phase_ m; new_phase := Recording;
        rejection_reason := []; should_start_capture := true; should_stop_capture := false;
        should_submit_inference := false; should_cancel_session := false;
        should_enter_postprocessing := false; should_commit_result := false;
        should_commit_raw_text := false; should_discard_text := false; is_too_short := false |},
     {| phase_ := Recording; postprocessing_state_ := Inactive; is_command_ := is_command;
        selected_text_ := selected_text |}).

Definition OnStopRecording (m : RuntimeStateMachine) (sample_count min_samples : N)
  : StateTransitionResult * RuntimeStateMachine :=
  if negb (phase_ m =b Recording) then (Reject (phase_ m) msg_not_recording, m)
  else if (sample_count <? min_samples)%N then AbortRecordingToIdle m (phase_ m) true
  else
    ({| accepted := true; previous_phase := phase_ m; new_phase := Inferring;
        rejection_reason := []; should_start_capture := false; should_stop_capture := true;
        should_submit_inference := true; should_cancel_session := false;
        should_enter_postprocessing := false; should_commit_result := false;
        should_commit_raw_text := false; should_discard_text := false; is_too_short := false |},
     {| phase_ := Inferring; postprocessing_state_ := postprocessing_state_ m;
        is_command_ := is_command_ m; selected_text_ := selected_text_ m |}).

Definition OnCancel (m : RuntimeStateMachine) (commit_raw_text : bool)
  : StateTransitionResult * RuntimeStateMachine :=
  let prev := phase_ m in
  match phase_ m with
  | Idle => (accept prev prev, m)
  | Recording => AbortRecordingToIdle m prev false
  | Postprocessing =>
      let ok := (postprocessing_state_ m =b Dictation)
                || (negb commit_raw_text && (postprocessing_state_ m =b Command)) in
      if negb ok then (Reject prev msg_no_action, m)
      else
        ({| accepted := true; previous_phase := prev; new_phase := prev; rejection_reason := [];
            should_start_capture := false; should_stop_capture := false;
            should_submit_inference := false; should_cancel_session := false;
            should_enter_postprocessing := false; should_commit_result := false;
            should_commit_raw_text := commit_raw_text;
            should_discard_text := negb commit_raw_text; is_too_short := false |},
         {| phase_ := phase_ m;
            postprocessing_state_ := if commit_raw_text then CommitRaw else Discard;
            is_command_ := is_command_ m; selected_text_ := selected_text_ m |})
  | Inferring | Error => (Reject prev msg_no_cancel, m)
  end.

Definition OnAudioError (m : RuntimeStateMachine) : StateTransitionResult * RuntimeStateMachine :=
  if negb (phase_ m =b Recording) then (Reject (phase_ m) [], m)
  else
    ({| accepted := true; previous_phase := phase_ m; new_phase := Error;
        rejection_reason := []; should_start_capture := false; should_stop_capture := true;
        should_submit_inference := false; should_cancel_session := true;
        should_enter_postprocessing := false; should_commit_result := false;
        should_commit_raw_text := false; should_discard_text := false; is_too_short := false |},
     {| phase_ := Error; postprocessing_state_ := postprocessing_state_ m;
        is_command_ := is_command_ m; selected_text_ := selected_text_ m |}).

Definition OnInferenceComplete (m : RuntimeStateMachine) (has_scene_to_postprocess : bool)
  : StateTransitionResult * RuntimeStateMachine :=
  if negb (phase_ m =b Inferring) then (Reject (phase_ m) [], m)
  else if has_scene_to_postprocess then
    ({| accepted := true; previous_phase := phase_ m; new_phase := Postprocessing;
        rejection_reason := []; should_start_capture := false; should_stop_capture := false;
        should_submit_inference := false; should_cancel_session := false;
        should_enter_postprocessing := true; should_commit_result := false;
        should_commit_raw_text := false; should_discard_text := false; is_too_short := false |},
     {| phase_ := Postprocessing;
        postprocessing_state_ := if is_command_ m then Command else Dictation;
        is_command_ := is_command_ m; selected_text_ := selected_text_ m |})
  else CompleteToIdle m (phase_ m).

Definition OnInferenceError (m : RuntimeStateMachine)
  : StateTransitionResult * RuntimeStateMachine :=
  if negb (phase_ m =b Inferring) then (Reject (phase_ m) [], m)
  else (accept (phase_ m) Error,
        {| phase_ := Error; postprocessing_state_ := postprocessing_state_ m;
           is_command_ := is_command_ m; selected_text_ := selected_text_ m |}).

Definition OnPostprocessingComplete (m : RuntimeStateMachine)
  : StateTransitionResult * RuntimeStateMachine :=
  if negb (phase_ m =b Postprocessing) then (Reject (phase_ m) [], m)
  else CompleteToIdle m (phase_ m).

Definition OnResetToIdle (m : RuntimeStateMachine)
  : StateTransitionResult * RuntimeStateMachine :=
  (accept (phase_ m) Idle, Clear m).

Definition TakePostprocessingState (m : RuntimeStateMachine)
  : PostprocessingState * RuntimeStateMachine :=
  (postprocessing_state_ m,
   {| phase_ := phase_ m; postprocessing_state_ := Inactive;
      is_command_ := is_command_ m; selected_text_ := selected_text_ m |}).

(** ** Events, runs and reachable states *)

Inductive event :=
  | EvStartRecording (is_command : bool) (selected_text : bytes)
  | EvStopRecording (sample_count min_samples : N)
  | EvCancel (commit_raw_text : bool)
  | EvAudioError
  | EvInferenceComplete (has_scene : bool)
  | EvInferenceError
  | EvPostprocessingComplete
  | EvResetToIdle
  | EvTakePostprocessingState
  | EvClear.

(** The transition result of an event, and the machine after it. The two
    operations without a [StateTransitionResult] report [None]. *)
Definition fire (m : RuntimeStateMachine) (e : event)
  : option StateTransitionResult * RuntimeStateMachine :=
  let some '(r, m') := (Some r, m') in
  match e with
  | EvStartRecording c t => some (OnStartRecording m c t)
  | EvStopRecording n k => some (OnStopRecording m n k)
  | EvCancel raw => some (OnCancel m raw)
  | EvAudioError => some (OnAudioError m)
  | EvInferenceComplete b => some (OnInferenceComplete m b)
  | EvInferenceError => some (OnInferenceError m)
  | EvPostprocessingComplete => some (OnPostprocessingComplete m)
  | EvResetToIdle => some (OnResetToIdle m)
  | EvTakePostprocessingState => (None, (TakePostprocessingState m).2)
  | EvClear => (None, Clear m)
  end.

Fixpoint run (m : RuntimeStateMachine) (es : list event)
  : list (option StateTransitionResult) * RuntimeStateMachine :=
  match es with
  | [] => ([], m)
  | e :: es => let '(r, m1) := fire m e in let '(rs, m2) := run m1 es in (r :: rs, m2)
  end.

Inductive reachable : RuntimeStateMachine -> Prop :=
  | reachable_initial : reachable initial
  | reachable_fire m e : reachable m -> reachable (fire m e).2.

(** Case analysis of one event on a machine whose finite components are known. *)
Ltac fire_cases m e :=
  destruct m as [[] [] [] ?],
    e as [[] ?|?sample_count ?min_samples|[]| |[]| | | | |];
  lazy -[N.ltb];
  try match goal with
  | |- context [(?a <? ?b)%N] => destruct (a <? b)%N; lazy
  end.

(** ** The machine's invariant *)

Record machine_inv (m : RuntimeStateMachine) : Prop := {
  inv_idle_clean : phase_ m = Idle ->
    postprocessing_state_ m = Inactive /\ is_command_ m = false /\ selected_text_ m = [];
  inv_action_phase : postprocessing_state_ m <> Inactive -> phase_ m = Postprocessing;
  inv_dictation : postprocessing_state_ m = Dictation -> is_command_ m = false;
  inv_command : postprocessing_state_ m = Command -> is_command_ m = true;
  inv_commit_raw : postprocessing_state_ m = CommitRaw -> is_command_ m = false;
}.

(** The same, as a table over the finite components. *)
Definition machine_invb (m : RuntimeStateMachine) : bool :=
  match phase_ m, postprocessing_state_ m, is_command_ m with
  | Idle, Inactive, false => is_empty (selected_text_ m)
  | Idle, _, _ => false
  | Postprocessing, (Dictation | CommitRaw), c => negb c
  | Postprocessing, Command, c => c
  | Postprocessing, _, _ => true
  | _, Inactive, _ => true
  | _, _, _ => false
  end.

Lemma machine_invb_spec m : machine_invb m = true <-> machine_inv m.
Proof.
  split.
  - destruct m as [[] [] [] [|??]]; cbn; intros H; first [done | constructor; done].
  - intros [H1 H2 H3 H4 H5]; destruct m as [[] [] [] [|??]]; cbn in *; try done; exfalso;
      first [ by destruct (H1 eq_refl) as (?&?&?) | by discriminate H2
            | by discriminate H3 | by discriminate H4 | by discriminate H5 ].
Qed.

Lemma machine_inv_initial : machine_inv initial.
Proof. by apply machine_invb_spec. Qed.

Lemma machine_inv_fire m e : machine_inv m -> machine_inv (fire m e).2.
Proof. rewrite <-!machine_invb_spec. fire_cases m e; done. Qed.
#[export] Hint Resolve machine_inv_initial machine_inv_fire : vinput.

(** Every reachable machine is well formed: an idle machine carries no
    command mode, no selected text and no pending post-processing action; a
    pending action exists only in the post-processing phase; a pending
    dictation or commit-raw action never belongs to a command utterance. *)
Theorem reachable_machine_inv m : reachable m -> machine_inv m.
Proof. induction 1; eauto with vinput. Qed.

Lemma reachable_machine_inv_witness :
  machine_inv (fire (fire (fire (fire initial (EvStartRecording true "sel")).2
    (EvStopRecording 9000 8000)).2 (EvInferenceComplete true)).2 (EvCancel false)).2.
Proof. apply reachable_machine_inv. repeat constructor. Defined.

(** ** Abstract specification: the lifecycle of an utterance

    What a transition result asks its caller to do, read off its flags. *)

Inductive action :=
  | ActNone
  | ActStartCapture
  | ActSubmit
  | ActAbort (too_short : bool)
  | ActEnterPostprocessing
  | ActCommit
  | ActCommitRaw
  | ActDiscard.

#[export] Instance action_eq_dec : EqDecision action.
Proof. solve_decision. Defined.

Definition action_of (r : StateTransitionResult) : option action :=
  match should_start_capture r, should_stop_capture r, should_submit_inference r,
        should_cancel_session r, should_enter_postprocessing r, should_commit_result r,
        should_commit_raw_text r, should_discard_text r with
  | false, false, false, false, false, false, false, false => Some ActNone
  | true, false, false, false, false, false, false, false => Some ActStartCapture
  | false, true, true, false, false, false, false, false => Some ActSubmit
  | false, true, false, true, false, false, false, false => Some (ActAbort (is_too_short r))
  | false, false, false, false, true, false, false, false => Some ActEnterPostprocessing
  | false, false, false, false, false, true, false, false => Some ActCommit
  | false, false, false, false, false, false, true, false => Some ActCommitRaw
  | false, false, false, false, false, false, false, true => Some ActDiscard
  | _, _, _, _, _, _, _, _ => None
  end.

(** The phase graph with the action of each edge. *)
Inductive lifecycle : Status -> action -> Status -> Prop :=
  | life_start : lifecycle Idle ActStartCapture Recording
  | life_abort short : lifecycle Recording (ActAbort short) Idle
  | life_audio_error : lifecycle Recording (ActAbort false) Error
  | life_submit : lifecycle Recording ActSubmit Inferring
  | life_enter : lifecycle Inferring ActEnterPostprocessing Postprocessing
  | life_infer_error : lifecycle Inferring ActNone Error
  | life_commit_raw_text : lifecycle Inferring ActCommit Idle
  | life_commit : lifecycle Postprocessing ActCommit Idle
  | life_choose_raw : lifecycle Postprocessing ActCommitRaw Postprocessing
  | life_choose_discard : lifecycle Postprocessing ActDiscard Postprocessing
  | life_reset p : lifecycle p ActNone Idle.
#[export] Hint Constructors lifecycle : vinput.

(** C14. Every transition follows the utterance lifecycle: the reported phases
    are the phases before and after, a rejected event leaves the machine
    unchanged and asks for no action, and an accepted one follows an edge of
    the phase graph whose action is exactly what the flags ask for. *)
Theorem fire_refines_lifecycle m e r :
  (fire m e).1 = Some r ->
  previous_phase r = phase_ m /\ new_phase r = phase_ (fire m e).2 /\
  if accepted r
  then exists a, action_of r = Some a /\ lifecycle (phase_ m) a (phase_ (fire m e).2)
  else (fire m e).2 = m /\ action_of r = Some ActNone.
Proof.
  fire_cases m e; intros [= <-]; cbn; split_and!; try done;
    eexists; split; try done; auto with vinput.
Qed.

Lemma fire_refines_lifecycle_witness :
  exists r, (fire initial (EvStartRecording false [])).1 = Some r /\
    previous_phase r = Idle /\ accepted r = true.
Proof.
  eexists. split; [reflexivity|].
  pose proof (fire_refines_lifecycle initial (EvStartRecording false []) _ eq_refl) as (H & _ & _).
  split; [exact H | reflexivity].
Defined.

(** ** Trace properties *)

Definition count_action (a : action) (rs : list (option StateTransitionResult)) : nat :=
  length (filter (fun r => r ≫= action_of = Some a) rs).

Definition count_abort (rs : list (option StateTransitionResult)) : nat :=
  count_action (ActAbort true) rs + count_action (ActAbort false) rs.

Definition in_phase (p : Status) (m : RuntimeStateMachine) : nat :=
  if phase_ m =b p then 1 else 0.

(** The two operations that drop an utterance without reporting it. *)
Definition is_forced (e : event) : bool :=
  match e with EvResetToIdle | EvClear => true | _ => false end.

Lemma run_app m es es' :
  run m (es ++ es') =
  (let '(rs, m1) := run m es in let '(rs', m2) := run m1 es' in (rs ++ rs', m2)).
Proof.
  revert m. induction es as [|e es IH]; intros m; simpl.
  - by destruct (run m es').
  - destruct (fire m e) as [r m1]. rewrite IH.
    destruct (run m1 es) as [rs m2]. by destruct (run m2 es').
Qed.

Lemma count_action_cons a r rs :
  count_action a (r :: rs) = count_action a [r] + count_action a rs.
Proof. unfold count_action. rewrite (filter_app _ [r] rs), length_app. done. Qed.

(** One event accounts for every start, stop, submission and commit. *)
Lemma fire_accounting m e :
  is_forced e = false ->
  let r := [(fire m e).1] in
  let m' := (fire m e).2 in
  count_action ActStartCapture r + in_phase Recording m
    = count_action ActSubmit r + count_abort r + in_phase Recording m' /\
  count_action ActSubmit r + in_phase Inferring m + in_phase Postprocessing m
    >= count_action ActCommit r + in_phase Inferring m' + in_phase Postprocessing m'.
Proof. fire_cases m e; intros; first [done | split; lia]. Qed.

(** Along any run without a forced reset, every started capture is
    accounted for: the number of captures started equals the number submitted
    for inference plus the number aborted plus the one still recording; and no
    more results are committed than utterances were submitted. *)
Theorem run_accounting m es :
  forallb (fun e => negb (is_forced e)) es = true ->
  let '(rs, m') := run m es in
  count_action ActStartCapture rs + in_phase Recording m
    = count_action ActSubmit rs + count_abort rs + in_phase Recording m' /\
  count_action ActCommit rs + in_phase Inferring m' + in_phase Postprocessing m'
    <= count_action ActSubmit rs + in_phase Inferring m + in_phase Postprocessing m.
Proof.
  revert m. induction es as [|e es IH]; intros m H; simpl in *; [unfold count_abort, count_action; simpl; lia|].
  apply andb_prop in H as [He H]. apply negb_true_iff in He.
  pose proof (fire_accounting m e He) as Hf.
  destruct (fire m e) as [r m1]; simpl in Hf.
  specialize (IH m1 H). destruct (run m1 es) as [rs m2].
  unfold count_abort in *. rewrite !(count_action_cons _ r rs). lia.
Qed.

Definition two_utterances : list event :=
  [EvStartRecording false []; EvStopRecording 9000 8000; EvInferenceComplete false;
   EvStartRecording true []].

Lemma run_accounting_witness :
  count_action ActStartCapture (run initial two_utterances).1 = 2 /\
  let '(rs, m') := run initial two_utterances in
  count_action ActStartCapture rs + in_phase Recording initial
    = count_action ActSubmit rs + count_abort rs + in_phase Recording m' /\
  count_action ActCommit rs + in_phase Inferring m' + in_phase Postprocessing m'
    <= count_action ActSubmit rs + in_phase Inferring initial + in_phase Postprocessing initial.
Proof. split; [reflexivity|]. apply (run_accounting initial two_utterances). reflexivity. Defined.
