(* ===== verification/AudioUtils.v ===== *)
(** * Sample arithmetic (src/src/daemon/audio/audio_utils.cpp)

    Input gain and peak normalisation. A PCM sample is an [int16_t], a [Z] in
    [-32768, 32767]; float samples are binary32 values. [None] marks the
    undefined conversions of the C++ code. *)

From S2P Require Import Prelude Floats.
From Stdlib Require Import SpecFloat.

Definition f32_one : flt := f32_of_Z 1.

(** [static_cast<int16_t>(std::clamp(static_cast<float>(s) * gain, ...))] *)
Definition scale_i16 (gain : flt) (s : Z) : option Z :=
  clamp_to_i16 (f32_mul (f32_of_Z s) gain).

Definition ApplyGainI16 (samples : list Z) (gain : flt) : option (list Z) :=
  if is_empty samples || SFeqb gain f32_one then Some samples
  else mapM (scale_i16 gain) samples.

Definition PrepareGainAdjustedInput (pcm : list Z) (gain : flt) : option (list Z) :=
  if SFeqb gain f32_one || is_empty pcm then Some pcm
  else ApplyGainI16 pcm gain.

Definition ApplyGain (samples : list flt) (gain : flt) : list flt :=
  if is_empty samples || SFeqb gain f32_one then samples
  else (fun s => fclamp (f32_mul s gain) (f32_of_Z (-1)) f32_one) <$> samples.

(** [std::max(a, b)] on floats: (a < b) ? b : a. *)
Definition fmax (a b : flt) : flt := if SFltb a b then b else a.

Definition PeakNormalize (samples : list flt) (target_peak low_threshold : flt) : list flt :=
  if is_empty samples then samples
  else
    let peak := foldl (fun p s => fmax p (SFabs s)) (S754_zero false) samples in
    if SFltb peak (f32_lit 1 100000000) || SFleb low_threshold peak then samples
    else
      let scale := SFdiv f32_prec f32_emax target_peak peak in
      (fun s => f32_mul s scale) <$> samples.

(** ** The gain stage stays within 16 bits *)

Definition is_i16 (z : Z) : Prop := (-32768 <= z <= 32767)%Z.

(** Exhaustive check of a predicate on [n] consecutive integers. *)
Definition check_range (P : Z -> bool) (start : Z) (n : N) : Z * bool :=
  N.iter n (fun '(z, ok) => (z + 1, ok && P z)%Z) (start, true).

Lemma check_range_sound P start n :
  (check_range P start n).2 = true ->
  (check_range P start n).1 = (start + Z.of_N n)%Z /\
  forall z, (start <= z < start + Z.of_N n)%Z -> P z = true.
Proof.
  unfold check_range. induction n as [|n IH] using N.peano_ind; simpl; [intros _; split; lia|].
  rewrite N.iter_succ. destruct (N.iter n _ _) as [z ok]; simpl in *.
  intros [Hok HP]%andb_prop. destruct (IH Hok) as [-> IH']. split; [lia|].
  intros z Hz. destruct (decide (z = start + Z.of_N n)%Z) as [->|]; [done|]. apply IH'. lia.
Qed.

Lemma f32_of_i16_finite z : is_i16 z -> is_finite (f32_of_Z z) = true.
Proof.
  intros Hz. unfold is_i16 in Hz.
  apply (check_range_sound (fun z => is_finite (f32_of_Z z)) (-32768) 65536); [|lia].
  vm_compute. reflexivity.
Qed.

(** The per-sample effect of a gain, as a total function. *)
Definition gained (gain : flt) (s : Z) : Z :=
  if SFeqb gain f32_one then s else default 0%Z (scale_i16 gain s).

Lemma scale_i16_defined gain s :
  is_finite gain = true -> is_i16 s ->
  exists z, scale_i16 gain s = Some z /\ is_i16 z.
Proof.
  intros Hg Hs. unfold scale_i16.
  destruct (SFmul_fits f32_prec f32_emax (f32_of_Z s) gain) as [Hf Hn];
    [done|by apply f32_of_i16_finite|done|].
  by apply clamp_to_i16_defined.
Qed.

Lemma gained_i16 gain s : is_finite gain = true -> is_i16 s -> is_i16 (gained gain s).
Proof.
  intros Hg Hs. unfold gained. case_match; [done|].
  by destruct (scale_i16_defined gain s Hg Hs) as (z & -> & Hz).
Qed.
#[export] Hint Resolve gained_i16 : vinput.

Lemma ApplyGainI16_gained gain l :
  is_finite gain = true -> Forall is_i16 l -> ApplyGainI16 l gain = Some (gained gain <$> l).
Proof.
  intros Hg Hl. unfold ApplyGainI16, gained.
  destruct (SFeqb gain f32_one) eqn:E; [rewrite orb_true_r; by rewrite list_fmap_id|].
  rewrite orb_false_r. destruct l as [|x l]; [done|]. simpl is_empty. cbv iota.
  apply (mapM_Forall _ _ is_i16); [|done].
  intros s Hs. by destruct (scale_i16_defined gain s Hg Hs) as (z & -> & _).
Qed.

Lemma PrepareGainAdjustedInput_gained gain l :
  is_finite gain = true -> Forall is_i16 l ->
  PrepareGainAdjustedInput l gain = Some (gained gain <$> l).
Proof.
  intros Hg Hl. rewrite <-(ApplyGainI16_gained gain l Hg Hl).
  unfold PrepareGainAdjustedInput. destruct (_ || _) eqn:E; [|done].
  unfold ApplyGainI16. by rewrite orb_comm, E.
Qed.

(** The gain stage is total and saturating: for every finite gain and every
    16-bit input the conversion back to [int16_t] is defined (no wrap-around, no
    undefined behaviour), keeps the number of samples and yields 16-bit samples. *)
Theorem ApplyGainI16_total gain samples :
  is_finite gain = true -> Forall is_i16 samples ->
  exists out, ApplyGainI16 samples gain = Some out /\
    length out = length samples /\ Forall is_i16 out.
Proof.
  intros Hg Hs. exists (gained gain <$> samples).
  split; [by apply ApplyGainI16_gained|]. split; [by rewrite length_fmap|].
  apply Forall_fmap. eapply Forall_impl; [exact Hs|]. simpl. eauto with vinput.
Qed.

Lemma ApplyGainI16_total_witness :
  ApplyGainI16 [20000; -20000; 3]%Z (f32_of_Z 2) = Some [32767; -32768; 6]%Z /\
  exists out, ApplyGainI16 [20000; -20000; 3]%Z (f32_of_Z 2) = Some out /\
    length out = 3 /\ Forall is_i16 out.
Proof.
  split; [vm_compute; reflexivity|].
  apply (ApplyGainI16_total (f32_of_Z 2) [20000; -20000; 3]%Z); [reflexivity|].
  repeat constructor; unfold is_i16; lia.
Defined.
