(* ===== verification/AudioBuffer.v ===== *)
(** * The recording buffer (src/src/daemon/runtime/audio_recording_buffer.cpp)

    Samples that arrive while the ASR session is being set up are kept raw in
    [startup_pcm_]; [Activate] applies the gain and moves them to the delivery
    buffer of the backend's mode, where later samples are gained on entry. *)

From S2P Require Import Prelude Floats AudioUtils.

Definition kStreamingChunkSamples : N := 800.

Record AudioRecordingBuffer := {
  gain_ : flt;
  is_buffered_ : bool;
  is_activated_ : bool;
  startup_pcm_ : list Z;
  buffered_pcm_ : list Z;
  streaming_pcm_ : list Z;
  total_samples_ : N;
}.

Definition Reset (b : AudioRecordingBuffer) (gain : flt) : AudioRecordingBuffer :=
  {| gain_ := gain; is_buffered_ := false; is_activated_ := false; startup_pcm_ := [];
     buffered_pcm_ := []; streaming_pcm_ := []; total_samples_ := 0 |}.

Definition empty_buffer : AudioRecordingBuffer :=
  {| gain_ := f32_one; is_buffered_ := false; is_activated_ := false; startup_pcm_ := [];
     buffered_pcm_ := []; streaming_pcm_ := []; total_samples_ := 0 |}.

Definition ClearBuffer (b : AudioRecordingBuffer) : AudioRecordingBuffer := empty_buffer.

Definition SetGain (b : AudioRecordingBuffer) (gain : flt) : AudioRecordingBuffer :=
  {| gain_ := gain; is_buffered_ := is_buffered_ b; is_activated_ := is_activated_ b;
     startup_pcm_ := startup_pcm_ b; buffered_pcm_ := buffered_pcm_ b;
     streaming_pcm_ := streaming_pcm_ b; total_samples_ := total_samples_ b |}.

(** The activated half of [Append]. *)
Definition append_live (b : AudioRecordingBuffer) (pcm : list Z) : option AudioRecordingBuffer :=
  view ← PrepareGainAdjustedInput pcm (gain_ b);
  Some {| gain_ := gain_ b; is_buffered_ := is_buffered_ b; is_activated_ := is_activated_ b;
     startup_pcm_ := startup_pcm_ b;
     buffered_pcm_ := if is_buffered_ b then buffered_pcm_ b ++ view else buffered_pcm_ b;
     streaming_pcm_ := if is_buffered_ b then streaming_pcm_ b else streaming_pcm_ b ++ view;
     total_samples_ := u64_add (total_samples_ b) (size pcm) |}.

(** The non-activated half of [AppendStartup]. *)
Definition append_startup (b : AudioRecordingBuffer) (pcm : list Z) : AudioRecordingBuffer :=
  {| gain_ := gain_ b; is_buffered_ := is_buffered_ b; is_activated_ := is_activated_ b;
     startup_pcm_ := startup_pcm_ b ++ pcm; buffered_pcm_ := buffered_pcm_ b;
     streaming_pcm_ := streaming_pcm_ b;
     total_samples_ := u64_add (total_samples_ b) (size pcm) |}.

(** [AppendStartup] and [Append] call each other on [is_activated_]: the two
    bodies below are the calls unfolded once. *)
Definition AppendStartup (b : AudioRecordingBuffer) (pcm : list Z) : option AudioRecordingBuffer :=
  if is_empty pcm then Some b
  else if is_activated_ b then append_live b pcm
  else Some (append_startup b pcm).

Definition Append (b : AudioRecordingBuffer) (pcm : list Z) : option AudioRecordingBuffer :=
  if is_empty pcm then Some b
  else if negb (is_activated_ b) then AppendStartup b pcm
  else append_live b pcm.

Definition Activate (b : AudioRecordingBuffer) (is_buffered : bool) : option AudioRecordingBuffer :=
  if is_empty (startup_pcm_ b) then
    Some {| gain_ := gain_ b; is_buffered_ := is_buffered; is_activated_ := true;
       startup_pcm_ := startup_pcm_ b; buffered_pcm_ := buffered_pcm_ b;
       streaming_pcm_ := streaming_pcm_ b; total_samples_ := total_samples_ b |}
  else
    pcm ← ApplyGainI16 (startup_pcm_ b) (gain_ b);
    Some {| gain_ := gain_ b; is_buffered_ := is_buffered; is_activated_ := true;
       startup_pcm_ := [];
       buffered_pcm_ := if is_buffered then pcm else buffered_pcm_ b;
       streaming_pcm_ := if is_buffered then streaming_pcm_ b else pcm;
       total_samples_ := total_samples_ b |}.

Definition set_streaming (b : AudioRecordingBuffer) (s : list Z) : AudioRecordingBuffer :=
  {| gain_ := gain_ b; is_buffered_ := is_buffered_ b; is_activated_ := is_activated_ b;
     startup_pcm_ := startup_pcm_ b; buffered_pcm_ := buffered_pcm_ b;
     streaming_pcm_ := s; total_samples_ := total_samples_ b |}.

Definition PopStreamingChunk (b : AudioRecordingBuffer) (chunk_size : N)
  : option (list Z) * AudioRecordingBuffer :=
  if ((chunk_size =? 0) || (size (streaming_pcm_ b) <? chunk_size))%N then (None, b)
  else
    let n := N.to_nat chunk_size in
    (Some (take n (streaming_pcm_ b)), set_streaming b (drop n (streaming_pcm_ b))).

Definition DrainStreamingTail (b : AudioRecordingBuffer) : list Z * AudioRecordingBuffer :=
  (streaming_pcm_ b, set_streaming b []).

Definition TakeBufferedPcm (b : AudioRecordingBuffer) : list Z * AudioRecordingBuffer :=
  (buffered_pcm_ b,
   {| gain_ := gain_ b; is_buffered_ := is_buffered_ b; is_activated_ := is_activated_ b;
      startup_pcm_ := startup_pcm_ b; buffered_pcm_ := []; streaming_pcm_ := streaming_pcm_ b;
      total_samples_ := total_samples_ b |}).

Definition TotalSampleCount (b : AudioRecordingBuffer) : N := total_samples_ b.

(** A popped chunk leaves a shorter stream. *)
Lemma pop_shrinks b n chunk b' :
  PopStreamingChunk b n = (Some chunk, b') -> length (streaming_pcm_ b') < length (streaming_pcm_ b).
Proof.
  unfold PopStreamingChunk. destruct (_ || _) eqn:E; [done|]. intros [= _ <-]. simpl. rewrite length_drop.
  apply orb_false_iff in E as [E1%N.eqb_neq E2%N.ltb_ge]. unfold size in E2. lia.
Qed.

(** ** The life of a recording

    [Reset], samples before activation, [SetGain], [Activate], then samples and
    chunk pops interleaved in any order. *)

Inductive live_op :=
  | LiveAppend (pcm : list Z)
  | LivePop (chunk_size : N).

Fixpoint run_startup (b : AudioRecordingBuffer) (pcs : list (list Z))
  : option AudioRecordingBuffer :=
  match pcs with
  | [] => Some b
  | pcm :: pcs => b' ← AppendStartup b pcm; run_startup b' pcs
  end.

Fixpoint run_live (b : AudioRecordingBuffer) (ops : list live_op)
  : option (list (list Z) * AudioRecordingBuffer) :=
  match ops with
  | [] => Some ([], b)
  | LiveAppend pcm :: ops => b' ← Append b pcm; run_live b' ops
  | LivePop n :: ops =>
      let '(chunk, b') := PopStreamingChunk b n in
      '(chunks, b'') ← run_live b' ops;
      Some (match chunk with Some c => c :: chunks | None => chunks end, b'')
  end.

Definition live_input (ops : list live_op) : list Z :=
  concat ((fun op => match op with LiveAppend pcm => pcm | LivePop _ => [] end) <$> ops).

Definition record_session (b : AudioRecordingBuffer) (startup : list (list Z)) (gain : flt)
    (buffered : bool) (ops : list live_op) : option (list (list Z) * AudioRecordingBuffer) :=
  b1 ← run_startup (Reset b f32_one) startup;
  b2 ← Activate (SetGain b1 gain) buffered;
  run_live b2 ops.

(** ** Invariant and delivery *)

(** The buffer in its live phase in the given mode: only the mode's own queue
    holds samples, [pending], and [n] samples were ingested since the reset. *)
Record live_inv (gain : flt) (buffered : bool) (pending : list Z) (n : N)
    (b : AudioRecordingBuffer) : Prop := {
  li_gain : gain_ b = gain;
  li_mode : is_buffered_ b = buffered;
  li_activated : is_activated_ b = true;
  li_startup : startup_pcm_ b = [];
  li_buffered : buffered_pcm_ b = if buffered then pending else [];
  li_streaming : streaming_pcm_ b = if buffered then [] else pending;
  li_total : total_samples_ b = u64_wrap n;
}.

Lemma Append_live gain buffered pending n b pcm :
  is_finite gain = true -> Forall is_i16 pcm ->
  live_inv gain buffered pending n b ->
  exists b', Append b pcm = Some b' /\
    live_inv gain buffered (pending ++ (gained gain <$> pcm)) (n + size pcm) b'.
Proof.
  intros Hg Hp Hb. destruct Hb as [Hgn Hm Ha Hs Hbf Hst Ht].
  unfold Append. rewrite Ha. destruct pcm as [|x pcm]; cbn [is_empty negb].
  { eexists. split; [done|]. rewrite app_nil_r, N.add_0_r. by constructor. }
  unfold append_live. rewrite Hgn, PrepareGainAdjustedInput_gained by done.
  eexists. split; [done|]. constructor; simpl; try done.
  - rewrite Hm, Hbf. by destruct buffered.
  - rewrite Hm, Hst. by destruct buffered.
  - by rewrite Ht, u64_add_wrap_l.
Qed.

Lemma PopStreamingChunk_live gain pending n b k c b' :
  live_inv gain false pending n b -> PopStreamingChunk b k = (c, b') ->
  exists rest, default [] c ++ rest = pending /\ live_inv gain false rest n b' /\
    (forall chunk, c = Some chunk -> size chunk = k).
Proof.
  intros [Hgn Hm Ha Hs Hbf Hst Ht]. unfold PopStreamingChunk. rewrite Hst.
  destruct (_ || _)%N eqn:E; intros [= <- <-].
  - exists pending. split; [done|]. split; [by constructor|done].
  - apply orb_false_iff in E as [E1 E2]. apply N.ltb_ge in E2.
    exists (drop (N.to_nat k) pending). split; [apply take_drop|]. split; [by constructor|].
    intros chunk [= <-]. unfold size in *. rewrite length_take. lia.
Qed.

(** Before activation the buffer only grows its raw startup queue. *)
Record startup_inv (startup : list Z) (b : AudioRecordingBuffer) : Prop := {
  su_activated : is_activated_ b = false;
  su_startup : startup_pcm_ b = startup;
  su_buffered : buffered_pcm_ b = [];
  su_streaming : streaming_pcm_ b = [];
  su_total : total_samples_ b = u64_wrap (size startup);
}.

Lemma run_startup_inv startup pcs b :
  startup_inv startup b ->
  exists b', run_startup b pcs = Some b' /\ startup_inv (startup ++ concat pcs) b'.
Proof.
  revert startup b. induction pcs as [|pcm pcs IH]; intros startup b H; simpl.
  { exists b. by rewrite app_nil_r. }
  destruct H as [Ha Hs Hbf Hst Ht]. unfold AppendStartup. rewrite Ha.
  destruct pcm as [|x pcm]; cbn [is_empty mbind option_bind app]; [apply IH; by constructor|].
  rewrite app_comm_cons, app_assoc. apply IH.
  constructor; simpl; rewrite ?Hs; try done. by rewrite Ht, u64_add_wrap_l, size_app.
Qed.

Lemma Activate_live startup b gain buffered :
  is_finite gain = true -> Forall is_i16 startup -> startup_inv startup b ->
  exists b', Activate (SetGain b gain) buffered = Some b' /\
    live_inv gain buffered (gained gain <$> startup) (size startup) b'.
Proof.
  intros Hg Hi [Ha Hs Hbf Hst Ht]. unfold Activate. simpl. rewrite Hs.
  destruct startup as [|x startup]; cbn [is_empty].
  - eexists. split; [done|]. constructor; simpl; try done; by destruct buffered.
  - rewrite ApplyGainI16_gained by done. eexists. split; [done|].
    constructor; simpl; rewrite ?Hbf, ?Hst; try done; by destruct buffered.
Qed.

Lemma run_live_inv gain buffered pending n b ops :
  is_finite gain = true -> Forall is_i16 (live_input ops) ->
  live_inv gain buffered pending n b ->
  exists chunks b' rest, run_live b ops = Some (chunks, b') /\
    live_inv gain buffered rest (n + size (live_input ops)) b' /\
    concat chunks ++ rest = pending ++ (gained gain <$> live_input ops) /\
    Forall (fun c => LivePop (size c) ∈ ops) chunks.
Proof.
  intros Hg. revert pending n b. induction ops as [|[pcm|k] ops IH]; intros pending n b Hi Hb; simpl.
  - exists [], b, pending. rewrite app_nil_r, N.add_0_r. split_and!; [done..|constructor].
  - unfold live_input in Hi; simpl in Hi. apply Forall_app in Hi as [Hi1 Hi2].
    destruct (Append_live gain buffered pending n b pcm Hg Hi1 Hb) as (b1 & -> & Hb1); simpl.
    destruct (IH _ _ _ Hi2 Hb1) as (chunks & b' & rest & Hr & Hl & Heq & Hc).
    exists chunks, b', rest. split; [done|]. unfold live_input in *; simpl.
    rewrite size_app, N.add_assoc, fmap_app, app_assoc. split_and!; try done.
    eapply Forall_impl; [exact Hc|]. intros c ?; by apply elem_of_cons; right.
  - destruct (PopStreamingChunk b k) as [c b1] eqn:Ep.
    assert (exists rest1, default [] c ++ rest1 = pending /\ live_inv gain buffered rest1 n b1 /\
      forall chunk, c = Some chunk -> size chunk = k) as (rest1 & <- & Hb1 & Hk).
    { destruct buffered; [|by eapply PopStreamingChunk_live].
      unfold PopStreamingChunk in Ep. rewrite (li_streaming _ _ _ _ _ Hb) in Ep.
      exists pending. destruct k; simplify_eq/=; split_and!; done. }
    destruct (IH _ _ _ Hi Hb1) as (chunks & b' & rest & -> & Hl & Heq & Hc); simpl.
    eexists _, b', rest. split; [done|]. split; [done|].
    assert (Forall (fun c => LivePop (size c) ∈ LivePop k :: ops) chunks) as Hc'
      by (eapply Forall_impl; [exact Hc|]; intros ??; by apply elem_of_cons; right).
    destruct c as [c|]; simpl.
    + rewrite <-!app_assoc, Heq. split; [done|]. constructor; [|done].
      rewrite (Hk c eq_refl). apply elem_of_cons; by left.
    + done.
Qed.

(** C15. A recording session loses, reorders and duplicates nothing: whatever
    arrives before activation, and however samples and chunk pops interleave
    after it, the session runs to the end, and the popped chunks followed by
    the drained tail (or the buffered take) are exactly the gained input in
    order; every chunk has the requested size, and the total sample count
    (modulo 2^64) is the number of samples ingested. *)
Theorem record_session_delivery b startup gain buffered ops :
  is_finite gain = true ->
  Forall is_i16 (concat startup ++ live_input ops) ->
  exists chunks b', record_session b startup gain buffered ops = Some (chunks, b') /\
    concat chunks ++ (if buffered then (TakeBufferedPcm b').1 else (DrainStreamingTail b').1)
      = gained gain <$> (concat startup ++ live_input ops) /\
    Forall (fun c => LivePop (size c) ∈ ops) chunks /\
    TotalSampleCount b' = u64_wrap (size (concat startup ++ live_input ops)).
Proof.
  intros Hg [Hi1 Hi2]%Forall_app. unfold record_session.
  destruct (run_startup_inv [] startup (Reset b f32_one)) as (b1 & -> & Hb1); [by constructor|].
  simpl mbind.
  destruct (Activate_live _ _ gain buffered Hg Hi1 Hb1) as (b2 & -> & Hb2).
  destruct (run_live_inv _ _ _ _ _ ops Hg Hi2 Hb2) as (chunks & b' & rest & Hr & Hl & Heq & Hc).
  exists chunks, b'. split; [exact Hr|]. rewrite fmap_app, <-Heq, size_app.
  destruct Hl as [? ? ? ? Hbf Hst Ht]. unfold TotalSampleCount. rewrite Ht.
  split; [|done]. destruct buffered; simpl; by rewrite ?Hbf, ?Hst.
Qed.

Lemma record_session_delivery_witness :
  exists chunks b', record_session empty_buffer [[1; 2]; [3]]%Z (f32_of_Z 2) false
      [LiveAppend [4; 5]%Z; LivePop 2; LiveAppend [6]%Z; LivePop 2; LivePop 9] = Some (chunks, b') /\
    concat chunks ++ (DrainStreamingTail b').1
      = gained (f32_of_Z 2) <$> [1; 2; 3; 4; 5; 6]%Z /\
    Forall (fun c => LivePop (size c) ∈
      [LiveAppend [4; 5]%Z; LivePop 2; LiveAppend [6]%Z; LivePop 2; LivePop 9]) chunks /\
    TotalSampleCount b' = u64_wrap 6.
Proof.
  apply (record_session_delivery empty_buffer [[1; 2]; [3]]%Z (f32_of_Z 2) false
    [LiveAppend [4; 5]%Z; LivePop 2; LiveAppend [6]%Z; LivePop 2; LivePop 9]); [reflexivity|].
  repeat constructor; unfold is_i16; lia.
Defined.
