(* ===== verification/OutputDucker.v ===== *)
(** * Output ducking (src/src/daemon/audio/output_ducker.cpp, output_ducker.h)

    While the user dictates, the default audio sink is turned down and afterwards turned
    up again. [Duck] and [Restore] only queue a task; a worker thread takes the tasks in
    order and runs [wpctl]. The model keeps the queue, the flags and the worker's program
    counter, with one step per critical section and one per [wpctl] call, so that clients,
    the worker and the user's own changes interleave. *)

From S2P Require Import Prelude StringUtils Floats FloatText Process.
From Stdlib Require Import Ascii SpecFloat.

(** ** wpctl *)

Definition kWpctl : bytes := "wpctl".
Definition kDefaultSink : bytes := "@DEFAULT_AUDIO_SINK@".
Definition kVolumePrefix : bytes := "Volume:".
Definition kWpctlTimeoutMs : Z := 2000.

Definition ParseVolume (text : bytes) : option flt :=
  if is_empty text then None
  else
    prefix_pos ← find_sub text kVolumePrefix;
    let after_prefix := drop (prefix_pos + length kVolumePrefix) text in
    num_start ← find_if (fun c => negb ((c =b " "%char) || (c =b "009"%char))) after_prefix;
    '(value, _) ← from_chars_double (drop num_start after_prefix);
    Some value.

Definition get_volume_spec : CommandSpec :=
  {| sp_command := kWpctl; sp_args := ["get-volume" : bytes; kDefaultSink]; sp_env := ∅; sp_timeout_ms := kWpctlTimeoutMs |}.

Definition succeeded (result : CommandResult) : bool :=
  negb (launch_failed result) && negb (timed_out result) && (exit_code result =? 0)%Z.

(** The volume, from the answer to [get_volume_spec]. *)
Definition ReadDefaultSinkVolume (result : CommandResult) : option flt :=
  if launch_failed result || timed_out result || negb (exit_code result =? 0)%Z then None
  else ParseVolume (stdout_text result).

(** The command that sets the volume, in a locale with decimal point [point]; [None]: the text does not fit the buffer and
    nothing is run. *)
Definition set_volume_spec (point : bytes) (volume : flt) : option CommandSpec :=
  let text := format_fixed4 point volume in
  if 32 <=? length text then None
  else Some {| sp_command := kWpctl; sp_args := ["set-volume" : bytes; kDefaultSink; text];
               sp_env := ∅; sp_timeout_ms := kWpctlTimeoutMs |}.

(** The answer of [wpctl], [None] when it was not run. *)
Definition SetDefaultSinkVolume (result : option CommandResult) : bool :=
  match result with Some r => succeeded r | None => false end.

(** ** The ducker *)

Inductive DuckerAction := ActDuck | ActRestore.
Record DuckerTask := { task_action : DuckerAction; task_scale : flt }.

(** Where the worker is: waiting at the top of its loop; with a task it has taken; about to
    lower the volume it has read; about to write the saved volume back; behind the task;
    out of the loop. [Closing]: the destructor is about to write the saved volume back. *)
Inductive WorkerPc :=
  | Waiting
  | Taken (task : DuckerTask)
  | Lowering (current target : flt)
  | Raising (volume : flt)
  | Finished
  | Exited
  | Closing (volume : flt)
  | Destroyed.

Record Ducker := {
  queue : list DuckerTask; stop : bool; logical_ducked : bool;
  worker_ducked : bool; saved_volume : flt; pc : WorkerPc;
}.
#[export] Instance Ducker_fields : Fields Ducker :=
  fun d => Build_Ducker (queue d) (stop d) (logical_ducked d) (worker_ducked d) (saved_volume d) (pc d).

(** The constructor starts the worker. *)
Definition OutputDucker_init : Ducker :=
  {| queue := []; stop := false; logical_ducked := false; worker_ducked := false;
     saved_volume := f64_of_Z 0; pc := Waiting |}.

Definition Duck (scale : flt) (d : Ducker) : Ducker :=
  if logical_ducked d then d
  else d <| logical_ducked := true |> <| queue := queue d ++ [{| task_action := ActDuck; task_scale := scale |}] |>.

Definition Restore (d : Ducker) : Ducker :=
  if logical_ducked d then
    d <| logical_ducked := false |>
      <| queue := queue d ++ [{| task_action := ActRestore; task_scale := f64_of_Z 1 |}] |>
  else d.

Definition IsDucked (d : Ducker) : bool := logical_ducked d.

(** [Flush] returns when this holds. *)
Definition flush_ready (d : Ducker) : bool := is_empty (queue d).

(** The destructor's first critical section. *)
Definition request_stop (d : Ducker) : Ducker := d <| stop := true |>.

(** The top of [WorkerLoop]; [None]: it waits. *)
Definition take_task (d : Ducker) : option Ducker :=
  match queue d with
  | task :: rest => Some (d <| queue := rest |> <| pc := Taken task |>)
  | [] => if stop d then Some (d <| pc := Exited |>) else None
  end.

(** [ProcessDuck] up to its first call: [None] when it returns at once. *)
Definition duck_needs_volume (d : Ducker) : bool := negb (worker_ducked d).
(** From the answer on to the second call. *)
Definition ProcessDuck_read (scale : flt) (answer : CommandResult) (d : Ducker) : Ducker :=
  let scale := fclamp scale (f64_of_Z 0) (f64_of_Z 1) in
  match ReadDefaultSinkVolume answer with
  | None => d <| pc := Finished |>
  | Some current => d <| pc := Lowering current (f64_mul current scale) |>
  end.
(** Whatever the second call says, the volume is taken as lowered. *)
Definition ProcessDuck_set (current : flt) (answer : option CommandResult) (d : Ducker) : Ducker :=
  if negb (SetDefaultSinkVolume answer)
  then d <| saved_volume := current |> <| worker_ducked := true |> <| pc := Finished |>
  else d <| saved_volume := current |> <| worker_ducked := true |> <| pc := Finished |>.

(** [ProcessRestore] up to its call, which [next] names: the worker's or the destructor's. *)
Definition ProcessRestore_begin (next : flt -> WorkerPc) (idle : WorkerPc) (d : Ducker) : Ducker :=
  if worker_ducked d
  then d <| worker_ducked := false |> <| saved_volume := f64_of_Z 0 |> <| pc := next (saved_volume d) |>
  else d <| pc := idle |>.

(** What the worker does next without a call, when it does. *)
Definition work (d : Ducker) : option Ducker :=
  match pc d with
  | Waiting => take_task d
  | Taken {| task_action := ActDuck |} => if duck_needs_volume d then None else Some (d <| pc := Finished |>)
  | Taken {| task_action := ActRestore |} => Some (ProcessRestore_begin Raising Finished d)
  | Finished => Some (d <| pc := Waiting |>)
  | Exited => Some (ProcessRestore_begin Closing Destroyed d)
  | _ => None
  end.

(** The volume that is about to be written. *)
Definition writing (d : Ducker) : option flt :=
  match pc d with
  | Lowering _ v | Raising v | Closing v => Some v
  | _ => None
  end.

Definition wrote (answer : option CommandResult) (d : Ducker) : Ducker :=
  match pc d with
  | Lowering current _ => ProcessDuck_set current answer d
  | Raising _ => d <| pc := Finished |>
  | Closing _ => d <| pc := Destroyed |>
  | _ => d
  end.

(** ** Runs *)

(** The sink, what [wpctl get-volume] prints for it and what [set-volume] makes of it; the
    decimal point of the daemon's locale. *)
Section runs.
Context (point : bytes) {Sink : Type} (shown : Sink -> bytes) (turned : bytes -> Sink -> Sink).

Inductive event :=
  | EDuck (scale : flt)
  | ERestore
  | EStop
  | EWork
  | ERead
  | EWrite (lowering took_effect : bool)
  | EUser.

Definition lowering (d : Ducker) : bool := match pc d with Lowering _ _ => true | _ => false end.

(** One step of a client, the worker, [wpctl] or the user. A call of [wpctl] may fail; a
    failed write may or may not have taken effect, one that reports success has. *)
Inductive dstep : Ducker * Sink -> event -> Ducker * Sink -> Prop :=
  | step_duck d s scale : stop d = false -> dstep (d, s) (EDuck scale) (Duck scale d, s)
  | step_restore d s : stop d = false -> dstep (d, s) ERestore (Restore d, s)
  | step_stop d s : stop d = false -> dstep (d, s) EStop (request_stop d, s)
  | step_work d s d' : work d = Some d' -> dstep (d, s) EWork (d', s)
  | step_read d s scale answer :
      pc d = Taken {| task_action := ActDuck; task_scale := scale |} -> duck_needs_volume d = true ->
      succeeded answer = false \/ stdout_text answer = shown s ->
      dstep (d, s) ERead (ProcessDuck_read scale answer d, s)
  | step_write d s v spec r took :
      writing d = Some v -> set_volume_spec point v = Some spec -> (succeeded r = true -> took = true) ->
      dstep (d, s) (EWrite (lowering d) took) (wrote (Some r) d, if took : bool then turned (format_fixed4 point v) s else s)
  | step_skip d s v :
      writing d = Some v -> set_volume_spec point v = None -> dstep (d, s) (EWrite (lowering d) false) (wrote None d, s)
  | step_user d s s' : dstep (d, s) EUser (d, s').

Inductive druns : Ducker * Sink -> list event -> Ducker * Sink -> Prop :=
  | druns_nil w : druns w [] w
  | druns_snoc w es w' e w'' : druns w es w' -> dstep w' e w'' -> druns w (es ++ [e]) w''.

Lemma druns_app w es w' es' w'' : druns w es w' -> druns w' es' w'' -> druns w (es ++ es') w''.
Proof.
  intros H1 H2. induction H2 as [|w' es' w1 e w2 _ IH Hs]; [by rewrite app_nil_r|].
  rewrite app_assoc. eapply druns_snoc; eauto.
Qed.

(** *** The queue *)

(** Tasks alternate: from the state [b], ducked or not, they lead to [last]. *)
Fixpoint alternates (b : bool) (tasks : list DuckerTask) (last : bool) : Prop :=
  match tasks with
  | [] => b = last
  | {| task_action := ActDuck |} :: tasks => b = false /\ alternates true tasks last
  | {| task_action := ActRestore |} :: tasks => b = true /\ alternates false tasks last
  end.

Lemma alternates_snoc b tasks last t :
  alternates b tasks last ->
  match task_action t with ActDuck => last = false | ActRestore => last = true end ->
  alternates b (tasks ++ [t]) (negb last).
Proof.
  revert b. induction tasks as [|[a x] tasks IH]; intros b; cbn.
  - intros ->. destruct t as [[] ?]; cbn; intros ->; done.
  - destruct a; intros [-> Ha] Ht; split; auto.
Qed.

(** [b]: ducked or not, once the task at hand is done. *)
Definition pc_ok (d : Ducker) (b : bool) : Prop :=
  match pc d with
  | Taken {| task_action := ActDuck |} | Lowering _ _ => b = true /\ worker_ducked d = false
  | Taken {| task_action := ActRestore |} => b = false
  | Raising _ => b = false /\ worker_ducked d = false
  | Closing _ | Destroyed => worker_ducked d = false
  | _ => worker_ducked d = true -> b = true
  end.

Definition queue_inv (d : Ducker) : Prop := exists b, alternates b (queue d) (logical_ducked d) /\ pc_ok d b.

Lemma wrote_ok d answer v b :
  writing d = Some v -> alternates b (queue d) (logical_ducked d) -> pc_ok d b ->
  alternates b (queue (wrote answer d)) (logical_ducked (wrote answer d)) /\ pc_ok (wrote answer d) b.
Proof.
  unfold writing, wrote, ProcessDuck_set, pc_ok. intros Hw Ha Hp. destruct (pc d) eqn:Epc; try done.
  - destruct (negb _); cbn; intuition.
  - cbn. destruct Hp as [_ ->]. done.
Qed.

Lemma queue_inv_step w e w' : dstep w e w' -> queue_inv w.1 -> queue_inv w'.1.
Proof.
  intros Hs (b & Ha & Hp). destruct Hs as [d s scale _|d s _|d s _|d s d' Hw|d s scale answer Hpc Hn _|d s v spec r took Hw _ _|d s v Hw _|d s s'];
    cbn [fst] in *.
  - unfold Duck. destruct (logical_ducked d) eqn:El; [by exists b; rewrite El|]. exists b. split; [|exact Hp].
    cbn. by apply (alternates_snoc b (queue d) false).
  - unfold Restore. destruct (logical_ducked d) eqn:El; [|by exists b; rewrite El]. exists b. split; [|exact Hp].
    cbn. by apply (alternates_snoc b (queue d) true).
  - by exists b.
  - unfold work, take_task in Hw. unfold pc_ok in Hp. destruct (pc d) as [|[[] x]| | | | | |] eqn:Epc; try done.
    + destruct (queue d) as [|[a x] q] eqn:Eq; [destruct (stop d); [|done]|]; injection Hw as <-.
      * exists b. split; [by rewrite <-Eq in Ha|done].
      * cbn in Ha. destruct a; destruct Ha as [-> Ha]; [exists true|exists false]; (split; [done|]); cbn; [|done].
        split; [done|]. destruct (worker_ducked d); [by specialize (Hp eq_refl)|done].
    + destruct (duck_needs_volume d); [done|]. injection Hw as <-. exists b. split; [done|]. cbn. by destruct Hp as [-> _].
    + unfold ProcessRestore_begin in Hw. destruct (worker_ducked d) eqn:Ed; injection Hw as <-; exists b; split; try done.
      cbn. congruence.
    + injection Hw as <-. by exists b.
    + unfold ProcessRestore_begin in Hw. destruct (worker_ducked d) eqn:Ed; injection Hw as <-; by exists b.
  - unfold pc_ok in Hp. rewrite Hpc in Hp. destruct Hp as [-> Hp]. exists true. unfold ProcessDuck_read.
    destruct (ReadDefaultSinkVolume answer); done.
  - exists b. eauto using wrote_ok.
  - exists b. eauto using wrote_ok.
  - by exists b.
Qed.

Lemma queue_inv_runs w es w' : druns w es w' -> queue_inv w.1 -> queue_inv w'.1.
Proof. induction 1 as [|w es w' e w'' _ IH Hs]; intros Hi; [done|]. eapply queue_inv_step; eauto. Qed.

(** *** Shutting down *)

(** The steps that are left once the destructor has asked the worker to stop: four for a
    task, and the way out. *)
Definition remaining (d : Ducker) : nat :=
  4 * length (queue d) +
  match pc d with
  | Waiting => 4
  | Taken _ => 7
  | Lowering _ _ | Raising _ => 6
  | Finished => 5
  | Exited => 3
  | Closing _ => 2
  | Destroyed => 0
  end.

Definition of_user (e : event) : bool := match e with EUser => true | _ => false end.
Definition worker_steps (es : list event) : nat := length (filter (fun e => of_user e = false) es).

Lemma remaining_wrote d answer v :
  writing d = Some v -> stop (wrote answer d) = stop d /\ remaining (wrote answer d) < remaining d.
Proof.
  unfold writing, wrote, ProcessDuck_set, remaining. destruct (pc d); try done; intros _;
    [destruct (negb _)|..]; cbn; (split; [done|lia]).
Qed.

Lemma remaining_step w e w' :
  dstep w e w' -> stop w.1 = true ->
  stop w'.1 = true /\ (if of_user e then remaining w'.1 = remaining w.1 else remaining w'.1 < remaining w.1).
Proof.
  intros Hs Hst. destruct Hs as [d s scale ?|d s ?|d s ?|d s d' Hw|d s scale answer Hpc _ _|d s v spec r took Hw _ _|d s v Hw _|d s s'];
    cbn [fst of_user] in *; try congruence; try done.
  - unfold work, take_task, ProcessRestore_begin in Hw. unfold remaining.
    destruct (pc d) as [|[[] x]| | | | | |] eqn:Epc; try done.
    all: destruct (queue d) as [|t q] eqn:Eq; repeat case_match; simplify_eq; cbn; rewrite ?Eq; cbn; (split; [done|lia]).
  - unfold ProcessDuck_read, remaining. rewrite Hpc. destruct (ReadDefaultSinkVolume _); cbn; (split; [done|lia]).
  - destruct (remaining_wrote d (Some r) v Hw) as [-> ?]. done.
  - destruct (remaining_wrote d None v Hw) as [-> ?]. done.
Qed.

Lemma remaining_runs w es w' :
  druns w es w' -> stop w.1 = true -> stop w'.1 = true /\ worker_steps es + remaining w'.1 <= remaining w.1.
Proof.
  induction 1 as [|w es w' e w'' _ IH Hs]; intros Hst; [done|]. destruct (IH Hst) as [Hst' Hle].
  destruct (remaining_step _ _ _ Hs Hst') as [? Hd]. split; [done|].
  unfold worker_steps in *. rewrite filter_app, length_app, filter_cons, filter_nil.
  destruct (of_user e); [rewrite decide_False by done|rewrite decide_True by done]; cbn [length]; lia.
Qed.

(** Whatever [wpctl] answers, the worker has a step to take until it is gone. *)
Lemma worker_not_stuck d s :
  stop d = true -> pc d <> Destroyed -> exists e w, dstep (d, s) e w /\ of_user e = false.
Proof.
  intros Hst Hd. destruct (work d) as [d'|] eqn:Ew; [by eexists EWork, (d', s); split; [constructor|]|].
  destruct (writing d) as [v|] eqn:Ewr.
  - destruct (set_volume_spec point v) eqn:Esp.
    + eexists (EWrite (lowering d) false), _.
      split; [by eapply (step_write d s v _ {| exit_code := 1; timed_out := false; launch_failed := true; stdout_text := []; stderr_text := [] |} false)|done].
    + eexists (EWrite (lowering d) false), _. split; [by eapply step_skip|done].
  - unfold work, take_task in Ew. unfold writing in Ewr. destruct (pc d) as [|[[] x]| | | | | |] eqn:Epc; try done.
    + by destruct (queue d); rewrite ?Hst in Ew.
    + destruct (duck_needs_volume d) eqn:En; [|done]. eexists ERead, _. split; [|done].
      eapply (step_read d s x {| exit_code := 1; timed_out := false; launch_failed := true; stdout_text := []; stderr_text := [] |}); auto.
Qed.

(** Shutting down ends: once the destructor has asked the worker to stop, the worker and
    the destructor take at most four steps for each queued task and seven more, however
    [wpctl] answers and whatever the user does, and they are never stuck before the
    ducker is destroyed. *)
Theorem ducker_shuts_down w es d s :
  stop w.1 = true -> druns w es (d, s) ->
  worker_steps es <= 4 * length (queue w.1) + 7 /\
  (pc d <> Destroyed -> exists e w', dstep (d, s) e w' /\ of_user e = false).
Proof.
  intros Hst Hr. destruct (remaining_runs _ _ _ Hr Hst) as [Hst' Hle]. split.
  - transitivity (remaining w.1); [lia|]. unfold remaining. destruct (pc w.1); lia.
  - by apply worker_not_stuck.
Qed.

(** *** The volume *)

(** Setting the volume to what was read shows what was shown then. *)
Context (restorable : forall s0 s v,
  ParseVolume (shown s0) = Some v -> shown (turned (format_fixed4 point v) s) = shown s0).

(** The user leaves the volume alone, and writing the saved volume back takes effect; the
    calls that read the volume and that lower it may fail in any way. *)
Definition undisturbed (e : event) : Prop :=
  match e with EUser => False | EWrite false took => took = true | _ => True end.

Definition volume_inv (s0 : Sink) (w : Ducker * Sink) : Prop :=
  let v0 := ParseVolume (shown s0) in
  (worker_ducked w.1 = true -> v0 = Some (saved_volume w.1)) /\
  match pc w.1 with
  | Lowering c _ => v0 = Some c /\ shown w.2 = shown s0
  | Raising v | Closing v => v0 = Some v
  | _ => worker_ducked w.1 = false -> shown w.2 = shown s0
  end.

Lemma volume_inv_write s0 d s v answer took :
  writing d = Some v -> (lowering d = false -> took = true) -> volume_inv s0 (d, s) ->
  volume_inv s0 (wrote answer d, if took : bool then turned (format_fixed4 point v) s else s).
Proof.
  unfold volume_inv, writing, wrote, lowering, ProcessDuck_set. cbn [fst snd]. intros Hw Ht [Hd Hp].
  destruct (pc d) eqn:Epc; try done; injection Hw as <-.
  - destruct Hp as [Hv _]. destruct (negb _); cbn; done.
  - rewrite (Ht eq_refl). cbn. split; [done|]. intros _. by apply restorable.
  - rewrite (Ht eq_refl). cbn. split; [done|]. intros _. by apply restorable.
Qed.

Lemma volume_inv_step s0 w e w' :
  dstep w e w' -> undisturbed e -> queue_inv w.1 -> volume_inv s0 w -> volume_inv s0 w'.
Proof.
  intros Hs He (b & _ & Hq) Hv.
  destruct Hs as [d s scale _|d s _|d s _|d s d' Hw|d s scale answer Hpc Hn Hans|d s v spec r took Hw _ _|d s v Hw Hn|d s s'].
  - unfold Duck. destruct (logical_ducked d); done.
  - unfold Restore. destruct (logical_ducked d); done.
  - done.
  - destruct Hv as [Hd Hp]. unfold work, take_task, ProcessRestore_begin in Hw. unfold volume_inv. cbn [fst snd] in *.
    destruct (pc d) as [|[[] x]| | | | | |] eqn:Epc; try done.
    + destruct (queue d) as [|t q]; [destruct (stop d); [|done]|]; injection Hw as <-; done.
    + destruct (duck_needs_volume d); [done|]. injection Hw as <-. done.
    + destruct (worker_ducked d) eqn:Ed; injection Hw as <-; cbn; rewrite ?Ed; split; auto; congruence.
    + by injection Hw as <-.
    + destruct (worker_ducked d) eqn:Ed; injection Hw as <-; cbn; rewrite ?Ed; split; auto; congruence.
  - destruct Hv as [Hd Hp]. cbn [fst snd] in *. rewrite Hpc in Hp. unfold volume_inv, ProcessDuck_read.
    assert (worker_ducked d = false) as Ed by (unfold duck_needs_volume in Hn; by destruct (worker_ducked d)).
    destruct (ReadDefaultSinkVolume answer) as [current|] eqn:Er; cbn [fst snd]; [|by cbn].
    cbn. split; [congruence|]. specialize (Hp Ed). split; [|done]. unfold ReadDefaultSinkVolume in Er.
    destruct Hans as [Hf|Ha].
    + exfalso. revert Er Hf. unfold succeeded. destruct (launch_failed _), (timed_out _), (_ =? _)%Z; done.
    + rewrite Ha, Hp in Er. destruct (_ || _); done.
  - apply volume_inv_write; [done| |done]. cbn in He. by destruct (lowering d).
  - apply (volume_inv_write s0 d s v None false Hw); [|done]. cbn in He. by destruct (lowering d).
  - done.
Qed.

Lemma volume_inv_runs s0 es w :
  druns (OutputDucker_init, s0) es w -> Forall undisturbed es -> queue_inv w.1 /\ volume_inv s0 w.
Proof.
  remember (OutputDucker_init, s0) as w0 eqn:Ew. intros Hr. induction Hr as [w|w es w' e w'' _ IH Hs]; intros He.
  - subst. split; [by exists false|]. done.
  - apply Forall_app in He as [He [Hq _]%Forall_cons]. destruct (IH Ew He) as [Hi Hv].
    split; [by eapply queue_inv_step|by eapply volume_inv_step].
Qed.

End runs.

(** ** A sink with a volume in percent *)

Definition percent (n : nat) : nat := n `min` 100.
Definition demo_shown (n : nat) : bytes :=
  "Volume: " ++ to_string (Z.of_nat (percent n / 100)) ++ "." ++ drop 2 (pad4 (Z.of_nat (percent n mod 100))) ++ [ch_nl].
Definition demo_level (text : bytes) : option nat :=
  '(v, _) ← from_chars_double text;
  z ← trunc (SFadd f64_prec f64_emax (f64_mul v (f64_of_Z 100)) (f64_lit 1 2));
  Some (Z.to_nat z).
Definition demo_turned (text : bytes) (n : nat) : nat := default n (demo_level text).

Lemma demo_restorable s0 s v :
  ParseVolume (demo_shown s0) = Some v -> demo_shown (demo_turned (format_fixed4 "." v) s) = demo_shown s0.
Proof.
  assert (Forall (fun k => (v ← ParseVolume (demo_shown k); demo_level (format_fixed4 "." v)) = Some k) (seq 0 101)) as Hall.
  { repeat (constructor; [vm_compute; reflexivity|]). constructor. }
  assert (demo_shown s0 = demo_shown (percent s0)) as -> by (unfold demo_shown, percent; by rewrite <-Nat.min_assoc).
  rewrite Forall_forall in Hall. specialize (Hall (percent s0)). intros Hv. rewrite Hv in Hall.
  unfold demo_turned. cbn [mbind option_bind] in Hall. rewrite Hall; [done|]. apply elem_of_seq. unfold percent. lia.
Qed.

Definition answered (text : bytes) : CommandResult :=
  {| exit_code := 0; timed_out := false; launch_failed := false; stdout_text := text; stderr_text := [] |}.

Abbreviation demo_runs := (druns "." demo_shown demo_turned).
Definition quarter : flt := f64_lit 25 100.

Definition demo_taken : Ducker :=
  {| queue := []; stop := false; logical_ducked := true; worker_ducked := false; saved_volume := f64_of_Z 0;
     pc := Taken {| task_action := ActDuck; task_scale := quarter |} |}.
Definition demo_lowering : Ducker := ProcessDuck_read quarter (answered (demo_shown 80)) demo_taken.

Lemma druns_one w e w' : dstep "." demo_shown demo_turned w e w' -> demo_runs w [e] w'.
Proof. intros Hs. apply (druns_snoc _ _ _ w [] w); [constructor|done]. Qed.
Lemma druns_two w e w' e' w'' :
  dstep "." demo_shown demo_turned w e w' -> dstep "." demo_shown demo_turned w' e' w'' -> demo_runs w [e; e'] w''.
Proof. intros H1 H2. apply (druns_snoc _ _ _ w [e] w'); [by apply druns_one|done]. Qed.

Lemma demo_take : demo_runs (OutputDucker_init, 80) [EDuck quarter; EWork] (demo_taken, 80).
Proof. eapply druns_two; [by apply step_duck|by apply step_work]. Qed.
Lemma demo_lower : demo_runs (demo_taken, 80) [ERead; EWrite true true] (wrote (Some (answered [])) demo_lowering, 20).
Proof.
  eapply druns_two.
  - apply (step_read _ _ _ demo_taken 80 quarter (answered (demo_shown 80))); [reflexivity..|right; reflexivity].
  - assert (20 = demo_turned (format_fixed4 "." (f64_mul (f64_lit 80 100) quarter)) 80) as -> by (vm_compute; reflexivity).
    change (ProcessDuck_read quarter (answered (demo_shown 80)) demo_taken) with demo_lowering.
    replace (EWrite true true) with (EWrite (lowering demo_lowering) true) by (vm_compute; reflexivity).
    eapply (step_write "." demo_shown demo_turned demo_lowering 80 _ _ (answered []) true); [vm_compute; reflexivity..|done].
Qed.

(** [Flush] does not wait for the task in progress, contrary to its comment (waits for all
    pending ducking and restore tasks to finish): after a request to duck the queue can be
    empty, so that [Flush] returns, before the volume was lowered, which happens
    afterwards. [IsDucked] can deny a ducking task that is queued. *)
Theorem flush_returns_early :
  (exists d, demo_runs (OutputDucker_init, 80) [EDuck quarter; EWork] (d, 80) /\ flush_ready d = true /\
     exists d', demo_runs (d, 80) [ERead; EWrite true true] (d', 20) /\ demo_shown 20 <> demo_shown 80) /\
  (exists d, demo_runs (OutputDucker_init, 80) [EDuck quarter; ERestore] (d, 80) /\ IsDucked d = false /\
     Exists (fun t => task_action t = ActDuck) (queue d)).
Proof.
  split.
  - exists demo_taken. split; [exact demo_take|]. split; [reflexivity|]. eexists. split; [exact demo_lower|]. vm_compute. discriminate.
  - eexists. split; [eapply druns_two; [by apply step_duck|by apply step_restore]|]. split; [reflexivity|]. by constructor.
Qed.

(** Recording once at 80%: the volume goes down to 20% and back. *)
Definition demo_lowered : Ducker := wrote (Some (answered [])) demo_lowering.
Definition demo_restoring : Ducker :=
  {| queue := []; stop := false; logical_ducked := false; worker_ducked := false; saved_volume := f64_of_Z 0;
     pc := Raising (f64_lit 80 100) |}.
Definition demo_events : list event :=
  [EDuck quarter; EWork] ++ [ERead; EWrite true true] ++ [EWork; ERestore] ++ [EWork; EWork] ++ [EWrite false true; EWork].

Lemma demo_whole : demo_runs (OutputDucker_init, 80) demo_events (demo_restoring <| pc := Waiting |>, 80).
Proof.
  eapply druns_app; [exact demo_take|]. eapply druns_app; [exact demo_lower|]. eapply druns_app.
  { eapply druns_two; [by apply step_work|by apply step_restore]. } eapply druns_app.
  { eapply druns_two; [by apply step_work|]. instantiate (1 := (demo_restoring, 20)). apply step_work. vm_compute. reflexivity. }
  apply (druns_two _ _ (demo_restoring <| pc := Finished |>, 80)); [|by apply step_work].
  assert (80 = demo_turned (format_fixed4 "." (f64_lit 80 100)) 20) as -> by (vm_compute; reflexivity).
  eapply (step_write "." demo_shown demo_turned demo_restoring 20 _ _ (answered []) true); [vm_compute; reflexivity..|done].
Qed.


Lemma ducker_shuts_down_witness :
  exists e w', dstep "." demo_shown demo_turned (request_stop demo_taken, 80) e w' /\ of_user e = false.
Proof.
  apply (ducker_shuts_down "." demo_shown demo_turned (request_stop demo_taken, 80) [] (request_stop demo_taken) 80);
    [reflexivity|constructor|discriminate].
Defined.
