(* ===== verification/Vad.v ===== *)
(** * Voice activity (src/src/daemon/asr/vad_segmentation.cpp, vad_trimmer.cpp)

    Trimming silence and cutting a recording into utterances. The detector of the
    speech library is a parameter: a function from the windows it is fed to the
    speech segments it reports (start and number of samples). *)

From S2P Require Import Prelude Floats Json.
From Stdlib Require Import SpecFloat.

Abbreviation samples_t := (list flt).

(** ** CoalesceAndSliceSegments *)

Definition u64_max_double : flt := f64_of_Z 18446744073709551615.

(** [to_samples]: the range test makes the conversion to [std::size_t] defined. *)
Definition to_samples (sample_rate : Z) (duration_sec : flt) : nat :=
  let samples := f64_mul (f64_of_f32 duration_sec) (f64_of_Z sample_rate) in
  if negb (is_finite samples) || SFleb samples (f64_of_Z 0) || SFleb u64_max_double samples then 0
  else match trunc samples with Some z => Z.to_nat z | None => 0 end.

Definition drop_empty (segments : list samples_t) : list samples_t :=
  filter (fun s => is_empty s = false) segments.

(** [for (offset = 0; offset < seg.size(); offset += max)] *)
Fixpoint slice_loop (fuel : nat) (seg : samples_t) (offset max : nat) : list samples_t :=
  match fuel with
  | O => []
  | S fuel =>
      if offset <? length seg then
        take (Nat.min max (length seg - offset)) (drop offset seg) :: slice_loop fuel seg (offset + max) max
      else []
  end.

Definition coalesce_step (max merge : nat) (result : list samples_t) (seg : samples_t) : list samples_t :=
  if is_empty seg then result
  else if max <? length seg then result ++ slice_loop (S (length seg)) seg 0 max
  else
    match last result with
    | Some back =>
        if (length back <? merge) && (length back + length seg <=? max)
        then removelast result ++ [back ++ seg]
        else result ++ [seg]
    | None => result ++ [seg]
    end.

Definition CoalesceAndSliceSegments (raw_segments : list samples_t) (sample_rate : Z)
    (max_segment_duration_sec min_merge_duration_sec : flt) : list samples_t :=
  if (sample_rate <=? 0)%Z || is_empty raw_segments then drop_empty raw_segments
  else
    let max_segment_samples := to_samples sample_rate max_segment_duration_sec in
    let min_merge_samples := to_samples sample_rate min_merge_duration_sec in
    if max_segment_samples =? 0 then drop_empty raw_segments
    else foldl (coalesce_step max_segment_samples min_merge_samples) [] raw_segments.

(** ** VadTrimmer *)

Record VadTrimParams := {
  vp_threshold : flt; vp_min_speech_duration : flt; vp_min_silence_duration : flt;
  max_speech_duration : flt; vp_speech_pad_ms : Z;
}.

Definition default_vad_params : VadTrimParams :=
  {| vp_threshold := f32_lit 35 100; vp_min_speech_duration := f32_lit 10 100;
     vp_min_silence_duration := f32_lit 8 10; max_speech_duration := f32_of_Z 15; vp_speech_pad_ms := 500 |}.

(** [vad_]: the detector, when one was created, and whether it is valid. *)
Record VadTrimmer := { vad_ : option bool; sample_rate_ : Z; params_ : VadTrimParams }.

Definition new_trimmer : VadTrimmer :=
  {| vad_ := None; sample_rate_ := 16000; params_ := default_vad_params |}.

Definition Available (t : VadTrimmer) : bool := match vad_ t with Some valid => valid | None => false end.

(** [isnan(x) || isinf(x) || x <= 0] *)
Definition bad_duration (x : flt) : bool := negb (is_finite x) || SFleb x (f32_of_Z 0).
Definition duration_or (x fallback : flt) : flt := if bad_duration x then fallback else x.

Definition sanitize (p : VadTrimParams) : VadTrimParams :=
  {| vp_threshold := vp_threshold p;
     vp_min_speech_duration := duration_or (vp_min_speech_duration p) (f32_lit 10 100);
     vp_min_silence_duration := duration_or (vp_min_silence_duration p) (f32_lit 8 10);
     max_speech_duration := duration_or (max_speech_duration p) (f32_of_Z 15);
     vp_speech_pad_ms := vp_speech_pad_ms p |}.

(** [create]: the detector the library makes for the configuration. *)
Definition Init (create : VadTrimParams -> option bool) (t : VadTrimmer) (model_path : bytes)
    (sample_rate : Z) (params : VadTrimParams) : result unit * VadTrimmer :=
  if Available t then (Ok tt, t)
  else
    let p := sanitize params in
    match create p with
    | None => (Err ("failed to create VAD from '" ++ model_path ++ "'"),
               {| vad_ := vad_ t; sample_rate_ := sample_rate_ t; params_ := p |})
    | Some vad => (Ok tt, {| vad_ := Some vad; sample_rate_ := sample_rate; params_ := p |})
    end.

Definition Shutdown (t : VadTrimmer) : VadTrimmer :=
  {| vad_ := None; sample_rate_ := sample_rate_ t; params_ := params_ t |}.

Definition kWindowSize : nat := 512.
Definition zero_sample : flt := S754_zero false.

(** The windows handed to the detector: full ones, then a zero-padded tail. Positions
    are [int]s in the code; a recording has fewer than 2^31 samples. *)
Fixpoint feed_windows (fuel : nat) (samples : samples_t) (offset n : nat) : list samples_t :=
  match fuel with
  | O => []
  | S fuel =>
      if offset + kWindowSize <=? n
      then take kWindowSize (drop offset samples) :: feed_windows fuel samples (offset + kWindowSize) n
      else if offset <? n
      then [take (n - offset) (drop offset samples) ++ replicate (kWindowSize - (n - offset)) zero_sample]
      else []
  end.
Definition FeedWaveformToVad (samples : samples_t) : list samples_t :=
  feed_windows (S (length samples)) samples 0 (length samples).

(** [samples.begin() + a .. samples.begin() + b] *)
Definition slice (samples : samples_t) (a b : Z) : samples_t :=
  take (Z.to_nat (b - a)) (drop (Z.to_nat a) samples).

Section detector.
(** The segments reported for the windows: start and number of samples. *)
Context (detect : list samples_t -> list (Z * nat)).

(** The outer bounds over the non-empty segments. *)
Definition bounds_step (b : Z * Z) (seg : Z * nat) : Z * Z :=
  if seg.2 =? 0 then b
  else
    let seg_end := (seg.1 + Z.of_nat seg.2)%Z in
    (if (b.1 <? 0)%Z || (seg.1 <? b.1)%Z then seg.1 else b.1, Z.max b.2 seg_end).

Definition padding (pad_ms rate : Z) : Z := Z.max 0 (Z.quot (pad_ms * rate) 1000).

(** The bounds of the cut; [None]: the recording is returned as it is. *)
Definition trim_range (t : VadTrimmer) (total_n earliest latest : Z) : option (Z * Z) :=
  if (latest <=? earliest)%Z then None
  else
    let pad := padding (vp_speech_pad_ms (params_ t)) (sample_rate_ t) in
    let cut_start := Z.max 0 (earliest - pad) in
    let cut_end := Z.min total_n (latest + pad) in
    if (cut_start <=? 0)%Z && (total_n <=? cut_end)%Z then None
    else if (cut_end <=? cut_start)%Z then None
    else Some (cut_start, cut_end).

Definition TrimVad (t : VadTrimmer) (samples : samples_t) : samples_t :=
  if negb (Available t) || is_empty samples then samples
  else
    let '(earliest, latest) := foldl bounds_step (-1, -1)%Z (detect (FeedWaveformToVad samples)) in
    if (earliest <? 0)%Z then []
    else
      match trim_range t (Z.of_nat (length samples)) earliest latest with
      | None => samples
      | Some (cut_start, cut_end) => slice samples cut_start cut_end
      end.

(** The detected, non-empty ranges. *)
Definition detected (samples : samples_t) : list (Z * Z) :=
  omap (fun seg => if seg.2 =? 0 then None else Some (seg.1, (seg.1 + Z.of_nat seg.2)%Z))
    (detect (FeedWaveformToVad samples)).

Definition trailing_cut (pad total_n raw_end : Z) (next : option (Z * Z)) : Z :=
  match next with
  | None => Z.min total_n (raw_end + pad)
  | Some (next_raw_start, _) =>
      let gap := (next_raw_start - raw_end)%Z in
      if (2 * pad <=? gap)%Z then (raw_end + pad)%Z
      else if (0 <? gap)%Z then (raw_end + gap / 2)%Z
      else raw_end
  end.

(** The cuts of the recording, empty ones included. [None]: [std::clamp] with its bounds
    crossed, which is undefined. *)
Fixpoint cut_loop (pad total_n last_cut_end : Z) (l : list (Z * Z)) : option (list (Z * Z)) :=
  match l with
  | [] => Some []
  | (raw_start, raw_end) :: l =>
      let cut_start := Z.max last_cut_end (Z.max 0 (raw_start - pad)) in
      if (total_n <? cut_start)%Z then None
      else
        let cut_end := Z.min (Z.max (trailing_cut pad total_n raw_end (head l)) cut_start) total_n in
        cuts ← cut_loop pad total_n cut_end l;
        Some ((cut_start, cut_end) :: cuts)
  end.

Definition raw_segments_of (samples : samples_t) (cuts : list (Z * Z)) : list samples_t :=
  (fun '(a, b) => slice samples a b) <$> filter (fun c => (c.1 < c.2)%Z) cuts.

Definition SegmentVad (t : VadTrimmer) (samples : samples_t) (sample_rate : Z) : option (list samples_t) :=
  if negb (Available t) || is_empty samples then Some [samples]
  else
    let d := detected samples in
    if is_empty d then Some []
    else
      let effective_sr := if (0 <? sample_rate)%Z then sample_rate else sample_rate_ t in
      let pad := padding (vp_speech_pad_ms (params_ t)) effective_sr in
      cuts ← cut_loop pad (Z.of_nat (length samples)) 0 d;
      let max_duration := duration_or (max_speech_duration (params_ t)) (f32_of_Z 15) in
      Some (CoalesceAndSliceSegments (raw_segments_of samples cuts) effective_sr max_duration (f32_lit 50 100)).
End detector.

(** ** Windows *)

Lemma feed_windows_spec fuel samples offset :
  (offset <= length samples)%nat -> (length samples - offset < fuel)%nat ->
  Forall (fun w => length w = kWindowSize) (feed_windows fuel samples offset (length samples)) /\
  exists k, (k < kWindowSize)%nat /\
    concat (feed_windows fuel samples offset (length samples)) = drop offset samples ++ replicate k zero_sample.
Proof.
  revert offset. induction fuel as [|fuel IH]; intros offset Hle Hf; [lia|]. cbn [feed_windows].
  unfold kWindowSize in *. destruct (Nat.leb_spec (offset + 512) (length samples)).
  - destruct (IH (offset + 512)) as [Hall (k & Hk & Hc)]; [lia..|]. split.
    + constructor; [|done]. rewrite length_take, length_drop. lia.
    + exists k. split; [done|]. cbn [concat]. rewrite Hc, app_assoc. f_equal.
      rewrite <-(take_drop 512 (drop offset samples)) at 2. by rewrite drop_drop.
  - destruct (Nat.ltb_spec offset (length samples)).
    + split.
      * constructor; [|constructor]. rewrite length_app, length_take, length_drop, length_replicate. lia.
      * eexists. split; [|cbn [concat]; rewrite app_nil_r, take_ge by (rewrite length_drop; lia); reflexivity]. lia.
    + split; [constructor|]. exists 0. split; [lia|]. rewrite drop_ge by lia. done.
Qed.

(** The detector hears the whole recording: the windows it is fed all have 512 samples
    and together are the recording followed by fewer than 512 zeros. *)
Theorem FeedWaveformToVad_complete samples :
  Forall (fun w => length w = kWindowSize) (FeedWaveformToVad samples) /\
  exists k, (k < kWindowSize)%nat /\ concat (FeedWaveformToVad samples) = samples ++ replicate k zero_sample.
Proof. apply (feed_windows_spec (S (length samples)) samples 0); lia. Qed.

(** ** Slicing and merging *)

Lemma slice_loop_spec fuel seg offset max :
  (0 < max)%nat -> (length seg - offset < fuel)%nat ->
  concat (slice_loop fuel seg offset max) = drop offset seg /\
  Forall (fun s => s <> [] /\ (length s <= max)%nat) (slice_loop fuel seg offset max).
Proof.
  intros Hm. revert offset. induction fuel as [|fuel IH]; intros offset Hf; [lia|]. cbn [slice_loop].
  destruct (Nat.ltb_spec offset (length seg)); [|rewrite drop_ge by lia; by split].
  destruct (IH (offset + max)) as [Hc Hall]; [lia|]. split.
  - cbn [concat]. rewrite Hc. rewrite <-(take_drop (Nat.min max (length seg - offset)) (drop offset seg)) at 2.
    f_equal. rewrite drop_drop. destruct (Nat.le_ge_cases max (length seg - offset)).
    + f_equal. lia.
    + rewrite !drop_ge by lia. done.
  - constructor; [|done]. split.
    + intros Hn. apply (f_equal length) in Hn. rewrite length_take, length_drop in Hn. simpl in Hn. lia.
    + rewrite length_take. lia.
Qed.

Definition segment_ok (max : nat) (s : samples_t) : Prop := s <> [] /\ (length s <= max)%nat.

Lemma coalesce_step_spec max merge result seg :
  (0 < max)%nat -> Forall (segment_ok max) result ->
  concat (coalesce_step max merge result seg) = concat result ++ seg /\
  Forall (segment_ok max) (coalesce_step max merge result seg).
Proof.
  intros Hm Hok. unfold coalesce_step. destruct (is_empty seg) eqn:He.
  { apply is_empty_true in He as ->. by rewrite app_nil_r. }
  apply is_empty_false in He.
  assert ((length seg <= max)%nat -> concat (result ++ [seg]) = concat result ++ seg /\
    Forall (segment_ok max) (result ++ [seg])) as Hpush.
  { intros Hl. rewrite concat_app. simpl. rewrite app_nil_r. split; [done|].
    apply Forall_app. split; [done|]. by constructor. }
  destruct (Nat.ltb_spec max (length seg)).
  - destruct (slice_loop_spec (S (length seg)) seg 0 max) as [Hc Hall]; [lia..|].
    rewrite concat_app, Hc. split; [done|]. by apply Forall_app.
  - destruct (last result) as [back|] eqn:Hl; [|auto].
    destruct (_ && _) eqn:Hb; [|auto]. apply andb_true_iff in Hb as [_ Hb%Nat.leb_le].
    apply last_Some in Hl as [pre ->]. rewrite List.removelast_last, !concat_app. simpl.
    rewrite !app_nil_r, <-app_assoc. split; [done|]. apply Forall_app in Hok as [Hp [Hn _]%Forall_cons].
    apply Forall_app. split; [done|]. constructor; [|done]. split.
    + destruct Hn as [Hn _]. by destruct back.
    + rewrite length_app. lia.
Qed.

Lemma coalesce_spec max merge raw result :
  (0 < max)%nat -> Forall (segment_ok max) result ->
  concat (foldl (coalesce_step max merge) result raw) = concat result ++ concat raw /\
  Forall (segment_ok max) (foldl (coalesce_step max merge) result raw).
Proof.
  intros Hm. revert result. induction raw as [|seg raw IH]; intros result Hok; simpl; [by rewrite app_nil_r|].
  destruct (coalesce_step_spec max merge result seg Hm Hok) as [Hc Hok'].
  destruct (IH _ Hok') as [Hc' Hall]. split; [|done]. by rewrite Hc', Hc, app_assoc.
Qed.

Lemma drop_empty_spec raw :
  concat (drop_empty raw) = concat raw /\ Forall (fun s => s <> []) (drop_empty raw).
Proof.
  unfold drop_empty. split.
  - induction raw as [|s raw IH]; [done|]. rewrite filter_cons. case_decide as Hd; simpl; [by rewrite IH|].
    destruct s; [done|]. by destruct Hd.
  - apply Forall_forall. intros s [Hs _]%list_elem_of_filter. by apply is_empty_false.
Qed.

Lemma Coalesce_correct raw rate max_sec merge_sec :
  let result := CoalesceAndSliceSegments raw rate max_sec merge_sec in
  concat result = concat raw /\ Forall (fun s => s <> []) result /\
  ((0 < rate)%Z -> (0 < to_samples rate max_sec)%nat ->
   Forall (fun s => (length s <= to_samples rate max_sec)%nat) result).
Proof.
  unfold CoalesceAndSliceSegments. destruct (drop_empty_spec raw) as [Hd1 Hd2].
  destruct (Z.leb_spec rate 0); simpl; [split_and!; [done..|lia]|].
  destruct (is_empty raw) eqn:He.
  { apply is_empty_true in He as ->. split_and!; done. }
  destruct (Nat.eqb_spec (to_samples rate max_sec) 0); [split_and!; [done..|lia]|].
  destruct (coalesce_spec (to_samples rate max_sec) (to_samples rate merge_sec) raw []) as [Hc Hall]; [lia|done|].
  split_and!; [done| |intros _ _]; (eapply Forall_impl; [exact Hall|]); by intros s [].
Qed.

(** Slicing and merging lose nothing: the segments handed to the recogniser are, end
    to end, exactly the samples of the raw segments in order; none is empty, and none is
    longer than the configured maximum whenever that maximum is at least one sample. *)
Theorem CoalesceAndSliceSegments_correct raw rate max_sec merge_sec :
  let result := CoalesceAndSliceSegments raw rate max_sec merge_sec in
  concat result = concat raw /\ Forall (fun s => s <> []) result /\
  ((0 < rate)%Z -> (0 < to_samples rate max_sec)%nat ->
   Forall (fun s => (length s <= to_samples rate max_sec)%nat) result).
Proof. apply Coalesce_correct. Qed.

(** ** Trimming *)

Lemma padding_nonneg pad_ms rate : (0 <= padding pad_ms rate)%Z.
Proof. unfold padding. lia. Qed.

Lemma bounds_spec segs e l :
  (e = -1 /\ l = -1 \/ 0 <= e < l)%Z -> Forall (fun s => 0 <= s.1)%Z segs ->
  let b := foldl bounds_step (e, l) segs in
  (b.1 = -1 /\ b.2 = -1 /\ Forall (fun s => s.2 = 0%nat) segs /\ e = -1
   \/ 0 <= b.1 < b.2 /\ (e < 0 \/ b.1 <= e) /\ l <= b.2 /\
      Forall (fun s => s.2 = 0%nat \/ b.1 <= s.1 /\ s.1 + Z.of_nat s.2 <= b.2) segs)%Z.
Proof.
  revert e l. induction segs as [|[start len] segs IH]; intros e l Hinv Hs; simpl.
  { destruct Hinv as [[-> ->]|Hel]; [by left|right]. split_and!; auto; lia. }
  apply Forall_cons in Hs as [Hstart Hs]. simpl in Hstart.
  assert (bounds_step (e, l) (start, len) = if (len =? 0)%nat then (e, l) else
    (if (e <? 0)%Z || (start <? e)%Z then start else e, Z.max l (start + Z.of_nat len)%Z)) as -> by done.
  destruct (Nat.eqb_spec len 0) as [->|Hlen].
  - destruct (IH e l Hinv Hs) as [(H1 & H2 & Hall & He)|(H1 & H2 & H3 & Hall)]; [left|right];
      split_and!; try lia; try done; by constructor; auto.
  - set (e' := if ((e <? 0)%Z || (start <? e)%Z)%bool then start else e). set (l' := Z.max _ _).
    assert (0 <= e' < l' /\ e' <= start /\ (e < 0 \/ e' <= e) /\ l <= l' /\ start + Z.of_nat len <= l')%Z as He'.
    { unfold e', l'. destruct (Z.ltb_spec e 0), (Z.ltb_spec start e); simpl; lia. }
    destruct (IH e' l') as [(_ & _ & _ & H2)|(H1 & H2 & H3 & Hall)]; [right; lia|done|exfalso; lia|].
    right. split_and!; [lia..|]. constructor; [|done]. simpl. right. lia.
Qed.

Lemma trim_range_spec t n e l a b :
  (0 <= e)%Z -> trim_range t n e l = Some (a, b) ->
  (0 <= a < b /\ b <= n /\ a <= e /\ Z.min n l <= b)%Z.
Proof.
  unfold trim_range. intros He. pose proof (padding_nonneg (vp_speech_pad_ms (params_ t)) (sample_rate_ t)).
  destruct (Z.leb_spec l e); [done|]. destruct (_ && _)%bool; [done|].
  destruct (Z.leb_spec (Z.min n (l + padding (vp_speech_pad_ms (params_ t)) (sample_rate_ t)))
    (Z.max 0 (e - padding (vp_speech_pad_ms (params_ t)) (sample_rate_ t)))); [done|].
  intros [= <- <-]. lia.
Qed.

Lemma slice_all samples : slice samples 0 (Z.of_nat (length samples)) = samples.
Proof. unfold slice. simpl. rewrite Z.sub_0_r, Nat2Z.id. by apply take_ge. Qed.

(** Trimming removes only outer silence: without a detector the recording is returned
    as it is; a recording without speech becomes empty; otherwise the result is one
    contiguous part of the recording that contains every sample of every detected
    segment, pauses between the segments included. *)
Theorem TrimVad_keeps_speech detect t samples :
  let segs := detect (FeedWaveformToVad samples) in
  Forall (fun s => 0 <= s.1)%Z segs ->
  if Available t && negb (is_empty samples)
  then (Forall (fun s => s.2 = 0%nat) segs /\ TrimVad detect t samples = []) \/
    exists a b, (0 <= a <= b /\ b <= Z.of_nat (length samples))%Z /\ TrimVad detect t samples = slice samples a b /\
      Forall (fun s => s.2 = 0%nat \/ a <= s.1 /\ Z.min (Z.of_nat (length samples)) (s.1 + Z.of_nat s.2) <= b)%Z segs
  else TrimVad detect t samples = samples.
Proof.
  intros segs Hs. unfold TrimVad. destruct (Available t); [|done].
  destruct (is_empty samples) eqn:He; [done|]. cbn [andb negb orb].
  pose proof (bounds_spec segs (-1) (-1) (or_introl (conj eq_refl eq_refl)) Hs) as Hb. fold segs.
  destruct (foldl bounds_step _ segs) as [e l]; cbn [fst snd] in Hb.
  destruct Hb as [(-> & -> & Hall & _)|(Hel & _ & _ & Hall)]; [by left|right].
  destruct (Z.ltb_spec e 0); [lia|]. destruct (trim_range _ _ e l) as [[a b]|] eqn:Ht.
  - apply trim_range_spec in Ht as (? & ? & ? & ?); [|done]. exists a, b. split_and!; [lia..|done|].
    eapply Forall_impl; [exact Hall|]. intros [s len]; simpl. lia.
  - exists 0%Z, (Z.of_nat (length samples)). split_and!; [lia..|by rewrite slice_all|].
    eapply Forall_impl; [exact Hall|]. intros [s len]; simpl. lia.
Qed.

(** ** Cutting into utterances *)

(** Ranges in order that do not overlap. *)
Fixpoint separated (from : Z) (l : list (Z * Z)) : Prop :=
  match l with
  | [] => True
  | (a, b) :: l => (from <= a <= b)%Z /\ separated b l
  end.

Lemma separated_weaken from from' l : (from' <= from)%Z -> separated from l -> separated from' l.
Proof. destruct l as [|[a b] l]; simpl; [done|]. intuition lia. Qed.

(** What a cut guarantees of the detected range it belongs to. *)
Definition covers (n : Z) (cut raw : Z * Z) : Prop :=
  (0 <= cut.1 <= cut.2 /\ cut.2 <= n /\ cut.1 <= raw.1 /\ Z.min n raw.2 <= cut.2)%Z.

Lemma cut_loop_spec pad n last l :
  (0 <= pad)%Z -> (0 <= last <= n)%Z -> separated last l -> Forall (fun r => r.1 <= n)%Z l ->
  exists cuts, cut_loop pad n last l = Some cuts /\ separated last cuts /\ Forall2 (covers n) cuts l.
Proof.
  intros Hp. revert last. induction l as [|[a b] l IH]; intros last Hlast Hsep Hn.
  { exists []. split; [done|]. split; [done|constructor]. }
  cbn [separated] in Hsep. destruct Hsep as [Hab Hsep]. apply Forall_cons in Hn as [Ha Hn]. simpl in Ha.
  cbn [cut_loop]. set (cs := Z.max last _).
  assert (last <= cs <= a /\ cs <= n)%Z as Hcs by (unfold cs; lia).
  destruct (Z.ltb_spec n cs); [lia|].
  assert (Z.min n b <= trailing_cut pad n b (head l) /\
    match head l with Some (a', _) => trailing_cut pad n b (head l) <= a' | None => True end)%Z as [Ht1 Ht2].
  { unfold trailing_cut. destruct l as [|[a' b'] l]; simpl; [lia|]. simpl in Hsep.
    destruct (Z.leb_spec (2 * pad) (a' - b)); [lia|]. destruct (Z.ltb_spec 0 (a' - b)); [|lia].
    pose proof (Z.div_pos (a' - b) 2). pose proof (Z.mul_div_le (a' - b) 2). lia. }
  set (ce := Z.min _ n). assert (cs <= ce <= n /\ Z.min n b <= ce)%Z as Hce by (unfold ce; lia).
  destruct (IH ce) as (cuts & -> & Hs & Hc); [lia| |done|].
  { destruct l as [|[a' b'] l]; [done|]. simpl in Hsep, Ht2 |- *. destruct Hsep as [Hsep Hrest]. split; [|done]. unfold ce; simpl. lia. }
  exists ((cs, ce) :: cuts). split; [done|]. split; [split; [lia|done]|].
  constructor; [|done]. unfold covers; simpl. lia.
Qed.

Lemma concat_raw_segments samples cuts :
  concat (raw_segments_of samples cuts) = concat ((fun '(a, b) => slice samples a b) <$> cuts).
Proof.
  unfold raw_segments_of. induction cuts as [|[a b] cuts IH]; [done|]. rewrite filter_cons.
  case_decide as Hd; cbn [fst snd] in Hd; rewrite !fmap_cons; cbn [concat]; rewrite IH; [done|].
  assert (slice samples a b = []) as ->; [|done]. unfold slice. by replace (Z.to_nat (b - a)) with 0%nat by lia.
Qed.

(** Ordered cuts are a subsequence of the recording. *)
Lemma slices_sublist samples from cuts :
  (0 <= from)%Z -> separated from cuts ->
  sublist (concat ((fun '(a, b) => slice samples a b) <$> cuts)) (drop (Z.to_nat from) samples).
Proof.
  revert from. induction cuts as [|[a b] cuts IH]; intros from Hf; simpl; [intros _; apply sublist_nil_l|].
  intros [Hab Hs]. specialize (IH b ltac:(lia) Hs). unfold slice at 1.
  transitivity (drop (Z.to_nat a) samples).
  - rewrite <-(take_drop (Z.to_nat (b - a)) (drop (Z.to_nat a) samples)) at 2. apply sublist_app; [done|].
    rewrite drop_drop. by replace (Z.to_nat a + Z.to_nat (b - a))%nat with (Z.to_nat b) by lia.
  - replace (Z.to_nat a) with (Z.to_nat from + Z.to_nat (a - from))%nat by lia. rewrite <-drop_drop.
    apply sublist_drop.
Qed.

Lemma SegmentVad_spec detect t samples rate :
  Available t = true -> samples <> [] ->
  separated 0 (detected detect samples) ->
  Forall (fun r => r.1 <= Z.of_nat (length samples))%Z (detected detect samples) ->
  exists result cuts, SegmentVad detect t samples rate = Some result /\
    concat result = concat ((fun '(a, b) => slice samples a b) <$> cuts) /\
    separated 0 cuts /\ Forall2 (covers (Z.of_nat (length samples))) cuts (detected detect samples) /\
    sublist (concat result) samples /\ Forall (fun s => s <> []) result.
Proof.
  intros Hav Hne Hsep Hn. unfold SegmentVad. rewrite Hav. apply is_empty_false in Hne. rewrite Hne. cbn [negb orb].
  destruct (is_empty (detected detect samples)) eqn:Hd.
  { apply is_empty_true in Hd as ->. exists [], []. split_and!; try done. apply sublist_nil_l. }
  set (sr := if (0 <? rate)%Z then rate else sample_rate_ t).
  destruct (cut_loop_spec (padding (vp_speech_pad_ms (params_ t)) sr) (Z.of_nat (length samples)) 0
    (detected detect samples)) as (cuts & -> & Hs & Hc); [apply padding_nonneg|lia|done..|].
  cbn [mbind option_bind]. eexists _, cuts. split; [done|].
  destruct (Coalesce_correct (raw_segments_of samples cuts) sr
    (duration_or (max_speech_duration (params_ t)) (f32_of_Z 15)) (f32_lit 50 100)) as (Hcat & Hnonempty & _).
  rewrite Hcat, concat_raw_segments. split_and!; try done. by apply (slices_sublist samples 0).
Qed.

(** Segmentation keeps all speech, once and in order: when the detector reports
    non-overlapping segments in order that start inside the recording, the result is
    defined; end to end it is the concatenation of ordered, disjoint cuts of the
    recording, one per detected segment and containing it, so it is a subsequence of the
    recording in which no sample is repeated. *)
Theorem SegmentVad_keeps_speech detect t samples rate :
  Available t = true -> samples <> [] ->
  separated 0 (detected detect samples) ->
  Forall (fun r => r.1 <= Z.of_nat (length samples))%Z (detected detect samples) ->
  exists result cuts, SegmentVad detect t samples rate = Some result /\
    concat result = concat ((fun '(a, b) => slice samples a b) <$> cuts) /\
    separated 0 cuts /\ Forall2 (covers (Z.of_nat (length samples))) cuts (detected detect samples) /\
    sublist (concat result) samples /\ Forall (fun s => s <> []) result.
Proof. apply SegmentVad_spec. Qed.

(** ** Initialisation *)

(** Whatever durations the configuration holds, the detector is created with finite,
    positive ones, and a failed creation leaves the trimmer unavailable. *)
Lemma Init_params create t model rate params r t' :
  Init create t model rate params = (r, t') -> Available t = false ->
  bad_duration (max_speech_duration (params_ t')) = false /\
  bad_duration (vp_min_silence_duration (params_ t')) = false /\
  bad_duration (vp_min_speech_duration (params_ t')) = false /\
  match r with Ok _ => create (params_ t') = vad_ t' | Err _ => Available t' = false end.
Proof.
  unfold Init. intros Hi Hav. rewrite Hav in Hi.
  assert (forall x d, bad_duration d = false -> bad_duration (duration_or x d) = false) as Hd.
  { intros x d Hd. unfold duration_or. by destruct (bad_duration x) eqn:E. }
  destruct (create (sanitize params)) as [v|] eqn:Ec; injection Hi as <- <-; cbn [params_ sanitize max_speech_duration
    vp_min_silence_duration vp_min_speech_duration vad_ Available]; split_and!;
    first [apply Hd; vm_compute; reflexivity | done].
Qed.

Definition demo_trimmer : VadTrimmer :=
  {| vad_ := Some true; sample_rate_ := 16000; params_ := sanitize (default_vad_params) |}.
(** Two utterances in a recording of six samples; padding is one sample at 2 Hz. *)
Definition demo_detect : list samples_t -> list (Z * nat) := fun _ => [(1%Z, 1%nat); (4%Z, 1%nat)].
Definition demo_samples : samples_t := f32_of_Z <$> [0; 1; 2; 3; 4; 5]%Z.

Lemma TrimVad_keeps_speech_witness :
  (Forall (fun s => s.2 = 0%nat) (demo_detect (FeedWaveformToVad demo_samples)) /\
     TrimVad demo_detect demo_trimmer demo_samples = []) \/
  exists a b, (0 <= a <= b /\ b <= Z.of_nat (length demo_samples))%Z /\
    TrimVad demo_detect demo_trimmer demo_samples = slice demo_samples a b /\
    Forall (fun s => s.2 = 0%nat \/ a <= s.1 /\ Z.min (Z.of_nat (length demo_samples)) (s.1 + Z.of_nat s.2) <= b)%Z
      (demo_detect (FeedWaveformToVad demo_samples)).
Proof.
  apply (TrimVad_keeps_speech demo_detect demo_trimmer demo_samples). repeat constructor; simpl; lia.
Defined.

Lemma SegmentVad_keeps_speech_witness :
  exists result cuts, SegmentVad demo_detect demo_trimmer demo_samples 2 = Some result /\
    concat result = concat ((fun '(a, b) => slice demo_samples a b) <$> cuts) /\
    separated 0 cuts /\ Forall2 (covers (Z.of_nat (length demo_samples))) cuts (detected demo_detect demo_samples) /\
    sublist (concat result) demo_samples /\ Forall (fun s => s <> []) result.
Proof.
  apply (SegmentVad_keeps_speech demo_detect demo_trimmer demo_samples 2);
    [reflexivity|discriminate|simpl; lia|repeat constructor; simpl; lia].
Defined.
