(* ===== verification/RecognitionContract.v ===== *)
(** * The recognition contract (src/src/daemon/asr/runtime/recognition_contract.h)

    The interface between the runtime and the recognition backends: a session is
    a state with the operations of [RecognitionSession]; the model files that use
    one take the operations as a parameter. *)

From S2P Require Import Prelude Floats AudioUtils.
From Stdlib Require Import SpecFloat.

Definition kMinSamplesForRecognition : N := 8000.

Inductive AudioDeliveryMode := Buffered | Chunked.

#[export] Instance AudioDeliveryMode_eq_dec : EqDecision AudioDeliveryMode.
Proof. solve_decision. Defined.

Inductive RecognitionEventKind := PartialText | FinalText | ErrorEvent | Completed.

#[export] Instance RecognitionEventKind_eq_dec : EqDecision RecognitionEventKind.
Proof. solve_decision. Defined.

Record RecognitionEvent := { ev_kind : RecognitionEventKind; ev_text : bytes; ev_error : bytes }.

#[export] Instance RecognitionEvent_eq_dec : EqDecision RecognitionEvent.
Proof. solve_decision. Defined.

Record BackendCapabilities := {
  audio_delivery_mode : AudioDeliveryMode;
  supports_streaming : bool;
  supports_partial_results : bool;
  requires_network : bool;
  supports_hotwords : bool;
}.

Record BackendDescriptor := {
  bd_provider_id : bytes;
  bd_provider_type : bytes;
  bd_backend_id : bytes;
  bd_capabilities : BackendCapabilities;
}.

(** The virtual operations of [RecognitionSession] over a session state [S]. A
    [bool] with an error out-parameter is a [result unit]; a failing call may
    leave the message empty. *)
Class RecognitionSession (S : Type) := {
  session_push : list Z -> S -> result unit * S;
  session_finish : S -> result unit * S;
  session_cancel : S -> S;
  session_interrupt : S -> S;
  session_poll : S -> list RecognitionEvent * S;
}.

(** The interface [AsrBackend]: a backend of type [B] creates sessions of type [S]. *)
Class AsrBackend (B S : Type) := {
  Describe : B -> BackendDescriptor;
  BackendCreateSession : B -> result S;
}.

(** One sample of the default [PushAudio(std::span<const float>)]. *)
Definition float_sample (val : flt) : option Z :=
  if negb (is_finite val) then Some 0%Z else clamp_to_i16 (f32_mul val (f32_of_Z 32768)).

Definition PushAudioFloat {S} `{RecognitionSession S} (samples : list flt) (s : S)
  : option (result unit * S) :=
  pcm ← mapM float_sample samples; Some (session_push pcm s).

(** Every float sample converts to a 16-bit sample, infinities and NaN included. *)
Lemma float_sample_total val : exists z, float_sample val = Some z /\ is_i16 z.
Proof.
  unfold float_sample. destruct (is_finite val) eqn:Hf; simpl; [|exists 0%Z; split; [done|unfold is_i16; lia]].
  destruct (SFmul_fits f32_prec f32_emax val (f32_of_Z 32768)) as [Hfit Hnan]; [done|done|reflexivity|].
  by apply clamp_to_i16_defined.
Qed.
