(* ===== verification/AsyncSession.v ===== *)
(** * The asynchronous session (src/src/daemon/asr/runtime/async_recognition_session.cpp)

    A bounded queue between the capture callback and one worker thread that owns
    the backend session. Every critical section of [mutex_] is one atomic step;
    the worker's position between them is its program counter [worker_pc], and
    client calls on other threads interleave with it freely. *)

From S2P Require Import Prelude RecognitionContract.

(** Where the worker thread stands in [Run]. *)
Inductive worker_pc :=
  | W_wait                                             (* wake_.wait(...) *)
  | W_push (chunk : list Z)                            (* backend_->PushAudio *)
  | W_poll_pushed                                      (* PollEvents after a push *)
  | W_poll_failed (error : bytes)                      (* PollEvents after a rejected push *)
  | W_fail (error : bytes) (evs : list RecognitionEvent) (* publish the failure *)
  | W_finish                                           (* backend_->Finish *)
  | W_poll_finished (res : result unit)                (* PollEvents after Finish *)
  | W_cancel                                           (* backend_->Cancel *)
  | W_poll_cancelled                                   (* PollEvents after Cancel *)
  | W_read_error                                       (* error = error_ *)
  | W_complete (success : bool) (error : bytes)        (* Complete(...) *)
  | W_append (evs : list RecognitionEvent) (next : worker_pc) (* AppendEvents *)
  | W_wake (next : worker_pc)                          (* InvokeWakeCallback *)
  | W_exit.

(** The calls the backend sees, in order. *)
Inductive backend_call :=
  | CallPush (chunk : list Z) (ok : bool)
  | CallFinish (ok : bool)
  | CallCancel.

Section async.
Context {State : Type} `{RecognitionSession State}.

Record AsyncRecognitionSession := {
  max_queued_samples : N;
  backend : State;
  queue : list (list Z);
  events : list RecognitionEvent;
  queued_samples : N;
  dropped_chunks : N;
  dropped_samples : N;
  finish_requested : bool;
  cancel_requested : bool;
  complete : bool;
  success : bool;
  backend_failed : bool;
  error_ : bytes;
  has_wake_callback : bool;
  worker : worker_pc;
  (* observations *)
  accepted : list (list Z);      (* non-empty chunks PushAudio accepted *)
  calls : list backend_call;     (* backend calls so far *)
  wakes : N;                     (* wake callback invocations *)
}.

Definition new_session (b : State) (max : N) : AsyncRecognitionSession :=
  {| max_queued_samples := max; backend := b; queue := []; events := []; queued_samples := 0;
     dropped_chunks := 0; dropped_samples := 0; finish_requested := false;
     cancel_requested := false; complete := false; success := false; backend_failed := false;
     error_ := []; has_wake_callback := false; worker := W_wait;
     accepted := []; calls := []; wakes := 0 |}.

Definition kOverflowError : bytes :=
  "Streaming recognition queue overflowed; audio chunk was dropped.".
Definition kNotRecordingError : bytes := "Streaming session is no longer recording.".
Definition kRejectedError : bytes := "Streaming backend rejected audio.".

#[export] Instance async_fields : Fields AsyncRecognitionSession := fun a =>
  {| max_queued_samples := max_queued_samples a; backend := backend a; queue := queue a;
     events := events a; queued_samples := queued_samples a;
     dropped_chunks := dropped_chunks a; dropped_samples := dropped_samples a;
     finish_requested := finish_requested a; cancel_requested := cancel_requested a;
     complete := complete a; success := success a; backend_failed := backend_failed a;
     error_ := error_ a; has_wake_callback := has_wake_callback a; worker := worker a;
     accepted := accepted a; calls := calls a; wakes := wakes a |}.

(** [PushAudio], on the capture thread. *)
Definition overflows (pcm : list Z) (a : AsyncRecognitionSession) : bool :=
  negb (is_empty pcm) &&
  ((max_queued_samples a <=? queued_samples a) ||
   (max_queued_samples a - queued_samples a <? size pcm))%N.

Definition PushAudio (pcm : list Z) (a : AsyncRecognitionSession)
  : result unit * AsyncRecognitionSession :=
  if cancel_requested a || finish_requested a || complete a then
    (Err (if is_empty (error_ a) then kNotRecordingError else error_ a), a)
  else if overflows pcm a then
    (Err kOverflowError,
     a <| dropped_chunks := if (dropped_chunks a <? u64_max)%N
                            then u64_add (dropped_chunks a) 1 else dropped_chunks a |>
       <| dropped_samples := if (u64_max - dropped_samples a <? size pcm)%N then u64_max
                             else u64_add (dropped_samples a) (size pcm) |>
       <| error_ := kOverflowError |>
       <| cancel_requested := true |>
       <| queue := [] |>
       <| queued_samples := 0%N |>)
  else if is_empty pcm then (Ok tt, a)
  else
    (Ok tt,
     a <| queue := queue a ++ [pcm] |>
       <| queued_samples := u64_add (queued_samples a) (size pcm) |>
       <| accepted := accepted a ++ [pcm] |>).

(** The first critical section of [Finish]; the wait for [complete_] follows. *)
Definition Finish_request (a : AsyncRecognitionSession) : AsyncRecognitionSession :=
  if negb (complete a) && negb (cancel_requested a) then a <| finish_requested := true |> else a.

(** The return of [Finish]: blocked ([None]) until the session is complete. *)
Definition Finish_return (a : AsyncRecognitionSession) : option (bool * bytes) :=
  if complete a then Some (success a, error_ a) else None.

(** [Cancel] up to the unlock; [Interrupt] of the backend follows when it took effect. *)
Definition Cancel_request (a : AsyncRecognitionSession) : AsyncRecognitionSession :=
  if complete a || cancel_requested a then a
  else a <| cancel_requested := true |> <| queue := [] |> <| queued_samples := 0%N |>.

Definition Interrupt (a : AsyncRecognitionSession) : AsyncRecognitionSession :=
  a <| backend := session_interrupt (backend a) |>.

Definition PollEvents (a : AsyncRecognitionSession)
  : list RecognitionEvent * AsyncRecognitionSession :=
  (events a, a <| events := [] |>).

Definition SetWakeCallback (callback : bool) (a : AsyncRecognitionSession)
  : AsyncRecognitionSession := a <| has_wake_callback := callback |>.

Definition FailureError (a : AsyncRecognitionSession) : option bytes :=
  if backend_failed a then Some (error_ a) else None.
Definition DroppedChunks (a : AsyncRecognitionSession) : N := dropped_chunks a.
Definition DroppedSamples (a : AsyncRecognitionSession) : N := dropped_samples a.

(** ** The worker thread *)

(** [AppendEvents]: nothing for an empty vector, else append and wake. *)
Definition AppendEvents (evs : list RecognitionEvent) (next : worker_pc)
    (a : AsyncRecognitionSession) : AsyncRecognitionSession :=
  if is_empty evs then a <| worker := next |>
  else a <| events := events a ++ evs |> <| worker := W_wake next |>.

Definition InvokeWakeCallback (next : worker_pc) (a : AsyncRecognitionSession)
  : AsyncRecognitionSession :=
  a <| wakes := if has_wake_callback a then (wakes a + 1)%N else wakes a |> <| worker := next |>.

Definition Complete (ok : bool) (error : bytes) (a : AsyncRecognitionSession)
  : AsyncRecognitionSession :=
  a <| complete := true |> <| success := ok |> <| error_ := error |> <| worker := W_exit |>.

(** A backend call of the worker: the new backend state, recorded. *)
Definition called (c : backend_call) (b : State) (a : AsyncRecognitionSession)
  : AsyncRecognitionSession := a <| backend := b |> <| calls := calls a ++ [c] |>.

(** The critical section that publishes a rejected push. *)
Definition publish_failure (e : bytes) (a : AsyncRecognitionSession) : AsyncRecognitionSession :=
  a <| error_ := if is_empty e then kRejectedError else e |>
    <| backend_failed := true |>
    <| cancel_requested := true |>
    <| queue := [] |>
    <| queued_samples := 0%N |>.

(** One step of [Run]; [None] while the wait predicate is false, and after the exit. *)
Definition Run (a : AsyncRecognitionSession) : option AsyncRecognitionSession :=
  match worker a with
  | W_wait =>
      if cancel_requested a then Some (a <| worker := W_cancel |>)
      else match queue a with
           | chunk :: q =>
               Some (a <| queue := q |>
                       <| queued_samples := u64_sub (queued_samples a) (size chunk) |>
                       <| worker := W_push chunk |>)
           | [] => if finish_requested a then Some (a <| worker := W_finish |>) else None
           end
  | W_push chunk =>
      let '(r, b) := session_push chunk (backend a) in
      Some (match r with
            | Ok _ => called (CallPush chunk true) b a <| worker := W_poll_pushed |>
            | Err e => called (CallPush chunk false) b a <| worker := W_poll_failed e |>
            end)
  | W_poll_pushed =>
      let '(evs, b) := session_poll (backend a) in
      Some (a <| backend := b |> <| worker := W_append evs W_wait |>)
  | W_poll_failed e =>
      let '(evs, b) := session_poll (backend a) in
      Some (a <| backend := b |> <| worker := W_fail e evs |>)
  | W_fail e evs =>
      Some (publish_failure e a <| worker := W_append evs (W_wake W_cancel) |>)
  | W_finish =>
      let '(r, b) := session_finish (backend a) in
      Some (called (CallFinish (match r with Ok _ => true | Err _ => false end)) b a
              <| worker := W_poll_finished r |>)
  | W_poll_finished r =>
      let '(evs, b) := session_poll (backend a) in
      Some (a <| backend := b |>
              <| worker := W_append evs (match r with
                                         | Ok _ => W_complete true []
                                         | Err e => W_complete false e
                                         end) |>)
  | W_cancel => Some (called CallCancel (session_cancel (backend a)) a <| worker := W_poll_cancelled |>)
  | W_poll_cancelled =>
      let '(evs, b) := session_poll (backend a) in
      Some (a <| backend := b |> <| worker := W_append evs W_read_error |>)
  | W_read_error => Some (a <| worker := W_complete false (error_ a) |>)
  | W_complete ok e => Some (Complete ok e a)
  | W_append evs next => Some (AppendEvents evs next a)
  | W_wake next => Some (InvokeWakeCallback next a)
  | W_exit => None
  end.

(** What the other threads may do between two worker steps. *)
Inductive client_op :=
  | OpPushAudio (pcm : list Z)
  | OpFinish
  | OpCancel
  | OpInterrupt
  | OpPollEvents
  | OpSetWakeCallback (callback : bool).

Definition client_step (o : client_op) (a : AsyncRecognitionSession) : AsyncRecognitionSession :=
  match o with
  | OpPushAudio pcm => (PushAudio pcm a).2
  | OpFinish => Finish_request a
  | OpCancel => Cancel_request a
  | OpInterrupt => Interrupt a
  | OpPollEvents => (PollEvents a).2
  | OpSetWakeCallback c => SetWakeCallback c a
  end.

(** One step of an interleaved execution: a client operation or a worker step. *)
Inductive async_step (a : AsyncRecognitionSession) : AsyncRecognitionSession -> Prop :=
  | step_client o : async_step a (client_step o a)
  | step_worker a' : Run a = Some a' -> async_step a a'.

(** ** The invariant *)

Definition total (q : list (list Z)) : N := foldr (fun c n => (size c + n)%N) 0%N q.

Definition pushed_chunk (c : backend_call) : option (list Z) :=
  match c with CallPush chunk _ => Some chunk | _ => None end.
(** The audio handed to the backend. *)
Definition delivered (cs : list backend_call) : list (list Z) := omap pushed_chunk cs.

Definition is_push (c : backend_call) : Prop := exists chunk ok, c = CallPush chunk ok.
Definition is_good_push (c : backend_call) : Prop := exists chunk, c = CallPush chunk true.

(** The backend was finished, respectively cancelled, by the last call and by no
    other, after pushes only. *)
Definition finished (cs : list backend_call) (ok : bool) : Prop :=
  exists ps, cs = ps ++ [CallFinish ok] /\ Forall is_good_push ps.
Definition cancelled (cs : list backend_call) : Prop :=
  exists ps, cs = ps ++ [CallCancel] /\ Forall is_push ps.

Fixpoint in_flight (pc : worker_pc) : list (list Z) :=
  match pc with
  | W_push chunk => [chunk]
  | W_append _ next | W_wake next => in_flight next
  | _ => []
  end.

(** Every accepted chunk reached the backend and none was dropped. *)
Definition lossless (a : AsyncRecognitionSession) : Prop :=
  finish_requested a = true /\ accepted a = delivered (calls a) /\ dropped_chunks a = 0%N.

Definition running (a : AsyncRecognitionSession) : Prop := complete a = false /\ success a = false.

Fixpoint pc_inv (pc : worker_pc) (a : AsyncRecognitionSession) : Prop :=
  match pc with
  | W_wait | W_poll_pushed | W_push _ =>
      running a /\ Forall is_good_push (calls a) /\ 
      (cancel_requested a = false ->
       accepted a = delivered (calls a) ++ in_flight pc ++ queue a /\ dropped_chunks a = 0%N)
  | W_poll_failed _ | W_fail _ _ => running a /\ Forall is_push (calls a)
  | W_cancel => running a /\ Forall is_push (calls a) /\ cancel_requested a = true
  | W_finish => running a /\ Forall is_good_push (calls a) /\ lossless a
  | W_poll_finished r =>
      running a /\ lossless a /\ finished (calls a) (match r with Ok _ => true | Err _ => false end)
  | W_poll_cancelled | W_read_error =>
      running a /\ cancelled (calls a) /\ cancel_requested a = true
  | W_complete true _ => running a /\ lossless a /\ finished (calls a) true
  | W_complete false _ => running a /\
      (lossless a /\ finished (calls a) false \/ cancelled (calls a) /\ cancel_requested a = true)
  | W_append _ next | W_wake next => pc_inv next a
  | W_exit => complete a = true /\
      (if success a then lossless a /\ finished (calls a) true
       else lossless a /\ finished (calls a) false \/ cancelled (calls a) /\ cancel_requested a = true)
  end.

Record async_inv (a : AsyncRecognitionSession) : Prop := {
  ai_max : (max_queued_samples a <= u64_max)%N;
  ai_count : queued_samples a = total (queue a);
  ai_bound : (total (queue a) <= max_queued_samples a)%N;
  ai_prefix : exists lost, accepted a = delivered (calls a) ++ in_flight (worker a) ++ lost;
  ai_pc : pc_inv (worker a) a;
}.

Lemma new_session_inv b max : (max <= u64_max)%N -> async_inv (new_session b max).
Proof. intros Hm. split; simpl; try done; try lia. by exists []. Qed.

Lemma total_app q k : total (q ++ k) = (total q + total k)%N.
Proof. induction q as [|c q IH]; simpl; [done|]. rewrite IH. lia. Qed.

(** A client operation leaves the worker where it is and the calls unchanged. *)
Lemma client_step_frame o a :
  worker (client_step o a) = worker a /\ calls (client_step o a) = calls a /\
  complete (client_step o a) = complete a /\ success (client_step o a) = success a /\
  max_queued_samples (client_step o a) = max_queued_samples a /\
  exists more, accepted (client_step o a) = accepted a ++ more.
Proof.
  destruct o; simpl; unfold PushAudio, Finish_request, Cancel_request;
    repeat case_branch; simpl; split_and!; try done; try (exists []; by rewrite app_nil_r); by eexists.
Qed.

(** A session whose recording is over accepts nothing more. *)
Lemma client_step_lossless o a : lossless a -> lossless (client_step o a).
Proof.
  intros (Hf & Ha & Hd). destruct o; simpl; unfold PushAudio, Finish_request, Cancel_request;
    rewrite ?Hf, ?orb_true_r; repeat case_branch; by split_and!.
Qed.

Lemma client_step_cancelled o a :
  cancel_requested a = true -> cancel_requested (client_step o a) = true.
Proof.
  intros Hc. destruct o; simpl; unfold PushAudio, Finish_request, Cancel_request;
    rewrite ?Hc, ?orb_true_r; by repeat case_branch.
Qed.

(** While recording goes on, the queue and the accepted audio grow together. *)
Lemma client_step_live o a front :
  (cancel_requested a = false -> accepted a = front ++ queue a /\ dropped_chunks a = 0%N) ->
  cancel_requested (client_step o a) = false ->
  accepted (client_step o a) = front ++ queue (client_step o a) /\
  dropped_chunks (client_step o a) = 0%N.
Proof.
  intros Hlive. destruct o; simpl; unfold PushAudio, Finish_request, Cancel_request.
  - repeat case_branch; simpl; try done; try by apply Hlive.
    intros Hc. destruct (Hlive Hc) as [-> ?]. by rewrite app_assoc.
  - by case_branch.
  - case_branch; [done|by intros].
  - done.
  - done.
  - done.
Qed.

Lemma pc_inv_client pc o a : pc_inv pc a -> pc_inv pc (client_step o a).
Proof.
  destruct (client_step_frame o a) as (_ & Hc & Hcm & Hs & _).
  pose proof (client_step_lossless o a) as Hl. pose proof (client_step_cancelled o a) as Hk.
  induction pc; cbn [pc_inv]; unfold running; rewrite ?Hc, ?Hcm, ?Hs; intros Hi;
    try (by apply IHpc); try tauto; try case_match; try tauto.
  all: destruct Hi as (? & ? & Hlive); split; [done|split; [done|]]; rewrite app_assoc in *;
    by apply client_step_live.
Qed.

Lemma client_step_queue o a :
  async_inv a ->
  queued_samples (client_step o a) = total (queue (client_step o a)) /\
  (total (queue (client_step o a)) <= max_queued_samples a)%N.
Proof.
  intros [Hm Hc Hb _ _]. destruct o; simpl; unfold PushAudio, Finish_request, Cancel_request;
    repeat case_branch; simpl; try (split; [done|lia]).
  unfold overflows in *. destruct (is_empty pcm) eqn:E; [done|]. simpl in *.
  rewrite total_app; simpl.
  match goal with H : _ || _ = false |- _ => apply orb_false_iff in H as [?%N.leb_gt ?%N.ltb_ge] end.
  rewrite u64_add_small by lia. lia.
Qed.

Lemma async_inv_client o a : async_inv a -> async_inv (client_step o a).
Proof.
  intros Hinv. destruct (client_step_queue o a Hinv). destruct Hinv as [Hm Hc Hb [lost Hp] Hpc].
  destruct (client_step_frame o a) as (Hw & Hcs & _ & _ & Hmx & more & Hmore).
  split; rewrite ?Hmx, ?Hw, ?Hcs; try done; [|by apply pc_inv_client].
  rewrite Hmore, Hp. exists (lost ++ more). by rewrite <-!app_assoc.
Qed.

Lemma delivered_app cs ds : delivered (cs ++ ds) = delivered cs ++ delivered ds.
Proof. apply omap_app. Qed.

Lemma good_push_push cs : Forall is_good_push cs -> Forall is_push cs.
Proof. intros Hg. eapply Forall_impl; [exact Hg|]. intros c [chunk ->]. by eexists _, _. Qed.

Lemma pushes_snoc (P : backend_call -> Prop) cs c : Forall P cs -> P c -> Forall P (cs ++ [c]).
Proof. intros. apply Forall_app. by repeat constructor. Qed.

(** A step that touches neither queue, calls nor flags keeps what [pc_inv] says. *)
Definition same_core (a a' : AsyncRecognitionSession) : Prop :=
  queue a' = queue a /\ calls a' = calls a /\ accepted a' = accepted a /\
  dropped_chunks a' = dropped_chunks a /\ finish_requested a' = finish_requested a /\
  cancel_requested a' = cancel_requested a /\ complete a' = complete a /\
  success a' = success a /\ queued_samples a' = queued_samples a /\
  max_queued_samples a' = max_queued_samples a.

Lemma pc_inv_same pc a a' : same_core a a' -> pc_inv pc a -> pc_inv pc a'.
Proof.
  intros (Hq & Hc & Ha & Hd & Hf & Hk & Hcm & Hs & _ & _).
  induction pc; cbn [pc_inv]; unfold running, lossless; rewrite ?Hq, ?Hc, ?Ha, ?Hd, ?Hf, ?Hk, ?Hcm, ?Hs; auto.
Qed.

Lemma async_inv_same a a' :
  same_core a a' -> in_flight (worker a') = in_flight (worker a) ->
  (pc_inv (worker a) a -> pc_inv (worker a') a) -> async_inv a -> async_inv a'.
Proof.
  intros Hsame Hfl Hpc [Hm Hc Hb Hp Hi].
  pose proof (pc_inv_same (worker a') a a' Hsame (Hpc Hi)) as Hi'.
  destruct Hsame as (Eq & Ec & Ea & _ & _ & _ & _ & _ & Eqs & Em).
  split; rewrite ?Em, ?Eq, ?Eqs, ?Ea, ?Ec, ?Hfl; done.
Qed.

Lemma async_inv_wait a a' : worker a = W_wait -> Run a = Some a' -> async_inv a -> async_inv a'.
Proof.
  intros Hw. unfold Run. rewrite Hw. intros Hr Hinv. pose proof Hinv as [Hm Hc Hb Hp Hi].
  rewrite Hw in Hp, Hi. cbn [pc_inv] in Hi. destruct Hi as (Hrun & Hg & Hlive).
  destruct (cancel_requested a) eqn:Hk.
  - injection Hr as <-. eapply (async_inv_same a); [by split_and!|by simpl; rewrite Hw| |done].
    intros _. simpl. auto using good_push_push.
  - destruct (Hlive eq_refl) as [Ha Hd]. destruct (queue a) as [|chunk q] eqn:Hq.
    + destruct (finish_requested a) eqn:Hf; [|done]. injection Hr as <-.
      eapply (async_inv_same a); [by split_and!|by simpl; rewrite Hw| |done].
      intros _. simpl. unfold lossless. rewrite Ha, Hf. by rewrite !app_nil_r.
    + injection Hr as <-. split; simpl; try done.
      * rewrite Hc. simpl in *. rewrite u64_sub_small by lia. lia.
      * simpl in Hb. lia.
      * exists q. rewrite Ha. done.
Qed.

Lemma async_inv_push a chunk a' :
  worker a = W_push chunk -> Run a = Some a' -> async_inv a -> async_inv a'.
Proof.
  intros Hw. unfold Run. rewrite Hw. intros Hr [Hm Hc Hb [lost Hp] Hi].
  rewrite Hw in Hp, Hi. cbn [pc_inv in_flight] in *. destruct Hi as (Hrun & Hg & Hlive).
  destruct (session_push chunk (backend a)) as [[[]|e] b]; injection Hr as <-;
    (split; simpl; [done|done|done| |]).
  - exists lost. by rewrite Hp, delivered_app, <-app_assoc.
  - split; [done|]. split; [apply pushes_snoc; [done|by eexists]|].
    intros Hk. destruct (Hlive Hk) as [-> ?]. by rewrite delivered_app, <-!app_assoc.
  - exists lost. by rewrite Hp, delivered_app, <-app_assoc.
  - split; [done|]. apply pushes_snoc; [by apply good_push_push|by eexists _, _].
Qed.

Lemma async_inv_fail a e evs a' :
  worker a = W_fail e evs -> Run a = Some a' -> async_inv a -> async_inv a'.
Proof.
  intros Hw. unfold Run. rewrite Hw. intros [= <-] [Hm Hc Hb [lost Hp] Hi].
  rewrite Hw in Hp, Hi. cbn [pc_inv in_flight] in *. destruct Hi as [Hrun Hg].
  split; [exact Hm|reflexivity|apply N.le_0_l|exists lost; exact Hp|].
  split; [exact Hrun|]. split; [exact Hg|reflexivity].
Qed.

Lemma async_inv_finish a a' : worker a = W_finish -> Run a = Some a' -> async_inv a -> async_inv a'.
Proof.
  intros Hw. unfold Run. rewrite Hw. intros Hr [Hm Hc Hb [lost Hp] Hi].
  rewrite Hw in Hp, Hi. cbn [pc_inv in_flight] in *. destruct Hi as (Hrun & Hg & Hf & Ha & Hd).
  destruct (session_finish (backend a)) as [r b]. injection Hr as <-.
  split; simpl; [done|done|done|exists lost; by rewrite delivered_app, app_nil_r|].
  split; [done|]. split; [|by eexists]. unfold lossless; simpl. by rewrite delivered_app, app_nil_r.
Qed.

Lemma async_inv_cancel a a' : worker a = W_cancel -> Run a = Some a' -> async_inv a -> async_inv a'.
Proof.
  intros Hw. unfold Run. rewrite Hw. intros [= <-] [Hm Hc Hb [lost Hp] Hi].
  rewrite Hw in Hp, Hi. cbn [pc_inv in_flight] in *. destruct Hi as (Hrun & Hg & Hk).
  split; simpl; [done|done|done|exists lost; by rewrite delivered_app, app_nil_r|].
  split; [done|]. split; [by eexists|done].
Qed.

Lemma async_inv_complete a ok e a' :
  worker a = W_complete ok e -> Run a = Some a' -> async_inv a -> async_inv a'.
Proof.
  intros Hw. unfold Run. rewrite Hw. intros [= <-] [Hm Hc Hb [lost Hp] Hi].
  rewrite Hw in Hp, Hi. cbn [pc_inv in_flight] in *.
  split; simpl; [done|done|done|by eauto|]. destruct ok; split; try done; apply Hi.
Qed.

Lemma async_inv_worker a a' : Run a = Some a' -> async_inv a -> async_inv a'.
Proof.
  intros Hr Hinv. destruct (worker a) eqn:Hw;
    eauto using async_inv_wait, async_inv_push, async_inv_fail, async_inv_finish,
      async_inv_cancel, async_inv_complete; unfold Run in Hr; rewrite Hw in Hr.
  all: try (destruct (session_poll (backend a)) as [polled b]); unfold AppendEvents in Hr;
    repeat case_branch; simplify_eq.
  all: apply (async_inv_same a); [by split_and!|by rewrite Hw| |done]; rewrite Hw; simpl; tauto.
Qed.

(** States reachable from a new session by any interleaving. *)
Definition reachable (b : State) (max : N) (a : AsyncRecognitionSession) : Prop :=
  rtc async_step (new_session b max) a.

Lemma reachable_async_inv b max a : (max <= u64_max)%N -> reachable b max a -> async_inv a.
Proof.
  intros Hm. apply (rtc_ind_r (fun a => async_inv a)); [by apply new_session_inv|].
  intros a1 a2 _ [o|a'] Hi; eauto using async_inv_client, async_inv_worker.
Qed.

Lemma Run_max a a' : Run a = Some a' -> max_queued_samples a' = max_queued_samples a.
Proof. unfold Run, AppendEvents. intros Hr. repeat case_branch; try done; by injection Hr as <-. Qed.

Lemma reachable_max b max a : reachable b max a -> max_queued_samples a = max.
Proof.
  apply (rtc_ind_r (fun a => max_queued_samples a = max)); [done|].
  intros a1 a2 _ [o|a' Hr] Hi; [|by rewrite (Run_max _ _ Hr)].
  by destruct (client_step_frame o a1) as (_ & _ & _ & _ & -> & _).
Qed.

(** The calls of a session: pushes, then at most one finish or cancel. *)
Definition protocol (a : AsyncRecognitionSession) : Prop :=
  exists ps last, calls a = ps ++ last /\ Forall is_push ps /\
    (last = [] /\ complete a = false \/ (exists ok, last = [CallFinish ok]) \/ last = [CallCancel]).

Lemma protocol_finished a ok : finished (calls a) ok -> protocol a.
Proof. unfold protocol. intros (ps & -> & Hg). exists ps, [CallFinish ok].
  split_and!; [done|by apply good_push_push|]. right. left. by exists ok.
Qed.

Lemma protocol_cancelled a : cancelled (calls a) -> protocol a.
Proof. unfold protocol. intros (ps & -> & Hg). exists ps, [CallCancel]. eauto. Qed.

Lemma protocol_open a : running a -> Forall is_push (calls a) -> protocol a.
Proof. intros [Hc _] Hg. exists (calls a), []. rewrite app_nil_r. eauto. Qed.

Lemma pc_inv_protocol pc a : pc_inv pc a -> protocol a.
Proof.
  induction pc; cbn [pc_inv]; intros Hi; try (by apply IHpc); repeat case_match;
    destruct_and?; destruct_or?; destruct_and?;
    eauto using protocol_finished, protocol_cancelled, protocol_open, good_push_push.
Qed.

Lemma pc_inv_success pc a :
  pc_inv pc a -> success a = true -> lossless a /\ finished (calls a) true.
Proof.
  intros Hi Hs. induction pc; cbn [pc_inv] in Hi; unfold running in Hi; try (by apply IHpc);
    try (destruct Hi as [[_ Hs'] _]; congruence).
  - destruct success0; destruct Hi as [[_ Hs'] _]; congruence.
  - rewrite Hs in Hi. apply Hi.
Qed.

(** ** Termination of the worker *)

(** Worker steps left once a stop was requested, with [n] chunks queued. *)
Fixpoint pc_weight (n : nat) (pc : worker_pc) : nat :=
  match pc with
  | W_exit => 0
  | W_complete _ _ => 1
  | W_read_error => 2
  | W_poll_finished _ => 4
  | W_poll_cancelled | W_finish => 5
  | W_cancel => 6
  | W_fail _ _ => 10
  | W_poll_failed _ => 11
  | W_wait => 7 + 13 * n
  | W_poll_pushed => 10 + 13 * n
  | W_push _ => 19 + 13 * n
  | W_append _ next => 2 + pc_weight n next
  | W_wake next => 1 + pc_weight n next
  end.
Definition worker_fuel (a : AsyncRecognitionSession) : nat :=
  pc_weight (length (queue a)) (worker a).

Definition stopping (a : AsyncRecognitionSession) : bool := cancel_requested a || finish_requested a.

Lemma pc_weight_mono n m pc : n <= m -> pc_weight n pc <= pc_weight m pc.
Proof. intros Hle. induction pc; simpl; lia. Qed.

Lemma client_step_stopping o a :
  stopping a = true ->
  stopping (client_step o a) = true /\ worker_fuel (client_step o a) <= worker_fuel a.
Proof.
  intros Hs. unfold worker_fuel. destruct (client_step_frame o a) as (-> & _).
  cut (stopping (client_step o a) = true /\ length (queue (client_step o a)) <= length (queue a)).
  { intros [? ?]. split; [done|by apply pc_weight_mono]. }
  destruct o; simpl; unfold PushAudio, Finish_request, Cancel_request; unfold stopping in *;
    rewrite ?Hs; repeat case_branch; simpl; rewrite ?Hs, ?orb_true_r; split; done || lia.
Qed.

Lemma Run_stopping a a' :
  Run a = Some a' -> stopping a = true -> stopping a' = true /\ worker_fuel a' < worker_fuel a.
Proof.
  unfold Run, AppendEvents, worker_fuel, stopping. destruct (worker a) eqn:Hw; intros Hr Hs;
    repeat case_branch; try done; injection Hr as <-; simpl; rewrite ?Hs; split; try done; try lia.
  all: by repeat match goal with E : ?f ?x = _ |- context [?f ?x] => rewrite E end.
Qed.

Lemma Run_blocked a : stopping a = true -> Run a = None -> worker a = W_exit.
Proof.
  unfold Run, stopping. destruct (worker a) eqn:Hw; intros Hs Hr; try done; by repeat case_branch.
Qed.

(** An interleaving: client operations and turns of the worker, which does
    nothing while it is blocked. *)
Inductive turn := ClientTurn (o : client_op) | WorkerTurn.

Definition take_turn (a : AsyncRecognitionSession) (t : turn) : AsyncRecognitionSession :=
  match t with
  | ClientTurn o => client_step o a
  | WorkerTurn => match Run a with Some a' => a' | None => a end
  end.
Definition interleave (a : AsyncRecognitionSession) (ts : list turn) : AsyncRecognitionSession :=
  foldl take_turn a ts.
Fixpoint worker_turns (ts : list turn) : nat :=
  match ts with
  | [] => 0
  | WorkerTurn :: ts => S (worker_turns ts)
  | ClientTurn _ :: ts => worker_turns ts
  end.

Lemma take_turn_inv a t : async_inv a -> async_inv (take_turn a t).
Proof.
  intros Hi. destruct t; simpl; [by apply async_inv_client|].
  destruct (Run a) eqn:E; [by eapply async_inv_worker|done].
Qed.

Lemma interleave_completes ts a :
  async_inv a -> stopping a = true -> worker_fuel a <= worker_turns ts ->
  complete (interleave a ts) = true.
Proof.
  revert a. induction ts as [|t ts IH]; intros a Hi Hs Hf.
  - unfold worker_fuel in Hf. simpl in Hf. destruct Hi as [_ _ _ _ Hpc].
    destruct (worker a); simpl in Hf; try lia. simpl in Hpc. tauto.
  - change (interleave a (t :: ts)) with (interleave (take_turn a t) ts).
    assert (async_inv (take_turn a t)) by (by apply take_turn_inv).
    destruct t as [o|]; simpl in Hf.
    + destruct (client_step_stopping o a Hs). apply IH; [done|done|simpl; lia].
    + simpl. destruct (Run a) as [a'|] eqn:E.
      * destruct (Run_stopping a a' E Hs). apply IH; [by eapply async_inv_worker|done|lia].
      * apply IH; [done|done|]. unfold worker_fuel. rewrite (Run_blocked a Hs E). simpl. lia.
Qed.

(** C4. In every interleaving of the capture thread, the controlling thread and
    the worker, the queue never exceeds its bound and its sample counter is exact
    (no 64-bit wrap-around); the backend receives a prefix of the accepted audio
    in order; and when [Finish] returns success the backend received every
    accepted chunk, accepted each of them, was finished once at the end, and no
    chunk was dropped. *)
Theorem async_session_safety b max a :
  (max <= u64_max)%N -> reachable b max a ->
  queued_samples a = total (queue a) /\ (total (queue a) <= max)%N /\
  delivered (calls a) `prefix_of` accepted a /\
  (forall e, Finish_return a = Some (true, e) ->
     DroppedChunks a = 0%N /\
     exists ps, calls a = ps ++ [CallFinish true] /\ Forall is_good_push ps /\
                delivered ps = accepted a).
Proof.
  intros Hm Hr. pose proof (reachable_max _ _ _ Hr) as Hmax.
  destruct (reachable_async_inv b max a Hm Hr) as [_ Hc Hb [lost Hp] Hpc].
  split_and!; [done|lia|by eexists|]. intros e. unfold Finish_return.
  destruct (complete a) eqn:Hcm; [|done]. intros [= Hs _]. clear Hp Hb Hc lost.
  destruct (pc_inv_success _ _ Hpc Hs) as ((_ & Ha & Hd) & ps & Heq & Hg).
  split; [done|]. exists ps. split_and!; [done|done|]. by rewrite Ha, Heq, delivered_app, app_nil_r.
Qed.

(** The backend is finished or cancelled at most once, as its last call, and
    exactly once before the session is complete; all backend calls before it are
    pushes, in every interleaving. *)
Theorem async_session_protocol b max a :
  (max <= u64_max)%N -> reachable b max a ->
  exists ps last, calls a = ps ++ last /\ Forall is_push ps /\
    (last = [] /\ complete a = false \/ (exists ok, last = [CallFinish ok]) \/ last = [CallCancel]).
Proof.
  intros Hm Hr. destruct (reachable_async_inv b max a Hm Hr) as [_ _ _ _ Hpc].
  by eapply pc_inv_protocol.
Qed.

(** C12. [Finish] returns: once a finish or a cancellation was requested, however the
    remaining client calls interleave with it, the worker completes the session
    after at most [worker_fuel a] of its turns, a bound linear in the queue. *)
Theorem Finish_terminates b max a ts :
  (max <= u64_max)%N -> reachable b max a ->
  cancel_requested a || finish_requested a = true ->
  worker_fuel a <= worker_turns ts ->
  exists ok e, Finish_return (interleave a ts) = Some (ok, e).
Proof.
  intros Hm Hr Hs Hf. unfold Finish_return.
  rewrite (interleave_completes ts a); [by eexists _, _| |done|done].
  by eapply reachable_async_inv.
Qed.
End async.
Arguments AsyncRecognitionSession State : clear implicits.

(** ** A concrete session

    A backend that accepts a fixed number of chunks and reports one final text. *)

#[export] Instance counting_session : RecognitionSession nat := {
  session_push chunk n := match n with O => (Err [], O) | S n => (Ok tt, n) end;
  session_finish n := (Ok tt, n);
  session_cancel n := n;
  session_interrupt n := n;
  session_poll n := ([], n);
}.

Definition sample_turns : list turn :=
  [ClientTurn (OpPushAudio [1; 2]%Z); WorkerTurn; ClientTurn (OpPushAudio [3]%Z); ClientTurn OpFinish].

Definition sample_session : AsyncRecognitionSession nat :=
  interleave (new_session 5 48000) sample_turns.

Lemma interleave_reachable {State} `{RecognitionSession State} (b : State) max a ts :
  reachable b max a -> reachable b max (interleave a ts).
Proof.
  revert a. induction ts as [|t ts IH]; intros a Hr; [done|]. apply IH.
  destruct t as [o|]; simpl; [eapply rtc_r; [done|constructor]|].
  destruct (Run a) eqn:E; [|done]. eapply rtc_r; [done|by constructor].
Qed.

Lemma sample_session_reachable : reachable 5 48000 sample_session.
Proof. unfold sample_session. apply interleave_reachable. apply rtc_refl. Qed.

Lemma sample_reachable ts : reachable 5 48000 (interleave sample_session ts).
Proof. apply interleave_reachable, sample_session_reachable. Qed.

Lemma async_session_safety_witness :
  Finish_return (interleave sample_session (replicate 60 WorkerTurn)) = Some (true, []) /\
  exists ps, calls (interleave sample_session (replicate 60 WorkerTurn)) = ps ++ [CallFinish true] /\
             delivered ps = [[1; 2]%Z; [3]%Z].
Proof.
  assert (Finish_return (interleave sample_session (replicate 60 WorkerTurn)) = Some (true, [])) as Hf
    by (vm_compute; reflexivity).
  split; [exact Hf|].
  destruct (async_session_safety 5 48000 (interleave sample_session (replicate 60 WorkerTurn)))
    as (_ & _ & _ & Hall); [vm_compute; discriminate|apply sample_reachable|].
  destruct (Hall [] Hf) as (_ & ps & Hps & _ & Hd). exists ps. split; [exact Hps|].
  rewrite Hd. vm_compute. reflexivity.
Defined.

Lemma async_session_protocol_witness :
  exists ps last, calls sample_session = ps ++ last /\ Forall is_push ps /\
    (last = [] /\ complete sample_session = false \/ (exists ok, last = [CallFinish ok]) \/
     last = [CallCancel]).
Proof.
  apply (async_session_protocol 5 48000 sample_session);
    [vm_compute; discriminate|exact sample_session_reachable].
Defined.

Lemma Finish_terminates_witness :
  exists ok e, Finish_return (interleave sample_session
    (ClientTurn OpPollEvents :: replicate 40 WorkerTurn ++ [ClientTurn OpCancel])) = Some (ok, e).
Proof.
  apply (Finish_terminates 5 48000);
    [vm_compute; discriminate|exact sample_session_reachable|reflexivity|apply Nat.leb_le; vm_compute; reflexivity].
Defined.
