(* ===== verification/SessionLifecycle.v ===== *)
(** * Session ownership (src/src/daemon/runtime/session_lifecycle_manager.cpp)

    The manager owns the active recognition session and the cancelled ones that
    wait to be destroyed. Sessions are shared objects: a [shared_ptr] is an id
    into a store of session states. *)

From S2P Require Import Prelude Floats RecognitionContract.

Definition kSessionNotInitializedError : bytes := "Recognition session is not initialized.".
Definition kFailedToPushAudioError : bytes := "Failed to push audio chunk.".
Definition kFailedToFinishSessionError : bytes := "Failed to finish recognition session.".
Definition kProviderFailedError : bytes := "ASR provider failed.".

Abbreviation session_id := nat.

(** recognition_session_manager.h *)
Record RecognitionRunResult := {
  rr_available : bool; rr_ok : bool; rr_text : bytes; rr_error : bytes;
}.
#[export] Instance run_result_fields : Fields RecognitionRunResult := fun r =>
  {| rr_available := rr_available r; rr_ok := rr_ok r; rr_text := rr_text r; rr_error := rr_error r |}.
Definition default_run_result : RecognitionRunResult :=
  {| rr_available := false; rr_ok := true; rr_text := []; rr_error := [] |}.

Record SessionPollResult := {
  pr_session : option session_id;
  pr_events : list RecognitionEvent;
  pr_failure : option bytes;
  pr_session_active : bool;
}.

Definition is_error (e : RecognitionEvent) : Prop := ev_kind e = ErrorEvent.

(** The failure announced by the first error event. *)
Fixpoint event_failure (evs : list RecognitionEvent) : option bytes :=
  match evs with
  | [] => None
  | e :: evs =>
      if decide (ev_kind e = ErrorEvent)
      then Some (if is_empty (ev_error e) then kProviderFailedError else ev_error e)
      else event_failure evs
  end.

(** The event loop of [FinishSessionAndCollectResult]. *)
Fixpoint collect_events (evs : list RecognitionEvent) (r : RecognitionRunResult) : RecognitionRunResult :=
  match evs with
  | [] => r
  | e :: evs =>
      collect_events evs
        match ev_kind e with
        | PartialText | Completed => r
        | FinalText => r <| rr_text := ev_text e |>
        | ErrorEvent =>
            let r := r <| rr_ok := false |> in
            if is_empty (ev_error e) then r else r <| rr_error := ev_error e |>
        end
  end.

Section lifecycle.
Context {State : Type} `{RecognitionSession State}.
(** [AsyncRecognitionSession::FailureError], [None] for other sessions. *)
Context (failure_error : State -> option bytes).

Record SessionLifecycleManager := {
  sessions : gmap session_id State;
  active_session : option session_id;
  deferred_cancelled_sessions : list session_id;
  wake_callback : bool;
  (* observations *)
  lc_wakes : N;
  cancels : list session_id;   (* sessions cancelled by the manager *)
  detached : list session_id;  (* sessions handed to a caller *)
  released : list session_id;  (* references dropped for good *)
}.

#[export] Instance lifecycle_fields : Fields SessionLifecycleManager := fun m =>
  {| sessions := sessions m; active_session := active_session m;
     deferred_cancelled_sessions := deferred_cancelled_sessions m;
     wake_callback := wake_callback m; lc_wakes := lc_wakes m; cancels := cancels m;
     detached := detached m; released := released m |}.

Definition SetLifecycleWake (callback : bool) (m : SessionLifecycleManager)
  : SessionLifecycleManager := m <| wake_callback := callback |>.

Definition RetireSession (s : option session_id) (m : SessionLifecycleManager)
  : SessionLifecycleManager :=
  match s with
  | None => m
  | Some s =>
      m <| deferred_cancelled_sessions := deferred_cancelled_sessions m ++ [s] |>
        <| lc_wakes := if wake_callback m then (lc_wakes m + 1)%N else lc_wakes m |>
  end.

(** [session->Cancel()] under the session lock. *)
Definition cancel_call (s : session_id) (m : SessionLifecycleManager) : SessionLifecycleManager :=
  m <| sessions := alter session_cancel s (sessions m) |> <| cancels := cancels m ++ [s] |>.

Definition CancelAndRetireSession (s : option session_id) (m : SessionLifecycleManager)
  : SessionLifecycleManager :=
  match s with
  | None => m
  | Some s => RetireSession (Some s) (cancel_call s m)
  end.

Definition InstallActiveSession (s : option session_id) (m : SessionLifecycleManager)
  : SessionLifecycleManager :=
  let old_session := active_session m in
  let m := m <| active_session := s |> in
  match old_session with
  | Some _ => CancelAndRetireSession old_session m
  | None => m
  end.

Definition HasActiveSession (m : SessionLifecycleManager) : bool :=
  match active_session m with Some _ => true | None => false end.
Definition IsActiveSession (s : option session_id) (m : SessionLifecycleManager) : bool :=
  match s with Some _ => active_session m =b s | None => false end.

Definition DetachActive (m : SessionLifecycleManager) : option session_id * SessionLifecycleManager :=
  (active_session m,
   m <| active_session := None |>
     <| detached := detached m ++ option_list (active_session m) |>).

(** [PushAudioWithLock]; the session object behind a non-null pointer exists. *)
Definition LifecyclePushAudio (s : option session_id) (pcm : list Z) (m : SessionLifecycleManager)
  : result unit * SessionLifecycleManager :=
  match s with
  | None => (Err kSessionNotInitializedError, m)
  | Some s =>
      match sessions m !! s with
      | None => (Err kSessionNotInitializedError, m)
      | Some st =>
          let '(r, st) := session_push pcm st in
          (match r with
           | Ok _ => Ok tt
           | Err e => Err (if is_empty e then kFailedToPushAudioError else e)
           end, m <| sessions := <[s := st]> (sessions m) |>)
      end
  end.

Definition PollSessionEvents (s : option session_id) (m : SessionLifecycleManager)
  : SessionPollResult * SessionLifecycleManager :=
  match s ≫= fun s => st ← sessions m !! s; Some (s, st) with
  | None => ({| pr_session := None; pr_events := []; pr_failure := None; pr_session_active := false |}, m)
  | Some (s, st) =>
      let '(evs, st) := session_poll st in
      let m := m <| sessions := <[s := st]> (sessions m) |> in
      let failure :=
        match failure_error st with
        | Some e => Some e
        | None => event_failure evs
        end in
      let evs := match failure with Some _ => filter (fun e => ~ is_error e) evs | None => evs end in
      ({| pr_session := Some s; pr_events := evs; pr_failure := failure;
          pr_session_active := IsActiveSession (Some s) m |}, m)
  end.

Definition PollActiveEvents (m : SessionLifecycleManager)
  : SessionPollResult * SessionLifecycleManager := PollSessionEvents (active_session m) m.

Definition FinishSessionAndCollectResult (s : option session_id) (m : SessionLifecycleManager)
  : RecognitionRunResult * SessionLifecycleManager :=
  match s ≫= fun s => st ← sessions m !! s; Some (s, st) with
  | None =>
      (default_run_result <| rr_ok := false |> <| rr_error := kSessionNotInitializedError |>, m)
  | Some (s, st) =>
      let result := default_run_result <| rr_available := true |> in
      let '(r, st) := session_finish st in
      let result :=
        match r with
        | Ok _ => result
        | Err e => result <| rr_ok := false |>
                          <| rr_error := if is_empty e then kFailedToFinishSessionError else e |>
        end in
      let '(evs, st) := session_poll st in
      (collect_events evs result, m <| sessions := <[s := st]> (sessions m) |>)
  end.

Definition CancelAndRetireActive (m : SessionLifecycleManager) : SessionLifecycleManager :=
  match active_session m with
  | None => m
  | Some s => CancelAndRetireSession (Some s) (m <| active_session := None |>)
  end.

Definition CancelAndRetireActiveIfMatches (expected : option session_id) (m : SessionLifecycleManager)
  : bool * SessionLifecycleManager :=
  match expected with
  | None => (false, m)
  | Some e =>
      if active_session m =b Some e
      then (true, CancelAndRetireSession (Some e) (m <| active_session := None |>))
      else (false, m)
  end.

(** The swapped-out references are dropped: the sessions are destroyed. *)
Definition FlushReapedSessions (m : SessionLifecycleManager) : nat * SessionLifecycleManager :=
  (length (deferred_cancelled_sessions m),
   m <| deferred_cancelled_sessions := [] |>
     <| released := released m ++ deferred_cancelled_sessions m |>).

Definition DeferredSessionCount (m : SessionLifecycleManager) : nat :=
  length (deferred_cancelled_sessions m).

Definition ClearSessions (m : SessionLifecycleManager) : SessionLifecycleManager :=
  let active := active_session m in
  let deferred := deferred_cancelled_sessions m in
  let m := m <| active_session := None |> <| deferred_cancelled_sessions := [] |> in
  let m := match active with Some s => cancel_call s m | None => m end in
  m <| released := released m ++ option_list active ++ deferred |>.

(** ** Polling *)

Lemma event_failure_None evs : event_failure evs = None <-> Forall (fun e => ~ is_error e) evs.
Proof.
  induction evs as [|e evs IH]; simpl; [by split|]. unfold is_error at 1.
  rewrite Forall_cons. case_decide; naive_solver.
Qed.

Lemma filter_no_error evs :
  Forall (fun e => ~ is_error e) evs -> filter (fun e => ~ is_error e) evs = evs.
Proof. induction 1; [done|]. rewrite filter_cons_True by done. by f_equal. Qed.

(** Polling an existing session forwards exactly its non-error events, in
    order; a failure is reported when the session recorded one or an error event
    was polled, and then the recorded failure wins: an error is notified once, as
    the failure, and never again as an event. *)
Theorem PollSessionEvents_spec s st polled st' m :
  sessions m !! s = Some st -> session_poll st = (polled, st') ->
  let r := (PollSessionEvents (Some s) m).1 in
  pr_events r = filter (fun e => ~ is_error e) polled /\
  (pr_failure r = None <-> failure_error st' = None /\ Forall (fun e => ~ is_error e) polled) /\
  (forall e, failure_error st' = Some e -> pr_failure r = Some e) /\
  pr_session_active r = bool_decide (active_session m = Some s).
Proof.
  intros Hs Hp. unfold PollSessionEvents. simpl. rewrite Hs. simpl. rewrite Hp. simpl.
  destruct (failure_error st') as [e|] eqn:Hf; simpl; [naive_solver|].
  pose proof (event_failure_None polled) as He.
  destruct (event_failure polled) eqn:Hev; split_and!; try naive_solver.
  symmetry. apply filter_no_error. naive_solver.
Qed.

(** ** Finishing *)

Definition final_texts (evs : list RecognitionEvent) : list bytes :=
  omap (fun e => match ev_kind e with FinalText => Some (ev_text e) | _ => None end) evs.
Definition error_texts (evs : list RecognitionEvent) : list bytes :=
  omap (fun e => match ev_kind e with
                 | ErrorEvent => if is_empty (ev_error e) then None else Some (ev_error e)
                 | _ => None
                 end) evs.

Lemma last_cons_default {A} (x d : A) l : default d (last (x :: l)) = default x (last l).
Proof. destruct l; [done|]. rewrite last_cons_cons. by destruct (last (a :: l)) eqn:E; [|apply last_None in E]. Qed.

Lemma collect_events_spec evs r :
  let c := collect_events evs r in
  rr_available c = rr_available r /\
  rr_ok c = rr_ok r && bool_decide (Forall (fun e => ~ is_error e) evs) /\
  rr_text c = default (rr_text r) (last (final_texts evs)) /\
  rr_error c = default (rr_error r) (last (error_texts evs)).
Proof.
  revert r. induction evs as [|e evs IH]; intros r; cbn [collect_events].
  { rewrite bool_decide_eq_true_2, andb_true_r by constructor. done. }
  destruct (IH match ev_kind e with
    | PartialText | Completed => r
    | FinalText => r <| rr_text := ev_text e |>
    | ErrorEvent => if is_empty (ev_error e) then r <| rr_ok := false |>
                    else r <| rr_ok := false |> <| rr_error := ev_error e |>
    end) as (Ha & Ho & Ht & He). simpl in *. rewrite Ha, Ho, Ht, He. clear.
  unfold final_texts, error_texts; cbn [omap list_omap].
  assert (bool_decide (Forall (fun e => ~ is_error e) (e :: evs))
    = bool_decide (ev_kind e <> ErrorEvent) && bool_decide (Forall (fun e => ~ is_error e) evs)) as ->.
  { rewrite <-bool_decide_and. apply bool_decide_ext. by rewrite Forall_cons. }
  destruct (ev_kind e); simpl;
    try destruct (is_empty (ev_error e)); simpl; rewrite ?last_cons_default, ?andb_false_r; done.
Qed.

(** The result of a finished session: it is successful exactly when [Finish]
    succeeded and no error event was polled, its text is the last final text, and
    its error is the last error message given, or else the error of [Finish]. *)
Theorem FinishSession_spec s st res st1 evs st2 m :
  sessions m !! s = Some st -> session_finish st = (res, st1) -> session_poll st1 = (evs, st2) ->
  let r := (FinishSessionAndCollectResult (Some s) m).1 in
  let finish_error := match res with
                      | Ok _ => []
                      | Err e => if is_empty e then kFailedToFinishSessionError else e
                      end in
  rr_available r = true /\
  rr_ok r = match res with Ok _ => true | Err _ => false end && bool_decide (Forall (fun e => ~ is_error e) evs) /\
  rr_text r = default [] (last (final_texts evs)) /\
  rr_error r = default finish_error (last (error_texts evs)).
Proof.
  intros Hs Hf Hp. unfold FinishSessionAndCollectResult. simpl. rewrite Hs. simpl. rewrite Hf, Hp.
  simpl. destruct (collect_events_spec evs (match res with
    | Ok _ => default_run_result <| rr_available := true |>
    | Err e => default_run_result <| rr_available := true |> <| rr_ok := false |>
        <| rr_error := if is_empty e then kFailedToFinishSessionError else e |>
    end)) as (-> & -> & -> & ->).
  by destruct res as [[]|e].
Qed.

(** ** Ownership

    The manager together with the sessions installed so far and those its
    callers hold after [DetachActive]. *)

Record owners := { om : SessionLifecycleManager; installed : list session_id; held : list session_id }.

Inductive lifecycle_step : owners -> owners -> Prop :=
  | ls_install m ins hd s st : s ∉ ins ->
      lifecycle_step {| om := m; installed := ins; held := hd |}
        {| om := InstallActiveSession (Some s) (m <| sessions := <[s := st]> (sessions m) |>);
           installed := s :: ins; held := hd |}
  | ls_detach m ins hd :
      lifecycle_step {| om := m; installed := ins; held := hd |}
        {| om := (DetachActive m).2; installed := ins; held := option_list (DetachActive m).1 ++ hd |}
  | ls_cancel_active m ins hd :
      lifecycle_step {| om := m; installed := ins; held := hd |}
        {| om := CancelAndRetireActive m; installed := ins; held := hd |}
  | ls_cancel_matches m ins hd e :
      lifecycle_step {| om := m; installed := ins; held := hd |}
        {| om := (CancelAndRetireActiveIfMatches e m).2; installed := ins; held := hd |}
  | ls_retire m ins hd s :
      lifecycle_step {| om := m; installed := ins; held := s :: hd |}
        {| om := RetireSession (Some s) m; installed := ins; held := hd |}
  | ls_cancel_retire m ins hd s :
      lifecycle_step {| om := m; installed := ins; held := s :: hd |}
        {| om := CancelAndRetireSession (Some s) m; installed := ins; held := hd |}
  | ls_flush m ins hd :
      lifecycle_step {| om := m; installed := ins; held := hd |}
        {| om := (FlushReapedSessions m).2; installed := ins; held := hd |}
  | ls_clear m ins hd :
      lifecycle_step {| om := m; installed := ins; held := hd |}
        {| om := ClearSessions m; installed := ins; held := hd |}.

Definition places (m : SessionLifecycleManager) (hd : list session_id) : list session_id :=
  option_list (active_session m) ++ deferred_cancelled_sessions m ++ hd ++ released m.

(** Cancelled by the manager, or handed to a caller that answers for it. *)
Definition accounted (m : SessionLifecycleManager) (s : session_id) : Prop :=
  s ∈ cancels m \/ s ∈ detached m.

Record owners_inv (o : owners) : Prop := {
  oi_fresh : NoDup (installed o);
  oi_places : installed o ≡ₚ places (om o) (held o);
  oi_held : Forall (fun s => s ∈ detached (om o)) (held o);
  oi_gone : Forall (accounted (om o)) (deferred_cancelled_sessions (om o) ++ released (om o));
}.

Lemma accounted_mono m m' s :
  (forall x, x ∈ cancels m -> x ∈ cancels m') -> (forall x, x ∈ detached m -> x ∈ detached m') ->
  accounted m s -> accounted m' s.
Proof. unfold accounted. naive_solver. Qed.

(** Cancelling and retiring a session moves it to the deferred ones, accounted for. *)
Lemma cancel_retire_gone s m :
  Forall (accounted m) (deferred_cancelled_sessions m ++ released m) ->
  Forall (accounted (CancelAndRetireSession (Some s) m))
    (deferred_cancelled_sessions (CancelAndRetireSession (Some s) m)
     ++ released (CancelAndRetireSession (Some s) m)).
Proof.
  intros Hg. simpl. rewrite !Forall_app in *. destruct Hg as [Hd Hr].
  assert (forall x, accounted m x -> accounted (CancelAndRetireSession (Some s) m) x) as Hmono.
  { intros x. apply accounted_mono; simpl; [set_solver|done]. }
  split_and!.
  - eapply Forall_impl; [exact Hd|done].
  - repeat constructor. simpl. set_solver.
  - eapply Forall_impl; [exact Hr|done].
Qed.

(** The active session, replaced and retired. *)
Lemma retire_active_inv m ins hd a next :
  active_session m = Some a ->
  owners_inv {| om := m; installed := ins; held := hd |} ->
  NoDup (option_list next ++ ins) ->
  owners_inv {| om := CancelAndRetireSession (Some a) (m <| active_session := next |>);
                installed := option_list next ++ ins; held := hd |}.
Proof.
  intros Ha [Hf Hp Hh Hg] Hn. split; [done| |done|by apply (cancel_retire_gone a (m <| active_session := next |>))].
  simpl in *. unfold places in *. simpl. rewrite Hp, Ha. f_equiv. simpl.
  rewrite <-app_assoc. by rewrite Permutation_middle.
Qed.

Lemma set_sessions_inv m ins hd f :
  owners_inv {| om := m; installed := ins; held := hd |} ->
  owners_inv {| om := m <| sessions := f |>; installed := ins; held := hd |}.
Proof. intros [Hf Hp Hh Hg]. by split. Qed.

Lemma install_inv m ins hd s :
  s ∉ ins -> owners_inv {| om := m; installed := ins; held := hd |} ->
  owners_inv {| om := InstallActiveSession (Some s) m; installed := s :: ins; held := hd |}.
Proof.
  intros Hs Hi. pose proof Hi as [Hf Hp Hh Hg]. unfold InstallActiveSession.
  destruct (active_session m) as [old|] eqn:Ha.
  - apply (retire_active_inv m ins hd old (Some s)); [done|done|by constructor].
  - simpl in *. unfold places in *. rewrite Ha in Hp.
    split; simpl; [by constructor| |done|done]. unfold places; simpl. by constructor.
Qed.

Lemma detach_inv m ins hd :
  owners_inv {| om := m; installed := ins; held := hd |} ->
  owners_inv {| om := (DetachActive m).2; installed := ins;
                held := option_list (DetachActive m).1 ++ hd |}.
Proof.
  intros [Hf Hp Hh Hg]. simpl in *. split; simpl; [done| | |].
  - unfold places in *; simpl. rewrite Hp. rewrite <-app_assoc.
    rewrite !(Permutation_app_swap_app (option_list _)). done.
  - apply Forall_app. split; [apply Forall_forall; set_solver|].
    eapply Forall_impl; [exact Hh|]. set_solver.
  - eapply Forall_impl; [exact Hg|]. intros x. apply accounted_mono; simpl; set_solver.
Qed.

Lemma retire_held_inv m ins hd s :
  owners_inv {| om := m; installed := ins; held := s :: hd |} ->
  owners_inv {| om := RetireSession (Some s) m; installed := ins; held := hd |} /\
  owners_inv {| om := CancelAndRetireSession (Some s) m; installed := ins; held := hd |}.
Proof.
  intros [Hf Hp Hh Hg]. inversion_clear Hh as [|? ? Hsd Hh']. simpl in *.
  assert (ins ≡ₚ option_list (active_session m) ++ (deferred_cancelled_sessions m ++ [s]) ++ hd ++ released m).
  { rewrite Hp. unfold places. f_equiv. rewrite <-app_assoc. by f_equiv. }
  split; (split; [done|done|done|]); [|by apply (cancel_retire_gone s m)].
  simpl. rewrite !Forall_app in *. destruct Hg as [Hd Hr]. split_and!; [done| |done].
  apply Forall_singleton. by right.
Qed.

Lemma release_inv m ins hd :
  owners_inv {| om := m; installed := ins; held := hd |} ->
  owners_inv {| om := (FlushReapedSessions m).2; installed := ins; held := hd |} /\
  owners_inv {| om := ClearSessions m; installed := ins; held := hd |}.
Proof.
  intros [Hf Hp Hh Hg]. simpl in *. unfold places in Hp. rewrite !Forall_app in Hg. destruct Hg as [Hd Hr].
  split.
  - split; simpl; [done| |done|apply Forall_app; by split]. unfold places; simpl. rewrite Hp. f_equiv.
    rewrite (Permutation_app_comm (released m)). by rewrite Permutation_app_swap_app.
  - unfold ClearSessions. destruct (active_session m) as [a|] eqn:Ha; simpl in *.
    + split; simpl; [done| |done|].
      * unfold places; simpl. rewrite Hp, (Permutation_app_comm (deferred_cancelled_sessions m)), (app_assoc hd).
        apply Permutation_middle.
      * rewrite !Forall_app. split; [|constructor; [left; simpl; set_solver|]];
          (eapply Forall_impl; [eassumption|]); intros x; apply accounted_mono; simpl; set_solver.
    + split; simpl; [done| |done|by apply Forall_app]. unfold places; simpl.
      by rewrite Hp, (Permutation_app_comm (deferred_cancelled_sessions m)), (app_assoc hd).
Qed.

Lemma lifecycle_step_inv o o' : lifecycle_step o o' -> owners_inv o -> owners_inv o'.
Proof.
  intros [m ins hd s st Hs|m ins hd|m ins hd|m ins hd e|m ins hd s|m ins hd s|m ins hd|m ins hd] Hi.
  - by apply install_inv, set_sessions_inv.
  - by apply detach_inv.
  - unfold CancelAndRetireActive. destruct (active_session m) as [a|] eqn:Ha; [|done].
    apply (retire_active_inv m ins hd a None); [done|done|apply Hi].
  - unfold CancelAndRetireActiveIfMatches. destruct e as [e|]; [|done].
    case_bool_decide as Ha; [|done]. apply (retire_active_inv m ins hd e None); [done|done|apply Hi].
  - by apply retire_held_inv.
  - by apply retire_held_inv.
  - by apply release_inv.
  - by apply release_inv.
Qed.

Definition no_sessions : SessionLifecycleManager :=
  {| sessions := ∅; active_session := None; deferred_cancelled_sessions := []; wake_callback := false;
     lc_wakes := 0; cancels := []; detached := []; released := [] |}.
Definition no_owners : owners := {| om := no_sessions; installed := []; held := [] |}.

Lemma reachable_owners_inv o : rtc lifecycle_step no_owners o -> owners_inv o.
Proof.
  apply (rtc_ind_r owners_inv); [|eauto using lifecycle_step_inv].
  split; simpl; constructor.
Qed.

(** Session ownership is exact: along any sequence of lifecycle operations every
    installed session is in exactly one place (active, deferred, held by the caller
    that detached it, or released), none is lost or released twice, and no session
    is deferred or released unless the manager cancelled it or a caller took it. *)
Theorem session_ownership o :
  rtc lifecycle_step no_owners o ->
  NoDup (places (om o) (held o)) /\ installed o ≡ₚ places (om o) (held o) /\
  (forall s, s ∈ deferred_cancelled_sessions (om o) ++ released (om o) ->
     s ∈ cancels (om o) \/ s ∈ detached (om o)).
Proof.
  intros Hr. destruct (reachable_owners_inv o Hr) as [Hf Hp Hh Hg].
  split_and!; [by rewrite <-Hp|done|by apply Forall_forall].
Qed.
End lifecycle.
Arguments SessionLifecycleManager State : clear implicits.

(** ** A scripted session *)

Record scripted := { sd_finish : result unit; sd_events : list RecognitionEvent }.

#[export] Instance scripted_session : RecognitionSession scripted := {
  session_push _ s := (Ok tt, s);
  session_finish s := (sd_finish s, s);
  session_cancel s := s;
  session_interrupt s := s;
  session_poll s := (sd_events s, {| sd_finish := sd_finish s; sd_events := [] |});
}.

Definition sample_script : scripted :=
  {| sd_finish := Err [];
     sd_events := [{| ev_kind := PartialText; ev_text := "he"; ev_error := [] |};
                   {| ev_kind := ErrorEvent; ev_text := []; ev_error := "lost" |};
                   {| ev_kind := FinalText; ev_text := "hello"; ev_error := [] |}] |}.
Definition sample_manager : SessionLifecycleManager scripted :=
  no_sessions <| sessions := {[3 := sample_script]} |> <| active_session := Some 3 |>.

Lemma PollSessionEvents_spec_witness :
  pr_failure (PollSessionEvents (fun _ => None) (Some 3) sample_manager).1 <> None /\
  pr_events (PollSessionEvents (fun _ => None) (Some 3) sample_manager).1
  = filter (fun e => ~ is_error e) (sd_events sample_script).
Proof.
  destruct (PollSessionEvents_spec (fun _ => None) 3 sample_script (sd_events sample_script)
    {| sd_finish := Err []; sd_events := [] |} sample_manager) as (He & Hf & _); [done|done|].
  split; [|exact He]. intros Hn. apply Hf in Hn as [_ Hn].
  repeat (apply Forall_cons in Hn as [? Hn]; try (unfold is_error in *; simpl in *; congruence)).
Defined.

Lemma FinishSession_spec_witness :
  rr_text (FinishSessionAndCollectResult (Some 3) sample_manager).1 = "hello" /\
  rr_ok (FinishSessionAndCollectResult (Some 3) sample_manager).1 = false /\
  rr_error (FinishSessionAndCollectResult (Some 3) sample_manager).1 = "lost".
Proof.
  destruct (FinishSession_spec 3 sample_script (Err []) sample_script (sd_events sample_script)
    {| sd_finish := Err []; sd_events := [] |} sample_manager) as (_ & Ho & Ht & He); [done|done|done|].
  split; [exact Ht|]. split; [exact Ho|exact He].
Defined.

Lemma session_ownership_witness :
  NoDup (places (ClearSessions (InstallActiveSession (Some 2) (InstallActiveSession (Some 1) no_sessions
    <| sessions := {[1 := sample_script]} |>) <| sessions := {[2 := sample_script; 1 := sample_script]} |>)) []).
Proof.
  destruct (session_ownership (State := scripted)
    {| om := ClearSessions (InstallActiveSession (Some 2) (InstallActiveSession (Some 1) (no_sessions
         <| sessions := <[1 := sample_script]> ∅ |>)
         <| sessions := <[2 := sample_script]> (<[1 := sample_script]> ∅) |>)); 
       installed := [2; 1]; held := [] |}) as (Hn & _); [|vm_compute in Hn |- *; exact Hn].
  eapply rtc_l; [apply (ls_install no_sessions [] [] 1 sample_script); set_solver|].
  eapply rtc_l; [apply (ls_install _ [1] [] 2 sample_script); set_solver|].
  eapply rtc_l; [apply ls_clear|]. apply rtc_refl.
Defined.
