(* ===== verification/Streaming.v ===== *)
(** * Streaming sessions: AsyncSession behind the recognition contract

    The controller gives a chunked backend's session to [AsyncRecognitionSession]
    and from then on uses it through the interface [RecognitionSession]
    (daemon_runtime_controller.cpp, StartRecordingInternal). Here the asynchronous
    session is made an instance of that interface, for any scheduling of its
    worker, and the lifecycle manager's guarantees are composed with it. *)

From S2P Require Import Prelude RecognitionContract AsyncSession SessionLifecycle.

Section streaming.
Context {State : Type} `{RecognitionSession State}.
Abbreviation async := (AsyncRecognitionSession State).

(** The turns the worker gets before a call takes the lock. *)
Context (schedule : async -> nat).

Definition run_worker (n : nat) (a : async) : async := interleave a (replicate n WorkerTurn).
Definition turns (a : async) : async := run_worker (schedule a) a.

(** [Finish]: the request, the wait for the worker, the return. *)
Definition async_finish (a : async) : result unit * async :=
  let a := Finish_request (turns a) in
  let a := run_worker (worker_fuel a) a in
  (match Finish_return a with
   | Some (true, _) => Ok tt
   | Some (false, e) => Err e
   | None => Err []
   end, a).

(** [Cancel], with the interrupt of the backend when it took effect. *)
Definition async_cancel (a : async) : async :=
  if complete a || cancel_requested a then a else AsyncSession.Interrupt (Cancel_request a).

#[local] Instance async_session : RecognitionSession async := {
  session_push pcm a := PushAudio pcm (turns a);
  session_finish := async_finish;
  session_cancel a := async_cancel (turns a);
  session_interrupt := AsyncSession.Interrupt;
  session_poll a := PollEvents (turns a);
}.

(** ** The worker keeps what was accepted *)

Lemma Run_accepted (a a' : async) : Run a = Some a' -> accepted a' = accepted a.
Proof.
  unfold Run, AppendEvents. intros Hr. repeat case_branch; try done; by injection Hr as <-.
Qed.

Lemma run_worker_accepted n (a : async) : accepted (run_worker n a) = accepted a.
Proof.
  unfold run_worker, interleave. revert a. induction n as [|n IH]; intros a; simpl; [done|].
  rewrite IH. destruct (Run a) eqn:E; [by apply Run_accepted|done].
Qed.

Lemma run_worker_reachable b max n (a : async) : reachable b max a -> reachable b max (run_worker n a).
Proof. apply interleave_reachable. Qed.

Lemma client_reachable b max o (a : async) : reachable b max a -> reachable b max (client_step o a).
Proof. intros Hr. eapply rtc_r; [done|constructor]. Qed.

(** A stopped session completes within its fuel. *)
Lemma run_worker_completes b max (a : async) :
  (max <= u64_max)%N -> reachable b max a -> stopping a = true ->
  complete (run_worker (worker_fuel a) a) = true.
Proof.
  intros Hm Hr Hs. apply interleave_completes; [by eapply reachable_async_inv|done|].
  assert (forall n, worker_turns (replicate n WorkerTurn) = n) as -> by (intros n; induction n; simpl; congruence).
  done.
Qed.

(** After completion the worker makes no backend call. *)
Lemma Run_complete (a a' : async) :
  pc_inv (worker a) a -> complete a = true -> Run a = Some a' ->
  complete a' = true /\ success a' = success a /\ calls a' = calls a.
Proof.
  intros Hi Hc. unfold Run. destruct (worker a) eqn:Hw; cbn [pc_inv] in Hi; unfold running in Hi;
    try (destruct Hi as [[Hf _] _]; congruence).
  - destruct success; destruct Hi as [[Hf _] _]; congruence.
  - unfold AppendEvents. intros [= <-]. by destruct (is_empty _).
  - by intros [= <-].
  - done.
Qed.

Lemma complete_stays b max n (a : async) :
  (max <= u64_max)%N -> reachable b max a -> complete a = true ->
  complete (run_worker n a) = true /\ success (run_worker n a) = success a /\
  calls (run_worker n a) = calls a.
Proof.
  intros Hm. unfold run_worker, interleave. revert a. induction n as [|n IH]; intros a Hr Hc; simpl; [done|].
  destruct (Run a) as [a'|] eqn:E; [|by apply IH].
  destruct (Run_complete a a') as (Hc' & Hs' & Hl'); [by eapply reachable_async_inv|done|done|].
  rewrite <- Hs', <- Hl'. apply IH; [|done]. eapply rtc_r; [done|by constructor].
Qed.

(** [Finish] always returns, with the session complete and nothing newly accepted. *)
Lemma async_finish_complete b max (a : async) :
  (max <= u64_max)%N -> reachable b max a ->
  reachable b max (async_finish a).2 /\ complete (async_finish a).2 = true /\
  accepted (async_finish a).2 = accepted a.
Proof.
  intros Hm Hr. unfold async_finish. cbn [snd].
  assert (reachable b max (turns a)) as Ht by (by apply run_worker_reachable).
  assert (reachable b max (Finish_request (turns a))) as Hf by (by apply (client_reachable _ _ OpFinish)).
  assert (accepted (Finish_request (turns a)) = accepted a) as Ha.
  { unfold Finish_request. rewrite <- (run_worker_accepted (schedule a) a). by destruct (_ && _). }
  split_and!; [by apply run_worker_reachable| |by rewrite run_worker_accepted].
  destruct (complete (Finish_request (turns a))) eqn:Hc.
  - by eapply complete_stays.
  - apply (run_worker_completes b max); [done|done|]. revert Hc. unfold Finish_request, stopping.
    destruct (complete (turns a)) eqn:E1, (cancel_requested (turns a)) eqn:E2; simpl; intros; rewrite ?E1, ?E2 in *; try done.
Qed.

(** ** Through the lifecycle manager *)

(** The controller's pushes to one session. *)
Fixpoint push_all (s : session_id) (chunks : list (list Z)) (m : SessionLifecycleManager async)
  : result unit * SessionLifecycleManager async :=
  match chunks with
  | [] => (Ok tt, m)
  | chunk :: chunks =>
      match LifecyclePushAudio (Some s) chunk m with
      | (Ok _, m) => push_all s chunks m
      | (Err e, m) => (Err e, m)
      end
  end.

Definition non_empty (chunks : list (list Z)) : list (list Z) := filter (fun c => c <> []) chunks.

Lemma push_accepted pcm (a a' : async) :
  PushAudio pcm a = (Ok tt, a') -> accepted a' = accepted a ++ non_empty [pcm].
Proof.
  unfold PushAudio. destruct (_ || _); [done|]. destruct (overflows pcm a); [done|].
  destruct pcm as [|x pcm]; simpl; intros [= <-]; [by rewrite app_nil_r|done].
Qed.

Lemma push_all_accepted b max s chunks (m m' : SessionLifecycleManager async) a :
  sessions m !! s = Some a -> reachable b max a -> push_all s chunks m = (Ok tt, m') ->
  exists a', sessions m' !! s = Some a' /\ reachable b max a' /\ accepted a' = accepted a ++ non_empty chunks.
Proof.
  revert m a. induction chunks as [|chunk chunks IH]; intros m a Hs Hr Hp; cbn [push_all] in Hp.
  { injection Hp as <-. exists a. by rewrite app_nil_r. }
  unfold LifecyclePushAudio in Hp. rewrite Hs in Hp. cbn [session_push async_session] in Hp.
  destruct (PushAudio chunk (turns a)) as [[[]|e] a1] eqn:E; [|done].
  assert (reachable b max a1) as Hr1.
  { replace a1 with (client_step (OpPushAudio chunk) (turns a)) by (simpl; by rewrite E).
    by apply client_reachable, run_worker_reachable. }
  apply push_accepted in E. unfold turns in E. rewrite run_worker_accepted in E.
  destruct (IH (m <| sessions := <[s := a1]> (sessions m) |>) a1) as (a' & ? & ? & Ha); [by apply lookup_insert_eq|done|done|].
  exists a'. split_and!; [done..|]. rewrite Ha, E, <- (assoc_L (++)). unfold non_empty. by rewrite <- filter_app.
Qed.

(** What a finished session received, whichever way its worker was scheduled. *)
Lemma session_delivery b max s chunks (m m1 m2 : SessionLifecycleManager async) r :
  (max <= u64_max)%N -> sessions m !! s = Some (new_session b max) ->
  push_all s chunks m = (Ok tt, m1) ->
  FinishSessionAndCollectResult (Some s) m1 = (r, m2) ->
  exists a, sessions m2 !! s = Some a /\ reachable b max a /\ complete a = true /\
    (rr_ok r = true ->
     exists ps, calls a = ps ++ [CallFinish true] /\ Forall is_good_push ps /\
                delivered ps = non_empty chunks).
Proof.
  intros Hm Hs Hp Hf. destruct (push_all_accepted b max s chunks m m1 _ Hs (rtc_refl _ _) Hp) as (a1 & Hs1 & Hr1 & Ha1).
  destruct (async_finish_complete b max a1 Hm Hr1) as (Hr2 & Hc & Ha2).
  unfold FinishSessionAndCollectResult in Hf. cbn [mbind option_bind] in Hf. rewrite Hs1 in Hf.
  cbn [mbind option_bind session_finish session_poll async_session] in Hf.
  destruct (async_finish a1) as [res a2] eqn:E. cbn [snd] in *. injection Hf as <- <-.
  destruct (complete_stays b max (schedule a2) a2 Hm Hr2 Hc) as (Hc3 & _ & Hl3).
  exists (PollEvents (turns a2)).2. simpl.
  split; [by rewrite lookup_insert_eq|].
  split; [by apply (client_reachable _ _ OpPollEvents), run_worker_reachable|]. split; [done|].
  rewrite (proj1 (proj2 (collect_events_spec _ _))). intros [Hok _]%andb_true_iff.
  assert (success a2 = true) as Hsu.
  { unfold async_finish in E. injection E as <- <-. unfold Finish_return in Hok. rewrite Hc in Hok.
    by destruct (success _). }
  destruct (pc_inv_success _ _ (ai_pc _ (reachable_async_inv b max a2 Hm Hr2)) Hsu) as ((_ & Hd & _) & ps & Heq & Hg).
  exists ps. split_and!; [by rewrite <- Heq|done|].
  rewrite Ha2, Ha1, Heq, delivered_app, app_nil_r in Hd. simpl in Hd. done.
Qed.

(** No audio is lost between the controller and a streaming backend: for every
    scheduling of the session's worker, finishing a session through the lifecycle
    manager returns with the session complete, and when all pushes were accepted
    and the collected result is successful, the backend received exactly the
    non-empty chunks that were pushed, in order, accepted each of them and was
    finished once, after them. *)
Theorem streaming_delivery b max s chunks (m m1 m2 : SessionLifecycleManager async) r :
  (max <= u64_max)%N -> sessions m !! s = Some (new_session b max) ->
  push_all s chunks m = (Ok tt, m1) ->
  FinishSessionAndCollectResult (Some s) m1 = (r, m2) ->
  exists a, sessions m2 !! s = Some a /\ complete a = true /\
    (rr_ok r = true ->
     exists ps, calls a = ps ++ [CallFinish true] /\ Forall is_good_push ps /\
                delivered ps = non_empty chunks).
Proof.
  intros Hm Hs Hp Hf. destruct (session_delivery b max s chunks m m1 m2 r Hm Hs Hp Hf) as (a & Ha & _ & Hc & Hd). by exists a.
Qed.
End streaming.

(** ** A concrete streaming session, whose worker gets two turns before each call *)

Definition sample_schedule (_ : AsyncRecognitionSession nat) : nat := 2.
Definition sample_streaming : SessionLifecycleManager (AsyncRecognitionSession nat) :=
  no_sessions <| sessions := <[7 := new_session 5 48000]> ∅ |>.
Definition sample_pushes : list (list Z) := [[1; 2]%Z; []; [3]%Z].

Lemma streaming_delivery_witness :
  exists a ps, sessions (FinishSessionAndCollectResult (H := async_session sample_schedule) (Some 7)
      (push_all sample_schedule 7 sample_pushes sample_streaming).2).2 !! 7 = Some a /\
    calls a = ps ++ [CallFinish true] /\ delivered ps = [[1; 2]%Z; [3]%Z].
Proof.
  destruct (streaming_delivery sample_schedule 5 48000 7 sample_pushes sample_streaming
    (push_all sample_schedule 7 sample_pushes sample_streaming).2
    (FinishSessionAndCollectResult (H := async_session sample_schedule) (Some 7)
      (push_all sample_schedule 7 sample_pushes sample_streaming).2).2
    (FinishSessionAndCollectResult (H := async_session sample_schedule) (Some 7)
      (push_all sample_schedule 7 sample_pushes sample_streaming).2).1) as (a & Ha & _ & Hall);
    [vm_compute; discriminate|reflexivity|vm_compute; reflexivity|by destruct (FinishSessionAndCollectResult _ _)|].
  destruct Hall as (ps & Hc & _ & Hd); [vm_compute; reflexivity|].
  exists a, ps. split; [exact Ha|]. split; [exact Hc|]. rewrite Hd. reflexivity.
Defined.
