(* ===== verification/SessionManager.v ===== *)
(** * Backend management (src/src/daemon/asr/runtime/recognition_session_manager.cpp,
      backend_factory.cpp)

    The manager keeps one effective backend and reloads it on a worker thread.
    Every critical section of [state_mutex_] is a step; [reload_pc] is the
    position of the reload worker between two of them. Constructing a concrete
    backend (Sherpa models, command providers) and writing JSON text are
    parameters. *)

From S2P Require Import Prelude StringUtils Floats Json Scene CoreConfig RecognitionContract SessionLifecycle.

(** ** backend_factory.cpp *)

Section factory.
Context {Backend Context_ : Type}.
Context (enable_local_asr : bool).
Context (LoadLocalAsrModelContext : CoreConfig -> AsrProvider -> result Context_).
Context (context_backend : Context_ -> bytes).
Context (CreateSherpaOfflineBackend : CoreConfig -> AsrProvider -> Context_ -> result Backend).
Context (CreateSherpaStreamingBackend : AsrProvider -> Context_ -> result Backend).
Context (CreateCommandStreamingBackend CreateCommandBatchBackend : AsrProvider -> result Backend).

Definition IsStreamingCommandProvider (p : AsrProvider) : bool :=
  ends_with (AsrProviderId p) ".streaming".

Definition CreateLocalBackend (c : CoreConfig) (p : AsrProvider) : result Backend :=
  if negb enable_local_asr then Err "Local ASR support is disabled in this Lite build."
  else
    let! ctx := LoadLocalAsrModelContext c p in
    let backend_id := if is_empty (context_backend ctx) then "sherpa-offline" else context_backend ctx in
    if backend_id =b "sherpa-offline" then CreateSherpaOfflineBackend c p ctx
    else if backend_id =b "sherpa-streaming" then CreateSherpaStreamingBackend p ctx
    else Err ("Unsupported local ASR backend '" ++ backend_id ++ "' for provider '"
              ++ AsrProviderId p ++ "'.").

Definition CreateBackend (c : CoreConfig) : result Backend :=
  match ActiveAsrProvider c with
  | None => Err "Active ASR provider not found."
  | Some p =>
      if is_local p then CreateLocalBackend c p
      else if IsStreamingCommandProvider p then CreateCommandStreamingBackend p
      else CreateCommandBatchBackend p
  end.
End factory.

(** ** The sessions handed out keep their backend alive *)

(** [BackendKeepingSession]: forwards to the wrapped session, if any. *)
#[export] Instance keeping_session {B S} `{RecognitionSession S} : RecognitionSession (B * option S) := {
  session_push pcm s :=
    match s.2 with
    | None => (Err kSessionNotInitializedError, s)
    | Some st => let '(r, st) := session_push pcm st in (r, (s.1, Some st))
    end;
  session_finish s :=
    match s.2 with
    | None => (Err kSessionNotInitializedError, s)
    | Some st => let '(r, st) := session_finish st in (r, (s.1, Some st))
    end;
  session_cancel s := (s.1, session_cancel <$> s.2);
  session_interrupt s := (s.1, session_interrupt <$> s.2);
  session_poll s :=
    match s.2 with
    | None => ([], s)
    | Some st => let '(evs, st) := session_poll st in (evs, (s.1, Some st))
    end;
}.

(** ** Signatures *)

Definition ShouldDisableAsr (c : CoreConfig) : option bytes :=
  match ActiveAsrProvider c with
  | None => Some "No active ASR provider configured."
  | Some _ => None
  end.

(** A [std::map] in key order. *)
Definition env_members (env : gmap bytes bytes) : list (bytes * bytes) :=
  foldr (fun kv => map_set kv.1 kv.2) [] (map_to_list env).

Definition json_set (j : json) (k : bytes) (v : json) : json :=
  match j with JObject members => JObject (map_set k v members) | _ => j end.

Definition signature_json (c : CoreConfig) : json :=
  let j := json_set EmptyObject "active_provider" (JString (activeProvider (cc_asr c))) in
  match ActiveAsrProvider c with
  | None => j
  | Some p =>
      let pj := json_set EmptyObject "id" (JString (AsrProviderId p)) in
      let pj := json_set pj "type" (JString (AsrProviderType p)) in
      let pj := json_set pj "timeout_ms" (JNumber (f64_of_Z (AsrProviderTimeoutMs p))) in
      let pj :=
        match p with
        | LocalAsrProvider _ _ model hotwords =>
            let pj := json_set pj "model" (JString model) in
            let pj := json_set pj "hotwords_file" (JString hotwords) in
            json_set pj "vad_enabled" (JBool (vad_enabled (asr_vad (cc_asr c))))
        | CommandAsrProvider _ _ command args env =>
            let pj := json_set pj "command" (JString command) in
            let pj := json_set pj "args" (FromStrings args) in
            json_set pj "env" (FromStringMap (env_members env))
        end in
      json_set j "provider" pj
  end.

Record ReloadSnapshot := {
  rs_target_provider_id : bytes; rs_target_model_id : bytes;
  rs_effective_provider_id : bytes; rs_effective_model_id : bytes;
  rs_target_signature : bytes; rs_effective_signature : bytes;
  rs_last_error : bytes; rs_reload_in_progress : bool; rs_has_effective_backend : bool;
}.

Definition default_descriptor : BackendDescriptor :=
  {| bd_provider_id := []; bd_provider_type := []; bd_backend_id := [];
     bd_capabilities := {| audio_delivery_mode := Chunked; supports_streaming := false;
                           supports_partial_results := false; requires_network := false;
                           supports_hotwords := false |} |}.

Section manager.
Context {B S : Type} `{AsrBackend B S} `{RecognitionSession S}.
Context (ToText : json -> bytes).
Context (create_backend : CoreConfig -> result B).

Definition BuildRuntimeSignature (c : CoreConfig) : bytes := ToText (signature_json c).

Record PreparedBackend := {
  pb_backend : B; pb_descriptor : BackendDescriptor; pb_provider_id : bytes;
  pb_model_id : bytes; pb_signature : bytes;
}.

(** Where the reload worker stands. *)
Inductive reload_pc :=
  | R_stopped                                            (* not started, or exited *)
  | R_wait                                               (* reload_cv_.wait *)
  | R_prepare (settings : CoreConfig) (signature : bytes)
  | R_prepared (r : result PreparedBackend)
  | R_notify (success : bool) (message : bytes).

(** The [effective_*] members: the backend in use, with its identity. *)
Record Effective := {
  effective_backend : option B;
  effective_descriptor : BackendDescriptor;
  has_effective_descriptor : bool;
  effective_provider_id : bytes;
  effective_model_id : bytes;
  effective_backend_signature : bytes;
}.
(** The [target_*] members: the identity last asked for. *)
Record Target := {
  target_provider_id : bytes;
  target_model_id : bytes;
  target_backend_signature : bytes;
}.

Record RecognitionSessionManager := {
  reload_worker_running : bool;
  reload_requested : bool;
  reload_in_progress : bool;
  pending_settings : CoreConfig;
  target : Target;
  effective : Effective;
  last_reload_error : bytes;
  has_reload_callback : bool;
  reload_worker : reload_pc;
  notified : list (bool * bytes);   (* reload results reported to the callback *)
}.

#[export] Instance manager_fields : Fields RecognitionSessionManager := fun m =>
  {| reload_worker_running := reload_worker_running m; reload_requested := reload_requested m;
     reload_in_progress := reload_in_progress m; pending_settings := pending_settings m;
     target := target m; effective := effective m;
     last_reload_error := last_reload_error m; has_reload_callback := has_reload_callback m;
     reload_worker := reload_worker m; notified := notified m |}.

Definition no_effective : Effective :=
  {| effective_backend := None; effective_descriptor := default_descriptor;
     has_effective_descriptor := false; effective_provider_id := []; effective_model_id := [];
     effective_backend_signature := [] |}.
Definition no_target : Target :=
  {| target_provider_id := []; target_model_id := []; target_backend_signature := [] |}.

Definition new_manager : RecognitionSessionManager :=
  {| reload_worker_running := false; reload_requested := false; reload_in_progress := false;
     pending_settings := default_core_config; target := no_target; effective := no_effective;
     last_reload_error := []; has_reload_callback := false; reload_worker := R_stopped;
     notified := [] |}.

Definition ResetEffectiveBackend (m : RecognitionSessionManager) : RecognitionSessionManager :=
  m <| effective := no_effective |>.

Definition ApplyDisabledState (m : RecognitionSessionManager) : RecognitionSessionManager :=
  ResetEffectiveBackend
    (m <| pending_settings := default_core_config |>
       <| target := no_target |>
       <| last_reload_error := [] |>
       <| reload_requested := false |>
       <| reload_in_progress := false |>).

(** Creating, describing and warming up a backend. *)
Definition CreatePreparedBackend (settings : CoreConfig) : result PreparedBackend :=
  let! backend := create_backend settings in
  let descriptor := Describe backend in
  let! _ := BackendCreateSession backend in
  Ok {| pb_backend := backend; pb_descriptor := descriptor;
        pb_provider_id := bd_provider_id descriptor;
        pb_model_id := PreferredLocalModel settings;
        pb_signature := BuildRuntimeSignature settings |}.

Definition CreatePreparedBackendForReload (settings : CoreConfig) (signature : bytes)
  : result PreparedBackend :=
  let! p := CreatePreparedBackend settings in
  Ok {| pb_backend := pb_backend p; pb_descriptor := pb_descriptor p;
        pb_provider_id := pb_provider_id p; pb_model_id := pb_model_id p;
        pb_signature := signature |}.

(** The fields both activation paths assign. *)
Definition install_prepared (p : PreparedBackend) (m : RecognitionSessionManager)
  : RecognitionSessionManager :=
  m <| effective := {| effective_backend := Some (pb_backend p);
                       effective_descriptor := pb_descriptor p;
                       has_effective_descriptor := true;
                       effective_provider_id := pb_provider_id p;
                       effective_model_id := pb_model_id p;
                       effective_backend_signature := pb_signature p |} |>
    <| last_reload_error := [] |>.

Definition ActivatePreparedBackend (p : PreparedBackend) (m : RecognitionSessionManager)
  : RecognitionSessionManager :=
  install_prepared p m
    <| target := {| target_provider_id := pb_provider_id p; target_model_id := pb_model_id p;
                    target_backend_signature := pb_signature p |} |>.

Definition EnsureReloadWorkerStarted (m : RecognitionSessionManager) : RecognitionSessionManager :=
  if reload_worker_running m then m
  else m <| reload_worker_running := true |> <| reload_worker := R_wait |>.

Definition Initialize (settings : CoreConfig) (m : RecognitionSessionManager)
  : result unit * RecognitionSessionManager :=
  match ShouldDisableAsr settings with
  | Some reason => (Err reason, ApplyDisabledState m)
  | None =>
      match CreatePreparedBackend settings with
      | Err e =>
          (Err e, ResetEffectiveBackend m
             <| target := {| target_provider_id := target_provider_id (target m);
                             target_model_id := target_model_id (target m);
                             target_backend_signature := [] |} |>
             <| last_reload_error := e |>)
      | Ok p => (Ok tt, EnsureReloadWorkerStarted (ActivatePreparedBackend p m))
      end
  end.

Definition set_target (settings : CoreConfig) (m : RecognitionSessionManager)
  : RecognitionSessionManager :=
  m <| target := {| target_provider_id := match ActiveAsrProvider settings with
                                          | Some p => AsrProviderId p
                                          | None => []
                                          end;
                    target_model_id := PreferredLocalModel settings;
                    target_backend_signature := BuildRuntimeSignature settings |} |>.

Definition is_effective (settings : CoreConfig) (m : RecognitionSessionManager) : bool :=
  match effective_backend (effective m) with Some _ => true | None => false end
  && (effective_backend_signature (effective m) =b BuildRuntimeSignature settings)
  && negb (reload_in_progress m).

(** [SynchronizeBackend]: always [true]; the reload is asynchronous. *)
Definition SynchronizeBackend (settings : CoreConfig) (m : RecognitionSessionManager)
  : RecognitionSessionManager :=
  match ShouldDisableAsr settings with
  | Some _ => ApplyDisabledState m
  | None =>
      let m := EnsureReloadWorkerStarted m in
      if is_effective settings m then set_target settings m <| last_reload_error := [] |>
      else set_target settings (m <| pending_settings := settings |>)
             <| reload_requested := true |> <| last_reload_error := [] |>
  end.

Definition kStillLoadingError : bytes := "ASR backend is still loading. Please try again in a moment.".
Definition kNotReadyError : bytes := "ASR backend is not ready.".

(** [CreateSession] with the descriptor out-parameter. *)
Definition CreateSession (m : RecognitionSessionManager)
  : result (option BackendDescriptor * (B * option S)) :=
  match effective_backend (effective m) with
  | None => Err (if negb (is_empty (last_reload_error m)) then last_reload_error m
                 else if reload_in_progress m then kStillLoadingError else kNotReadyError)
  | Some backend =>
      let! s := BackendCreateSession backend in
      Ok (if has_effective_descriptor (effective m) then Some (effective_descriptor (effective m)) else None,
          (backend, Some s))
  end.

Definition GetReloadSnapshot (m : RecognitionSessionManager) : ReloadSnapshot :=
  {| rs_target_provider_id := target_provider_id (target m); rs_target_model_id := target_model_id (target m);
     rs_effective_provider_id := effective_provider_id (effective m); rs_effective_model_id := effective_model_id (effective m);
     rs_target_signature := target_backend_signature (target m);
     rs_effective_signature := effective_backend_signature (effective m);
     rs_last_error := last_reload_error m; rs_reload_in_progress := reload_in_progress m;
     rs_has_effective_backend := match effective_backend (effective m) with Some _ => true | None => false end |}.

Definition SetReloadResultCallback (callback : bool) (m : RecognitionSessionManager)
  : RecognitionSessionManager := m <| has_reload_callback := callback |>.

(** The two critical sections of [Shutdown]; the join waits in between. *)
Definition Shutdown_request (m : RecognitionSessionManager) : RecognitionSessionManager :=
  m <| reload_worker_running := false |> <| reload_requested := false |>.
Definition Shutdown_finish (m : RecognitionSessionManager) : RecognitionSessionManager :=
  ResetEffectiveBackend m <| target := no_target |> <| last_reload_error := [] |>.

(** One step of [ReloadWorkerMain]; [None] while it is blocked or stopped. *)
Definition ReloadWorkerMain (m : RecognitionSessionManager) : option RecognitionSessionManager :=
  match reload_worker m with
  | R_stopped => None
  | R_wait =>
      if negb (reload_requested m || negb (reload_worker_running m)) then None
      else if negb (reload_worker_running m) then Some (m <| reload_worker := R_stopped |>)
      else Some (m <| reload_requested := false |> <| reload_in_progress := true |>
                   <| reload_worker := R_prepare (pending_settings m) (target_backend_signature (target m)) |>)
  | R_prepare settings signature =>
      Some (m <| reload_worker := R_prepared (CreatePreparedBackendForReload settings signature) |>)
  | R_prepared (Ok p) =>
      Some (install_prepared p m <| reload_in_progress := false |> <| reload_worker := R_notify true [] |>)
  | R_prepared (Err e) =>
      Some (m <| last_reload_error := e |> <| reload_in_progress := false |>
              <| reload_worker := R_notify false e |>)
  | R_notify success message =>
      Some (m <| notified := if has_reload_callback m then notified m ++ [(success, message)]
                             else notified m |>
              <| reload_worker := R_wait |>)
  end.

(** [ConsumeEvents] of a session, cancelled or finished. *)
Fixpoint consume_events (evs : list RecognitionEvent) (r : RecognitionRunResult) : RecognitionRunResult :=
  match evs with
  | [] => r
  | e :: evs =>
      consume_events evs
        match ev_kind e with
        | PartialText | Completed => r
        | FinalText => r <| rr_text := ev_text e |>
        | ErrorEvent => r <| rr_ok := false |> <| rr_error := ev_error e |>
        end
  end.
Definition ConsumeEvents (session : option S) (cancel : bool) : RecognitionRunResult :=
  match session with
  | None => default_run_result <| rr_ok := false |> <| rr_error := kSessionNotInitializedError |>
  | Some st =>
      let result := default_run_result <| rr_available := true |> in
      let '(result, st) :=
        if cancel then (result, session_cancel st)
        else match session_finish st with
             | (Ok _, st) => (result, st)
             | (Err e, st) => (if is_empty e then result
                               else result <| rr_ok := false |> <| rr_error := e |>, st)
             end in
      consume_events (session_poll st).1 result
  end.

(** ** Executions *)

Inductive manager_step (m : RecognitionSessionManager) : RecognitionSessionManager -> Prop :=
  | ms_sync settings : manager_step m (SynchronizeBackend settings m)
  | ms_callback c : manager_step m (SetReloadResultCallback c m)
  | ms_worker m' : ReloadWorkerMain m = Some m' -> manager_step m m'.

(** From the start-up of the daemon: one [Initialize], then any interleaving. *)
Definition manager_reachable (m : RecognitionSessionManager) : Prop :=
  exists settings, rtc manager_step (Initialize settings new_manager).2 m.

Definition loading (pc : reload_pc) : bool :=
  match pc with R_prepare _ _ | R_prepared _ => true | _ => false end.

Record manager_inv (m : RecognitionSessionManager) : Prop := {
  mi_descriptor : has_effective_descriptor (effective m) = bool_decide (is_Some (effective_backend (effective m)));
  mi_provider : effective_provider_id (effective m) = bd_provider_id (effective_descriptor (effective m));
  mi_empty : effective_backend (effective m) = None -> effective_backend_signature (effective m) = [];
  mi_loading : loading (reload_worker m) = true ->
               reload_in_progress m = true \/ effective_backend (effective m) = None;
  mi_idle : loading (reload_worker m) = false -> reload_in_progress m = false;
  mi_running : reload_worker_running m = true <-> reload_worker m <> R_stopped;
  mi_request : reload_requested m = true -> reload_worker_running m = true;
  mi_prepared : match reload_worker m with
                | R_prepared (Ok p) => pb_provider_id p = bd_provider_id (pb_descriptor p)
                | _ => True
                end;
}.

Lemma CreatePrepared_provider settings p :
  CreatePreparedBackend settings = Ok p -> pb_provider_id p = bd_provider_id (pb_descriptor p).
Proof.
  unfold CreatePreparedBackend. intros (b & _ & (s & _ & Hok)%result_bind_Ok)%result_bind_Ok.
  by injection Hok as <-.
Qed.

Lemma manager_inv_disabled m : manager_inv m -> manager_inv (ApplyDisabledState m).
Proof. intros []. split; try done; by right. Qed.

Lemma manager_inv_ensure m : manager_inv m -> manager_inv (EnsureReloadWorkerStarted m).
Proof.
  intros Hm. unfold EnsureReloadWorkerStarted. destruct (reload_worker_running m) eqn:Hr; [done|].
  destruct Hm as [H1 H2 H3 H4 H5 H6 H7 H8].
  assert (reload_worker m = R_stopped) as Hs.
  { destruct (reload_worker m) eqn:Hw; try done;
      (assert (reload_worker_running m = true) by (apply H6; congruence)); congruence. }
  split; simpl; try done. rewrite Hs in H5. auto.
Qed.

Lemma manager_inv_initialize settings : manager_inv (Initialize settings new_manager).2.
Proof.
  assert (manager_inv new_manager) as Hn by by split.
  unfold Initialize. destruct (ShouldDisableAsr settings); [by apply manager_inv_disabled|].
  destruct (CreatePreparedBackend settings) as [p|e] eqn:Hp; simpl; [|by split].
  apply manager_inv_ensure. apply CreatePrepared_provider in Hp. by split.
Qed.

Lemma manager_inv_sync settings m : manager_inv m -> manager_inv (SynchronizeBackend settings m).
Proof.
  intros Hm. unfold SynchronizeBackend. destruct (ShouldDisableAsr settings); [by apply manager_inv_disabled|].
  pose proof (manager_inv_ensure m Hm) as [H1 H2 H3 H4 H5 H6 H7 H8].
  assert (reload_worker_running (EnsureReloadWorkerStarted m) = true) as Hr.
  { unfold EnsureReloadWorkerStarted. by destruct (reload_worker_running m) eqn:E. }
  destruct (is_effective settings _); by split.
Qed.

Lemma manager_inv_worker m m' : ReloadWorkerMain m = Some m' -> manager_inv m -> manager_inv m'.
Proof.
  unfold ReloadWorkerMain. intros Hw [H1 H2 H3 H4 H5 H6 H7 H8].
  destruct (reload_worker m) as [| |settings sg|[p|e]|ok msg] eqn:Hpc; [done|..];
    (assert (reload_worker_running m = true -> forall pc, pc <> R_stopped -> reload_worker_running m = true <-> pc <> R_stopped) as Hrun by done).
  - destruct (reload_requested m), (reload_worker_running m) eqn:Hr; simplify_eq/=.
    + split; simpl; try done; first [by left|by rewrite Hr|by split].
    + specialize (H7 eq_refl). congruence.
    + assert (false = true) by (by apply H6). congruence.
  - injection Hw as <-. split; simpl; auto; [apply Hrun; [by apply H6|done]|].
    unfold CreatePreparedBackendForReload.
    destruct (CreatePreparedBackend settings) as [p|] eqn:Hp; simpl; [|done].
    by apply CreatePrepared_provider in Hp.
  - injection Hw as <-. split; simpl; try done. apply Hrun; [by apply H6|done].
  - injection Hw as <-. split; simpl; try done. apply Hrun; [by apply H6|done].
  - injection Hw as <-. split; simpl; auto; try done. apply Hrun; [by apply H6|done].
Qed.

Lemma reachable_manager_inv m : manager_reachable m -> manager_inv m.
Proof.
  intros (settings & Hr). revert m Hr. apply (rtc_ind_r manager_inv); [apply manager_inv_initialize|].
  intros m1 m2 _ [s|c|m' Hw] Hi; [by apply manager_inv_sync|by destruct Hi|by eapply manager_inv_worker].
Qed.

(** ** Convergence of a reload *)

Fixpoint run_worker (n : nat) (m : RecognitionSessionManager) : RecognitionSessionManager :=
  match n with
  | O => m
  | Datatypes.S n => match ReloadWorkerMain m with Some m' => run_worker n m' | None => m end
  end.

Lemma run_worker_S n m m' : ReloadWorkerMain m = Some m' -> run_worker (Datatypes.S n) m = run_worker n m'.
Proof. intros Hw. simpl. by rewrite Hw. Qed.

Lemma run_worker_idle n m : ReloadWorkerMain m = None -> run_worker n m = m.
Proof. intros Hw. destruct n; simpl; [done|]. by rewrite Hw. Qed.

(** The outcome of a reload for [settings]. *)
Definition reloaded (settings : CoreConfig) (m : RecognitionSessionManager) : Prop :=
  ReloadWorkerMain m = None /\ reload_requested m = false /\ reload_in_progress m = false /\
  target_backend_signature (target m) = BuildRuntimeSignature settings /\
  (is_Some (effective_backend (effective m)) /\
   effective_backend_signature (effective m) = BuildRuntimeSignature settings /\
   last_reload_error m = []
   \/ exists e, CreatePreparedBackend settings = Err e /\ last_reload_error m = e).

(** The worker back at its wait with nothing requested is idle. *)
Lemma worker_idle m :
  reload_worker m = R_wait -> reload_requested m = false -> reload_worker_running m = true ->
  ReloadWorkerMain m = None.
Proof. intros Hpc Hq Hr. unfold ReloadWorkerMain. by rewrite Hpc, Hq, Hr. Qed.

(** A prepared backend, or a failure, for [settings] is applied and notified. *)
Lemma reload_from_prepared n settings m :
  2 <= n -> reload_worker m = R_prepared (CreatePreparedBackendForReload settings (BuildRuntimeSignature settings)) ->
  reload_requested m = false -> reload_worker_running m = true ->
  target_backend_signature (target m) = BuildRuntimeSignature settings ->
  reloaded settings (run_worker n m).
Proof.
  intros Hn Hpc Hq Hr Hsig. do 2 (destruct n as [|n]; [lia|]).
  unfold CreatePreparedBackendForReload in Hpc.
  destruct (CreatePreparedBackend settings) as [p|e] eqn:Hp; cbn [result_bind] in Hpc.
  - erewrite run_worker_S by (unfold ReloadWorkerMain; rewrite Hpc; reflexivity).
    erewrite run_worker_S by reflexivity. rewrite run_worker_idle by (by apply worker_idle).
    split; [by apply worker_idle|]. split; [exact Hq|]. split; [reflexivity|]. split; [exact Hsig|].
    left. split; [by eexists|]. split; reflexivity.
  - erewrite run_worker_S by (unfold ReloadWorkerMain; rewrite Hpc; reflexivity).
    erewrite run_worker_S by reflexivity. rewrite run_worker_idle by (by apply worker_idle).
    split; [by apply worker_idle|]. split; [exact Hq|]. split; [reflexivity|]. split; [exact Hsig|].
    right. exists e. split; [exact Hp|reflexivity].
Qed.

(** A request found by the waiting worker is served in four steps. *)
Lemma reload_from_wait n settings m :
  4 <= n -> reload_worker m = R_wait -> reload_requested m = true -> reload_worker_running m = true ->
  pending_settings m = settings -> target_backend_signature (target m) = BuildRuntimeSignature settings ->
  reloaded settings (run_worker n m).
Proof.
  intros Hn Hpc Hq Hr Hset Hsig. do 2 (destruct n as [|n]; [lia|]).
  erewrite run_worker_S by (unfold ReloadWorkerMain; rewrite Hpc, Hq, Hr; reflexivity).
  erewrite run_worker_S by reflexivity. rewrite Hset, Hsig.
  apply reload_from_prepared; [lia|reflexivity|reflexivity|exact Hr|exact Hsig].
Qed.

(** A running worker with a request for [settings] serves it, whatever it was doing. *)
Lemma reload_from_any m settings :
  reload_worker m <> R_stopped -> reload_requested m = true -> reload_worker_running m = true ->
  pending_settings m = settings -> target_backend_signature (target m) = BuildRuntimeSignature settings ->
  reloaded settings (run_worker 8 m).
Proof.
  intros Hne Hq Hr Hset Hsig.
  assert (forall m' n, 4 <= n -> reload_worker m' = R_wait -> reload_requested m' = reload_requested m ->
    reload_worker_running m' = reload_worker_running m -> pending_settings m' = pending_settings m ->
    target m' = target m -> reloaded settings (run_worker n m')) as Hwait.
  { intros m' n Hn Hpc E1 E2 E3 E4. apply reload_from_wait; congruence. }
  assert (forall m' n ok msg, 5 <= n -> reload_worker m' = R_notify ok msg -> reload_requested m' = reload_requested m ->
    reload_worker_running m' = reload_worker_running m -> pending_settings m' = pending_settings m ->
    target m' = target m -> reloaded settings (run_worker n m')) as Hnotify.
  { intros m' n ok msg Hn Hpc E1 E2 E3 E4. destruct n as [|n]; [lia|].
    erewrite run_worker_S by (unfold ReloadWorkerMain; rewrite Hpc; reflexivity).
    apply Hwait; [lia|reflexivity|exact E1|exact E2|exact E3|exact E4]. }
  destruct (reload_worker m) as [| |st sg|[p|e]|ok msg] eqn:Hpc; [done|..].
  - by apply Hwait; [lia|..].
  - erewrite run_worker_S by (unfold ReloadWorkerMain; rewrite Hpc; reflexivity).
    destruct (CreatePreparedBackendForReload st sg) as [p|e];
      (erewrite run_worker_S by reflexivity; eapply Hnotify; [|reflexivity..]; lia).
  - erewrite run_worker_S by (unfold ReloadWorkerMain; rewrite Hpc; reflexivity).
    eapply Hnotify; [|reflexivity..]; lia.
  - erewrite run_worker_S by (unfold ReloadWorkerMain; rewrite Hpc; reflexivity).
    eapply Hnotify; [|reflexivity..]; lia.
  - eapply Hnotify; [|exact Hpc|reflexivity..]; lia.
Qed.

Lemma ensure_running m :
  manager_inv m ->
  reload_worker_running (EnsureReloadWorkerStarted m) = true /\
  reload_worker (EnsureReloadWorkerStarted m) <> R_stopped.
Proof.
  intros Hm. pose proof (mi_running _ (manager_inv_ensure m Hm)) as Hiff.
  assert (reload_worker_running (EnsureReloadWorkerStarted m) = true) as Hr.
  { unfold EnsureReloadWorkerStarted. by destruct (reload_worker_running m) eqn:E. }
  split; [done|]. by apply Hiff.
Qed.

(** C13. Reloading converges: in any reachable state with no reload waiting, a
    synchronisation with an enabled configuration leads, once the worker has run,
    to an effective backend with the signature of that configuration, or to the
    error of creating it as the recorded reload error; nothing stays in progress.
    At most eight worker steps are needed, also when another reload was under way. *)
Theorem reload_converges m settings :
  manager_reachable m -> ShouldDisableAsr settings = None -> reload_requested m = false ->
  reloaded settings (run_worker 8 (SynchronizeBackend settings m)).
Proof.
  intros Hm%reachable_manager_inv Hen Hq. unfold SynchronizeBackend. rewrite Hen.
  destruct (ensure_running m Hm) as [Hr Hne]. pose proof (manager_inv_ensure m Hm) as Hi.
  assert (reload_requested (EnsureReloadWorkerStarted m) = false) as Hq'.
  { unfold EnsureReloadWorkerStarted. by destruct (reload_worker_running m). }
  revert Hr Hne Hi Hq'. generalize (EnsureReloadWorkerStarted m). clear m Hm Hq. intros m Hr Hne Hi Hq.
  destruct (is_effective settings m) eqn:He.
  - apply andb_prop in He as [[Hb Hs]%andb_prop Hp%negb_true_iff]. apply bool_decide_eq_true in Hs.
    destruct (effective_backend (effective m)) as [b|] eqn:Eb; [|done].
    assert (forall m', reload_worker m' = R_wait -> reload_requested m' = reload_requested m ->
      reload_worker_running m' = reload_worker_running m -> reload_in_progress m' = reload_in_progress m ->
      effective m' = effective m -> last_reload_error m' = [] ->
      target_backend_signature (target m') = BuildRuntimeSignature settings ->
      forall n, reloaded settings (run_worker n m')) as Hdone.
    { intros m' E1 E2 E3 E4 E5 E6 E7 n. rewrite run_worker_idle by (apply worker_idle; congruence).
      split; [apply worker_idle; congruence|]. split; [congruence|]. split; [congruence|]. split; [done|].
      left. rewrite E5, Eb. split; [by eexists|done]. }
    pose proof (mi_loading _ Hi) as Hl. rewrite Hp, Eb in Hl.
    destruct (reload_worker m) as [| |st sg|r|ok msg] eqn:Hpc;
      [done| |by destruct (Hl eq_refl)|by destruct (Hl eq_refl)|].
    + by apply Hdone.
    + erewrite run_worker_S by (unfold ReloadWorkerMain; simpl; rewrite Hpc; reflexivity).
      by apply Hdone.
  - by apply reload_from_any.
Qed.

(** ** Three defects *)

Lemma prepared_signature settings p :
  CreatePreparedBackend settings = Ok p -> pb_signature p = BuildRuntimeSignature settings.
Proof.
  unfold CreatePreparedBackend. intros (b & _ & (s & _ & Hok)%result_bind_Ok)%result_bind_Ok.
  by injection Hok as <-.
Qed.

Lemma initialized settings p :
  ShouldDisableAsr settings = None -> CreatePreparedBackend settings = Ok p ->
  (Initialize settings new_manager).2
  = ActivatePreparedBackend p new_manager <| reload_worker_running := true |> <| reload_worker := R_wait |>.
Proof. intros Hen Hp. unfold Initialize. by rewrite Hen, Hp. Qed.

Lemma ensure_noop m : reload_worker_running m = true -> EnsureReloadWorkerStarted m = m.
Proof. intros Hr. unfold EnsureReloadWorkerStarted. by rewrite Hr. Qed.

Lemma sync_same settings m :
  ShouldDisableAsr settings = None -> reload_worker_running m = true -> is_effective settings m = true ->
  SynchronizeBackend settings m = set_target settings m <| last_reload_error := [] |>.
Proof. intros Hen Hr He. unfold SynchronizeBackend. by rewrite Hen, ensure_noop, He. Qed.

Lemma sync_queues settings m :
  ShouldDisableAsr settings = None -> reload_worker_running m = true -> is_effective settings m = false ->
  SynchronizeBackend settings m
  = set_target settings (m <| pending_settings := settings |>)
      <| reload_requested := true |> <| last_reload_error := [] |>.
Proof. intros Hen Hr He. unfold SynchronizeBackend. by rewrite Hen, ensure_noop, He. Qed.

Lemma is_effective_spec settings m :
  is_effective settings m = true <->
  is_Some (effective_backend (effective m)) /\
  effective_backend_signature (effective m) = BuildRuntimeSignature settings /\
  reload_in_progress m = false.
Proof.
  unfold is_effective. rewrite !andb_true_iff, bool_decide_eq_true, negb_true_iff.
  destruct (effective_backend (effective m)) as [x|].
  - split; [intros [[_ ?] ?]|intros (_ & ? & ?)]; split_and!; done || by exists x.
  - split; [by intros [[? ?] ?]|by intros ([? ?] & ? & ?)].
Qed.

(** The worker loads the pending settings under the target signature of the
    moment at which it picks the request up. *)
Lemma worker_serves n m p :
  4 <= n -> reload_worker m = R_wait -> reload_requested m = true -> reload_worker_running m = true ->
  CreatePreparedBackend (pending_settings m) = Ok p ->
  let m' := run_worker n m in
  ReloadWorkerMain m' = None /\ reload_worker_running m' = true /\ reload_in_progress m' = false /\
  reload_requested m' = false /\ target m' = target m /\
  effective_backend (effective m') = Some (pb_backend p) /\
  effective_backend_signature (effective m') = target_backend_signature (target m).
Proof.
  intros Hn Hpc Hq Hr Hp. do 4 (destruct n as [|n]; [lia|]). cbv zeta.
  erewrite run_worker_S by (unfold ReloadWorkerMain; rewrite Hpc, Hq, Hr; reflexivity).
  erewrite run_worker_S by reflexivity. unfold CreatePreparedBackendForReload. rewrite Hp. cbn [result_bind].
  do 2 erewrite run_worker_S by reflexivity. rewrite run_worker_idle by (by apply worker_idle).
  split; [by apply worker_idle|]. split_and!; (exact Hr || reflexivity).
Qed.

(** Switching to [b] and back to [a] before the worker runs. *)
Lemma switch_and_back a b pa :
  ShouldDisableAsr a = None -> ShouldDisableAsr b = None -> CreatePreparedBackend a = Ok pa ->
  BuildRuntimeSignature a <> BuildRuntimeSignature b ->
  exists x, SynchronizeBackend a (SynchronizeBackend b (Initialize a new_manager).2) = x /\
    reload_worker x = R_wait /\ reload_requested x = true /\ reload_worker_running x = true /\
    pending_settings x = b /\ target_backend_signature (target x) = BuildRuntimeSignature a.
Proof.
  intros Ha Hb Hpa Hne. pose proof (prepared_signature a pa Hpa) as Hsig.
  rewrite (initialized a pa Ha Hpa).
  rewrite (sync_queues b); [|done|done|apply not_true_is_false; intros (_ & Hs & _)%is_effective_spec; exact (Hne (eq_trans (eq_sym Hsig) Hs))].
  rewrite (sync_same a); [|done|done|apply is_effective_spec; split; [by eexists|split; [exact Hsig|reflexivity]]].
  eexists; split; [reflexivity|]. split_and!; reflexivity.
Qed.

(** Defect: switching to another provider and back before the reload worker
    wakes up leaves the request pending while the target signature is already the
    old one again. The worker then loads the other provider's backend under the
    wrong signature: the daemon keeps recognising with provider B although A was
    selected last, and synchronising with A again does not repair it. *)
Theorem stale_reload_mislabels a b pa pb :
  ShouldDisableAsr a = None -> ShouldDisableAsr b = None ->
  CreatePreparedBackend a = Ok pa -> CreatePreparedBackend b = Ok pb ->
  BuildRuntimeSignature a <> BuildRuntimeSignature b ->
  let m := run_worker 8 (SynchronizeBackend a (SynchronizeBackend b (Initialize a new_manager).2)) in
  ReloadWorkerMain m = None /\
  effective_backend (effective m) = Some (pb_backend pb) /\
  effective_backend_signature (effective m) = BuildRuntimeSignature a /\
  effective (SynchronizeBackend a m) = effective m /\
  reload_requested (SynchronizeBackend a m) = false.
Proof.
  intros Ha Hb Hpa Hpb Hne. destruct (switch_and_back a b pa Ha Hb Hpa Hne) as (x & -> & Hx1 & Hx2 & Hx3 & Hx4 & Hx5).
  rewrite <-Hx4 in Hpb. destruct (worker_serves 8 x pb ltac:(lia) Hx1 Hx2 Hx3 Hpb) as (H1 & H2 & H3 & H4 & H5 & H6 & H7).
  revert H1 H2 H3 H4 H5 H6 H7. generalize (run_worker 8 x). intros y H1 H2 H3 H4 H5 H6 H7. cbv zeta.
  rewrite Hx5 in H7. split; [exact H1|]. split; [exact H6|]. split; [exact H7|].
  rewrite (sync_same a y Ha H2); [split; [reflexivity|exact H4]|].
  apply is_effective_spec. split; [by eexists|by split].
Qed.

(** [b] requested after start-up with [a], and its backend just created. *)
Lemma reload_under_way a b pa pb :
  ShouldDisableAsr a = None -> ShouldDisableAsr b = None -> CreatePreparedBackend a = Ok pa ->
  CreatePreparedBackend b = Ok pb -> BuildRuntimeSignature a <> BuildRuntimeSignature b ->
  exists y, run_worker 2 (SynchronizeBackend b (Initialize a new_manager).2) = y /\
    exists p, pb_backend p = pb_backend pb /\ reload_worker y = R_prepared (Ok p) /\
              reload_worker_running y = true.
Proof.
  intros Ha Hb Hpa Hpb Hne. pose proof (prepared_signature a pa Hpa) as Hsig.
  rewrite (initialized a pa Ha Hpa).
  rewrite (sync_queues b); [|done|done|apply not_true_is_false; intros (_ & Hs & _)%is_effective_spec; exact (Hne (eq_trans (eq_sym Hsig) Hs))].
  erewrite (run_worker_S 1) by reflexivity. erewrite run_worker_S by reflexivity.
  eexists; split; [reflexivity|]. eexists. split; [|split; [|reflexivity]]; cycle 1.
  - cbn [run_worker]. simpl reload_worker. unfold CreatePreparedBackendForReload. rewrite Hpb. reflexivity.
  - reflexivity.
Qed.

Lemma worker_installs n m p :
  2 <= n -> reload_worker m = R_prepared (Ok p) -> reload_requested m = false ->
  reload_worker_running m = true ->
  ReloadWorkerMain (run_worker n m) = None /\
  effective_backend (effective (run_worker n m)) = Some (pb_backend p) /\
  target (run_worker n m) = target m.
Proof.
  intros Hn Hpc Hq Hr. do 2 (destruct n as [|n]; [lia|]).
  erewrite run_worker_S by (unfold ReloadWorkerMain; rewrite Hpc; reflexivity).
  erewrite run_worker_S by reflexivity. rewrite run_worker_idle by (by apply worker_idle).
  split; [by apply worker_idle|]. split; reflexivity.
Qed.

(** Defect: disabling recognition while a reload is under way does not stop it.
    The worker installs the backend afterwards, so a disabled manager ends up with
    an effective backend and hands out sessions. *)
Theorem disabled_reload_revives a b pa pb off reason :
  ShouldDisableAsr a = None -> ShouldDisableAsr b = None -> ShouldDisableAsr off = Some reason ->
  CreatePreparedBackend a = Ok pa -> CreatePreparedBackend b = Ok pb ->
  BuildRuntimeSignature a <> BuildRuntimeSignature b ->
  let loading := run_worker 2 (SynchronizeBackend b (Initialize a new_manager).2) in
  let m := run_worker 8 (SynchronizeBackend off loading) in
  effective_backend (effective (SynchronizeBackend off loading)) = None /\
  ReloadWorkerMain m = None /\
  effective_backend (effective m) = Some (pb_backend pb) /\
  target_backend_signature (target m) = [].
Proof.
  intros Ha Hb Hoff Hpa Hpb Hne. cbv zeta.
  destruct (reload_under_way a b pa pb Ha Hb Hpa Hpb Hne) as (y & -> & p & Hp & Hy1 & Hy2).
  assert (SynchronizeBackend off y = ApplyDisabledState y) as ->.
  { unfold SynchronizeBackend. by rewrite Hoff. }
  split; [reflexivity|]. rewrite <-Hp.
  destruct (worker_installs 8 (ApplyDisabledState y) p) as (H1 & H2 & H3); [lia|exact Hy1|reflexivity|exact Hy2|].
  split; [exact H1|]. split; [exact H2|]. by rewrite H3.
Qed.

Definition with_vad (c : CoreConfig) (v : Vad) : CoreConfig :=
  {| cc_version := cc_version c; baseUrls := baseUrls c; cc_global := cc_global c; cc_llm := cc_llm c;
     cc_asr := {| activeProvider := activeProvider (cc_asr c); normalizeAudio := normalizeAudio (cc_asr c);
                  inputGain := inputGain (cc_asr c); asr_vad := v;
                  asr_providers := asr_providers (cc_asr c) |};
     cc_scenes := cc_scenes c; triggers := triggers c; receivers := receivers c |}.

(** Defect: the signature covers only whether voice activity detection is
    enabled. Changing its threshold, durations or padding, which the offline
    backend copies when it is created, is not recognised as a change: the backend
    with the old values stays in use and no reload is requested. *)
Theorem vad_change_not_reloaded c v m :
  is_effective c m = true -> ShouldDisableAsr c = None -> reload_worker_running m = true ->
  vad_enabled v = vad_enabled (asr_vad (cc_asr c)) ->
  let m' := SynchronizeBackend (with_vad c v) m in
  effective m' = effective m /\ reload_requested m' = reload_requested m /\
  reload_worker m' = reload_worker m.
Proof.
  intros He Hen Hr Hv. assert (BuildRuntimeSignature (with_vad c v) = BuildRuntimeSignature c) as Hsig.
  { unfold BuildRuntimeSignature, signature_json. cbn [with_vad cc_asr activeProvider asr_vad]. by rewrite Hv. }
  cbv zeta. rewrite (sync_same (with_vad c v)); [by split_and!|exact Hen|exact Hr|].
  apply is_effective_spec. rewrite Hsig. by apply is_effective_spec.
Qed.
End manager.
Arguments Effective B : clear implicits.
Arguments RecognitionSessionManager B : clear implicits.
Arguments reload_pc B : clear implicits.
Arguments PreparedBackend B : clear implicits.

(** ** Concrete runs

    A backend that remembers the provider it was created for, with the active
    provider as signature text. *)

#[export] Instance sample_backend : AsrBackend bytes unit := {
  Describe b := {| bd_provider_id := b; bd_provider_type := kLocalProviderType; bd_backend_id := "sample";
                   bd_capabilities := bd_capabilities default_descriptor |};
  BackendCreateSession _ := Ok tt;
}.

Definition sample_text (j : json) : bytes := String j "active_provider" [].
Definition sample_create (c : CoreConfig) : result bytes := Ok (activeProvider (cc_asr c)).

Definition sample_config (active : bytes) : CoreConfig :=
  with_asr_providers
    {| cc_version := []; baseUrls := []; cc_global := cc_global default_core_config;
       cc_llm := cc_llm default_core_config;
       cc_asr := {| activeProvider := active; normalizeAudio := true;
                    inputGain := inputGain (cc_asr default_core_config);
                    asr_vad := asr_vad (cc_asr default_core_config); asr_providers := [] |};
       cc_scenes := cc_scenes default_core_config; triggers := []; receivers := [] |}
    [LocalAsrProvider "a" 0 "m1" []; LocalAsrProvider "b" 0 "m2" []].

Definition sample_prepared (id : bytes) : PreparedBackend bytes :=
  {| pb_backend := id; pb_descriptor := Describe id; pb_provider_id := id;
     pb_model_id := PreferredLocalModel (sample_config id); pb_signature := id |}.

Lemma reload_converges_witness :
  reloaded sample_text sample_create (sample_config "b")
    (run_worker sample_text sample_create 8
       (SynchronizeBackend sample_text (sample_config "b")
          (Initialize sample_text sample_create (sample_config "a") new_manager).2)).
Proof.
  apply reload_converges; [exists (sample_config "a"); apply rtc_refl|reflexivity|reflexivity].
Defined.

Lemma stale_reload_mislabels_witness :
  effective_backend (effective (run_worker sample_text sample_create 8
    (SynchronizeBackend sample_text (sample_config "a")
      (SynchronizeBackend sample_text (sample_config "b")
        (Initialize sample_text sample_create (sample_config "a") new_manager).2)))) = Some "b".
Proof.
  apply (stale_reload_mislabels sample_text sample_create (sample_config "a") (sample_config "b")
    (sample_prepared "a") (sample_prepared "b")); try reflexivity. vm_compute. discriminate.
Defined.

Lemma disabled_reload_revives_witness :
  effective_backend (effective (run_worker sample_text sample_create 8
    (SynchronizeBackend sample_text (sample_config [])
      (run_worker sample_text sample_create 2
        (SynchronizeBackend sample_text (sample_config "b")
          (Initialize sample_text sample_create (sample_config "a") new_manager).2))))) = Some "b".
Proof.
  apply (disabled_reload_revives sample_text sample_create (sample_config "a") (sample_config "b")
    (sample_prepared "a") (sample_prepared "b") (sample_config []) "No active ASR provider configured.");
    try reflexivity. vm_compute. discriminate.
Defined.

Lemma vad_change_not_reloaded_witness :
  let m := (Initialize sample_text sample_create (sample_config "a") new_manager).2 in
  effective (SynchronizeBackend sample_text
    (with_vad (sample_config "a")
       {| vad_enabled := true; vad_threshold := f64_lit 9 10; minSpeechDuration := f64_of_Z 1;
          minSilenceDuration := f64_of_Z 1; speechPadMs := 0 |}) m) = effective m.
Proof.
  apply (vad_change_not_reloaded sample_text (sample_config "a")); reflexivity.
Defined.
