(* ===== verification/RecognitionResult.v ===== *)
(** * Recognition results (src/src/common/asr/recognition_result.cpp) and the
      recognition pipeline (src/src/daemon/runtime/recognition_pipeline.cpp)

    The JSON reader and writer of Glaze are parameters: [read] yields the wire
    structure with optional members, [write] the text of a payload. *)

From S2P Require Import Prelude Scene CoreConfig.

Definition kSourceRaw : bytes := "raw".
Definition kSourceLlm : bytes := "llm".
Definition kSourceAsr : bytes := "asr".
Definition kSourceCancel : bytes := "cancel".

Record Candidate := { cand_text : bytes; cand_source : bytes }.
Record Payload := { commitText : bytes; candidates : list Candidate }.

#[export] Instance Candidate_eq_dec : EqDecision Candidate.
Proof. solve_decision. Defined.
#[export] Instance Payload_eq_dec : EqDecision Payload.
Proof. solve_decision. Defined.

Definition empty_payload : Payload := {| commitText := []; candidates := [] |}.

Record WireCandidate := { wc_text : option bytes; wc_source : option bytes }.
Record WirePayload := { wp_commit_text : option bytes; wp_candidates : option (list WireCandidate) }.

(** The candidates kept by [Parse]: those with a non-empty text. *)
Definition wire_candidate (w : WireCandidate) : option Candidate :=
  match wc_text w with
  | Some text => if is_empty text then None
                 else Some {| cand_text := text; cand_source := default [] (wc_source w) |}
  | None => None
  end.

Definition ParseWire (wire : WirePayload) : Payload :=
  let commit := default [] (wp_commit_text wire) in
  let cands := match wp_candidates wire with Some l => omap wire_candidate l | None => [] end in
  let commit := match commit, cands with [], c :: _ => cand_text c | _, _ => commit end in
  let cands := match cands, commit with
               | [], _ :: _ => [{| cand_text := commit; cand_source := kSourceRaw |}]
               | _, _ => cands
               end in
  match commit, cands with
  | [], [] => empty_payload
  | _, _ => {| commitText := commit; candidates := cands |}
  end.

Section wire.
Context (read : bytes -> option WirePayload) (write : Payload -> option bytes).

Definition Serialize (p : Payload) : bytes := default [] (write p).

Definition ParsePayload (text : bytes) : Payload :=
  if is_empty text then empty_payload
  else match read text with Some wire => ParseWire wire | None => empty_payload end.

(** What JSON writes of a payload and reads back. *)
Definition wire_of (p : Payload) : WirePayload :=
  {| wp_commit_text := Some (commitText p);
     wp_candidates := Some ((fun c => {| wc_text := Some (cand_text c);
                                         wc_source := Some (cand_source c) |}) <$> candidates p) |}.

(** Payloads the daemon builds: a commit text exactly when there are
    candidates, and no empty candidate. *)
Record payload_ok (p : Payload) : Prop := {
  po_commit : commitText p = [] <-> candidates p = [];
  po_candidates : Forall (fun c => cand_text c <> []) (candidates p);
}.

Lemma omap_wire l :
  Forall (fun c => cand_text c <> []) l ->
  omap wire_candidate ((fun c => {| wc_text := Some (cand_text c); wc_source := Some (cand_source c) |}) <$> l) = l.
Proof.
  induction 1 as [|[t s] l Ht _ IH]; [done|]. rewrite fmap_cons. cbn [omap list_omap].
  unfold wire_candidate at 1; simpl in *. destruct t; [done|]. simpl. f_equal. exact IH.
Qed.

(** A payload survives the D-Bus wire: parsing the serialised form of a payload
    built by the daemon gives it back, given that the JSON library reads back what
    it wrote. *)
Theorem Parse_Serialize p text :
  write p = Some text -> text <> [] -> read text = Some (wire_of p) -> payload_ok p ->
  ParsePayload (Serialize p) = p.
Proof.
  intros Hw Hne Hr [Hc Hcands]. unfold Serialize, ParsePayload. rewrite Hw. simpl.
  apply is_empty_false in Hne. rewrite Hne, Hr. unfold ParseWire, wire_of; simpl.
  rewrite omap_wire by done. destruct p as [[|x commit] [|c cs]]; simpl in *; try done.
  - by specialize (proj1 Hc eq_refl).
  - by specialize (proj2 Hc eq_refl).
Qed.

(** Whatever arrives, the parsed payload offers no empty candidate and commits
    something exactly when it has candidates. *)
Lemma ParsePayload_ok text : payload_ok (ParsePayload text).
Proof.
  unfold ParsePayload. destruct (is_empty text); [by split|]. destruct (read text) as [w|]; [|by split].
  unfold ParseWire.
  assert (Forall (fun c => cand_text c <> []) match wp_candidates w with Some l => omap wire_candidate l | None => [] end) as Hf.
  { destruct (wp_candidates w) as [l|]; [|constructor].
    apply Forall_forall. intros c (x & _ & Hx)%list_elem_of_omap. unfold wire_candidate in Hx.
    destruct (wc_text x) as [[|]|]; simplify_eq/=; done. }
  destruct (match wp_candidates w with Some l => _ | None => _ end) as [|[t s] cs].
  - destruct (default [] (wp_commit_text w)) as [|x commit]; split; simpl; try done. by repeat constructor.
  - inversion_clear Hf as [|? ? Ht Hcs]. simpl in Ht.
    destruct (default [] (wp_commit_text w)) as [|x commit]; simpl.
    + destruct t; [done|]. split; simpl; [done|by constructor].
    + split; simpl; [done|by constructor].
Qed.
End wire.

Lemma Parse_Serialize_witness :
  let p := {| commitText := "hi"; candidates := [{| cand_text := "hi"; cand_source := kSourceRaw |}] |} in
  ParsePayload (fun _ => Some (wire_of p)) (Serialize (fun q => Some (commitText q)) p) = p.
Proof.
  apply (Parse_Serialize (fun _ => Some (wire_of _)) (fun q => Some (commitText q)) _ "hi");
    [reflexivity|discriminate|reflexivity|].
  split; [split; discriminate|]. constructor; [discriminate|constructor].
Defined.

(** ** recognition_pipeline.cpp *)

Record PostprocessRequest := {
  req_text : bytes; req_scene_id : bytes; req_is_command : bool; req_selected_text : bytes;
}.
#[export] Instance request_fields : Fields PostprocessRequest := fun r =>
  {| req_text := req_text r; req_scene_id := req_scene_id r; req_is_command := req_is_command r;
     req_selected_text := req_selected_text r |}.

Record RecognitionPipelineResult := { res_payload : Payload; res_errors : list bytes }.

(** The post-processor: a payload, and an error text that may be empty. *)
Record PostProcessor := {
  pp_Process : bytes -> Scene -> CoreConfig -> Payload * bytes;
  pp_ProcessCommand : bytes -> bytes -> Scene -> CoreConfig -> Payload * bytes;
}.

Definition uses_llm (s : Scene) : bool :=
  (0 <? llm_max_candidates s)%Z && negb (is_empty (sc_provider_id s)).

Definition fallback_command_scene : Scene :=
  {| sc_id := kCommandSceneId; sc_label := []; sc_prompt := []; sc_provider_id := []; sc_model := [];
     llm_max_candidates := kDefaultLlmMaxCandidates; timeout_ms := kDefaultTimeoutMs;
     context_lines := kDefaultContextLines; raw_cand := true; raw_prev := true; builtin := true |}.

Definition commit_only (text : bytes) (errors : list bytes) : RecognitionPipelineResult :=
  {| res_payload := {| commitText := text; candidates := [] |}; res_errors := errors |}.

Definition invoked (r : Payload * bytes) : RecognitionPipelineResult :=
  {| res_payload := r.1; res_errors := if is_empty r.2 then [] else [r.2] |}.

(** The processor call [Process] decides on, made after [on_enter_postprocessing]
    was called, or the result it returns at once. *)
Inductive pipeline_decision :=
  | RunCommand (s : Scene)
  | RunScene (s : Scene)
  | Return (r : RecognitionPipelineResult).

Definition pipeline_decide (pp : option PostProcessor) (req : PostprocessRequest) (settings : CoreConfig)
  : pipeline_decision :=
  match pp with
  | None => Return {| res_payload := empty_payload;
                      res_errors := ["Recognition pipeline is not initialized."] |}
  | Some _ =>
      if is_empty (req_text req) then Return {| res_payload := empty_payload; res_errors := [] |}
      else if req_is_command req then
        let s := match CommandScene settings with Some s => s | None => fallback_command_scene end in
        if uses_llm s then RunCommand s else Return (commit_only (req_text req) [])
      else
        let id := if is_empty (req_scene_id req) then activeScene (cc_scenes settings)
                  else req_scene_id req in
        match FindScene (definitions (cc_scenes settings)) id with
        | None => Return (commit_only (req_text req) ["Scene '" ++ id ++ "' not found."])
        | Some s => if uses_llm s then RunScene s else Return (commit_only (req_text req) [])
        end
  end.

(** [Process]: the result, and whether [on_enter_postprocessing] was called. *)
Definition Process (pp : option PostProcessor) (req : PostprocessRequest) (settings : CoreConfig)
  : RecognitionPipelineResult * bool :=
  match pipeline_decide pp req settings, pp with
  | RunCommand s, Some p =>
      (invoked (pp_ProcessCommand p (req_text req) (req_selected_text req) s settings), true)
  | RunScene s, Some p => (invoked (pp_Process p (req_text req) s settings), true)
  | Return r, _ => (r, false)
  | _, None => (commit_only [] [], false)
  end.

(** Without an LLM call nothing recognised is lost or altered. *)
Lemma Process_passthrough p req settings r :
  Process (Some p) req settings = (r, false) -> commitText (res_payload r) = req_text req.
Proof.
  unfold Process, pipeline_decide. destruct (is_empty (req_text req)) eqn:He.
  - apply is_empty_true in He. intros [= <-]. simpl. congruence.
  - destruct (req_is_command req); [by destruct (uses_llm _); intros [= <-]|].
    destruct (FindScene _ _) as [s|]; [|by intros [= <-]]. by destruct (uses_llm s); intros [= <-].
Qed.
