(* ===== verification/ClientProtocol.v ===== *)
(** * The client protocol (src/src/common/client/client_command.cpp, client_event.cpp)

    Pipe clients send one JSON object per line and receive events. The JSON
    reader and writer are parameters; the wire structures are those of the code. *)

From S2P Require Import Prelude StringUtils RecognitionResult.
From Stdlib Require Import Ascii.

(** ** Commands *)

Inductive InjectStage := StagePartial | StageFinal.

Inductive ClientCommand :=
  | StartCommand (ime : bool) (mode selected_text capture_device : bytes)
  | StopCommand (ime : bool) (scene : bytes)
  | CancelCommand (ime commit_raw : bool)
  | InjectCommand (ime : bool) (stage : InjectStage) (text scene : bytes).

Record WireEnvelope := {
  we_type : bytes;
  we_ime : option bool;
  we_mode : option bytes;
  we_selected_text : option bytes;
  we_capture_device : option bytes;
  we_scene : option bytes;
  we_commit_raw : option bool;
  we_stage : option bytes;
  we_text : option bytes;
}.

Definition ParseStart (w : WireEnvelope) : result ClientCommand :=
  let mode := default "normal" (we_mode w) in
  if negb (mode =b "normal") && negb (mode =b "command")
  then Err ("start mode must be 'normal' or 'command', got: " ++ mode)
  else Ok (StartCommand (default true (we_ime w)) mode (default [] (we_selected_text w))
             (default [] (we_capture_device w))).

Definition ParseStop (w : WireEnvelope) : result ClientCommand :=
  Ok (StopCommand (default true (we_ime w)) (default [] (we_scene w))).

Definition ParseCancel (w : WireEnvelope) : result ClientCommand :=
  Ok (CancelCommand (default true (we_ime w)) (default false (we_commit_raw w))).

Definition ParseInject (w : WireEnvelope) : result ClientCommand :=
  match we_stage w, we_text w with
  | Some stage, Some text =>
      let! stage :=
        if stage =b "partial" then Ok StagePartial
        else if stage =b "final" then Ok StageFinal
        else Err ("inject stage must be 'partial' or 'final', got: " ++ stage) in
      Ok (InjectCommand (default true (we_ime w)) stage text (default [] (we_scene w)))
  | _, _ => Err "inject command requires 'stage' and 'text'"
  end.

Definition kCommandParsers : list (bytes * (WireEnvelope -> result ClientCommand)) :=
  [("start", ParseStart); ("stop", ParseStop); ("cancel", ParseCancel); ("inject", ParseInject)].

Section commands.
Context (read_json : bytes -> result WireEnvelope).

Definition ParseClientCommand (line : bytes) : result ClientCommand :=
  if is_empty line then Err "command line is empty"
  else
    let! wire := read_json line in
    match list_find (fun entry => entry.1 = we_type wire) kCommandParsers with
    | Some (_, (_, parser)) => parser wire
    | None => Err ("unknown command type: " ++ we_type wire)
    end.

(** The envelope a client writes for a command. *)
Definition envelope_of (c : ClientCommand) : WireEnvelope :=
  let env type ime mode sel dev scene raw stage text :=
    {| we_type := type; we_ime := Some ime; we_mode := mode; we_selected_text := sel;
       we_capture_device := dev; we_scene := scene; we_commit_raw := raw; we_stage := stage;
       we_text := text |} in
  match c with
  | StartCommand ime mode sel dev => env "start" ime (Some mode) (Some sel) (Some dev) None None None None
  | StopCommand ime scene => env "stop" ime None None None (Some scene) None None None
  | CancelCommand ime raw => env "cancel" ime None None None None (Some raw) None None
  | InjectCommand ime stage text scene =>
      env "inject" ime None None None (Some scene) None
        (Some (match stage with StagePartial => "partial" | StageFinal => "final" end)) (Some text)
  end.

Definition valid_command (c : ClientCommand) : Prop :=
  match c with StartCommand _ mode _ _ => mode = "normal" \/ mode = "command" | _ => True end.

(** Client commands round-trip: a line that reads back as the envelope of a
    valid command parses to that command, and every command the parser ever
    returns is valid (its start mode is one of the two documented ones). *)
Theorem ParseClientCommand_roundtrip :
  (forall line c, line <> [] -> read_json line = Ok (envelope_of c) -> valid_command c ->
     ParseClientCommand line = Ok c) /\
  (forall line c, ParseClientCommand line = Ok c -> valid_command c).
Proof.
  split.
  - intros line c Hl Hr Hv. unfold ParseClientCommand. apply is_empty_false in Hl. rewrite Hl, Hr. simpl.
    destruct c as [ime mode sel dev|ime scene|ime raw|ime [] text scene]; try reflexivity.
    unfold ParseStart; simpl. destruct Hv as [-> | ->]; reflexivity.
  - intros line c. unfold ParseClientCommand. destruct (is_empty line); [done|].
    intros (w & _ & H)%result_bind_Ok.
    destruct (list_find _ _) as [[i [type parser]]|] eqn:Hf; [|done].
    apply list_find_Some in Hf as (Hi & _ & _).
    apply list_elem_of_lookup_2 in Hi. unfold kCommandParsers in Hi.
    rewrite !elem_of_cons in Hi. destruct Hi as [Hi|[Hi|[Hi|[Hi|Hi]]]]; [..|by apply elem_of_nil in Hi];
      injection Hi as -> ->.
    + unfold ParseStart in H. destruct (_ && _) eqn:E; [done|]. injection H as <-. simpl.
      apply andb_false_iff in E as [E|E]; apply negb_false_iff, bool_decide_eq_true in E; auto.
    + by injection H as <-.
    + by injection H as <-.
    + unfold ParseInject in H. destruct (we_stage w), (we_text w); try done.
      apply result_bind_Ok in H as (st & _ & H). by injection H as <-.
Qed.
End commands.

(** ** Events *)

Definition glaze_escapable (c : ascii) : bool :=
  let n := code c in ((n =? 8) || (n =? 9) || (n =? 10) || (n =? 12) || (n =? 13))%N.

(** The characters [SanitizeText] keeps. *)
Definition wire_safe (c : ascii) : bool := negb ((code c <? 32)%N && negb (glaze_escapable c)).

Fixpoint SanitizeText (text : bytes) : bytes :=
  match text with
  | [] => []
  | c :: text => if wire_safe c then c :: SanitizeText text else SanitizeText text
  end.

Record CommittedWire := { cw_text : bytes; cw_candidates : list Candidate; cw_ime : bool }.
Inductive EventWire :=
  | StatusWire (status : bytes) (ime : bool)
  | PartialWire (text : bytes) (ime : bool)
  | CommittedEvent (w : CommittedWire).

(** The wire structure of each event; its text is [write_json] of it. *)
Definition StatusEvent (status : bytes) (ime : bool) : EventWire := StatusWire (SanitizeText status) ime.
Definition PartialEvent (text : bytes) (ime : bool) : EventWire := PartialWire (SanitizeText text) ime.
Definition CommittedEventOf (p : Payload) (ime : bool) : EventWire :=
  CommittedEvent
    {| cw_text := SanitizeText (commitText p);
       cw_candidates := (fun c => {| cand_text := SanitizeText (cand_text c);
                                     cand_source := cand_source c |}) <$> candidates p;
       cw_ime := ime |}.

Section events.
Context (write_json : EventWire -> option bytes).
Definition SerializeStatusEvent (status : bytes) (ime : bool) : bytes :=
  default [] (write_json (StatusEvent status ime)).
Definition SerializePartialEvent (text : bytes) (ime : bool) : bytes :=
  default [] (write_json (PartialEvent text ime)).
Definition SerializeCommittedEvent (p : Payload) (ime : bool) : bytes :=
  default [] (write_json (CommittedEventOf p ime)).
End events.

Lemma SanitizeText_safe text : Forall (fun c => wire_safe c = true) (SanitizeText text).
Proof. induction text as [|c text IH]; simpl; [constructor|]. destruct (wire_safe c) eqn:E; [by constructor|done]. Qed.

Lemma SanitizeText_id text : Forall (fun c => wire_safe c = true) text -> SanitizeText text = text.
Proof. induction 1 as [|c text Hc _ IH]; simpl; [done|]. by rewrite Hc, IH. Qed.

(** Sanitising removes exactly the raw control characters JSON cannot carry
    (below 0x20 and not one of backspace, tab, newline, form feed, return): the
    output contains none, keeps every other character in order, and a text without
    them is unchanged. *)
Theorem SanitizeText_spec text :
  Forall (fun c => (32 <= code c)%N \/ glaze_escapable c = true) (SanitizeText text) /\
  SanitizeText text = filter (fun c => wire_safe c = true) text /\
  SanitizeText (SanitizeText text) = SanitizeText text.
Proof.
  split_and!.
  - eapply Forall_impl; [apply SanitizeText_safe|]. intros c. unfold wire_safe.
    destruct (N.ltb_spec (code c) 32), (glaze_escapable c); simpl; auto; done.
  - induction text as [|c text IH]; simpl; [done|]. rewrite filter_cons.
    destruct (wire_safe c) eqn:E; [rewrite decide_True by done; by f_equal|by rewrite decide_False].
  - apply SanitizeText_id, SanitizeText_safe.
Qed.
