(* ===== verification/ClientFraming.v ===== *)
(** * Line framing of client processes (src/src/common/client/client_manager.cpp)

    A client process writes one JSON command per line. [StdoutFramer] reassembles
    the lines from the chunks in which its standard output arrives, with a bound
    on the memory a line may take. *)

From S2P Require Import Prelude StringUtils.
From Stdlib Require Import Ascii.

Definition kMaxCommandLineBytes : N := 64 * 1024.

Record StdoutFramer := { pending : bytes; overflow : bool }.
Definition new_framer : StdoutFramer := {| pending := []; overflow := false |}.

(** One iteration of the loop of [Feed]: the framer, the lines completed so far and
    whether a line began to overflow. *)
Definition feed_byte (st : StdoutFramer * list bytes * bool) (c : ascii)
  : StdoutFramer * list bytes * bool :=
  let '(f, lines, overflowed_now) := st in
  if c =b ch_nl then
    ({| pending := []; overflow := false |},
     if overflow f then lines else lines ++ [pending f], overflowed_now)
  else if negb (c =b ch_cr) then
    if (kMaxCommandLineBytes <=? size (pending f))%N then
      ({| pending := pending f; overflow := true |}, lines, overflowed_now || negb (overflow f))
    else ({| pending := pending f ++ [c]; overflow := overflow f |}, lines, overflowed_now)
  else (f, lines, overflowed_now).

(** [Feed]: the lines handed to the handler, whether a warning was logged, and the
    framer afterwards. *)
Definition Feed (chunk : bytes) (f : StdoutFramer) : list bytes * bool * StdoutFramer :=
  let '(f, lines, overflowed_now) := foldl feed_byte (f, [], false) chunk in
  (lines, overflowed_now, f).

(** The lines a client's output gives, chunk by chunk. *)
Fixpoint feed_all (chunks : list bytes) (f : StdoutFramer) : list bytes * StdoutFramer :=
  match chunks with
  | [] => ([], f)
  | chunk :: chunks =>
      let '(lines, _, f) := Feed chunk f in
      let '(rest, f) := feed_all chunks f in (lines ++ rest, f)
  end.

(** ** The reference: split the whole output at once *)

Definition no_cr (text : bytes) : bytes := filter (fun c => c <> ch_cr) text.
(** All complete lines; what follows the last newline is not one. *)
Definition complete_lines (text : bytes) : list bytes := removelast (split_ref ch_nl (no_cr text)).
Definition fits (line : bytes) : Prop := (size line <= kMaxCommandLineBytes)%N.
#[export] Instance fits_dec line : Decision (fits line).
Proof. unfold fits. apply _. Defined.

(** The framer in the middle of the line [cur]. *)
Definition framing (cur : bytes) (f : StdoutFramer) : Prop :=
  pending f = take (N.to_nat kMaxCommandLineBytes) cur /\
  overflow f = bool_decide (~ fits cur).

(** What a further byte does to the lines split so far. *)
Lemma split_ref_snoc delim text init cur c :
  split_ref delim text = init ++ [cur] ->
  split_ref delim (text ++ [c]) = if c =b delim then init ++ [cur; []] else init ++ [cur ++ [c]].
Proof.
  revert init cur. induction text as [|x text IH]; intros init cur; simpl.
  - destruct init as [|? [|]]; simpl; intros [=]; simplify_eq/=. by destruct (c =b delim).
  - destruct (split_ref_nonempty delim text) as (t & ts & E). rewrite E.
    destruct (x =b delim).
    + destruct init as [|i init]; intros Hi; [by simplify_eq/=|]. injection Hi as <- Hi.
      rewrite (IH init cur) by congruence. by destruct (c =b delim).
    + destruct init as [|i init]; intros Hi; simpl in Hi; injection Hi as Hi Hts.
      * subst. rewrite (IH [] t) by done. by destruct (c =b delim).
      * subst. rewrite (IH (t :: init) cur) by done. by destruct (c =b delim).
Qed.

(** ** The loop *)

(** Before each iteration: the lines split from the input so far, the last one
    still open. *)
Definition framer_inv (text : bytes) (st : StdoutFramer * list bytes * bool) : Prop :=
  exists init cur, split_ref ch_nl (no_cr text) = init ++ [cur] /\
    framing cur st.1.1 /\ st.1.2 = filter fits init.

Lemma framing_start : framing [] new_framer.
Proof. split; [by destruct (N.to_nat _)|done]. Qed.

Lemma fits_length line : fits line <-> length line <= N.to_nat kMaxCommandLineBytes.
Proof. unfold fits, size. lia. Qed.

(** A byte of the line is kept while there is room, and then only noted. *)
Lemma framing_byte cur f c :
  framing cur f ->
  framing (cur ++ [c])
    (if (kMaxCommandLineBytes <=? size (pending f))%N
     then {| pending := pending f; overflow := true |}
     else {| pending := pending f ++ [c]; overflow := overflow f |}).
Proof.
  intros [Hp Ho]. unfold framing.
  assert (size (pending f) = N.of_nat (N.to_nat kMaxCommandLineBytes `min` length cur)) as Hl
    by (unfold size; by rewrite Hp, length_take).
  destruct (N.leb_spec kMaxCommandLineBytes (size (pending f))) as [Hle|Hlt]; cbn [pending overflow].
  - split; [rewrite Hp, take_app_le by lia; done|]. symmetry. apply bool_decide_eq_true_2.
    rewrite fits_length, length_app. simpl. lia.
  - split; [rewrite Hp, !take_ge by (rewrite ?length_app; simpl; lia); done|]. rewrite Ho.
    rewrite !bool_decide_eq_false_2; [done|..]; rewrite fits_length, ?length_app; simpl; lia.
Qed.

Lemma framer_inv_byte text st c : framer_inv text st -> framer_inv (text ++ [c]) (feed_byte st c).
Proof.
  destruct st as [[f lines] warned]. intros (init & cur & Hs & Hf & Hl). simpl in Hf, Hl. unfold framer_inv.
  assert (no_cr (text ++ [c]) = if c =b ch_cr then no_cr text else no_cr text ++ [c]) as ->.
  { unfold no_cr. rewrite filter_app. case_bool_decide as E.
    - rewrite filter_cons_False by (by intros ?). simpl. by rewrite filter_nil, app_nil_r.
    - by rewrite filter_cons_True. }
  unfold feed_byte. destruct (decide (c = ch_nl)) as [->|Hnl].
  - change (ch_nl =b ch_nl) with true. change (ch_nl =b ch_cr) with false. cbv iota.
    exists (init ++ [cur]), []. rewrite (split_ref_snoc _ _ _ _ _ Hs), <- app_assoc.
    split; [done|]. split; [exact framing_start|]. simpl. rewrite Hl, filter_app.
    destruct Hf as [Hp ->]. case_bool_decide as Hfit.
    + rewrite filter_cons_False by done. by rewrite filter_nil, app_nil_r.
    + rewrite filter_cons_True by done. rewrite filter_nil, Hp.
      rewrite take_ge; [done|]. by apply fits_length.
  - rewrite (bool_decide_eq_false_2 _ Hnl). destruct (decide (c = ch_cr)) as [->|Hcr].
    + change (ch_cr =b ch_cr) with true. simpl. by exists init, cur.
    + rewrite (bool_decide_eq_false_2 _ Hcr). simpl. exists init, (cur ++ [c]).
      rewrite (split_ref_snoc _ _ _ _ _ Hs), (bool_decide_eq_false_2 _ Hnl). split; [done|].
      pose proof (framing_byte cur f c Hf) as Hf'. by destruct (_ <=? _)%N.
Qed.

Lemma framer_inv_feed text more st : framer_inv text st -> framer_inv (text ++ more) (foldl feed_byte st more).
Proof.
  revert text st. induction more as [|c more IH]; intros text st Hi; simpl; [by rewrite app_nil_r|].
  rewrite cons_middle, app_assoc. by apply IH, framer_inv_byte.
Qed.

(** The lines found earlier do not matter. *)
Lemma feed_lines text f lines warned :
  let '(f', lines', _) := foldl feed_byte (f, [], false) text in
  let '(f'', lines'', _) := foldl feed_byte (f, lines, warned) text in
  f'' = f' /\ lines'' = lines ++ lines'.
Proof.
  assert (forall l w, let '(f', lines', _) := foldl feed_byte (f, l, w) text in
    let '(f'', lines'', _) := foldl feed_byte (f, lines ++ l, warned) text in
    f'' = f' /\ lines'' = lines ++ lines') as Hg; [|specialize (Hg [] false); by rewrite app_nil_r in Hg].
  revert f warned. induction text as [|c text IH]; intros f warned l w; simpl; [done|].
  destruct (c =b ch_nl); [destruct (overflow f); rewrite <- ?app_assoc; apply IH|].
  destruct (c =b ch_cr); simpl; [apply IH|]. destruct (_ <=? _)%N; apply IH.
Qed.

Lemma feed_all_inv text lines warned chunks f :
  framer_inv text (f, lines, warned) ->
  exists w, framer_inv (text ++ concat chunks) ((feed_all chunks f).2, lines ++ (feed_all chunks f).1, w).
Proof.
  revert text lines warned f. induction chunks as [|chunk chunks IH]; intros text lines warned f Hi; simpl.
  - exists warned. by rewrite !app_nil_r.
  - pose proof (framer_inv_feed text chunk _ Hi) as Hc. pose proof (feed_lines chunk f lines warned) as Hl.
    unfold Feed. destruct (foldl feed_byte (f, [], false) chunk) as [[f1 l1] w1].
    destruct (foldl feed_byte (f, lines, warned) chunk) as [[f2 l2] w2]. destruct Hl as [-> ->].
    destruct (IH _ _ _ _ Hc) as [w Hw]. exists w. rewrite app_assoc.
    destruct (feed_all chunks f1) as [l3 f3]. simpl in *. by rewrite app_assoc.
Qed.

(** Framing does not depend on how a client's output is cut into chunks: the
    lines handed to the command handler are exactly the complete lines of the
    concatenated output, without carriage returns, in order, except those longer
    than 64 KiB, which are dropped whole and do not affect their neighbours; the
    unfinished last line is held back; and the reassembly buffer never exceeds
    64 KiB, whatever the client writes. *)
Theorem feed_all_correct chunks :
  let '(lines, f) := feed_all chunks new_framer in
  lines = filter fits (complete_lines (concat chunks)) /\
  (size (pending f) <= kMaxCommandLineBytes)%N.
Proof.
  destruct (feed_all_inv [] [] false chunks new_framer) as (w & init & cur & Hs & Hf & Hl).
  { exists [], []. split; [done|]. split; [exact framing_start|done]. }
  destruct (feed_all chunks new_framer) as [lines f]. simpl in *. split.
  - unfold complete_lines. by rewrite Hs, removelast_last.
  - destruct Hf as [-> _]. unfold size. rewrite length_take. lia.
Qed.
