(* ===== verification/Supervisor.v ===== *)
(** * Supervised processes (src/src/common/client/client_manager.cpp and
      src/src/common/llm/adapter_manager.cpp)

    Clients and language model adapters are long-lived children of the daemon. Each has a
    tracked session and a file with its pid and start time, by which another process, or
    the daemon after a restart, finds it again. The two managers are copies of each other;
    what they share is written once, over the words and the path check that differ. The
    daemon calls them from its main loop, one operation at a time; processes come and go
    between and during the operations. *)

From S2P Require Import Prelude StringUtils CoreConfig Process ProcessSession ProcessUtils.
From Stdlib Require Import Ascii.

(** ** The record of a process *)

Record PidRecord := { r_pid : Z; r_start : Z }.
Definition no_record : PidRecord := {| r_pid := -1; r_start := 0 |}.

Definition pid_type : int_type := {| it_signed := true; it_min := -2147483648; it_max := 2147483647 |}.

(** [stream >> number]: white space, a sign, digits. [Ok] with the value and the rest; [Err]
    when the extraction fails, with the value it leaves. An unsigned number wraps a minus. *)
Inductive extracted := Extracted (v : Z) (rest : bytes) | ExtractFailed (v : Z).
Definition extract (T : int_type) (s : bytes) : extracted :=
  let s := skip_spaces s in
  let '(neg, s) := match s with "-"%char :: s => (true, s) | "+"%char :: s => (false, s) | _ => (false, s) end in
  let '(count, v, rest) := scan_digits 10 0 0 s in
  if (count =? 0)%nat then ExtractFailed 0
  else if it_signed T then
    let v := if neg : bool then (- v)%Z else v in
    if (v <? it_min T)%Z then ExtractFailed (it_min T) else if (it_max T <? v)%Z then ExtractFailed (it_max T) else Extracted v rest
  else if (it_max T <? v)%Z then ExtractFailed (it_max T)
  else Extracted (if neg then (- v) mod (it_max T + 1) else v)%Z rest.

Definition ReadPidRecord (file : option bytes) : PidRecord :=
  match file with
  | None => no_record
  | Some text =>
      let '(pid, start) :=
        match extract pid_type text with
        | ExtractFailed pid => (pid, 0%Z)
        | Extracted pid rest => (pid, match extract u64_type rest with Extracted v _ | ExtractFailed v => v end)
        end in
      if (pid <=? 0)%Z then no_record else {| r_pid := pid; r_start := start |}
  end.
Definition record_text (pid start : Z) : bytes := to_string pid ++ " " ++ to_string start.

(** ** The managers *)

(** What differs: the words of the messages and which ids have a path. *)
Record Manager := { noun : bytes; source_prefix : bytes; runtime_dir : bytes; path_checked : bool }.
Definition client_manager (dir : bytes) : Manager :=
  {| noun := "client"; source_prefix := "client:"; runtime_dir := dir; path_checked := true |}.
Definition adapter_manager (dir : bytes) : Manager :=
  {| noun := "adapter"; source_prefix := "llm:"; runtime_dir := dir; path_checked := false |}.

Inductive BridgeCall := Flush (source : bytes) | RetireSource (source : bytes).

(** A tracked session: the child, whether its session is over, the input it was given. *)
Record TrackedSession := { t_pid : Z; t_start : Z; t_exited : bool; t_bridge : bool; t_input : list bytes }.
#[export] Instance TrackedSession_fields : Fields TrackedSession := fun t =>
  {| t_pid := t_pid t; t_start := t_start t; t_exited := t_exited t; t_bridge := t_bridge t; t_input := t_input t |}.

(** The manager's state, the runtime directory, the processes that run (with their start
    times) and what the bridge was told. *)
Record World := {
  sessions : gmap bytes TrackedSession; pending : gset bytes; files : gmap bytes bytes;
  running : gmap Z Z; bridge : list BridgeCall;
}.
#[export] Instance World_fields : Fields World := fun w =>
  {| sessions := sessions w; pending := pending w; files := files w; running := running w; bridge := bridge w |}.

Section manager.
Context (m : Manager).

Definition SourceId (id : bytes) : bytes := source_prefix m ++ id.
Definition PidPath (id : bytes) : bytes :=
  if path_checked m && (is_empty id || existsb (fun c => c =b "/"%char) id) then []
  else runtime_dir m ++ "/" ++ id ++ ".pid".

Definition start_time_of (pid : Z) (w : World) : Z := default 0%Z (running w !! pid).
Definition identity_matches (r : PidRecord) (w : World) : bool :=
  negb ((r_pid r <=? 0)%Z || (r_start r =? 0)%Z) && (start_time_of (r_pid r) w =? r_start r)%Z.

(** [written]: what the atomic write answered. *)
Definition WritePidFile (id : bytes) (pid : Z) (written : result unit) (w : World) : result unit * World :=
  if (pid <=? 0)%Z then (Err ("refusing to persist a non-positive " ++ noun m ++ " pid"), w)
  else
    let start := start_time_of pid w in
    if (start =? 0)%Z then (Err ("failed to read process start time for " ++ noun m ++ " pid " ++ to_string pid), w)
    else match written with
         | Err e => (Err e, w)
         | Ok _ => (Ok tt, w <| files := <[PidPath id := record_text pid start]> (files w) |>)
         end.
Definition RemovePidFile (id : bytes) (w : World) : World := w <| files := delete (PidPath id) (files w) |>.
Definition read_record (id : bytes) (w : World) : PidRecord := ReadPidRecord (files w !! PidPath id).

Definition retire (present : bool) (id : bytes) (w : World) : World :=
  if present then w <| bridge := bridge w ++ [Flush (SourceId id); RetireSource (SourceId id)] |> else w.

Definition GetPid (id : bytes) (w : World) : Z * World :=
  match sessions w !! id with
  | Some t =>
      if t_exited t then
        (-1, RemovePidFile id (retire (t_bridge t) id (w <| sessions := delete id (sessions w) |>)))%Z
      else (t_pid t, w)
  | None =>
      let r := read_record id w in
      ((if identity_matches r w then r_pid r else -1)%Z, w)
  end.
Definition IsRunning (id : bytes) (w : World) : bool * World :=
  let '(pid, w) := GetPid id w in ((0 <? pid)%Z, w).

(** The child of a session that is destroyed is gone. *)
Definition reap_child (pid : Z) (w : World) : World := w <| running := delete pid (running w) |>.

(** What happens while a child is started: the spawn gives a pid and a start time, the child
    may exit within the probe, the record may fail to be written. *)
Record StartAnswers := { spawned : result (Z * Z); immediate_exit : option Z; record_written : result unit }.

(** The clients' reservation of an id, released however the start ends. *)
Definition reserve (id : bytes) (w : World) : World := if path_checked m then w <| pending := {[id]} ∪ pending w |> else w.
Definition release_id (id : bytes) (w : World) : World := if path_checked m then w <| pending := pending w ∖ {[id]} |> else w.

(** [StartWithSpec] of the clients and the second half of [Start] of the adapters. *)
Definition StartWithSpec (id command : bytes) (has_bridge : bool) (a : StartAnswers) (w : World) : result unit * World :=
  if path_checked m && is_empty (PidPath id) then (Err "client id must not contain path separators", w)
  else if is_empty command then (Err (noun m ++ " command is not configured"), w)
  else
    let '(alive, w) := IsRunning id w in
    if (alive : bool) then (Err (noun m ++ " is already running"), w)
    else if path_checked m && (bool_decide (is_Some (sessions w !! id)) || bool_decide (id ∈ pending w))
    then (Err (noun m ++ " is already running"), w)
    else
      let w := reserve id w in
      match spawned a with
      | Err e => (Err (if is_empty e then "failed to start " ++ noun m else e), release_id id w)
      | Ok (pid, start) =>
          match immediate_exit a with
          | Some code =>
              (Err (noun m ++ " exited immediately (code " ++ to_string code ++ ")"), release_id id (retire has_bridge id w))
          | None =>
              let w := w <| running := <[pid := start]> (running w) |> in
              match WritePidFile id pid (record_written a) w with
              | (Err e, w) => (Err e, release_id id (reap_child pid (retire has_bridge id w)))
              | (Ok _, w) =>
                  let t := {| t_pid := pid; t_start := start; t_exited := false; t_bridge := has_bridge; t_input := [] |} in
                  (Ok tt, release_id id (w <| sessions := <[id := t]> (sessions w) |>))
              end
          end
      end.

(** [Stop]: [has_bridge] tells whether the caller passed one. A tracked session is cancelled
    and its child is gone when the session object is; otherwise the recorded process is
    stopped, [terminated] being what [TerminateGracefully] answered. *)
Definition Stop (id : bytes) (has_bridge : bool) (terminated : TerminateResult) (w : World) : result unit * World :=
  match sessions w !! id with
  | Some t =>
      let w := reap_child (t_pid t) (w <| sessions := delete id (sessions w) |>) in
      (Ok tt, RemovePidFile id (retire (has_bridge || t_bridge t) id w))
  | None =>
      let r := read_record id w in
      let w := match outcome terminated with
               | TExited => if identity_matches r w then reap_child (r_pid r) w else w
               | _ => w
               end in
      let w := retire has_bridge id w in
      match outcome terminated with
      | TExited => (Ok tt, RemovePidFile id w)
      | TNotFound => (Err (noun m ++ " is not running: " ++ id), RemovePidFile id w)
      | TStillRunning => (Err (noun m ++ " did not exit after SIGKILL: " ++ id), w)
      | TUnconfirmed => (Err ("could not confirm that " ++ noun m ++ " stopped: " ++ id), w)
      | TFailed =>
          (Err ((match failed_signal terminated with
                 | Some SIGKILL => "failed to force-kill " ++ noun m ++ " "
                 | _ => "failed to signal " ++ noun m ++ " "
                 end) ++ id ++ ": " ++ t_error terminated), w)
      end
  end.

(** [Shutdown]: every session is cancelled, then waited for, in the order of the ids. *)
Definition Shutdown (order : list bytes) (w : World) : World :=
  let stop_one w id :=
    match sessions w !! id with
    | Some t => RemovePidFile id (retire (t_bridge t) id (reap_child (t_pid t) w))
    | None => w
    end in
  foldl stop_one w order <| sessions := ∅ |>.
End manager.

(** [Broadcast]: the line goes to every session whose child takes it. *)
Definition Broadcast (line : bytes) (takes : bytes -> bool) (w : World) : World :=
  w <| sessions := map_imap (fun id t => Some (if takes id then t <| t_input := t_input t ++ [line ++ [ch_nl]] |> else t)) (sessions w) |>.

(** [Start] finds the specification; triggers come before receivers. *)
Definition FindClient (config : CoreConfig) (id : bytes) : option ClientSpec :=
  match Trigger config id with Some c => Some c | None => Receiver config id end.
Definition StartClient (dir : bytes) (config : CoreConfig) (id : bytes) (has_bridge : bool) (a : StartAnswers) (w : World) : result unit * World :=
  match FindClient config id with
  | None => (Err "client not found", w)
  | Some c => StartWithSpec (client_manager dir) (cs_id c) (cs_command c) has_bridge a w
  end.
Definition StartAdapter (dir : bytes) (config : CoreConfig) (id : bytes) (has_bridge : bool) (a : StartAnswers) (w : World) : result unit * World :=
  match ViewLlmAdapter config id with
  | None => (Err "adapter not found", w)
  | Some c => StartWithSpec (adapter_manager dir) id (la_command c) has_bridge a w
  end.

(** [AutoStart]: the answers of the starts, in order. *)
Fixpoint AutoStart_clients (dir : bytes) (clients : list ClientSpec) (answers : list StartAnswers) (w : World) : World :=
  match clients, answers with
  | c :: clients, a :: answers =>
      if cs_autoStart c
      then AutoStart_clients dir clients answers (StartWithSpec (client_manager dir) (cs_id c) (cs_command c) true a w).2
      else AutoStart_clients dir clients (a :: answers) w
  | _, _ => w
  end.

(** The adapters' copies of the operations. *)
Definition adapter_source (dir id : bytes) : bytes := SourceId (adapter_manager dir) id.
Definition adapter_PidPath (dir id : bytes) : bytes := PidPath (adapter_manager dir) id.
Definition adapter_record (dir id : bytes) (w : World) : PidRecord := read_record (adapter_manager dir) id w.
Definition adapter_WritePidFile (dir id : bytes) (pid : Z) (written : result unit) (w : World) : result unit * World :=
  WritePidFile (adapter_manager dir) id pid written w.
Definition adapter_GetPid (dir id : bytes) (w : World) : Z * World := GetPid (adapter_manager dir) id w.
Definition StopAdapter (dir id : bytes) (has_bridge : bool) (terminated : TerminateResult) (w : World) : result unit * World :=
  Stop (adapter_manager dir) id has_bridge terminated w.
Definition ShutdownAdapters (dir : bytes) (order : list bytes) (w : World) : World := Shutdown (adapter_manager dir) order w.
(** Every start reads the configuration again: [config] is what it finds. *)
Fixpoint AutoStart_adapters (dir : bytes) (config : CoreConfig) (adapters : list LlmAdapter) (answers : list StartAnswers) (w : World) : World :=
  match adapters, answers with
  | c :: adapters, a :: answers =>
      if la_autoStart c then AutoStart_adapters dir config adapters answers (StartAdapter dir config (la_id c) true a w).2
      else AutoStart_adapters dir config adapters (a :: answers) w
  | _, _ => w
  end.

(** ** The record is read back *)

Lemma skip_digits s rest : Forall is_dec s -> s <> [] -> skip_spaces (s ++ rest) = s ++ rest.
Proof.
  intros Hd Hne. destruct s as [|c s]; [done|]. inversion Hd as [|? ? (d & Hr & ->) _]; subst. cbn [app skip_spaces].
  by destruct (digit_char_facts d Hr) as (_ & -> & _).
Qed.
Lemma extract_printed T n rest :
  (0 <= n)%Z -> (it_min T <= n <= it_max T)%Z -> (forall c, head rest = Some c -> digit_value c = None) ->
  extract T (to_string n ++ rest) = Extracted n rest.
Proof.
  intros Hn HT Hr. destruct (to_string_digits n Hn) as [Hd Hne]. unfold extract. rewrite skip_digits by done.
  assert (Hs : scan_digits 10 0 0 (to_string n ++ rest) = (length (to_string n), n, rest)).
  { rewrite scan_digits_app by done. unfold to_string. destruct (Z.ltb_spec n 0); [lia|].
    rewrite to_dec_value by (apply dec_fuel_enough; lia). cbn. destruct rest as [|c rest]; [done|]. cbn. by rewrite (Hr c). }
  destruct (to_string n) as [|c s] eqn:E; [done|]. inversion Hd as [|? ? (d & Hr' & ->) _]; subst. cbn [app] in *.
  assert (Hm : forall (A : Type) (x y z : A), match digit_char d with "-"%char => x | "+"%char => y | _ => z end = z).
  { intros A x y z. assert (d ∈ [0;1;2;3;4;5;6;7;8;9]%Z) as Hi by set_solver by lia.
    repeat (apply elem_of_cons in Hi as [->|Hi]; [by vm_compute|]). by apply elem_of_nil in Hi. }
  rewrite Hm, Hs. cbn [length Nat.eqb].
  destruct (it_signed T); [destruct (Z.ltb_spec n (it_min T)); [lia|]|]; (destruct (Z.ltb_spec (it_max T) n); [lia|done]).
Qed.
Definition good_identity (pid start : Z) : Prop := (0 < pid <= 2147483647)%Z /\ (0 < start <= 18446744073709551615)%Z.
Lemma record_roundtrip pid start : good_identity pid start -> ReadPidRecord (Some (record_text pid start)) = {| r_pid := pid; r_start := start |}.
Proof.
  intros [Hp Hs]. unfold ReadPidRecord, record_text. rewrite extract_printed by (cbn; lia || (by intros c [= <-])).
  assert (He : extract u64_type (" " ++ to_string start) = extract u64_type (to_string start)) by done.
  rewrite He, <- (app_nil_r (to_string start)), extract_printed by (cbn; lia || done).
  destruct (Z.leb_spec pid 0); [lia|done].
Qed.

(** ** The files of the tracked processes *)

Section facts.
Context (m : Manager).

Lemma PidPath_inj id id' : PidPath m id <> [] -> PidPath m id = PidPath m id' -> id = id'.
Proof.
  unfold PidPath. intros Hne. destruct (_ && _) in *; [done|]. destruct (_ && _); [by destruct (runtime_dir m)|].
  intros H%app_inv_head. cbn in H. injection H as H. by apply app_inv_tail in H.
Qed.

(** Every tracked process has its identity on file, and no start is half done. *)
Record sup_inv (w : World) : Prop := {
  si_tracked id t : sessions w !! id = Some t ->
    PidPath m id <> [] /\ good_identity (t_pid t) (t_start t) /\ files w !! PidPath m id = Some (record_text (t_pid t) (t_start t));
  si_pending : pending w = ∅;
}.

Lemma retire_frame b id w : (sessions (retire m b id w), pending (retire m b id w), files (retire m b id w), running (retire m b id w))
  = (sessions w, pending w, files w, running w).
Proof. unfold retire. by destruct b. Qed.
(** Forgetting one process. *)
Lemma forget_inv id w w' : sup_inv w -> sessions w' = delete id (sessions w) -> files w' = delete (PidPath m id) (files w) ->
  pending w' = pending w -> sup_inv w'.
Proof.
  intros [H1 H2] Hs Hf Hp. constructor; [|congruence]. intros j t. rewrite Hs, Hf. intros [Hne Hj]%lookup_delete_Some.
  destruct (H1 j t Hj) as (Hpath & Hg & Hfile). split_and!; [done..|]. rewrite lookup_delete_ne; [done|].
  intros Heq. symmetry in Heq. apply PidPath_inj in Heq; [congruence|done].
Qed.
Lemma GetPid_inv id w : sup_inv w -> sup_inv (GetPid m id w).2.
Proof.
  intros Hi. unfold GetPid. destruct (sessions w !! id) as [t|] eqn:E; [|done]. destruct (t_exited t); [|done]. cbn [snd].
  set (w1 := w <| sessions := delete id (sessions w) |>). pose proof (retire_frame (t_bridge t) id w1) as [= R1 R2 R3 R4].
  apply (forget_inv id w); [done|..]; cbn; congruence.
Qed.
Lemma Stop_inv id b r w : sup_inv w -> sup_inv (Stop m id b r w).2.
Proof.
  intros Hi. unfold Stop. destruct (sessions w !! id) as [t|] eqn:E.
  - cbn [snd]. set (w1 := reap_child _ _). pose proof (retire_frame (b || t_bridge t) id w1) as [= R1 R2 R3 R4].
    apply (forget_inv id w); [done|..]; cbn; congruence.
  - cbv zeta. set (w1 := match outcome r with TExited => _ | _ => w end).
    assert (H1 : (sessions w1, files w1, pending w1) = (sessions w, files w, pending w)) by (subst w1; by repeat case_match).
    clearbody w1. injection H1 as S1 F1 P1. pose proof (retire_frame b id w1) as [= R1 R2 R3 R4]. set (w2 := retire m b id w1) in *. clearbody w2.
    assert (Hrm : sup_inv (RemovePidFile m id w2)).
    { apply (forget_inv id w); [done| | |]; cbn; [rewrite R1, S1; by rewrite delete_id|congruence|congruence]. }
    assert (H2 : sup_inv w2) by (destruct Hi; constructor; [rewrite R1, S1, R3, F1; done | congruence]).
    destruct (outcome r); done.
Qed.

Lemma GetPid_frame id w : running (GetPid m id w).2 = running w /\ pending (GetPid m id w).2 = pending w
  /\ (forall j, j <> id -> sessions (GetPid m id w).2 !! j = sessions w !! j).
Proof.
  unfold GetPid. destruct (sessions w !! id) as [t|] eqn:E; [|done]. destruct (t_exited t); [|done]. cbn [snd].
  set (w1 := w <| sessions := delete id (sessions w) |>). pose proof (retire_frame (t_bridge t) id w1) as [= R1 R2 R3 R4].
  cbn. rewrite R1, R2, R4. split_and!; [done..|]. intros j Hj. cbn. by rewrite lookup_delete_ne.
Qed.
(** A process that does not count as running is not tracked any more. *)
Lemma not_running id w w1 : sup_inv w -> IsRunning m id w = (false, w1) -> sessions w1 !! id = None.
Proof.
  intros [H1 _]. unfold IsRunning, GetPid. destruct (sessions w !! id) as [t|] eqn:E.
  - destruct (H1 id t E) as (_ & [Hp _] & _). destruct (t_exited t).
    + intros [= <-]. set (w1' := w <| sessions := delete id (sessions w) |>). pose proof (retire_frame (t_bridge t) id w1') as [= R1 R2 R3 R4].
      cbn. rewrite R1. apply lookup_delete_eq.
    + intros [= Hf _]. lia.
  - intros [= _ <-]. done.
Qed.

Definition tracked_ok (x : World) : Prop := forall id t, sessions x !! id = Some t ->
  PidPath m id <> [] /\ good_identity (t_pid t) (t_start t) /\ files x !! PidPath m id = Some (record_text (t_pid t) (t_start t)).
Lemma released id x : pending x = pending (reserve m id (x <| pending := ∅ |>)) -> tracked_ok x ->
  sup_inv (release_id m id x) /\ (sessions (release_id m id x), running (release_id m id x), files (release_id m id x)) = (sessions x, running x, files x).
Proof.
  intros Hp Ht. unfold release_id, reserve in *. destruct (path_checked m); (split; [constructor; [exact Ht|]|done]); [|exact Hp].
  cbn in *. rewrite Hp. set_solver.
Qed.
Lemma reserve_frame id w : (sessions (reserve m id w), running (reserve m id w), files (reserve m id w)) = (sessions w, running w, files w)
  /\ (pending w = ∅ -> pending (reserve m id w) = pending (reserve m id (w <| pending := ∅ |>))).
Proof. unfold reserve. destruct (path_checked m); (split; [done|]); cbn; by intros ->. Qed.

(** What the answers of the system may be: a fresh pid for a process that just started. *)
Definition spawn_ok (a : StartAnswers) (w : World) : Prop :=
  match spawned a with Ok (pid, start) => good_identity pid start /\ running w !! pid = None | Err _ => True end.

(** C26. A start succeeds as a whole or leaves nothing behind: on success the child runs, is
    tracked and has its identity on file, and no other session was replaced; on failure no
    child of this call is left and the other sessions are untouched. *)
Theorem start_all_or_nothing id command b a w r w' :
  sup_inv w -> spawn_ok a w -> StartWithSpec m id command b a w = (r, w') ->
  sup_inv w' /\ (forall j, j <> id -> sessions w' !! j = sessions w !! j) /\
  match r with
  | Ok _ => exists pid start t, spawned a = Ok (pid, start) /\ running w' = <[pid := start]> (running w) /\
      sessions w' !! id = Some t /\ t_pid t = pid /\ t_exited t = false /\ GetPid m id w' = (pid, w')
  | Err _ => running w' = running w
  end.
Proof.
  intros Hi Ha Hs. unfold StartWithSpec in Hs.
  destruct (path_checked m && is_empty (PidPath m id)) eqn:Epath; [by injection Hs as <- <-|].
  assert (Hpath : PidPath m id <> []).
  { destruct (path_checked m) eqn:Ec; [by apply is_empty_false|]. unfold PidPath. rewrite Ec. cbn. by destruct (runtime_dir m). }
  destruct (is_empty command); [by injection Hs as <- <-|].
  destruct (IsRunning m id w) as [alive w1] eqn:Er.
  assert (Hi1 : sup_inv w1 /\ running w1 = running w /\ (forall j, j <> id -> sessions w1 !! j = sessions w !! j)).
  { destruct (GetPid_frame id w) as (F1 & F2 & F3). pose proof (GetPid_inv id w Hi). unfold IsRunning in Er.
    destruct (GetPid m id w) as [pid w0]. by injection Er as _ <-. }
  destruct Hi1 as (Hi1 & Hrun & Hother).
  destruct alive; [by injection Hs as <- <-|].
  destruct (path_checked m && _) eqn:Eg in Hs; [by injection Hs as <- <-|].
  pose proof (not_running id w w1 Hi Er) as Hnone. cbv zeta in Hs.
  destruct (reserve_frame id w1) as [[= S2 R2 F2] P2]. specialize (P2 (si_pending _ Hi1)). set (w2 := reserve m id w1) in *.
  assert (Ht2 : tracked_ok w2) by (intros j t; rewrite S2, F2; apply (si_tracked _ Hi1)).
  assert (Hpend : forall x, pending x = pending w2 -> pending x = pending (reserve m id (x <| pending := ∅ |>))).
  { intros x ->. rewrite P2. unfold reserve. by destruct (path_checked m). }
  clearbody w2. destruct (spawned a) as [[pid start]|e] eqn:Esp.
  2:{ injection Hs as <- <-. destruct (released id w2) as [Hr [= E1 E2 E3]]; [by apply Hpend|done|]. rewrite E1, E2, S2, R2. by split_and!. }
  destruct (immediate_exit a) as [code|].
  { injection Hs as <- <-. pose proof (retire_frame b id w2) as [= T1 T2 T3 T4]. set (w3 := retire m b id w2) in *. clearbody w3.
    destruct (released id w3) as [Hr [= E1 E2 E3]]; [apply Hpend; congruence|intros j t; rewrite T1, T3; apply Ht2|].
    rewrite E1, E2, T1, T4, S2, R2. by split_and!. }
  unfold spawn_ok in Ha. rewrite Esp in Ha. destruct Ha as [Hgood Hfresh].
  set (w3 := w2 <| running := <[pid := start]> (running w2) |>) in Hs.
  assert (Hst : start_time_of pid w3 = start) by (unfold start_time_of; cbn; by rewrite lookup_insert_eq).
  unfold WritePidFile in Hs. rewrite Hst in Hs. pose proof Hgood as [Hgp Hgs].
  destruct (Z.leb_spec pid 0); [lia|]. destruct (Z.eqb_spec start 0); [lia|].
  destruct (record_written a) as [u|e].
  - injection Hs as <- <-. set (t := {| t_pid := pid; t_start := start; t_exited := false; t_bridge := b; t_input := [] |}).
    set (w5 := w3 <| files := _ |> <| sessions := _ |>).
    destruct (released id w5) as [Hr [= E1 E2 E3]].
    + apply Hpend. done.
    + intros j t' Hj. cbn in Hj. apply lookup_insert_Some in Hj as [[<- <-]|[Hne Hj]].
      * split_and!; [done|done|]. cbn. by rewrite lookup_insert_eq.
      * destruct (Ht2 j t' Hj) as (? & ? & ?). split_and!; [done|done|]. cbn. rewrite lookup_insert_ne; [done|].
        intros Heq. symmetry in Heq. apply PidPath_inj in Heq; [congruence|done].
    + assert (Hse : sessions (release_id m id w5) !! id = Some t) by (rewrite E1; cbn; apply lookup_insert_eq).
      split_and!; [done| |].
      * intros j Hj. rewrite E1. cbn. rewrite lookup_insert_ne by done. rewrite S2. by apply Hother.
      * exists pid, start, t. split_and!; [done| |done|done|done|].
        -- rewrite E2. cbn. by rewrite R2, Hrun.
        -- unfold GetPid. by rewrite Hse.
  - injection Hs as <- <-. pose proof (retire_frame b id w3) as [= T1 T2 T3 T4]. set (w4 := retire m b id w3) in *. clearbody w4.
    set (w5 := reap_child pid w4). destruct (released id w5) as [Hr [= E1 E2 E3]]; [apply Hpend; cbn; congruence|intros j t; cbn; rewrite T1, T3; apply Ht2|].
    rewrite E1, E2. cbn. rewrite T1, T4. cbn. rewrite S2, R2, Hrun. split_and!; [done|done|]. rewrite delete_insert_id; done.
Qed.

(** A daemon that comes back without its sessions, or another program, finds a tracked
    process through its file exactly when that very process still runs: not when it is gone,
    and not when its pid belongs to another one by now. *)
Theorem found_again id t w :
  sup_inv w -> sessions w !! id = Some t ->
  (GetPid m id (w <| sessions := ∅ |>)).1 = (if decide (running w !! t_pid t = Some (t_start t)) then t_pid t else -1)%Z.
Proof.
  intros [H1 _] Hs. destruct (H1 id t Hs) as (_ & Hg & Hf). unfold GetPid. cbn. rewrite lookup_empty. unfold read_record. cbn.
  rewrite Hf, record_roundtrip by done. unfold identity_matches, start_time_of. cbn. destruct Hg as [Hp Hst].
  destruct (Z.leb_spec (t_pid t) 0); [lia|]. destruct (Z.eqb_spec (t_start t) 0); [lia|]. cbn [orb negb andb].
  destruct (running w !! t_pid t) as [x|] eqn:E; cbn.
  - destruct (Z.eqb_spec x (t_start t)) as [->|Hne]; case_decide; simplify_eq/=; done.
  - destruct (t_start t); [lia|case_decide; simplify_eq/=; done..].
Qed.

(** Stopping a tracked process ends it, forgets it and removes its file; afterwards nothing
    is found. *)
Theorem stop_forgets id t b r w res w' :
  sup_inv w -> sessions w !! id = Some t -> Stop m id b r w = (res, w') ->
  res = Ok tt /\ sup_inv w' /\ sessions w' = delete id (sessions w) /\ running w' = delete (t_pid t) (running w) /\
  files w' !! PidPath m id = None /\ (GetPid m id w').1 = (-1)%Z.
Proof.
  intros Hi Hs H. pose proof (Stop_inv id b r w Hi) as Hi'. rewrite H in Hi'. unfold Stop in H. rewrite Hs in H. injection H as <- <-.
  set (w1 := reap_child _ _) in *. pose proof (retire_frame (b || t_bridge t) id w1) as [= R1 R2 R3 R4].
  set (w2 := retire m (b || t_bridge t) id w1) in *. clearbody w2.
  assert (Hsn : sessions (RemovePidFile m id w2) = delete id (sessions w)) by (cbn; by rewrite R1).
  assert (Hfn : files (RemovePidFile m id w2) !! PidPath m id = None) by (cbn; apply lookup_delete_eq).
  split_and!; [done|done|done|cbn; by rewrite R4|done|].
  unfold GetPid, read_record. rewrite Hsn, lookup_delete_eq, Hfn. done.
Qed.

(** [Shutdown] over the ids in any order: each tracked process is ended and its file removed. *)
Lemma shutdown_keeps ids w (P : World -> Prop) :
  (forall id t w, P w -> P (RemovePidFile m id (retire m (t_bridge t) id (reap_child (t_pid t) w)))) -> P w ->
  P (foldl (fun w id => match sessions w !! id with
            | Some t => RemovePidFile m id (retire m (t_bridge t) id (reap_child (t_pid t) w))
            | None => w end) w ids).
Proof. intros Hstep. revert w. induction ids as [|i ids IH]; intros w Hw; [done|]. cbn [foldl]. apply IH. case_match; auto. Qed.
Lemma stop_one_frame id t w : sessions (RemovePidFile m id (retire m (t_bridge t) id (reap_child (t_pid t) w))) = sessions w
  /\ files (RemovePidFile m id (retire m (t_bridge t) id (reap_child (t_pid t) w))) = delete (PidPath m id) (files w)
  /\ running (RemovePidFile m id (retire m (t_bridge t) id (reap_child (t_pid t) w))) = delete (t_pid t) (running w).
Proof. pose proof (retire_frame (t_bridge t) id (reap_child (t_pid t) w)) as [= R1 R2 R3 R4]. cbn. by rewrite R1, R3, R4. Qed.
Theorem shutdown_ends_all ids w :
  sessions (Shutdown m ids w) = ∅ /\
  (forall id t, id ∈ ids -> sessions w !! id = Some t ->
     files (Shutdown m ids w) !! PidPath m id = None /\ running (Shutdown m ids w) !! t_pid t = None).
Proof.
  split; [done|]. intros id t Hin Hs. unfold Shutdown. cbv zeta.
  change (files (?x <| sessions := ∅ |>)) with (files x). change (running (?x <| sessions := ∅ |>)) with (running x).
  revert w Hs. induction ids as [|i ids IH]; intros w Hs; [by apply elem_of_nil in Hin|]. cbn [foldl].
  apply elem_of_cons in Hin as [<-|Hin].
  - rewrite Hs. destruct (stop_one_frame id t w) as (_ & F & R).
    apply (shutdown_keeps ids _ (fun x => files x !! PidPath m id = None /\ running x !! t_pid t = None)).
    + intros j t' x [Hf Hr]. destruct (stop_one_frame j t' x) as (_ & -> & ->). by rewrite !lookup_delete_None; auto.
    + rewrite F, R. split; apply lookup_delete_eq.
  - apply IH; [done|]. destruct (sessions w !! i) as [ti|]; [|done]. destruct (stop_one_frame i ti w) as (-> & _ & _). done.
Qed.
End facts.

(** The file of a client stays in the runtime directory, whatever its id; the file of an
    adapter need not. *)
Theorem client_path_stays dir id :
  PidPath (client_manager dir) id = [] \/
  exists name, PidPath (client_manager dir) id = dir ++ "/" ++ name /\ "/"%char ∉ name.
Proof.
  unfold PidPath. cbn [path_checked client_manager runtime_dir]. destruct (true && _) eqn:E; [by left|right].
  apply andb_false_iff in E as [E|[_ E]%orb_false_iff]; [done|].
  exists (id ++ ".pid"). split; [done|]. rewrite elem_of_app. intros [Hin|Hin].
  - assert (Hx : existsb (fun c => c =b "/"%char) id = true); [|congruence].
    apply existsb_exists. exists "/"%char. split; [by apply list_elem_of_In | done].
  - by repeat (apply elem_of_cons in Hin as [?|Hin]; [done|]); apply elem_of_nil in Hin.
Qed.
Theorem adapter_path_escapes dir : PidPath (adapter_manager dir) "../autostart" = dir ++ "/../autostart.pid".
Proof. done. Qed.

(** ** A daemon's day *)

Definition demo_manager : Manager := client_manager "/run/vinput/clients".
Definition empty_world : World := {| sessions := ∅; pending := ∅; files := ∅; running := {[ 1%Z := 1%Z ]}; bridge := [] |}.
Definition spawns (pid start : Z) : StartAnswers := {| spawned := Ok (pid, start); immediate_exit := None; record_written := Ok tt |}.
Definition started_world : World := (StartWithSpec demo_manager "mic" "trigger" true (spawns 42 1000) empty_world).2.

Lemma empty_world_inv : sup_inv demo_manager empty_world.
Proof. by constructor. Qed.
Lemma spawn_42_ok : spawn_ok (spawns 42 1000) empty_world.
Proof. split; [split; lia | reflexivity]. Qed.
Lemma start_all_or_nothing_witness :
  (StartWithSpec demo_manager "mic" "trigger" true (spawns 42 1000) empty_world).1 = Ok tt /\ sup_inv demo_manager started_world.
Proof.
  split; [vm_compute; reflexivity|].
  destruct (start_all_or_nothing demo_manager "mic" "trigger" true (spawns 42 1000) empty_world
    (StartWithSpec demo_manager "mic" "trigger" true (spawns 42 1000) empty_world).1 started_world) as (Hi & _);
    [exact empty_world_inv | exact spawn_42_ok | vm_compute; reflexivity | exact Hi].
Defined.
Lemma started_world_inv : sup_inv demo_manager started_world.
Proof.
  constructor; [|vm_compute; reflexivity]. intros id t Hl. 
  assert (E : sessions started_world = {[ "mic"%bytes := {| t_pid := 42; t_start := 1000; t_exited := false; t_bridge := true; t_input := [] |} ]}) by (vm_compute; reflexivity).
  rewrite E in Hl. apply lookup_singleton_Some in Hl as [<- <-]. split_and!; [discriminate | split; cbn; lia | vm_compute; reflexivity].
Qed.
(** The child dies and its pid goes to another process: it is not taken for the client. *)
Lemma found_again_witness :
  (GetPid demo_manager "mic" (started_world <| running := {[ 42%Z := 2000%Z ]} |> <| sessions := ∅ |>)).1 = (-1)%Z.
Proof.
  assert (Hi : sup_inv demo_manager (started_world <| running := {[ 42%Z := 2000%Z ]} |>)) by (destruct started_world_inv; by constructor).
  etransitivity; [apply (found_again demo_manager "mic" {| t_pid := 42; t_start := 1000; t_exited := false; t_bridge := true; t_input := [] |} _ Hi); vm_compute; reflexivity|].
  vm_compute. reflexivity.
Defined.
Lemma stop_forgets_witness :
  exists w', Stop demo_manager "mic" false (ended TNotFound) started_world = (Ok tt, w') /\ (GetPid demo_manager "mic" w').1 = (-1)%Z.
Proof.
  eexists. split; [vm_compute; reflexivity|].
  destruct (stop_forgets demo_manager "mic" {| t_pid := 42; t_start := 1000; t_exited := false; t_bridge := true; t_input := [] |} false (ended TNotFound)
    started_world (Ok tt) (Stop demo_manager "mic" false (ended TNotFound) started_world).2) as (_ & _ & _ & _ & _ & H);
    [exact started_world_inv | vm_compute; reflexivity | vm_compute; reflexivity | vm_compute; reflexivity].
Defined.
