(* ===== verification/Notification.v ===== *)
(** * Notifications (src/src/common/notify/notification_bridge.cpp and the line drain of
      src/src/common/utils/process_utils.h)

    The bridge reads the error output of helper processes line by line, suppresses
    repeats within a time window and forwards the rest. The clock is a parameter, the
    sequence of the times it shows; so is the iteration order of the hash map. *)

From S2P Require Import Prelude StringUtils.
From Stdlib Require Import Ascii.

(** ** DrainLinesFromBuffer *)

Section drain.
Context {S : Type} (deliver : S -> bytes -> S * bool).

(** The loop: the callback's state, what is left, whether the callback stopped it. *)
Fixpoint drain_loop (fuel : nat) (st : S) (rest : bytes) : S * bytes * bool :=
  match fuel with
  | O => (st, rest, false)
  | Datatypes.S fuel =>
      match find_char rest ch_nl with
      | None => (st, rest, false)
      | Some e =>
          let '(st, go) := deliver st (strip_cr (take e rest)) in
          let rest := drop (Datatypes.S e) rest in
          if (go : bool) then drain_loop fuel st rest else (st, rest, true)
      end
  end.

Definition DrainLinesFromBuffer (st : S) (buffer : bytes) (flush_tail : bool) : S * bytes :=
  let '(st, rest, stopped) := drain_loop (Datatypes.S (length buffer)) st buffer in
  if flush_tail && negb stopped && negb (is_empty rest)
  then ((deliver st (strip_cr rest)).1, [])
  else (st, rest).
End drain.

(** ** The bridge *)

Inductive NotificationLevel := Information | Warning | Error.
Record Notification := { n_title : bytes; n_body : bytes; n_level : NotificationLevel }.

Definition kMaxDedupCacheSize : nat := 256.
Definition kMaxSourceBufferSize : N := 64 * 1024.

Definition ch_nul : ascii := "000".
Definition MakeDedupKey (title body : bytes) : bytes := title ++ [ch_nul] ++ body.

(** [buffers_] by source, [dedup_cache_] with the time of each key, and how often the
    clock has been read. *)
Record Bridge := { buffers : gmap bytes bytes; dedup_cache : gmap bytes Z; ticks : nat }.
#[export] Instance Bridge_fields : Fields Bridge := fun b =>
  {| buffers := buffers b; dedup_cache := dedup_cache b; ticks := ticks b |}.
Definition new_bridge : Bridge := {| buffers := ∅; dedup_cache := ∅; ticks := 0 |}.

Section bridge.
(** The JSON reader of a notification, the clock, the window, the map's iteration order. *)
Context (read_notification : bytes -> option (option bytes * option bytes))
        (clock : nat -> Z) (dedup_window : Z) (order : gmap bytes Z -> list (bytes * Z)).

(** The first entry with the smallest time, in iteration order. *)
Definition older (best item : bytes * Z) : bytes * Z := if (item.2 <? best.2)%Z then item else best.
Definition oldest (m : gmap bytes Z) : option bytes :=
  match order m with [] => None | x :: l => Some (foldl older x l).1 end.

(** [while (dedup_cache_.size() > kMaxDedupCacheSize)]: one entry less per round. *)
Fixpoint evict_loop (fuel : nat) (m : gmap bytes Z) : gmap bytes Z :=
  match fuel with
  | O => m
  | Datatypes.S fuel =>
      if kMaxDedupCacheSize <? base.size m then
        match oldest m with Some k => evict_loop fuel (delete k m) | None => m end
      else m
  end.

Definition EvictStaleDedupEntriesLocked (now : Z) (m : gmap bytes Z) : gmap bytes Z :=
  let m := filter (fun kv => ~ (now - kv.2 >= dedup_window)%Z) m in
  evict_loop (base.size m) m.

Definition title_or (default_title : bytes) : bytes :=
  if is_empty default_title then "Voice Input" else default_title.

(** The notification a line stands for; [None] for a blank line. *)
Definition line_notification (raw_line default_title : bytes) : option Notification :=
  let trimmed := Trim raw_line in
  if is_empty trimmed then None
  else
    let plain := {| n_title := title_or default_title; n_body := raw_line; n_level := Warning |} in
    if starts_with trimmed "{" && ends_with trimmed "}" then
      match read_notification trimmed with
      | Some (Some title, Some body) =>
          Some {| n_title := if is_empty title then title_or default_title else title;
                  n_body := body; n_level := Warning |}
      | _ => Some plain
      end
    else Some plain.

(** The cache after the line, and the notification unless it is a repeat. *)
Definition ProcessLineLocked (now : Z) (raw_line default_title : bytes) (cache : gmap bytes Z)
  : gmap bytes Z * option Notification :=
  match line_notification raw_line default_title with
  | None => (cache, None)
  | Some n =>
      let key := MakeDedupKey (n_title n) (n_body n) in
      match cache !! key with
      | Some timestamp =>
          (<[key := now]> cache, if (now - timestamp <? dedup_window)%Z then None else Some n)
      | None =>
          let cache := <[key := now]> cache in
          (if kMaxDedupCacheSize <? base.size cache then EvictStaleDedupEntriesLocked now cache else cache,
           Some n)
      end
  end.

(** The callback of the drains: the bridge and what is ready to send. The clock is read
    for every line that is not blank. *)
Definition process_into (default_title : bytes) (st : Bridge * list Notification) (line : bytes)
  : Bridge * list Notification :=
  let '(b, to_send) := st in
  let '(cache, n) := ProcessLineLocked (clock (ticks b)) line default_title (dedup_cache b) in
  let read := if is_empty (Trim line) then ticks b else Datatypes.S (ticks b) in
  (b <| dedup_cache := cache |> <| ticks := read |>, to_send ++ match n with Some n => [n] | None => [] end).
Definition keep_going (default_title : bytes) (st : Bridge * list Notification) (line : bytes)
  : (Bridge * list Notification) * bool := (process_into default_title st line, true).

(** [FeedStderr]: bytes are appended one by one, a full buffer is a line. *)
Definition feed_one (default_title : bytes) (st : (Bridge * list Notification) * bytes) (c : ascii)
  : (Bridge * list Notification) * bytes :=
  let buffer := st.2 ++ [c] in
  if (kMaxSourceBufferSize <=? size buffer)%N then (process_into default_title st.1 buffer, [])
  else (st.1, buffer).

Definition set_buffer (source_id buffer : bytes) (b : Bridge) : Bridge :=
  b <| buffers := <[source_id := buffer]> (buffers b) |>.

Definition FeedStderr (source_id data default_title : bytes) (b : Bridge) : Bridge * list Notification :=
  if is_empty data then (b, [])
  else
    let buffer := default [] (buffers b !! source_id) in
    let '(st, buffer) := foldl (feed_one default_title) ((b, []), buffer) data in
    let '((b, to_send), buffer) := DrainLinesFromBuffer (keep_going default_title) st buffer false in
    (set_buffer source_id buffer b, to_send).

Definition DeliverLine (raw_line default_title : bytes) (b : Bridge) : Bridge * list Notification :=
  process_into default_title (b, []) raw_line.

Definition FlushSource (source_id default_title : bytes) (b : Bridge) : Bridge * list Notification :=
  match buffers b !! source_id with
  | Some buffer =>
      if is_empty buffer then (b, [])
      else
        let '((b, to_send), buffer) := DrainLinesFromBuffer (keep_going default_title) (b, []) buffer true in
        (set_buffer source_id buffer b, to_send)
  | None => (b, [])
  end.

Definition RetireSource (source_id : bytes) (b : Bridge) : Bridge :=
  b <| buffers := delete source_id (buffers b) |>.
Definition ResetDedup (b : Bridge) : Bridge := b <| dedup_cache := ∅ |>.
End bridge.

(** ** Draining *)

(** The lines a buffer holds: all but what follows the last newline. *)
Definition drained_lines (buffer : bytes) : list bytes := strip_cr <$> removelast (split_ref ch_nl buffer).
Definition drained_tail (buffer : bytes) : bytes := List.last (split_ref ch_nl buffer) [].

Lemma drained_cons tok r :
  ch_nl ∉ tok ->
  drained_lines (tok ++ ch_nl :: r) = strip_cr tok :: drained_lines r /\
  drained_tail (tok ++ ch_nl :: r) = drained_tail r.
Proof.
  intros Hn. unfold drained_lines, drained_tail. rewrite split_ref_app by done.
  by destruct (split_ref_nonempty ch_nl r) as (t & ts & ->).
Qed.

Lemma drain_loop_spec {S} (f : S -> bytes -> S) fuel st rest :
  (length rest < fuel)%nat ->
  drain_loop (fun st line => (f st line, true)) fuel st rest
  = (foldl f st (drained_lines rest), drained_tail rest, false).
Proof.
  revert st rest. induction fuel as [|fuel IH]; intros st rest Hf; [lia|]. cbn [drain_loop].
  unfold find_char. destruct (find_char_from rest ch_nl 0) as [e|] eqn:E.
  - apply find_char_from_Some in E as (He & Hn & Hrest). unfold substr in *. rewrite Nat.sub_0_r in *.
    rewrite !drop_0 in *. rewrite Nat.add_1_r in Hrest.
    rewrite IH by (rewrite length_drop; lia). destruct (drained_cons _ (drop (Datatypes.S e) rest) Hn) as [Hl Ht].
    rewrite <-Hrest in Hl, Ht. by rewrite Hl, Ht.
  - apply find_char_from_None in E. unfold drained_lines, drained_tail.
    by rewrite split_ref_no_delim.
Qed.

(** What the callback keeps, a drain keeps, wherever the callback stops it. *)
Lemma drain_lines_inv {S} (deliver : S -> bytes -> S * bool) (P : S -> Prop) st buffer flush :
  (forall st line, P st -> P (deliver st line).1) -> P st -> P (DrainLinesFromBuffer deliver st buffer flush).1.
Proof.
  intros Hd. unfold DrainLinesFromBuffer.
  assert (Hl : forall fuel st rest, P st -> P (drain_loop deliver fuel st rest).1.1).
  { induction fuel as [|fuel IH]; intros x rest Hx; cbn [drain_loop]; [done|]. destruct (find_char rest ch_nl) as [e|]; [|done].
    pose proof (Hd x (strip_cr (take e rest)) Hx) as Hx'. destruct (deliver x _) as [x' [|]]; [by apply IH|done]. }
  intros Hs. pose proof (Hl (Datatypes.S (length buffer)) st buffer Hs) as H. destruct (drain_loop _ _ st buffer) as [[x rest] stopped].
  case_match; [by apply Hd | done].
Qed.

Lemma split_ref_extend delim a init cur rest :
  split_ref delim a = init ++ [cur] -> split_ref delim (a ++ rest) = init ++ split_ref delim (cur ++ rest).
Proof.
  revert init cur. induction a as [|x a IH]; intros init cur; simpl.
  { destruct init as [|? [|]]; simpl; intros [=]; by simplify_eq/=. }
  destruct (split_ref_nonempty delim a) as (t & ts & E). rewrite E in *.
  destruct (x =b delim) eqn:Hx.
  - destruct init as [|i init]; intros Hi; [by simplify_eq/=|]. injection Hi as <- Hi.
    by rewrite (IH init cur) by congruence.
  - destruct init as [|i init]; intros Hi; simpl in Hi; injection Hi as Hi Hts.
    + subst. rewrite (IH [] t) by done. simpl. rewrite Hx. by destruct (split_ref delim (t ++ rest)).
    + subst. by rewrite (IH (t :: init) cur) by done.
Qed.

Lemma split_ref_snoc_last delim a :
  split_ref delim a = removelast (split_ref delim a) ++ [List.last (split_ref delim a) []].
Proof.
  apply List.app_removelast_last. destruct (split_ref_nonempty delim a) as (t & ts & ->). done.
Qed.

Lemma drained_app a rest :
  drained_lines (a ++ rest) = drained_lines a ++ drained_lines (drained_tail a ++ rest) /\
  drained_tail (a ++ rest) = drained_tail (drained_tail a ++ rest).
Proof.
  unfold drained_lines, drained_tail. rewrite (split_ref_extend _ _ _ _ rest (split_ref_snoc_last ch_nl a)).
  rewrite (split_ref_snoc_last ch_nl (List.last (split_ref ch_nl a) [] ++ rest)).
  rewrite app_assoc, !List.removelast_last, fmap_app, !List.last_last. done.
Qed.

Lemma drained_tail_facts a : (ch_nl ∉ drained_tail a) /\ (length (drained_tail a) <= length a)%nat.
Proof.
  unfold drained_tail. pose proof (split_ref_tokens ch_nl a) as Ht. rewrite (split_ref_snoc_last ch_nl a) in Ht.
  apply Forall_app in Ht as [_ [Ht _]%Forall_cons]. split; [done|]. clear Ht.
  pose proof (Join_split_ref ch_nl a) as Hj. rewrite (split_ref_snoc_last ch_nl a) in Hj.
  rewrite <-Hj at 2. set (t := List.last _ _). generalize (removelast (split_ref ch_nl a)). intros l.
  clear. induction l as [|x l IH]; [done|]. destruct (l ++ [t]) as [|y ys] eqn:E; [by destruct l|].
  cbn [app]. rewrite E, Join_cons2, !length_app. lia.
Qed.

Lemma drained_nothing a : ch_nl ∉ a -> drained_lines a = [] /\ drained_tail a = a.
Proof. intros Hn. unfold drained_lines, drained_tail. by rewrite split_ref_no_delim. Qed.

Section facts.
Context (read_notification : bytes -> option (option bytes * option bytes))
        (clock : nat -> Z) (dedup_window : Z) (order : gmap bytes Z -> list (bytes * Z))
        (order_perm : forall m, order m ≡ₚ map_to_list m).
Abbreviation process := (process_into read_notification clock dedup_window order).
Abbreviation feed := (FeedStderr read_notification clock dedup_window order).

(** ** The cache *)

Lemma foldl_older_elem x l : foldl older x l ∈ x :: l.
Proof.
  revert x. induction l as [|y l IH]; intros x; simpl; [by left|].
  assert (older x y = x \/ older x y = y) as Hxy by (unfold older; destruct (y.2 <? x.2)%Z; auto).
  specialize (IH (older x y)). rewrite !elem_of_cons in *. destruct IH as [->|]; [|by auto].
  destruct Hxy as [->| ->]; auto.
Qed.

Lemma oldest_present m k : oldest order m = Some k -> is_Some (m !! k).
Proof.
  unfold oldest. destruct (order m) as [|x l] eqn:E; [done|]. intros [= <-].
  pose proof (foldl_older_elem x l) as Hin. rewrite <-E, order_perm in Hin.
  destruct (foldl older x l) as [k v]. apply elem_of_map_to_list in Hin. simpl. eauto.
Qed.

Lemma oldest_Some m : m <> ∅ -> is_Some (oldest order m).
Proof.
  intros Hm. unfold oldest. destruct (order m) as [|x l] eqn:E; [|eauto].
  pose proof (order_perm m) as Hp. rewrite E in Hp. apply Permutation_nil_l in Hp. symmetry in Hp. by apply map_to_list_empty_iff in Hp.
Qed.

Lemma evict_loop_size fuel m :
  (base.size m <= fuel + kMaxDedupCacheSize)%nat -> (base.size (evict_loop order fuel m) <= kMaxDedupCacheSize)%nat.
Proof.
  revert m. induction fuel as [|fuel IH]; intros m Hs; [simpl; lia|]. cbn [evict_loop].
  destruct (Nat.ltb_spec kMaxDedupCacheSize (base.size m)); [|done].
  assert (m <> ∅) as Hm by (intros ->; rewrite map_size_empty in *; lia).
  destruct (oldest_Some m Hm) as [k Hk]. rewrite Hk. apply IH.
  destruct (oldest_present m k Hk) as [v Hv]. rewrite map_size_delete, Hv. unfold kMaxDedupCacheSize in *. lia.
Qed.

Lemma ProcessLine_size now line title cache :
  (base.size cache <= kMaxDedupCacheSize)%nat ->
  (base.size (ProcessLineLocked read_notification dedup_window order now line title cache).1 <= kMaxDedupCacheSize)%nat.
Proof.
  intros Hs. unfold ProcessLineLocked. destruct (line_notification _ line title) as [n|]; [|done].
  destruct (cache !! _) as [ts|] eqn:Hk; cbn [fst].
  - rewrite map_size_insert, Hk. done.
  - destruct (Nat.ltb_spec kMaxDedupCacheSize (base.size (<[MakeDedupKey (n_title n) (n_body n):=now]> cache))); [|lia].
    apply evict_loop_size. lia.
Qed.

(** The bridge after a line: only the cache and the clock's count change. *)
Lemma process_fst title b sent line :
  exists b' new, process title (b, sent) line = (b', sent ++ new) /\ buffers b' = buffers b /\
    ((base.size (dedup_cache b) <= kMaxDedupCacheSize)%nat -> (base.size (dedup_cache b') <= kMaxDedupCacheSize)%nat) /\
    forall sent' src buf, process title (set_buffer src buf b, sent') line = (set_buffer src buf b', sent' ++ new).
Proof.
  unfold process_into. cbn [ticks dedup_cache set_buffer alter_field].
  pose proof (ProcessLine_size (clock (ticks b)) line title (dedup_cache b)) as Hs.
  destruct (ProcessLineLocked _ _ _ (clock (ticks b)) line title (dedup_cache b)) as [cache n]; simpl in Hs.
  eexists _, _. split; [done|]. split; [done|]. split; [done|]. done.
Qed.

Lemma process_fold title lines : forall b sent,
  exists b' new, foldl (process title) (b, sent) lines = (b', sent ++ new) /\ buffers b' = buffers b /\
    ((base.size (dedup_cache b) <= kMaxDedupCacheSize)%nat -> (base.size (dedup_cache b') <= kMaxDedupCacheSize)%nat) /\
    forall sent' src buf,
      foldl (process title) (set_buffer src buf b, sent') lines = (set_buffer src buf b', sent' ++ new).
Proof.
  induction lines as [|line lines IH]; intros b sent; cbn [foldl].
  { exists b, []. rewrite app_nil_r. split_and!; try done. intros. by rewrite app_nil_r. }
  destruct (process_fst title b sent line) as (b1 & n1 & -> & Hb1 & Hs1 & Hp1).
  destruct (IH b1 (sent ++ n1)) as (b2 & n2 & -> & Hb2 & Hs2 & Hp2).
  exists b2, (n1 ++ n2). rewrite app_assoc. split_and!; [done|by rewrite Hb2|by auto|].
  intros. by rewrite Hp1, Hp2, app_assoc.
Qed.

(** Appending bytes below the limit. *)
Lemma feed_one_small title st buffer data :
  (size (buffer ++ data) < kMaxSourceBufferSize)%N ->
  foldl (feed_one read_notification clock dedup_window order title) (st, buffer) data = (st, buffer ++ data).
Proof.
  revert buffer. induction data as [|c data IH]; intros buffer Hs; cbn [foldl]; [by rewrite app_nil_r|].
  unfold feed_one at 2. cbn [fst snd].
  destruct (N.leb_spec kMaxSourceBufferSize (size (buffer ++ [c]))) as [Hl|Hl].
  - exfalso. revert Hs Hl. rewrite !size_app. unfold size; simpl. lia.
  - rewrite IH; [by rewrite <-app_assoc|]. by rewrite <-app_assoc.
Qed.

(** The buffer while bytes are appended stays below the limit; only the cache and the
    clock's count of the bridge change. *)
Lemma feed_one_inv title data : forall b sent buffer,
  (size buffer < kMaxSourceBufferSize)%N ->
  exists b' sent' buffer',
    foldl (feed_one read_notification clock dedup_window order title) ((b, sent), buffer) data = ((b', sent'), buffer') /\
    (size buffer' < kMaxSourceBufferSize)%N /\ buffers b' = buffers b /\
    ((base.size (dedup_cache b) <= kMaxDedupCacheSize)%nat -> (base.size (dedup_cache b') <= kMaxDedupCacheSize)%nat).
Proof.
  induction data as [|c data IH]; intros b sent buffer Hs; [by exists b, sent, buffer|].
  cbn [foldl]. unfold feed_one at 2. cbn [fst snd].
  destruct (N.leb_spec kMaxSourceBufferSize (size (buffer ++ [c]))) as [Hl|Hl].
  - destruct (process_fst title b sent (buffer ++ [c])) as (b1 & n1 & -> & Hb1 & Hs1 & _).
    destruct (IH b1 (sent ++ n1) []) as (b2 & s2 & buf2 & -> & Hlt & Hb2 & Hs2); [done|].
    exists b2, s2, buf2. split_and!; [done|done|congruence|auto].
  - apply IH. done.
Qed.

Lemma drain_keep title st buffer :
  DrainLinesFromBuffer (keep_going read_notification clock dedup_window order title) st buffer false
  = (foldl (process title) st (drained_lines buffer), drained_tail buffer).
Proof. unfold DrainLinesFromBuffer, keep_going. by rewrite drain_loop_spec by lia. Qed.

Lemma feed_small src data title b :
  let buffer := default [] (buffers b !! src) in
  data <> [] -> (size (buffer ++ data) < kMaxSourceBufferSize)%N ->
  feed src data title b =
    (let '(b', sent) := foldl (process title) (b, []) (drained_lines (buffer ++ data)) in
     (set_buffer src (drained_tail (buffer ++ data)) b', sent)).
Proof.
  intros buffer Hne Hs. unfold FeedStderr. destruct (is_empty data) eqn:E; [by apply is_empty_true in E|].
  fold buffer. rewrite feed_one_small by done. by rewrite drain_keep.
Qed.
End facts.

(** ** Properties *)

Inductive bridge_op :=
  | OpFeed (source data title : bytes) | OpDeliver (line title : bytes) | OpFlush (source title : bytes)
  | OpRetire (source : bytes) | OpReset.

Section properties.
Context (read_notification : bytes -> option (option bytes * option bytes))
        (clock : nat -> Z) (dedup_window : Z) (order : gmap bytes Z -> list (bytes * Z)).
Abbreviation process := (process_into read_notification clock dedup_window order).
Abbreviation feed := (FeedStderr read_notification clock dedup_window order).

Definition run_op (b : Bridge) (op : bridge_op) : Bridge :=
  match op with
  | OpFeed source data title => (feed source data title b).1
  | OpDeliver line title => (DeliverLine read_notification clock dedup_window order line title b).1
  | OpFlush source title => (FlushSource read_notification clock dedup_window order source title b).1
  | OpRetire source => RetireSource source b
  | OpReset => ResetDedup b
  end.

(** Memory is bounded: the cache, and every buffer, which holds part of one line. *)
Record bridge_ok (b : Bridge) : Prop := {
  bo_cache : (base.size (dedup_cache b) <= kMaxDedupCacheSize)%nat;
  bo_buffers : map_Forall (fun _ buffer => (size buffer < kMaxSourceBufferSize)%N /\ ch_nl ∉ buffer) (buffers b);
}.

Lemma set_buffer_ok src buffer b :
  (base.size (dedup_cache b) <= kMaxDedupCacheSize)%nat ->
  map_Forall (fun _ buffer => (size buffer < kMaxSourceBufferSize)%N /\ ch_nl ∉ buffer) (buffers b) ->
  (size buffer < kMaxSourceBufferSize)%N -> bridge_ok (set_buffer src (drained_tail buffer) b).
Proof.
  intros Hc Hb Hs. destruct (drained_tail_facts buffer) as [Hn Hl]. split; [done|]. cbn.
  apply map_Forall_insert_2; [|done]. split; [|done]. unfold size in *. lia.
Qed.

Lemma flush_drain title b buffer :
  DrainLinesFromBuffer (keep_going read_notification clock dedup_window order title) (b, []) buffer true
  = (foldl (process title) (b, []) (drained_lines buffer ++
      if is_empty (drained_tail buffer) then [] else [strip_cr (drained_tail buffer)]), []).
Proof.
  unfold DrainLinesFromBuffer, keep_going. rewrite drain_loop_spec by lia. cbn [andb negb].
  rewrite foldl_app. destruct (is_empty (drained_tail buffer)) eqn:E; [|done].
  apply is_empty_true in E as ->. done.
Qed.
End properties.

(** The bridge's memory is bounded: whatever the helper processes write, and in
    whatever order sources are fed, flushed and retired, at most 256 notifications are
    remembered and every buffer holds less than 64 KiB of one unfinished line. *)
Theorem bridge_bounded read_notification clock dedup_window order ops :
  (forall m, order m ≡ₚ map_to_list m) ->
  bridge_ok (foldl (run_op read_notification clock dedup_window order) new_bridge ops).
Proof.
  intros Hord. assert (bridge_ok new_bridge) as H0 by (split; [cbn; rewrite map_size_empty; lia|done]).
  revert H0. generalize new_bridge. induction ops as [|op ops IH]; intros b Hb; [done|].
  cbn [foldl]. apply IH. clear IH ops. destruct Hb as [Hc Hbuf]. destruct op as [src data title|line title|src title|src|]; cbn [run_op].
  - unfold FeedStderr. destruct (is_empty data); [by split|].
    assert (size (default [] (buffers b !! src)) < kMaxSourceBufferSize)%N as Hs.
    { destruct (buffers b !! src) as [buf|] eqn:E; [|done]. apply (Hbuf src buf E). }
    destruct (feed_one_inv read_notification clock dedup_window order Hord title data b [] _ Hs) as (b1 & s1 & buf1 & -> & Hlt & Hb1 & Hs1).
    rewrite drain_keep.
    destruct (process_fold read_notification clock dedup_window order Hord title (drained_lines buf1) b1 s1)
      as (b2 & n2 & -> & Hb2 & Hs2 & _).
    cbn [fst]. apply set_buffer_ok; [by auto|by rewrite Hb2, Hb1|done].
  - unfold DeliverLine.
    destruct (process_fst read_notification clock dedup_window order Hord title b [] line) as (b1 & n1 & -> & Hb1 & Hs1 & _).
    cbn [fst]. split; [by apply Hs1|]. by rewrite Hb1.
  - unfold FlushSource. destruct (buffers b !! src) as [buf|] eqn:E; [|by split].
    destruct (is_empty buf); [by split|]. rewrite flush_drain.
    destruct (process_fold read_notification clock dedup_window order Hord title
      (drained_lines buf ++ if is_empty (drained_tail buf) then [] else [strip_cr (drained_tail buf)]) b [])
      as (b2 & n2 & -> & Hb2 & Hs2 & _).
    cbn [fst]. apply (set_buffer_ok src []); [by auto|by rewrite Hb2|done].
  - split; [done|]. cbn. by apply map_Forall_delete.
  - split; [cbn; rewrite map_size_empty; lia|done].
Qed.

Definition demo_order (m : gmap bytes Z) : list (bytes * Z) := map_to_list m.
Definition demo_reader : bytes -> option (option bytes * option bytes) := fun _ => None.
Definition demo_clock : nat -> Z := Z.of_nat.

Lemma bridge_bounded_witness :
  bridge_ok (foldl (run_op demo_reader demo_clock 3000 demo_order) new_bridge
    [OpFeed "s" ("one" ++ [ch_nl] ++ "tw") []; OpFeed "s" ("o" ++ [ch_nl]) []; OpDeliver "one" []; OpFlush "s" []]).
Proof. apply (bridge_bounded demo_reader demo_clock 3000 demo_order). intros m. reflexivity. Defined.



(** [k] further deliveries of the same line: the bridge and everything sent. *)
Definition deliver_again read_notification clock dedup_window order (line title : bytes) (k : nat)
    (st : Bridge * list Notification) : Bridge * list Notification :=
  Nat.iter k (fun st => process_into read_notification clock dedup_window order title st line) st.

Lemma repeats_silent read_notification clock dedup_window order line title n k b sent :
  line_notification read_notification line title = Some n ->
  (forall i, clock (S i) - clock i < dedup_window)%Z ->
  (exists i, ticks b = S i /\ dedup_cache b !! MakeDedupKey (n_title n) (n_body n) = Some (clock i)) ->
  (deliver_again read_notification clock dedup_window order line title k (b, sent)).2 = sent.
Proof.
  intros Hn Hclock. unfold deliver_again. revert b.
  induction k as [|k IH]; intros b (i & Hti & Hk); [done|]. rewrite Nat.iter_succ_r.
  assert (Trim line <> []) as Ht.
  { unfold line_notification in Hn. destruct (is_empty (Trim line)) eqn:E; [done|]. by apply is_empty_false. }
  apply is_empty_false in Ht. unfold process_into at 2, ProcessLineLocked. rewrite Hn, Hk, Ht, Hti.
  destruct (Z.ltb_spec (clock (S i) - clock i) dedup_window); [|specialize (Hclock i); lia].
  rewrite app_nil_r. apply IH. exists (S i). split; [done|]. cbn. by rewrite lookup_insert_eq.
Qed.

(** A repeated message is shown once: a line delivered again and again, each time
    within the window after the previous one, is forwarded the first time only, however
    long the series is (with room in the cache for the new entry). *)
Theorem repeats_suppressed read_notification clock dedup_window order line title n k b :
  line_notification read_notification line title = Some n ->
  (forall i, clock (S i) - clock i < dedup_window)%Z ->
  dedup_cache b !! MakeDedupKey (n_title n) (n_body n) = None ->
  (base.size (dedup_cache b) < kMaxDedupCacheSize)%nat ->
  (deliver_again read_notification clock dedup_window order line title (S k) (b, [])).2 = [n].
Proof.
  intros Hn Hclock Hk Hs. unfold deliver_again. rewrite Nat.iter_succ_r.
  assert (Trim line <> []) as Ht.
  { unfold line_notification in Hn. destruct (is_empty (Trim line)) eqn:E; [done|]. by apply is_empty_false. }
  assert ((kMaxDedupCacheSize <? base.size (<[MakeDedupKey (n_title n) (n_body n) := clock (ticks b)]> (dedup_cache b)))%nat
    = false) as Hroom by (apply Nat.ltb_ge; rewrite map_size_insert, Hk; lia).
  apply is_empty_false in Ht. unfold process_into at 2, ProcessLineLocked. rewrite Hn, Hk, Ht, Hroom. cbn [app].
  apply (repeats_silent _ _ _ _ _ _ n); [done|done|]. exists (ticks b). split; [done|].
  apply lookup_insert_eq.
Qed.

Lemma repeats_suppressed_witness :
  (deliver_again demo_reader demo_clock 3000 demo_order "late" "asr" 6 (new_bridge, [])).2
  = [{| n_title := "asr"; n_body := "late"; n_level := Warning |}].
Proof.
  apply (repeats_suppressed demo_reader demo_clock 3000 demo_order "late" "asr"
    {| n_title := "asr"; n_body := "late"; n_level := Warning |} 5 new_bridge).
  - reflexivity.
  - intros i. unfold demo_clock. lia.
  - reflexivity.
  - cbn. rewrite map_size_empty. unfold kMaxDedupCacheSize. lia.
Defined.

Lemma feed_one_fill read_notification clock dedup_window order title st buffer data c :
  size (buffer ++ data ++ [c]) = kMaxSourceBufferSize ->
  foldl (feed_one read_notification clock dedup_window order title) (st, buffer) (data ++ [c])
  = (process_into read_notification clock dedup_window order title st (buffer ++ data ++ [c]), []).
Proof.
  intros Hs. rewrite foldl_app, feed_one_small.
  - cbn [foldl]. unfold feed_one. cbn [fst snd]. rewrite <-app_assoc.
    destruct (N.leb_spec kMaxSourceBufferSize (size (buffer ++ data ++ [c]))); [done|lia].
  - rewrite !size_app in *. unfold size in *. simpl in *. lia.
Qed.

(** A large chunk is not split into its lines: 64 KiB of error output that arrive in one
    piece are forwarded as a single notification, whatever newlines they contain, because
    the size limit is tested before the complete lines are drained. *)
Theorem oversized_chunk_not_split read_notification clock dedup_window order src data title b :
  default [] (buffers b !! src) = [] -> size data = kMaxSourceBufferSize ->
  FeedStderr read_notification clock dedup_window order src data title b =
  (let '(b', sent) := process_into read_notification clock dedup_window order title (b, []) data in
   (set_buffer src [] b', sent)).
Proof.
  intros Hb Hs. unfold FeedStderr. rewrite Hb. destruct data as [|c0 data0] using rev_ind; [done|].
  destruct (is_empty (data0 ++ [c0])) eqn:E; [apply is_empty_true in E; by destruct data0|].
  rewrite feed_one_fill by done. rewrite drain_keep. cbn [app].
  by destruct (process_into _ _ _ _ title (b, []) (data0 ++ [c0])).
Qed.

(** 64 KiB of one-character lines. *)
Definition large_chunk : bytes := concat (replicate 512 (concat (replicate 64 ["a"%char; ch_nl]))).

Lemma oversized_chunk_not_split_witness :
  FeedStderr demo_reader demo_clock 3000 demo_order "s" large_chunk [] new_bridge =
  (let '(b', sent) := process_into demo_reader demo_clock 3000 demo_order [] (new_bridge, []) large_chunk in
   (set_buffer "s" [] b', sent)).
Proof.
  apply (oversized_chunk_not_split demo_reader demo_clock 3000 demo_order "s" large_chunk [] new_bridge);
    [reflexivity|vm_compute; reflexivity].
Defined.
