(* ===== verification/CommandBatch.v ===== *)
(** * One-shot command backends (src/src/daemon/asr/backends/command_batch_backend.cpp)

    The session collects the audio and runs the provider's command once, when it is
    finished. [Run] (process_utils.cpp) is a parameter, what the command answers to its
    input; error lines go to the notification bridge, here the list of the lines handed
    over. Messages are given untranslated. *)

From S2P Require Import Prelude StringUtils CoreConfig AudioUtils RecognitionContract Process Notification.
From Stdlib Require Import Ascii.

Definition kMaxBatchNotifications : nat := 10.

Definition BuildCommandSpec (command : bytes) (args : list bytes) (env : gmap bytes bytes) (timeoutMs : Z) : CommandSpec :=
  {| sp_command := command; sp_args := args; sp_env := env; sp_timeout_ms := timeoutMs |}.

(** [std::as_bytes] of 16-bit samples on a little-endian machine. *)
Definition byte_of (z : Z) : ascii := ascii_of_N (Z.to_N (z mod 256)).
Definition sample_bytes (z : Z) : bytes := [byte_of z; byte_of (Z.shiftr z 8)].
Definition as_bytes (pcm : list Z) : bytes := concat (sample_bytes <$> pcm).

Record CommandBatchSession := {
  command_ : CommandSpec; provider_id_ : bytes; has_bridge : bool;
  finished_ : bool; pcm_ : list Z; events_ : list RecognitionEvent;
  delivered_lines : list bytes;            (* [DeliverLine] of the bridge *)
  runs : list (CommandSpec * bytes);       (* the calls of [Run] *)
}.
#[export] Instance CommandBatchSession_fields : Fields CommandBatchSession := fun s =>
  {| command_ := command_ s; provider_id_ := provider_id_ s; has_bridge := has_bridge s; finished_ := finished_ s;
     pcm_ := pcm_ s; events_ := events_ s; delivered_lines := delivered_lines s; runs := runs s |}.

Definition new_batch (spec : CommandSpec) (provider_id : bytes) (bridge : bool) : CommandBatchSession :=
  {| command_ := spec; provider_id_ := provider_id; has_bridge := bridge; finished_ := false; pcm_ := [];
     events_ := []; delivered_lines := []; runs := [] |}.

Definition error_event (message : bytes) : RecognitionEvent := {| ev_kind := ErrorEvent; ev_text := []; ev_error := message |}.
Definition final_event (text : bytes) : RecognitionEvent := {| ev_kind := FinalText; ev_text := text; ev_error := [] |}.
Definition partial_event (text : bytes) : RecognitionEvent := {| ev_kind := PartialText; ev_text := text; ev_error := [] |}.
Definition completed_event : RecognitionEvent := {| ev_kind := Completed; ev_text := []; ev_error := [] |}.

Section batch.
Context (Run : CommandSpec -> bytes -> CommandResult).

Definition PushAudio (pcm : list Z) (s : CommandBatchSession) : result unit * CommandBatchSession :=
  if finished_ s then (Err "Recognition session already finished.", s)
  else (Ok tt, s <| pcm_ := pcm_ s ++ pcm |>).

(** The callback of [DeliverStderr]: the lines so far and how many. *)
Definition deliver_line (st : list bytes * nat) (line : bytes) : (list bytes * nat) * bool :=
  if (kMaxBatchNotifications <=? st.2)%nat then (st, false)
  else ((st.1 ++ [line], S st.2), true).
Definition DeliverStderr (stderr : bytes) (s : CommandBatchSession) : CommandBatchSession :=
  if negb (has_bridge s) || is_empty stderr then s
  else s <| delivered_lines := (DrainLinesFromBuffer deliver_line (delivered_lines s, 0) stderr true).1.1 |>.

(** What the answer of the command becomes. *)
Definition command_event (r : CommandResult) : RecognitionEvent :=
  if launch_failed r then error_event "Command ASR provider failed to start."
  else if timed_out r then error_event "Command ASR provider timed out."
  else if negb (exit_code r =? 0)%Z then error_event "Command ASR provider exited abnormally."
  else
    let text := Trim (stdout_text r) in
    if is_empty text then error_event "Command ASR provider returned no text." else final_event text.

Definition Finish (s : CommandBatchSession) : result unit * CommandBatchSession :=
  if finished_ s then (Ok tt, s)
  else
    let s := s <| finished_ := true |> in
    let audio := as_bytes (pcm_ s) in
    let r := Run (command_ s) audio in
    let s := DeliverStderr (stderr_text r) (s <| runs := runs s ++ [(command_ s, audio)] |>) in
    let s := s <| events_ := events_ s ++ [command_event r] |> in
    let s := s <| events_ := events_ s ++ [completed_event] |> in
    let error := match events_ s with
                 | e :: _ => if ev_kind e =b ErrorEvent then ev_error e else []
                 | [] => []
                 end in
    (if is_empty error then Ok tt else Err error, s).

Definition Cancel (s : CommandBatchSession) : CommandBatchSession :=
  s <| finished_ := true |> <| pcm_ := [] |> <| events_ := [completed_event] |>.

Definition PollEvents (s : CommandBatchSession) : list RecognitionEvent * CommandBatchSession :=
  (events_ s, s <| events_ := [] |>).

(** The default [Interrupt] of the contract does nothing. *)
#[export] Instance batch_session : RecognitionSession CommandBatchSession := {
  session_push := PushAudio; session_finish := Finish; session_cancel := Cancel;
  session_interrupt s := s; session_poll := PollEvents;
}.
End batch.

Record CommandBatchBackend := { provider_spec : CommandSpec; provider_id : bytes; backend_bridge : bool }.
#[export] Instance batch_backend : AsrBackend CommandBatchBackend CommandBatchSession := {
  Describe b := {|
    bd_provider_id := provider_id b; bd_provider_type := kCommandProviderType; bd_backend_id := "command-batch";
    bd_capabilities := {| audio_delivery_mode := Buffered; supports_streaming := false; supports_partial_results := false;
                          requires_network := false; supports_hotwords := false |} |};
  BackendCreateSession b := Ok (new_batch (provider_spec b) (provider_id b) (backend_bridge b));
}.
Definition CreateCommandBatchBackend (spec : CommandSpec) (id : bytes) (bridge : bool) : result CommandBatchBackend :=
  if is_empty (sp_command spec) then Err "Command ASR provider has empty command."
  else Ok {| provider_spec := spec; provider_id := id; backend_bridge := bridge |}.

(** ** The samples survive the byte view *)

Definition sample_of (lo hi : ascii) : Z :=
  let u := (Z.of_N (N_of_ascii lo) + 256 * Z.of_N (N_of_ascii hi))%Z in
  if (u <? 32768)%Z then u else (u - 65536)%Z.
Fixpoint samples_of (b : bytes) : list Z :=
  match b with lo :: hi :: b => sample_of lo hi :: samples_of b | _ => [] end.

Lemma byte_of_value z : Z.of_N (N_of_ascii (byte_of z)) = (z mod 256)%Z.
Proof.
  pose proof (Z.mod_pos_bound z 256). unfold byte_of. rewrite N_ascii_embedding by lia. by rewrite Z2N.id by lia.
Qed.
Lemma sample_bytes_roundtrip z : is_i16 z -> sample_of (byte_of z) (byte_of (Z.shiftr z 8)) = z.
Proof.
  unfold is_i16, sample_of. intros Hz. rewrite !byte_of_value, Z.shiftr_div_pow2 by lia. change (2 ^ 8)%Z with 256%Z.
  pose proof (Z.div_mod z 256). pose proof (Z.mod_pos_bound z 256).
  pose proof (Z.div_mod (z / 256) 256). pose proof (Z.mod_pos_bound (z / 256) 256).
  assert ((z / 256 / 256 = 0 \/ z / 256 / 256 = -1)%Z) by lia.
  destruct (Z.ltb_spec (z mod 256 + 256 * ((z / 256) mod 256)) 32768); lia.
Qed.
Lemma as_bytes_roundtrip pcm : Forall is_i16 pcm -> samples_of (as_bytes pcm) = pcm.
Proof.
  unfold as_bytes. induction 1 as [|z pcm Hz _ IH]; [done|]. rewrite fmap_cons. cbn [concat sample_bytes app samples_of].
  by rewrite sample_bytes_roundtrip, IH.
Qed.

(** ** What a session does *)

Section behaviour.
Context (Run : CommandSpec -> bytes -> CommandResult).
#[local] Existing Instance batch_session.

Fixpoint push_all (chunks : list (list Z)) (s : CommandBatchSession) : result unit * CommandBatchSession :=
  match chunks with
  | [] => (Ok tt, s)
  | c :: chunks => match PushAudio c s with (Ok _, s) => push_all chunks s | r => r end
  end.

Lemma push_all_collects chunks s : finished_ s = false ->
  push_all chunks s = (Ok tt, s <| pcm_ := pcm_ s ++ concat chunks |>).
Proof.
  revert s. induction chunks as [|c chunks IH]; intros s Hf; cbn [push_all].
  - destruct s. cbn. by rewrite app_nil_r.
  - unfold PushAudio. rewrite Hf, IH by done. destruct s. cbn. by rewrite app_assoc.
Qed.

(** The texts the bridge may be handed, one per line of the error output. *)
Definition stderr_lines (text : bytes) : list bytes :=
  drained_lines text ++ (if is_empty (drained_tail text) then [] else [strip_cr (drained_tail text)]).

Lemma deliver_bounded st line : (length st.1 = st.2 /\ st.2 <= kMaxBatchNotifications)%nat ->
  (length (deliver_line st line).1.1 = (deliver_line st line).1.2 /\ (deliver_line st line).1.2 <= kMaxBatchNotifications)%nat.
Proof.
  intros [H1 H2]. unfold deliver_line. destruct (Nat.leb_spec kMaxBatchNotifications st.2); [done|]. cbn. rewrite length_app. cbn. lia.
Qed.
Lemma DeliverStderr_bounded stderr s : delivered_lines s = [] ->
  (length (delivered_lines (DeliverStderr stderr s)) <= kMaxBatchNotifications)%nat.
Proof.
  intros H0. unfold DeliverStderr. destruct (_ || _); [rewrite H0; cbn; lia|]. 
  pose proof (drain_lines_inv deliver_line (fun st => length st.1 = st.2 /\ st.2 <= kMaxBatchNotifications)%nat
    (delivered_lines s, 0%nat) stderr true deliver_bounded) as H. cbn. rewrite H0 in *. destruct H as [-> Hle]; [cbn; lia|exact Hle].
Qed.
(** An error output of at most ten lines is handed over whole. *)
Lemma drain_loop_all fuel st rest :
  (length rest < fuel)%nat -> (st.2 + length (drained_lines rest) <= kMaxBatchNotifications)%nat ->
  drain_loop deliver_line fuel st rest = ((st.1 ++ drained_lines rest, (st.2 + length (drained_lines rest))%nat), drained_tail rest, false).
Proof.
  revert st rest. induction fuel as [|fuel IH]; intros st rest Hf Hn; [lia|]. cbn [drain_loop].
  unfold find_char. destruct (find_char_from rest ch_nl 0) as [e|] eqn:E.
  - apply find_char_from_Some in E as (He & Hnl & Hrest). unfold substr in *. rewrite Nat.sub_0_r in *.
    rewrite !drop_0 in *. rewrite Nat.add_1_r in Hrest.
    destruct (drained_cons _ (drop (S e) rest) Hnl) as [Hl Ht]. rewrite <-Hrest in Hl, Ht. rewrite Hl in Hn. cbn in Hn.
    unfold deliver_line at 1. destruct (Nat.leb_spec kMaxBatchNotifications st.2); [lia|].
    rewrite IH by (cbn; rewrite ?length_drop; lia). cbn. rewrite Hl, Ht, <- app_assoc. cbn. by rewrite Nat.add_succ_r.
  - apply find_char_from_None in E. unfold drained_lines, drained_tail.
    rewrite split_ref_no_delim by done. cbn. rewrite app_nil_r, Nat.add_0_r. by destruct st.
Qed.
Lemma DeliverStderr_all stderr s :
  has_bridge s = true -> delivered_lines s = [] -> (length (stderr_lines stderr) <= kMaxBatchNotifications)%nat ->
  delivered_lines (DeliverStderr stderr s) = stderr_lines stderr.
Proof.
  intros Hb H0 Hn. unfold DeliverStderr. rewrite Hb. cbn [negb orb]. destruct (is_empty stderr) eqn:He.
  { apply is_empty_true in He as ->. exact H0. }
  unfold stderr_lines in *. rewrite length_app in Hn. unfold DrainLinesFromBuffer.
  rewrite drain_loop_all by (cbn; lia). rewrite H0. cbn [app fst snd negb andb Nat.add].
  destruct (is_empty (drained_tail stderr)); cbn [negb length] in *; [by rewrite app_nil_r|].
  unfold deliver_line. cbn [fst snd]. destruct (Nat.leb_spec kMaxBatchNotifications (length (drained_lines stderr))); [lia|done].
Qed.

Lemma DeliverStderr_frame stderr s :
  events_ (DeliverStderr stderr s) = events_ s /\ runs (DeliverStderr stderr s) = runs s /\ finished_ (DeliverStderr stderr s) = finished_ s.
Proof. unfold DeliverStderr. by case_match. Qed.
Lemma Finish_finishes s : finished_ (Finish Run s).2 = true.
Proof.
  unfold Finish. destruct (finished_ s) eqn:Hf; [done|]. cbv zeta.
  set (x := s <| finished_ := true |>). set (y := x <| runs := _ |>).
  pose proof (DeliverStderr_frame (stderr_text (Run (command_ x) (as_bytes (pcm_ x)))) y) as (_ & _ & H). exact H.
Qed.
Lemma Finish_first s : finished_ s = false ->
  runs (Finish Run s).2 = runs s ++ [(command_ s, as_bytes (pcm_ s))] /\
  (PollEvents (Finish Run s).2).1 = events_ s ++ [command_event (Run (command_ s) (as_bytes (pcm_ s))); completed_event] /\
  delivered_lines (Finish Run s).2 = delivered_lines (DeliverStderr (stderr_text (Run (command_ s) (as_bytes (pcm_ s)))) s) /\
  (events_ s = [] -> (Finish Run s).1 =
     if ev_kind (command_event (Run (command_ s) (as_bytes (pcm_ s)))) =b ErrorEvent
     then Err (ev_error (command_event (Run (command_ s) (as_bytes (pcm_ s))))) else Ok tt).
Proof.
  intros Hf. unfold Finish. rewrite Hf. cbv zeta.
  set (x := s <| finished_ := true |>). set (y := x <| runs := _ |>).
  change (command_ x) with (command_ s). change (pcm_ x) with (pcm_ s).
  set (r := Run (command_ s) (as_bytes (pcm_ s))).
  destruct (DeliverStderr_frame (stderr_text r) y) as (He & Hr & _). split_and!.
  - exact Hr.
  - cbn. rewrite He, <- app_assoc. done.
  - cbn. unfold DeliverStderr. change (has_bridge y) with (has_bridge s). by case_match.
  - intros H0. cbn. rewrite He. change (events_ y) with (events_ s). rewrite H0. cbn [app].
    unfold command_event. repeat case_match; done.
Qed.

(** Pushing chunks and finishing runs the command once, on the bytes of exactly these
    samples, and the session then reports one outcome and completion; the call succeeds
    exactly when the outcome is a text. At most ten lines of error output go to the bridge,
    all of them when there are no more. *)
Theorem batch_runs_once spec id bridge chunks :
  Forall is_i16 (concat chunks) ->
  exists s1 s2 r audio,
    push_all chunks (new_batch spec id bridge) = (Ok tt, s1) /\ Finish Run s1 = (r, s2) /\
    runs s2 = [(spec, audio)] /\ samples_of audio = concat chunks /\
    (PollEvents s2).1 = [command_event (Run spec audio); completed_event] /\
    (r = Ok tt <-> ev_kind (command_event (Run spec audio)) = FinalText) /\
    (length (delivered_lines s2) <= kMaxBatchNotifications)%nat /\
    (bridge = true -> (length (stderr_lines (stderr_text (Run spec audio))) <= kMaxBatchNotifications)%nat ->
     delivered_lines s2 = stderr_lines (stderr_text (Run spec audio))) /\
    Finish Run s2 = (Ok tt, s2).
Proof.
  intros Hp. eexists _, _, _, (as_bytes (concat chunks)). rewrite push_all_collects by done. split; [reflexivity|].
  split; [apply surjective_pairing|].
  set (s1 := new_batch spec id bridge <| pcm_ := _ |>).
  destruct (Finish_first s1 eq_refl) as (E1 & E2 & E3 & E4). rewrite E1, E2, E3, (E4 eq_refl).
  change (command_ s1) with spec. change (as_bytes (pcm_ s1)) with (as_bytes (concat chunks)).
  split_and!; [done|by apply as_bytes_roundtrip|done| |by apply DeliverStderr_bounded|by intros; apply DeliverStderr_all|].
  - set (r := Run spec _). unfold command_event. repeat case_match; (split; [try discriminate; done|done]).
  - unfold Finish at 1. rewrite (Finish_finishes s1). done.
Qed.
End behaviour.

(** A provider that recognises, with a warning on its error output. *)
Definition sample_run (spec : CommandSpec) (audio : bytes) : CommandResult :=
  {| exit_code := 0; timed_out := false; launch_failed := false; stdout_text := " hello" ++ [ch_nl];
     stderr_text := "warn" ++ [ch_nl] |}.
Lemma batch_runs_once_witness :
  exists s1 s2 r audio,
    push_all [[1; -2]; [300]]%Z (new_batch (BuildCommandSpec "asr" [] ∅ 0) "p" true) = (Ok tt, s1) /\
    Finish sample_run s1 = (r, s2) /\ samples_of audio = [1; -2; 300]%Z /\ delivered_lines s2 = ["warn"%bytes].
Proof.
  destruct (batch_runs_once sample_run (BuildCommandSpec "asr" [] ∅ 0) "p" true [[1; -2]; [300]]%Z)
    as (s1 & s2 & r & audio & H1 & H2 & _ & H4 & _ & _ & _ & H8 & _); [repeat constructor; vm_compute; discriminate|].
  exists s1, s2, r, audio. split; [exact H1|]. split; [exact H2|]. split; [exact H4|]. apply H8; [reflexivity | vm_compute; lia].
Defined.
