(* ===== verification/CommandStreaming.v ===== *)
(** * Streaming command backends (src/src/daemon/asr/backends/command_streaming_backend.cpp)

    The session talks to a provider process in lines of JSON: audio and control messages on
    its input, results on its output. The process, the clock and the threads that may call
    [Interrupt] meanwhile are the class [Provider]; JSON text and base64 are the class
    [Encoding]. An error out-parameter is an [option bytes], [None] for a null pointer.
    Times are in nanoseconds. *)

From S2P Require Import Prelude StringUtils Json CoreConfig RecognitionContract Process ProcessSession Notification CommandBatch.
From Stdlib Require Import Ascii.

Definition kPollSliceMs : Z := 50.
Definition kAwaitFinalTimeoutMs : Z := 10000.
Definition kFinalGraceMs : Z := 200.
Definition ns_per_ms : Z := 1000000.

(** A process session as its owner sees it, with the world around it. *)
Class Provider (W : Type) := {
  child_start : CommandSpec -> W -> result unit * W;
  child_push : bytes -> W -> bool * W;
  child_close : W -> W;
  child_next : Z -> W -> option ChildEvent * W;      (* [NextEvent], the wait in ms *)
  child_cancel : W -> W;                             (* [Cancel] of the session *)
  child_destroy : W -> W;
  child_interrupted : W -> bool;                     (* [interrupted_], set from any thread *)
  child_interrupt : W -> W;
  clock_now : W -> Z;
}.

Class Encoding := {
  json_text : json -> bytes;
  json_read : bytes -> result json;
  base64_encode : bytes -> bytes;
}.

(** [RemainingTimeoutMs] for a deadline that is not infinite. *)
Definition RemainingTimeoutMs (deadline max_timeout_ms now : Z) : Z :=
  if (max_timeout_ms <=? 0)%Z then 0%Z
  else if (deadline <=? now)%Z then 0%Z
  else
    let remaining := (deadline - now)%Z in
    if (max_timeout_ms * ns_per_ms <=? remaining)%Z then max_timeout_ms else (remaining / ns_per_ms)%Z.

(** What the notification bridge is told. *)
Inductive BridgeCall := Fed (data : bytes) | Flushed | Retired.

Record CommandStreamingSession (W : Type) := {
  world : W; command_ : CommandSpec; has_bridge : bool; session_ : bool;
  started_ : bool; finished_ : bool; cancelled_ : bool; terminated_ : bool; completed_ : bool; completed_emitted_ : bool;
  saw_error_ : bool; saw_final_text_ : bool; child_exited_ : bool; killed_by_us_ : bool; exit_code_ : Z;
  stdout_buffer_ : bytes; last_partial_text_ : bytes; events_ : list RecognitionEvent;
  (* what happened so far *)
  emitted : list RecognitionEvent; sent : list json; bridge_calls : list BridgeCall;
}.
Arguments world {W}. Arguments command_ {W}. Arguments has_bridge {W}. Arguments session_ {W}. Arguments started_ {W}.
Arguments finished_ {W}. Arguments cancelled_ {W}. Arguments terminated_ {W}. Arguments completed_ {W}.
Arguments completed_emitted_ {W}. Arguments saw_error_ {W}. Arguments saw_final_text_ {W}. Arguments child_exited_ {W}.
Arguments killed_by_us_ {W}. Arguments exit_code_ {W}. Arguments stdout_buffer_ {W}. Arguments last_partial_text_ {W}.
Arguments events_ {W}. Arguments emitted {W}. Arguments sent {W}. Arguments bridge_calls {W}.
Arguments Build_CommandStreamingSession {W}.
#[export] Instance CommandStreamingSession_fields W : Fields (CommandStreamingSession W) := fun s =>
  Build_CommandStreamingSession (world s) (command_ s) (has_bridge s) (session_ s) (started_ s) (finished_ s) (cancelled_ s)
    (terminated_ s) (completed_ s) (completed_emitted_ s) (saw_error_ s) (saw_final_text_ s) (child_exited_ s)
    (killed_by_us_ s) (exit_code_ s) (stdout_buffer_ s) (last_partial_text_ s) (events_ s)
    (emitted s) (sent s) (bridge_calls s).

Definition new_streaming {W} (w : W) (spec : CommandSpec) (bridge : bool) : CommandStreamingSession W :=
  Build_CommandStreamingSession w spec bridge false false false false false false false false false false false (-1)
    [] [] [] [] [] [].

Section streaming.
Context {W : Type} `{Provider W} `{Encoding}.
Abbreviation stream := (CommandStreamingSession W).
Implicit Types s : stream.

Definition HasTimedOut (deadline : Z) (w : W) : bool := (deadline <=? clock_now w)%Z.

Definition queue_event (e : RecognitionEvent) s : stream := s <| events_ := events_ s ++ [e] |> <| emitted := emitted s ++ [e] |>.
Definition bridge_call (c : BridgeCall) s : stream :=
  if has_bridge s then s <| bridge_calls := bridge_calls s ++ [c] |> else s.

Definition QueueError (error_text : bytes) s : stream :=
  let trimmed := Trim error_text in
  queue_event (error_event (if is_empty trimmed then "failed." else trimmed)) (s <| saw_error_ := true |>).
Definition QueueCompleted s : stream :=
  if completed_emitted_ s then s
  else queue_event completed_event (s <| completed_emitted_ := true |> <| completed_ := true |>).

Definition Terminate s : stream :=
  if terminated_ s then s
  else
    let s := bridge_call Retired (bridge_call Flushed (s <| terminated_ := true |>)) in
    if session_ s then s <| world := child_destroy (child_cancel (world s)) |> <| session_ := false |> else s.

(** An assignment through the error pointer. *)
Definition set_error (message : bytes) (error : option bytes) : option bytes := (fun _ => message) <$> error.
Definition error_text (fallback : bytes) (error : option bytes) : bytes :=
  match error with Some ((_ :: _) as e) => e | _ => fallback end.

Definition EnsureStarted (error : option bytes) s : bool * option bytes * stream :=
  if cancelled_ s || child_interrupted (world s) then (false, set_error "Recognition session already cancelled." error, s)
  else if started_ s then (true, error, s)
  else if is_empty (sp_command (command_ s)) then (false, set_error "Command ASR provider has empty command." error, s)
  else
    match child_start (command_ s) (world s) with
    | (Err e, w) =>
        let error := set_error e error in
        (false, error, QueueCompleted (QueueError (default "failed to start." error) (s <| world := w |>)))
    | (Ok _, w) =>
        if child_interrupted w then (false, error, s <| world := child_destroy (child_cancel w) |>)
        else (true, error, s <| world := w |> <| session_ := true |> <| started_ := true |>)
    end.

Definition HandleOutputLine (line : bytes) (st : stream * option bytes) : (stream * option bytes) * bool :=
  let '(s, error) := st in
  match json_read line with
  | Err e => ((s, set_error ("invalid streaming provider JSON: " ++ e) error), false)
  | Ok payload =>
      let type := String payload "type" [] in
      let text := Trim (String payload "text" []) in
      if (type =b "session_started"%bytes) || is_empty type then ((s, error), true)
      else if type =b "partial"%bytes then
        ((if negb (is_empty text) && negb (text =b last_partial_text_ s)
          then queue_event (partial_event text) (s <| last_partial_text_ := text |>) else s, error), true)
      else if (type =b "final"%bytes) || (type =b "final_timestamps"%bytes) then
        ((if negb (is_empty text)
          then queue_event (final_event text) (s <| saw_final_text_ := true |> <| last_partial_text_ := [] |>) else s, error), true)
      else if type =b "closed"%bytes then ((s <| completed_ := true |>, error), true)
      else ((s, error), true)
  end.

Definition output_line (st : stream * option bytes) (raw_line : bytes) : (stream * option bytes) * bool :=
  let line := Trim raw_line in
  if is_empty line then (st, true) else HandleOutputLine line st.
(** The buffer is a local of the drain: the callback does not touch it. *)
Definition ConsumeStdoutLines (error : option bytes) s : stream * option bytes :=
  let '((s, error), rest) := DrainLinesFromBuffer output_line (s, error) (stdout_buffer_ s) false in
  (s <| stdout_buffer_ := rest |>, error).

Definition on_exit (code : Z) (by_us : bool) s : stream :=
  let s := bridge_call Flushed (s <| child_exited_ := true |> <| exit_code_ := code |> <| killed_by_us_ := by_us |>) in
  if killed_by_us_ s then s
  else if negb (exit_code_ s =? 0)%Z && negb (saw_error_ s) && negb (saw_final_text_ s)
  then QueueError "Streaming ASR provider exited abnormally." s else s.

(** One event of [DrainEvents]; the flag tells whether the drain goes on. *)
Definition drain_event (e : ChildEvent) (error : option bytes) s : bool * option bytes * stream :=
  match e with
  | StdoutChunk data =>
      let '(s, error) := ConsumeStdoutLines error (s <| stdout_buffer_ := stdout_buffer_ s ++ data |>) in
      (match error with Some (_ :: _) => false | _ => true end, error, s)
  | StderrChunk data => (true, error, bridge_call (Fed data) s)
  | Cancelled => (true, error, s <| killed_by_us_ := true |>)
  | Exited code by_us => (true, error, on_exit code by_us s)
  end.

(** [None]: more events than the fuel. *)
Fixpoint drain_events (fuel : nat) (wait : Z) (error : option bytes) s : option (bool * option bytes * stream) :=
  match fuel with
  | O => None
  | S fuel =>
      match child_next wait (world s) with
      | (None, w) => Some (true, set_error [] error, s <| world := w |>)
      | (Some e, w) =>
          let '(go, error, s) := drain_event e error (s <| world := w |>) in
          if (go : bool) then drain_events fuel 0 error s else Some (false, error, s)
      end
  end.
Definition DrainEvents (fuel : nat) (wait : Z) (error : option bytes) s : option (bool * option bytes * stream) :=
  if negb (session_ s) then Some (true, set_error [] error, s) else drain_events fuel wait error s.

Definition SendJsonLine (fuel : nat) (payload : json) (error : option bytes) s : option (bool * option bytes * stream) :=
  if negb (session_ s) then Some (false, set_error "provider session is not started." error, s)
  else
    match child_push (json_text payload ++ [ch_nl]) (world s) with
    | (true, w) => Some (true, set_error [] error, s <| world := w |> <| sent := sent s ++ [payload] |>)
    | (false, w) =>
        '(_, _, s) ← DrainEvents fuel 0 None (s <| world := w |>);
        Some (false, set_error "Provider closed stdin or input buffer is full." error, s)
    end.

Definition control_payload (type : bytes) : json := JObject [("type"%bytes, JString type)].
Definition audio_payload (pcm : list Z) : json :=
  JObject [("audio_base64"%bytes, JString (base64_encode (as_bytes pcm))); ("type"%bytes, JString "audio")].
Definition SendControlEvent (fuel : nat) (type : bytes) := SendJsonLine fuel (control_payload type).

Definition PushAudio (fuel : nat) (pcm : list Z) (error : option bytes) s : option (bool * option bytes * stream) :=
  if finished_ s then Some (false, set_error "Recognition session already finished." error, s)
  else
    let '(ok, error, s) := EnsureStarted error s in
    if negb ok then Some (false, error, s)
    else
      '(ok, error, s) ← (if is_empty pcm then Some (true, error, s) else SendJsonLine fuel (audio_payload pcm) error s);
      if negb ok then Some (false, error, s)
      else
        '(ok, error, s) ← DrainEvents fuel 0 error s;
        if negb ok then Some (false, error, s) else Some (true, set_error [] error, s).

Definition fail (message : bytes) s : stream := Terminate (QueueCompleted (QueueError message s)).

(** The wait for the final text. *)
Inductive Waited := Reached | Failed.
Fixpoint await_final (fuel : nat) (deadline : Z) (error : option bytes) s : option (Waited * option bytes * stream) :=
  match fuel with
  | O => None
  | S n =>
      if saw_final_text_ s || completed_ s || child_exited_ s then Some (Reached, error, s)
      else
        '(ok, error, s) ← DrainEvents fuel kPollSliceMs error s;
        if negb ok then Some (Failed, error, fail (error_text "failed to poll provider." error) s)
        else if HasTimedOut deadline (world s) then
          let s := QueueCompleted (QueueError "Streaming ASR provider timed out." s) in
          let s := Terminate s in
          Some (Failed, set_error (match last (events_ s) with Some e => ev_error e | None => [] end) error, s)
        else await_final n deadline error s
  end.

Fixpoint grace (fuel : nat) (deadline : Z) (error : option bytes) s : option (bool * option bytes * stream) :=
  match fuel with
  | O => None
  | S n =>
      if HasTimedOut deadline (world s) || completed_ s || child_exited_ s then Some (false, error, s)
      else
        '(ok, error, s) ← DrainEvents fuel (RemainingTimeoutMs deadline kPollSliceMs (clock_now (world s))) error s;
        if negb ok then Some (true, error, s) else grace n deadline error s
  end.

Definition first_error (events : list RecognitionEvent) : option bytes :=
  match filter (fun e => ev_kind e = ErrorEvent) events with e :: _ => Some (ev_error e) | [] => None end.

(** The end of [Finish]: the verdict. *)
Definition verdict (grace_pump_failed : bool) (error : option bytes) s : bool * option bytes :=
  if cancelled_ s || killed_by_us_ s || child_interrupted (world s)
  then (false, set_error "Recognition session was interrupted or cancelled." error)
  else match error with
       | None => (negb (saw_error_ s) && negb grace_pump_failed, None)
       | Some _ =>
           match (if saw_error_ s then first_error (events_ s) else None) with
           | Some e => (false, Some e)
           | None => if grace_pump_failed then (false, error) else (negb (saw_error_ s), Some [])
           end
       end.

(** The part of [Finish] after the wait succeeded. *)
Definition finish_tail (fuel : nat) (error : option bytes) s : option (bool * option bytes * stream) :=
  '(grace_pump_failed, error, s) ←
    (if saw_final_text_ s then grace fuel (clock_now (world s) + kFinalGraceMs * ns_per_ms) error s else Some (false, error, s));
  '(_, _, s) ← DrainEvents fuel 0 None s;
  let s := if negb (saw_final_text_ s) && negb (saw_error_ s) && negb (cancelled_ s) && negb (killed_by_us_ s)
           then QueueError "Streaming ASR provider returned no text." s else s in
  let s := Terminate (QueueCompleted s) in
  Some (verdict grace_pump_failed error s, s).

Definition Finish (fuel : nat) (error : option bytes) s : option (bool * option bytes * stream) :=
  if finished_ s then Some (true, set_error [] error, s)
  else
    let '(ok, error, s) := EnsureStarted error s in
    if negb ok then Some (false, error, s)
    else
      '(ok, error, s) ← SendControlEvent fuel "finish" error (s <| finished_ := true |>);
      if negb ok then Some (false, error, fail (error_text "failed to send finish event." error) s)
      else
        let s := if session_ s then s <| world := child_close (world s) |> else s in
        let deadline := (clock_now (world s) + kAwaitFinalTimeoutMs * ns_per_ms)%Z in
        '(waited, error, s) ← await_final fuel deadline error s;
        match waited with
        | Failed => Some (false, error, s)
        | Reached => finish_tail fuel error s
        end.

Definition Cancel (fuel : nat) s : option stream :=
  s ← (if cancelled_ s then Some s
       else let s := s <| cancelled_ := true |> in
            if started_ s then '(_, _, s) ← SendControlEvent fuel "cancel" None s; Some s else Some s);
  Some (Terminate (QueueCompleted s)).

Definition Interrupt s : stream :=
  let s := s <| world := child_interrupt (world s) |> in
  if session_ s then s <| world := child_cancel (world s) |> else s.

Definition PollEvents s : list RecognitionEvent * stream := (events_ s, s <| events_ := [] |>).
 
(** ** What is emitted *)

Definition has (k : RecognitionEventKind) (l : list RecognitionEvent) : bool := existsb (fun e => ev_kind e =b k) l.
Definition count (k : RecognitionEventKind) (l : list RecognitionEvent) : nat := length (filter (fun e => ev_kind e = k) l).
#[local] Arguments has : simpl never.
#[local] Arguments count : simpl never.
Lemma has_one k e : has k [e] = (ev_kind e =b k).
Proof. apply orb_false_r. Qed.
Lemma has_app k l1 l2 : has k (l1 ++ l2) = has k l1 || has k l2.
Proof. apply existsb_app. Qed.
Lemma count_app k l1 l2 : count k (l1 ++ l2) = count k l1 + count k l2.
Proof. unfold count. by rewrite filter_app, length_app. Qed.
Lemma count_has k l : count k l = 0 <-> has k l = false.
Proof.
  unfold count, has. induction l as [|e l IH]; [done|]. rewrite filter_cons. cbn [existsb].
  destruct (decide (ev_kind e = k)) as [He|He]; [rewrite bool_decide_true by done; cbn; lia|by rewrite bool_decide_false].
Qed.

(** The flags say what was emitted; a live child belongs to a started session. *)
Record stream_inv s : Prop := {
  inv_final : saw_final_text_ s = has FinalText (emitted s);
  inv_error : saw_error_ s = has ErrorEvent (emitted s);
  inv_completed : count Completed (emitted s) = if completed_emitted_ s then 1 else 0;
  inv_live : session_ s = true -> started_ s = true /\ terminated_ s = false;
  inv_term : terminated_ s = true -> finished_ s || cancelled_ s = true;
}.

(** What handling the child's output may change: it emits events other than completion, and
    leaves the protocol's own state alone. *)
Record drained s s' : Prop := {
  dr_events : exists l, emitted s' = emitted s ++ l /\ events_ s' = events_ s ++ l /\ has Completed l = false;
  dr_inv : stream_inv s -> stream_inv s';
  dr_frame : (command_ s', has_bridge s', session_ s', started_ s', (finished_ s', cancelled_ s', terminated_ s', completed_emitted_ s', sent s'))
           = (command_ s, has_bridge s, session_ s, started_ s, (finished_ s, cancelled_ s, terminated_ s, completed_emitted_ s, sent s));
}.
#[export] Instance drained_preorder : PreOrder drained.
Proof.
  split.
  - intros s. constructor; [exists []; by rewrite !app_nil_r|done|done].
  - intros s1 s2 s3 [(l & E1 & E2 & E3) I1 F1] [(l' & E4 & E5 & E6) I2 F2]. constructor; [|auto|congruence].
    exists (l ++ l'). rewrite E4, E5, E1, E2, <- !app_assoc, has_app, E3, E6. done.
Qed.

Lemma drained_same s s' :
  (emitted s', events_ s', saw_final_text_ s', saw_error_ s') = (emitted s, events_ s, saw_final_text_ s, saw_error_ s) ->
  (command_ s', has_bridge s', session_ s', started_ s', (finished_ s', cancelled_ s', terminated_ s', completed_emitted_ s', sent s'))
   = (command_ s, has_bridge s, session_ s, started_ s, (finished_ s, cancelled_ s, terminated_ s, completed_emitted_ s, sent s)) ->
  drained s s'.
Proof.
  intros [= E1 E2 E3 E4] F. constructor; [exists []; by rewrite E1, E2, !app_nil_r| |exact F].
  intros [I1 I2 I3 I4 I5]. injection F as _ _ F3 F4 F5 F6 F7 F8 _.
  constructor; [congruence|congruence|by rewrite E1, F8|by rewrite F3, F4, F7|by rewrite F5, F6, F7].
Qed.
Lemma drained_queue e s s1 : ev_kind e <> Completed ->
  (emitted s1, events_ s1) = (emitted s, events_ s) ->
  saw_final_text_ s1 = (saw_final_text_ s || (ev_kind e =b FinalText)) -> saw_error_ s1 = (saw_error_ s || (ev_kind e =b ErrorEvent)) ->
  (command_ s1, has_bridge s1, session_ s1, started_ s1, (finished_ s1, cancelled_ s1, terminated_ s1, completed_emitted_ s1, sent s1))
   = (command_ s, has_bridge s, session_ s, started_ s, (finished_ s, cancelled_ s, terminated_ s, completed_emitted_ s, sent s)) ->
  drained s (queue_event e s1).
Proof.
  intros Hk [= E1 E2] Hf He F. constructor; [|..|exact F].
  - exists [e]. cbn. rewrite E1, E2, has_one, bool_decide_false by done. done.
  - intros [I1 I2 I3 I4 I5]. injection F as _ _ F3 F4 F5 F6 F7 F8 _. constructor; cbn.
    + by rewrite E1, has_app, has_one, Hf, I1.
    + by rewrite E1, has_app, has_one, He, I2.
    + rewrite E1, count_app, F8, I3. unfold count. rewrite filter_cons_False by done. cbn. lia.
    + by rewrite F3, F4, F7.
    + by rewrite F5, F6, F7.
Qed.
Lemma drained_QueueError m s : drained s (QueueError m s).
Proof. unfold QueueError. apply drained_queue; try done; cbn; by rewrite ?orb_true_r, ?orb_false_r. Qed.
Lemma drained_bridge c s : drained s (bridge_call c s).
Proof. unfold bridge_call. case_match; [by apply drained_same | done]. Qed.
Lemma drained_world w s : drained s (s <| world := w |>).
Proof. by apply drained_same. Qed.

Lemma drained_line st line : drained st.1 (output_line st line).1.1.
Proof.
  unfold output_line. destruct (is_empty _); [done|]. destruct st as [s error]. unfold HandleOutputLine.
  destruct (json_read _) as [payload|]; [|done]. cbv zeta. destruct (_ || is_empty _); [done|].
  destruct (_ =b "partial"%bytes).
  { cbn [fst]. case_match; [|done]. apply drained_queue; try done; cbn; by rewrite ?orb_true_r, ?orb_false_r. }
  destruct (_ || _).
  { cbn [fst]. case_match; [|done]. apply drained_queue; try done; cbn; by rewrite ?orb_true_r, ?orb_false_r. }
  destruct (_ =b _); [by apply drained_same | done].
Qed.
Lemma drained_consume error s : drained s (ConsumeStdoutLines error s).1.
Proof.
  unfold ConsumeStdoutLines.
  pose proof (drain_lines_inv output_line (fun st => drained s st.1) (s, error) (stdout_buffer_ s) false) as Hd.
  destruct (DrainLinesFromBuffer _ _ _ _) as [[s1 error1] rest]. cbn [fst] in *.
  etrans; [apply Hd; [|done]|by apply drained_same]. intros st line Hs. etrans; [exact Hs | apply drained_line].
Qed.
Lemma drained_exit code by_us s : drained s (on_exit code by_us s).
Proof.
  unfold on_exit. cbv zeta. set (s1 := bridge_call _ _).
  assert (H1 : drained s s1) by (subst s1; etrans; [|apply drained_bridge]; by apply drained_same). clearbody s1.
  repeat case_match; [done|etrans; [exact H1|apply drained_QueueError]|done].
Qed.
Lemma drained_event e error s : drained s (drain_event e error s).2.
Proof.
  destruct e as [data|data| |code by_us]; cbn [drain_event].
  - pose proof (drained_consume error (s <| stdout_buffer_ := stdout_buffer_ s ++ data |>)) as Hc.
    destruct (ConsumeStdoutLines _ _) as [s1 e1]. cbn [snd fst] in *. etrans; [|exact Hc]. by apply drained_same.
  - apply drained_bridge.
  - by apply drained_same.
  - apply drained_exit.
Qed.
Lemma drained_events fuel wait error s r : drain_events fuel wait error s = Some r -> drained s r.2.
Proof.
  revert wait error s. induction fuel as [|fuel IH]; intros wait error s Hr; [discriminate|]. cbn [drain_events] in Hr.
  destruct (child_next wait (world s)) as [[e|] w]; [|injection Hr as <-; apply drained_world].
  pose proof (drained_event e error (s <| world := w |>)) as He. destruct (drain_event _ _ _) as [[go error1] s1]. cbn [snd] in He.
  assert (H1 : drained s s1) by (etrans; [apply drained_world | exact He]).
  destruct go; [|injection Hr as <-; exact H1]. etrans; [exact H1 | by eapply IH].
Qed.
Lemma drained_drain fuel wait error s r : DrainEvents fuel wait error s = Some r -> drained s r.2.
Proof. unfold DrainEvents. destruct (negb _); [intros Hr; injection Hr as <-; cbn; reflexivity | apply drained_events]. Qed.
Lemma drained_grace fuel deadline error s r : grace fuel deadline error s = Some r -> drained s r.2.
Proof.
  revert error s. induction fuel as [|fuel IH]; intros error s Hr; [discriminate|]. cbn [grace] in Hr.
  destruct (_ || _ || _); [injection Hr as <-; done|].
  destruct (DrainEvents _ _ _ _) as [[[ok error1] s1]|] eqn:Ed; [|discriminate]. cbn in Hr. apply drained_drain in Ed. cbn [snd] in Ed.
  destruct ok; [|injection Hr as <-; exact Ed]. etrans; [exact Ed | exact (IH _ _ Hr)].
Qed.

(** ** Ending a session *)

(** [QueueCompleted] and [Terminate]: completion is reported, once, and the child is let go. *)
Record closed_out s s' : Prop := {
  co_inv : stream_inv s -> finished_ s || cancelled_ s = true -> stream_inv s' /\ session_ s' = false;
  co_done : completed_emitted_ s' = true;
  co_flags : (saw_error_ s', saw_final_text_ s', cancelled_ s', killed_by_us_ s', finished_ s', sent s')
           = (saw_error_ s, saw_final_text_ s, cancelled_ s, killed_by_us_ s, finished_ s, sent s);
  co_events : exists l, emitted s' = emitted s ++ l /\ events_ s' = events_ s ++ l /\ (completed_emitted_ s = false -> l = [completed_event]);
}.
Lemma QueueCompleted_spec s : stream_inv s ->
  stream_inv (QueueCompleted s) /\ completed_emitted_ (QueueCompleted s) = true.
Proof.
  intros Hi. unfold QueueCompleted. destruct (completed_emitted_ s) eqn:Hc; [done|]. destruct Hi as [I1 I2 I3 I4 I5].
  split; [|done]. constructor; cbn.
  - by rewrite I1, has_app, has_one, orb_false_r.
  - by rewrite I2, has_app, has_one, orb_false_r.
  - by rewrite count_app, I3, Hc.
  - exact I4.
  - exact I5.
Qed.
Lemma bridge_frame c s : (emitted (bridge_call c s), events_ (bridge_call c s), session_ (bridge_call c s), started_ (bridge_call c s),
    (saw_error_ (bridge_call c s), saw_final_text_ (bridge_call c s), cancelled_ (bridge_call c s), killed_by_us_ (bridge_call c s)),
    (finished_ (bridge_call c s), completed_emitted_ (bridge_call c s), sent (bridge_call c s)))
  = (emitted s, events_ s, session_ s, started_ s, (saw_error_ s, saw_final_text_ s, cancelled_ s, killed_by_us_ s), (finished_ s, completed_emitted_ s, sent s)).
Proof. unfold bridge_call. by case_match. Qed.
Lemma Terminate_frame s :
  (emitted (Terminate s), events_ (Terminate s), started_ (Terminate s),
   (saw_error_ (Terminate s), saw_final_text_ (Terminate s), cancelled_ (Terminate s), killed_by_us_ (Terminate s)),
   (finished_ (Terminate s), completed_emitted_ (Terminate s), sent (Terminate s)))
  = (emitted s, events_ s, started_ s, (saw_error_ s, saw_final_text_ s, cancelled_ s, killed_by_us_ s), (finished_ s, completed_emitted_ s, sent s))
  /\ (terminated_ s = false -> session_ (Terminate s) = false).
Proof.
  unfold Terminate. destruct (terminated_ s); [done|]. cbv zeta.
  pose proof (bridge_frame Flushed (s <| terminated_ := true |>)) as [= A1 A2 A3 A4 A5 A6 A7 A8 A9 A10 A11].
  set (s1 := bridge_call Flushed _) in *. clearbody s1.
  pose proof (bridge_frame Retired s1) as [= B1 B2 B3 B4 B5 B6 B7 B8 B9 B10 B11]. set (s2 := bridge_call Retired s1) in *. clearbody s2.
  destruct (session_ s2) eqn:Hs; cbn; (split; [congruence | by rewrite ?Hs]).
Qed.
Lemma Terminate_inv s : stream_inv s -> finished_ s || cancelled_ s = true -> stream_inv (Terminate s) /\ session_ (Terminate s) = false.
Proof.
  intros [I1 I2 I3 I4 I5] Hf. destruct (Terminate_frame s) as [[= E1 E2 E3 E4 E5 E6 E7 E8 E9 E10] Hs].
  assert (Hsf : session_ (Terminate s) = false).
  { destruct (terminated_ s) eqn:Ht; [|by apply Hs]. unfold Terminate. rewrite Ht. destruct (session_ s); [|done]. by destruct I4. }
  split; [|exact Hsf]. constructor; [congruence|congruence|by rewrite E1, E9|by rewrite Hsf|by rewrite E6, E8].
Qed.
Lemma close_out s : closed_out s (Terminate (QueueCompleted s)).
Proof.
  destruct (Terminate_frame (QueueCompleted s)) as [[= E1 E2 E3 E4 E5 E6 E7 E8 E9 E10] _]. constructor.
  - intros Hi Hf. apply Terminate_inv; [by apply QueueCompleted_spec|]. unfold QueueCompleted. by case_match.
  - rewrite E9. unfold QueueCompleted. by destruct (completed_emitted_ s) eqn:Hc.
  - rewrite E4, E5, E6, E7, E8, E10. unfold QueueCompleted. by case_match.
  - rewrite E1, E2. unfold QueueCompleted. destruct (completed_emitted_ s); [exists []; by rewrite !app_nil_r|by exists [completed_event]].
Qed.
Lemma fail_spec m s : stream_inv s -> finished_ s = true -> stream_inv (fail m s) /\ session_ (fail m s) = false /\ completed_emitted_ (fail m s) = true
  /\ sent (fail m s) = sent s /\ finished_ (fail m s) = finished_ s.
Proof.
  intros Hi Hf. unfold fail. pose proof (drained_QueueError m s) as Hq. set (q := QueueError m s) in *. clearbody q.
  destruct Hq as [_ Hd [= F1 F2 F3 F4 F5 F6 F7 F8 F9]]. destruct (close_out q) as [Hc Hdone [= G1 G2 G3 G4 G5 G6] _].
  destruct (Hc (Hd Hi)) as [Hinv Hs]; [by rewrite F5, Hf|]. split_and!; [done..|congruence|congruence].
Qed.

(** What [await_final] leaves: handled output, or an ended session. *)
Lemma await_final_spec fuel deadline error s waited error' s' :
  await_final fuel deadline error s = Some (waited, error', s') -> stream_inv s -> finished_ s = true ->
  match waited with
  | Reached => drained s s'
  | Failed => stream_inv s' /\ session_ s' = false /\ completed_emitted_ s' = true /\ sent s' = sent s /\ finished_ s' = finished_ s
  end.
Proof.
  revert error s. induction fuel as [|fuel IH]; intros error s Hr Hi Hf; [discriminate|]. cbn [await_final] in Hr.
  destruct (_ || _ || _); [injection Hr as <- <- <-; reflexivity|].
  destruct (DrainEvents _ _ _ _) as [[[ok error1] s1]|] eqn:Ed; [|discriminate]. cbn in Hr. apply drained_drain in Ed. cbn [snd] in Ed.
  pose proof Ed as [_ Hd [= F1 F2 F3 F4 F5 F6 F7 F8 F9]]. specialize (Hd Hi).
  destruct ok; cbn [negb] in Hr.
  - destruct (HasTimedOut _ _).
    + injection Hr as <- <- <-. destruct (fail_spec "Streaming ASR provider timed out." s1 Hd ltac:(congruence)) as (? & ? & ? & ? & ?).
      unfold fail in *. split_and!; [done..|congruence|congruence].
    + pose proof (IH _ _ Hr Hd ltac:(congruence)) as H1. destruct waited; [by etrans|]. destruct H1 as (? & ? & ? & ? & ?). split_and!; [done..|congruence|congruence].
  - injection Hr as <- <- <-. destruct (fail_spec (error_text "failed to poll provider." error1) s1 Hd ltac:(congruence)) as (? & ? & ? & ? & ?).
    split_and!; [done..|congruence|congruence].
Qed.
Lemma SendJsonLine_spec fuel payload error s ok error' s' :
  SendJsonLine fuel payload error s = Some (ok, error', s') ->
  if ok then error' = set_error [] error /\ session_ s = true /\ exists w, s' = s <| world := w |> <| sent := sent s ++ [payload] |>
  else drained s s'.
Proof.
  unfold SendJsonLine. destruct (session_ s) eqn:Hs; cbn [negb]; [|intros [= <- <- <-]; reflexivity].
  destruct (child_push _ _) as [[|] w]; [intros [= <- <- <-]; eauto|].
  destruct (DrainEvents _ _ _ _) as [[[ok1 error1] s1]|] eqn:Ed; [|discriminate]. apply drained_drain in Ed. cbn. intros [= <- <- <-].
  etrans; [apply (drained_world w s) | exact Ed].
Qed.

Lemma EnsureStarted_spec error s ok error' s' :
  EnsureStarted error s = (ok, error', s') -> stream_inv s -> finished_ s = false ->
  stream_inv s' /\ (sent s', finished_ s') = (sent s, finished_ s) /\
  (ok = true -> error' = error /\ started_ s' = true /\ (emitted s', events_ s') = (emitted s, events_ s)
     /\ cancelled_ s' = false /\ completed_emitted_ s' = completed_emitted_ s).
Proof.
  intros He Hi Hf. unfold EnsureStarted in He.
  destruct (cancelled_ s || _) eqn:Hc; [by injection He as <- <- <-|]. apply orb_false_iff in Hc as [Hc _].
  destruct (started_ s) eqn:Hst; [by injection He as <- <- <-|].
  destruct (is_empty _); [by injection He as <- <- <-|].
  destruct (child_start _ _) as [[u|e] w].
  - destruct (child_interrupted w); injection He as <- <- <-.
    { split_and!; [by eapply (dr_inv s), Hi; apply drained_world|done|done]. }
    destruct Hi as [I1 I2 I3 I4 I5]. split_and!; [|done|done]. constructor; try done.
    intros _. split; [done|]. cbn. destruct (terminated_ s) eqn:Ht; [|done]. specialize (I5 eq_refl). by rewrite Hf, Hc in I5.
  - injection He as <- <- <-. set (q := QueueError _ _).
    assert (Hq : drained s q) by (etrans; [apply (drained_world w) | apply drained_QueueError]). clearbody q.
    destruct Hq as [_ Hd [= F1 F2 F3 F4 F5 F6 F7 F8 F9]]. split_and!; [by apply QueueCompleted_spec, Hd| |done].
    unfold QueueCompleted. case_match; cbn; congruence.
Qed.

(** A null error pointer stays null, any other stays one. *)
Lemma ptr_set m error : set_error [] (set_error m error) = set_error [] error.
Proof. by destruct error. Qed.
Lemma ptr_line st line : set_error [] (output_line st line).1.2 = set_error [] st.2.
Proof.
  unfold output_line. destruct (is_empty _); [done|]. destruct st as [s error]. unfold HandleOutputLine.
  destruct (json_read _); [|apply ptr_set]. cbv zeta. by repeat case_match.
Qed.
Lemma ptr_event e error s : set_error [] (drain_event e error s).1.2 = set_error [] error.
Proof.
  destruct e as [data|data| |code by_us]; cbn [drain_event]; try done. unfold ConsumeStdoutLines. set (s1 := s <| stdout_buffer_ := _ |>).
  pose proof (drain_lines_inv output_line (fun st => set_error [] st.2 = set_error [] error) (s1, error) (stdout_buffer_ s1) false) as Hd.
  destruct (DrainLinesFromBuffer _ _ _ _) as [[s2 error2] rest]. apply Hd; [|done]. intros st line <-. apply ptr_line.
Qed.
Lemma ptr_events fuel wait error s r : drain_events fuel wait error s = Some r -> set_error [] r.1.2 = set_error [] error.
Proof.
  revert wait error s. induction fuel as [|fuel IH]; intros wait error s Hr; [discriminate|]. cbn [drain_events] in Hr.
  destruct (child_next wait (world s)) as [[e|] w]; [|injection Hr as <-; apply ptr_set].
  pose proof (ptr_event e error (s <| world := w |>)) as He. destruct (drain_event _ _ _) as [[go error1] s1]. cbn [fst snd] in He.
  destruct go; [|injection Hr as <-; exact He]. rewrite <- He. by eapply IH.
Qed.
Lemma ptr_drain fuel wait error s r : DrainEvents fuel wait error s = Some r -> set_error [] r.1.2 = set_error [] error.
Proof. unfold DrainEvents. destruct (negb _); [intros Hr; injection Hr as <-; apply ptr_set | apply ptr_events]. Qed.
Lemma ptr_grace fuel deadline error s r : grace fuel deadline error s = Some r -> set_error [] r.1.2 = set_error [] error.
Proof.
  revert error s. induction fuel as [|fuel IH]; intros error s Hr; [discriminate|]. cbn [grace] in Hr.
  destruct (_ || _ || _); [by injection Hr as <-|].
  destruct (DrainEvents _ _ _ _) as [[[ok error1] s1]|] eqn:Ed; [|discriminate]. apply ptr_drain in Ed. cbn in Hr, Ed.
  destruct ok; [rewrite <- Ed; exact (IH _ _ Hr)|injection Hr as <-; exact Ed].
Qed.
Lemma ptr_await fuel deadline error s waited error' s' :
  await_final fuel deadline error s = Some (waited, error', s') -> set_error [] error' = set_error [] error.
Proof.
  revert error s. induction fuel as [|fuel IH]; intros error s Hr; [discriminate|]. cbn [await_final] in Hr.
  destruct (_ || _ || _); [by injection Hr as <- <- <-|].
  destruct (DrainEvents _ _ _ _) as [[[ok error1] s1]|] eqn:Ed; [|discriminate]. apply ptr_drain in Ed. cbn in Hr, Ed.
  destruct ok; cbn [negb] in Hr; [|by injection Hr as <- <- <-].
  destruct (HasTimedOut _ _); [injection Hr as <- <- <-; by rewrite ptr_set|]. rewrite <- Ed. exact (IH _ _ Hr).
Qed.

Lemma verdict_ok failed error s error' : verdict failed error s = (true, error') ->
  cancelled_ s = false /\ killed_by_us_ s = false /\ saw_error_ s = false /\ error' = set_error [] error.
Proof.
  unfold verdict. destruct (cancelled_ s); [discriminate|]. destruct (killed_by_us_ s); [discriminate|]. cbn.
  destruct (child_interrupted _); [discriminate|]. destruct error as [e|].
  - destruct (saw_error_ s); [destruct (first_error (events_ s)); [discriminate|] | ]; (destruct failed; [discriminate|]); by intros [= <-].
  - destruct (saw_error_ s), failed; try discriminate. by intros [= <-].
Qed.
Lemma finish_tail_spec fuel error s ok error' s' :
  finish_tail fuel error s = Some (ok, error', s') -> stream_inv s -> finished_ s = true ->
  stream_inv s' /\ (finished_ s' = true -> completed_emitted_ s' = true /\ session_ s' = false) /\ finished_ s' = true /\ sent s' = sent s /\
  (ok = true -> saw_final_text_ s' = true /\ saw_error_ s' = false /\ error' = set_error [] error).
Proof.
  intros Hr Hi Hf. unfold finish_tail in Hr.
  destruct (if saw_final_text_ s then _ else _) as [[[failed error1] s1]|] eqn:Eg; [|discriminate].
  assert (H1 : drained s s1 /\ set_error [] error1 = set_error [] error).
  { destruct (saw_final_text_ s); [|by injection Eg as <- <- <-]. split; [exact (drained_grace _ _ _ _ _ Eg) | exact (ptr_grace _ _ _ _ _ Eg)]. }
  cbn in Hr. destruct (DrainEvents fuel 0 None s1) as [[[ok2 error2] s2]|] eqn:Ed; [|discriminate]. cbn in Hr.
  apply drained_drain in Ed. cbn [snd] in Ed. destruct H1 as [H1 Herr].
  set (s3 := if negb (saw_final_text_ s2) && _ && _ && _ then _ else s2) in Hr.
  assert (H3 : drained s s3 /\ (saw_error_ s3 = false -> cancelled_ s3 = false -> killed_by_us_ s3 = false -> saw_final_text_ s3 = true)).
  { split.
    - etrans; [exact H1|]. etrans; [exact Ed|]. subst s3. case_match; [apply drained_QueueError | done].
    - subst s3. destruct (saw_final_text_ s2) eqn:Ef, (saw_error_ s2) eqn:Ee, (cancelled_ s2) eqn:Ec, (killed_by_us_ s2) eqn:Ek; cbn; congruence. }
  clearbody s3. destruct H3 as [[_ I3 [= F1 F2 F3 F4 F5 F6 F7 F8 F9]] Hfin].
  destruct (close_out s3) as [Hc Hdone [= G1 G2 G3 G4 G5 G6] _]. set (s4 := Terminate (QueueCompleted s3)) in *. clearbody s4.
  destruct Hc as [I4 Hs4]; [by apply I3|by rewrite F5, Hf|].
  injection Hr as Hv <-. split_and!; [done|done|congruence|congruence|].
  intros ->. destruct (verdict_ok _ _ _ _ Hv) as (V1 & V2 & V3 & ->). split_and!; [|done|].
  - rewrite G2. apply Hfin; congruence.
  - exact Herr.
Qed.

Lemma Finish_outcome fuel error s ok error' s' :
  Finish fuel error s = Some (ok, error', s') -> stream_inv s -> finished_ s = false -> 
  stream_inv s' /\
  (finished_ s' = true -> completed_emitted_ s' = true /\ session_ s' = false) /\
  (ok = true -> finished_ s' = true /\ saw_final_text_ s' = true /\ saw_error_ s' = false
     /\ sent s' = sent s ++ [control_payload "finish"] /\ error' = set_error [] error).
Proof.
  intros Hr Hi Hf. unfold Finish in Hr. rewrite Hf in Hr.
  destruct (EnsureStarted error s) as [[ok1 error1] s1] eqn:Ee.
  destruct (EnsureStarted_spec _ _ _ _ _ Ee Hi Hf) as (I1 & [= F1 F2] & Hok1).
  destruct ok1; cbn [negb] in Hr; [|injection Hr as <- <- <-; split_and!; [done|congruence|discriminate]].
  destruct Hok1 as (-> & Hst & [= _ _] & _ & _); [done|].
  set (s2 := s1 <| finished_ := true |>) in Hr.
  assert (I2 : stream_inv s2) by (destruct I1; by constructor).
  destruct (SendControlEvent fuel "finish" error s2) as [[[ok3 error3] s3]|] eqn:Es; [|discriminate]. cbn in Hr.
  apply SendJsonLine_spec in Es. destruct ok3; cbn [negb] in Hr.
  - destruct Es as (-> & Hse & w & Hs3).
    assert (I3 : stream_inv s3) by (rewrite Hs3; destruct I2; by constructor).
    assert (F3 : finished_ s3 = true /\ sent s3 = sent s ++ [control_payload "finish"]) by (rewrite Hs3; cbn; by rewrite F1).
    set (s4 := if session_ s3 then _ else s3) in Hr.
    assert (Hd4 : drained s3 s4) by (subst s4; case_match; [apply drained_world | done]).
    clear Hs3; clearbody s4. destruct (await_final _ _ _ s4) as [[[waited error5] s5]|] eqn:Ea; [|discriminate].
    cbn [mbind option_bind] in Hr.
    destruct Hd4 as [_ I4 [= G1 G2 G3 G4 G5 G6 G7 G8 G9]]. specialize (I4 I3). destruct F3 as [F3 F3'].
    pose proof (await_final_spec _ _ _ _ _ _ _ Ea I4 ltac:(congruence)) as Hw. destruct waited.
    + destruct Hw as [_ I5 [= K1 K2 K3 K4 K5 K6 K7 K8 K9]].
      destruct (finish_tail_spec _ _ _ _ _ _ Hr (I5 I4) ltac:(congruence)) as (T1 & T2 & T3 & T4 & T5).
      split_and!; [done|done|]. intros Hok. destruct (T5 Hok) as (? & ? & ?). split_and!; [congruence..|].
      etrans; [eassumption|]. etrans; [exact (ptr_await _ _ _ _ _ _ _ Ea)|apply ptr_set].
    + injection Hr as <- <- <-. destruct Hw as (? & ? & ? & ? & ?). by split_and!.
  - injection Hr as <- <- <-. destruct Es as [_ Hd [= G1 G2 G3 G4 G5 G6 G7 G8 G9]].
    destruct (fail_spec (error_text "failed to send finish event." error3) s3 (Hd I2) G5) as (? & ? & ? & ? & ?).
    by split_and!.
Qed.

Lemma finish_inv_any fuel error s ok error' s' : Finish fuel error s = Some (ok, error', s') -> stream_inv s -> stream_inv s'.
Proof.
  intros Hr Hi. destruct (finished_ s) eqn:Hf; [unfold Finish in Hr; rewrite Hf in Hr; by injection Hr as <- <- <-|].
  by destruct (Finish_outcome _ _ _ _ _ _ Hr Hi Hf).
Qed.

(** ** Pushing and cancelling *)

Definition audio_messages (pcm : list Z) : list json := if is_empty pcm then [] else [audio_payload pcm].
Lemma push_inv_any fuel pcm error s ok error' s' :
  PushAudio fuel pcm error s = Some (ok, error', s') -> stream_inv s -> stream_inv s'.
Proof.
  intros Hr Hi. unfold PushAudio in Hr. destruct (finished_ s) eqn:Hf; [by injection Hr as <- <- <-|].
  destruct (EnsureStarted error s) as [[ok1 error1] s1] eqn:Ee.
  destruct (EnsureStarted_spec _ _ _ _ _ Ee Hi Hf) as (I1 & _ & _). destruct ok1; cbn [negb] in Hr; [|by injection Hr as <- <- <-].
  destruct (if is_empty pcm then _ else _) as [[[ok2 error2] s2]|] eqn:Es in Hr; [|discriminate]. cbn in Hr.
  assert (I2 : stream_inv s2).
  { destruct (is_empty pcm); [by injection Es as <- <- <-|]. apply SendJsonLine_spec in Es.
    destruct ok2; [destruct Es as (_ & _ & w & ->); destruct I1; by constructor | by apply (dr_inv _ _ Es)]. }
  destruct ok2; cbn [negb] in Hr; [|by injection Hr as <- <- <-].
  destruct (DrainEvents fuel 0 error2 s2) as [[[ok3 error3] s3]|] eqn:Ed; [|discriminate]. apply drained_drain in Ed as [_ Hd _]. cbn in Hr, Hd.
  destruct ok3; injection Hr as <- <- <-; by apply Hd.
Qed.
Lemma push_ok fuel pcm error s error' s' :
  PushAudio fuel pcm error s = Some (true, error', s') -> stream_inv s ->
  stream_inv s' /\ finished_ s' = false /\ sent s' = sent s ++ audio_messages pcm.
Proof.
  intros Hr Hi. unfold PushAudio in Hr. destruct (finished_ s) eqn:Hf; [discriminate|].
  destruct (EnsureStarted error s) as [[ok1 error1] s1] eqn:Ee.
  destruct (EnsureStarted_spec _ _ _ _ _ Ee Hi Hf) as (I1 & [= F1 F2] & _). destruct ok1; cbn [negb] in Hr; [|discriminate].
  destruct (if is_empty pcm then _ else _) as [[[ok2 error2] s2]|] eqn:Es in Hr; [|discriminate]. cbn in Hr.
  destruct ok2; cbn [negb] in Hr; [|discriminate].
  assert (H2 : stream_inv s2 /\ finished_ s2 = finished_ s1 /\ sent s2 = sent s1 ++ audio_messages pcm).
  { unfold audio_messages. destruct (is_empty pcm); [injection Es as <- <-; by rewrite app_nil_r|].
    apply SendJsonLine_spec in Es as (_ & _ & w & ->). destruct I1. by split. }
  destruct (DrainEvents fuel 0 error2 s2) as [[[ok3 error3] s3]|] eqn:Ed; [|discriminate]. cbn in Hr.
  destruct ok3; cbn [negb] in Hr; [|discriminate]. injection Hr as _ <-.
  apply drained_drain in Ed as [_ Hd [= G1 G2 G3 G4 G5 G6 G7 G8 G9]]. cbn [snd] in *. destruct H2 as (I2 & H2 & H2').
  split_and!; [by apply Hd|congruence|congruence].
Qed.

Lemma Cancel_outcome fuel s s' : Cancel fuel s = Some s' -> stream_inv s ->
  stream_inv s' /\ completed_emitted_ s' = true /\ session_ s' = false /\ cancelled_ s' = true.
Proof.
  intros Hr Hi. unfold Cancel in Hr.
  destruct (if cancelled_ s then _ else _) as [s1|] eqn:E; [|discriminate]. cbn in Hr. injection Hr as <-.
  assert (H1 : stream_inv s1 /\ cancelled_ s1 = true).
  { destruct (cancelled_ s) eqn:Hc; [by injection E as <-|]. cbv zeta in E. set (s2 := s <| cancelled_ := true |>) in *.
    assert (I2 : stream_inv s2).
    { destruct Hi as [I1 I2 I3 I4 I5]. constructor; try done. intros _. cbn. apply orb_true_r. }
    assert (Hc2 : cancelled_ s2 = true) by done. clearbody s2. destruct (started_ s2); [|by injection E as <-].
    destruct (SendControlEvent fuel "cancel" None s2) as [[[ok error] s3]|] eqn:Es; [|discriminate]. injection E as <-.
    apply SendJsonLine_spec in Es. destruct ok.
    - destruct Es as (_ & _ & w & ->). destruct I2. by split.
    - destruct Es as [_ Hd [= G1 G2 G3 G4 G5 G6 G7 G8 G9]]. split; [by apply Hd|congruence]. }
  destruct H1 as [I1 Hc1]. destruct (close_out s1) as [Hc Hdone [= G1 G2 G3 G4 G5 G6] _].
  destruct Hc as [I2 Hs2]; [done|by rewrite Hc1, orb_true_r|]. split_and!; [done..|congruence].
Qed.

(** C17. When [Finish] reports success for the first time the provider was sent the finish
    message, its final text was queued and no error was, completion was queued exactly once,
    and the child is gone. *)
Theorem streaming_finish_text fuel s error s' :
  stream_inv s -> finished_ s = false -> Finish fuel (Some []) s = Some (true, error, s') ->
  error = Some [] /\ has FinalText (emitted s') = true /\ has ErrorEvent (emitted s') = false /\
  count Completed (emitted s') = 1 /\ session_ s' = false /\ sent s' = sent s ++ [control_payload "finish"].
Proof.
  intros Hi Hf Hr. destruct (Finish_outcome _ _ _ _ _ _ Hr Hi Hf) as ([I1 I2 I3 I4 I5] & H1 & H2).
  destruct (H2 eq_refl) as (Hfin & Ht & He & Hs & ->). destruct (H1 Hfin) as [Hc Hsn].
  rewrite Hc in I3. split_and!; first [reflexivity | congruence].
Qed.

(** However a finish that got to the provider or a cancellation ends, completion has been
    reported exactly once and the child is gone. *)
Theorem streaming_session_ends fuel s error ok error' s1 s2 :
  stream_inv s -> finished_ s = false -> Finish fuel error s = Some (ok, error', s1) -> Cancel fuel s = Some s2 ->
  (finished_ s1 = true -> count Completed (emitted s1) = 1 /\ session_ s1 = false) /\
  count Completed (emitted s2) = 1 /\ session_ s2 = false.
Proof.
  intros Hi Hf Hr Hc. destruct (Finish_outcome _ _ _ _ _ _ Hr Hi Hf) as ([_ _ I3 _ _] & H1 & _).
  destruct (Cancel_outcome _ _ _ Hc Hi) as ([_ _ J3 _ _] & H2 & H3 & _). rewrite H2 in J3. split_and!; [|done..].
  intros Hfin. destruct (H1 Hfin) as [Hd Hs]. by rewrite Hd in I3.
Qed.

(** ** Termination *)

(** What the wait relies on: the child produces finitely many events, and a look that finds
    none takes time. *)
Class ProviderLaws := {
  backlog : W -> nat;
  next_some w w' wait e : child_next wait w = (Some e, w') -> (backlog w' < backlog w)%nat /\ (clock_now w <= clock_now w')%Z;
  next_none w w' wait : child_next wait w = (None, w') -> (backlog w' <= backlog w)%nat /\ (clock_now w < clock_now w')%Z;
}.
Context `{ProviderLaws}.

Lemma event_world e error s : world (drain_event e error s).2 = world s.
Proof.
  destruct e as [data|data| |code by_us]; cbn [drain_event].
  - unfold ConsumeStdoutLines. set (s1 := s <| stdout_buffer_ := _ |>).
    pose proof (drain_lines_inv output_line (fun st => world st.1 = world s) (s1, error) (stdout_buffer_ s1) false) as Hd.
    destruct (DrainLinesFromBuffer _ _ _ _) as [[s2 error2] rest]. apply Hd; [|done]. clear Hd.
    intros [x e] line Hx. unfold output_line, HandleOutputLine. repeat case_match; simplify_eq/=; done.
  - cbn. unfold bridge_call. by case_match.
  - done.
  - unfold on_exit, bridge_call. cbv zeta. repeat case_match; done.
Qed.
Lemma drain_events_total fuel wait error s : (backlog (world s) < fuel)%nat ->
  exists r, drain_events fuel wait error s = Some r /\ (backlog (world r.2) <= backlog (world s))%nat
    /\ (clock_now (world s) <= clock_now (world r.2))%Z /\ (r.1.1 = true -> (clock_now (world s) < clock_now (world r.2))%Z).
Proof.
  revert wait error s. induction fuel as [|fuel IH]; intros wait error s Hb; [lia|]. cbn [drain_events].
  destruct (child_next wait (world s)) as [[e|] w] eqn:En.
  - destruct (next_some _ _ _ _ En) as [Hb' Hc]. pose proof (event_world e error (s <| world := w |>)) as Hw.
    destruct (drain_event _ _ _) as [[go error1] s1]. cbn in Hw. destruct go.
    + destruct (IH 0%Z error1 s1) as (r & Hr & H1' & H2 & H3); [rewrite Hw; lia|]. exists r. rewrite Hw in *. split_and!; [done|lia|lia|].
      intros Ht. specialize (H3 Ht). lia.
    + eexists. split; [reflexivity|]. cbn. rewrite Hw. split_and!; [lia|lia|discriminate].
  - destruct (next_none _ _ _ En) as [Hb' Hc]. eexists. split; [reflexivity|]. cbn. split_and!; lia.
Qed.
Lemma DrainEvents_total fuel wait error s : session_ s = true -> (backlog (world s) < fuel)%nat ->
  exists r, DrainEvents fuel wait error s = Some r /\ (backlog (world r.2) <= backlog (world s))%nat
    /\ (clock_now (world s) <= clock_now (world r.2))%Z /\ (r.1.1 = true -> (clock_now (world s) < clock_now (world r.2))%Z).
Proof. intros Hs. unfold DrainEvents. rewrite Hs. apply drain_events_total. Qed.

Lemma await_final_total fuel deadline error s : session_ s = true ->
  (backlog (world s) + Z.to_nat (deadline - clock_now (world s)) < fuel)%nat ->
  exists waited error' s', await_final fuel deadline error s = Some (waited, error', s')
    /\ (waited = Reached -> (backlog (world s') <= backlog (world s))%nat /\ session_ s' = true).
Proof.
  revert error s. induction fuel as [|fuel IH]; intros error s Hs Hb; [lia|]. cbn [await_final].
  destruct (_ || _ || _); [by eexists _, _, _|].
  destruct (DrainEvents_total (S fuel) kPollSliceMs error s Hs) as ([[ok error1] s1] & Hd & H1' & H2 & H3); [lia|]. rewrite Hd. cbn [mbind option_bind].
  cbn in H1', H2, H3. destruct ok; cbn [negb]; [|by eexists _, _, _].
  unfold HasTimedOut. destruct (Z.leb_spec deadline (clock_now (world s1))) as [Hle|Hlt]; [by eexists _, _, _|].
  apply drained_drain in Hd as [_ _ [= F1 F2 F3 F4 F5 F6 F7 F8 F9]]. specialize (H3 eq_refl).
  destruct (IH error1 s1) as (waited & error' & s' & E & Hr); [congruence|lia|]. eexists _, _, _. split; [exact E|].
  intros Hw. destruct (Hr Hw). split; [lia|done].
Qed.
Lemma grace_total fuel deadline error s : session_ s = true ->
  (backlog (world s) + Z.to_nat (deadline - clock_now (world s)) < fuel)%nat ->
  exists r, grace fuel deadline error s = Some r /\ (backlog (world r.2) <= backlog (world s))%nat /\ session_ r.2 = true.
Proof.
  revert error s. induction fuel as [|fuel IH]; intros error s Hs Hb; [lia|]. cbn [grace]. unfold HasTimedOut.
  destruct (Z.leb_spec deadline (clock_now (world s))) as [Hle|Hlt]; [by eexists|].
  destruct (_ || _ || _); [by eexists|].
  destruct (DrainEvents_total (S fuel) (RemainingTimeoutMs deadline kPollSliceMs (clock_now (world s))) error s Hs) as ([[ok error1] s1] & Hd & H1' & H2 & H3); [lia|].
  rewrite Hd. cbn [mbind option_bind]. cbn in H1', H2, H3. apply drained_drain in Hd as [_ _ [= F1 F2 F3 F4 F5 F6 F7 F8 F9]].
  destruct ok; cbn [negb]; [|eexists; split; [reflexivity|cbn; split; [lia|congruence]]]. specialize (H3 eq_refl).
  destruct (IH error1 s1) as (r & E & Hr1 & Hr2); [congruence|lia|]. exists r. split_and!; [done|lia|done].
Qed.
Lemma finish_tail_total fuel error s : session_ s = true -> (backlog (world s) + Z.to_nat (kFinalGraceMs * ns_per_ms) < fuel)%nat ->
  is_Some (finish_tail fuel error s).
Proof.
  intros Hs Hb. unfold finish_tail.
  assert (Hg : exists r, (if saw_final_text_ s then grace fuel (clock_now (world s) + kFinalGraceMs * ns_per_ms) error s else Some (false, error, s)) = Some r
    /\ (backlog (world r.2) <= backlog (world s))%nat /\ session_ r.2 = true).
  { destruct (saw_final_text_ s); [|by eexists]. apply grace_total; [done|].
    by replace (clock_now (world s) + kFinalGraceMs * ns_per_ms - clock_now (world s))%Z with (kFinalGraceMs * ns_per_ms)%Z by lia. }
  destruct Hg as ([[failed error1] s1] & -> & H1' & H2). cbn [mbind option_bind]. cbn in H1', H2.
  destruct (DrainEvents_total fuel 0 None s1 H2) as ([[ok error2] s2] & -> & _); [lia|]. by eexists.
Qed.

(** C18. [Finish] returns, whatever the provider does or does not answer, provided it prints
    finitely often: the waits for the final text and after it are bounded by their
    deadlines. *)
Theorem streaming_finish_returns error s :
  exists fuel0, forall fuel, (fuel0 <= fuel)%nat -> is_Some (Finish fuel error s).
Proof.
  destruct (finished_ s) eqn:Hf; [exists 0; intros fuel _; unfold Finish; rewrite Hf; by eexists|].
  destruct (EnsureStarted error s) as [[ok1 error1] s1] eqn:Ee.
  set (s2 := s1 <| finished_ := true |>).
  set (w := (child_push (json_text (control_payload "finish") ++ [ch_nl]) (world s2)).2).
  set (n := S (Nat.max (backlog w) (backlog (child_close w)))).
  exists (n + Z.to_nat (kAwaitFinalTimeoutMs * ns_per_ms) + Z.to_nat (kFinalGraceMs * ns_per_ms)). intros fuel Hfuel.
  unfold Finish. rewrite Hf, Ee. destruct ok1; cbn [negb]; [|by eexists].
  fold s2. unfold SendControlEvent, SendJsonLine. destruct (session_ s2) eqn:Hs; cbn [negb mbind option_bind]; [|by eexists].
  subst n. destruct (child_push _ (world s2)) as [[|] w1]; cbn in w; subst w.
  - cbn [mbind option_bind]. set (s3 := s2 <| world := w1 |> <| sent := _ |>).
    change (session_ s3) with (session_ s2). rewrite Hs. cbv zeta. set (s4 := s3 <| world := child_close (world s3) |>).
    destruct (await_final_total fuel (clock_now (world s4) + kAwaitFinalTimeoutMs * ns_per_ms) (set_error [] error1) s4) as (waited & error5 & s5 & -> & Hw).
    + exact Hs.
    + change (world s4) with (child_close w1). replace (_ + _ - _)%Z with (kAwaitFinalTimeoutMs * ns_per_ms)%Z by lia. lia.
    + cbn [mbind option_bind]. destruct waited; [|by eexists]. destruct (Hw eq_refl) as [Hb5 Hs5]. apply finish_tail_total; [done|].
      change (world s4) with (child_close w1) in Hb5. lia.
  - set (s3 := s2 <| world := w1 |>). destruct (DrainEvents_total fuel 0 None s3) as ([[ok3 error3] s4] & -> & _); [exact Hs|cbn; lia|]. by eexists.
Qed.
End streaming.

(** ** The interface instance *)

(** With a fuel that [streaming_finish_returns] shows to exist; out of fuel a call has not
    returned, and counts as failed here. *)
Definition as_result {W} (o : option (bool * option bytes * CommandStreamingSession W)) (s : CommandStreamingSession W)
  : result unit * CommandStreamingSession W :=
  match o with
  | Some (true, _, s) => (Ok tt, s)
  | Some (false, error, s) => (Err (default [] error), s)
  | None => (Err [], s)
  end.
#[export] Instance streaming_session {W} `{Provider W} `{Encoding} (fuel : nat) : RecognitionSession (CommandStreamingSession W) | 10 := {
  session_push pcm s := as_result (PushAudio fuel pcm (Some []) s) s;
  session_finish s := as_result (Finish fuel (Some []) s) s;
  session_cancel s := default s (Cancel fuel s);
  session_interrupt := Interrupt;
  session_poll := PollEvents;
}.

Record CommandStreamingBackend := { provider_spec : CommandSpec; provider_id : bytes; backend_bridge : bool }.
Definition DescribeStreaming (b : CommandStreamingBackend) : BackendDescriptor := {|
  bd_provider_id := provider_id b; bd_provider_type := kCommandProviderType; bd_backend_id := "command-streaming";
  bd_capabilities := {| audio_delivery_mode := Chunked; supports_streaming := true; supports_partial_results := true;
                        requires_network := true; supports_hotwords := false |} |}.
Definition CreateStreamingSession {W} (w : W) (b : CommandStreamingBackend) : result (CommandStreamingSession W) :=
  if is_empty (sp_command (provider_spec b)) then Err "Command ASR provider has empty command."
  else Ok (new_streaming w (provider_spec b) (backend_bridge b)).
Definition CreateCommandStreamingBackend (spec : CommandSpec) (id : bytes) (bridge : bool) : result CommandStreamingBackend :=
  if is_empty (sp_command spec) then Err "Command ASR provider has empty command."
  else Ok {| provider_spec := spec; provider_id := id; backend_bridge := bridge |}.
Lemma new_streaming_inv {W} (w : W) spec bridge : stream_inv (new_streaming w spec bridge).
Proof. by constructor. Qed.

(** ** Providers that can be run *)

(** A provider that answers when its input is closed, with the given events. *)
Record ScriptedWorld := { sw_clock : Z; sw_events : list ChildEvent; sw_open : bool; sw_input : list bytes; sw_interrupted : bool }.
#[export] Instance ScriptedWorld_fields : Fields ScriptedWorld := fun w =>
  {| sw_clock := sw_clock w; sw_events := sw_events w; sw_open := sw_open w; sw_input := sw_input w; sw_interrupted := sw_interrupted w |}.
#[export] Instance scripted : Provider ScriptedWorld := {
  child_start _ w := (Ok tt, w <| sw_open := true |>);
  child_push b w := (true, w <| sw_input := sw_input w ++ [b] |>);
  child_close w := w <| sw_open := false |>;
  child_next wait w :=
    match sw_events w with
    | e :: l => if sw_open w then (None, w <| sw_clock := sw_clock w + Z.max 1 (wait * ns_per_ms) |>)
                else (Some e, w <| sw_events := l |>)
    | [] => (None, w <| sw_clock := sw_clock w + Z.max 1 (wait * ns_per_ms) |>)
    end%Z;
  child_cancel w := w <| sw_events := [Cancelled; Exited 143 true] |> <| sw_open := false |>;
  child_destroy w := w; child_interrupted := sw_interrupted;
  child_interrupt w := w <| sw_interrupted := true |>; clock_now := sw_clock;
}.
(** A line is a letter for the message type and its text. *)
#[export] Instance letter_encoding : Encoding := {
  json_text v := String v "type" [];
  json_read line :=
    match line with
    | "F"%char :: text => Ok (JObject [("text"%bytes, JString text); ("type"%bytes, JString "final")])
    | "P"%char :: text => Ok (JObject [("text"%bytes, JString text); ("type"%bytes, JString "partial")])
    | _ => Err "syntax"
    end;
  base64_encode b := b;
}.
#[export] Program Instance scripted_laws : ProviderLaws (W := ScriptedWorld) := { backlog w := length (sw_events w) }.
Next Obligation.
  intros w w' wait e. cbn. destruct (sw_events w) as [|x l] eqn:E; [discriminate|].
  destruct (sw_open w); [discriminate|]. intros [= <- <-]. cbn. lia.
Qed.
Next Obligation.
  intros w w' wait. cbn. destruct (sw_events w) as [|x l] eqn:E; [|destruct (sw_open w); [|discriminate]]; intros [= <-]; cbn; rewrite ?E; cbn; lia.
Qed.

Definition sample_spec : CommandSpec := BuildCommandSpec "provider" [] ∅ 0.
Definition answering : ScriptedWorld := {| sw_clock := 0; sw_open := false; sw_input := []; sw_interrupted := false;
  sw_events := [StdoutChunk ("Phel" ++ [ch_nl] ++ "Fhel"); StderrChunk "warn"; StdoutChunk ("lo" ++ [ch_nl]); Exited 0 false] |}.
Definition silent : ScriptedWorld := answering <| sw_events := [] |>.
Definition pushed_stream (w : ScriptedWorld) : CommandStreamingSession ScriptedWorld :=
  match PushAudio 10 [1; 2]%Z (Some []) (new_streaming w sample_spec true) with Some (_, _, s) => s | None => new_streaming w sample_spec true end.

Lemma pushed_answering : stream_inv (pushed_stream answering).
Proof.
  destruct (push_ok 10 [1; 2]%Z (Some []) (new_streaming answering sample_spec true) (Some []) (pushed_stream answering));
    [vm_compute; reflexivity | apply new_streaming_inv | done].
Qed.

Lemma streaming_finish_text_witness :
  exists s', Finish 10 (Some []) (pushed_stream answering) = Some (true, Some [], s') /\
    has FinalText (emitted s') = true /\ sent s' = [audio_payload [1; 2]%Z; control_payload "finish"] /\
    events_ s' = [partial_event "hel"; final_event "hello"; completed_event].
Proof.
  eexists. split; [vm_compute; reflexivity|].
  destruct (streaming_finish_text 10 (pushed_stream answering) (Some [])
    (match Finish 10 (Some []) (pushed_stream answering) with Some (_, _, s) => s | None => pushed_stream answering end))
    as (_ & H1 & _ & _ & _ & H2); [exact pushed_answering | vm_compute; reflexivity | vm_compute; reflexivity|].
  split; [vm_compute; reflexivity|]. split; [etransitivity; [|etransitivity; [exact H2|]]; vm_compute; reflexivity | vm_compute; reflexivity].
Defined.
Lemma streaming_session_ends_witness :
  exists ok e s1 s2, Finish 10 (Some []) (pushed_stream answering) = Some (ok, e, s1) /\ Cancel 10 (pushed_stream answering) = Some s2 /\
    count Completed (emitted s2) = 1 /\ session_ s2 = false.
Proof.
  eexists _, _, _, _. split; [vm_compute; reflexivity|]. split; [vm_compute; reflexivity|].
  refine (proj2 (streaming_session_ends 10 (pushed_stream answering) (Some []) _ _ _ _ pushed_answering _ _ _)); [vm_compute; reflexivity..].
Defined.

Lemma streaming_finish_returns_witness :
  exists fuel0, forall fuel, (fuel0 <= fuel)%nat -> is_Some (Finish fuel (Some []) (pushed_stream answering)).
Proof. exact (streaming_finish_returns (Some []) (pushed_stream answering)). Defined.

(** The message of a timeout is read from the last event, which is the completion by then:
    the call fails with an empty message. *)
Theorem timeout_message_lost :
  exists s', Finish 300 (Some []) (pushed_stream silent) = Some (false, Some [], s') /\
    events_ s' = [error_event "Streaming ASR provider timed out."; completed_event].
Proof. eexists. split; vm_compute; reflexivity. Qed.

(** A provider that never stops printing blank lines, one every nanosecond. *)
#[local] Instance flooding : Provider Z := {
  child_start _ w := (Ok tt, w); child_push _ w := (true, w); child_close w := w;
  child_next _ w := (Some (StdoutChunk [ch_nl]), w + 1)%Z; child_cancel w := w; child_destroy w := w;
  child_interrupted _ := false; child_interrupt w := w; clock_now w := w;
}.
Lemma flood_drain `{Encoding} fuel wait error (s : CommandStreamingSession Z) :
  stdout_buffer_ s = [] -> match error with Some (_ :: _) => False | _ => True end -> drain_events fuel wait error s = None.
Proof.
  revert wait error s. induction fuel as [|fuel IH]; intros wait error s Hb He; [done|]. cbn [drain_events child_next flooding drain_event].
  unfold ConsumeStdoutLines. cbn [stdout_buffer_]. set (s1 := s <| world := _ |> <| stdout_buffer_ := _ |>).
  change (stdout_buffer_ s1) with (stdout_buffer_ s ++ [ch_nl]). rewrite Hb. cbn.
  destruct error as [[|c e]|]; [|done|]; by apply IH.
Qed.
Lemma flood_await `{Encoding} fuel deadline (s : CommandStreamingSession Z) :
  saw_final_text_ s || completed_ s || child_exited_ s = false -> session_ s = true -> stdout_buffer_ s = [] ->
  await_final fuel deadline (Some []) s = None.
Proof.
  intros Hw Hs Hb. destruct fuel as [|fuel]; [done|]. cbn [await_final]. rewrite Hw. unfold DrainEvents. rewrite Hs. cbn [negb].
  by rewrite flood_drain.
Qed.
Lemma Finish_waits {W} `{Provider W} `{Encoding} fuel error (s : CommandStreamingSession W) e1 s1 e2 s2 :
  finished_ s = false -> EnsureStarted error s = (true, e1, s1) ->
  SendControlEvent fuel "finish" e1 (s1 <| finished_ := true |>) = Some (true, e2, s2) -> session_ s2 = true ->
  (forall deadline, await_final fuel deadline e2 (s2 <| world := child_close (world s2) |>) = None) ->
  Finish fuel error s = None.
Proof. intros H1 H2 H3 H4 H5. unfold Finish. rewrite H1, H2. cbn [negb]. rewrite H3. cbn [mbind option_bind negb]. rewrite H4. by rewrite H5. Qed.
(** The deadline of [Finish] is looked at between two drains, and a drain lasts as long as
    there are events: this provider holds the call for ever. *)
Theorem flood_holds_finish fuel : Finish fuel (Some []) (new_streaming 0%Z sample_spec false) = None.
Proof. eapply Finish_waits; [reflexivity..|]. intros deadline. by apply flood_await. Qed.
