(* ===== verification/ProviderDelivery.v ===== *)
(** * From the microphone's chunks to the provider's input

    The controller pushes chunks to an asynchronous session (AsyncSession.v) through the
    lifecycle manager; its worker calls the streaming command backend (CommandStreaming.v),
    which writes messages to the provider process. Here the guarantees of the two are
    composed: what the provider is sent is what was recorded. *)

From S2P Require Import Prelude Json RecognitionContract CommandBatch CommandStreaming AsyncSession SessionLifecycle Streaming.

Section delivery.
Context {W : Type} `{Provider W} `{Encoding} (fuel : nat).
#[local] Instance backend_session : RecognitionSession (CommandStreamingSession W) := streaming_session fuel.
Abbreviation provider_async := (AsyncRecognitionSession (CommandStreamingSession W)).
Implicit Types a : provider_async.

(** The messages a call that succeeded stands for. *)
Definition call_messages (c : backend_call) : list json :=
  match c with
  | CallPush chunk true => audio_messages chunk
  | CallFinish true => [control_payload "finish"]
  | _ => []
  end.

(** As long as every call succeeded, the provider was sent the messages of these calls; a
    successful finish also means a final text and no error. *)
Record linked a : Prop := {
  ln_inv : stream_inv (backend a);
  ln_pushed : Forall is_good_push (calls a) ->
    sent (backend a) = concat (call_messages <$> calls a) /\ finished_ (backend a) = false;
  ln_finished : forall ps, calls a = ps ++ [CallFinish true] -> Forall is_good_push ps ->
    sent (backend a) = concat (call_messages <$> calls a) /\
    has FinalText (emitted (backend a)) = true /\ has ErrorEvent (emitted (backend a)) = false;
}.

(** The part of the backend that the link speaks about. *)
Definition link_view (s : CommandStreamingSession W) := (sent s, finished_ s, emitted s).
Lemma linked_same a a' : calls a' = calls a -> link_view (backend a') = link_view (backend a) ->
  (stream_inv (backend a) -> stream_inv (backend a')) -> linked a -> linked a'.
Proof.
  unfold link_view. intros Hc [= E1 E2 E3] Hi [L1 L2 L3]. constructor; [by apply Hi|rewrite Hc, E1, E2; exact L2|].
  rewrite Hc, E1, E3. exact L3.
Qed.
Lemma poll_view (s : CommandStreamingSession W) : link_view (session_poll s).2 = link_view s /\ (stream_inv s -> stream_inv (session_poll s).2).
Proof. split; [done|]. intros [I1 I2 I3 I4 I5]. by constructor. Qed.
Lemma interrupt_view (s : CommandStreamingSession W) : link_view (session_interrupt s) = link_view s /\ (stream_inv s -> stream_inv (session_interrupt s)).
Proof.
  cbn. unfold CommandStreaming.Interrupt. cbv zeta. split; [by case_match|].
  intros Hi. case_match; (eapply dr_inv; [|exact Hi]); [etrans; [apply drained_world|apply drained_world] | apply drained_world].
Qed.

(** What a push keeps whatever it answers. *)
Lemma push_inv pcm (s : CommandStreamingSession W) : stream_inv s -> stream_inv (session_push pcm s).2.
Proof.
  intros Hi. cbn. destruct (CommandStreaming.PushAudio fuel pcm (Some []) s) as [[[ok e] s']|] eqn:E; [|done].
  apply (push_inv_any _ _ _ _ _ _ _ E) in Hi. by destruct ok.
Qed.

Lemma linked_push a chunk r b :
  linked a -> session_push chunk (backend a) = (r, b) ->
  linked (called (CallPush chunk (match r with Ok _ => true | Err _ => false end)) b a).
Proof.
  intros [L1 L2 L3] Hp. pose proof (push_inv chunk _ L1) as Hi. rewrite Hp in Hi. constructor.
  - exact Hi.
  - cbn. rewrite Forall_app, Forall_singleton. intros [Hps (c & [= -> Hr])]. destruct (L2 Hps) as [E1 E2].
    cbn in Hp. destruct (CommandStreaming.PushAudio fuel c (Some []) (backend a)) as [[[[|] e] s']|] eqn:E; injection Hp as <- <-; [|discriminate..].
    destruct (push_ok _ _ _ _ _ _ E L1) as (_ & F1 & F2). rewrite fmap_app, concat_app, F2, E1. cbn. by rewrite app_nil_r.
  - cbn. intros ps Hc. apply app_inj_tail in Hc as [_ [=]].
Qed.
Lemma linked_finish a r b :
  linked a -> session_finish (backend a) = (r, b) ->
  linked (called (CallFinish (match r with Ok _ => true | Err _ => false end)) b a).
Proof.
  intros [L1 L2 L3] Hp. cbn in Hp. constructor.
  - cbn. destruct (CommandStreaming.Finish fuel (Some []) (backend a)) as [[[ok e] s']|] eqn:E; [|by injection Hp as _ <-].
    apply (finish_inv_any _ _ _ _ _ _ E) in L1. destruct ok; by injection Hp as _ <-.
  - cbn. rewrite Forall_app, Forall_singleton. intros [_ (c & [=])].
  - cbn. intros ps Hc Hps. apply app_inj_tail in Hc as [<- [= Hr]]. destruct (L2 Hps) as [E1 E2].
    destruct (CommandStreaming.Finish fuel (Some []) (backend a)) as [[[[|] e] s']|] eqn:E; injection Hp as <- <-; [|discriminate..].
    destruct (Finish_outcome _ _ _ _ _ _ E L1 E2) as ([I1 I2 _ _ _] & _ & Hok). destruct (Hok eq_refl) as (_ & Ht & He & Hs & _).
    rewrite fmap_app, concat_app, Hs, E1. split_and!; [reflexivity|congruence|congruence].
Qed.
Lemma linked_cancel a : linked a -> linked (called CallCancel (session_cancel (backend a)) a).
Proof.
  intros [L1 L2 L3]. constructor.
  - cbn. destruct (CommandStreaming.Cancel fuel (backend a)) as [s'|] eqn:E; [|exact L1]. by destruct (Cancel_outcome _ _ _ E L1).
  - cbn. rewrite Forall_app, Forall_singleton. intros [_ (c & [=])].
  - cbn. intros ps Hc. apply app_inj_tail in Hc as [_ [=]].
Qed.

Lemma linked_Run a a' : linked a -> Run a = Some a' -> linked a'.
Proof.
  intros Hl Hr. unfold Run in Hr.
  assert (Hpoll : forall b evs w, session_poll (backend a) = (evs, b) -> linked (a <| backend := b |> <| worker := w |>)).
  { intros b evs w E. destruct (poll_view (backend a)) as [Hv Hi]. rewrite E in Hv, Hi. by apply (linked_same a). }
  destruct (worker a).
  - destruct (cancel_requested a); [injection Hr as <-; by apply (linked_same a)|].
    destruct (queue a); [destruct (finish_requested a); [|discriminate]|]; injection Hr as <-; by apply (linked_same a).
  - destruct (session_push chunk (backend a)) as [r b] eqn:E. pose proof (linked_push a chunk r b Hl E) as Hp.
    destruct r; injection Hr as <-; by eapply linked_same; [..|exact Hp].
  - destruct (session_poll (backend a)) eqn:E. injection Hr as <-. by eapply Hpoll.
  - destruct (session_poll (backend a)) eqn:E. injection Hr as <-. by eapply Hpoll.
  - injection Hr as <-. by apply (linked_same a).
  - destruct (session_finish (backend a)) as [r b] eqn:E. pose proof (linked_finish a r b Hl E) as Hp.
    injection Hr as <-. by eapply linked_same; [..|exact Hp].
  - destruct (session_poll (backend a)) eqn:E. injection Hr as <-. by eapply Hpoll.
  - injection Hr as <-. pose proof (linked_cancel a Hl) as Hp. by eapply linked_same; [..|exact Hp].
  - destruct (session_poll (backend a)) eqn:E. injection Hr as <-. by eapply Hpoll.
  - injection Hr as <-. by apply (linked_same a).
  - injection Hr as <-. by apply (linked_same a).
  - injection Hr as <-. unfold AppendEvents. case_match; by apply (linked_same a).
  - injection Hr as <-. by apply (linked_same a).
  - discriminate.
Qed.
Lemma linked_client o a : linked a -> linked (client_step o a).
Proof.
  intros Hl. destruct o; cbn [client_step].
  - unfold PushAudio. repeat case_match; by apply (linked_same a).
  - unfold Finish_request. case_match; by apply (linked_same a).
  - unfold Cancel_request. case_match; by apply (linked_same a).
  - destruct (interrupt_view (backend a)). by apply (linked_same a).
  - by apply (linked_same a).
  - by apply (linked_same a).
Qed.
Lemma linked_reachable w spec bridge max a : reachable (new_streaming w spec bridge) max a -> linked a.
Proof.
  intros Hr. assert (Hn : linked (new_session (new_streaming w spec bridge) max)).
  { constructor; [apply new_streaming_inv|done|]. intros ps Hc. by destruct ps. }
  revert Hn. unfold reachable in Hr. remember (new_session (new_streaming w spec bridge) max) as a0 eqn:E. clear E.
  induction Hr as [|a1 a2 a3 Hs _ IH]; [done|]. intros H1. apply IH. destruct Hs; [by apply linked_client | by eapply linked_Run].
Qed.

Lemma good_push_messages ps : Forall is_good_push ps -> Forall (fun c => c <> []) (delivered ps) ->
  concat (call_messages <$> ps) = audio_payload <$> delivered ps.
Proof.
  induction 1 as [|c ps (chunk & ->) _ IH]; [done|]. cbn. intros Hf. inversion Hf as [|? ? Hne Hf']; subst.
  rewrite IH by done. unfold audio_messages. apply is_empty_false in Hne. by rewrite Hne.
Qed.

(** The provider behind [a] was sent the recording and answered it. *)
Definition provider_served (chunks : list (list Z)) a : Prop :=
  sent (backend a) = (audio_payload <$> non_empty chunks) ++ [control_payload "finish"] /\
  has FinalText (emitted (backend a)) = true /\ has ErrorEvent (emitted (backend a)) = false.

End delivery.

(** ** A recording for a provider that answers *)

Definition two_turns (_ : AsyncRecognitionSession (CommandStreamingSession ScriptedWorld)) : nat := 2.
Definition recorded : SessionLifecycleManager (AsyncRecognitionSession (CommandStreamingSession ScriptedWorld)) :=
  no_sessions <| sessions := <[7 := new_session (new_streaming answering sample_spec true) 48000]> ∅ |>.
#[local] Instance answering_session : RecognitionSession (CommandStreamingSession ScriptedWorld) := streaming_session 20.
Definition recorded_pushed := push_all two_turns 7 [[1; 2]; []; [3]]%Z recorded.
Definition recorded_finished := FinishSessionAndCollectResult (H := async_session two_turns) (Some 7) recorded_pushed.2.

