(* ===== verification/PostProcessor.v ===== *)
(** * The post-processor (src/src/daemon/postprocess/post_processor.cpp,
      candidate_parser.cpp and LoadFromFileUri of prompt_template.cpp)

    Rewrites recognised text with a language model: builds the prompt and the request,
    sends it to an OpenAI-compatible service or to a command adapter, extracts the
    candidates and falls back to the recognised text. The HTTP client, the adapter
    process, files, the environment and the cancellation flags are the record
    [World]; JSON text goes through the class [Glaze]. Messages are given untranslated. *)

From S2P Require Import Prelude StringUtils Process Floats Json Interpolation Scene CoreConfig ConfigCodec RecognitionResult Notification.
From Stdlib Require Import Ascii.

(** ** candidate_parser.cpp *)

Definition kFence : bytes := "```".

Definition StripMarkdownFence (text : bytes) : bytes :=
  let text := Trim text in
  if starts_with text kFence then
    match find_char text ch_nl with
    | Some newline_pos =>
        let trimmed_body := Trim (drop (S newline_pos) text) in
        if ends_with trimmed_body kFence
        then Trim (take (length trimmed_body - 3) trimmed_body)
        else text
    | None => text
    end
  else text.

Definition digit_at (s : bytes) (i : nat) : bool := match s !! i with Some c => isdigit c | None => false end.
Definition char_at (s : bytes) (i : nat) (c : ascii) : bool := bool_decide (s !! i = Some c).

Definition StripBulletOrNumber (line : bytes) : bytes :=
  if starts_with line "- " || starts_with line "* " then Trim (drop 2 line)
  else if (3 <=? length line) && digit_at line 0 && char_at line 1 "."%char && char_at line 2 " "%char
  then Trim (drop 3 line)
  else if (4 <=? length line) && digit_at line 0 && digit_at line 1 && char_at line 2 "."%char && char_at line 3 " "%char
  then Trim (drop 4 line)
  else line.

(** The loops that push non-empty texts until [max] are there. *)
Fixpoint take_candidates (max : nat) (acc texts : list bytes) : list bytes :=
  match texts with
  | [] => acc
  | t :: texts =>
      if is_empty t then take_candidates max acc texts
      else if max <=? length (acc ++ [t]) then acc ++ [t]
      else take_candidates max (acc ++ [t]) texts
  end.

Section parser.
Context `{Glaze}.

Definition json_candidates (content : bytes) : option (list json) :=
  match read_tree content with
  | Ok v =>
      if is_object v then match Find v "candidates" with Some (JArray items) => Some items | _ => None end
      else None
  | Err _ => None
  end.

Definition ExtractCandidatesAuto (raw : bytes) (max_candidates : Z) : list bytes :=
  if (max_candidates <=? 0)%Z then []
  else
    let content := StripMarkdownFence raw in
    if is_empty content then []
    else
      let max := Z.to_nat max_candidates in
      match json_candidates content with
      | Some items => take_candidates max [] (Trim <$> string_items items)
      | None =>
          if (max_candidates =? 1)%Z then
            let trimmed := Trim content in if is_empty trimmed then [] else [trimmed]
          else take_candidates max [] ((fun line => StripBulletOrNumber (Trim line)) <$> Split content ch_nl)
      end.
End parser.

(** ** The world *)

Record HttpHeader := { h_name : bytes; h_value : bytes }.
Record HttpRequest := {
  hr_url : bytes; hr_headers : list HttpHeader; hr_body : bytes; hr_timeout_ms : Z;
  hr_connect_timeout_ms : Z; hr_follow_redirects : bool; hr_max_response_bytes : Z;
  hr_allow_auto_resend : bool;
}.
Record HttpResponse := {
  rs_cancelled : bool; rs_error_message : bytes; rs_status_code : Z; rs_body : bytes;
}.
(** What the file system says about a prompt file. *)
Inductive PromptFile := PromptMissing (why : bytes) | PromptNotRegular | PromptUnreadable (why : bytes) | PromptText (text : bytes).

Record World := {
  http : HttpRequest -> HttpResponse;
  run_command : CommandSpec -> bytes -> CommandResult;
  prompt_file : bytes -> PromptFile;
  context_cache : option bytes;
  getenv : bytes -> option bytes;
  cancelled_before : bool;   (* the flags before the request *)
  cancelled_after : bool;    (* the flags after it *)
}.

(** ** prompt_template.cpp: LoadFromFileUri *)

Definition LoadFromFileUri (w : World) (uri : bytes) : result bytes :=
  if negb (IsFileUri uri) then Err "not a file:/// URI"
  else
    let path := drop 7 uri in
    if is_empty path || (path =b "/") then Err "empty path"
    else match prompt_file w path with
         | PromptMissing why => Err why
         | PromptNotRegular => Err "not a regular file"
         | PromptUnreadable why => Err why
         | PromptText text => Ok text
         end.

(** ** Building the request *)

Definition kOpenAiChatCompletionsPath : bytes := "/chat/completions".
Definition JoinPath (base_url path : bytes) : bytes := reverse (drop_slashes (reverse base_url)) ++ path.

Definition BuildRequestUrl (base_url : bytes) : bytes :=
  if is_empty base_url then []
  else if ends_with base_url kOpenAiChatCompletionsPath then base_url
  else JoinPath base_url kOpenAiChatCompletionsPath.

Definition ends_line (text : bytes) : bool := bool_decide (last text = Some ch_nl).

Definition WrapXmlBlock (tag text : bytes) : bytes :=
  "<" ++ tag ++ ">" ++ [ch_nl] ++ text ++
  (if is_empty text || negb (ends_line text) then [ch_nl] else []) ++ "</" ++ tag ++ ">".

Definition kXmlTagAsr : bytes := "vinput-asr".
Definition kXmlTagSelected : bytes := "vinput-selected".
Definition kXmlTagContext : bytes := "vinput-context".

(** The last [max_lines] non-empty lines of the context cache. *)
Definition BuildContextPrefix (w : World) (max_lines : Z) : bytes :=
  if (max_lines <=? 0)%Z then []
  else
    match context_cache w with
    | None => []
    | Some text =>
        let lines := filter (fun l => is_empty l = false) (Split text ch_nl) in
        if is_empty lines then []
        else
          let recent := drop (length lines - Z.to_nat max_lines) lines in
          "Recent input history (use to fix ASR errors):" ++ [ch_nl] ++
          concat ((fun l => l ++ [ch_nl]) <$> recent) ++ [ch_nl]
    end.

Definition nl : bytes := [ch_nl].
Definition dq : bytes := [ch_quote].

Definition BuildConstraintsSuffix (max_llm_candidates : Z) (json_object : bool) : bytes :=
  if (max_llm_candidates <=? 0)%Z then []
  else if negb json_object then
    if (max_llm_candidates =? 1)%Z
    then nl ++ nl ++ "## Constraints" ++ nl ++
         "- Return only the final rewritten text directly." ++ nl ++
         "- Do not include explanations, markdown fences, or extra commentary."
    else nl ++ nl ++ "## Constraints" ++ nl ++
         "- Return up to " ++ to_string max_llm_candidates ++
         " distinct candidate(s), exactly one candidate per line." ++ nl ++
         "- Each line must contain only the final rewritten text." ++ nl ++
         "- Do not include numbering, explanations, markdown fences, or extra commentary."
  else nl ++ nl ++ "## Constraints" ++ nl ++
       "- Return only the JSON object described below." ++ nl ++
       "- Each candidate must contain only the final rewritten text." ++ nl ++
       "- Do not include explanations, Markdown fences, or extra keys." ++ nl ++
       nl ++ nl ++ "## Format" ++ nl ++
       "Return up to " ++ to_string max_llm_candidates ++ " distinct candidate(s) in a JSON object:" ++ nl ++
       "```json" ++ nl ++
       "{" ++ dq ++ "candidates" ++ dq ++ ": [" ++ dq ++ "<string>" ++ dq ++ "]}" ++ nl ++
       "```".

(** Keys the extra body may not override. *)
Definition kProtected : list bytes := ["messages"; "stream"; "response_format"].
Definition merge_member (request : list (bytes * json)) (member : bytes * json) : list (bytes * json) :=
  if bool_decide (member.1 ∈ kProtected) then request else map_set member.1 member.2 request.
Definition MergeExtraBody (request : list (bytes * json)) (extra : json) : list (bytes * json) :=
  match extra with JObject members => foldl merge_member request members | _ => request end.

(** The user message: the template with its variables, or the prompt followed by the
    data in tags; the constraints always come last. *)
Definition build_user_content (base_prompt context_prefix text asr_var selected_var suffix : bytes) : bytes :=
  (if PromptHasInterpolation base_prompt then
     PromptInterpolate base_prompt
       {| asr := if is_empty asr_var then text else asr_var; selected := selected_var; context := context_prefix |}
   else
     base_prompt ++
     (if is_empty base_prompt then [] else if negb (ends_line base_prompt) then nl ++ nl else nl) ++
     (if is_empty context_prefix then [] else WrapXmlBlock kXmlTagContext context_prefix ++ nl) ++
     (if is_empty text then [] else WrapXmlBlock kXmlTagAsr text ++ nl))
  ++ suffix.

(** [{"k": v, ...}] as an ordered map *)
Definition object_of (members : list (bytes * json)) : list (bytes * json) :=
  foldl (fun m kv => map_emplace kv.1 kv.2 m) [] members.

Definition base_request (model user_content : bytes) (json_object : bool) : list (bytes * json) :=
  let message := JObject (object_of [("role", JString "user"); ("content", JString user_content)]) in
  let request := object_of [("model", JString model); ("stream", JBool false);
                            ("temperature", JNumber (f64_lit 2 10)); ("messages", JArray [message])] in
  if json_object
  then map_set "response_format" (JObject [("type", JString "json_object")]) request
  else request.

(** ** The two ways of rewriting

    [Rewritten]: the candidates, if any, the error text, and the lines handed to the
    notification bridge. *)
Record Rewritten := { rw_candidates : option (list bytes); rw_error : bytes; rw_notes : list bytes }.
Definition nothing (error : bytes) : Rewritten := {| rw_candidates := None; rw_error := error; rw_notes := [] |}.
Definition with_candidates (l : list bytes) : Rewritten :=
  {| rw_candidates := if is_empty l then None else Some l; rw_error := []; rw_notes := [] |}.

Definition kMaxResponseBytes : Z := 1048576.
Definition kDefaultConnectTimeoutMs : Z := 5000.

Section rewrite.
Context `{Glaze} (w : World).

Definition ExtractCandidates (response : json) (max_candidates : Z) : list bytes :=
  match Find response "choices" with
  | Some (JArray (choice :: _)) =>
      match Find choice "message" with
      | Some (JObject message) =>
          match Find (JObject message) "content" with
          | Some (JString content) => ExtractCandidatesAuto content max_candidates
          | _ => []
          end
      | _ => []
      end
  | _ => []
  end.

Definition prompt_error (uri why : bytes) : bytes := "Failed to load prompt file '" ++ uri ++ "': " ++ why.

(** The prompt of a scene; [Err]: the error of the prompt file. *)
Definition resolve_prompt (prompt : bytes) : result bytes :=
  if IsFileUri prompt then
    match LoadFromFileUri w prompt with Ok text => Ok text | Err why => Err (prompt_error prompt why) end
  else Ok prompt.

Definition http_request (url body api_key : bytes) (timeout_ms : Z) : HttpRequest :=
  {| hr_url := url; hr_body := body; hr_timeout_ms := timeout_ms;
     hr_connect_timeout_ms := Z.min timeout_ms kDefaultConnectTimeoutMs;
     hr_follow_redirects := false; hr_max_response_bytes := kMaxResponseBytes;
     hr_allow_auto_resend := false;
     hr_headers := [{| h_name := "Content-Type"; h_value := "application/json" |};
                    {| h_name := "User-Agent"; h_value := "fcitx5-vinput/0.1" |}] ++
                   (if is_empty api_key then [] else [{| h_name := "Authorization"; h_value := "Bearer " ++ api_key |}]) |}.

(** What a response means. *)
Definition read_response (res : HttpResponse) (max_candidates : Z) : Rewritten :=
  if rs_cancelled res || cancelled_after w then nothing []
  else if negb (is_empty (rs_error_message res)) then nothing ("LLM request failed." ++ nl ++ rs_error_message res)
  else if ((rs_status_code res <? 200) || (300 <=? rs_status_code res))%Z
  then nothing ("LLM request returned an HTTP error." ++ nl ++ "HTTP " ++ to_string (rs_status_code res) ++ ": " ++ rs_body res)
  else
    match read_tree (rs_body res) with
    | Err _ => nothing []
    | Ok response =>
        match Find response "error" with
        | Some _ => nothing []
        | None => with_candidates (ExtractCandidates response max_candidates)
        end
    end.

(** The request that is sent. *)
Definition build_request (text : bytes) (s : Scene) (p : LlmProvider) (max_candidates : Z)
    (base_prompt asr_var selected_var : bytes) : list (bytes * json) :=
  let content := build_user_content base_prompt (BuildContextPrefix w (context_lines s)) text asr_var selected_var
                   (BuildConstraintsSuffix max_candidates (lp_json_object p)) in
  MergeExtraBody (base_request (sc_model s) content (lp_json_object p)) (lp_extra_body p).

Definition RewriteWithOpenAiCompatible (text : bytes) (s : Scene) (p : LlmProvider) (max_candidates : Z)
    (task_prompt asr_var selected_var : bytes) : Rewritten :=
  if cancelled_before w then nothing []
  else
    let url := BuildRequestUrl (lp_base_url p) in
    if is_empty url then nothing []
    else
      match (if is_empty task_prompt then resolve_prompt (sc_prompt s) else Ok task_prompt) with
      | Err e => nothing e
      | Ok base_prompt =>
          let body := default [] (write_tree (JObject
                        (build_request text s p max_candidates base_prompt asr_var selected_var))) in
          let api_key := InterpolateEnv (getenv w) (lp_api_key p) in
          read_response (http w (http_request url body api_key (timeout_ms s))) max_candidates
      end.

Definition kMaxBatchNotifications : nat := 4.

(** The callback of the drain: at most four lines are delivered. *)
Definition deliver_note (lines : list bytes) (line : bytes) : list bytes * bool :=
  if kMaxBatchNotifications <=? length lines then (lines, false) else (lines ++ [line], true).
Definition adapter_notes (stderr : bytes) : list bytes :=
  if is_empty stderr then [] else (DrainLinesFromBuffer deliver_note [] stderr true).1.

Definition adapter_error (a : LlmAdapter) (result : CommandResult) : option bytes :=
  if launch_failed result then Some ("Failed to start adapter '" ++ la_id a ++ "'.")
  else if timed_out result then Some ("Adapter '" ++ la_id a ++ "' timed out.")
  else if negb (exit_code result =? 0)%Z
  then Some ("Adapter '" ++ la_id a ++ "' exited with code " ++ to_string (exit_code result) ++ ".")
  else None.

Definition RewriteWithCommandAdapter (stdin_content : bytes) (s : Scene) (a : LlmAdapter) (max_candidates : Z)
  : Rewritten :=
  if cancelled_before w then nothing []
  else if is_empty (la_command a) then nothing ("Adapter '" ++ la_id a ++ "' has no command configured.")
  else
    let result := run_command w {| sp_command := la_command a; sp_args := la_args a; sp_env := la_env a;
                                   sp_timeout_ms := timeout_ms s |} stdin_content in
    let r :=
      if cancelled_after w then nothing []
      else match adapter_error a result with
           | Some e => nothing e
           | None => with_candidates (ExtractCandidatesAuto (stdout_text result) max_candidates)
           end in
    {| rw_candidates := rw_candidates r; rw_error := rw_error r; rw_notes := adapter_notes (stderr_text result) |}.

(** ** Assembling the payload *)

Definition AppendCandidate (cands : list Candidate) (text source : bytes) : list Candidate :=
  let text := Trim text in
  if is_empty text then cands else cands ++ [{| cand_text := text; cand_source := source |}].

(** The loop over the rewritten texts: seen texts, candidates, the first new text, and how
    many were accepted. *)
Fixpoint accept_loop (max : Z) (seen : gset bytes) (cands : list Candidate) (first : bytes) (accepted : Z)
    (texts : list bytes) : list Candidate * bytes :=
  match texts with
  | [] => (cands, first)
  | text :: texts =>
      let trimmed := Trim text in
      if is_empty trimmed then accept_loop max seen cands first accepted texts
      else if bool_decide (trimmed ∈ seen) then accept_loop max seen cands first accepted texts
      else
        let first := if is_empty first then trimmed else first in
        let cands := AppendCandidate cands trimmed kSourceLlm in
        if (max <=? accepted + 1)%Z then (cands, first)
        else accept_loop max ({[trimmed]} ∪ seen) cands first (accepted + 1) texts
  end.

Definition raw_payload (text : bytes) : Payload :=
  {| commitText := text; candidates := AppendCandidate [] text kSourceRaw |}.

(** The rewriter a scene names: a provider first, then an adapter. *)
Inductive rewriter := ByProvider (p : LlmProvider) | ByAdapter (a : LlmAdapter).
Definition find_rewriter (settings : CoreConfig) (id : bytes) : option rewriter :=
  match ViewLlmProvider settings id with
  | Some p => Some (ByProvider p)
  | None => match ViewLlmAdapter settings id with Some a => Some (ByAdapter a) | None => None end
  end.

Definition scene_payload (normalized : bytes) (s : Scene) (max : Z) (rewritten : list bytes) : Payload :=
  let cands := if raw_cand s then AppendCandidate [] normalized kSourceRaw else [] in
  let seen : gset bytes := if raw_cand s then {[normalized]} else ∅ in
  let '(cands, first) := accept_loop max seen cands [] 0 rewritten in
  if is_empty cands then raw_payload normalized
  else {| commitText := if is_empty first then normalized else first; candidates := cands |}.

Definition ProcessScene (raw_text : bytes) (s : Scene) (settings : CoreConfig) : Payload * bytes * list bytes :=
  let normalized := Trim raw_text in
  if is_empty normalized then (empty_payload, [], [])
  else
    let max := NormalizeLlmMaxCandidates (llm_max_candidates s) in
    match find_rewriter settings (sc_provider_id s) with
    | None => (raw_payload normalized, [], [])
    | Some r =>
        if (max =? 0)%Z then (raw_payload normalized, [], [])
        else
          let res := match r with
                     | ByProvider p => RewriteWithOpenAiCompatible normalized s p max [] [] []
                     | ByAdapter a => RewriteWithCommandAdapter normalized s a max
                     end in
          (match rw_candidates res with
           | None => raw_payload normalized
           | Some rewritten => scene_payload normalized s max rewritten
           end, rw_error res, rw_notes res)
    end.

(** The task prompt of a command: data in tags unless the author placed it. *)
Definition command_prompt (prompt asr selected : bytes) : bytes :=
  if PromptHasInterpolation prompt then prompt
  else prompt ++ (if is_empty prompt || ends_line prompt then [] else nl) ++ nl ++
       WrapXmlBlock kXmlTagAsr asr ++ nl ++ nl ++ WrapXmlBlock kXmlTagSelected selected ++ nl.

Definition command_payload (asr selected : bytes) (max : Z) (rewritten : option (list bytes)) : Payload :=
  let cands := AppendCandidate [] selected kSourceRaw in
  let '(cands, seen) :=
    if bool_decide (asr ∈ ({[selected]} : gset bytes)) then (cands, {[selected]} : gset bytes)
    else (AppendCandidate cands asr kSourceAsr, {[asr]} ∪ {[selected]}) in
  let '(cands, first) := accept_loop max seen cands [] 0 (default [] rewritten) in
  {| commitText := if is_empty first then selected else first; candidates := cands |}.

Definition ProcessCommand (asr_text selected_text : bytes) (s : Scene) (settings : CoreConfig)
  : Payload * bytes * list bytes :=
  let normalized_asr := Trim asr_text in
  let fallback := raw_payload (if is_empty normalized_asr then selected_text else normalized_asr) in
  if is_empty normalized_asr || is_empty selected_text then (fallback, [], [])
  else
    let max := NormalizeLlmMaxCandidates (llm_max_candidates s) in
    match find_rewriter settings (sc_provider_id s) with
    | None => (fallback, [], [])
    | Some r =>
        if (max =? 0)%Z then (fallback, [], [])
        else
          match r with
          | ByProvider p =>
              match resolve_prompt (sc_prompt s) with
              | Err e => (fallback, e, [])
              | Ok prompt =>
                  let use_template := PromptHasInterpolation prompt in
                  let res := RewriteWithOpenAiCompatible [] s p max
                               (command_prompt prompt normalized_asr selected_text)
                               (if use_template then normalized_asr else [])
                               (if use_template then selected_text else []) in
                  (command_payload normalized_asr selected_text max (rw_candidates res), rw_error res, rw_notes res)
              end
          | ByAdapter a =>
              let stdin := default [] (write_tree (JObject
                (object_of [("text", JString normalized_asr); ("selected", JString selected_text)]))) in
              let res := RewriteWithCommandAdapter stdin s a max in
              (command_payload normalized_asr selected_text max (rw_candidates res), rw_error res, rw_notes res)
          end
    end.

(** The post-processor as the pipeline uses it. *)
Definition post_processor : PostProcessor :=
  {| pp_Process := fun text s settings => (ProcessScene text s settings).1;
     pp_ProcessCommand := fun text selected s settings => (ProcessCommand text selected s settings).1 |}.
End rewrite.

(** ** Candidates *)

(** A text as candidates hold it. *)
Definition clean (t : bytes) : Prop := t <> [] /\ trimmed t.

Lemma clean_Trim t : Trim t <> [] -> clean (Trim t).
Proof. intros Ht. split; [done|apply trimmed_Trim]. Qed.

Lemma take_candidates_spec max acc texts :
  (length acc < max)%nat -> Forall clean acc -> Forall trimmed texts ->
  (length (take_candidates max acc texts) <= max)%nat /\ Forall clean (take_candidates max acc texts).
Proof.
  revert acc. induction texts as [|t texts IH]; intros acc Hl Ha Ht; cbn [take_candidates]; [split; [lia|done]|].
  apply Forall_cons in Ht as [Ht Hts]. destruct (is_empty t) eqn:E; [by apply IH|]. apply is_empty_false in E.
  assert (Forall clean (acc ++ [t])) as Ha' by (apply Forall_app; split; [done|by constructor]).
  destruct (Nat.leb_spec max (length (acc ++ [t]))) as [Hm|Hm]; [|by apply IH].
  split; [|done]. rewrite length_app in *. simpl in *. lia.
Qed.

(** Clean texts that fit are all kept. *)
Lemma take_candidates_all max acc texts :
  Forall clean texts -> (length acc + length texts <= max)%nat -> take_candidates max acc texts = acc ++ texts.
Proof.
  revert acc. induction texts as [|t texts IH]; intros acc Ht Hl; cbn [take_candidates]; [by rewrite app_nil_r|].
  apply Forall_cons in Ht as [[Hne _] Hts]. apply is_empty_false in Hne. rewrite Hne. simpl in Hl.
  destruct (Nat.leb_spec max (length (acc ++ [t]))) as [Hm|Hm].
  - rewrite length_app in Hm. simpl in Hm. destruct texts; [done|simpl in Hl; lia].
  - rewrite IH, <-app_assoc; [done|done|]. rewrite length_app in *. simpl in *. lia.
Qed.

Lemma StripBullet_trimmed line : trimmed line -> trimmed (StripBulletOrNumber line).
Proof. intros Hl. unfold StripBulletOrNumber. repeat case_match; auto using trimmed_Trim. Qed.

Lemma Extract_clean `{Glaze} raw max :
  (Z.of_nat (length (ExtractCandidatesAuto raw max)) <= Z.max max 0)%Z /\ Forall clean (ExtractCandidatesAuto raw max).
Proof.
  unfold ExtractCandidatesAuto. destruct (Z.leb_spec max 0); [split; [simpl; lia|constructor]|].
  destruct (is_empty (StripMarkdownFence raw)); [split; [simpl; lia|constructor]|].
  assert (forall texts, Forall trimmed texts ->
    (Z.of_nat (length (take_candidates (Z.to_nat max) [] texts)) <= Z.max max 0)%Z /\
    Forall clean (take_candidates (Z.to_nat max) [] texts)) as Hall.
  { intros texts Ht. destruct (take_candidates_spec (Z.to_nat max) [] texts) as [Hl Hc]; [simpl; lia|constructor|done|].
    split; [lia|done]. }
  destruct (json_candidates _) as [items|].
  - apply Hall, Forall_fmap, Forall_forall. intros t _. apply trimmed_Trim.
  - destruct (Z.eqb_spec max 1).
    + destruct (is_empty (Trim _)) eqn:E; [split; [simpl; lia|constructor]|]. apply is_empty_false in E.
      split; [simpl; lia|]. constructor; [by apply clean_Trim|constructor].
    + apply Hall, Forall_fmap, Forall_forall. intros t _. apply StripBullet_trimmed, trimmed_Trim.
Qed.

(** Whatever a model or an adapter prints, the extracted candidates are at most the
    number asked for, and none is empty or carries white space around it; a JSON answer of
    that many clean strings is taken over unchanged. *)
Theorem ExtractCandidatesAuto_spec `{Glaze} raw max :
  (Z.of_nat (length (ExtractCandidatesAuto raw max)) <= Z.max max 0)%Z /\
  Forall clean (ExtractCandidatesAuto raw max) /\
  (forall v items, StripMarkdownFence raw <> [] -> read_tree (StripMarkdownFence raw) = Ok v ->
     Find v "candidates" = Some (JArray (JString <$> items)) -> Forall clean items ->
     (0 < Z.of_nat (length items) <= max)%Z -> ExtractCandidatesAuto raw max = items).
Proof.
  destruct (Extract_clean raw max) as [Hl Hc]. split_and!; [done|done|].
  intros v items Hne Hr Hf Hitems Hlen. unfold ExtractCandidatesAuto, json_candidates.
  destruct (Z.leb_spec max 0); [lia|]. apply is_empty_false in Hne. rewrite Hne, Hr.
  assert (is_object v = true) as -> by (by destruct v). rewrite Hf.
  assert (Trim <$> string_items (JString <$> items) = items) as ->.
  { clear Hf Hlen. induction Hitems as [|t items [_ Ht] _ IH]; [done|]. cbn. rewrite (Trim_trimmed t Ht).
    f_equal. exact IH. }
  rewrite take_candidates_all; [done|done|]. simpl. lia.
Qed.

(** ** The payload *)

Lemma AppendCandidate_clean cands t source :
  clean t -> AppendCandidate cands t source = cands ++ [{| cand_text := t; cand_source := source |}].
Proof. intros [Hne Ht]. unfold AppendCandidate. rewrite Trim_trimmed by done. by destruct t. Qed.

Definition llm_candidate (t : bytes) : Candidate := {| cand_text := t; cand_source := kSourceLlm |}.

(** The loop appends distinct, clean texts that were not seen before, at most the
    remaining number, and remembers the first. *)
Lemma accept_loop_spec max seen cands first accepted texts :
  (accepted < max)%Z ->
  exists l, (accept_loop max seen cands first accepted texts).1 = cands ++ (llm_candidate <$> l) /\
    (accept_loop max seen cands first accepted texts).2 = (if is_empty first then default [] (head l) else first) /\
    NoDup l /\ Forall (fun t => clean t /\ t ∉ seen) l /\ (Z.of_nat (length l) <= max - accepted)%Z.
Proof.
  revert seen cands first accepted. induction texts as [|t texts IH]; intros seen cands first accepted Hm; cbn [accept_loop].
  { exists []. cbn. rewrite app_nil_r. split_and!; [done|by destruct first|constructor|constructor|lia]. }
  destruct (is_empty (Trim t)) eqn:He; [by apply IH|]. apply is_empty_false in He.
  case_bool_decide as Hs; [by apply IH|]. rewrite AppendCandidate_clean by (by apply clean_Trim).
  fold (llm_candidate (Trim t)).
  set (first' := if is_empty first then Trim t else first).
  assert (first' <> []) as Hf' by (unfold first'; by destruct first).
  assert ((if is_empty first then Trim t else first) = first') as Hff by done.
  destruct (Z.leb_spec max (accepted + 1)).
  - exists [Trim t]. cbn. split_and!; [done|done|apply NoDup_singleton| |lia].
    constructor; [|constructor]. split; [by apply clean_Trim|done].
  - destruct (IH ({[Trim t]} ∪ seen) (cands ++ [llm_candidate (Trim t)]) first' (accepted + 1)%Z) as
      (l & H1 & H2 & Hn & Hall & Hlen); [lia|].
    exists (Trim t :: l). split_and!.
    + rewrite H1, <-app_assoc. done.
    + rewrite H2. apply is_empty_false in Hf'. by rewrite Hf'.
    + constructor; [|done]. intros Hin. rewrite Forall_forall in Hall. destruct (Hall _ Hin) as [_ Hx]. set_solver.
    + constructor; [split; [by apply clean_Trim|done]|]. eapply Forall_impl; [exact Hall|]. intros x [? ?]. set_solver.
    + simpl. lia.
Qed.

(** What makes a payload presentable. *)
Record payload_wf (max : Z) (p : Payload) : Prop := {
  pw_commit : commitText p ∈ cand_text <$> candidates p;
  pw_clean : Forall (fun c => clean (cand_text c)) (candidates p);
  pw_distinct : NoDup (cand_text <$> candidates p);
  pw_max : (Z.of_nat (length (filter (fun c => cand_source c = kSourceLlm) (candidates p))) <= max)%Z;
}.

Lemma raw_payload_wf max t : clean t -> (0 <= max)%Z -> payload_wf max (raw_payload t).
Proof.
  intros Ht Hm. unfold raw_payload. rewrite AppendCandidate_clean by done.
  split; cbn [app commitText candidates].
  - by left.
  - by apply Forall_singleton.
  - apply NoDup_singleton.
  - rewrite filter_cons_False by done. simpl. lia.
Qed.

Lemma filter_llm (l : list bytes) : filter (fun c => cand_source c = kSourceLlm) (llm_candidate <$> l) = llm_candidate <$> l.
Proof. apply filter_id, Forall_fmap, Forall_forall. done. Qed.

Lemma cand_text_llm (l : list bytes) : cand_text <$> (llm_candidate <$> l) = l.
Proof. rewrite (fmap_eq_fmap id) by done. apply list_fmap_id. Qed.

Lemma scene_payload_wf t s max rewritten :
  clean t -> (0 < max)%Z -> payload_wf max (scene_payload t s max rewritten).
Proof.
  intros Ht Hm. unfold scene_payload. rewrite AppendCandidate_clean by done.
  set (seen := if raw_cand s then ({[t]} : gset bytes) else ∅). set (cands := if raw_cand s then _ else _).
  destruct (accept_loop_spec max seen cands [] 0 rewritten Hm) as (l & H1 & H2 & Hn & Hall & Hlen).
  destruct (accept_loop max seen cands [] 0 rewritten) as [cands' first]; cbn [fst snd] in *. subst cands' first.
  cbn [is_empty]. assert (Forall clean l) as Hclean by (eapply Forall_impl; [exact Hall|]; by intros ? []).
  subst cands seen. destruct (raw_cand s); cbn [is_empty app] in *.
  - split; cbn [commitText candidates app]; rewrite ?fmap_cons.
    + destruct l as [|x l]; [by left|]. apply Forall_cons in Hclean as [[Hx _] _].
      destruct x as [|ch x]; [done|]. right. by left.
    + constructor; [done|]. by apply Forall_fmap.
    + constructor; [|by rewrite cand_text_llm]. rewrite cand_text_llm. intros Hin.
      rewrite Forall_forall in Hall. destruct (Hall _ Hin) as [_ Hx]. set_solver.
    + rewrite filter_cons_False by done. rewrite filter_llm, length_fmap. lia.
  - destruct l as [|x l]; [by apply raw_payload_wf; [|lia]|].
    rewrite fmap_cons. cbn [is_empty]. rewrite <-fmap_cons. split; cbn [commitText candidates].
    + rewrite cand_text_llm. apply Forall_cons in Hclean as [[Hx _] _]. destruct x as [|ch x]; [done|]. by left.
    + by apply Forall_fmap.
    + by rewrite cand_text_llm.
    + rewrite filter_llm, length_fmap. lia.
Qed.

Lemma Normalize_max_nonneg n : (0 <= NormalizeLlmMaxCandidates n)%Z.
Proof.
  unfold NormalizeLlmMaxCandidates, kMinLlmMaxCandidates, kMaxLlmMaxCandidates.
  destruct (Z.ltb_spec n 0), (Z.ltb_spec 9 n); lia.
Qed.

Lemma ProcessScene_wf `{Glaze} w raw s settings :
  Trim raw <> [] -> payload_wf (NormalizeLlmMaxCandidates (llm_max_candidates s)) (ProcessScene w raw s settings).1.1.
Proof.
  intros Ht. pose proof (clean_Trim _ Ht) as Hc. pose proof (Normalize_max_nonneg (llm_max_candidates s)) as Hm.
  unfold ProcessScene. apply is_empty_false in Ht. rewrite Ht.
  destruct (find_rewriter _ _) as [r|]; [|by apply raw_payload_wf].
  destruct (Z.eqb_spec (NormalizeLlmMaxCandidates (llm_max_candidates s)) 0); [by apply raw_payload_wf|].
  cbn [fst]. destruct (rw_candidates _); [apply scene_payload_wf; [done|lia]|by apply raw_payload_wf].
Qed.

(** Post-processing always leaves a presentable payload: for a recognised text that is
    not blank, whatever the language model, the adapter or the network do, the text to
    commit is one of the candidates, the candidates are non-empty, trimmed and pairwise
    different, and at most the configured number of them come from the model. A blank
    text gives the empty payload. *)
Theorem ProcessScene_presentable `{Glaze} w raw s settings :
  if is_empty (Trim raw) then (ProcessScene w raw s settings).1.1 = empty_payload
  else payload_wf (NormalizeLlmMaxCandidates (llm_max_candidates s)) (ProcessScene w raw s settings).1.1.
Proof.
  destruct (is_empty (Trim raw)) eqn:E.
  - unfold ProcessScene. by rewrite E.
  - apply ProcessScene_wf. by apply is_empty_false.
Qed.

(** ** Failures *)

(** A rewriter that cannot succeed: cancelled, or a service and an adapter that fail. *)
Definition cannot_rewrite (w : World) : Prop :=
  cancelled_before w = true \/ cancelled_after w = true \/
  ((forall req, rs_cancelled (http w req) = true \/ rs_error_message (http w req) <> [] \/
      ~ (200 <= rs_status_code (http w req) < 300)%Z) /\
   (forall spec stdin, let r := run_command w spec stdin in
      launch_failed r = true \/ timed_out r = true \/ exit_code r <> 0%Z)).

Lemma cannot_rewrite_http `{Glaze} w text s p max task a b :
  cannot_rewrite w -> rw_candidates (RewriteWithOpenAiCompatible w text s p max task a b) = None.
Proof.
  intros Hw. unfold RewriteWithOpenAiCompatible. destruct (cancelled_before w) eqn:Hb; [done|].
  destruct (is_empty (BuildRequestUrl _)); [done|]. destruct (if is_empty task then _ else _) as [prompt|]; [|done].
  set (req := http_request _ _ _ _). unfold read_response.
  destruct Hw as [?|[Ha|[Hh _]]]; [congruence|by rewrite Ha, orb_true_r|].
  destruct (Hh req) as [Hc|[He|Hs]]; [by rewrite Hc| |].
  - destruct (rs_cancelled _ || _); [done|]. apply is_empty_false in He. by rewrite He.
  - destruct (rs_cancelled _ || _); [done|]. destruct (negb _); [done|].
    destruct (Z.ltb_spec (rs_status_code (http w req)) 200), (Z.leb_spec 300 (rs_status_code (http w req))); try done. lia.
Qed.

Lemma cannot_rewrite_adapter `{Glaze} w stdin s a max :
  cannot_rewrite w -> rw_candidates (RewriteWithCommandAdapter w stdin s a max) = None.
Proof.
  intros Hw. unfold RewriteWithCommandAdapter. destruct (cancelled_before w) eqn:Hb; [done|].
  destruct (is_empty (la_command a)); [done|]. cbn [rw_candidates].
  destruct Hw as [?|[Ha|[_ Hr]]]; [congruence|by rewrite Ha|]. destruct (cancelled_after w); [done|].
  unfold adapter_error. set (spec := Build_CommandSpec _ _ _ _).
  destruct (Hr spec stdin) as [Hc|[Hc|Hc]]; rewrite ?Hc; [done|by destruct (launch_failed _)|].
  destruct (launch_failed _); [done|]. destruct (timed_out _); [done|].
  by destruct (Z.eqb_spec (exit_code (run_command w spec stdin)) 0).
Qed.

(** No dictated text is lost to a failing language model: when the request is cancelled,
    cannot be sent or is answered with an error, or the adapter fails to start, times out
    or exits with an error, the payload is the recognised text itself, as the text to
    commit and as the only candidate. *)
Theorem ProcessScene_fallback `{Glaze} w raw s settings :
  cannot_rewrite w -> Trim raw <> [] ->
  (ProcessScene w raw s settings).1.1
  = {| commitText := Trim raw; candidates := [{| cand_text := Trim raw; cand_source := kSourceRaw |}] |}.
Proof.
  intros Hw Ht. assert (raw_payload (Trim raw) =
    {| commitText := Trim raw; candidates := [{| cand_text := Trim raw; cand_source := kSourceRaw |}] |}) as <-.
  { unfold raw_payload. by rewrite AppendCandidate_clean by (by apply clean_Trim). }
  unfold ProcessScene. apply is_empty_false in Ht. rewrite Ht.
  destruct (find_rewriter _ _) as [[p|a]|]; [..|done]; (destruct (_ =? 0)%Z; [done|]); cbn [fst].
  - by rewrite cannot_rewrite_http.
  - by rewrite cannot_rewrite_adapter.
Qed.

Definition silent_world : World :=
  {| http := fun _ => {| rs_cancelled := false; rs_error_message := "timeout"; rs_status_code := 0; rs_body := [] |};
     run_command := fun _ _ => {| exit_code := 1; timed_out := false; launch_failed := false; stdout_text := []; stderr_text := [] |};
     prompt_file := fun _ => PromptMissing []; context_cache := None; getenv := fun _ => None;
     cancelled_before := false; cancelled_after := false |}.

Lemma ProcessScene_fallback_witness :
  (@ProcessScene (demo_glaze (ToWire demo_config)) silent_world " hi " default_scene demo_config).1.1
  = {| commitText := "hi"; candidates := [{| cand_text := "hi"; cand_source := kSourceRaw |}] |}.
Proof.
  apply (@ProcessScene_fallback (demo_glaze (ToWire demo_config)) silent_world " hi " default_scene demo_config);
    [|vm_compute; discriminate].
  right; right. split; [intros req; right; left; discriminate|intros spec stdin; right; right; discriminate].
Defined.

(** ** The request *)

Lemma map_find_emplace_ne {V} k k' (v : V) m : k <> k' -> map_find k (map_emplace k' v m) = map_find k m.
Proof. intros Hk. unfold map_emplace. destruct (map_find k' m); [done|]. by apply map_find_set_ne. Qed.

Lemma merge_protected request members k :
  k ∈ kProtected -> map_find k (foldl merge_member request members) = map_find k request.
Proof.
  intros Hk. revert request. induction members as [|[k' v] members IH]; intros request; [done|]. cbn [foldl].
  rewrite IH. unfold merge_member. cbn [fst snd]. case_bool_decide as Hp; [done|].
  apply map_find_set_ne. congruence.
Qed.

(** The request keeps its contract with the response parser: whatever the user's extra
    body holds, the request is not streamed, carries exactly one user message, which ends
    with the output constraints, and asks for a JSON object exactly when the provider is
    configured for it. *)
Theorem request_contract w text s p max base_prompt asr_var selected_var :
  let request := build_request w text s p max base_prompt asr_var selected_var in
  map_find "stream" request = Some (JBool false) /\
  (exists content, map_find "messages" request =
     Some (JArray [JObject [("content", JString content); ("role", JString "user")]]) /\
     BuildConstraintsSuffix max (lp_json_object p) `suffix_of` content) /\
  map_find "response_format" request =
    (if lp_json_object p then Some (JObject [("type", JString "json_object")]) else None).
Proof.
  unfold build_request. set (content := build_user_content _ _ _ _ _ _).
  assert (BuildConstraintsSuffix max (lp_json_object p) `suffix_of` content) as Hsuf by (by eexists).
  assert (forall k, k ∈ kProtected ->
    map_find k (MergeExtraBody (base_request (sc_model s) content (lp_json_object p)) (lp_extra_body p))
    = map_find k (base_request (sc_model s) content (lp_json_object p))) as Hk.
  { intros k Hk. destruct (lp_extra_body p); try done. by apply merge_protected. }
  rewrite !Hk by (unfold kProtected; set_solver). clearbody content. unfold base_request.
  split_and!; [|exists content; split; [|done]|]; by destruct (lp_json_object p).
Qed.

(** ** Commands *)

Lemma ProcessCommand_commit `{Glaze} w asr selected s settings :
  Trim asr <> [] -> commitText (ProcessCommand w asr selected s settings).1.1 <> [].
Proof.
  intros Ha. assert (forall max r, selected <> [] -> (0 < max)%Z -> commitText (command_payload (Trim asr) selected max r) <> []) as Hc.
  { intros max r Hs Hm. unfold command_payload.
    destruct (bool_decide _); cbn [fst snd]; (destruct (accept_loop _ _ _ _ _ _) as [cands first]; cbn;
      by destruct first). }
  unfold ProcessCommand. apply is_empty_false in Ha as Ha'. rewrite Ha'. cbn [orb].
  destruct (is_empty selected) eqn:Hs; [done|]. apply is_empty_false in Hs.
  destruct (find_rewriter _ _) as [r|]; [|done].
  pose proof (Normalize_max_nonneg (llm_max_candidates s)).
  destruct (Z.eqb_spec (NormalizeLlmMaxCandidates (llm_max_candidates s)) 0); [done|].
  destruct r; [destruct (resolve_prompt w (sc_prompt s)); [|done]|]; cbn [fst]; apply Hc; (done || lia).
Qed.

(** C21. The pipeline with this post-processor commits something for every dictation: for a
    recognised text that is not blank, in scene and in command mode, with or without a
    language model, and whatever it answers, the text to commit is not empty. *)
Theorem pipeline_commits `{Glaze} w req settings :
  Trim (req_text req) <> [] ->
  commitText (res_payload (Process (Some (post_processor w)) req settings).1) <> [].
Proof.
  intros Ht. assert (req_text req <> []) as Hne by (intros E; apply Ht; by rewrite E).
  unfold Process, pipeline_decide. apply is_empty_false in Hne as Hne'. rewrite Hne'.
  assert (forall s, commitText (ProcessScene w (req_text req) s settings).1.1 <> []) as Hs.
  { intros s. destruct (ProcessScene_wf w (req_text req) s settings Ht) as [Hc Hclean _ _].
    apply list_elem_of_fmap in Hc as (c & -> & Hin). rewrite Forall_forall in Hclean. by destruct (Hclean c Hin). }
  destruct (req_is_command req).
  - destruct (uses_llm _); [|done]. by apply ProcessCommand_commit.
  - destruct (FindScene _ _) as [s|]; [|done]. destruct (uses_llm s); [|done]. apply Hs.
Qed.

Lemma pipeline_commits_witness :
  commitText (res_payload (Process (Some (@post_processor (demo_glaze (ToWire demo_config)) silent_world))
    {| req_text := "hi"; req_scene_id := "x"; req_is_command := true; req_selected_text := [] |} demo_config).1) <> [].
Proof.
  apply (@pipeline_commits (demo_glaze (ToWire demo_config)) silent_world
    {| req_text := "hi"; req_scene_id := "x"; req_is_command := true; req_selected_text := [] |} demo_config).
  vm_compute. discriminate.
Defined.

(** Command candidates are not always distinct: when the selected text has surrounding
    white space and the model answers with the trimmed selection, the same candidate is
    listed twice, because the selection is remembered untrimmed but listed trimmed. *)
Theorem command_candidate_repeated asr selected max :
  (0 < max)%Z -> clean asr -> Trim selected <> [] -> Trim selected <> selected ->
  asr <> selected -> asr <> Trim selected ->
  cand_text <$> candidates (command_payload asr selected max (Some [selected])) = [Trim selected; asr; Trim selected].
Proof.
  intros Hm Ha Hs Hne H1 H2. unfold command_payload. rewrite bool_decide_eq_false_2 by set_solver.
  apply is_empty_false in Hs as Hs'.
  assert (AppendCandidate [] selected kSourceRaw = [{| cand_text := Trim selected; cand_source := kSourceRaw |}]) as ->.
  { unfold AppendCandidate. by rewrite Hs'. }
  rewrite (AppendCandidate_clean _ asr) by done.
  change (default [] (Some [selected])) with [selected]. cbn [accept_loop app].
  rewrite Hs', bool_decide_eq_false_2 by set_solver.
  rewrite (AppendCandidate_clean _ (Trim selected)) by (by apply clean_Trim). by destruct (max <=? 0 + 1)%Z.
Qed.

Lemma command_candidate_repeated_witness :
  cand_text <$> candidates (command_payload "undo" " x" 2 (Some [" x"])) = ["x"; "undo"; "x"].
Proof.
  apply (command_candidate_repeated "undo" " x" 2); try (vm_compute; discriminate); [lia|].
  split; [discriminate|]. change "undo" with (Trim "undo"). apply trimmed_Trim.
Defined.
