(* ===== verification/ContextWriter.v ===== *)
(** * The context writer (src/src/addon/core/context_writer.cpp, context_writer.h)

    The addon records what the user commits in a cache file, from which the post-processor
    takes the recent lines for its prompt. A bounded queue and a thread keep the file off
    the event loop. Each critical section is a step; what the file system answers is an
    argument of the step that writes. *)

From S2P Require Import Prelude StringUtils Json RecognitionResult PostProcessor.
From Stdlib Require Import Ascii.

Definition kMaxPendingBytes : N := 4 * 1024 * 1024.
Definition kMaxPendingEntries : N := 1024.

Record ContextWriteTask := { json_line : bytes; max_lines : Z }.

(** [in_flight]: the task the worker has taken, while [writing_]; [exited]: [Run] has
    returned. *)
Record AsyncContextWriter := {
  pending : list ContextWriteTask; pending_bytes : N; dropped : N; write_count : Z;
  in_flight : option ContextWriteTask; stopping : bool; exited : bool;
}.
#[export] Instance AsyncContextWriter_fields : Fields AsyncContextWriter :=
  fun w => Build_AsyncContextWriter (pending w) (pending_bytes w) (dropped w) (write_count w)
             (in_flight w) (stopping w) (exited w).

Definition new_writer : AsyncContextWriter :=
  {| pending := []; pending_bytes := 0; dropped := 0; write_count := 0; in_flight := None;
     stopping := false; exited := false |}.

(** The eviction loop, over the pending tasks, their bytes and the dropped count. *)
Fixpoint make_room (len : N) (tasks : list ContextWriteTask) (used lost : N) : list ContextWriteTask * N * N :=
  match tasks with
  | front :: rest =>
      if (kMaxPendingEntries <=? size tasks)%N || (kMaxPendingBytes - len <? used)%N
      then make_room len rest (used - size (json_line front))%N (lost + 1)%N
      else (tasks, used, lost)
  | [] => ([], used, lost)
  end.

Definition Enqueue (line : bytes) (max : Z) (w : AsyncContextWriter) : bool * AsyncContextWriter :=
  if (max <=? 0)%Z || is_empty line then (true, w)
  else if stopping w then (false, w)
  else if (kMaxPendingBytes <? size line)%N then (false, w <| dropped := (dropped w + 1)%N |>)
  else
    let '(tasks, used, lost) := make_room (size line) (pending w) (pending_bytes w) 0 in
    ((lost =? 0)%N,
     w <| pending := tasks ++ [{| json_line := line; max_lines := max |}] |>
       <| pending_bytes := (used + size line)%N |> <| dropped := (dropped w + lost)%N |>).

(** What [WaitUntilIdle] waits for. *)
Definition idle (w : AsyncContextWriter) : bool :=
  is_empty (pending w) && match in_flight w with None => true | Some _ => false end.

(** The first critical section of [Run]; [None]: the worker waits or has ended. *)
Definition take_next (w : AsyncContextWriter) : option AsyncContextWriter :=
  if exited w then None
  else
    match in_flight w, pending w with
    | None, task :: rest =>
        Some (w <| pending := rest |> <| pending_bytes := (pending_bytes w - size (json_line task))%N |>
                <| in_flight := Some task |>)
    | None, [] => if stopping w then Some (w <| exited := true |>) else None
    | Some _, _ => None
    end.

(** The answers of the file system to one [Persist]: opening for append, creating the
    directory, opening again, reading back, writing the temporary file, renaming it. *)
Record PersistEnv := { opens : bool; mkdirs : bool; reopens : bool; reads : bool; writes_tmp : bool; renames : bool }.

Definition kTruncateInterval : Z := 100.

Definition nonempty_lines (text : bytes) : list bytes := filter (fun l => is_empty l = false) (Split text ch_nl).
Definition lines_text (lines : list bytes) : bytes := concat ((fun l => l ++ [ch_nl]) <$> lines).

(** The cache file after a write, and the number of writes since the last truncation. *)
Definition Persist (env : PersistEnv) (task : ContextWriteTask) (file : bytes) (count : Z) : bytes * Z :=
  if negb (opens env || (mkdirs env && reopens env)) then (file, count)
  else
    let file := file ++ json_line task ++ [ch_nl] in
    if (max_lines task <=? 0)%Z then (file, count)
    else if (count + 1 <? kTruncateInterval)%Z then (file, count + 1)%Z
    else if negb (reads env) then (file, 0%Z)
    else
      let lines := nonempty_lines file in
      if (Z.of_nat (length lines) <=? max_lines task)%Z then (file, 0%Z)
      else if writes_tmp env && renames env
      then (lines_text (drop (length lines - Z.to_nat (max_lines task)) lines), 0%Z)
      else (file, 0%Z).

(** [Persist] and the second critical section of [Run]. *)
Definition persist_next (env : PersistEnv) (file : bytes) (w : AsyncContextWriter) : option (bytes * AsyncContextWriter) :=
  task ← in_flight w;
  let '(file, count) := Persist env task file (write_count w) in
  Some (file, w <| in_flight := None |> <| write_count := count |>).

(** The destructor's critical section. *)
Definition begin_shutdown (w : AsyncContextWriter) : AsyncContextWriter := w <| stopping := true |>.

(** ** Runs, with what was accepted and written *)

Inductive writer_event := WEnqueue (line : bytes) (max : Z) | WTake | WPersist (env : PersistEnv) | WStop.

Record WriterRun := {
  wr_writer : AsyncContextWriter; wr_file : bytes;
  wr_queued : list ContextWriteTask;    (* every task that entered the queue *)
  wr_written : list ContextWriteTask;   (* every task handed to [Persist] *)
  wr_refused : N;                       (* lines that are too long for the queue *)
}.

(** Is the line offered to the queue, and does it fit? *)
Definition offered (line : bytes) (max : Z) (w : AsyncContextWriter) : bool :=
  negb ((max <=? 0)%Z || is_empty line || stopping w).
Definition fits_queue (line : bytes) : bool := (size line <=? kMaxPendingBytes)%N.

Definition writer_step (e : writer_event) (r : WriterRun) : option WriterRun :=
  match e with
  | WEnqueue line max =>
      Some {| wr_writer := (Enqueue line max (wr_writer r)).2; wr_file := wr_file r;
              wr_queued := wr_queued r ++ (if offered line max (wr_writer r) && fits_queue line
                                           then [{| json_line := line; max_lines := max |}] else []);
              wr_written := wr_written r;
              wr_refused := wr_refused r + (if offered line max (wr_writer r) && negb (fits_queue line) then 1 else 0) |}
  | WTake =>
      w ← take_next (wr_writer r);
      Some {| wr_writer := w; wr_file := wr_file r; wr_queued := wr_queued r; wr_written := wr_written r; wr_refused := wr_refused r |}
  | WPersist env =>
      '(file, w) ← persist_next env (wr_file r) (wr_writer r);
      Some {| wr_writer := w; wr_file := file; wr_queued := wr_queued r;
              wr_written := wr_written r ++ option_list (in_flight (wr_writer r)); wr_refused := wr_refused r |}
  | WStop => Some {| wr_writer := begin_shutdown (wr_writer r); wr_file := wr_file r; wr_queued := wr_queued r; wr_written := wr_written r; wr_refused := wr_refused r |}
  end.

Fixpoint writer_run (es : list writer_event) (r : WriterRun) : option WriterRun :=
  match es with
  | [] => Some r
  | e :: es => r ← writer_step e r; writer_run es r
  end.

Definition start_run (file : bytes) : WriterRun :=
  {| wr_writer := new_writer; wr_file := file; wr_queued := []; wr_written := []; wr_refused := 0 |}.

(** ** The queue *)

Definition total (tasks : list ContextWriteTask) : N := foldr (fun t n => (size (json_line t) + n)%N) 0%N tasks.

Lemma task_total_app l1 l2 : total (l1 ++ l2) = (total l1 + total l2)%N.
Proof. induction l1 as [|t l1 IH]; cbn [total foldr app]; [done|]. unfold total in IH |- *. cbn [foldr]. lia. Qed.

Lemma make_room_spec len tasks lost :
  (len <= kMaxPendingBytes)%N ->
  exists gone rest, tasks = gone ++ rest /\
    make_room len tasks (total tasks) lost = (rest, total rest, (lost + size gone)%N) /\
    (total rest + len <= kMaxPendingBytes)%N /\ (size rest < kMaxPendingEntries)%N.
Proof.
  intros Hlen. revert lost. induction tasks as [|t tasks IH]; intros lost.
  - exists [], []. split; [done|]. split; [|split; [exact Hlen|done]]. cbn. by rewrite N.add_0_r.
  - cbn [make_room]. destruct (orb _ _) eqn:Eo.
    + destruct (IH (lost + 1)%N) as (gone & rest & -> & Hr & Hb & He). exists (t :: gone), rest. split; [done|].
      assert (total (t :: gone ++ rest) - size (json_line t) = total (gone ++ rest))%N as -> by (simpl; lia).
      rewrite Hr. split; [|done]. f_equal. unfold size. cbn [length]. lia.
    + apply orb_false_iff in Eo as [He%N.leb_gt Hb%N.ltb_ge]. exists [], (t :: tasks). split; [done|].
      split; [f_equal; unfold size; cbn [length]; lia|]. split; [lia|done].
Qed.

Definition outstanding (w : AsyncContextWriter) : list ContextWriteTask := option_list (in_flight w) ++ pending w.

Record writer_inv (r : WriterRun) : Prop := {
  wi_bytes : pending_bytes (wr_writer r) = total (pending (wr_writer r));
  wi_bytes_max : (pending_bytes (wr_writer r) <= kMaxPendingBytes)%N;
  wi_entries_max : (size (pending (wr_writer r)) <= kMaxPendingEntries)%N;
  wi_order : wr_written r ++ outstanding (wr_writer r) `sublist_of` wr_queued r;
  wi_count : (size (wr_queued r) + wr_refused r
              = size (wr_written r ++ outstanding (wr_writer r)) + dropped (wr_writer r))%N;
  wi_exited : exited (wr_writer r) = true -> outstanding (wr_writer r) = [];
}.

Lemma sublist_drop_middle {A} (a b c : list A) l : a ++ b ++ c `sublist_of` l -> a ++ c `sublist_of` l.
Proof. intros H. etrans; [|exact H]. apply sublist_app; [done|]. by apply sublist_inserts_l. Qed.

Lemma writer_inv_enqueue line max r :
  (exited (wr_writer r) = true -> stopping (wr_writer r) = true) ->
  writer_inv r -> forall r', writer_step (WEnqueue line max) r = Some r' -> writer_inv r'.
Proof.
  intros Hex [Hb Hbm Hem Ho Hc Hx] r' [= <-]. unfold Enqueue, offered, fits_queue, outstanding in *. cbn [wr_writer wr_queued wr_written wr_refused].
  destruct ((max <=? 0)%Z || is_empty line) eqn:E0; cbn [orb negb andb].
  { rewrite app_nil_r, N.add_0_r. by split. }
  destruct (stopping (wr_writer r)) eqn:Es; cbn [negb andb].
  { rewrite app_nil_r, N.add_0_r. by split. }
  destruct (exited (wr_writer r)) eqn:Ee; [by specialize (Hex eq_refl)|].
  destruct (N.ltb_spec kMaxPendingBytes (size line)) as [Hbig|Hfit].
  - rewrite (proj2 (N.leb_gt _ _)) by done. cbn [negb snd]. rewrite app_nil_r. split; unfold outstanding; cbn -[N.add]; try done; [lia|congruence].
  - rewrite (proj2 (N.leb_le _ _)) by done. cbn [negb].
    destruct (make_room_spec (size line) (pending (wr_writer r)) 0 Hfit) as (gone & rest & Hg & Hr & Hbr & Her).
    rewrite Hb, Hr. cbn [snd]. rewrite Hg in Ho, Hc. unfold size in *. split; unfold outstanding; cbn -[N.add N.of_nat total].
    + rewrite task_total_app. unfold total at 3. cbn [foldr json_line]. unfold size. lia.
    + lia.
    + unfold size. rewrite length_app. cbn [length]. lia.
    + rewrite !app_assoc. apply sublist_app; [|done]. apply (sublist_drop_middle _ gone).
      rewrite <-!app_assoc. exact Ho.
    + unfold size. rewrite !length_app in *. cbn [length] in *. lia.
    + congruence.
Qed.

Lemma writer_inv_step e r r' :
  (exited (wr_writer r) = true -> stopping (wr_writer r) = true) ->
  writer_inv r -> writer_step e r = Some r' ->
  writer_inv r' /\ (exited (wr_writer r') = true -> stopping (wr_writer r') = true).
Proof.
  intros Hex Hi Hs. destruct e as [line max| |env|].
  - split; [by eapply writer_inv_enqueue|]. injection Hs as <-. unfold Enqueue. cbn [wr_writer].
    repeat case_match; cbn; intros Hx; specialize (Hex Hx); congruence.
  - destruct Hi as [Hb Hbm Hem Ho Hc Hx]. cbn in Hs. unfold take_next, outstanding in *. destruct (exited _) eqn:Ee; [done|].
    destruct (in_flight _) eqn:Ef; [done|]. destruct (pending _) as [|t rest] eqn:Ep.
    + destruct (stopping _) eqn:Es; [|done]. injection Hs as <-. split; [|done].
      split; unfold outstanding; cbn -[N.add]; rewrite ?Ep, ?Ef; done.
    + injection Hs as <-. split; [|cbn; by rewrite Ee]. unfold size in *. cbn [length] in *. rewrite Hb in *.
      split; unfold outstanding; cbn -[N.add N.of_nat total]; rewrite ?Ee; try done.
      * simpl. unfold size. lia.
      * simpl. unfold size. simpl in Hbm. unfold size in Hbm. lia.
      * unfold size. lia.
  - destruct Hi as [Hb Hbm Hem Ho Hc Hx]. cbn in Hs. unfold persist_next, outstanding in *.
    destruct (in_flight _) as [t|] eqn:Ef; [|done]. cbn [mbind option_bind] in Hs.
    destruct (Persist _ _ _ _) as [file count]. injection Hs as <-. split; [|done].
    split; unfold outstanding; cbn -[N.add]; rewrite <-?app_assoc; try done. intros He. by specialize (Hx He).
  - injection Hs as <-. split; [|done]. by destruct Hi.
Qed.

Lemma writer_run_inv es r r' :
  (exited (wr_writer r) = true -> stopping (wr_writer r) = true) ->
  writer_inv r -> writer_run es r = Some r' -> writer_inv r'.
Proof.
  revert r. induction es as [|e es IH]; intros r Hex Hi Hr; [by injection Hr as <-|]. cbn in Hr.
  destruct (writer_step e r) as [r1|] eqn:E; [|done]. destruct (writer_inv_step e r r1 Hex Hi E) as [? ?]. by eapply IH.
Qed.

Lemma start_inv file : writer_inv (start_run file).
Proof. by split. Qed.

(** The context queue: in every interleaving of the event loop, the worker and the
    destructor, the byte counter is exact, at most 1024 entries and 4 MiB are pending,
    entries are written in the order they were queued, and every entry that was offered
    is written, pending, being written or counted as dropped; when the worker has ended
    nothing is left behind. *)
Theorem context_queue_accounting es file r :
  writer_run es (start_run file) = Some r ->
  let w := wr_writer r in
  pending_bytes w = total (pending w) /\ (pending_bytes w <= kMaxPendingBytes)%N /\
  (size (pending w) <= kMaxPendingEntries)%N /\
  wr_written r ++ outstanding w `sublist_of` wr_queued r /\
  (size (wr_queued r) + wr_refused r = size (wr_written r ++ outstanding w) + dropped w)%N /\
  (exited w = true -> outstanding w = []).
Proof.
  intros Hr. destruct (writer_run_inv es (start_run file) r (fun H => H) (start_inv file) Hr) as [Hb Hbm Hem Ho Hc Hx].
  by split_and!.
Qed.

(** ** The file *)

Definition lastn {A} (k : nat) (l : list A) : list A := drop (length l - k) l.

Lemma lastn_app {A} k (a b : list A) : lastn k (lastn k a ++ b) = lastn k (a ++ b).
Proof.
  unfold lastn. rewrite !length_app, !length_drop. destruct (decide (k <= length b)) as [Hk|Hk].
  - rewrite !drop_app_ge by (rewrite ?length_drop; lia). f_equal. rewrite length_drop. lia.
  - rewrite !drop_app_le by (rewrite ?length_drop; lia). f_equal. rewrite drop_drop. f_equal. lia.
Qed.

Lemma lastn_lastn {A} k m (l : list A) : k <= m -> lastn k (lastn m l) = lastn k l.
Proof. intros Hk. unfold lastn. rewrite length_drop, drop_drop. f_equal. lia. Qed.

Lemma split_ref_cat d a b : split_ref d (a ++ d :: b) = split_ref d a ++ split_ref d b.
Proof.
  induction a as [|c a IH]; cbn [app split_ref]; [by rewrite bool_decide_eq_true_2|].
  destruct (c =b d); [by rewrite IH|]. rewrite IH.
  destruct (split_ref_nonempty d a) as (t & ts & ->). done.
Qed.

(** Every line of the file is ended. *)
Definition complete (file : bytes) : Prop := file = [] \/ exists f, file = f ++ [ch_nl].
Definition good_line (l : bytes) : Prop := l <> [] /\ ch_nl ∉ l.

Lemma nonempty_lines_append file line :
  complete file -> good_line line -> nonempty_lines (file ++ line ++ [ch_nl]) = nonempty_lines file ++ [line].
Proof.
  intros Hf [Hne Hnl]. unfold nonempty_lines. rewrite !Split_spec. apply is_empty_false in Hne.
  assert (split_ref ch_nl (line ++ [ch_nl]) = [line; []]) as Hl by (by rewrite split_ref_app).
  destruct Hf as [-> |[f ->]].
  - cbn [app]. rewrite Hl. cbn [split_ref]. rewrite !filter_cons, filter_nil. cbn. by rewrite Hne.
  - rewrite <-app_assoc. cbn [app]. rewrite (split_ref_cat ch_nl f (line ++ [ch_nl])), (split_ref_cat ch_nl f []), Hl. cbn [split_ref]. rewrite !filter_app, <-app_assoc.
    f_equal. rewrite !filter_cons, filter_nil. cbn. by rewrite Hne.
Qed.

Lemma lines_text_complete ls : complete (lines_text ls).
Proof.
  unfold lines_text. destruct ls as [|l ls _] using rev_ind; [by left|]. right. rewrite fmap_app, concat_app.
  cbn. rewrite app_nil_r. eexists. by rewrite app_assoc.
Qed.

Lemma nonempty_lines_text ls : Forall good_line ls -> nonempty_lines (lines_text ls) = ls.
Proof.
  intros Hls. induction ls as [|l ls IH] using rev_ind; [done|]. apply Forall_app in Hls as [Hls [Hl _]%Forall_cons].
  assert (lines_text (ls ++ [l]) = lines_text ls ++ l ++ [ch_nl]) as ->.
  { unfold lines_text. rewrite fmap_app, concat_app. cbn. by rewrite app_nil_r. }
  rewrite nonempty_lines_append; [|apply lines_text_complete|done]. f_equal. by apply IH.
Qed.

Lemma split_ref_no_nl d text : Forall (fun l => d ∉ l) (split_ref d text).
Proof.
  induction text as [|c text IH]; cbn [split_ref]; [repeat constructor; set_solver|].
  case_bool_decide; [constructor; [set_solver|done]|]. destruct (split_ref_nonempty d text) as (t & ts & Ht).
  rewrite Ht in IH |- *. apply Forall_cons in IH as [? ?]. constructor; [set_solver|done].
Qed.

Lemma nonempty_lines_good text : Forall good_line (nonempty_lines text).
Proof.
  unfold nonempty_lines. rewrite Split_spec. apply Forall_forall. intros l [Hl Hin]%list_elem_of_filter.
  split; [by apply is_empty_false|]. pose proof (split_ref_no_nl ch_nl text) as H. rewrite Forall_forall in H. auto.
Qed.

Definition appends (env : PersistEnv) : bool := opens env || (mkdirs env && reopens env).

(** One write: the file ends in the new line and keeps at least the last [k] lines. *)
Lemma Persist_recent env task file count k :
  appends env = true -> complete file -> good_line (json_line task) -> (Z.of_nat k <= max_lines task)%Z ->
  let file' := (Persist env task file count).1 in
  complete file' /\ lastn k (nonempty_lines file') = lastn k (nonempty_lines file ++ [json_line task]).
Proof.
  intros Ha Hf Hl Hk. unfold Persist, appends in *. rewrite Ha. cbn [negb].
  assert (complete (file ++ json_line task ++ [ch_nl])) as Hc.
  { right. exists (file ++ json_line task). by rewrite app_assoc. }
  pose proof (nonempty_lines_append file (json_line task) Hf Hl) as Hn.
  repeat case_match; cbn [fst]; try (split; [done|by rewrite Hn]).
  split; [apply lines_text_complete|].
  fold (lastn (Z.to_nat (max_lines task)) (nonempty_lines (file ++ json_line task ++ [ch_nl]))).
  rewrite nonempty_lines_text by (unfold lastn; apply Forall_drop, nonempty_lines_good).
  rewrite lastn_lastn by lia. by rewrite Hn.
Qed.

(** The prompt that is built from the file, in a world whose cache it is. *)
Definition with_cache (text : bytes) (w : World) : World :=
  {| http := http w; run_command := run_command w; prompt_file := prompt_file w; context_cache := Some text;
     getenv := getenv w; cancelled_before := cancelled_before w; cancelled_after := cancelled_after w |}.

Lemma lastn_nil {A} k (l : list A) : (0 < k)%nat -> is_empty (lastn k l) = is_empty l.
Proof.
  intros Hk. destruct l as [|x l]; [by destruct k|]. unfold lastn.
  assert (length (drop (length (x :: l) - k) (x :: l)) <> 0) as Hne by (rewrite length_drop; cbn [length]; lia).
  destruct (drop _ _); done.
Qed.

Lemma BuildContextPrefix_recent (w : World) t1 t2 k :
  lastn (Z.to_nat k) (nonempty_lines t1) = lastn (Z.to_nat k) (nonempty_lines t2) ->
  BuildContextPrefix (with_cache t1 w) k = BuildContextPrefix (with_cache t2 w) k.
Proof.
  intros Heq. unfold BuildContextPrefix. destruct (Z.leb_spec k 0) as [|Hk]; [done|]. cbn [context_cache with_cache].
  fold (nonempty_lines t1) (nonempty_lines t2).
  rewrite <-(lastn_nil (Z.to_nat k) (nonempty_lines t1)), <-(lastn_nil (Z.to_nat k) (nonempty_lines t2)) by lia.
  fold (lastn (Z.to_nat k) (nonempty_lines t1)) (lastn (Z.to_nat k) (nonempty_lines t2)). by rewrite Heq.
Qed.

(** The lines are JSON texts on one line, every write reaches the file, and the history
    that is kept is at least [k] lines long. *)
Definition steady (k : nat) (e : writer_event) : Prop :=
  match e with
  | WEnqueue line max => good_line line /\ (Z.of_nat k <= max)%Z
  | WPersist env => appends env = true
  | _ => True
  end.

Record file_inv (k : nat) (file0 : bytes) (r : WriterRun) : Prop := {
  fi_writer : writer_inv r;
  fi_exited : exited (wr_writer r) = true -> stopping (wr_writer r) = true;
  fi_tasks : Forall (fun t => good_line (json_line t) /\ (Z.of_nat k <= max_lines t)%Z) (wr_queued r);
  fi_complete : complete (wr_file r);
  fi_recent : lastn k (nonempty_lines (wr_file r)) =
              lastn k (nonempty_lines file0 ++ (json_line <$> wr_written r));
}.

Lemma file_inv_persist k file0 env r r' :
  appends env = true -> file_inv k file0 r -> writer_step (WPersist env) r = Some r' ->
  wr_queued r' = wr_queued r /\ complete (wr_file r') /\
  lastn k (nonempty_lines (wr_file r')) = lastn k (nonempty_lines file0 ++ (json_line <$> wr_written r')).
Proof.
  intros Ha [Hw _ Ht Hc Hr] Hs. cbn in Hs. unfold persist_next in Hs.
  destruct (in_flight (wr_writer r)) as [t|] eqn:Ef; [|done]. cbn [mbind option_bind] in Hs.
  assert (good_line (json_line t) /\ (Z.of_nat k <= max_lines t)%Z) as [Hgl Hk].
  { rewrite Forall_forall in Ht. apply Ht. eapply elem_of_sublist; [|exact (wi_order r Hw)].
    unfold outstanding. rewrite Ef. set_solver. }
  destruct (Persist_recent env t (wr_file r) (write_count (wr_writer r)) k Ha Hc Hgl Hk) as [Hc' Hr'].
  destruct (Persist _ _ _ _) as [file count]. injection Hs as <-. split_and!; [done|exact Hc'|].
  cbn [fst] in Hr'. cbn [wr_file wr_written option_list].
  rewrite Hr', <-(lastn_app k (nonempty_lines (wr_file r))), Hr, lastn_app, fmap_app, app_assoc. done.
Qed.

Lemma file_inv_step k file0 e r r' :
  steady k e -> file_inv k file0 r -> writer_step e r = Some r' -> file_inv k file0 r'.
Proof.
  intros Hst Hi Hs. pose proof Hi as [Hw Hex Ht Hc Hr]. destruct (writer_inv_step e r r' Hex Hw Hs) as [Hw' Hex'].
  destruct e as [line max| |env|].
  - injection Hs as <-. split; cbn; try done. apply Forall_app. split; [done|].
    destruct (_ && fits_queue line); [|constructor]. constructor; [exact Hst|constructor].
  - cbn in Hs. destruct (take_next (wr_writer r)); [|done]. injection Hs as <-. by split.
  - destruct (file_inv_persist k file0 env r r' Hst Hi Hs) as (Hq & ? & ?). split; try done. by rewrite Hq.
  - injection Hs as <-. by split.
Qed.

Lemma file_inv_run k file0 es r r' :
  Forall (steady k) es -> file_inv k file0 r -> writer_run es r = Some r' -> file_inv k file0 r'.
Proof.
  intros Hes. revert r. induction Hes as [|e es He _ IH]; intros r Hi Hr; [by injection Hr as <-|]. cbn in Hr.
  destruct (writer_step e r) as [r1|] eqn:E; [|done]. eapply IH; [|exact Hr]. by eapply file_inv_step.
Qed.

(** The recent history survives truncation: whatever the order in which entries are
    queued, dropped and written and however often the cache file is truncated, a scene
    that asks for [k] lines of context gets the prompt it would get from the complete
    log of everything written, provided the writes reach the file and every entry asks
    to keep at least [k] lines. *)
Theorem context_prefix_recent (w : World) k es file0 r :
  complete file0 -> Forall (steady (Z.to_nat k)) es -> writer_run es (start_run file0) = Some r ->
  BuildContextPrefix (with_cache (wr_file r) w) k =
  BuildContextPrefix (with_cache (lines_text (nonempty_lines file0 ++ (json_line <$> wr_written r))) w) k.
Proof.
  intros Hc Hes Hr.
  assert (file_inv (Z.to_nat k) file0 (start_run file0)) as H0.
  { split; [apply start_inv|done|done|done|]. cbn [start_run wr_file wr_written fmap list_fmap]. by rewrite app_nil_r. }
  pose proof (file_inv_run _ _ _ _ _ Hes H0 Hr) as [Hw _ Ht _ Hrec]. apply BuildContextPrefix_recent.
  rewrite Hrec, nonempty_lines_text; [done|]. apply Forall_app. split; [apply nonempty_lines_good|].
  apply Forall_fmap. rewrite Forall_forall in Ht |- *. intros t Hin. apply Ht.
  eapply elem_of_sublist; [|exact (wi_order r Hw)]. set_solver.
Qed.

(** [Enqueue] answers false although the line was queued, when older entries had to go;
    its comment says that it does so only if the entry could not be queued. *)
Definition full_queue : AsyncContextWriter :=
  new_writer <| pending := replicate 1024 {| json_line := "x"; max_lines := 1 |} |> <| pending_bytes := 1024%N |>.
Lemma enqueue_reports_loss :
  let '(queued, w) := Enqueue "y" 1 full_queue in
  queued = false /\ last (pending w) = Some {| json_line := "y"; max_lines := 1 |}.
Proof. vm_compute. split; reflexivity. Qed.

Definition ok_env : PersistEnv :=
  {| opens := true; mkdirs := true; reopens := true; reads := true; writes_tmp := true; renames := true |}.
Definition demo_writes : list writer_event := [WEnqueue "one" 2; WEnqueue "two" 2; WTake; WPersist ok_env; WTake; WPersist ok_env].

Lemma context_queue_accounting_witness :
  exists r, writer_run demo_writes (start_run []) = Some r /\ (size (pending (wr_writer r)) <= kMaxPendingEntries)%N.
Proof.
  eexists. split; [vm_compute; reflexivity|].
  apply (context_queue_accounting demo_writes []). vm_compute. reflexivity.
Defined.

Lemma context_prefix_recent_witness :
  exists r, writer_run demo_writes (start_run []) = Some r /\
    BuildContextPrefix (with_cache (wr_file r) silent_world) 1 =
    BuildContextPrefix (with_cache (lines_text (nonempty_lines [] ++ (json_line <$> wr_written r))) silent_world) 1.
Proof.
  eexists. split; [vm_compute; reflexivity|].
  apply (context_prefix_recent silent_world 1 demo_writes []).
  - left. reflexivity.
  - repeat constructor; try discriminate; apply (bool_decide_unpack _); vm_compute; exact I.
  - vm_compute. reflexivity.
Defined.
