(* ===== verification/Vocabulary.v ===== *)
(** * SentencePiece vocabularies (src/src/common/asr/bpe_vocab_exporter.cpp)

    The exporter reads the protobuf wire format of a SentencePiece model and writes a
    text vocabulary; the validator reads such a text. Printing and parsing of floats are
    parameters ([fmt] and [std::from_chars]), and so are the answers of the file
    system. *)

From S2P Require Import Prelude StringUtils Floats.
From Stdlib Require Import Ascii SpecFloat.

Definition kMaxSentencePieceModelBytes : N := 64 * 1024 * 1024.
Definition kMaxBpeVocabularyBytes : N := 256 * 1024 * 1024.
Definition kMaxPieceCount : N := 1000000.
Definition kMaxPieceBytes : N := 1024 * 1024.

(** ** ByteReader: each read gives the value and the remaining bytes *)

(** The loop of [ReadVarint]; the shift reaches 64 after ten rounds. *)
Fixpoint varint_loop (rounds : nat) (shift result : N) (buffer : bytes) : option (N * bytes) :=
  match rounds with
  | O => None
  | S rounds =>
      match buffer with
      | [] => None
      | c :: buffer =>
          let byte := code c in
          if (shift =? 63)%N && (1 <? N.land byte 127)%N then None
          else
            let result := N.lor result (N.shiftl (N.land byte 127) shift) in
            if (N.land byte 128 =? 0)%N then Some (result, buffer)
            else varint_loop rounds (shift + 7) result buffer
      end
  end.
Definition ReadVarint (buffer : bytes) : option (N * bytes) := varint_loop 10 0 0 buffer.

Definition ReadLengthDelimited (buffer : bytes) : option (bytes * bytes) :=
  '(len, buffer) ← ReadVarint buffer;
  if (size buffer <? len)%N then None
  else Some (take (N.to_nat len) buffer, drop (N.to_nat len) buffer).

Definition ReadFixed32 (buffer : bytes) : option (N * bytes) :=
  match buffer with
  | b0 :: b1 :: b2 :: b3 :: buffer =>
      Some (N.lor (N.lor (N.lor (code b0) (N.shiftl (code b1) 8)) (N.shiftl (code b2) 16)) (N.shiftl (code b3) 24), buffer)
  | _ => None
  end.

(** [std::bit_cast<float>] *)
Definition f32_of_bits (bits : N) : flt :=
  let sign := N.testbit bits 31 in
  let exponent := Z.of_N (N.land (N.shiftr bits 23) 255) in
  let fraction := Z.of_N (N.land bits 8388607) in
  if (exponent =? 255)%Z then (if (fraction =? 0)%Z then S754_infinity sign else S754_nan)
  else if (exponent =? 0)%Z then
    match fraction with Zpos m => S754_finite sign m (-149) | _ => S754_zero sign end
  else match (fraction + 8388608)%Z with Zpos m => S754_finite sign m (exponent - 150) | _ => S754_nan end.

Definition ReadFloat (buffer : bytes) : option (flt * bytes) :=
  '(bits, buffer) ← ReadFixed32 buffer; Some (f32_of_bits bits, buffer).

Definition Skip (count : nat) (buffer : bytes) : option bytes :=
  if length buffer <? count then None else Some (drop count buffer).

Definition SkipField (wire_type : N) (buffer : bytes) : option bytes :=
  if (wire_type =? 0)%N then '(_, buffer) ← ReadVarint buffer; Some buffer
  else if (wire_type =? 1)%N then Skip 8 buffer
  else if (wire_type =? 2)%N then '(_, buffer) ← ReadLengthDelimited buffer; Some buffer
  else if (wire_type =? 5)%N then Skip 4 buffer
  else None.

(** The key shifted right by three, as [std::uint32_t], and its low three bits. *)
Definition field_of (key : N) : N := (N.shiftr key 3 mod 4294967296)%N.
Definition wire_of (key : N) : N := N.land key 7.

(** ** ParseSentencePiece *)

Record SentencePieceRecord := { piece : bytes; score : flt }.

(** The loop; every round consumes at least the key. *)
Fixpoint piece_loop (fuel : nat) (record : SentencePieceRecord) (found_piece : bool) (reader : bytes)
  : result SentencePieceRecord :=
  match fuel with
  | O => Err "invalid field key in piece record"
  | S fuel =>
      if is_empty reader then
        if found_piece then Ok record else Err "missing piece text in piece record"
      else
        match ReadVarint reader with
        | None => Err "invalid field key in piece record"
        | Some (key, reader) =>
            if (field_of key =? 1)%N && (wire_of key =? 2)%N then
              match ReadLengthDelimited reader with
              | None => Err "invalid length-delimited string in piece record"
              | Some (value, reader) => piece_loop fuel {| piece := value; score := score record |} true reader
              end
            else if (field_of key =? 2)%N && (wire_of key =? 5)%N then
              match ReadFloat reader with
              | None => Err "invalid float score in piece record"
              | Some (s, reader) => piece_loop fuel {| piece := piece record; score := s |} found_piece reader
              end
            else
              match SkipField (wire_of key) reader with
              | None => Err "unsupported wire type in piece record"
              | Some reader => piece_loop fuel record found_piece reader
              end
        end
  end.
Definition ParseSentencePiece (message : bytes) : result SentencePieceRecord :=
  piece_loop (S (length message)) {| piece := []; score := S754_zero false |} false message.

(** ** Export and validation *)

Definition ch_tab : ascii := "009".

Section vocabulary.
Context (print_float : flt -> bytes) (parse_float : bytes -> option flt).

Definition piece_supported (r : SentencePieceRecord) : bool :=
  negb (is_empty (piece r)) && (size (piece r) <=? kMaxPieceBytes)%N && is_finite (score r)
  && negb (bool_decide (is_Some (find_first_of_from (piece r) [ch_tab; ch_cr; ch_nl] 0))).

Definition vocab_line (r : SentencePieceRecord) : bytes := piece r ++ [ch_tab] ++ print_float (score r) ++ [ch_nl].

(** The text and the number of pieces, or the error without the file's name. *)
Fixpoint export_loop (fuel : nat) (output : bytes) (piece_count : N) (reader : bytes) : result (bytes * N) :=
  match fuel with
  | O => Err "invalid SentencePiece ModelProto: "
  | S fuel =>
      if is_empty reader then Ok (output, piece_count)
      else
        match ReadVarint reader with
        | None => Err "invalid SentencePiece ModelProto: "
        | Some (key, reader) =>
            if (field_of key =? 1)%N && (wire_of key =? 2)%N then
              match ReadLengthDelimited reader with
              | None => Err "invalid SentencePiece piece record: "
              | Some (message, reader) =>
                  match ParseSentencePiece message with
                  | Err e => Err ("invalid SentencePiece piece record (" ++ e ++ ") in: ")
                  | Ok record =>
                      if negb (piece_supported record) then Err "unsupported SentencePiece piece record in: "
                      else
                        let output := output ++ vocab_line record in
                        let piece_count := (piece_count + 1)%N in
                        if (kMaxPieceCount <? piece_count)%N || (kMaxBpeVocabularyBytes <? size output)%N
                        then Err "SentencePiece vocabulary exceeds safety limits: "
                        else export_loop fuel output piece_count reader
                  end
              end
            else
              match SkipField (wire_of key) reader with
              | None => Err "unsupported SentencePiece ModelProto field in: "
              | Some reader => export_loop fuel output piece_count reader
              end
        end
  end.

(** The text written to the vocabulary file. [model]: the size and the mapped bytes, or
    the error of either. *)
Definition ExportSentencePieceVocabulary (model_path : bytes) (model_size : result N) (model : result bytes)
  : result bytes :=
  match model_size with
  | Err e => Err ("failed to inspect SentencePiece model: " ++ e)
  | Ok n =>
      if (kMaxSentencePieceModelBytes <? n)%N then Err ("SentencePiece model exceeds 64 MiB limit: " ++ model_path)
      else
        match model with
        | Err e => Err ("failed to open SentencePiece model: " ++ e)
        | Ok data =>
            match export_loop (S (length data)) [] 0 data with
            | Err e => Err (e ++ model_path)
            | Ok (output, piece_count) =>
                if (piece_count =? 0)%N then Err ("SentencePiece model contains no vocabulary pieces: " ++ model_path)
                else Ok output
            end
        end
  end.

(** The lines [std::getline] gives. *)
Definition getlines (text : bytes) : list bytes :=
  let tokens := split_ref ch_nl text in
  if is_empty (List.last tokens []) then removelast tokens else tokens.

Definition line_ok (line : bytes) : option bytes :=
  let line := strip_cr line in
  match find_char line ch_tab with
  | None => Some "invalid BPE vocabulary line in: "
  | Some tab =>
      if (tab =? 0) || (length line <=? tab + 1) || (kMaxPieceBytes <? N.of_nat tab)%N
      then Some "invalid BPE vocabulary line in: "
      else match parse_float (drop (S tab) line) with
           | Some s => if is_finite s then None else Some "invalid BPE vocabulary score in: "
           | None => Some "invalid BPE vocabulary score in: "
           end
  end.

Fixpoint validate_loop (piece_count : N) (lines : list bytes) : result N :=
  match lines with
  | [] => Ok piece_count
  | line :: lines =>
      match line_ok line with
      | Some e => Err e
      | None => if (kMaxPieceCount <? piece_count + 1)%N then Err "BPE vocabulary has too many pieces: "
                else validate_loop (piece_count + 1) lines
      end
  end.

(** [vocab]: the file's text; [None]: it cannot be opened. A read that stops before the
    end of the file is [complete = false]. *)
Definition ValidateBpeVocabulary (vocab_path : bytes) (vocab_size : result N) (vocab : option bytes) (complete : bool)
  : result unit :=
  match vocab_size with
  | Err e => Err ("failed to inspect BPE vocabulary: " ++ e)
  | Ok n =>
      if (n =? 0)%N || (kMaxBpeVocabularyBytes <? n)%N
      then Err ("BPE vocabulary is empty or exceeds 256 MiB: " ++ vocab_path)
      else
        match vocab with
        | None => Err ("failed to open BPE vocabulary: " ++ vocab_path)
        | Some text =>
            match validate_loop 0 (getlines text) with
            | Err e => Err (e ++ vocab_path)
            | Ok piece_count =>
                if negb complete || (piece_count =? 0)%N then Err ("failed to read BPE vocabulary: " ++ vocab_path)
                else Ok tt
            end
        end
  end.
End vocabulary.

(** ** Variable-length integers *)

(** The encoder of the wire format: seven bits per byte, lowest first. *)
Fixpoint encode_varint (fuel : nat) (n : N) : bytes :=
  match fuel with
  | O => []
  | S fuel => if (n <? 128)%N then [ascii_of_N n]
              else ascii_of_N (n mod 128 + 128) :: encode_varint fuel (n / 128)
  end.

Lemma byte_bits c :
  N.land (code c) 127 = (code c mod 128)%N /\ (N.land (code c) 128 =? 0)%N = (code c <? 128)%N.
Proof. destruct c as [[] [] [] [] [] [] [] []]; split; reflexivity. Qed.

Lemma code_ascii n : (n < 256)%N -> code (ascii_of_N n) = n.
Proof. apply N_ascii_embedding. Qed.

Lemma join_low_bits n s :
  N.lor (N.shiftl (n mod 128) s) (N.shiftl (n / 128) (s + 7)) = N.shiftl n s.
Proof.
  rewrite (N.add_comm s 7), <-N.shiftl_shiftl, <-N.shiftl_lor. f_equal.
  apply N.bits_inj. intros i. rewrite N.lor_spec. change 128%N with (2 ^ 7)%N. rewrite <-N.shiftr_div_pow2.
  destruct (N.lt_ge_cases i 7).
  - rewrite N.mod_pow2_bits_low, N.shiftl_spec_low by done. apply orb_false_r.
  - rewrite N.mod_pow2_bits_high, N.shiftl_spec_high', N.shiftr_spec' by done. simpl. f_equal. lia.
Qed.

Lemma varint_loop_encode rounds shift acc n rest :
  (shift + 7 * N.of_nat rounds = 70)%N -> (n < 2 ^ (64 - shift))%N -> (0 < rounds)%nat ->
  varint_loop rounds shift acc (encode_varint rounds n ++ rest) = Some (N.lor acc (N.shiftl n shift), rest).
Proof.
  revert shift acc n. induction rounds as [|rounds IH]; intros shift acc n Hsh Hn Hr; [lia|].
  cbn [encode_varint]. destruct (N.ltb_spec n 128).
  - cbn [app varint_loop]. destruct (byte_bits (ascii_of_N n)) as [H1 H2]. rewrite H1, H2, code_ascii by lia.
    destruct (N.ltb_spec n 128); [|lia]. rewrite N.mod_small by done.
    destruct (N.eqb_spec shift 63) as [->|]; [|done]. change (2 ^ (64 - 63))%N with 2%N in Hn. destruct (N.ltb_spec 1 n); [lia|done].
  - cbn [app varint_loop]. destruct (byte_bits (ascii_of_N (n mod 128 + 128))) as [H1 H2].
    assert (n mod 128 < 128)%N as Hlow by (by apply N.mod_lt).
    assert ((n mod 128 + 128) mod 128 = n mod 128)%N as Hmod.
    { rewrite <-N.Div0.add_mod_idemp_r, N.Div0.mod_same, N.add_0_r. apply N.Div0.mod_mod. }
    rewrite H1, H2, code_ascii, Hmod, (proj2 (N.ltb_ge (n mod 128 + 128)%N 128%N)) by (apply N.le_add_l || (revert Hlow; generalize (n mod 128)%N; lia)).
    clear H1 H2 Hmod Hlow. assert (shift < 57)%N as Hs.
    { apply N.nle_gt. intros Hge. assert (2 ^ (64 - shift) <= 2 ^ 7)%N by (apply N.pow_le_mono_r; lia).
      change (2 ^ 7)%N with 128%N in *. lia. }
    destruct (N.eqb_spec shift 63); [lia|]. cbn [andb].
    rewrite IH; [|lia| |lia].
    + f_equal. f_equal. by rewrite <-N.lor_assoc, join_low_bits.
    + apply N.Div0.div_lt_upper_bound. replace (128 * 2 ^ (64 - (shift + 7)))%N with (2 ^ (64 - shift))%N; [done|].
      change 128%N with (2 ^ 7)%N. rewrite <-N.pow_add_r. f_equal. lia.
Qed.

Lemma ReadVarint_encode n rest :
  (n < 2 ^ 64)%N -> ReadVarint (encode_varint 10 n ++ rest) = Some (n, rest).
Proof.
  intros Hn. unfold ReadVarint. rewrite varint_loop_encode; [|done|done|lia]. by rewrite N.lor_0_l, N.shiftl_0_r.
Qed.

(** What is read fits in 64 bits, and at least one byte is consumed. *)
Lemma varint_loop_bounds rounds shift acc buffer v rest :
  (shift + 7 * N.of_nat rounds = 70)%N -> (acc < 2 ^ 64)%N ->
  varint_loop rounds shift acc buffer = Some (v, rest) -> (v < 2 ^ 64)%N /\ (length rest < length buffer)%nat.
Proof.
  revert shift acc buffer. induction rounds as [|rounds IH]; intros shift acc buffer Hsh Hacc; [done|].
  cbn [varint_loop]. destruct buffer as [|c buffer]; [done|]. destruct (byte_bits c) as [H1 H2]. rewrite H1, H2.
  destruct (_ && _) eqn:Hov; [done|].
  assert (code c mod 128 < 128)%N as Hlow by (by apply N.mod_lt).
  assert (N.lor acc (N.shiftl (code c mod 128) shift) < 2 ^ 64)%N as Hres.
  { assert (N.shiftl (code c mod 128) shift < 2 ^ 64)%N as Hx.
    { rewrite N.shiftl_mul_pow2. destruct (N.eqb_spec shift 63) as [->|Hne].
      - cbn [andb] in Hov. apply N.ltb_ge in Hov. nia.
      - assert (2 ^ shift <= 2 ^ 56)%N by (apply N.pow_le_mono_r; lia). change (2 ^ 64)%N with (256 * 2 ^ 56)%N. nia. }
    destruct (N.eq_dec (N.lor acc (N.shiftl (code c mod 128) shift)) 0) as [->|Hnz]; [done|].
    apply N.log2_lt_pow2; [lia|]. rewrite N.log2_lor. apply N.max_lub_lt.
    - destruct (N.eq_dec acc 0) as [->|]; [done|]. apply N.log2_lt_pow2; lia.
    - destruct (N.eq_dec (N.shiftl (code c mod 128) shift) 0) as [->|]; [done|]. apply N.log2_lt_pow2; lia. }
  destruct (code c <? 128)%N.
  - intros [= <- <-]. split; [done|]. simpl. lia.
  - intros [Hv Hl]%IH; [|lia|done]. split; [done|]. simpl. lia.
Qed.

Lemma ReadVarint_bounds buffer v rest :
  ReadVarint buffer = Some (v, rest) -> (v < 2 ^ 64)%N /\ (length rest < length buffer)%nat.
Proof. apply varint_loop_bounds; done. Qed.

Lemma ReadLengthDelimited_bounds buffer v rest :
  ReadLengthDelimited buffer = Some (v, rest) -> (length rest < length buffer)%nat.
Proof.
  unfold ReadLengthDelimited. destruct (ReadVarint buffer) as [[n b]|] eqn:E; [|done]. cbn [mbind option_bind].
  apply ReadVarint_bounds in E as [_ Hl]. destruct (size b <? n)%N; [done|]. intros [= _ <-]. rewrite length_drop. lia.
Qed.

Lemma SkipField_bounds wire buffer rest : SkipField wire buffer = Some rest -> (length rest <= length buffer)%nat.
Proof.
  unfold SkipField, Skip. repeat case_match; try done; cbn [mbind option_bind] in *.
  - destruct (ReadVarint buffer) as [[n b]|] eqn:E; [|done]. intros [= <-]. apply ReadVarint_bounds in E. lia.
  - intros [= <-]. rewrite length_drop. lia.
  - destruct (ReadLengthDelimited buffer) as [[n b]|] eqn:E; [|done]. intros [= <-]. apply ReadLengthDelimited_bounds in E. lia.
  - intros [= <-]. rewrite length_drop. lia.
Qed.

(** Integers of the wire format round-trip: every 64-bit value is read back from its
    encoding, with the rest of the input untouched; and whatever bytes are read, the value
    fits in 64 bits and input is consumed, so the parsers' loops end. *)
Theorem varint_roundtrip n rest buffer v rest' :
  (n < 2 ^ 64)%N ->
  ReadVarint (encode_varint 10 n ++ rest) = Some (n, rest) /\
  (ReadVarint buffer = Some (v, rest') -> (v < 2 ^ 64)%N /\ (length rest' < length buffer)%nat).
Proof. intros Hn. split; [by apply ReadVarint_encode|apply ReadVarint_bounds]. Qed.

Lemma varint_roundtrip_witness :
  ReadVarint (encode_varint 10 18446744073709551615 ++ "tail") = Some (18446744073709551615%N, "tail").
Proof.
  exact (proj1 (varint_roundtrip 18446744073709551615 "tail" [] 0 [] ltac:(vm_compute; reflexivity))).
Defined.

(** ** Piece records *)

Definition encode_fixed32 (bits : N) : bytes :=
  [ascii_of_N (N.land bits 255); ascii_of_N (N.land (N.shiftr bits 8) 255);
   ascii_of_N (N.land (N.shiftr bits 16) 255); ascii_of_N (N.land (N.shiftr bits 24) 255)].
Definition encode_piece (text : bytes) (bits : N) : bytes :=
  encode_varint 10 10 ++ encode_varint 10 (size text) ++ text ++ encode_varint 10 21 ++ encode_fixed32 bits.

Lemma land_255 n : (N.land n 255 < 256)%N.
Proof. change 255%N with (N.ones 8). rewrite N.land_ones. by apply N.mod_lt. Qed.

(** Decide the comparisons of [i] with constants in the goal. *)
Ltac decide_bounds i :=
  repeat match goal with
  | |- context [(?a <=? i)%N] =>
      first [rewrite (proj2 (N.leb_le a i)) by lia | rewrite (proj2 (N.leb_gt a i)) by lia]
  | |- context [(i <? ?a)%N] =>
      first [rewrite (proj2 (N.ltb_lt i a)) by lia | rewrite (proj2 (N.ltb_ge i a)) by lia]
  end.

Lemma ReadFixed32_encode bits rest :
  (bits < 2 ^ 32)%N -> ReadFixed32 (encode_fixed32 bits ++ rest) = Some (bits, rest).
Proof.
  intros Hb. unfold encode_fixed32. cbn [app ReadFixed32]. rewrite !code_ascii by apply land_255. f_equal. f_equal.
  apply N.bits_inj. intros i. change 255%N with (N.ones 8). rewrite !N.lor_spec.
  assert (forall k s, N.testbit (N.shiftl (N.land (N.shiftr bits s) (N.ones 8)) s) k
    = ((s <=? k)%N && (k <? s + 8)%N && N.testbit bits k)) as Hbyte.
  { intros k s. destruct (N.leb_spec s k).
    - rewrite N.shiftl_spec_high', N.land_spec, N.shiftr_spec', N.sub_add by done.
      destruct (N.ltb_spec k (s + 8)).
      + rewrite N.ones_spec_low by lia. by rewrite andb_true_r.
      + rewrite N.ones_spec_high by lia. by rewrite andb_false_r.
    - by rewrite N.shiftl_spec_low. }
  pose proof (Hbyte i 0%N) as H0. rewrite N.shiftl_0_r, N.shiftr_0_r in H0. rewrite H0, !Hbyte. clear H0 Hbyte.
  destruct (N.lt_ge_cases i 32).
  - assert (i < 8 \/ 8 <= i < 16 \/ 16 <= i < 24 \/ 24 <= i < 32)%N as Hi by lia.
    destruct Hi as [|[|[|]]]; decide_bounds i; by destruct (N.testbit bits i).
  - rewrite (N.bits_above_log2 bits i); [by rewrite !andb_false_r|].
    destruct (N.eq_dec bits 0) as [->|]; [simpl; lia|].
    assert (N.log2 bits < 32)%N by (by apply N.log2_lt_pow2; [lia|]). lia.
Qed.

(** One round of the loop for each of the two fields. *)
Lemma ReadLengthDelimited_encode text rest :
  (size text < 2 ^ 64)%N -> ReadLengthDelimited (encode_varint 10 (size text) ++ text ++ rest) = Some (text, rest).
Proof.
  intros Hs. unfold ReadLengthDelimited. rewrite ReadVarint_encode by done. cbn [mbind option_bind].
  destruct (N.ltb_spec (size (text ++ rest)) (size text)) as [Hl|]; [rewrite size_app in Hl; lia|].
  unfold size. rewrite Nat2N.id, take_app_length, drop_app_length. done.
Qed.

Lemma piece_loop_text fuel record found text rest :
  (size text < 2 ^ 64)%N ->
  piece_loop (S fuel) record found (encode_varint 10 10 ++ encode_varint 10 (size text) ++ text ++ rest)
  = piece_loop fuel {| piece := text; score := score record |} true rest.
Proof.
  intros Hs. cbn [piece_loop]. rewrite ReadVarint_encode, ReadLengthDelimited_encode by done. done.
Qed.

Lemma piece_loop_score fuel record found bits rest :
  (bits < 2 ^ 32)%N ->
  piece_loop (S fuel) record found (encode_varint 10 21 ++ encode_fixed32 bits ++ rest)
  = piece_loop fuel {| piece := piece record; score := f32_of_bits bits |} found rest.
Proof.
  intros Hb. cbn [piece_loop]. rewrite ReadVarint_encode by done.
  unfold ReadFloat. rewrite ReadFixed32_encode by done. done.
Qed.

(** Piece records round-trip: from the wire encoding of a piece and the bits of its
    score the parser recovers exactly that piece and that score. *)
Theorem ParseSentencePiece_roundtrip text bits :
  (size text < 2 ^ 64)%N -> (bits < 2 ^ 32)%N ->
  ParseSentencePiece (encode_piece text bits) = Ok {| piece := text; score := f32_of_bits bits |}.
Proof.
  intros Ht Hb. unfold ParseSentencePiece, encode_piece.
  set (rest := encode_varint 10 21 ++ encode_fixed32 bits).
  assert (3 <= length (encode_varint 10 10 ++ encode_varint 10 (size text) ++ text ++ rest))%nat as Hl.
  { rewrite !length_app. unfold rest. rewrite length_app. change (length (encode_fixed32 bits)) with 4%nat. lia. }
  destruct (length _) as [|[|[|n]]]; [lia..|]. rewrite piece_loop_text by done.
  unfold rest. rewrite <-(app_nil_r (encode_fixed32 bits)), piece_loop_score by done. done.
Qed.

Lemma ParseSentencePiece_roundtrip_witness :
  ParseSentencePiece (encode_piece "ab" 1065353216) = Ok {| piece := "ab"; score := f32_of_bits 1065353216 |}.
Proof. apply (ParseSentencePiece_roundtrip "ab" 1065353216); vm_compute; reflexivity. Defined.

(** ** The exported vocabulary *)

Section export.
Context (print_float : flt -> bytes) (parse_float : bytes -> option flt).
(** What the code relies on: a printed finite float is non-empty, has no tab, carriage
    return or newline, and parses to a finite float again. *)
Context (print_ok : forall f, is_finite f = true ->
  print_float f <> [] /\ Forall (fun c => c ∉ [ch_tab; ch_cr; ch_nl]) (print_float f) /\
  exists f', parse_float (print_float f) = Some f' /\ is_finite f' = true).

Abbreviation line_text := (fun r => piece r ++ [ch_tab] ++ print_float (score r)).

(** The loop writes one line per supported record and stays within the limits. *)
Lemma export_loop_spec fuel output count reader text n recs :
  export_loop print_float fuel output count reader = Ok (text, n) ->
  output = concat (vocab_line print_float <$> recs) -> count = size recs ->
  Forall (fun r => piece_supported r = true) recs -> (count <= kMaxPieceCount)%N -> (size output <= kMaxBpeVocabularyBytes)%N ->
  exists recs', text = concat (vocab_line print_float <$> recs') /\ n = size recs' /\
    Forall (fun r => piece_supported r = true) recs' /\ (n <= kMaxPieceCount)%N /\ (size text <= kMaxBpeVocabularyBytes)%N.
Proof.
  revert output count reader recs. induction fuel as [|fuel IH]; intros output count reader recs; [done|].
  cbn [export_loop]. intros Hx Ho Hc Hall Hn Hs.
  destruct (is_empty reader); [injection Hx as <- <-; by exists recs|].
  destruct (ReadVarint reader) as [[key r]|]; [|done]. destruct (_ && _).
  - destruct (ReadLengthDelimited r) as [[message r']|]; [|done].
    destruct (ParseSentencePiece message) as [record|]; [|done].
    destruct (piece_supported record) eqn:Hp; cbn [negb] in Hx; [|done].
    destruct (_ || _) eqn:Hlim; [done|]. apply orb_false_iff in Hlim as [H1%N.ltb_ge H2%N.ltb_ge].
    apply (IH _ _ _ (recs ++ [record])) in Hx; [done|..|done|done].
    + rewrite fmap_app, concat_app, Ho. cbn. by rewrite app_nil_r.
    + rewrite size_app, Hc. done.
    + apply Forall_app. split; [done|]. by constructor.
  - destruct (SkipField _ r); [|done]. by eapply IH.
Qed.

Lemma supported_facts r :
  piece_supported r = true ->
  piece r <> [] /\ (size (piece r) <= kMaxPieceBytes)%N /\ is_finite (score r) = true /\
  Forall (fun c => c ∉ [ch_tab; ch_cr; ch_nl]) (piece r).
Proof.
  unfold piece_supported. intros [[[Hne Hs]%andb_true_iff Hf]%andb_true_iff Hc]%andb_true_iff.
  apply negb_true_iff, is_empty_false in Hne. apply N.leb_le in Hs.
  apply negb_true_iff, bool_decide_eq_false in Hc. split_and!; try done.
  unfold find_first_of_from in Hc. rewrite drop_0 in Hc.
  destruct (find_if _ (piece r)) eqn:E; [destruct Hc; by eexists|]. apply find_if_None in E.
  eapply Forall_impl; [exact E|]. intros c Hcc Hin. cbn [existsb] in Hcc.
  apply orb_false_iff in Hcc as [H1 [H2 [H3 _]%orb_false_iff]%orb_false_iff].
  apply bool_decide_eq_false in H1, H2, H3. rewrite !elem_of_cons in Hin.
  destruct Hin as [|[|[|?%elem_of_nil]]]; done.
Qed.

Lemma vocab_line_ok r : piece_supported r = true -> line_ok parse_float (line_text r) = None.
Proof.
  intros Hr. destruct (supported_facts r Hr) as (Hne & Hs & Hf & Hc). destruct (print_ok _ Hf) as (Hpn & Hpc & f' & Hp & Hf').
  unfold line_ok.
  assert (strip_cr (line_text r) = line_text r) as ->.
  { unfold strip_cr. destruct (print_float (score r)) as [|c l _] using rev_ind; [done|].
    rewrite !app_assoc, last_snoc. apply Forall_app in Hpc as [_ [Hpc _]%Forall_cons].
    rewrite bool_decide_eq_false_2; [done|]. intros ->. set_solver. }
  assert (find_char (line_text r) ch_tab = Some (length (piece r))) as ->.
  { unfold find_char, find_char_from. rewrite drop_0. cbn [app].
    rewrite (find_if_app _ (piece r) ch_tab (print_float (score r))); [done| |by rewrite bool_decide_eq_true_2].
    eapply Forall_impl; [exact Hc|]. intros c Hcc. rewrite bool_decide_eq_false_2; [done|]. set_solver. }
  destruct (Nat.eqb_spec (length (piece r)) 0) as [E|]; [by apply nil_length_inv in E|].
  destruct (Nat.leb_spec (length (line_text r)) (length (piece r) + 1)) as [Hle|].
  { rewrite !length_app in Hle. simpl in Hle. destruct (print_float (score r)); [done|simpl in Hle; lia]. }
  destruct (N.ltb_spec kMaxPieceBytes (N.of_nat (length (piece r)))); [unfold size in Hs; lia|]. cbn [orb].
  rewrite app_assoc, drop_app_length' by (rewrite length_app; simpl; lia). by rewrite Hp, Hf'.
Qed.

Lemma getlines_vocab recs :
  Forall (fun r => piece_supported r = true) recs ->
  getlines (concat (vocab_line print_float <$> recs)) = line_text <$> recs.
Proof.
  intros Hall. assert (split_ref ch_nl (concat (vocab_line print_float <$> recs)) = (line_text <$> recs) ++ [[]]) as Hsp.
  { induction Hall as [|r recs Hr _ IH]; [done|]. destruct (supported_facts r Hr) as (_ & _ & Hf & Hc).
    destruct (print_ok _ Hf) as (_ & Hpc & _). rewrite !fmap_cons. cbn [concat app].
    replace (vocab_line print_float r ++ concat (vocab_line print_float <$> recs))
      with (line_text r ++ ch_nl :: concat (vocab_line print_float <$> recs))
      by (unfold vocab_line; by rewrite <-!app_assoc).
    rewrite split_ref_app, IH; [done|]. rewrite !elem_of_app. rewrite Forall_forall in Hc, Hpc.
    intros [Hi|[Hi|Hi]]; [apply Hc in Hi; set_solver| |apply Hpc in Hi; set_solver].
    apply list_elem_of_singleton in Hi. done. }
  unfold getlines. rewrite Hsp, List.last_last, List.removelast_last. done.
Qed.

Lemma validate_loop_ok count recs :
  Forall (fun r => piece_supported r = true) recs -> (count + size recs <= kMaxPieceCount)%N ->
  validate_loop parse_float count (line_text <$> recs) = Ok (count + size recs)%N.
Proof.
  intros Hall. revert count. induction Hall as [|r recs Hr _ IH]; intros count Hc; [simpl; f_equal; unfold size; simpl; lia|].
  rewrite fmap_cons. cbn [validate_loop]. rewrite vocab_line_ok by done.
  change (size (r :: recs)) with (N.of_nat (S (length recs))) in *. unfold size in *.
  destruct (N.ltb_spec kMaxPieceCount (count + 1)); [lia|]. rewrite IH by lia. f_equal. lia.
Qed.
End export.

(** What the exporter writes, the validator accepts: whenever the export of a
    SentencePiece model succeeds, the vocabulary text it produces passes validation,
    limits on sizes and counts included, for any float printing that can be parsed back. *)
Theorem export_validates print_float parse_float model_path vocab_path model_size model text :
  (forall f, is_finite f = true ->
     print_float f <> [] /\ Forall (fun c => c ∉ [ch_tab; ch_cr; ch_nl]) (print_float f) /\
     exists f', parse_float (print_float f) = Some f' /\ is_finite f' = true) ->
  ExportSentencePieceVocabulary print_float model_path model_size model = Ok text ->
  ValidateBpeVocabulary parse_float vocab_path (Ok (size text)) (Some text) true = Ok tt.
Proof.
  intros Hprint. unfold ExportSentencePieceVocabulary. destruct model_size as [n|]; [|done].
  destruct (_ <? n)%N; [done|]. destruct model as [data|]; [|done].
  destruct (export_loop _ _ _ _ _) as [[output count]|] eqn:E; [|done].
  destruct (N.eqb_spec count 0) as [|Hcount]; [done|]. intros [= <-].
  apply (export_loop_spec print_float _ _ _ _ _ _ []) in E as (recs & -> & -> & Hall & Hn & Hs);
    [|done|done|constructor|done|done].
  unfold ValidateBpeVocabulary.
  assert (size (concat (vocab_line print_float <$> recs)) <> 0)%N as Hne.
  { destruct recs as [|r recs]; [done|]. rewrite fmap_cons. cbn [concat]. rewrite size_app. unfold vocab_line.
    rewrite !size_app. change (size [ch_nl]) with 1%N. lia. }
  destruct (N.eqb_spec (size (concat (vocab_line print_float <$> recs))) 0); [done|].
  destruct (N.ltb_spec kMaxBpeVocabularyBytes (size (concat (vocab_line print_float <$> recs)))); [lia|].
  cbn [orb]. rewrite (getlines_vocab print_float parse_float) by done. rewrite (validate_loop_ok print_float parse_float) by (done || lia).
  destruct (N.eqb_spec (0 + size recs) 0); [lia|done].
Qed.

Definition demo_model : bytes := encode_varint 10 10 ++ encode_varint 10 9 ++ encode_piece "ab" 1065353216.

Lemma export_validates_witness :
  exists text, ExportSentencePieceVocabulary (fun _ => "0") [] (Ok 11%N) (Ok demo_model) = Ok text /\
    ValidateBpeVocabulary (fun _ => Some (S754_zero false)) [] (Ok (size text)) (Some text) true = Ok tt.
Proof.
  eexists. split; [vm_compute; reflexivity|].
  refine (export_validates (fun _ => "0") (fun _ => Some (S754_zero false)) [] [] (Ok 11%N) (Ok demo_model) _ _ _).
  - intros f _. split; [discriminate|]. split; [constructor; [vm_compute; intros Hin|constructor]|by eexists].
    repeat (apply elem_of_cons in Hin as [Hin|Hin]; [discriminate Hin|]). by apply elem_of_nil in Hin.
  - vm_compute. reflexivity.
Defined.
