(* ===== verification/ModelInstall.v ===== *)
(** * Installing a model (src/src/common/registry/registry_models.cpp, with
      src/src/common/utils/downloader.cpp)

    A registry entry is downloaded into a temporary directory below the model directory,
    verified, extracted, completed with its manifest and vocabulary, and only then put in
    the place of the old installation, which is kept until the new one is there. The HTTP
    client, libarchive, OpenSSL and the JSON library are parameters; the tree has no
    symbolic links below the model directory. *)

From S2P Require Import Prelude StringUtils FileSystem FileUtils Floats Json ConfigCodec Vocabulary ModelManager.
From Stdlib Require Import Ascii SpecFloat.

(** ** The registry *)

Record RemoteModelEntry := {
  re_id : bytes; re_short_id : bytes; re_urls : list bytes; re_sha256 : bytes; re_size_bytes : N;
  re_language : bytes; re_vinput_model : json }.

Definition entry_model_type (e : RemoteModelEntry) : bytes :=
  String (re_vinput_model e) "family" (String (re_vinput_model e) "model_type" []).
Definition entry_supports_hotwords (e : RemoteModelEntry) : bool := Bool (re_vinput_model e) "supports_hotwords" false.

(** [None]: a size for which the conversion is undefined. *)
Definition parse_entry (item : json) : option RemoteModelEntry :=
  size_bytes ← Int64 item "size_bytes" 0;
  Some {| re_id := String item "id" []; re_short_id := String item "short_id" []; re_size_bytes := to_u64 size_bytes;
          re_language := String item "language" [];
          re_urls := filter (fun u => u <> []) (Strings_at item "urls");
          re_sha256 := String item "sha256" []; re_vinput_model := default JNull (Find item "vinput_model") |}.

Definition usable (e : RemoteModelEntry) : bool := negb (is_empty (re_id e)) && negb (is_empty (re_urls e)).

Definition ParseRegistryJson `{Glaze} (content : bytes) : option (result (list RemoteModelEntry)) :=
  match read_tree content with
  | Err e => Some (Err ("failed to parse registry JSON: " ++ e))
  | Ok root =>
      match Find root "items" with
      | None => Some (Err "registry JSON is not an object or is missing array field 'items'")
      | Some (JArray items) => entries ← mapM parse_entry items; Some (Ok (List.filter usable entries))
      | Some _ => Some (Err "registry JSON is missing array field 'items'")
      end
  end.

(** The first entry with the id. *)
Definition find_entry (model_id : bytes) (entries : list RemoteModelEntry) : option RemoteModelEntry :=
  List.find (fun e => re_id e =b model_id) entries.

(** ** Downloads *)

Record HttpResponse := { status_code : Z; effective_url : bytes; error_message : bytes; cancelled : bool }.
Definition http_Ok (r : HttpResponse) : bool :=
  (200 <=? status_code r)%Z && (status_code r <? 300)%Z && is_empty (error_message r) && negb (cancelled r).

Record DownloadResult := { dr_ok : bool; dr_url : bytes; dr_code : Z; dr_error : bytes }.
Definition no_result : DownloadResult := {| dr_ok := false; dr_url := []; dr_code := 0; dr_error := [] |}.

Definition RequiresHttpStatusCheck (url : bytes) : bool := starts_with url "http://" || starts_with url "https://".

Definition PopulateResult (url : bytes) (res : HttpResponse) : DownloadResult :=
  let http_ok := if RequiresHttpStatusCheck url then (status_code res =? 200)%Z else true in
  let ok := http_Ok res && http_ok in
  {| dr_ok := ok; dr_url := if is_empty (effective_url res) then url else effective_url res; dr_code := status_code res;
     dr_error :=
       if ok then []
       else if cancelled res then "download cancelled"
       else if negb (is_empty (error_message res)) then "download failed: " ++ error_message res
       else if RequiresHttpStatusCheck url && negb (status_code res =? 200)%Z && negb (status_code res =? 0)%Z
       then "download failed with HTTP " ++ to_string (status_code res)
       else "download failed" |}.

(** What the cancel token shows each time it is read. *)
Record Token := { before_url : nat -> bool; after_url : nat -> bool; after_download : bool; before_commit : bool }.

(** The HTTP client: the response to the i-th request, and the file it has written. *)
Class HttpClient := { DownloadToFile : nat -> bytes -> HttpResponse; body_written : nat -> bytes -> bytes }.

(** Writing to a path; a directory cannot be opened for writing. *)
Definition save_at (p : path) (data : bytes) (w : World) : World :=
  match walk (fs w) p with
  | Some (Dir _) => w
  | _ => set_fs (graft p (Some (File data false)) (fs w)) w
  end.

(** [std::filesystem::remove]: a file or an empty directory. *)
Definition remove_entry (p : path) : node -> result node := fun t =>
  match walk t p with
  | Some (File _ _) => Ok (graft p None t)
  | Some (Dir m) => if decide (m = ∅) then Ok (graft p None t) else Err "Directory not empty"
  | None => Ok t
  end.

Fixpoint download_loop `{HttpClient} (token : Token) (dest : path) (i : nat) (urls : list bytes) (last_result : DownloadResult) (w : World)
  : DownloadResult * World :=
  match urls with
  | [] => (last_result, w)
  | url :: urls =>
      if before_url token i then
        ({| dr_ok := false; dr_url := url; dr_code := dr_code last_result; dr_error := "download cancelled" |}, w)
      else if is_empty url then download_loop token dest (S i) urls last_result w
      else
        let res := DownloadToFile i url in
        let w := save_at dest (body_written i url) w in
        let last_result := PopulateResult url res in
        if dr_ok last_result then (last_result, w)
        else if cancelled res || after_url token i then (last_result, w)
        else download_loop token dest (S i) urls last_result w
  end.

Definition DownloadFile `{HttpClient} (token : Token) (urls : list bytes) (dest : path) (w : World) : DownloadResult * World :=
  let '(result, w) := download_loop token dest 0 urls no_result w in
  if dr_ok result then (result, w) else (result, snd (call (remove_entry dest) w)).

(** ** Archives *)

Inductive entry_type := RegularEntry | DirectoryEntry | OtherEntry.
Record ArchiveEntry := {
  ae_pathname : option bytes; ae_type : entry_type; ae_link : bool; ae_size : N;
  ae_blocks : list bytes; ae_complete : bool }.

(** libarchive: the headers of an archive and how the iteration ends; what writing a header
    and a data block makes of the object at the entry's path. *)
Class Archive := {
  open_archive : bytes -> result (list ArchiveEntry * option bytes);
  write_header : ArchiveEntry -> option node -> result node;
  write_data : bytes -> node -> result node;
}.

(** The names a path resolves to where there are no links. *)
Definition real_names (p : path) : path := filter (fun n => dot_name n = false) p.
Definition has_dotdot (p : path) : bool := existsb (fun n => n =b "..") p.

Section extract.
Context `{Archive}.

Fixpoint write_blocks (p : path) (blocks : list bytes) (complete : bool) (w : World) : result unit * World :=
  match blocks with
  | [] => (if complete then Ok tt else Err "archive read error: ", w)
  | block :: blocks =>
      match walk (fs w) p with
      | None => (Err "failed to write data: ", w)
      | Some n => match write_data block n with
                  | Err e => (Err ("failed to write data: " ++ e), w)
                  | Ok n => write_blocks p blocks complete (set_fs (graft p (Some n) (fs w)) w)
                  end
      end
  end.

(** The checks on an entry before anything is written. *)
Definition check_entry (entry : ArchiveEntry) (entry_path : bytes) : result () :=
  if starts_with entry_path "/" then Err ("archive contains absolute path: " ++ entry_path)
  else if has_dotdot (name_list entry_path) then Err ("archive contains path traversal component: " ++ entry_path)
  else if ae_link entry then Err ("archive contains link entry: " ++ entry_path)
  else match ae_type entry with
       | OtherEntry => Err ("archive contains unsupported entry type: " ++ entry_path)
       | _ => Ok tt
       end.

Definition extract_entry (dest : path) (entry : ArchiveEntry) (entry_path : bytes) (w : World) : result unit * World :=
  match check_entry entry entry_path with
  | Err e => (Err e, w)
  | Ok _ =>
      let target := join (absolute dest) (to_fpath entry_path) in
      let full_dest := resolve_names target in
      let check_path := match ae_type entry with DirectoryEntry => full_dest | _ => resolve_names (parent_path target) end in
      match create_directories check_path w with
      | (Err e, w) => (Err ("failed to prepare extraction path: " ++ e), w)
      | (Ok _, w) =>
          if negb (IsPathWithinRoot (absolute check_path) (absolute dest)) then (Err ("archive entry escapes extraction root: " ++ entry_path), w)
          else
            match write_header entry (walk (fs w) full_dest) with
            | Err e => (Err ("failed to write header: " ++ e), w)
            | Ok n =>
                let w := set_fs (graft full_dest (Some n) (fs w)) w in
                if (0 <? ae_size entry)%N then write_blocks full_dest (ae_blocks entry) (ae_complete entry) w else (Ok tt, w)
            end
      end
  end.

Fixpoint extract_loop (dest : path) (entries : list ArchiveEntry) (ends : option bytes) (w : World) : result unit * World :=
  match entries with
  | [] => (match ends with None => Ok tt | Some e => Err ("archive iteration error: " ++ e) end, w)
  | entry :: entries =>
      match ae_pathname entry with
      | None => extract_loop dest entries ends w
      | Some entry_path =>
          match extract_entry dest entry entry_path w with
          | (Ok _, w) => extract_loop dest entries ends w
          | failed => failed
          end
      end
  end.

Definition ExtractArchive (archive dest : path) (w : World) : result unit * World :=
  match open_archive (default [] (read_file (fs w) archive)) with
  | Err e => (Err ("failed to open archive: " ++ e), w)
  | Ok (entries, ends) => extract_loop dest entries ends w
  end.
End extract.

(** ** Checks and completion *)

Definition kEmptyFileSha256 : bytes := "e3b0c44298fc1c149afbf4c8996fb92427ae41e4649b934ca495991b7852b855".

Section prepare.
Context {glaze : Glaze} {archive_library : Archive} {http : HttpClient}.
(** The hexadecimal SHA-256 of some data; JSON text with indentation; floats as text; the
    answers of the writes and the six characters of temporary names. *)
Context (sha256 : bytes -> bytes) (write_pretty : json -> option bytes).
Context (print_float : flt -> bytes) (parse_float : bytes -> option flt).
Context (answers : list write_answer) (suffix : bytes).
Context (leftover : node -> node).

Definition ComputeFileSha256 (t : node) (p : path) : result bytes :=
  match walk t p with
  | Some (File data _) => Ok (if is_empty data then kEmptyFileSha256 else sha256 data)
  | _ => Err ("failed to open file for SHA-256 calculation: " ++ show (absolute p))
  end.

Definition VerifySha256 (t : node) (file : path) (expected : bytes) : result unit :=
  if is_empty expected then Ok tt
  else match ComputeFileSha256 t file with
       | Err e => Err e
       | Ok hex => if hex =b expected then Ok tt else Err ("SHA256 mismatch: expected " ++ expected ++ ", got " ++ hex)
       end.

Definition ResolveInstallAssetPath (root : path) (raw_path : bytes) : result fpath :=
  let relative := to_fpath raw_path in
  if empty_path relative || rooted relative then Err ("model asset path must be relative: " ++ raw_path)
  else if has_dotdot (names relative) then Err ("model asset path escapes install root: " ++ raw_path)
  else Ok (lexically_normal (join (absolute root) relative)).

Definition LoadEffectiveModelManifest (t : node) (model_dir : path) : result json :=
  match walk t (model_dir ++ [manifest_name]) with
  | Some (File content _) =>
      match read_tree content with
      | Err e => Err ("failed to parse effective vinput-model.json: " ++ e)
      | Ok manifest => if is_object manifest then Ok manifest else Err "effective vinput-model.json must be a JSON object"
      end
  | _ => Ok JNull
  end.

Definition file_size_at (t : node) (p : path) : result N :=
  match walk t p with Some (File data _) => Ok (size data) | _ => Err "No such file or directory" end.
Definition map_at (t : node) (p : path) : result bytes :=
  match walk t p with Some (File data _) => Ok data | _ => Err "file does not exist or is inaccessible" end.

Definition ValidateAt (t : node) (p : path) : result unit :=
  ValidateBpeVocabulary parse_float (show (absolute p)) (file_size_at t p) (read_file t p) true.

Definition ExportAt (model vocab : path) (w : World) : result unit * World :=
  match ExportSentencePieceVocabulary print_float (show (absolute model)) (file_size_at (fs w) model) (map_at (fs w) model) with
  | Err e => (Err e, w)
  | Ok text =>
      match write_resolved vocab text suffix answers w with
      | (Err e, w) => (Err ("failed to write BPE vocabulary: " ++ e), w)
      | ok => ok
      end
  end.

(** The string at a field; [None] when it is missing, not a string or empty. *)
Definition text_field (object : json) (field : bytes) : option bytes :=
  match Find object field with Some (JString s) => if is_empty s then None else Some s | _ => None end.

Definition provision_vocabulary (model_dir : path) (model : json) (unit : bytes) (w : World) : result () * World :=
  match text_field model "bpe_vocab" with
  | None => (Err ("hotword modeling_unit '" ++ unit ++ "' requires model.bpe_vocab"), w)
  | Some vocab_field =>
      match ResolveInstallAssetPath model_dir vocab_field with
      | Err e => (Err e, w)
      | Ok vocab =>
          let vocab_path := real_names (names vocab) in
          if is_regular_file (fs w) vocab_path then (ValidateAt (fs w) vocab_path, w)
          else
            match text_field model "bpe_model" with
            | None => (Err "BPE vocabulary is missing and model.bpe_model is not declared", w)
            | Some bpe_model_field =>
                match ResolveInstallAssetPath model_dir bpe_model_field with
                | Err e => (Err e, w)
                | Ok bpe_model =>
                    let bpe_model_path := real_names (names bpe_model) in
                    if negb (is_regular_file (fs w) bpe_model_path) then (Err ("SentencePiece model not found: " ++ show bpe_model), w)
                    else match ExportAt bpe_model_path vocab_path w with
                         | (Err e, w) => (Err e, w)
                         | (Ok _, w) => (ValidateAt (fs w) vocab_path, w)
                         end
                end
            end
      end
  end.

Definition ProvisionBpeVocabulary (model_dir : path) (vinput_model : json) (w : World) : result () * World :=
  if negb (is_object vinput_model) then (Ok tt, w)
  else if negb (field_ok is_boolean (Find vinput_model "supports_hotwords")) then (Err "supports_hotwords must be a boolean", w)
  else if negb (Bool vinput_model "supports_hotwords" false) then (Ok tt, w)
  else
    match Find vinput_model "family" with
    | Some (JString family) =>
        if negb (family =b "transducer") && negb (family =b "nemo_transducer") then (Ok tt, w)
        else
          match Find vinput_model "model" with
          | Some (JObject members) =>
              match Find (JObject members) "modeling_unit" with
              | Some (JString unit) =>
                  if negb (bool_decide (unit ∈ ["cjkchar"; "bpe"; "bbpe"; "cjkchar+bpe"])) then (Err ("unsupported hotword modeling_unit: " ++ unit), w)
                  else if unit =b "cjkchar" then (Ok tt, w)
                  else provision_vocabulary model_dir (JObject members) unit w
              | _ => (Err "hotword-capable transducer requires model.modeling_unit", w)
              end
          | _ => (Err "hotword-capable transducer is missing object field model", w)
          end
    | _ => (Err "hotword-capable model is missing string field family", w)
    end.

(** ** Installation *)

(** The file name of the first URL, its query removed. *)
Definition archive_file_name (found : RemoteModelEntry) : bytes :=
  match re_urls found with
  | url :: _ =>
      match rfind_char url "/"%char with
      | Some pos =>
          if pos + 1 <? length url then
            let name := drop (S pos) url in
            match find_char name "?"%char with Some q => take q name | None => name end
          else re_id found ++ ".tar.gz"
      | None => re_id found ++ ".tar.gz"
      end
  | [] => re_id found ++ ".tar.gz"
  end.

(** Where [tmp_dir / archive_name] leads. *)
Definition archive_path (tmp_dir : path) (name : bytes) : path :=
  if dot_name name then tmp_dir else if name =b ".." then parent_of tmp_dir else tmp_dir ++ [name].

Fixpoint move_entries (from to : path) (entries : list bytes) (w : World) : World :=
  match entries with
  | [] => w
  | name :: entries => move_entries from to entries (snd (call (rename (from ++ [name]) (to ++ [name])) w))
  end.

Definition entry_names (m : gmap bytes node) : list bytes := fst <$> map_to_list m.

(** A single top-level directory is flattened; [None]: the iteration over a missing
    directory throws. *)
Definition flatten (tmp_dir extracted_dir : path) (w : World) : option World :=
  match walk (fs w) extracted_dir with
  | Some (Dir m) =>
      match map_to_list m with
      | [(single, Dir inner)] =>
          let flatten_tmp := tmp_dir ++ ["flatten"] in
          match call (rename (extracted_dir ++ [single]) flatten_tmp) w with
          | (Err _, w) => Some w
          | (Ok _, w) => Some (snd (remove_all leftover flatten_tmp (move_entries flatten_tmp extracted_dir (entry_names inner) w)))
          end
      | _ => Some w
      end
  | _ => None
  end.

(** [json_t::empty] *)
Definition json_empty (v : json) : bool :=
  match v with JNull => true | JString s => is_empty s | JArray l => is_empty l | JObject m => is_empty m | _ => false end.

Definition write_manifest (extracted_dir : path) (found : RemoteModelEntry) (w : World) : result () * World :=
  let model := re_vinput_model found in
  if json_empty model then (Ok tt, w)
  else if negb (is_object model) then (Err "registry field 'vinput_model' must be a JSON object", w)
  else match write_pretty model with
       | None => (Err "failed to serialize registry model metadata", w)
       | Some text =>
           match write_resolved (extracted_dir ++ [manifest_name]) (text ++ [ch_nl]) suffix answers w with
           | (Err e, w) => (Err ("failed to write vinput-model.json: " ++ e), w)
           | ok => ok
           end
       end.

Inductive outcome := Returned (r : result ()) | Threw.

(** Everything up to the replacement. [Returned (Ok _)]: the new model is complete. *)
Definition prepare (tmp_dir : path) (found : RemoteModelEntry) (token : Token) (w : World) : outcome * World :=
  let archive := archive_path tmp_dir (archive_file_name found) in
  let '(download_result, w) := DownloadFile token (re_urls found) archive w in
  if negb (dr_ok download_result) then
    (Returned (Err (if is_empty (dr_error download_result) then "download failed" else dr_error download_result)), w)
  else if after_download token then (Returned (Err "download cancelled"), w)
  else
    match VerifySha256 (fs w) archive (re_sha256 found) with
    | Err e => (Returned (Err e), w)
    | Ok _ =>
        let extracted_dir := tmp_dir ++ ["extracted"] in
        let w := snd (create_directories extracted_dir w) in
        match ExtractArchive archive extracted_dir w with
        | (Err e, w) => (Returned (Err e), w)
        | (Ok _, w) =>
            match flatten tmp_dir extracted_dir w with
            | None => (Threw, w)
            | Some w =>
                match write_manifest extracted_dir found w with
                | (Err e, w) => (Returned (Err e), w)
                | (Ok _, w) =>
                    match LoadEffectiveModelManifest (fs w) extracted_dir with
                    | Err e => (Returned (Err ("failed to prepare hotword assets: " ++ e)), w)
                    | Ok manifest =>
                        match ProvisionBpeVocabulary extracted_dir manifest w with
                        | (Err e, w) => (Returned (Err ("failed to prepare hotword assets: " ++ e)), w)
                        | (Ok _, w) => (Returned (Ok tt), w)
                        end
                    end
                end
            end
        end
    end.

Definition preserved_at (backup_dir : path) : bytes := "; previous installation preserved at: " ++ show (absolute backup_dir).

(** After a failure: the old installation goes back; when that fails too, the temporary
    directory is kept. *)
Definition roll_back (had_existing : bool) (backup_dir dest_dir : path) (error : bytes) (temp_dir : ScopedTempDir) (w : World)
  : result () * ScopedTempDir * World :=
  if had_existing then
    match call (rename backup_dir dest_dir) w with
    | (Err e, w) => (Err (error ++ "; rollback also failed: " ++ e ++ preserved_at backup_dir), ScopedTempDir_Dismiss temp_dir, w)
    | (Ok _, w) => (Err error, temp_dir, w)
    end
  else (Err error, temp_dir, w).

(** The replacement, by renames. *)
Definition commit (dest_dir extracted_dir backup_dir : path) (token : Token) (temp_dir : ScopedTempDir) (w : World)
  : result () * ScopedTempDir * World :=
  let had_existing := exists_at (fs w) dest_dir in
  if before_commit token then (Err "download cancelled", temp_dir, w)
  else
    let '(staged, w) := if had_existing then call (rename dest_dir backup_dir) w else (Ok tt, w) in
    match staged with
    | Err e => (Err ("failed to stage existing model for replacement: " ++ e), temp_dir, w)
    | Ok _ =>
        match create_directories (parent_of dest_dir) w with
        | (Err e, w) => roll_back had_existing backup_dir dest_dir ("failed to create model parent directory: " ++ e) temp_dir w
        | (Ok _, w) =>
            match call (rename extracted_dir dest_dir) w with
            | (Err e, w) => roll_back had_existing backup_dir dest_dir ("failed to activate new model installation: " ++ e) temp_dir w
            | (Ok _, w) => (Ok tt, temp_dir, w)
            end
        end
    end.

Definition InstallModelEntry (base_dir : path) (found : RemoteModelEntry) (token : Token) (dir_suffix : bytes) (w : World)
  : outcome * World :=
  match ScopedTempDir_Create base_dir ".tmp-" dir_suffix w with
  | (Err e, w) => (Returned (Err e), w)
  | (Ok temp_dir, w) =>
      let tmp_dir := td_path temp_dir in
      let '(outcome, temp_dir, w) :=
        match prepare tmp_dir found token w with
        | (Returned (Ok _), w) =>
            match RelativePathForId (re_id found) with
            | [] => (Returned (Err ("invalid model id: " ++ re_id found)), temp_dir, w)
            | relative =>
                let '(r, temp_dir, w) :=
                  commit (base_dir ++ relative) (tmp_dir ++ ["extracted"]) (tmp_dir ++ ["previous-install"]) token temp_dir w in
                (Returned r, temp_dir, w)
            end
        | (stopped, w) => (stopped, temp_dir, w)
        end in
      (outcome, ScopedTempDir_Remove leftover temp_dir w)
  end.

(** InstallModel, from the registry's answer: the fetched text, or the error of fetching. *)
Definition InstallModel (base_dir : path) (fetched : result bytes) (model_id : bytes) (cancelled_before : bool)
    (token : Token) (dir_suffix : bytes) (w : World) : option (outcome * World) :=
  match fetched with
  | Err e => Some (Returned (Err e), w)
  | Ok content =>
      entries ← ParseRegistryJson content;
      Some (match entries with
            | Err e => (Returned (Err e), w)
            | Ok entries =>
                match find_entry model_id entries with
                | None => (Returned (Err ("model not found in registry: " ++ model_id)), w)
                | Some found =>
                    if cancelled_before then (Returned (Err "download cancelled"), w)
                    else InstallModelEntry base_dir found token dir_suffix w
                end
            end)
  end.

End prepare.

(** ** What the preparation touches *)

Lemma filter_prefix_real (root : path) (l : path) : Forall plain_name root -> real_names (root ++ l) = root ++ real_names l.
Proof.
  intros Hr. unfold real_names. rewrite filter_app. f_equal. apply filter_id. eapply Forall_impl; [exact Hr|].
  intros n (H1 & H2 & _). cbn. unfold dot_name. by rewrite (bool_decide_eq_false_2 _ H2), (proj2 (is_empty_false n) H1).
Qed.

Lemma fold_dots_down b stack p : has_dotdot p = false -> fold_dots b stack p = stack ++ real_names p.
Proof.
  revert stack. induction p as [|n p IH]; intros stack Hp; [by rewrite app_nil_r|].
  cbn in Hp. apply orb_false_iff in Hp as [Hn Hp]. cbn [fold_dots]. unfold real_names. destruct (dot_name n) eqn:Ed.
  - rewrite filter_cons_False by congruence. by apply IH.
  - rewrite Hn, filter_cons_True by done. rewrite IH by done. by rewrite <-app_assoc.
Qed.

Lemma has_dotdot_plain root tail : Forall plain_name root -> has_dotdot tail = false -> has_dotdot (root ++ tail) = false.
Proof.
  intros Hroot Ht. unfold has_dotdot in *. rewrite existsb_app, Ht, orb_false_r. apply Bool.not_true_iff_false. rewrite existsb_exists.
  intros (n & Hn & Hb). apply bool_decide_eq_true in Hb as ->. rewrite Forall_forall in Hroot. apply list_elem_of_In in Hn. by destruct (Hroot _ Hn) as (_ & _ & ?).
Qed.

(** Joining a relative path. *)
Lemma join_below root q : Forall plain_name root -> root <> [] -> rooted q = false -> has_dotdot (names q) = false ->
  exists tail, join (absolute root) q = absolute (root ++ tail) /\ tail <> [] /\ has_dotdot tail = false.
Proof.
  intros Hroot Hne Hr Hd. unfold join. rewrite Hr. cbn [rooted names absolute].
  rewrite bool_decide_eq_false_2.
  2: { intros Hl%last_Some_elem_of. rewrite Forall_forall in Hroot. by destruct (Hroot _ Hl). }
  rewrite (proj2 (is_empty_false root) Hne). destruct (is_empty (names q)) eqn:Eq; cbn [negb andb].
  - exists [[]]. done.
  - exists (names q). split_and!; [done|by apply is_empty_false|done].
Qed.

Lemma resolve_below root tail : Forall plain_name root -> has_dotdot tail = false ->
  resolve_names (absolute (root ++ tail)) = root ++ real_names tail.
Proof.
  intros Hroot Ht. unfold resolve_names. cbn [names absolute]. rewrite fold_dots_down by (by apply has_dotdot_plain). by apply filter_prefix_real.
Qed.

Lemma has_dotdot_parent tail : has_dotdot tail = false -> has_dotdot (parent_of tail) = false.
Proof.
  unfold has_dotdot, parent_of. intros Ht. apply Bool.not_true_iff_false. rewrite existsb_exists. intros (n & Hn & Hb).
  apply Bool.not_true_iff_false in Ht. apply Ht, existsb_exists. exists n. split; [|done]. apply list_elem_of_In. apply list_elem_of_In in Hn.
  by apply (elem_of_take) in Hn as (i & Hn & _); apply list_elem_of_lookup_2 in Hn.
Qed.

(** A resolved asset lies below the root. *)
Lemma ResolveInstallAssetPath_below root raw p : Forall plain_name root -> root <> [] ->
  ResolveInstallAssetPath root raw = Ok p -> exists r, real_names (names p) = root ++ r.
Proof.
  intros Hroot Hne. unfold ResolveInstallAssetPath. destruct (empty_path _ || _) eqn:E1; [done|].
  destruct (has_dotdot _) eqn:E2; [done|]. intros [= <-]. apply orb_false_iff in E1 as [_ Er].
  destruct (join_below root _ Hroot Hne Er E2) as (tail & -> & Ht & Hd).
  unfold lexically_normal. cbn [empty_path rooted names negb andb absolute].
  rewrite fold_dots_down, app_nil_l, filter_prefix_real by (done || by apply has_dotdot_plain).
  destruct (is_empty _) eqn:E; [apply is_empty_true in E; by destruct root|].
  set (r := real_names tail). assert (Hr : real_names r = r).
  { unfold r, real_names. rewrite list_filter_filter. apply list_filter_iff. intros. tauto. }
  exists r. destruct (_ && _).
  - rewrite <-app_assoc, filter_prefix_real by done. f_equal. unfold real_names at 1. rewrite filter_app. fold (real_names r). by rewrite Hr, app_nil_r.
  - by rewrite filter_prefix_real, Hr by done.
Qed.

(** So do the paths an archive entry that passes the checks is written to. *)
Lemma check_entry_below dest entry entry_path : Forall plain_name dest -> dest <> [] -> check_entry entry entry_path = Ok tt ->
  dest `prefix_of` resolve_names (join (absolute dest) (to_fpath entry_path)) /\
  dest `prefix_of` resolve_names (parent_path (join (absolute dest) (to_fpath entry_path))).
Proof.
  intros Hdest Hne. unfold check_entry. destruct (starts_with entry_path "/") eqn:Es; [done|]. destruct (has_dotdot _) eqn:Ed; [done|]. intros _.
  destruct (join_below dest (to_fpath entry_path) Hdest Hne Es Ed) as (tail & -> & Ht & Hd).
  rewrite resolve_below by done. split; [by apply prefix_app_r|].
  assert (parent_path (absolute (dest ++ tail)) = absolute (dest ++ parent_of tail)) as ->.
  { destruct (exists_last Ht) as (l & x & ->). unfold parent_path, absolute. cbn [rooted names]. by rewrite app_assoc, !parent_snoc. }
  rewrite resolve_below by (done || by apply has_dotdot_parent). by apply prefix_app_r.
Qed.

Section stable.
Context {glaze : Glaze} {archive_library : Archive} {http : HttpClient}.
Context (sha256 : bytes -> bytes) (write_pretty : json -> option bytes).
Context (print_float : flt -> bytes) (parse_float : bytes -> option flt).
Context (answers : list write_answer) (suffix : bytes) (leftover : node -> node).
Context (P : node -> Prop) (tmp : path).
Hypothesis Htmp : Forall plain_name tmp.
Hypothesis Hne : tmp <> [].
Hypothesis Hmkdir : forall p t t', p `prefix_of` tmp \/ tmp `prefix_of` p -> P t -> mkdir p t = Ok t' -> P t'.
Hypothesis Hgraft : forall p o t, tmp `prefix_of` p -> P t -> P (graft p o t).
Hypothesis Hparent_save : forall data t, P t -> is_directory t (parent_of tmp) = false -> P (graft (parent_of tmp) (Some (File data false)) t).
Hypothesis Hparent_remove : forall t t', P t -> remove_entry (parent_of tmp) t = Ok t' -> P t'.

Lemma create_directories_stable p w : tmp `prefix_of` p -> always P w -> always P (snd (create_directories p w)).
Proof.
  intros Hp Hw. destruct (create_directories p w) as [r w'] eqn:Ec. apply (make_directories_always _ _ _ _ _ _ Ec Hw).
  intros q t t' Hq. apply Hmkdir. cbn in Hq. destruct (prefix_weak_total q tmp p Hq Hp); [by left|by right].
Qed.

Lemma write_below_stable target content w : (exists x r, target = tmp ++ x :: r) -> always P w ->
  always P (snd (write_resolved target content suffix answers w)).
Proof.
  intros (x & r & ->). apply write_resolved_stable.
  - intros p t t' Hp. apply Hmkdir. destruct (prefix_weak_total p tmp (tmp ++ x :: r) Hp); [by apply prefix_app_r|by left|by right].
  - intros o t. apply Hgraft. unfold temp_name. destruct (exists_last (l := x :: r)) as (r' & y & E); [done|]. rewrite E, app_assoc, parent_snoc.
    rewrite <-app_assoc. by apply prefix_app_r.
  - intros o t. apply Hgraft. by apply prefix_app_r.
Qed.

Lemma archive_path_cases name : archive_path tmp name = parent_of tmp \/ tmp `prefix_of` archive_path tmp name.
Proof. unfold archive_path. destruct (dot_name name); [by right|]. case_bool_decide; [by left|right; by apply prefix_app_r]. Qed.

Lemma save_at_stable name data w : always P w -> always P (save_at (archive_path tmp name) data w).
Proof.
  intros Hw. unfold save_at. destruct (archive_path_cases name) as [->|Hpre].
  - destruct (walk (fs w) (parent_of tmp)) as [[]|] eqn:E; [|done|]; (apply always_set; [done|]; apply Hparent_save; [apply Hw|unfold is_directory; by rewrite E]).
  - destruct (walk (fs w) (archive_path tmp name)) as [[]|]; [|done|]; (apply always_set; [done|]; apply Hgraft; [done|apply Hw]).
Qed.

Lemma DownloadFile_stable token urls name w : always P w -> always P (snd (DownloadFile token urls (archive_path tmp name) w)).
Proof.
  intros Hw. unfold DownloadFile.
  assert (Hl : forall i last, always P (snd (download_loop token (archive_path tmp name) i urls last w))).
  { clear -Hw Hgraft Hparent_save. revert w Hw. induction urls as [|url urls IH]; intros w Hw i last; [done|]. cbn [download_loop].
    destruct (before_url token i); [done|]. destruct (is_empty url); [by apply IH|].
    assert (Hs : always P (save_at (archive_path tmp name) (body_written i url) w)) by (by apply save_at_stable).
    cbv zeta. destruct (dr_ok _); [done|]. destruct (_ || _); [done|]. by apply IH. }
  specialize (Hl 0%nat no_result). destruct (download_loop _ _ _ _ _ _) as [r w1]. cbn [snd] in Hl. destruct (dr_ok r); [done|].
  apply call_stable; [done|]. intros t t' Ht. destruct (archive_path_cases name) as [->|Hpre]; [by apply Hparent_remove|].
  unfold remove_entry. destruct (walk t _) as [[|m]|]; [|case_decide; [|done]|]; intros [= <-]; [by apply Hgraft..|done].
Qed.

Lemma write_blocks_stable p blocks complete w : tmp `prefix_of` p -> always P w -> always P (snd (write_blocks p blocks complete w)).
Proof.
  intros Hp. revert w. induction blocks as [|b blocks IH]; intros w Hw; [done|]. cbn [write_blocks].
  destruct (walk (fs w) p) as [n|]; [|done]. destruct (write_data b n) as [n'|]; [|done]. apply IH. apply always_set; [done|]. apply Hgraft; [done|apply Hw].
Qed.

Lemma extract_entry_stable dest entry entry_path w : tmp `prefix_of` dest -> Forall plain_name dest -> dest <> [] ->
  always P w -> always P (snd (extract_entry dest entry entry_path w)).
Proof.
  intros Hd Hdp Hdn Hw. unfold extract_entry. destruct (check_entry entry entry_path) as [[]|] eqn:Ec; [|done].
  destruct (check_entry_below dest entry entry_path Hdp Hdn Ec) as [Hfull Hpar].
  set (target := join (absolute dest) (to_fpath entry_path)) in *. set (full_dest := resolve_names target) in *.
  set (check_path := match ae_type entry with DirectoryEntry => _ | _ => _ end).
  assert (Hc : tmp `prefix_of` check_path) by (etrans; [exact Hd|]; unfold check_path; by destruct (ae_type entry)).
  cbv zeta. pose proof (create_directories_stable check_path w Hc Hw) as H2. destruct (create_directories check_path w) as [[u|e] w1]; [|done].
  cbn [snd] in H2. destruct (negb _); [done|]. destruct (write_header _ _) as [n|]; [|done].
  assert (Hf : tmp `prefix_of` full_dest) by (etrans; [exact Hd|exact Hfull]).
  assert (H3 : always P (set_fs (graft full_dest (Some n) (fs w1)) w1)) by (apply always_set; [done|]; apply Hgraft; [done|apply H2]).
  destruct (0 <? ae_size entry)%N; [|done]. by apply write_blocks_stable.
Qed.

Lemma ExtractArchive_stable archive dest w : tmp `prefix_of` dest -> Forall plain_name dest -> dest <> [] ->
  always P w -> always P (snd (ExtractArchive archive dest w)).
Proof.
  intros Hd Hdp Hdn Hw. unfold ExtractArchive. destruct (open_archive _) as [[entries ends]|]; [|done].
  revert w Hw. induction entries as [|entry entries IH]; intros w Hw; [done|]. cbn [extract_loop].
  destruct (ae_pathname entry) as [entry_path|]; [|by apply IH]. pose proof (extract_entry_stable dest entry entry_path w Hd Hdp Hdn Hw) as H2.
  destruct (extract_entry dest entry entry_path w) as [[u|e] w1]; [by apply IH|done].
Qed.

Lemma rename_below_stable from to w : tmp `prefix_of` from -> tmp `prefix_of` to -> always P w -> always P (snd (call (rename from to) w)).
Proof. intros Hf Ht Hw. apply call_stable; [done|]. intros t t'. apply rename_stable; intros o t2; by apply Hgraft. Qed.

Lemma flatten_stable w w' : flatten leftover tmp (tmp ++ ["extracted"]) w = Some w' -> always P w -> always P w'.
Proof.
  unfold flatten. destruct (walk (fs w) _) as [[|m]|]; [done| |done]. intros Hf Hw.
  destruct (map_to_list m) as [|[single [|inner]] [|]]; try (by injection Hf as <-).
  assert (H1 : always P (snd (call (rename ((tmp ++ ["extracted"]) ++ [single]) (tmp ++ ["flatten"])) w))).
  { apply rename_below_stable; [rewrite <-app_assoc; by apply prefix_app_r|by apply prefix_app_r|done]. }
  destruct (call _ w) as [[u|e] w1]; injection Hf as <-; [|done]. cbn [snd] in H1.
  apply remove_all_always; [|intros o t; apply Hgraft; by apply prefix_app_r].
  generalize (entry_names inner) as l. intros l. revert w1 H1. induction l as [|n l IH]; intros w1 H1; [done|]. cbn [move_entries]. apply IH.
  apply rename_below_stable; [rewrite <-app_assoc; by apply prefix_app_r..|done].
Qed.

Lemma write_manifest_stable found w : always P w -> always P (snd (write_manifest write_pretty answers suffix (tmp ++ ["extracted"]) found w)).
Proof.
  intros Hw. unfold write_manifest. destruct (json_empty _); [done|]. destruct (negb _); [done|]. destruct (write_pretty _) as [text|]; [|done].
  pose proof (write_below_stable ((tmp ++ ["extracted"]) ++ [manifest_name]) (text ++ [ch_nl]) w ltac:(rewrite <-app_assoc; by eexists _, _) Hw) as H2.
  by destruct (write_resolved _ _ _ _ w) as [[u|e] w1].
Qed.

Lemma extracted_plain : Forall plain_name (tmp ++ ["extracted"]).
Proof. apply Forall_app. split; [done|]. by apply Forall_singleton. Qed.

Lemma ProvisionBpeVocabulary_stable manifest w :
  always P w -> always P (snd (ProvisionBpeVocabulary print_float parse_float answers suffix (tmp ++ ["extracted"]) manifest w)).
Proof.
  intros Hw. unfold ProvisionBpeVocabulary. destruct (negb _); [done|]. destruct (negb _); [done|]. destruct (negb _); [done|].
  destruct (Find manifest "family") as [[| |family| | |]|]; try done. destruct (_ && _); [done|].
  destruct (Find manifest "model") as [[| | | | |members]|]; try done. destruct (Find (JObject members) "modeling_unit") as [[| |unit| | |]|]; try done.
  destruct (negb _); [done|]. case_bool_decide; [done|]. unfold provision_vocabulary. destruct (text_field _ "bpe_vocab") as [vocab_field|]; [|done].
  destruct (ResolveInstallAssetPath _ vocab_field) as [vocab|] eqn:Ev; [|done]. cbv zeta.
  destruct (is_regular_file _ _); [done|]. destruct (text_field _ "bpe_model") as [model_field|]; [|done].
  destruct (ResolveInstallAssetPath _ model_field) as [bpe_model|]; [|done]. destruct (negb _); [done|].
  assert (Hx : always P (snd (ExportAt print_float answers suffix (real_names (names bpe_model)) (real_names (names vocab)) w))).
  { unfold ExportAt. destruct (ExportSentencePieceVocabulary _ _ _ _) as [text|]; [|done].
    destruct (ResolveInstallAssetPath_below _ _ _ extracted_plain ltac:(by destruct tmp) Ev) as [r Hr].
    pose proof (write_below_stable (real_names (names vocab)) text w ltac:(rewrite Hr, <-app_assoc; by eexists _, _) Hw) as H2.
    by destruct (write_resolved _ _ _ _ w) as [[u|e] w1]. }
  by destruct (ExportAt _ _ _ _ _ w) as [[u|e] w1].
Qed.

Lemma prepare_stable found token w :
  always P w -> always P (snd (prepare sha256 write_pretty print_float parse_float answers suffix leftover tmp found token w)).
Proof.
  intros Hw. unfold prepare. pose proof (DownloadFile_stable token (re_urls found) (archive_file_name found) w Hw) as H1.
  destruct (DownloadFile _ _ _ w) as [result w1]. cbn [snd] in H1. destruct (negb _); [done|]. destruct (after_download token); [done|].
  destruct (VerifySha256 _ _ _ _) as [u|]; [|done].
  assert (Hpre : tmp `prefix_of` (tmp ++ ["extracted"])) by (by apply prefix_app_r).
  pose proof (create_directories_stable _ w1 Hpre H1) as H2. cbv zeta. set (w2 := snd _) in *. clearbody w2.
  pose proof (ExtractArchive_stable (archive_path tmp (archive_file_name found)) _ w2 Hpre extracted_plain ltac:(by destruct tmp) H2) as H3.
  destruct (ExtractArchive _ _ w2) as [[u3|e3] w3]; [|done]. cbn [snd] in H3.
  destruct (flatten _ _ _ w3) as [w4|] eqn:E4; [|done]. pose proof (flatten_stable _ _ E4 H3) as H4.
  pose proof (write_manifest_stable found w4 H4) as H5. destruct (write_manifest _ _ _ _ _ w4) as [[u5|e5] w5]; [|done]. cbn [snd] in H5.
  destruct (LoadEffectiveModelManifest _ _) as [manifest|]; [|done].
  pose proof (ProvisionBpeVocabulary_stable manifest w5 H5) as H6. by destruct (ProvisionBpeVocabulary _ _ _ _ _ _ w5) as [[u6|e6] w6].
Qed.
End stable.

(** ** The replacement *)

Section transaction.
Context {glaze : Glaze} {archive_library : Archive} {http : HttpClient}.
Context (sha256 : bytes -> bytes) (write_pretty : json -> option bytes).
Context (print_float : flt -> bytes) (parse_float : bytes -> option flt).
Context (answers : list write_answer) (suffix : bytes) (leftover : node -> node).
Context (base : path) (found : RemoteModelEntry) (token : Token) (dir_suffix : bytes) (source name : bytes) (t0 : node).
Hypothesis Hbase : Forall plain_name base.
Hypothesis Hid : RelativePathForId (re_id found) = [source; name].

Definition temporary : path := base ++ [".tmp-" ++ dir_suffix].
Definition destination : path := base ++ [source; name].
Definition extracted : path := temporary ++ ["extracted"].
Definition backup : path := temporary ++ ["previous-install"].
Definition old : option node := walk t0 destination.

Lemma temporary_apart r : apart (temporary ++ r) destination.
Proof.
  destruct (model_id_roundtrip (re_id found) _ Hid ltac:(done)) as (_ & _ & Hh). inversion_clear Hh as [|? ? Hs _].
  unfold temporary, destination. rewrite <-app_assoc. apply apart_names. intros E. rewrite <-E in Hs. done.
Qed.

Lemma temporary_apart_nil : apart temporary destination.
Proof. pose proof (temporary_apart []) as Ha. by rewrite app_nil_r in Ha. Qed.

Lemma temporary_plain : Forall plain_name temporary.
Proof. apply Forall_app. split; [done|]. by apply Forall_singleton. Qed.

Lemma destination_nonempty : destination <> [].
Proof. unfold destination. by destruct base. Qed.

(** The destination is as it was. *)
Definition kept (t : node) : Prop := walk t destination = old.

Lemma kept_mkdir p t t' : p `prefix_of` temporary \/ temporary `prefix_of` p -> kept t -> mkdir p t = Ok t' -> kept t'.
Proof.
  intros Hp Ht Hm. unfold kept. rewrite (mkdir_keeps _ _ _ _ Hm); [done|]. intros Hx. destruct temporary_apart_nil as [A1 A2].
  destruct Hp as [Hp|Hp]; [apply A2; by etrans|]. destruct (prefix_weak_total temporary destination p Hp Hx); [by apply A1|by apply A2].
Qed.

Lemma kept_graft p o t : temporary `prefix_of` p -> kept t -> kept (graft p o t).
Proof. intros [r ->] Ht. unfold kept. rewrite walk_graft_apart; [done|]. apply temporary_apart. Qed.

Lemma temporary_parent : parent_of temporary = base.
Proof. apply parent_snoc. Qed.

(** Nothing is there, and nothing comes. *)
Lemma kept_base o t : kept t -> walk t destination = None ->
  match o with Some n => walk n [source; name] | None => None end = None -> kept (graft base o t).
Proof.
  intros Ht Hn Ho. unfold kept in *. destruct (walk_graft_below base o t [source; name]) as [E|E]; [|by rewrite E].
  unfold destination. by rewrite E, Ho, <-Ht.
Qed.

Lemma kept_save data t : kept t -> is_directory t (parent_of temporary) = false -> kept (graft (parent_of temporary) (Some (File data false)) t).
Proof.
  rewrite temporary_parent. intros Ht Hd. apply kept_base; [done| |done]. unfold destination. rewrite walk_app.
  unfold is_directory in Hd. by destruct (walk t base) as [[]|].
Qed.

Lemma kept_remove t t' : kept t -> remove_entry (parent_of temporary) t = Ok t' -> kept t'.
Proof.
  rewrite temporary_parent. intros Ht. unfold remove_entry. destruct (walk t base) as [[|m]|] eqn:E; [|case_decide as Em; [|done]|by intros [= <-]];
    intros [= <-]; apply kept_base; try done; unfold destination; rewrite walk_app, E; [done|]. cbn. by rewrite Em, lookup_empty.
Qed.

Lemma prepare_kept w : always kept w ->
  always kept (snd (prepare sha256 write_pretty print_float parse_float answers suffix leftover temporary found token w)).
Proof.
  apply prepare_stable; [apply temporary_plain|by unfold temporary; destruct base|apply kept_mkdir|apply kept_graft|apply kept_save|apply kept_remove].
Qed.

(** At every moment: the old installation in its place or in the backup, or the new one. *)
Definition secured (new : option node) (t : node) : Prop :=
  kept t \/ (walk t backup = old /\ is_Some old) \/ (walk t destination = new /\ is_Some new).

Lemma kept_secured new w : always kept w -> always (secured new) w.
Proof. intros Hw. apply (always_impl _ _ _ Hw). by left. Qed.

(** The old installation is in the backup, the new one ready. *)
Definition staged_at (new : option node) (had : bool) (t : node) : Prop :=
  walk t extracted = new /\ if had then walk t backup = old /\ is_Some old /\ walk t destination = None else kept t /\ old = None.

Lemma apart_extracted_backup : apart extracted backup.
Proof. by apply apart_names. Qed.

Lemma backup_nonempty : backup <> [].
Proof. unfold backup, temporary. by destruct base. Qed.

Lemma staged_secured new had t : staged_at new had t -> secured new t.
Proof. intros [_ Hs]. destruct had; [right; left; tauto|left; tauto]. Qed.

Lemma staged_mkdir new had p t t' : p `prefix_of` parent_of destination -> staged_at new had t -> mkdir p t = Ok t' -> staged_at new had t'.
Proof.
  intros Hp [He Hs] Hm.
  assert (Hd : p `prefix_of` base ++ [source]).
  { etrans; [exact Hp|]. unfold destination. change [source; name] with ([source] ++ [name]). by rewrite app_assoc, parent_snoc. }
  assert (Hk : forall q, ~ q `prefix_of` base ++ [source] -> walk t' q = walk t q).
  { intros q Hq. apply (mkdir_keeps _ _ _ _ Hm). intros Hx. apply Hq. by etrans. }
  assert (Ht : forall r, walk t' (temporary ++ r) = walk t (temporary ++ r)).
  { intros r. apply Hk. intros Hx. destruct (temporary_apart r) as [A _]. apply A. etrans; [exact Hx|]. unfold destination.
    change [source; name] with ([source] ++ [name]). rewrite app_assoc. by apply prefix_app_r. }
  assert (Hdest : walk t' destination = walk t destination).
  { apply Hk. unfold destination. intros [k Hk']. rewrite <-!app_assoc in Hk'. by apply app_inv_head in Hk'. }
  unfold staged_at, extracted, backup, kept in *. rewrite !Ht, Hdest. done.
Qed.

Lemma stage_spec w r w1 new : always kept w -> walk (fs w) extracted = new ->
  (if exists_at (fs w) destination then call (rename destination backup) w else (Ok tt, w)) = (r, w1) ->
  match r with
  | Ok _ => always (secured new) w1 /\ staged_at new (exists_at (fs w) destination) (fs w1)
  | Err _ => always kept w1
  end.
Proof.
  intros Hw Hn. unfold exists_at. destruct Hw as [Hk Hs]. pose proof Hk as Hk'. unfold kept in Hk'. case_bool_decide as Ex.
  - intros Hc. destruct (call_cases _ _ _ _ Hc) as [(e & -> & Hfs & Hse)|(-> & t & Ht & Hfs & Hse)].
    + unfold always, so_far. by rewrite Hfs, Hse.
    + assert (Ha : apart destination backup) by (apply apart_sym, temporary_apart). destruct Ex as [o Ho].
      destruct (rename_moves _ _ _ _ _ Ht Ha Ho) as [Hm1 Hm2].
      assert (Hst : staged_at new true t).
      { split; [|split_and!].
        - rewrite <-Hn. apply (rename_frame _ _ _ _ _ Ht); [apply apart_sym, temporary_apart|apply apart_sym, apart_extracted_backup].
        - by rewrite Hm1, <-Hk', Ho.
        - by rewrite <-Hk', Ho.
        - apply Hm2. by apply (exists_has_parent _ _ _ Ho), destination_nonempty. }
      rewrite Hfs. split; [|done]. unfold always, so_far. rewrite Hfs, Hse. apply staged_secured in Hst. split; [done|]. apply Forall_app. split; [|by apply Forall_singleton].
      eapply Forall_impl; [exact Hs|]. by left.
  - intros [= <- <-]. split; [by apply kept_secured|]. split; [done|]. split; [done|]. rewrite <-Hk'. by apply eq_None_not_Some.
Qed.

Lemma roll_back_spec new had error temp w r temp' w' :
  roll_back had backup destination error temp w = (r, temp', w') -> always (secured new) w -> staged_at new had (fs w) ->
  always (secured new) w' /\ exists e, r = Err e /\
    (kept (fs w') /\ temp' = temp \/
     walk (fs w') backup = old /\ is_Some old /\ temp' = ScopedTempDir_Dismiss temp /\ exists m, e = m ++ preserved_at backup).
Proof.
  unfold roll_back. intros Hr Hw [He Hs]. destruct had.
  - destruct Hs as (Hb & [o Ho] & Hd). destruct (call (rename backup destination) w) as [r1 w1] eqn:Ec.
    assert (Ha : apart backup destination) by apply temporary_apart.
    destruct (call_cases _ _ _ _ Ec) as [(e & -> & Hfs & Hse)|(-> & t & Ht & Hfs & Hse)]; injection Hr as <- <- <-.
    + split; [unfold always, so_far; by rewrite Hfs, Hse|]. eexists. split; [done|]. right. rewrite Hfs. split_and!; [done|by exists o|done|].
      exists (error ++ "; rollback also failed: " ++ e). by rewrite <-!app_assoc.
    + destruct (rename_moves _ _ _ _ _ Ht Ha (eq_trans Hb Ho)) as [Hm _]. assert (Hk : kept t) by (unfold kept; by rewrite Hm, Ho).
      split; [|eexists; split; [done|]; left; by rewrite Hfs].
      apply (call_always _ _ _ _ _ Ec Hw). intros t' Ht'. left. assert (t' = t) as -> by congruence. done.
  - injection Hr as <- <- <-. split; [done|]. eexists. split; [done|]. left. by destruct Hs.
Qed.

Lemma commit_spec temp w r temp' w' new :
  commit destination extracted backup token temp w = (r, temp', w') -> always kept w -> walk (fs w) extracted = new ->
  always (secured new) w' /\
  match r with
  | Ok _ => walk (fs w') destination = new /\ is_Some new /\ temp' = temp
  | Err e => kept (fs w') /\ temp' = temp \/
             walk (fs w') backup = old /\ is_Some old /\ temp' = ScopedTempDir_Dismiss temp /\ exists m, e = m ++ preserved_at backup
  end.
Proof.
  unfold commit. intros Hc Hw Hn. destruct (before_commit token).
  { injection Hc as <- <- <-. split; [by apply kept_secured|]. left. split; [apply Hw|done]. }
  destruct (if exists_at (fs w) destination then _ else _) as [r1 w1] eqn:E1. pose proof (stage_spec _ _ _ _ Hw Hn E1) as H1.
  set (had := exists_at (fs w) destination) in *. clearbody had. destruct r1 as [u1|e1].
  2: { injection Hc as <- <- <-. split; [by apply kept_secured|]. left. split; [apply H1|done]. }
  destruct H1 as [H1 Hst1]. destruct (create_directories (parent_of destination) w1) as [r2 w2] eqn:E2.
  assert (H2 : staged_at new had (fs w2) /\ Forall (secured new) (seen w2)).
  { apply (make_directories_so_far _ _ _ _ _ _ _ E2 (conj Hst1 (proj2 H1)) (staged_secured new had)). intros p t t'. apply staged_mkdir. }
  destruct H2 as [Hst2 Hse2]. assert (H2 : always (secured new) w2) by (split; [by eapply staged_secured|done]).
  assert (Hback : forall w3 e r3 temp3 w4, roll_back had backup destination e temp w3 = (r3, temp3, w4) ->
    fs w3 = fs w2 -> seen w3 = seen w2 -> r = r3 -> temp' = temp3 -> w' = w4 ->
    always (secured new) w' /\ match r with
      | Ok _ => walk (fs w') destination = new /\ is_Some new /\ temp' = temp
      | Err e => kept (fs w') /\ temp' = temp \/
                 walk (fs w') backup = old /\ is_Some old /\ temp' = ScopedTempDir_Dismiss temp /\ exists m, e = m ++ preserved_at backup
      end).
  { intros w3 e r3 temp3 w4 Hb Hfs Hse -> -> ->.
    destruct (roll_back_spec new _ _ _ _ _ _ _ Hb) as [Hal (e' & -> & Hcase)]; [unfold always, so_far; by rewrite Hfs, Hse|by rewrite Hfs|done]. }
  destruct r2 as [u2|e2]; [|by eapply (Hback w2); [exact Hc|..]].
  destruct (call (rename extracted destination) w2) as [r3 w3] eqn:E3.
  destruct (call_cases _ _ _ _ E3) as [(e & -> & Hfs & Hse)|(-> & t & Ht & Hfs & Hse)]; [by eapply (Hback w3); [exact Hc|..]|].
  injection Hc as <- <- <-.
  assert (Hnew : walk t destination = new /\ is_Some new).
  { destruct Hst2 as [He _]. assert (exists n, walk (fs w2) extracted = Some n) as [n En].
    { revert Ht. unfold rename. destruct (walk (fs w2) extracted); [by eauto|done]. }
    destruct (rename_moves _ _ _ _ _ Ht (temporary_apart _) En) as [Hm _]. rewrite <-He, En. split; [exact Hm|done]. }
  split; [|rewrite Hfs; tauto].
  apply (call_always _ _ _ _ _ E3 H2). intros t' Ht'. assert (t' = t) as -> by congruence. right. by right.
Qed.

(** ** The whole installation *)

Lemma remove_secured new d w : always (secured new) w -> td_path d = temporary ->
  (td_active d = true -> kept (fs w) \/ walk (fs w) destination = new /\ is_Some new) ->
  always (secured new) (ScopedTempDir_Remove leftover d w) /\
  (td_active d = true -> walk (fs (ScopedTempDir_Remove leftover d w)) destination = walk (fs w) destination).
Proof.
  intros Hw Hp Hact. unfold ScopedTempDir_Remove. rewrite Hp. destruct (td_active d); [|done]. cbn [andb].
  destruct (negb _); [|done]. specialize (Hact eq_refl).
  assert (Hal : always (fun t => walk t destination = walk (fs w) destination) (snd (remove_all leftover temporary {| fs := fs w; faults := faults w; seen := [] |}))).
  { apply remove_all_always; [by split; [|constructor]|]. intros o t Ht. rewrite walk_graft_apart; [done|apply temporary_apart_nil]. }
  assert (Hfs : fs (snd (remove_all leftover temporary w)) = fs (snd (remove_all leftover temporary {| fs := fs w; faults := faults w; seen := [] |})) /\
    exists extra, seen (snd (remove_all leftover temporary w)) = seen w ++ extra /\
      seen (snd (remove_all leftover temporary {| fs := fs w; faults := faults w; seen := [] |})) = extra).
  { unfold remove_all. cbn [fs]. destruct (walk (fs w) temporary); [|split; [done|]; exists []; by rewrite app_nil_r].
    unfold next_fault. cbn. destruct (faults w) as [|[] ?]; cbn; (split; [done|]); eexists; (split; [|done]); by rewrite <-?app_assoc. }
  destruct Hfs as (Hfs & extra & Hse & Hse'). destruct Hal as [Hal1 Hal2]. rewrite Hse' in Hal2.
  assert (Hk : forall t, walk t destination = walk (fs w) destination -> secured new t).
  { intros t Ht. unfold secured, kept. rewrite Ht. destruct Hact as [Hk|Hk]; [by left|right; by right]. }
  split; [|intros _; by rewrite Hfs, Hal1]. split; [rewrite Hfs; by apply Hk|]. rewrite Hse. apply Forall_app. split; [apply Hw|].
  eapply Forall_impl; [exact Hal2|exact Hk].
Qed.

(** The tree the preparation has made ready, starting from the new temporary directory. *)
Definition made_ready (new : node) : Prop :=
  exists w1 w2, prepare sha256 write_pretty print_float parse_float answers suffix leftover temporary found token w1 = (Returned (Ok tt), w2) /\
    walk (fs w2) extracted = Some new.

Lemma InstallModelEntry_spec w out w' :
  InstallModelEntry sha256 write_pretty print_float parse_float answers suffix leftover base found token dir_suffix w = (out, w') ->
  always kept w -> exists new, (forall n, new = Some n -> made_ready n) /\ always (secured new) w' /\
    match out with
    | Returned (Ok _) => walk (fs w') destination = new /\ is_Some new
    | Returned (Err e) => kept (fs w') \/ (walk (fs w') backup = old /\ is_Some old /\ exists m, e = m ++ preserved_at backup)
    | Threw => kept (fs w')
    end.
Proof.
  unfold InstallModelEntry, ScopedTempDir_Create. intros Hi Hw.
  destruct (create_directories base w) as [r1 w1] eqn:E1.
  assert (H1 : always kept w1).
  { apply (make_directories_always _ _ _ _ _ _ E1 Hw). intros p t t' Hp. apply kept_mkdir. left. etrans; [exact Hp|]. by apply prefix_app_r. }
  destruct r1 as [u1|e1].
  2: { injection Hi as <- <-. exists None. split; [done|]. split; [by apply kept_secured|]. left. apply H1. }
  fold temporary in Hi. destruct (call (mkdir temporary) w1) as [r2 w2] eqn:E2.
  assert (H2 : always kept w2) by (apply (call_always _ _ _ _ _ E2 H1); intros t; apply kept_mkdir; [by left|apply H1]).
  destruct r2 as [u2|e2].
  2: { injection Hi as <- <-. exists None. split; [done|]. split; [by apply kept_secured|]. left. apply H2. }
  cbn [td_path] in Hi. pose proof (prepare_kept w2 H2) as H3.
  destruct (prepare _ _ _ _ _ _ _ temporary found token w2) as [o w3] eqn:E3. cbn [snd] in H3.
  set (temp := {| td_path := temporary; td_active := true |}) in Hi.
  assert (Hkeep : forall o', (o', ScopedTempDir_Remove leftover temp w3) = (out, w') -> (forall u, o' <> Returned (Ok u)) ->
    exists new : option node, (forall n, new = Some n -> made_ready n) /\ always (secured new) w' /\
    match out with
    | Returned (Ok _) => walk (fs w') destination = new /\ is_Some new
    | Returned (Err e) => kept (fs w') \/ (walk (fs w') backup = old /\ is_Some old /\ exists m, e = m ++ preserved_at backup)
    | Threw => kept (fs w')
    end).
  { intros o' [= -> <-] Ho. exists None. split; [done|].
    destruct (remove_secured None temp w3 (kept_secured None w3 H3) eq_refl) as [Hr1 Hr2]; [intros _; left; apply H3|].
    split; [done|]. assert (kept (fs (ScopedTempDir_Remove leftover temp w3))) as Hk by (unfold kept; rewrite (Hr2 eq_refl); apply H3).
    destruct out as [[[]|e]|]; [by destruct (Ho tt)|by left|done]. }
  destruct o as [[[]|e3]|]; [|by apply (Hkeep _ Hi)|by apply (Hkeep _ Hi)].
  rewrite Hid in Hi. fold destination extracted backup in Hi.
  destruct (commit destination extracted backup token temp w3) as [[r temp'] w4] eqn:E4. injection Hi as <- <-.
  exists (walk (fs w3) extracted). split; [intros n Hn; by exists w2, w3|].
  destruct (commit_spec _ _ _ _ _ _ E4 H3 eq_refl) as [Hs Hr].
  destruct r as [u|e].
  - destruct Hr as (Hd & Hn & ->). destruct (remove_secured _ temp w4 Hs eq_refl) as [R1 R2]; [by right|]. split; [done|]. by rewrite (R2 eq_refl).
  - destruct Hr as [[Hk ->]|(Hb & Ho & -> & m & Hm)].
    + destruct (remove_secured _ temp w4 Hs eq_refl) as [R1 R2]; [by left|]. split; [done|]. left. unfold kept. by rewrite (R2 eq_refl).
    + split; [done|]. right. split_and!; [done|done|by exists m].
Qed.
End transaction.

(** ** What a prepared model is *)

Section prepared.
Context {glaze : Glaze} {archive_library : Archive} {http : HttpClient}.
Context (sha256 : bytes -> bytes) (write_pretty : json -> option bytes).
Context (print_float : flt -> bytes) (parse_float : bytes -> option flt).
Context (answers : list write_answer) (suffix : bytes) (leftover : node -> node).

Definition digest (data : bytes) : bytes := if is_empty data then kEmptyFileSha256 else sha256 data.

Lemma VerifySha256_Ok t p expected : VerifySha256 sha256 t p expected = Ok tt -> expected <> [] ->
  exists data b, walk t p = Some (File data b) /\ digest data = expected.
Proof.
  unfold VerifySha256, ComputeFileSha256. intros Hv Hne. rewrite (proj2 (is_empty_false _) Hne) in Hv.
  destruct (walk t p) as [[data b|]|]; [|done|done]. case_bool_decide as E; [|done]. by exists data, b.
Qed.

Lemma create_directories_file p w q data b :
  walk (fs w) q = Some (File data b) -> walk (fs (snd (create_directories p w))) q = Some (File data b).
Proof.
  intros Hq. destruct (create_directories p w) as [r w'] eqn:Ec.
  apply (make_directories_so_far (fun t => walk t q = Some (File data b)) (fun _ => True) _ _ _ _ _ Ec); [split; [done|by apply Forall_true]|done|].
  intros p' t t' _ Ht Hm. by apply (mkdir_file _ _ _ _ _ _ Hm).
Qed.

(** Completing the vocabulary leaves the other files as they are. *)
Lemma ProvisionBpeVocabulary_file dir manifest w q data b : Forall plain_name dir -> dir <> [] ->
  walk (fs w) q = Some (File data b) ->
  walk (fs (snd (ProvisionBpeVocabulary print_float parse_float answers suffix dir manifest w))) q = Some (File data b).
Proof.
  intros Hdir Hne Hq. unfold ProvisionBpeVocabulary. destruct (negb _); [done|]. destruct (negb _); [done|]. destruct (negb _); [done|].
  destruct (Find manifest "family") as [[| |family| | |]|]; try done. destruct (_ && _); [done|].
  destruct (Find manifest "model") as [[| | | | |members]|]; try done. destruct (Find (JObject members) "modeling_unit") as [[| |unit| | |]|]; try done.
  destruct (negb _); [done|]. case_bool_decide; [done|]. unfold provision_vocabulary. destruct (text_field _ "bpe_vocab") as [vocab_field|]; [|done].
  destruct (ResolveInstallAssetPath _ vocab_field) as [vocab|] eqn:Ev; [|done]. cbv zeta.
  destruct (is_regular_file _ _) eqn:Er; [done|]. destruct (text_field _ "bpe_model") as [model_field|]; [|done].
  destruct (ResolveInstallAssetPath _ model_field) as [bpe_model|]; [|done]. destruct (negb _); [done|].
  assert (Hx : walk (fs (snd (ExportAt print_float answers suffix (real_names (names bpe_model)) (real_names (names vocab)) w))) q = Some (File data b)).
  { unfold ExportAt. destruct (ExportSentencePieceVocabulary _ _ _ _) as [text|]; [|done].
    destruct (ResolveInstallAssetPath_below _ _ _ Hdir Hne Ev) as [r Hr].
    destruct (write_resolved _ _ _ _ w) as [r1 w1] eqn:Ew.
    assert (walk (fs w1) q = Some (File data b)); [|by destruct r1].
    eapply write_resolved_other; [|exact Ew| |exact Hq]; [rewrite Hr; by destruct dir|].
    intros ->. unfold is_regular_file in Er. by rewrite Hq in Er. }
  by destruct (ExportAt _ _ _ _ _ w) as [[u|e] w1].
Qed.

Lemma prepare_complete tmp found token w w' : Forall plain_name tmp -> tmp <> [] ->
  prepare sha256 write_pretty print_float parse_float answers suffix leftover tmp found token w = (Returned (Ok tt), w') ->
  (re_sha256 found <> [] -> exists w1 data,
     read_file (fs w1) (archive_path tmp (archive_file_name found)) = Some data /\ digest data = re_sha256 found /\
     fst (ExtractArchive (archive_path tmp (archive_file_name found)) (tmp ++ ["extracted"]) w1) = Ok tt) /\
  (json_empty (re_vinput_model found) = false -> exists text, write_pretty (re_vinput_model found) = Some text /\
     walk (fs w') ((tmp ++ ["extracted"]) ++ [manifest_name]) = Some (File (text ++ [ch_nl]) true)).
Proof.
  intros Htmp Hne. unfold prepare. destruct (DownloadFile _ _ _ w) as [result w1]. destruct (negb _); [done|]. destruct (after_download token); [done|].
  destruct (VerifySha256 _ _ _ _) as [[]|] eqn:Ev; [|done]. cbv zeta.
  set (w2 := snd (create_directories (tmp ++ ["extracted"]) w1)).
  assert (Hfile : forall data b q, walk (fs w1) q = Some (File data b) -> walk (fs w2) q = Some (File data b)) by (intros; by apply create_directories_file).
  clearbody w2. destruct (ExtractArchive _ _ w2) as [[u3|e3] w3] eqn:E3; [|done]. destruct (flatten _ _ _ w3) as [w4|]; [|done].
  destruct (write_manifest _ _ _ _ _ w4) as [[u5|e5] w5] eqn:E5; [|done]. destruct (LoadEffectiveModelManifest _ _) as [manifest|]; [|done].
  destruct (ProvisionBpeVocabulary _ _ _ _ _ _ w5) as [[u6|e6] w6] eqn:E6; [|done]. intros [= <-]. split.
  - intros Hs. destruct (VerifySha256_Ok _ _ _ Ev Hs) as (data & b & Hd & Hh). exists w2, data. unfold read_file. rewrite (Hfile _ _ _ Hd), E3. by destruct u3.
  - intros Hj. revert E5. unfold write_manifest. rewrite Hj. destruct (negb _); [done|]. destruct (write_pretty _) as [text|]; [|done]. intros E5.
    exists text. split; [done|]. destruct (write_resolved _ _ _ _ w4) as [[u|e] w5'] eqn:Ew; [|done]. injection E5 as _ <-.
    assert (Hx : tmp ++ ["extracted"] <> []) by (by destruct tmp).
    assert (Hm : walk (fs w5') ((tmp ++ ["extracted"]) ++ [manifest_name]) = Some (File (text ++ [ch_nl]) true))
      by (eapply write_resolved_replaces; [|exact Ew]; by destruct tmp).
    pose proof (ProvisionBpeVocabulary_file (tmp ++ ["extracted"]) manifest w5' _ _ _ (extracted_plain tmp Htmp) Hx Hm) as Hp.
    by rewrite E6 in Hp.
Qed.


(** A model that was installed has the digest and the manifest the registry gives, and is
    among the installed models. *)
Theorem installed_model_listed base found token dir_suffix source name t0 fl w' :
  Forall plain_name base -> RelativePathForId (re_id found) = [source; name] ->
  InstallModelEntry sha256 write_pretty print_float parse_float answers suffix leftover base found token dir_suffix
    {| fs := t0; faults := fl; seen := [] |} = (Returned (Ok tt), w') ->
  json_empty (re_vinput_model found) = false ->
  re_id found ∈ ListModels (fs w') base /\
  (exists text, write_pretty (re_vinput_model found) = Some text /\
     walk (fs w') (base ++ [source; name; manifest_name]) = Some (File (text ++ [ch_nl]) true)) /\
  (re_sha256 found <> [] -> exists w1 archive data, read_file (fs w1) archive = Some data /\ digest data = re_sha256 found /\
     fst (ExtractArchive archive (extracted base dir_suffix) w1) = Ok tt).
Proof.
  intros Hb Hid Hi Hj.
  destruct (InstallModelEntry_spec sha256 write_pretty print_float parse_float answers suffix leftover base found token dir_suffix source name t0 Hb Hid _ _ _ Hi)
    as (new & H1 & _ & Hd & [n ->]); [by split; [|constructor]|].
  destruct (H1 n eq_refl) as (w1 & w2 & Hp & Hn).
  destruct (prepare_complete (temporary base dir_suffix) found token w1 w2) as [Hsha Hman]; [by apply temporary_plain|by unfold temporary; destruct base|done|].
  destruct (Hman Hj) as (text & Ht & Hw). fold (extracted base dir_suffix) in Hw. rewrite walk_app, Hn in Hw.
  assert (Hm : walk (fs w') (base ++ [source; name; manifest_name]) = Some (File (text ++ [ch_nl]) true)).
  { change [source; name; manifest_name] with ([source; name] ++ [manifest_name]). rewrite app_assoc, walk_app. unfold destination in Hd. by rewrite Hd. }
  split_and!.
  - by apply (proj2 (list_models_spec (fs w') base) (re_id found) [source; name] (text ++ [ch_nl]) true Hid).
  - by exists text.
  - intros Hs. destruct (Hsha Hs) as (w3 & data & H4 & H5 & H6). by exists w3, (archive_path (temporary base dir_suffix) (archive_file_name found)), data.
Qed.
End prepared.

(** ** Examples *)

Definition demo_json : Glaze :=
  {| write_config := fun _ => None; read_tree := fun _ => Ok (JObject [("family", JString "zipformer")]);
     write_tree := fun _ => None; read_registry := fun _ => None; read_global := fun _ => None;
     read_llm := fun _ => None; read_scenes := fun _ => None; read_asr := fun _ => None; read_clients := fun _ => None |}.

(** An archive with one directory and a file in it. *)
Definition demo_archive : Archive :=
  {| open_archive := fun _ => Ok ([ {| ae_pathname := Some "zip/"; ae_type := DirectoryEntry; ae_link := false; ae_size := 0; ae_blocks := []; ae_complete := true |};
                                    {| ae_pathname := Some "zip/tokens.txt"; ae_type := RegularEntry; ae_link := false; ae_size := 4; ae_blocks := ["to"; "ks"]; ae_complete := true |} ], None);
     write_header := fun e old => Ok (match ae_type e with RegularEntry => File [] false | _ => default (Dir ∅) old end);
     write_data := fun block n => match n with File data b => Ok (File (data ++ block) b) | Dir _ => Err "Is a directory" end |}.

Definition demo_http : HttpClient :=
  {| DownloadToFile := fun _ _ => {| status_code := 200; effective_url := []; error_message := []; cancelled := false |};
     body_written := fun _ _ => "archive" |}.

Definition demo_entry : RemoteModelEntry :=
  {| re_id := "model.sherpa.zip"; re_short_id := "zip"; re_urls := ["https://host/zip.tar.gz?x=1"]; re_sha256 := "digest";
     re_size_bytes := 7; re_language := "zh"; re_vinput_model := JObject [("family", JString "zipformer")] |}.

Definition calm : Token := {| before_url := fun _ => false; after_url := fun _ => false; after_download := false; before_commit := false |}.

Definition installed_before : node := Dir {[ "models" := Dir {[ "sherpa" := Dir {[ "zip" := Dir {[ "old" := File "old" true ]} ]} ]} ]}.

Definition demo_install (fl : list (option bytes)) : outcome * World :=
  InstallModelEntry (glaze := demo_json) (archive_library := demo_archive) (http := demo_http) (fun _ => "digest") (fun _ => Some "{}")
    (fun _ => "0") (fun _ => None) [Wrote 1; Interrupted] "aaaaaa" (fun n => n) ["models"] demo_entry calm "bbbbbb"
    {| fs := installed_before; faults := fl; seen := [] |}.

Example install_succeeds : fst (demo_install []) = Returned (Ok tt) /\
  walk (fs (snd (demo_install []))) ["models"] = Some (Dir {[ "sherpa" := Dir {[ "zip" :=
    Dir (<[ "tokens.txt" := File "toks" false ]> {[ "vinput-model.json" := File ("{}" ++ [ch_nl]) true ]}) ]} ]}).
Proof. split; vm_compute; reflexivity. Qed.

(** The activation and the rollback fail: the old model is kept in the temporary directory. *)
Definition failing_install : outcome * World := demo_install (replicate 10 None ++ [Some "EIO"; Some "EIO"]).
Example install_rolls_back : walk (fs (snd failing_install)) ["models"; ".tmp-bbbbbb"; "previous-install"; "old"] = Some (File "old" true) /\
  walk (fs (snd failing_install)) ["models"; "sherpa"; "zip"] = None.
Proof. split; vm_compute; reflexivity. Qed.


Lemma installed_model_listed_witness : ("model.sherpa.zip" : bytes) ∈ ListModels (fs (snd (demo_install []))) ["models"].
Proof.
  apply (installed_model_listed (glaze := demo_json) (archive_library := demo_archive) (http := demo_http) (fun _ => "digest") (fun _ => Some "{}")
    (fun _ => "0") (fun _ => None) [Wrote 1; Interrupted] "aaaaaa" (fun n => n) ["models"] demo_entry calm "bbbbbb" "sherpa" "zip"
    installed_before [] (snd (demo_install []))).
  - apply Forall_singleton. split_and!; discriminate.
  - vm_compute. reflexivity.
  - assert (fst (demo_install []) = Returned (Ok tt)) as E by (vm_compute; reflexivity). rewrite <-E. apply (surjective_pairing (demo_install [])).
  - reflexivity.
Defined.

(** The errors of the renames that flatten a single directory are ignored, and what was not
    moved is deleted: one failing rename, and the installation succeeds without the file. *)
Theorem flatten_drops_files :
  fst (demo_install (replicate 4 None ++ [Some "EIO"])) = Returned (Ok tt) /\
  walk (fs (snd (demo_install (replicate 4 None ++ [Some "EIO"])))) ["models"; "sherpa"; "zip"; "tokens.txt"] = None.
Proof. split; vm_compute; reflexivity. Qed.

(** C30. An archive, whatever its entries say, changes nothing outside the directory it is
    extracted to, at any moment. *)
Theorem extraction_confined `{Archive} archive dest w r w' :
  Forall plain_name dest -> dest <> [] -> ExtractArchive archive dest w = (r, w') -> seen w = [] ->
  Forall (fun t => forall q, apart dest q -> walk t q = walk (fs w) q) (seen w').
Proof.
  intros Hdp Hdn He Hs.
  assert (Hal : always (fun t => forall q, apart dest q -> walk t q = walk (fs w) q) (snd (ExtractArchive archive dest w))); [|rewrite He in Hal; apply Hal].
  apply (ExtractArchive_stable _ dest); [| |done|done|done|split; [done|by rewrite Hs]].
  - intros p t t' Hp Ht Hm q [A1 A2]. rewrite (mkdir_keeps _ _ _ _ Hm); [by apply Ht|]. intros Hx. destruct Hp as [Hp|Hp]; [apply A2; by etrans|].
    by destruct (prefix_weak_total dest q p Hp Hx).
  - intros p o t [k ->] Ht q Hq. rewrite walk_graft_apart; [by apply Ht|]. rewrite <-(app_nil_r q). by apply apart_below.
Qed.

Definition hostile_archive : Archive :=
  {| open_archive := fun _ => Ok ([ {| ae_pathname := Some "a"; ae_type := RegularEntry; ae_link := false; ae_size := 1; ae_blocks := ["x"]; ae_complete := true |};
                                    {| ae_pathname := Some "./b/../../../etc/passwd"; ae_type := RegularEntry; ae_link := false; ae_size := 1; ae_blocks := ["x"]; ae_complete := true |} ], None);
     write_header := fun _ _ => Ok (File [] false); write_data := fun block _ => Ok (File block false) |}.

Definition empty_world : World := {| fs := Dir ∅; faults := []; seen := [] |}.
Definition hostile_run : result () * World := ExtractArchive (H := hostile_archive) [] ["tmp"] empty_world.

Lemma extraction_confined_witness :
  fst hostile_run = Err "archive contains path traversal component: ./b/../../../etc/passwd" /\
  length (seen (snd hostile_run)) = 3%nat /\
  Forall (fun t => forall q, apart ["tmp"] q -> walk t q = walk (fs empty_world) q) (seen (snd hostile_run)).
Proof.
  split_and!; [vm_compute; reflexivity..|].
  assert (Hplain : Forall plain_name ["tmp"]) by (apply Forall_singleton; split_and!; discriminate).
  exact (extraction_confined (H := hostile_archive) [] ["tmp"] empty_world (fst hostile_run) (snd hostile_run) Hplain ltac:(discriminate)
    (surjective_pairing hostile_run) eq_refl).
Defined.
