(* ===== verification/Registry.v ===== *)
(** * The registry's local state (src/src/common/registry: registry_cache.cpp,
      registry_fetch.cpp, registry_i18n.cpp, installed_manifest.cpp; with
      src/src/common/utils/downloader.cpp and locale_utils.h)

    Texts are fetched over HTTP and kept in a cache that answers when the network does not;
    translations are merged from two locales and the user's own; a manifest records which
    scripts are installed. *)

From S2P Require Import Prelude StringUtils FileSystem FileUtils Floats Json CoreConfig ConfigCodec ModelManager ModelInstall.
From Stdlib Require Import Ascii SpecFloat.

(** ** Fetching with a cache *)

(** The HTTP client for texts: the response to the i-th request and its body. *)
Class TextClient := { Request : nat -> bytes -> HttpResponse * bytes }.

Fixpoint download_text_loop `{TextClient} (token : Token) (i : nat) (urls : list bytes) (last_result : DownloadResult)
  : DownloadResult * option bytes :=
  match urls with
  | [] => (last_result, None)
  | url :: urls =>
      if before_url token i then
        ({| dr_ok := false; dr_url := url; dr_code := dr_code last_result; dr_error := "download cancelled" |}, None)
      else if is_empty url then download_text_loop token (S i) urls last_result
      else
        let '(res, body) := Request i url in
        let last_result := PopulateResult url res in
        if dr_ok last_result then (last_result, Some body)
        else if cancelled res || after_url token i then (last_result, None)
        else download_text_loop token (S i) urls last_result
  end.
Definition DownloadText `{TextClient} (token : Token) (urls : list bytes) : DownloadResult * option bytes :=
  download_text_loop token 0 urls no_result.

Record Fetched := { ft_content : bytes; ft_result : DownloadResult; used_cache : bool; fallback_error : bytes }.

Section fetch.
Context `{TextClient} (token : Token) (suffix : bytes) (answers : list write_answer).

Definition LoadCachedText (cache_path : path) (t : node) : result bytes :=
  ReadTextFile (show (absolute cache_path)) (read_file t cache_path) 0.

Definition SaveCachedText (cache_path : path) (content : bytes) (w : World) : result unit * World :=
  write_resolved cache_path content suffix answers w.

Definition FetchText (urls : list bytes) (cache_path : path) (w : World) : result Fetched * World :=
  match DownloadText token urls with
  | (download_result, Some content) =>
      match SaveCachedText cache_path content w with
      | (Err e, w) => (Err e, w)
      | (Ok _, w) => (Ok {| ft_content := content; ft_result := download_result; used_cache := false; fallback_error := [] |}, w)
      end
  | (download_result, None) =>
      match LoadCachedText cache_path (fs w) with
      | Ok content =>
          (Ok {| ft_content := content;
                 ft_result := {| dr_ok := true; dr_url := show (absolute cache_path); dr_code := 0; dr_error := [] |};
                 used_cache := true; fallback_error := dr_error download_result |}, w)
      | Err cache_error =>
          (Err (if negb (is_empty (dr_error download_result)) then dr_error download_result ++ "; cache unavailable: " ++ cache_error
                else cache_error), w)
      end
  end.

(** [registry_fetch.cpp] *)
Definition CacheFallbackWarning (name : bytes) (fetched : Fetched) : bytes :=
  "using cached " ++ name ++ " because download failed" ++
  (if negb (is_empty (fallback_error fetched)) then ": " ++ fallback_error fetched else []).

Context (i18n_path : bytes -> path).

(** The warnings and the new world; the error is ignored by every caller. *)
Definition RefreshLocaleCache (config : CoreConfig) (locale : bytes) (w : World) : list bytes * World :=
  let urls := RegistryI18nUrls config locale in
  if is_empty urls then ([], w)
  else match FetchText urls (i18n_path locale) w with
       | (Ok fetched, w) => (if used_cache fetched then [CacheFallbackWarning ("i18n " ++ locale) fetched] else [], w)
       | (Err _, w) => ([], w)
       end.

Definition RefreshI18nAfterOnlineFetch (config : option CoreConfig) (preferred_locale : bytes) (w : World) : list bytes * World :=
  match config with
  | None => ([], w)
  | Some config =>
      let '(ws1, w) := RefreshLocaleCache config preferred_locale w in
      let '(ws2, w) := if preferred_locale =b "en_US" then ([], w) else RefreshLocaleCache config "en_US" w in
      (ws1 ++ ws2, w)
  end.

Definition FetchRegistryText (config : option CoreConfig) (urls : list bytes) (cache_path : path) (preferred_locale : bytes) (w : World)
  : result Fetched * list bytes * World :=
  match FetchText urls cache_path w with
  | (Err e, w) => (Err e, [], w)
  | (Ok fetched, w) =>
      if used_cache fetched then (Ok fetched, [CacheFallbackWarning (default [] (last cache_path)) fetched], w)
      else
        let '(warnings, w) := RefreshI18nAfterOnlineFetch config preferred_locale w in
        (Ok fetched, warnings, w)
  end.
End fetch.

(** ** Locales *)

Definition cut_at (c : ascii) (s : bytes) : bytes := match find_char s c with Some i => take i s | None => s end.

Definition ExtractLanguageCode (locale : bytes) : bytes :=
  match find_first_of_from locale "-_" 0 with Some sep => take sep locale | None => locale end.

Definition NormalizeLocale (raw_locale : bytes) (replace_hyphen : bool) : bytes :=
  if is_empty raw_locale then []
  else
    let result := cut_at "@"%char (cut_at "."%char (cut_at ":"%char raw_locale)) in
    if is_empty result || (result =b "C") || (result =b "POSIX") then []
    else if replace_hyphen then (fun c => if c =b "-"%char then "_"%char else c) <$> result else result.

Definition NormalizeLocaleName (raw_locale : bytes) : bytes := NormalizeLocale raw_locale false.

Definition CanonicalizeLocale (raw_locale : bytes) : bytes :=
  let locale := NormalizeLocale raw_locale true in
  if is_empty locale then []
  else if bool_decide ("_"%char ∉ locale) && (locale =b "zh") then "zh_CN"
  else if bool_decide ("_"%char ∉ locale) && (locale =b "en") then "en_US"
  else locale.

Definition locale_variables : list bytes := ["LANGUAGE"; "LC_ALL"; "LC_MESSAGES"; "LANG"].
Definition DetectPreferredLocale (getenv : bytes -> option bytes) : bytes :=
  default "en_US" (list_find (fun l => l <> []) ((fun name => CanonicalizeLocale (default [] (getenv name))) <$> locale_variables) ≫= fun '(_, l) => Some l).

(** ** Translations *)

Abbreviation I18nMap := (gmap bytes bytes).

Section i18n.
Context `{Glaze}.

Definition text_members (members : list (bytes * json)) : I18nMap :=
  foldl (fun m '(key, value) => match value with JString text => <[key := text]> m | _ => m end) ∅ members.

Definition ParseI18nJson (content : bytes) : result I18nMap :=
  match read_tree content with
  | Err e => Err ("failed to parse i18n JSON: " ++ e)
  | Ok (JObject members) => Ok (text_members members)
  | Ok _ => Err "i18n JSON is not an object"
  end.

Definition LoadI18nFile (name : bytes) (file : option bytes) : result I18nMap :=
  match file with
  | None => Err ("cached i18n unavailable: " ++ name)
  | Some content => ParseI18nJson content
  end.

Definition map_of (r : result I18nMap) : I18nMap := match r with Ok m => m | Err _ => ∅ end.
Definition error_of (r : result I18nMap) : bytes := match r with Ok _ => [] | Err e => e end.

(** [operator[]] assignment of each local entry. *)
Definition ApplyLocalI18nOverrides (local : result I18nMap) (m : I18nMap) : I18nMap := map_of local ∪ m.

(** The merged map and the error. *)
Definition LoadMergedCachedI18nMap (preferred_locale : bytes) (primary fallback local : result I18nMap) : I18nMap * bytes :=
  let merged := map_of primary in
  let fallback := if preferred_locale =b "en_US" then Ok ∅ else fallback in
  let merged :=
    if preferred_locale =b "en_US" then merged
    else if decide (merged = ∅) then map_of fallback else merged ∪ map_of fallback in
  let merged := ApplyLocalI18nOverrides local merged in
  let error :=
    if negb (bool_decide (merged = ∅)) then []
    else if negb (is_empty (error_of primary)) then
      error_of primary ++ (if negb (is_empty (error_of fallback)) then "; " ++ error_of fallback else [])
    else error_of fallback in
  (merged, error).

Definition LookupI18n (m : I18nMap) (key fallback : bytes) : bytes :=
  match m !! key with Some text => if is_empty text then fallback else text | None => fallback end.

(** From the network; [fetch] is FetchI18nMap on a non-empty list of URLs. *)
Definition FetchMergedI18nMap (config : CoreConfig) (preferred_locale : bytes) (fetch : bytes -> result I18nMap) (local : result I18nMap)
  : I18nMap * bytes :=
  let fetch_map locale := if is_empty (RegistryI18nUrls config locale) then Err "no i18n URLs configured" else fetch locale in
  let primary := if is_empty (RegistryI18nUrls config preferred_locale) then Ok ∅ else fetch preferred_locale in
  let merged := map_of primary in
  let '(merged, error) :=
    if bool_decide (merged = ∅) && negb (preferred_locale =b "en_US") then
      let fallback := fetch_map "en_US" in
      (merged ∪ map_of fallback, error_of fallback)
    else if negb (preferred_locale =b "en_US") then (merged ∪ map_of (fetch_map "en_US"), error_of primary)
    else (merged, error_of primary) in
  (ApplyLocalI18nOverrides local merged, error).
End i18n.

(** A key's text: the user's own, else the preferred locale's, else the English one. *)
Theorem i18n_precedence preferred primary fallback local key :
  (LoadMergedCachedI18nMap preferred primary fallback local).1 !! key =
  match map_of local !! key with
  | Some text => Some text
  | None => match map_of primary !! key with
            | Some text => Some text
            | None => if preferred =b "en_US" then None else map_of fallback !! key
            end
  end.
Proof.
  unfold LoadMergedCachedI18nMap, ApplyLocalI18nOverrides. cbn [fst]. rewrite lookup_union.
  destruct (map_of local !! key) as [x|]; [by destruct (_ !! key)|].
  case_bool_decide; [by destruct (map_of primary !! key)|]. case_decide as E.
  - rewrite E, lookup_empty. by destruct (map_of fallback !! key).
  - rewrite lookup_union. by destruct (map_of primary !! key), (map_of fallback !! key).
Qed.

(** ** The installed scripts *)

Record InstalledRecord := { ir_id : bytes; ir_kind : bytes; ir_version : bytes; ir_sha256 : bytes; installed_at : N }.
Abbreviation InstalledManifest := (gmap bytes InstalledRecord).

Definition record_le (a b : bytes * InstalledRecord) : Prop := bytes_ltb b.1 a.1 = false.
#[export] Instance record_le_dec : RelDecision record_le.
Proof. intros a b. unfold record_le. apply _. Defined.
Definition manifest_entries (m : InstalledManifest) : list (bytes * InstalledRecord) := merge_sort record_le (map_to_list m).

Definition record_json (r : InstalledRecord) : json :=
  JObject [ ("installed_at", JNumber (f64_of_Z (Z.of_N (installed_at r)))); ("kind", JString (ir_kind r));
            ("sha256", JString (ir_sha256 r)); ("version", JString (ir_version r)) ].

Definition manifest_json (m : InstalledManifest) : json :=
  JObject [ ("resources", JObject (prod_map id record_json <$> manifest_entries m)); ("version", JNumber (f64_of_Z 1)) ].

(** [None]: an undefined conversion. *)
Definition record_of_json (id : bytes) (item : json) : option InstalledRecord :=
  at_ ← Int64 item "installed_at" 0;
  Some {| ir_id := id; ir_kind := String item "kind" []; ir_version := String item "version" []; ir_sha256 := String item "sha256" [];
          installed_at := to_u64 at_ |}.

Fixpoint load_items (items : list (bytes * json)) (m : InstalledManifest) : option InstalledManifest :=
  match items with
  | [] => Some m
  | (id, item) :: items =>
      if negb (is_object item) then load_items items m
      else record ← record_of_json id item;
           load_items items (match m !! id with Some _ => m | None => <[id := record]> m end)
  end.

Section manifest.
Context `{Glaze} (write_pretty : json -> option bytes).

Definition manifest_Load (content : result bytes) : option InstalledManifest :=
  match content with
  | Err _ => Some ∅
  | Ok text =>
      match read_tree text with
      | Err _ => Some ∅
      | Ok root => match Find root "resources" with
                   | Some (JObject items) => load_items items ∅
                   | _ => Some ∅
                   end
      end
  end.

Definition manifest_Save (m : InstalledManifest) (file : path) (suffix : bytes) (answers : list write_answer) (w : World) : result unit * World :=
  match write_pretty (manifest_json m) with
  | None => (Err "failed to serialize installed manifest", w)
  | Some content => write_resolved file content suffix answers w
  end.
End manifest.

Definition manifest_Get (id : bytes) (m : InstalledManifest) : option InstalledRecord := m !! id.
Definition RecordInstalled (id kind version sha256 : bytes) (now : N) (m : InstalledManifest) : InstalledManifest :=
  <[id := {| ir_id := id; ir_kind := kind; ir_version := version; ir_sha256 := sha256; installed_at := now |}]> m.
Definition manifest_Remove (id : bytes) (m : InstalledManifest) : bool * InstalledManifest := (bool_decide (is_Some (m !! id)), delete id m).
Definition manifest_List (m : InstalledManifest) : list InstalledRecord := snd <$> manifest_entries m.

(** ** The cache answers for the network *)

Section fetch_facts.
Context (suffix : bytes) (answers : list write_answer).

(** What a fetch gives: the downloaded text, which is then in the cache; or, when no URL
    answers, the cached text, and nothing is written. *)
Lemma FetchText_cases `{TextClient} token urls cache w r w' : cache <> [] ->
  FetchText token suffix answers urls cache w = (r, w') ->
  match DownloadText token urls with
  | (_, Some content) =>
      match r with
      | Ok f => ft_content f = content /\ used_cache f = false /\ walk (fs w') cache = Some (File content true)
      | Err _ => True
      end
  | (d, None) =>
      w' = w /\ match read_file (fs w) cache with
                | Some content => exists f, r = Ok f /\ ft_content f = content /\ used_cache f = true /\ fallback_error f = dr_error d
                | None => exists e, r = Err e
                end
  end.
Proof.
  intros Hc. unfold FetchText. destruct (DownloadText token urls) as [d [content|]].
  - unfold SaveCachedText. destruct (write_resolved cache content suffix answers w) as [[u|e] w1] eqn:Ew; intros [= <- <-]; [|done].
    split_and!; try done. by apply (write_resolved_replaces _ _ _ _ _ _ _ Hc Ew).
  - unfold LoadCachedText. destruct (read_file (fs w) cache) as [content|]; intros [= <- <-]; (split; [done|]); [|by eexists].
    by eexists.
Qed.

(** A text that was fetched once is there when the network is not: the same content, marked
    as coming from the cache. *)
Theorem fetched_text_survives (online offline : TextClient) token token' urls urls' cache w f w1 d :
  cache <> [] ->
  @FetchText online token suffix answers urls cache w = (Ok f, w1) -> used_cache f = false ->
  @DownloadText offline token' urls' = (d, None) ->
  exists f', @FetchText offline token' suffix answers urls' cache w1 = (Ok f', w1) /\
    ft_content f' = ft_content f /\ used_cache f' = true /\ fallback_error f' = dr_error d.
Proof.
  intros Hc Hon Hu Hoff. pose proof (FetchText_cases _ _ _ _ _ _ Hc Hon) as H1.
  destruct (@DownloadText online token urls) as [d1 [content|]].
  2: { destruct H1 as [_ H1]. destruct (read_file (fs w) cache); [|by destruct H1]. destruct H1 as (f2 & [= <-] & _ & H2 & _). congruence. }
  destruct H1 as (Hcont & _ & Hw).
  destruct (@FetchText offline token' suffix answers urls' cache w1) as [r w2] eqn:E2.
  pose proof (@FetchText_cases offline _ _ _ _ _ _ Hc E2) as H2. rewrite Hoff in H2. destruct H2 as [-> H2].
  unfold read_file in H2. rewrite Hw in H2. destruct H2 as (f' & -> & Hf & H3 & H4). exists f'. split_and!; congruence.
Qed.
End fetch_facts.

(** ** The manifest reads back *)

Lemma Int64_small object key z fallback : (0 <= z < 2 ^ 53)%Z ->
  Find object key = Some (JNumber (f64_of_Z z)) -> Int64 object key fallback = Some z.
Proof.
  intros Hz Hf. unfold Int64. rewrite Hf. destruct z as [|p|p]; [done| |lia].
  destruct (f64_of_Z_exact p ltac:(lia)) as (m & e & -> & He & Hm).
  assert (Hsh : Z.shiftr (Zpos m) (- e) = Zpos p).
  { rewrite Z.shiftr_div_pow2 by lia. rewrite Hm. apply Z.div_mul. apply Z.pow_nonzero; lia. }
  assert (int64_rejects (S754_finite false m e) = false) as ->.
  { unfold int64_rejects. cbn [is_finite negb orb]. rewrite !orb_false_iff. split_and!.
    - unfold has_fraction. destruct (e <? 0)%Z; [|done]. rewrite Hsh, Z.shiftl_mul_pow2, Hm, Z.eqb_refl by lia. done.
    - rewrite f64_i64_min. done.
    - rewrite f64_i64_max. unfold SFltb, two_63, SFcompare. destruct (Z.compare_spec 11 e); [lia|lia|done]. }
  unfold to_int, trunc. cbn [cond_Zopp mbind option_bind].
  unfold Z.shiftr in Hsh. rewrite Z.opp_involutive in Hsh. rewrite Hsh. cbn [mbind option_bind].
  destruct (_ && _) eqn:E; [done|]. apply andb_false_iff in E as [E|E]; [apply Z.leb_gt in E|apply Z.leb_gt in E]; unfold i64_min, i64_max in E; lia.
Qed.

Definition keyed (m : InstalledManifest) : Prop := map_Forall (fun id r => ir_id r = id /\ (installed_at r < 2 ^ 53)%N) m.

Lemma record_reads_back id r : ir_id r = id -> (installed_at r < 2 ^ 53)%N -> record_of_json id (record_json r) = Some r.
Proof.
  intros Hid Hat. unfold record_of_json. rewrite (Int64_small _ _ (Z.of_N (installed_at r))); [|lia|done].
  destruct r as [i k v s a]. cbn in *. subst. cbn. unfold to_u64. by rewrite Z.mod_small, N2Z.id by lia.
Qed.

Lemma load_items_back l m : Forall (fun '(id, r) => ir_id r = id /\ (installed_at r < 2 ^ 53)%N) l ->
  NoDup (l.*1) -> (forall id, id ∈ l.*1 -> m !! id = None) ->
  load_items (prod_map id record_json <$> l) m = Some (list_to_map l ∪ m).
Proof.
  revert m. induction l as [|[id r] l IH]; intros m Hl Hnd Hm; cbn; [by rewrite (left_id ∅ (∪))|].
  apply Forall_cons in Hl as [[H1 H2] H3]. cbn in Hnd. apply NoDup_cons in Hnd as [H4 H5].
  change (Datatypes.id id) with id. rewrite (record_reads_back id r H1 H2). cbn [mbind option_bind].
  rewrite (Hm id) by (cbn; by left). rewrite IH; [|done|done|].
  - by rewrite <-insert_union_r, insert_union_l by (by apply not_elem_of_list_to_map_1).
  - intros j Hj. rewrite lookup_insert_ne; [apply Hm; by right|]. intros <-. done.
Qed.

(** What is saved is loaded again, whatever was installed. *)
Theorem manifest_roundtrip `{Glaze} (write_pretty : json -> option bytes) m file suffix answers w w' :
  (forall j text, write_pretty j = Some text -> read_tree text = Ok j) -> keyed m -> file <> [] ->
  manifest_Save write_pretty m file suffix answers w = (Ok tt, w') ->
  manifest_Load (ReadTextFile (show (absolute file)) (read_file (fs w') file) 0) = Some m.
Proof.
  intros Hrw Hk Hf Hs. unfold manifest_Save in Hs. destruct (write_pretty (manifest_json m)) as [text|] eqn:Ew; [|done].
  unfold read_file. rewrite (write_resolved_replaces _ _ _ _ _ _ _ Hf Hs). unfold ReadTextFile. cbn [Nat.ltb Nat.leb manifest_Load].
  rewrite (Hrw _ _ Ew). cbn [Find manifest_json map_find]. rewrite bool_decide_eq_true_2 by done.
  assert (Hp : manifest_entries m ≡ₚ map_to_list m) by apply merge_sort_Permutation.
  rewrite load_items_back.
  - rewrite (right_id ∅ (∪)). f_equal. rewrite <-(list_to_map_to_list m) at 2. apply list_to_map_proper; [|done].
    rewrite Hp. apply NoDup_fst_map_to_list.
  - rewrite Hp. apply Forall_forall. intros [id r] Hin. apply elem_of_map_to_list in Hin. by apply (Hk id r).
  - rewrite Hp. apply NoDup_fst_map_to_list.
  - intros. apply lookup_empty.
Qed.
