(* ===== verification/Scripts.v ===== *)
(** * Scripts of the registry (src/src/common/registry/registry_scripts.cpp)

    Speech providers and language model adapters are scripts: they are downloaded next to
    the old version and renamed over it, recorded in the manifest, entered in the
    configuration, and compared with the registry to find updates. *)

From S2P Require Import Prelude StringUtils FileSystem FileUtils Floats Json Version CoreConfig ConfigCodec ModelManager ModelInstall Registry.
From Stdlib Require Import Ascii SpecFloat.

Inductive Kind := kAsrProvider | kLlmAdapter.
Inductive UpdateStatus := kNotInstalled | kUpToDate | kUpdateAvailable | kIncompatible.
#[export] Instance UpdateStatus_eq_dec : EqDecision UpdateStatus.
Proof. solve_decision. Defined.

Record ResourceVersionInfo := {
  vi_installed_version : bytes; vi_remote_version : bytes; vi_installed_sha256 : bytes; vi_remote_sha256 : bytes;
  vi_vinput_version : bytes; vi_status : UpdateStatus }.
Record EnvSpec := { env_name : bytes; env_required : bool }.
Record RegistryEntry := {
  sc_id_ : bytes; sc_short_id : bytes; sc_version : bytes; sc_sha256 : bytes; sc_vinput_version : bytes; sc_stream : bool;
  sc_command : bytes; script_urls : list bytes; readme_url : bytes; sc_envs : list EnvSpec }.

(** ** Ids *)

Definition SplitResourceId (id : bytes) : list bytes :=
  if bad_segment id || bool_decide ("/"%char ∈ id) || bool_decide ("\"%char ∈ id) then []
  else
    match Split id "."%char with
    | type :: parent :: first :: rest =>
        if existsb bad_segment (type :: parent :: first :: rest) then []
        else
          let leaf := rebuild_name (first :: rest) in
          if is_empty type || is_empty parent || is_empty leaf then [] else [type; parent; leaf]
    | _ => []
    end.

Definition TypeMatchesKind (type : bytes) (kind : Kind) : bool :=
  match kind with kAsrProvider => type =b "provider" | kLlmAdapter => type =b "adapter" end.

Definition ScriptPathForId (id : bytes) : path :=
  match SplitResourceId id with [_; parent; leaf] => [parent; leaf] | _ => [] end.

Definition has_separator (s : bytes) : bool := bool_decide ("/"%char ∈ s) || bool_decide ("\"%char ∈ s).

Definition ScriptIdFromPath (type : bytes) (relative_path : path) : bytes :=
  if bad_segment type || bool_decide ("."%char ∈ type) || has_separator type then []
  else if existsb (fun part => bad_segment part || has_separator part) relative_path then []
  else if length relative_path =? 2 then Join (type :: relative_path) "."
  else [].

Section scripts.
(** The managed directories of the two kinds; the version of this program. *)
Context (providers_dir adapters_dir : path) (host_version : bytes).

Definition ManagedBaseDirForType (type : bytes) : path :=
  if type =b "provider" then providers_dir else if type =b "adapter" then adapters_dir else [].

Definition DefaultLocalScriptPath (kind : Kind) (id : bytes) : path :=
  match SplitResourceId id with
  | [type; parent; leaf] =>
      if negb (TypeMatchesKind type kind) then []
      else match ManagedBaseDirForType type with [] => [] | base => base ++ ScriptPathForId id end
  | _ => []
  end.

(** ** The registry *)

Definition parse_env (value : json) : list EnvSpec :=
  match value with
  | JObject _ =>
      let name := String value "name" [] in
      if is_empty name then [] else [{| env_name := name; env_required := Bool value "required" false |}]
  | _ => []
  end.

Definition parse_script (item : json) : list RegistryEntry :=
  let e :=
    {| sc_id_ := String item "id" []; sc_short_id := String item "short_id" []; sc_version := String item "version" [];
       sc_sha256 := String item "sha256" []; sc_vinput_version := String item "vinput_version" []; sc_stream := Bool item "stream" false;
       sc_command := String item "command" []; readme_url := String item "readme_url" [];
       script_urls := filter (fun u => u <> []) (Strings_at item "script_urls");
       sc_envs := match Find item "envs" with Some (JArray values) => flat_map parse_env values | _ => [] end |} in
  if is_empty (sc_id_ e) || is_empty (sc_command e) || is_empty (script_urls e) then [] else [e].

Definition ParseScriptRegistryJson `{Glaze} (content : bytes) : result (list RegistryEntry) :=
  match read_tree content with
  | Err e => Err ("failed to parse script registry JSON: " ++ e)
  | Ok root =>
      match Find root "items" with
      | None => Err "script registry JSON is not an object or is missing array field 'items'"
      | Some (JArray items) => Ok (flat_map parse_script items)
      | Some _ => Err "script registry JSON is missing array field 'items'"
      end
  end.

(** ** Download *)

Context `{HttpClient, Glaze} (sha256 : bytes -> bytes) (write_pretty : json -> option bytes).
Context (suffix : bytes) (answers : list write_answer) (manifest_file : path).

(** What the cancel token shows between the steps, and whether the permissions can be set. *)
Record ScriptAnswers := { cancel_after_download : bool; cancel_before_replace : bool; mark_executable : result () }.

Definition discard_file (p : path) (w : World) : World := snd (call (remove_entry p) w).

(** [stamp] is the clock's reading in the temporary name. *)
Definition script_tmp (p : path) (stamp : bytes) : path := parent_of p ++ [default [] (last p) ++ ".download." ++ stamp ++ ".tmp"].

(** The checked download at [tmp]: its digest. *)
Definition fetch_script (entry : RegistryEntry) (token : Token) (a : ScriptAnswers) (tmp : path) (w : World) : result bytes * World :=
  let '(download_result, w) := DownloadFile token (script_urls entry) tmp w in
  if negb (dr_ok download_result) then
    (Err (if is_empty (dr_error download_result) then "failed to download script" else dr_error download_result), discard_file tmp w)
  else if cancel_after_download a then (Err "download cancelled", discard_file tmp w)
  else
    let checked :=
      if is_empty (sc_sha256 entry) then Ok []
      else match ComputeFileSha256 sha256 (fs w) tmp with
           | Err e => Err e
           | Ok hex => if hex =b sc_sha256 entry then Ok hex
                       else Err ("SHA-256 mismatch for " ++ sc_id_ entry ++ ": expected " ++ sc_sha256 entry ++ ", got " ++ hex)
           end in
    match checked with
    | Err e => (Err e, discard_file tmp w)
    | Ok actual_sha =>
        match mark_executable a with
        | Err e => (Err ("failed to mark script executable: " ++ e), discard_file tmp w)
        | Ok _ =>
            if cancel_before_replace a then (Err "download cancelled", discard_file tmp w)
            else if negb (is_empty actual_sha) then (Ok actual_sha, w)
            else match ComputeFileSha256 sha256 (fs w) tmp with
                 | Err e => (Err ("failed to compute sha256 for " ++ show (absolute tmp) ++ ": " ++ e), discard_file tmp w)
                 | Ok hex => (Ok hex, w)
                 end
        end
    end.

Definition manifest_text (w : World) : result bytes := ReadTextFile (show (absolute manifest_file)) (read_file (fs w) manifest_file) 0.

Definition kind_name (kind : Kind) : bytes := match kind with kAsrProvider => "provider" | kLlmAdapter => "adapter" end.

(** Until the script is in its place: where it is and its digest. *)
Definition place_script (entry : RegistryEntry) (kind : Kind) (token : Token) (a : ScriptAnswers) (stamp : bytes) (w : World)
  : result (path * bytes) * World :=
  if negb (Satisfies host_version (sc_vinput_version entry)) then
    (Err ("Resource '" ++ sc_id_ entry ++ "' is incompatible with current vinput host (requires " ++ sc_vinput_version entry ++
          ", current is " ++ host_version ++ ")"), w)
  else
    match DefaultLocalScriptPath kind (sc_id_ entry) with
    | [] => (Err ("invalid script id: " ++ sc_id_ entry), w)
    | p =>
        match create_directories (parent_of p) w with
        | (Err e, w) => (Err ("failed to create script directory: " ++ e), w)
        | (Ok _, w) =>
            let tmp := script_tmp p stamp in
            match fetch_script entry token a tmp w with
            | (Err e, w) => (Err e, w)
            | (Ok final_sha, w) =>
                match call (rename tmp p) w with
                | (Err e, w) => (Err ("failed to atomically replace script: " ++ e), discard_file tmp w)
                | (Ok _, w) => (Ok (p, final_sha), w)
                end
            end
        end
    end.

(** [Some (Ok path)] on success; an error of saving the manifest is ignored. [None]: the
    manifest holds a number whose conversion is undefined. *)
Definition DownloadScript (entry : RegistryEntry) (kind : Kind) (token : Token) (a : ScriptAnswers) (stamp : bytes) (now : N) (w : World)
  : option (result path * World) :=
  match place_script entry kind token a stamp w with
  | (Err e, w) => Some (Err e, w)
  | (Ok (p, final_sha), w) =>
      manifest ← manifest_Load (manifest_text w);
      let manifest := RecordInstalled (sc_id_ entry) (kind_name kind) (sc_version entry) final_sha now manifest in
      Some (Ok p, snd (manifest_Save write_pretty manifest manifest_file suffix answers w))
  end.

(** ** Updates *)

Definition CheckResourceVersion (t : node) (manifest : InstalledManifest) (kind : Kind) (entry : RegistryEntry) (is_installed_in_config : bool)
  : ResourceVersionInfo :=
  let info status version sha :=
    {| vi_installed_version := version; vi_remote_version := sc_version entry; vi_installed_sha256 := sha;
       vi_remote_sha256 := sc_sha256 entry; vi_vinput_version := sc_vinput_version entry; vi_status := status |} in
  if negb (Satisfies host_version (sc_vinput_version entry)) then info kIncompatible [] []
  else if negb is_installed_in_config then info kNotInstalled [] []
  else
    let script_path := DefaultLocalScriptPath kind (sc_id_ entry) in
    let script_exists := negb (is_empty script_path) && exists_at t script_path in
    let '(version, sha) :=
      match manifest_Get (sc_id_ entry) manifest with
      | Some record => (ir_version record, ir_sha256 record)
      | None => ([], if script_exists then match ComputeFileSha256 sha256 t script_path with Ok hex => hex | Err _ => [] end else [])
      end in
    if negb script_exists then info kUpdateAvailable version sha
    else if negb (is_empty (sc_version entry)) && negb (is_empty version) && negb (sc_version entry =b version) then info kUpdateAvailable version sha
    else if negb (is_empty (sc_sha256 entry)) && negb (is_empty sha) then
      info (if sc_sha256 entry =b sha then kUpToDate else kUpdateAvailable) version sha
    else if negb (is_empty (sc_version entry)) && (sc_version entry =b version) then info kUpToDate version sha
    else if negb (is_empty (sc_version entry)) && is_empty version then info kUpdateAvailable version sha
    else info kUpToDate version sha.

Definition UnregisterInstalledScript (id : bytes) (w : World) : option (result () * World) :=
  manifest ← manifest_Load (manifest_text w);
  let '(removed, manifest) := manifest_Remove id manifest in
  Some (if removed then manifest_Save write_pretty manifest manifest_file suffix answers w else (Ok tt, w)).

(** ** The configuration *)

Definition FillDefaultEnvMap (envs : list EnvSpec) (target : gmap bytes bytes) : gmap bytes bytes :=
  foldl (fun m env => match m !! env_name env with Some _ => m | None => <[env_name env := []]> m end) target envs.

Definition IsManagedScriptPath (expected : path) (args : list bytes) : bool :=
  match args with
  | [arg] => let p := lexically_normal (to_fpath arg) in rooted p && bool_decide (names p = names (lexically_normal (absolute expected)))
  | _ => false
  end.

Fixpoint update_provider (entry : RegistryEntry) (script_path : bytes) (managed_path : path) (l : list AsrProvider) : result (list AsrProvider) :=
  match l with
  | [] => Ok [CommandAsrProvider (sc_id_ entry) 60000 (sc_command entry) [script_path] (FillDefaultEnvMap (sc_envs entry) ∅)]
  | p :: l =>
      if AsrProviderId p =b sc_id_ entry then
        match p with
        | CommandAsrProvider id timeout _ args env =>
            if IsManagedScriptPath managed_path args
            then Ok (CommandAsrProvider id (if (timeout <=? 0)%Z then 60000 else timeout) (sc_command entry) [script_path]
                       (FillDefaultEnvMap (sc_envs entry) env) :: l)
            else Err ("refusing to overwrite user-defined ASR provider: " ++ sc_id_ entry)
        | LocalAsrProvider _ _ _ _ => Err ("refusing to overwrite user-defined ASR provider: " ++ sc_id_ entry)
        end
      else match update_provider entry script_path managed_path l with Ok l => Ok (p :: l) | Err e => Err e end
  end.

Definition MaterializeAsrProvider (config : CoreConfig) (entry : RegistryEntry) (script_path : bytes) : result CoreConfig :=
  match DefaultLocalScriptPath kAsrProvider (sc_id_ entry) with
  | [] => Err ("invalid ASR provider id: " ++ sc_id_ entry)
  | managed_path =>
      match update_provider entry script_path managed_path (asr_providers (cc_asr config)) with
      | Ok providers => Ok (with_asr_providers config providers)
      | Err e => Err e
      end
  end.

Definition override_env (overrides : list (bytes * bytes)) (env : gmap bytes bytes) : gmap bytes bytes :=
  foldl (fun m '(key, value) => if is_empty key then m else <[key := value]> m) env overrides.

Fixpoint update_adapter (entry : RegistryEntry) (script_path : bytes) (managed_path : path) (overrides : list (bytes * bytes)) (l : list LlmAdapter)
  : result (list LlmAdapter) :=
  match l with
  | [] => Ok [{| la_id := sc_id_ entry; la_command := sc_command entry; la_args := [script_path];
                 la_env := override_env overrides (FillDefaultEnvMap (sc_envs entry) ∅); la_autoStart := false |}]
  | a :: l =>
      if la_id a =b sc_id_ entry then
        if IsManagedScriptPath managed_path (la_args a)
        then Ok ({| la_id := la_id a; la_command := sc_command entry; la_args := [script_path];
                    la_env := override_env overrides (FillDefaultEnvMap (sc_envs entry) (la_env a)); la_autoStart := la_autoStart a |} :: l)
        else Err ("refusing to overwrite user-defined adapter: " ++ sc_id_ entry)
      else match update_adapter entry script_path managed_path overrides l with Ok l => Ok (a :: l) | Err e => Err e end
  end.

Definition MaterializeLlmAdapter (config : CoreConfig) (entry : RegistryEntry) (script_path : bytes) (overrides : list (bytes * bytes))
  : result CoreConfig :=
  match DefaultLocalScriptPath kLlmAdapter (sc_id_ entry) with
  | [] => Err ("invalid adapter id: " ++ sc_id_ entry)
  | managed_path =>
      match update_adapter entry script_path managed_path overrides (llm_adapters (cc_llm config)) with
      | Ok adapters =>
          Ok {| cc_version := cc_version config; baseUrls := baseUrls config; cc_global := cc_global config;
                cc_llm := {| llm_providers := llm_providers (cc_llm config); llm_adapters := adapters |};
                cc_asr := cc_asr config; cc_scenes := cc_scenes config; triggers := triggers config; receivers := receivers config |}
      | Err e => Err e
      end
  end.
End scripts.

(** ** A script is replaced as a whole *)

Lemma download_stable `{HttpClient} (P : node -> Prop) token urls dest w :
  (forall o t, P t -> P (graft dest o t)) -> always P w -> always P (snd (DownloadFile token urls dest w)).
Proof.
  intros Hg Hw. unfold DownloadFile.
  assert (Hl : forall i last, always P (snd (download_loop token dest i urls last w))).
  { revert w Hw. induction urls as [|url urls IH]; intros w Hw i last; [done|]. cbn [download_loop].
    destruct (before_url token i); [done|]. destruct (is_empty url); [by apply IH|]. cbv zeta.
    assert (Hs : always P (save_at dest (body_written i url) w)).
    { unfold save_at. destruct (walk (fs w) dest) as [[]|]; [|done|]; (apply always_set; [done|]; apply Hg, Hw). }
    destruct (dr_ok _); [done|]. destruct (_ || _); [done|]. by apply IH. }
  specialize (Hl 0%nat no_result). destruct (download_loop _ _ _ _ _ _) as [r w1]. cbn [snd] in Hl. destruct (dr_ok r); [done|].
  apply call_stable; [done|]. intros t t' Ht. unfold remove_entry. destruct (walk t dest) as [[|m]|]; [|case_decide; [|done]|]; intros [= <-]; [by apply Hg..|done].
Qed.

Section replace.
Context (providers_dir adapters_dir : path) (host_version : bytes) `{HttpClient, Glaze} (sha256 : bytes -> bytes).
Context (entry : RegistryEntry) (kind : Kind) (token : Token) (a : ScriptAnswers) (stamp : bytes) (t0 : node).

Definition script_digest (data : bytes) : bytes := if is_empty data then kEmptyFileSha256 else sha256 data.

(** The new script: a downloaded file with the digest the registry gives, if it gives one. *)
Definition new_script (n : option node) (final_sha : bytes) : Prop :=
  exists data b, n = Some (File data b) /\ script_digest data = final_sha /\ (sc_sha256 entry <> [] -> final_sha = sc_sha256 entry).

Lemma discard_file_stable (P : node -> Prop) p w : (forall o t, P t -> P (graft p o t)) -> always P w -> always P (discard_file p w).
Proof.
  intros Hg Hw. apply call_stable; [done|]. intros t t' Ht. unfold remove_entry.
  destruct (walk t p) as [[|m]|]; [|case_decide; [|done]|]; intros [= <-]; [by apply Hg..|done].
Qed.

Lemma fetch_script_spec (P : node -> Prop) tmp w r w' : (forall o t, P t -> P (graft tmp o t)) -> always P w ->
  fetch_script sha256 entry token a tmp w = (r, w') ->
  always P w' /\ match r with Ok sha => new_script (walk (fs w') tmp) sha | Err _ => True end.
Proof.
  intros Hg Hw. unfold fetch_script. pose proof (download_stable P token (script_urls entry) tmp w Hg Hw) as H1.
  destruct (DownloadFile _ _ tmp w) as [result w1]. cbn [snd] in H1. pose proof (discard_file_stable P tmp w1 Hg H1) as H2.
  destruct (negb (dr_ok result)); [by intros [= <- <-]|]. destruct (cancel_after_download a); [by intros [= <- <-]|].
  assert (Hsha : forall hex, ComputeFileSha256 sha256 (fs w1) tmp = Ok hex -> exists data b, walk (fs w1) tmp = Some (File data b) /\ script_digest data = hex).
  { intros hex. unfold ComputeFileSha256. destruct (walk (fs w1) tmp) as [[data b|]|]; [|done|done]. intros [= <-]. by exists data, b. }
  destruct (is_empty (sc_sha256 entry)) eqn:Ee.
  - apply is_empty_true in Ee. destruct (mark_executable a); [|by intros [= <- <-]]. destruct (cancel_before_replace a); [by intros [= <- <-]|].
    cbn [is_empty negb]. destruct (ComputeFileSha256 _ _ _) as [hex|] eqn:Eh; intros [= <- <-]; (split; [done|]); [|done].
    destruct (Hsha hex eq_refl) as (data & b & Hd & Hh). exists data, b. by rewrite Ee.
  - destruct (ComputeFileSha256 _ _ _) as [hex|] eqn:Eh; [|by intros [= <- <-]]. case_bool_decide as Ex; [|by intros [= <- <-]].
    destruct (mark_executable a); [|by intros [= <- <-]]. destruct (cancel_before_replace a); [by intros [= <- <-]|].
    destruct (Hsha hex eq_refl) as (data & b & Hd & Hh). rewrite Ex, Ee. cbn [negb]. intros [= <- <-]. split; [done|].
    exists data, b. by rewrite Hh, Ex.
Qed.

(** A download never leaves a partial script: at every moment the old one or the complete,
    checked new one is in its place; after an error it is the old one. *)
Theorem script_replaced_whole p fl r w' :
  DefaultLocalScriptPath providers_dir adapters_dir kind (sc_id_ entry) = p -> p <> [] ->
  place_script providers_dir adapters_dir host_version sha256 entry kind token a stamp {| fs := t0; faults := fl; seen := [] |} = (r, w') ->
  Forall (fun t => walk t p = walk t0 p \/ exists sha, new_script (walk t p) sha) (seen w') /\
  match r with
  | Ok (q, sha) => q = p /\ new_script (walk (fs w') p) sha
  | Err _ => walk (fs w') p = walk t0 p
  end.
Proof.
  intros Hp Hne. unfold place_script. rewrite Hp. destruct (negb _); [by intros [= <- <-]|]. destruct p as [|x p'] eqn:Epp; [done|]. rewrite <-Epp in *. clear x p' Epp.
  set (P := fun t => walk t p = walk t0 p). set (Q := fun t => walk t p = walk t0 p \/ exists sha, new_script (walk t p) sha).
  assert (HPQ : forall w1, always P w1 -> Forall Q (seen w1)) by (intros w1 [_ Hs]; eapply Forall_impl; [exact Hs|by left]).
  assert (Htmp : apart (script_tmp p stamp) p).
  { destruct (exists_last Hne) as (l & n & ->). unfold script_tmp. rewrite parent_snoc, last_snoc. cbn [from_option]. apply apart_names.
    intros E. apply (f_equal length) in E. rewrite !length_app in E. cbn in E. lia. }
  assert (Hg : forall o t, P t -> P (graft (script_tmp p stamp) o t)) by (intros o t Ht; unfold P; by rewrite walk_graft_apart).
  destruct (create_directories (parent_of p) _) as [r1 w1] eqn:E1.
  assert (H1 : always P w1).
  { apply (make_directories_always _ _ _ _ _ _ E1); [by split; [|constructor]|]. intros q t t' Hq Ht Hm. unfold P. rewrite (mkdir_keeps _ _ _ _ Hm); [done|].
    intros Hx. destruct (parent_prefix p Hne) as [H2 H3]. apply H3. apply (anti_symm prefix); [done|by etrans]. }
  destruct r1 as [u1|e1]; [|intros [= <- <-]; split; [by apply HPQ|apply H1]].
  destruct (fetch_script _ _ _ _ _ w1) as [r2 w2] eqn:E2. destruct (fetch_script_spec P _ _ _ _ Hg H1 E2) as [H2 Hn].
  destruct r2 as [sha|e2]; [|intros [= <- <-]; split; [by apply HPQ|apply H2]].
  destruct (call (rename (script_tmp p stamp) p) w2) as [r3 w3] eqn:E3.
  destruct (call_cases _ _ _ _ E3) as [(e & -> & Hfs & Hs)|(-> & t & Ht & Hfs & Hs)].
  - intros [= <- <-]. assert (H3 : always P (discard_file (script_tmp p stamp) w3)) by (apply discard_file_stable; [done|]; unfold always, so_far; by rewrite Hfs, Hs).
    split; [by apply HPQ|apply H3].
  - intros [= <- <-]. destruct Hn as (data & b & Hd & Hn). destruct (rename_moves _ _ _ _ _ Ht Htmp Hd) as [Hm _].
    assert (Hnew : new_script (walk t p) sha) by (by exists data, b). rewrite Hfs, Hs. split; [|done].
    apply Forall_app. split; [by apply HPQ|]. apply Forall_singleton. right. by exists sha.
Qed.
End replace.

(** ** Download, record and comparison agree *)

Section current.
Context (providers_dir adapters_dir : path) (host_version : bytes) `{HttpClient, Glaze} (sha256 : bytes -> bytes) (write_pretty : json -> option bytes).
Context (suffix : bytes) (answers : list write_answer) (manifest_file : path).

(** A script that was just downloaded and recorded is up to date, in the manifest as it is
    read back from the disk. *)
Theorem downloaded_script_current entry kind token a stamp now w p sha w1 m w2 :
  (forall j text, write_pretty j = Some text -> read_tree text = Ok j) ->
  manifest_file <> [] -> manifest_file <> p -> (now < 2 ^ 53)%N ->
  place_script providers_dir adapters_dir host_version sha256 entry kind token a stamp w = (Ok (p, sha), w1) -> seen w = [] ->
  manifest_Load (manifest_text manifest_file w1) = Some m -> keyed m ->
  manifest_Save write_pretty (RecordInstalled (sc_id_ entry) (kind_name kind) (sc_version entry) sha now m) manifest_file suffix answers w1 = (Ok tt, w2) ->
  exists m', manifest_Load (manifest_text manifest_file w2) = Some m' /\
    vi_status (CheckResourceVersion providers_dir adapters_dir host_version sha256 (fs w2) m' kind entry true) = kUpToDate.
Proof.
  intros Hlaw Hmf Hnp Hnow Hplace Hseen Hload Hk Hsave.
  assert (Hpath : DefaultLocalScriptPath providers_dir adapters_dir kind (sc_id_ entry) = p /\ p <> [] /\ Satisfies host_version (sc_vinput_version entry) = true).
  { revert Hplace. unfold place_script. destruct (Satisfies _ _); cbn [negb]; [|done]. destruct (DefaultLocalScriptPath _ _ _ _) as [|x l]; [done|].
    destruct (create_directories _ _) as [[|] ?]; [|done]. destruct (fetch_script _ _ _ _ _ _) as [[|] ?]; [|done].
    destruct (call _ _) as [[|] ?]; [|done]. by intros [= <- _ _]. }
  destruct Hpath as (Hp & Hne & Hsat). destruct w as [t0 fl s]. cbn in Hseen. subst s.
  destruct (script_replaced_whole providers_dir adapters_dir host_version sha256 entry kind token a stamp t0 p fl _ _ Hp Hne Hplace) as [_ [_ Hnew]].
  destruct Hnew as (data & b & Hw & Hd & Hs).
  set (m' := RecordInstalled _ _ _ _ _ m) in *. exists m'.
  assert (Hk' : keyed m') by (apply map_Forall_insert_2; [done|exact Hk]).
  split; [by apply (manifest_roundtrip _ _ _ _ _ _ _ Hlaw Hk' Hmf Hsave)|].
  assert (Hw2 : walk (fs w2) p = Some (File data b)).
  { revert Hsave. unfold manifest_Save. destruct (write_pretty _) as [text|]; [|done]. intros Hsave.
    eapply write_resolved_other; [exact Hmf|exact Hsave|congruence|done]. }
  unfold CheckResourceVersion. rewrite Hsat, Hp, (proj2 (is_empty_false p) Hne). cbn [negb andb].
  unfold exists_at. rewrite Hw2, bool_decide_eq_true_2 by done. cbn [negb].
  unfold manifest_Get, m', RecordInstalled. rewrite lookup_insert_eq. cbn [ir_version ir_sha256].
  destruct (is_empty (sc_version entry)) eqn:Ev; cbn [negb andb].
  - destruct (is_empty (sc_sha256 entry)) eqn:Es; cbn [negb andb]; [done|]. apply is_empty_false in Es.
    rewrite (Hs Es), (proj2 (is_empty_false _) Es), bool_decide_eq_true_2 by done. done.
  - rewrite bool_decide_eq_true_2 by done. cbn [negb andb].
    destruct (is_empty (sc_sha256 entry)) eqn:Es; cbn [negb andb]; [done|]. apply is_empty_false in Es.
    rewrite (Hs Es), (proj2 (is_empty_false _) Es). cbn [negb]. by rewrite bool_decide_eq_true_2.
Qed.
End current.

(** ** What the user defined stays *)

Lemma update_provider_spec entry script_path managed l l' :
  update_provider entry script_path managed l = Ok l' ->
  exists before after old timeout env,
    l = before ++ old ++ after /\ Forall (fun p => AsrProviderId p <> sc_id_ entry) before /\
    l' = before ++ CommandAsrProvider (sc_id_ entry) timeout (sc_command entry) [script_path] env :: after /\
    (old = [] /\ after = [] \/ exists id t c args e, old = [CommandAsrProvider id t c args e] /\ id = sc_id_ entry /\
       IsManagedScriptPath managed args = true /\ env = FillDefaultEnvMap (sc_envs entry) e).
Proof.
  revert l'. induction l as [|p l IH]; intros l'; cbn [update_provider].
  - intros [= <-]. exists [], [], [], 60000%Z, (FillDefaultEnvMap (sc_envs entry) ∅). split_and!; try done. by left.
  - case_bool_decide as Ei.
    + destruct p as [|id t c args e]; [done|]. destruct (IsManagedScriptPath managed args) eqn:Em; [|done]. intros [= <-]. cbn in Ei. subst id.
      exists [], l, [CommandAsrProvider (sc_id_ entry) t c args e], (if (t <=? 0)%Z then 60000 else t)%Z, (FillDefaultEnvMap (sc_envs entry) e).
      split_and!; try done. right. by eexists _, _, _, _, _.
    + destruct (update_provider entry script_path managed l) as [l1|]; [|done]. intros [= <-].
      destruct (IH l1 eq_refl) as (before & after & old & timeout & env & -> & Hb & -> & Hold).
      exists (p :: before), after, old, timeout, env. split_and!; try done. by constructor.
Qed.

(** Entering a downloaded provider changes no other provider and nothing else in the
    configuration, and it never replaces a provider that does not run the managed script. *)
Theorem materialize_keeps_user_providers providers_dir adapters_dir config entry script_path config' :
  MaterializeAsrProvider providers_dir adapters_dir config entry script_path = Ok config' ->
  config' = with_asr_providers config (asr_providers (cc_asr config')) /\
  filter (fun p => AsrProviderId p <> sc_id_ entry) (asr_providers (cc_asr config')) =
    filter (fun p => AsrProviderId p <> sc_id_ entry) (asr_providers (cc_asr config)) /\
  (exists timeout env, CommandAsrProvider (sc_id_ entry) timeout (sc_command entry) [script_path] env ∈ asr_providers (cc_asr config')) /\
  (forall p, list_find (fun q => AsrProviderId q = sc_id_ entry) (asr_providers (cc_asr config)) ≫= (fun x => Some x.2) = Some p ->
     exists timeout command args env, p = CommandAsrProvider (sc_id_ entry) timeout command args env /\
       IsManagedScriptPath (DefaultLocalScriptPath providers_dir adapters_dir kAsrProvider (sc_id_ entry)) args = true).
Proof.
  unfold MaterializeAsrProvider. destruct (DefaultLocalScriptPath _ _ _ _) as [|x managed']; [done|]. set (managed := x :: managed').
  destruct (update_provider _ _ managed _) as [providers|] eqn:Eu; [|done]. intros [= <-]. cbn [cc_asr with_asr_providers asr_providers].
  destruct (update_provider_spec _ _ _ _ _ Eu) as (before & after & old & timeout & env & Hl & Hb & -> & Hold). rewrite Hl.
  split_and!.
  - done.
  - rewrite !filter_app. f_equal. rewrite filter_cons_False by (cbn; tauto).
    destruct Hold as [[-> ->]|(id & t & c & args & e & -> & -> & _)]; [done|]. rewrite filter_cons_False by (cbn; tauto). done.
  - exists timeout, env. apply elem_of_app. right. by left.
  - intros p Hf. destruct (list_find _ _) as [[i q]|] eqn:Ef; [|done]. injection Hf as <-.
    rewrite list_find_app_r in Ef by (apply list_find_None; done).
    destruct Hold as [[-> ->]|(id & t & c & args & e & -> & -> & Hm & _)]; [done|]. cbn in Ef.
    rewrite decide_True in Ef by done. injection Ef as _ <-. by exists t, c, args, e.
Qed.
