(* ===== verification/AudioCapture.v ===== *)
(** * Audio capture (src/src/daemon/audio/audio_capture.cpp, src/src/common/audio/pipewire_device.cpp)

    The devices PipeWire announces and the node a configured target names; the capture
    object: its stream, kept connected for a while after a recording, the process callback
    that splits a buffer into chunks, and the queue the controller reads.

    PipeWire, the clock and the room of the queue (a third-party ring) are the class
    [PipeWire]. The process callback runs on PipeWire's thread, with the loop's lock held:
    at every point where the main thread does not hold that lock and a stream may exist, the
    world says which buffers are processed before the main thread goes on ([interleave]). *)

From S2P Require Import Prelude StringUtils AudioUtils CommandBatch.

(** ** Devices *)

Record DeviceInfo := { dev_id : N; dev_name : bytes; description : bytes; is_sink_monitor : bool }.
Record ResolvedCaptureTarget := { node_name : bytes; is_sink_capture : bool }.

(** A global of the PipeWire registry; [None] is a null property dictionary. *)
Record Global := { gl_id : N; gl_type : bytes; gl_props : option (list (bytes * bytes)) }.
Definition spa_dict_lookup (key : bytes) (props : list (bytes * bytes)) : option bytes :=
  snd <$> head (filter (fun p => p.1 = key) props).

Definition registry_event_global (devices : list DeviceInfo) (g : Global) : list DeviceInfo :=
  match gl_props g with
  | Some props =>
      if gl_type g =b "PipeWire:Interface:Node"%bytes then
        match spa_dict_lookup "media.class" props with
        | None => devices
        | Some cls =>
            let name := spa_dict_lookup "node.name" props in
            let desc := spa_dict_lookup "node.description" props in
            if cls =b "Audio/Source"%bytes then
              devices ++ [{| dev_id := gl_id g; dev_name := default [] name; description := default [] desc;
                             is_sink_monitor := false |}]
            else if cls =b "Audio/Sink"%bytes then
              devices ++ [{| dev_id := gl_id g;
                             dev_name := from_option (fun n => n ++ ".monitor") [] name;
                             description := from_option (fun d => d ++ " (Monitor)")
                                              (from_option (fun n => n ++ " (Monitor)") [] name) desc;
                             is_sink_monitor := true |}]
            else devices
        end
      else devices
  | None => devices
  end.

(** The order of the comparator: sources first, then by identifier. *)
Definition device_before (a b : DeviceInfo) : bool :=
  if eqb (is_sink_monitor a) (is_sink_monitor b) then (dev_id a <? dev_id b)%N
  else negb (is_sink_monitor a) && is_sink_monitor b.
Definition device_le (a b : DeviceInfo) : Prop := device_before b a = false.
#[export] Instance device_le_dec a b : Decision (device_le a b) := decide (device_before b a = false).

(** One enumeration: which steps PipeWire grants, and what the loop hears before it quits. *)
Record Enumeration := {
  en_loop : bool; en_context : bool; en_core : bool; en_sync : Z; en_timer_armed : bool; en_globals : list Global;
}.
Definition EnumerateAudioSources (en : Enumeration) : list DeviceInfo :=
  if negb (en_loop en) then [] else if negb (en_context en) then [] else if negb (en_core en) then []
  else
    let devices :=
      if (0 <=? en_sync en)%Z && en_timer_armed en then foldl registry_event_global [] (en_globals en) else [] in
    merge_sort device_le devices.

Definition kMonitorSuffix : bytes := ".monitor".
Definition default_target (target : bytes) : bool := is_empty target || (target =b "default"%bytes).

Fixpoint match_device (target : bytes) (known : list DeviceInfo) : option ResolvedCaptureTarget :=
  match known with
  | [] => None
  | dev :: known =>
      if dev_name dev =b target then
        Some (if negb (is_sink_monitor dev) then {| node_name := dev_name dev; is_sink_capture := false |}
              else
                let stripped := StripSuffix target kMonitorSuffix in
                {| node_name := if is_empty stripped then dev_name dev else stripped; is_sink_capture := true |})
      else match_device target known
  end.
Definition ResolveCaptureTarget (target : bytes) (known_devices : list DeviceInfo) : ResolvedCaptureTarget :=
  if default_target target then {| node_name := []; is_sink_capture := false |}
  else
    match match_device target known_devices with
    | Some resolved => resolved
    | None =>
        if (length kMonitorSuffix <? length target) && ends_with target kMonitorSuffix
        then {| node_name := StripSuffix target kMonitorSuffix; is_sink_capture := true |}
        else {| node_name := target; is_sink_capture := false |}
    end.

(** *** Targets *)

#[local] Instance device_le_total : Total device_le.
Proof.
  intros a b. unfold device_le, device_before. destruct (is_sink_monitor a), (is_sink_monitor b); cbn; try (by left); try (by right).
  all: destruct (N.ltb_spec (dev_id b) (dev_id a)), (N.ltb_spec (dev_id a) (dev_id b)); try (by left); try (by right); lia.
Qed.
#[local] Instance device_le_trans : Transitive device_le.
Proof.
  intros a b d. unfold device_le, device_before. destruct (is_sink_monitor a), (is_sink_monitor b), (is_sink_monitor d); cbn; try done.
  all: rewrite !N.ltb_ge; lia.
Qed.
Lemma EnumerateAudioSources_sorted en : StronglySorted device_le (EnumerateAudioSources en).
Proof.
  unfold EnumerateAudioSources. repeat (case_match; [constructor|]). apply (StronglySorted_merge_sort _).
Qed.

(** The first device of a name decides. *)
Lemma match_device_found target ds : target ∈ dev_name <$> ds ->
  exists d pre post, ds = pre ++ d :: post /\ dev_name d = target /\ Forall (fun x => dev_name x <> target) pre /\
    match_device target ds = match_device target [d].
Proof.
  induction ds as [|d ds IH]; [by intros ?%elem_of_nil|]. cbn [fmap list_fmap]. intros Hin.
  destruct (decide (dev_name d = target)) as [E|E].
  - exists d, [], ds. split_and!; [done..|]. cbn. by rewrite E, bool_decide_eq_true_2.
  - apply elem_of_cons in Hin as [->|Hin]; [done|]. destruct (IH Hin) as (d' & pre & post & -> & E' & Hf & Hm).
    exists d', (d :: pre), post. split_and!; [done..|by constructor|]. rewrite <-Hm. cbn. by rewrite bool_decide_eq_false_2.
Qed.
Lemma strip_monitor n : StripSuffix (n ++ kMonitorSuffix) kMonitorSuffix = n.
Proof.
  unfold StripSuffix. replace (ends_with _ _) with true by (symmetry; apply ends_with_spec; eauto).
  unfold substr. rewrite length_app, Nat.add_sub. apply take_app_length.
Qed.

(** A listed source is captured under its own name, even when a sink's monitor is listed under
    the same name; the monitor of a sink captures that sink unless a source has its name. *)
Theorem resolve_listed_device en d :
  d ∈ EnumerateAudioSources en -> default_target (dev_name d) = false ->
  (is_sink_monitor d = false ->
     ResolveCaptureTarget (dev_name d) (EnumerateAudioSources en) = {| node_name := dev_name d; is_sink_capture := false |}) /\
  (forall n, dev_name d = n ++ kMonitorSuffix -> n <> [] ->
     Forall (fun x => is_sink_monitor x = false -> dev_name x <> dev_name d) (EnumerateAudioSources en) ->
     ResolveCaptureTarget (dev_name d) (EnumerateAudioSources en) = {| node_name := n; is_sink_capture := true |}).
Proof.
  intros Hin Hd. unfold ResolveCaptureTarget. rewrite Hd.
  destruct (match_device_found (dev_name d) (EnumerateAudioSources en)) as (f & pre & post & Es & Ef & Hpre & ->).
  { by apply list_elem_of_fmap_2. }
  cbn [match_device]. rewrite bool_decide_eq_true_2 by done. split.
  - intros Hs. assert (is_sink_monitor f = false) as ->; [|by rewrite Ef].
    pose proof (EnumerateAudioSources_sorted en) as Hsort. rewrite Es in Hsort, Hin.
    apply elem_of_app in Hin as [Hin|[->|Hin]%elem_of_cons]; [|done|].
    { rewrite Forall_forall in Hpre. by destruct (Hpre d Hin). }
    apply StronglySorted_app_1_r in Hsort. apply StronglySorted_inv in Hsort as [_ Hf]. rewrite Forall_forall in Hf.
    specialize (Hf d Hin). unfold device_le, device_before in Hf. rewrite Hs in Hf. by destruct (is_sink_monitor f).
  - intros n Hn Hne Hf. rewrite Forall_forall in Hf. assert (is_sink_monitor f = true) as ->.
    { destruct (is_sink_monitor f) eqn:E; [done|]. destruct (Hf f); [rewrite Es; set_solver|done..]. }
    cbn. rewrite Hn, strip_monitor. apply is_empty_false in Hne. by rewrite Hne.
Qed.

(** ** Chunks (src/src/daemon/audio/audio_types.h) *)

Definition kMaxChunkSamples : nat := 2048.

(** [samples] is the whole array, [chunk_size] the field [size]. *)
Record AudioPcmChunk := { samples : list Z; chunk_size : N }.
Definition empty_chunk : AudioPcmChunk := {| samples := replicate kMaxChunkSamples 0%Z; chunk_size := 0 |}.

(** Copying [src] to the front of the array. *)
Definition write_front (src array : list Z) : list Z := src ++ drop (length src) array.
Definition FromSpan (src : list Z) : AudioPcmChunk :=
  let copy_size := length src `min` kMaxChunkSamples in
  if decide (0 < copy_size)
  then {| samples := write_front (take copy_size src) (samples empty_chunk); chunk_size := N.of_nat copy_size |}
  else empty_chunk.
Definition AsSpan (c : AudioPcmChunk) : list Z := take (N.to_nat (chunk_size c)) (samples c).

(** ** The environment's settings *)

Definition first_in (set : bytes) (value : option bytes) : bool :=
  match value with Some (c :: _) => bool_decide (c ∈ set) | _ => false end.
Definition EnvTruthy : option bytes -> bool := first_in "1tTyY".
Definition EnvFalsey : option bytes -> bool := first_in "0fFnN".

Definition StreamReuseEnabled (env : bytes -> option bytes) : bool :=
  match env "VINPUT_CAPTURE_REUSE" with
  | None => true
  | value => if EnvFalsey value then false else if EnvTruthy value then true else true
  end.

Definition is_blank (c : Ascii.ascii) : bool := bool_decide (c ∈ [Ascii.ascii_of_N 32; Ascii.ascii_of_N 9]).
Fixpoint skip_blanks (s : bytes) : bytes :=
  match s with c :: s' => if is_blank c then skip_blanks s' else s | [] => [] end.
Definition skip_plus (s : bytes) : bytes :=
  match s with c :: s' => if bool_decide (c = Ascii.ascii_of_N 43) then s' else s | [] => [] end.
Definition long_type : int_type := {| it_signed := true; it_min := -9223372036854775808; it_max := 9223372036854775807 |}.
Definition IdleDestroyMs (env : bytes -> option bytes) : Z :=
  match env "VINPUT_CAPTURE_IDLE_DESTROY_MS" with
  | None | Some [] => 15000
  | Some value =>
      let sv := reverse (skip_blanks (reverse (skip_plus (skip_blanks value)))) in
      if is_empty sv then 15000
      else
        match from_chars long_type 10 sv with
        | Some (parsed, []) => if (parsed <? 0)%Z then 15000 else Z.min parsed 600000
        | _ => 15000
        end
  end.

(** ** The capture object *)

(** A buffer of the stream. [spa_maxsize] bytes are mapped at [spa_data]. *)
Record SpaData := { spa_data : option bytes; spa_maxsize : N; spa_chunk : option (N * N) }.
Record PwBuffer := { pw_datas : option (list SpaData) }.

Record StreamProperties := { capture_sink : bytes; target_node : option bytes }.

Definition kDefaultQueueCapacity : nat := 2048.

(** Return codes are negative for failures, as in the C interface. *)
Class PipeWire (W : Type) := {
  pw_thread_loop_new : W -> bool * W;
  pw_thread_loop_start : W -> Z * W;
  pw_thread_loop_destroy : W -> W;
  pw_enumerate : W -> Enumeration * W;
  pw_properties_new : W -> bool * W;
  pw_stream_new_simple : StreamProperties -> W -> bool * W;
  pw_stream_connect : bool -> W -> Z * W;
  pw_stream_set_active : bool -> W -> Z * W;
  pw_stream_destroy : W -> W;
  pw_process : W -> list (option PwBuffer) * W;
  queue_room : list AudioPcmChunk -> W -> bool;
  strerror : Z -> bytes;
  steady_now : W -> Z * W;
}.

Record AudioCapture (W : Type) := {
  world : W; loop_ : bool; stream_ : bool; recording_ : bool;
  target_object_ : bytes; connected_target_object_ : bytes; stream_active_ : bool;
  queue_ : list AudioPcmChunk; dropped_chunks_ : N; dropped_samples_ : N; notify_fd_ : Z;
  recording_armed_ns_ : Z; first_buffer_ns_ : Z;
  last_stream_destroyed_at_ : option Z; last_stream_deactivated_at_ : option Z; idle_destroy_deadline_ : option Z;
  (* since the last [BeginRecording]: the samples of the
     buffers processed, those that entered the queue, those taken from it, and the chunks
     that were dropped *)
  heard : list Z; accepted : list Z; taken : list Z; lost : list (list Z);
  signals : nat;                    (* writes to the notification descriptor *)
  undefined : bool;                 (* a read outside the buffer's memory *)
}.
Arguments world {W}. Arguments loop_ {W}. Arguments stream_ {W}. Arguments recording_ {W}. Arguments target_object_ {W}.
Arguments connected_target_object_ {W}. Arguments stream_active_ {W}. Arguments queue_ {W}. Arguments dropped_chunks_ {W}.
Arguments dropped_samples_ {W}. Arguments notify_fd_ {W}. Arguments recording_armed_ns_ {W}. Arguments first_buffer_ns_ {W}.
Arguments last_stream_destroyed_at_ {W}. Arguments last_stream_deactivated_at_ {W}. Arguments idle_destroy_deadline_ {W}.
Arguments heard {W}. Arguments accepted {W}. Arguments taken {W}. Arguments lost {W}. Arguments signals {W}.
Arguments undefined {W}. Arguments Build_AudioCapture {W}.
#[export] Instance AudioCapture_fields W : Fields (AudioCapture W) := fun c =>
  Build_AudioCapture (world c) (loop_ c) (stream_ c) (recording_ c) (target_object_ c) (connected_target_object_ c)
    (stream_active_ c) (queue_ c) (dropped_chunks_ c) (dropped_samples_ c) (notify_fd_ c) (recording_armed_ns_ c)
    (first_buffer_ns_ c) (last_stream_destroyed_at_ c) (last_stream_deactivated_at_ c) (idle_destroy_deadline_ c)
    (heard c) (accepted c) (taken c) (lost c) (signals c) (undefined c).

Definition new_capture {W} (w : W) : AudioCapture W :=
  Build_AudioCapture w false false false [] [] false [] 0 0 (-1) 0 0 None None None [] [] [] [] 0 false.

(** The timing of one [BeginRecording]; the durations only go to the log. *)
Record StartTiming := { stream_reused : bool; created_new_stream : bool; reuse_policy_enabled : bool }.

Definition u32_add (a b : N) : N := ((a + b) mod 4294967296)%N.

Section capture.
Context {W : Type} `{PipeWire W} (env : bytes -> option bytes).
Abbreviation capture := (AudioCapture W).
Implicit Types c : capture.

Definition read_clock c : Z * capture :=
  let '(now, w) := steady_now (world c) in (now, c <| world := w |>).

(** *** The process callback *)

(** [memcpy] of [count] samples at byte [pos]; [None] outside the mapped bytes. *)
Definition copy_samples (raw : bytes) (pos : N) (count : nat) : option (list Z) :=
  if (pos + N.of_nat (2 * count) <=? size raw)%N then Some (samples_of (take (2 * count) (drop (N.to_nat pos) raw))) else None.

(** [queue_.try_enqueue(chunk)], with the counters. *)
Definition offer (chunk : AudioPcmChunk) c : bool * capture :=
  if queue_room (queue_ c) (world c)
  then (true, c <| queue_ := queue_ c ++ [chunk] |> <| accepted := accepted c ++ AsSpan chunk |>)
  else (false, c <| dropped_chunks_ := u64_add (dropped_chunks_ c) 1 |>
                 <| dropped_samples_ := u64_add (dropped_samples_ c) (chunk_size chunk) |>
                 <| lost := lost c ++ [AsSpan chunk] |>).

(** The loop over the buffer, from sample [offset_samples] on. *)
Fixpoint enqueue_loop (fuel : nat) (raw : bytes) (offset : N) (n_samples offset_samples : nat) (enqueued_any : bool) c : bool * capture :=
  match fuel with
  | O => (enqueued_any, c)
  | S fuel =>
      if decide (offset_samples < n_samples) then
        let to_copy := (n_samples - offset_samples) `min` kMaxChunkSamples in
        match copy_samples raw (offset + N.of_nat (offset_samples * 2))%N to_copy with
        | None => (enqueued_any, c <| undefined := true |>)
        | Some pcm =>
            let chunk := {| samples := write_front pcm (samples empty_chunk); chunk_size := N.of_nat to_copy |} in
            let '(entered, c) := offer chunk (c <| heard := heard c ++ pcm |>) in
            enqueue_loop fuel raw offset n_samples (offset_samples + to_copy) (entered || enqueued_any) c
        end
      else (enqueued_any, c)
  end.

(** The fields the callback reads of a buffer that is not skipped. *)
Definition buffer_fields (b : PwBuffer) : option (bytes * N * (N * N)) :=
  match pw_datas b with
  | Some (d :: _) =>
      match spa_data d, spa_chunk d with
      | Some raw, Some chunk => Some (raw, spa_maxsize d, chunk)
      | _, _ => None
      end
  | _ => None
  end.

Definition processCallback c (dequeued : option PwBuffer) : capture :=
  if negb (stream_ c) then c
  else
    match dequeued ≫= buffer_fields with
    | None => c
    | Some (raw, maxsize, (offset, size)) =>
        if recording_ c && (0 <? size)%N && (u32_add offset size <=? maxsize)%N then
          let n_samples := N.to_nat (size / 2) in
          if decide (0 < n_samples) then
            let '(now_ns, c) := read_clock c in
            let c := if (first_buffer_ns_ c =? 0)%Z then c <| first_buffer_ns_ := now_ns |> else c in
            let '(enqueued_any, c) := enqueue_loop n_samples raw offset n_samples 0 false c in
            if enqueued_any && (0 <=? notify_fd_ c)%Z then c <| signals := S (signals c) |> else c
          else c
        else c
    end.

(** The callbacks that run before the main thread goes on. *)
Definition interleave c : capture :=
  let '(buffers, w) := pw_process (world c) in foldl processCallback (c <| world := w |>) buffers.

(** *** The stream *)

Definition Start c : result unit * capture :=
  if loop_ c then (Ok tt, c)
  else
    let '(made, w) := pw_thread_loop_new (world c) in
    let c := c <| world := w |> <| loop_ := made |> in
    if negb made then (Err "failed to create PipeWire thread loop", c)
    else
      let '(ret, w) := pw_thread_loop_start (world c) in
      if (ret <? 0)%Z
      then (Err ("failed to start PipeWire thread loop: " ++ strerror (- ret)),
            c <| world := pw_thread_loop_destroy w |> <| loop_ := false |>)
      else (Ok tt, c <| world := w |>).

Definition CurrentTargetObject c : bytes := target_object_ c.

Definition CanReuseStreamLocked c : bool :=
  if negb (stream_ c) then false
  else
    let wanted := CurrentTargetObject c in
    if default_target wanted then default_target (connected_target_object_ c)
    else connected_target_object_ c =b wanted.

Definition CreateStream (start_inactive : bool) c : result unit * capture :=
  if negb (loop_ c) then (Err "audio capture loop is not initialized", c)
  else if stream_ c then (Ok tt, c)
  else
    let target_object := CurrentTargetObject c in
    let '(en, w) := pw_enumerate (world c) in
    let resolved := ResolveCaptureTarget target_object (EnumerateAudioSources en) in
    let '(allocated, w) := pw_properties_new w in
    if negb allocated then (Err "failed to allocate PipeWire properties", c <| world := w |>)
    else
      let properties := {| capture_sink := if is_sink_capture resolved then "true" else "false";
                           target_node := if is_empty (node_name resolved) then None else Some (node_name resolved) |} in
      let '(made, w) := pw_stream_new_simple properties w in
      let c := c <| world := w |> <| stream_ := made |> in
      if negb made then (Err "failed to create PipeWire stream", c)
      else
        let '(ret, w) := pw_stream_connect start_inactive (world c) in
        if (ret <? 0)%Z
        then (Err ("failed to connect PipeWire stream: " ++ strerror (- ret)),
              c <| world := pw_stream_destroy w |> <| stream_ := false |> <| stream_active_ := false |>)
        else (Ok tt, interleave (c <| world := w |> <| stream_active_ := negb start_inactive |>
                       <| connected_target_object_ := if default_target target_object then [] else target_object |>)).

Definition MarkStreamDestroyed c : capture :=
  let '(now, c) := read_clock c in
  c <| last_stream_destroyed_at_ := Some now |> <| last_stream_deactivated_at_ := Some now |>
    <| idle_destroy_deadline_ := None |> <| recording_armed_ns_ := 0%Z |> <| first_buffer_ns_ := 0%Z |>.
Definition MarkStreamDeactivated c : capture :=
  let '(now, c) := read_clock c in
  c <| last_stream_deactivated_at_ := Some now |> <| recording_armed_ns_ := 0%Z |> <| first_buffer_ns_ := 0%Z |>.

Definition SetStreamActive (active : bool) c : result unit * capture :=
  if negb (loop_ c) || negb (stream_ c) then (Err "audio capture stream is not initialized", c)
  else if eqb (stream_active_ c) active then (Ok tt, c)
  else
    let '(ret, w) := pw_stream_set_active active (world c) in
    if (ret <? 0)%Z
    then (Err ("failed to set PipeWire stream active=" ++ (if active then "true" else "false") ++ ": " ++ strerror (- ret)),
          interleave (c <| world := w |>))
    else
      let c := interleave (c <| world := w |> <| stream_active_ := active |>) in
      (Ok tt, if negb active then MarkStreamDeactivated c else c).

Definition ScheduleIdleDestroy c : capture :=
  let grace_ms := IdleDestroyMs env in
  let '(now, c) := read_clock c in
  c <| idle_destroy_deadline_ := Some (if (grace_ms <=? 0)%Z then now else now + grace_ms * 1000000)%Z |>.
Definition CancelIdleDestroy c : capture := c <| idle_destroy_deadline_ := None |>.

Definition DestroyStream c : capture :=
  let c := c <| recording_ := false |> in
  if negb (loop_ c) || negb (stream_ c)
  then c <| stream_active_ := false |> <| connected_target_object_ := [] |> <| idle_destroy_deadline_ := None |>
  else MarkStreamDestroyed (c <| world := pw_stream_destroy (world c) |> <| stream_ := false |>
         <| stream_active_ := false |> <| connected_target_object_ := [] |>).

Definition MaybeDestroyExpiredStream c : bool * capture :=
  if recording_ c then (false, c)
  else if negb (stream_ c) then (false, c)
  else
    match idle_destroy_deadline_ c with
    | None => (false, c)
    | Some deadline =>
        let '(now, c) := read_clock c in
        if (now <? deadline)%Z then (false, c) else (true, DestroyStream c)
    end.

Definition destroy_capture c : capture :=
  let c := DestroyStream c in
  if loop_ c then c <| world := pw_thread_loop_destroy (world c) |> <| loop_ := false |> else c.

(** *** Recording *)

Definition ResetDropCounters c : capture := c <| dropped_chunks_ := 0%N |> <| dropped_samples_ := 0%N |> <| lost := [] |>.

(** The queue emptied for a new recording. *)
Definition discard_queue c : capture := c <| queue_ := [] |> <| heard := [] |> <| accepted := [] |> <| taken := [] |>.

Definition arm_recording c : capture :=
  let '(begin_ns, c) := read_clock c in
  c <| first_buffer_ns_ := 0%Z |> <| recording_armed_ns_ := begin_ns |>.

Definition set_recording (b : bool) c : capture := interleave (c <| recording_ := b |>).

(** The end of both starts: the stream is created, and activated if it was created inactive. *)
Definition create_and_activate (inactive : bool) (timing : StartTiming) c : result StartTiming * capture :=
  match CreateStream inactive c with
  | (Err e, c) => (Err e, c <| recording_ := false |> <| recording_armed_ns_ := 0%Z |>)
  | (Ok _, c) =>
      if inactive then
        match SetStreamActive true c with
        | (Err e, c) => (Err e, DestroyStream (c <| recording_ := false |>))
        | (Ok _, c) => (Ok timing, c)
        end
      else (Ok timing, c)
  end.

Definition begin_fresh (reuse_policy : bool) c : result StartTiming * capture :=
  create_and_activate reuse_policy
    {| stream_reused := false; created_new_stream := true; reuse_policy_enabled := reuse_policy |}
    (set_recording true (arm_recording (DestroyStream c))).

(** The reused stream; one full recreation if it cannot be activated. *)
Definition begin_reused (reuse_policy : bool) c : result StartTiming * capture :=
  match SetStreamActive true (set_recording true (arm_recording c)) with
  | (Ok _, c) => (Ok {| stream_reused := true; created_new_stream := false; reuse_policy_enabled := reuse_policy |}, c)
  | (Err _, c) =>
      create_and_activate true
        {| stream_reused := false; created_new_stream := true; reuse_policy_enabled := reuse_policy |}
        (arm_recording (DestroyStream c))
  end.

Definition BeginRecording c : result StartTiming * capture :=
  let reuse_policy := StreamReuseEnabled env in
  let c := interleave (ResetDropCounters (discard_queue (interleave (CancelIdleDestroy c)))) in
  if reuse_policy && CanReuseStreamLocked c then begin_reused reuse_policy c else begin_fresh reuse_policy c.

(** The stream kept for the next recording, the part [EndRecording] and [StopAndGetBuffer] share. *)
Definition deactivate c : capture :=
  match SetStreamActive false c with
  | (Err _, c) => DestroyStream c
  | (Ok _, c) => if (IdleDestroyMs env <=? 0)%Z then DestroyStream c else ScheduleIdleDestroy c
  end.

Definition EndRecording c : capture :=
  let c := set_recording false c in
  if StreamReuseEnabled env && stream_ c then deactivate c else c.

(** Every chunk of the queue, in order. *)
Definition drain_queue c : list Z * capture :=
  let pcm := concat (AsSpan <$> queue_ c) in (pcm, c <| queue_ := [] |> <| taken := taken c ++ pcm |>).

Definition StopAndGetBuffer c : list Z * capture :=
  let c := set_recording false c in
  drain_queue (if StreamReuseEnabled env && stream_ c then deactivate c else DestroyStream c).

Definition Stop c : capture := (drain_queue (DestroyStream (CancelIdleDestroy (set_recording false c)))).2.

Definition IsRecording c : bool := recording_ c.
Definition TryDequeue c : option AudioPcmChunk * capture :=
  match queue_ c with
  | [] => (None, c)
  | chunk :: q => (Some chunk, c <| queue_ := q |> <| taken := taken c ++ AsSpan chunk |>)
  end.
Definition SetNotifyFd (fd : Z) c : capture := c <| notify_fd_ := fd |>.
Definition DroppedChunks c : N := dropped_chunks_ c.
Definition DroppedSamples c : N := dropped_samples_ c.
Definition FirstBufferLatencyMs c : option Z :=
  if (recording_armed_ns_ c <=? 0)%Z || (first_buffer_ns_ c <=? 0)%Z || (first_buffer_ns_ c <? recording_armed_ns_ c)%Z
  then None else Some ((first_buffer_ns_ c - recording_armed_ns_ c) ÷ 1000000)%Z.

Definition SetTargetObject (target_object : bytes) c : capture :=
  if target_object_ c =b target_object then c
  else
    let c := c <| target_object_ := target_object |> in
    if negb (recording_ c) && stream_ c then DestroyStream c else c.

(** ** What the callbacks leave alone *)

(** The part of the object that only the main thread writes. *)
Record Control := {
  k_loop : bool; k_stream : bool; k_recording : bool; k_target : bytes; k_connected : bytes; k_active : bool;
  k_deadline : option Z;
}.
#[local] Instance Control_fields : Fields Control := fun k =>
  Build_Control (k_loop k) (k_stream k) (k_recording k) (k_target k) (k_connected k) (k_active k) (k_deadline k).
Definition control c : Control :=
  Build_Control (loop_ c) (stream_ c) (recording_ c) (target_object_ c) (connected_target_object_ c) (stream_active_ c)
    (idle_destroy_deadline_ c).

(** Samples are conserved: what was taken and what waits is what entered the queue; what was
    heard and did not enter is counted as dropped. *)
Record ledger c : Prop := {
  lg_order : taken c ++ concat (AsSpan <$> queue_ c) = accepted c;
  lg_sub : accepted c `sublist_of` heard c;
  lg_size : length (heard c) = length (accepted c) + length (concat (lost c));
  lg_chunks : dropped_chunks_ c = u64_wrap (size (lost c));
  lg_samples : dropped_samples_ c = u64_wrap (size (concat (lost c)));
}.

(** The fields [ledger] speaks about. *)
Definition books c :=
  (taken c, queue_ c, accepted c, heard c, lost c, dropped_chunks_ c, dropped_samples_ c, undefined c).
Lemma ledger_books c c' : books c' = books c -> ledger c -> ledger c'.
Proof. unfold books. intros [= E1 E2 E3 E4 E5 E6 E7 _] []. constructor; congruence. Qed.
Lemma sublist_full {A} (l k : list A) : l `sublist_of` k -> length k <= length l -> l = k.
Proof.
  induction 1 as [|x l k _ IH|x l k Hs _]; simpl; intros Hl; [done|f_equal; apply IH; lia|].
  apply sublist_length in Hs. lia.
Qed.
Lemma ledger_lossless c : ledger c -> lost c = [] -> accepted c = heard c.
Proof. intros [_ L2 L3 _ _] Hl. rewrite Hl in L3. cbn in L3. apply sublist_full; [done|]. lia. Qed.

Lemma write_front_span (pcm : list Z) : length pcm <= kMaxChunkSamples ->
  AsSpan {| samples := write_front pcm (samples empty_chunk); chunk_size := N.of_nat (length pcm) |} = pcm.
Proof. intros _. unfold AsSpan, write_front. cbn [samples chunk_size]. rewrite Nat2N.id. by rewrite take_app_length. Qed.

Lemma samples_of_length (b : bytes) n : length b = 2 * n -> length (samples_of b) = n.
Proof.
  revert b. induction n as [|n IH]; intros b Hb; [by destruct b|].
  destruct b as [|x [|y b]]; [simpl in Hb; lia..|]. cbn. rewrite IH; [done|]. simpl in Hb. lia.
Qed.
Lemma copy_samples_length raw pos count pcm : copy_samples raw pos count = Some pcm -> length pcm = count.
Proof.
  unfold copy_samples, size. destruct (N.leb_spec (pos + N.of_nat (2 * count)) (N.of_nat (length raw))); [|done]. intros [= <-].
  apply samples_of_length. rewrite length_take, length_drop. lia.
Qed.

Lemma offer_ledger pcm c :
  length pcm <= kMaxChunkSamples -> ledger c ->
  let chunk := {| samples := write_front pcm (samples empty_chunk); chunk_size := N.of_nat (length pcm) |} in
  let r := offer chunk (c <| heard := heard c ++ pcm |>) in
  ledger r.2 /\ control r.2 = control c /\ heard r.2 = heard c ++ pcm /\ undefined r.2 = undefined c.
Proof.
  intros Hp [L1 L2 L3 L4 L5] chunk r. pose proof (write_front_span pcm Hp : AsSpan chunk = pcm) as Hs.
  unfold r, offer. case_match; cbn [snd]; (split; [|done]); constructor; cbn -[empty_chunk].
  - change (taken c ++ concat (AsSpan <$> queue_ c ++ [chunk]) = accepted c ++ AsSpan chunk).
    rewrite fmap_app, concat_app, app_assoc, L1. cbn. by rewrite app_nil_r.
  - rewrite Hs. by apply sublist_app.
  - rewrite Hs, !length_app. lia.
  - done.
  - done.
  - done.
  - by apply sublist_inserts_r.
  - rewrite Hs, concat_app, !length_app. cbn. rewrite app_nil_r. lia.
  - rewrite L4, u64_add_wrap_l, size_app. done.
  - rewrite L5, u64_add_wrap_l, Hs, concat_app, size_app. cbn. by rewrite app_nil_r.
Qed.

(** The samples of the buffer from sample [i] on. *)
Definition samples_from (raw : bytes) (offset : N) (n i : nat) : list Z :=
  samples_of (take (2 * (n - i)) (drop (N.to_nat offset + i * 2) raw)).

Lemma samples_of_split (b : bytes) k : 2 * k <= length b ->
  samples_of b = samples_of (take (2 * k) b) ++ samples_of (drop (2 * k) b).
Proof.
  revert b. induction k as [|k IH]; intros b Hb; [done|].
  destruct b as [|x [|y b]]; [simpl in Hb; lia..|]. replace (2 * S k) with (S (S (2 * k))) by lia. cbn.
  f_equal. apply (IH b). simpl in Hb. lia.
Qed.

(** The loop hears every sample of a buffer within its memory, and reads nothing else. *)
Lemma enqueue_loop_hears fuel raw offset n i any c :
  n <= i + fuel -> N.to_nat offset + 2 * n <= length raw -> ledger c ->
  let r := enqueue_loop fuel raw offset n i any c in
  ledger r.2 /\ control r.2 = control c /\ heard r.2 = heard c ++ samples_from raw offset n i /\
  undefined r.2 = undefined c.
Proof.
  revert i any c. induction fuel as [|fuel IH]; intros i any c Hf Hb Hl; cbn [enqueue_loop].
  - unfold samples_from. replace (2 * (n - i)) with 0 by lia. cbn. by rewrite app_nil_r.
  - case_decide as Hi.
    2: { unfold samples_from. replace (2 * (n - i)) with 0 by lia. cbn. by rewrite app_nil_r. }
    set (k := (n - i) `min` kMaxChunkSamples) in *. cbv zeta.
    assert (Hk : 0 < k <= n - i) by (unfold k, kMaxChunkSamples; lia).
    destruct (copy_samples raw (offset + N.of_nat (i * 2)) k) as [pcm|] eqn:Hc.
    2: { unfold copy_samples, size in Hc. destruct (N.leb_spec (offset + N.of_nat (i * 2) + N.of_nat (2 * k)) (N.of_nat (length raw))); [done|lia]. }
    pose proof (copy_samples_length _ _ _ _ Hc) as Hlen. rewrite <-Hlen.
    destruct (offer_ledger pcm c) as (L & K & Hh & Hu); [unfold k in Hlen; lia|done|].
    destruct (offer _ _) as [entered c1]. cbn [snd] in *.
    destruct (IH (i + length pcm) (entered || any) c1) as (L' & K' & Hh' & Hu'); [lia|lia|done|].
    split_and!; [done|congruence| |congruence]. rewrite Hh', Hh, <-app_assoc, Hlen. f_equal.
    unfold copy_samples in Hc. case_match; [|done]. injection Hc as <-. unfold samples_from.
    replace (N.to_nat (offset + N.of_nat (i * 2))) with (N.to_nat offset + i * 2) by lia.
    rewrite (samples_of_split (take (2 * (n - i)) _) k) by (rewrite length_take, length_drop; lia).
    rewrite take_take, Nat.min_l by lia. f_equal.
    rewrite skipn_firstn_comm, drop_drop. by replace (N.to_nat offset + (i + k) * 2) with (N.to_nat offset + i * 2 + 2 * k) by lia;
      replace (2 * (n - i) - 2 * k) with (2 * (n - (i + k))) by lia.
Qed.

Lemma enqueue_loop_keeps fuel raw offset n i any c : ledger c ->
  let r := enqueue_loop fuel raw offset n i any c in ledger r.2 /\ control r.2 = control c.
Proof.
  revert i any c. induction fuel as [|fuel IH]; intros i any c Hl; cbn [enqueue_loop]; [done|].
  case_decide as Hi; [|done]. cbv zeta. destruct (copy_samples _ _ _) as [pcm|] eqn:Hc.
  2: { split; [|done]. by destruct Hl; constructor. }
  pose proof (copy_samples_length _ _ _ _ Hc) as Hlen. rewrite <-Hlen.
  destruct (offer_ledger pcm c) as (L & K & _); [lia|done|].
  destruct (offer _ _) as [entered c1]. cbn [snd] in *.
  destruct (IH (i + length pcm) (entered || any) c1 L). split; [done|congruence].
Qed.

(** The clock read and the first-buffer mark of a callback. *)
Lemma first_mark_keeps (now : Z) (w : W) c :
  let c' := if (first_buffer_ns_ (c <| world := w |>) =? 0)%Z
            then c <| world := w |> <| first_buffer_ns_ := now |> else c <| world := w |> in
  books c' = books c /\ control c' = control c.
Proof. cbv zeta. by case_match. Qed.

Lemma callback_keeps c b : ledger c -> ledger (processCallback c b) /\ control (processCallback c b) = control c.
Proof.
  intros Hl. unfold processCallback, read_clock. destruct (negb (stream_ c)); [done|].
  destruct (b ≫= buffer_fields) as [[[raw maxsize] [offset size]]|]; [|done].
  destruct (recording_ c && _ && _); [|done]. cbv zeta. case_decide; [|done].
  destruct (steady_now (world c)) as [now w]. destruct (first_mark_keeps now w c) as [Hb Hk]. cbv zeta in Hb, Hk.
  apply (ledger_books _ _ Hb) in Hl. revert Hb Hk Hl. generalize (if (first_buffer_ns_ (c <| world := w |>) =? 0)%Z
            then c <| world := w |> <| first_buffer_ns_ := now |> else c <| world := w |>).
  intros c1 _ Hk Hl. destruct (enqueue_loop_keeps (N.to_nat (size / 2)) raw offset (N.to_nat (size / 2)) 0 false c1 Hl) as [L K].
  destruct (enqueue_loop _ _ _ _ _ _ _) as [any c2]. cbn [snd] in *. case_match; (split; [|unfold control in *; cbn in *; congruence]); [|done].
  by apply (ledger_books c2).
Qed.

Lemma interleave_keeps c : ledger c -> ledger (interleave c) /\ control (interleave c) = control c.
Proof.
  unfold interleave. destruct (pw_process (world c)) as [bs w]. intros Hl.
  assert (Hw : ledger (c <| world := w |>)) by by apply (ledger_books c). clear Hl. change (control c) with (control (c <| world := w |>)).
  revert Hw. generalize (c <| world := w |>) as d. induction bs as [|b bs IH]; intros d Hd; [done|].
  cbn [foldl]. destruct (callback_keeps d b Hd) as [L K]. destruct (IH _ L) as [L' K']. split; [done|congruence].
Qed.

(** A callback does nothing without a stream or outside a recording. *)
Lemma callback_idle c b : stream_ c && recording_ c = false -> processCallback c b = c.
Proof.
  unfold processCallback. intros Hs. destruct (stream_ c); cbn in *; [|done].
  destruct (b ≫= buffer_fields) as [[[raw maxsize] [offset size]]|]; [|done]. by rewrite Hs.
Qed.
Lemma interleave_idle c : stream_ c && recording_ c = false -> exists w, interleave c = c <| world := w |>.
Proof.
  intros Hs. unfold interleave. destruct (pw_process (world c)) as [bs w]. exists w.
  assert (Hw : stream_ (c <| world := w |>) && recording_ (c <| world := w |>) = false) by done.
  revert Hw. generalize (c <| world := w |>) as d. induction bs as [|b bs IH]; intros d Hd; [done|].
  cbn [foldl]. rewrite callback_idle by done. by apply IH.
Qed.

(** What PipeWire promises of a buffer: [maxsize] bytes are mapped, and the chunk's end fits
    a [uint32_t]. *)
Definition buffer_ok (b : option PwBuffer) : Prop :=
  forall raw maxsize offset size, b ≫= buffer_fields = Some (raw, maxsize, (offset, size)) ->
  N.of_nat (length raw) = maxsize /\ (offset + size < 4294967296)%N.

(** The samples of a buffer, none if its chunk lies outside its memory. *)
Definition buffer_samples (b : option PwBuffer) : list Z :=
  match b ≫= buffer_fields with
  | Some (raw, maxsize, (offset, size)) =>
      if (offset + size <=? maxsize)%N then samples_from raw offset (N.to_nat (size / 2)) 0 else []
  | None => []
  end.

Lemma callback_hears c b :
  stream_ c = true -> recording_ c = true -> buffer_ok b -> ledger c ->
  heard (processCallback c b) = heard c ++ buffer_samples b /\ undefined (processCallback c b) = undefined c.
Proof.
  intros Hs Hr Hok Hl. unfold processCallback, buffer_samples, read_clock. rewrite Hs. cbn [negb].
  destruct (b ≫= buffer_fields) as [[[raw maxsize] [offset size]]|] eqn:Eb; [|by rewrite app_nil_r].
  destruct (Hok _ _ _ _ Eb) as [Hm Ho]. unfold u32_add. rewrite N.mod_small, Hr by done. cbn [andb].
  destruct (N.leb_spec (offset + size) maxsize) as [Hle|]; [|by rewrite andb_false_r, app_nil_r].
  rewrite andb_true_r. assert (Hz : ~ 0 < N.to_nat (size / 2) -> samples_from raw offset (N.to_nat (size / 2)) 0 = []).
  { intros Hn. unfold samples_from. destruct (N.to_nat (size / 2)); [done|]. exfalso. apply Hn. apply Nat.lt_0_succ. }
  destruct (N.ltb_spec 0 size) as [Hp|Hp].
  2: { rewrite Hz, app_nil_r; [done|]. replace size with 0%N by lia. apply Nat.lt_irrefl. }
  cbv zeta. case_decide; [|by rewrite Hz, app_nil_r]. destruct (steady_now (world c)) as [now w].
  destruct (first_mark_keeps now w c) as [Hb _]. cbv zeta in Hb. apply (ledger_books _ _ Hb) in Hl.
  revert Hb Hl. generalize (if (first_buffer_ns_ (c <| world := w |>) =? 0)%Z
            then c <| world := w |> <| first_buffer_ns_ := now |> else c <| world := w |>).
  intros c1 [= _ _ _ Eh _ _ _ Eu] Hl.
  destruct (enqueue_loop_hears (N.to_nat (size / 2)) raw offset (N.to_nat (size / 2)) 0 false c1) as (_ & _ & Hh & Hu); [lia| |done|].
  { pose proof (N.Div0.mul_div_le size 2). lia. }
  destruct (enqueue_loop _ _ _ _ _ _ _) as [any c2]. cbn [snd] in *. case_match; (split; [etransitivity; [exact Hh|by rewrite Eh] | etransitivity; [exact Hu|exact Eu]]).
Qed.

(** ** The stream's states *)

Record control_inv (k : Control) : Prop := {
  ki_loop : k_stream k = true -> k_loop k = true;
  ki_active : k_active k = true -> k_stream k = true;
  ki_none : k_stream k = false -> k_connected k = [] /\ k_deadline k = None;
  ki_deadline : forall d, k_deadline k = Some d -> k_recording k = false /\ k_active k = false;
  ki_recording : k_recording k = true -> k_active k = true;
}.
Definition capture_inv c : Prop := ledger c /\ control_inv (control c).

Definition without_stream (k : Control) : Control :=
  k <| k_recording := false |> <| k_stream := false |> <| k_active := false |> <| k_connected := [] |> <| k_deadline := None |>.
Definition connection (target : bytes) : bytes := if default_target target then [] else target.

(** A step that leaves the books alone keeps the ledger. *)
Ltac same_books c := apply (ledger_books c); [done|].

Lemma set_recording_spec b c : ledger c ->
  ledger (set_recording b c) /\ control (set_recording b c) = control c <| k_recording := b |>.
Proof.
  intros Hl. assert (ledger (c <| recording_ := b |>)) as Hl' by by apply (ledger_books c).
  destruct (interleave_keeps _ Hl') as [L K]. by split.
Qed.
Lemma MarkStreamDestroyed_spec c : ledger c ->
  ledger (MarkStreamDestroyed c) /\ control (MarkStreamDestroyed c) = control c <| k_deadline := None |>.
Proof. intros Hl. unfold MarkStreamDestroyed, read_clock. destruct (steady_now _). split; [by apply (ledger_books c)|done]. Qed.
Lemma MarkStreamDeactivated_spec c : ledger c ->
  ledger (MarkStreamDeactivated c) /\ control (MarkStreamDeactivated c) = control c.
Proof. intros Hl. unfold MarkStreamDeactivated, read_clock. destruct (steady_now _). split; [by apply (ledger_books c)|done]. Qed.
Lemma arm_recording_spec c : ledger c -> ledger (arm_recording c) /\ control (arm_recording c) = control c.
Proof. intros Hl. unfold arm_recording, read_clock. destruct (steady_now _). split; [by apply (ledger_books c)|done]. Qed.

Lemma DestroyStream_books c : books (DestroyStream c) = books c.
Proof. unfold DestroyStream, MarkStreamDestroyed, read_clock. case_match; [done|]. by destruct (steady_now _). Qed.
Lemma DestroyStream_spec c : capture_inv c ->
  ledger (DestroyStream c) /\ control (DestroyStream c) = without_stream (control c).
Proof.
  intros [Hl Hk]. split; [by apply (ledger_books c), Hl; apply DestroyStream_books|].
  pose proof (ki_loop _ Hk) as Hs. unfold DestroyStream, MarkStreamDestroyed, read_clock. cbn in Hs |- *.
  destruct (stream_ c) eqn:Es; [rewrite (Hs eq_refl)|rewrite orb_true_r]; cbn.
  - by destruct (steady_now _).
  - unfold control, without_stream. cbn. by rewrite Es.
Qed.

Lemma SetStreamActive_spec a c : ledger c ->
  let r := SetStreamActive a c in
  ledger r.2 /\
  match r.1 with
  | Ok _ => loop_ c = true /\ stream_ c = true /\ control r.2 = control c <| k_active := a |>
  | Err _ => control r.2 = control c
  end.
Proof.
  intros Hl. unfold SetStreamActive. destruct (loop_ c) eqn:El; [|done]. destruct (stream_ c) eqn:Es; [|done]. cbn [negb orb].
  destruct (eqb (stream_active_ c) a) eqn:Ea; cbn [fst snd].
  { apply eqb_prop in Ea. subst a. split; [done|]. by split_and!. }
  destruct (pw_stream_set_active a (world c)) as [ret w]. case_match; cbn [fst snd].
  { destruct (interleave_keeps (c <| world := w |>)); [by same_books c|by split]. }
  destruct (interleave_keeps (c <| world := w |> <| stream_active_ := a |>)) as [L K]; [by same_books c|].
  destruct a; cbn [negb]; [by split_and!|]. destruct (MarkStreamDeactivated_spec _ L) as [L' K']. split_and!; [done..|]. by rewrite K', K.
Qed.

Lemma CreateStream_spec inactive c : ledger c -> stream_ c = false -> stream_active_ c = false ->
  let r := CreateStream inactive c in
  ledger r.2 /\
  match r.1 with
  | Ok _ => loop_ c = true /\
      control r.2 = control c <| k_stream := true |> <| k_active := negb inactive |> <| k_connected := connection (target_object_ c) |>
  | Err _ => control r.2 = control c
  end.
Proof.
  intros Hl Hs Ha. unfold CreateStream. destruct (loop_ c) eqn:El; [|done]. rewrite Hs. cbn [negb].
  destruct (pw_enumerate (world c)) as [en w1]. cbv zeta. destruct (pw_properties_new w1) as [[|] w2]; cbn [negb fst snd].
  2: { split; [by same_books c|done]. }
  destruct (pw_stream_new_simple _ w2) as [[|] w3]; cbn [negb fst snd].
  2: { split; [by same_books c|]. unfold control. cbn. by rewrite Hs. }
  destruct (pw_stream_connect inactive _) as [ret w4]. case_match; cbn [fst snd].
  { split; [by same_books c|]. unfold control. cbn. by rewrite Hs, Ha. }
  match goal with |- ledger (interleave ?d) /\ _ => destruct (interleave_keeps d) as [L K]; [by same_books c|] end.
  split_and!; [done..|]. by rewrite K.
Qed.

(** A recording under way on a stream connected to [target]. *)
Definition live_control (recording : bool) (target connected : bytes) : Control :=
  Build_Control true true recording target connected true None.
(** A start that failed leaves no stream. *)
Definition failed_control (loop : bool) (target : bytes) : Control := Build_Control loop false false target [] false None.

Lemma control_fields k1 k2 : k1 = k2 ->
  k_loop k1 = k_loop k2 /\ k_stream k1 = k_stream k2 /\ k_recording k1 = k_recording k2 /\ k_target k1 = k_target k2 /\
  k_connected k1 = k_connected k2 /\ k_active k1 = k_active k2 /\ k_deadline k1 = k_deadline k2.
Proof. by intros ->. Qed.
Lemma control_ext k1 k2 :
  k_loop k1 = k_loop k2 -> k_stream k1 = k_stream k2 -> k_recording k1 = k_recording k2 -> k_target k1 = k_target k2 ->
  k_connected k1 = k_connected k2 -> k_active k1 = k_active k2 -> k_deadline k1 = k_deadline k2 -> k1 = k2.
Proof. destruct k1, k2. cbn. congruence. Qed.
(** Equality of controls, field by field. *)
Ltac control_eq := apply control_ext; cbn; congruence.
Lemma without_stream_inv k : control_inv (without_stream k).
Proof. by constructor. Qed.
Lemma destroyed_inv c : capture_inv c -> capture_inv (DestroyStream c).
Proof. intros Hc. destruct (DestroyStream_spec c Hc) as [L K]. split; [done|]. rewrite K. apply without_stream_inv. Qed.

(** Destroying after a failed activation: the state before may break the invariant only in
    the recording flag. *)
Lemma destroy_after c : ledger c -> loop_ c = true -> stream_ c = true -> 
  ledger (DestroyStream c) /\ control (DestroyStream c) = failed_control true (target_object_ c).
Proof.
  intros Hl El Es. split; [by apply (ledger_books c), Hl; apply DestroyStream_books|].
  unfold DestroyStream, MarkStreamDestroyed, read_clock. cbn. rewrite El, Es. cbn. destruct (steady_now _). unfold control, failed_control. cbn. by rewrite El.
Qed.

Definition begin_outcome (recording : bool) (timing : StartTiming) c (r : result StartTiming * capture) : Prop :=
  ledger r.2 /\
  match r.1 with
  | Ok t => t = timing /\ control r.2 = live_control recording (target_object_ c) (connection (target_object_ c))
  | Err _ => control r.2 = failed_control (loop_ c) (target_object_ c)
  end.

Lemma create_and_activate_spec inactive timing c b :
  ledger c -> control c = failed_control (loop_ c) (target_object_ c) <| k_recording := b |> ->
  begin_outcome b timing c (create_and_activate inactive timing c).
Proof.
  intros Hl Hk. pose proof (control_fields _ _ Hk) as (_ & Es & Er & _ & Ec & Ea & Ed). cbn in *.
  unfold begin_outcome, create_and_activate. destruct (CreateStream_spec inactive c Hl Es Ea) as [L1 K1].
  destruct (CreateStream inactive c) as [[[]|e] c1]; cbn [fst snd] in *.
  2: { split; [by same_books c1|]. apply control_fields in K1 as (E1 & E2 & _ & E4 & E5 & E6 & E7). cbn in *.
       control_eq. }
  destruct K1 as [El K1]. pose proof (control_fields _ _ K1) as (E1 & E2 & E3 & E4 & E5 & E6 & E7). cbn in E1, E2, E3, E4, E5, E6, E7.
  destruct inactive.
  - destruct (SetStreamActive_spec true c1 L1) as [L2 K2]. destruct (SetStreamActive true c1) as [[[]|e] c2]; cbn [fst snd] in *.
    + split_and!; [done..|]. destruct K2 as (_ & _ & ->). rewrite K1. control_eq.
    + apply control_fields in K2 as (F1 & F2 & F3 & F4 & F5 & F6 & F7). cbn in F1, F2, F3, F4, F5, F6, F7.
      destruct (destroy_after (c2 <| recording_ := false |>)) as [L3 K3]; [by same_books c2|cbn; congruence..|].
      split; [done|]. rewrite K3. control_eq.
  - cbn [fst snd]. split_and!; [done..|]. rewrite K1. control_eq.
Qed.

Lemma begin_fresh_spec policy c : capture_inv c ->
  begin_outcome true {| stream_reused := false; created_new_stream := true; reuse_policy_enabled := policy |} c (begin_fresh policy c).
Proof.
  intros Hc. destruct (DestroyStream_spec c Hc) as [L1 K1]. destruct (arm_recording_spec _ L1) as [L2 K2].
  destruct (set_recording_spec true _ L2) as [L3 K3]. rewrite K2, K1 in K3.
  set (d := set_recording true (arm_recording (DestroyStream c))) in *.
  pose proof (control_fields _ _ K3) as (E1 & _ & _ & E4 & _). cbn in E1, E4.
  pose proof (create_and_activate_spec policy {| stream_reused := false; created_new_stream := true; reuse_policy_enabled := policy |} d true L3) as Hb.
  unfold begin_outcome in *. rewrite E1, E4 in Hb. apply Hb. rewrite K3. control_eq.
Qed.

Lemma begin_reused_spec policy c : capture_inv c -> stream_ c = true -> k_deadline (control c) = None ->
  let r := begin_reused policy c in
  ledger r.2 /\
  match r.1 with
  | Ok t => control r.2 = if created_new_stream t then live_control false (target_object_ c) (connection (target_object_ c))
                          else live_control true (target_object_ c) (connected_target_object_ c)
  | Err _ => control r.2 = failed_control (loop_ c) (target_object_ c)
  end.
Proof.
  intros [Hl Hk] Es Ed. pose proof (ki_loop _ Hk Es : loop_ c = true) as El. cbn in Ed.
  destruct (arm_recording_spec _ Hl) as [L1 K1]. destruct (set_recording_spec true _ L1) as [L2 K2]. rewrite K1 in K2.
  unfold begin_reused. set (d := set_recording true (arm_recording c)) in *.
  apply control_fields in K2 as (E1 & E2 & E3 & E4 & E5 & E6 & E7). cbn in E1, E2, E3, E4, E5, E6, E7.
  destruct (SetStreamActive_spec true d L2) as [L3 K3]. destruct (SetStreamActive true d) as [[[]|e] c1]; cbn [fst snd] in *.
  { split; [done|]. destruct K3 as (_ & _ & ->). cbn. control_eq. }
  apply control_fields in K3 as (F1 & F2 & F3 & F4 & F5 & F6 & F7). cbn in F1, F2, F3, F4, F5, F6, F7.
  destruct (destroy_after c1 L3) as [L4 K4]; [congruence..|]. destruct (arm_recording_spec _ L4) as [L5 K5]. rewrite K4 in K5.
  set (x := arm_recording (DestroyStream c1)) in *. pose proof (control_fields _ _ K5) as (G1 & _ & _ & G4 & _). cbn in G1, G4.
  destruct (create_and_activate_spec true {| stream_reused := false; created_new_stream := true; reuse_policy_enabled := policy |} x false L5) as [L6 K6].
  { rewrite K5. control_eq. }
  destruct (create_and_activate _ _ x) as [[t|e'] c2]; cbn [fst snd] in *; (split; [done|]).
  - destruct K6 as [-> ->]. cbn. congruence.
  - rewrite K6. congruence.
Qed.

Lemma begun_spec c : capture_inv c ->
  let d := interleave (ResetDropCounters (discard_queue (interleave (CancelIdleDestroy c)))) in
  ledger d /\ control d = control c <| k_deadline := None |>.
Proof.
  intros [Hl Hk]. cbv zeta. destruct (interleave_keeps (CancelIdleDestroy c)) as [L1 K1]; [by same_books c|].
  destruct (interleave_keeps (ResetDropCounters (discard_queue (interleave (CancelIdleDestroy c))))) as [L2 K2].
  { by constructor. }
  split; [done|]. rewrite K2. apply control_fields in K1 as (E1 & E2 & E3 & E4 & E5 & E6 & E7). cbn in E1, E2, E3, E4, E5, E6, E7. control_eq.
Qed.

Lemma CanReuse_control c c' : control c' = control c <| k_deadline := k_deadline (control c') |> ->
  CanReuseStreamLocked c' = CanReuseStreamLocked c.
Proof.
  intros K. apply control_fields in K as (_ & E2 & _ & E4 & E5 & _). cbn in E2, E4, E5.
  unfold CanReuseStreamLocked, CurrentTargetObject. by rewrite E2, E4, E5.
Qed.
Lemma connection_reusable c : stream_ c = true -> connected_target_object_ c = connection (target_object_ c) -> CanReuseStreamLocked c = true.
Proof.
  intros Es Ec. unfold CanReuseStreamLocked, CurrentTargetObject. rewrite Es, Ec. unfold connection. cbn [negb].
  destruct (default_target (target_object_ c)) eqn:E; [done|]. by apply bool_decide_eq_true.
Qed.
Lemma live_inv b target connected : control_inv (live_control b target connected).
Proof. by constructor. Qed.
Lemma failed_inv l target : control_inv (failed_control l target).
Proof. by constructor. Qed.

(** Whether a start gave up its reusable stream and made a new one. *)
Definition recreated c (t : StartTiming) : bool := StreamReuseEnabled env && CanReuseStreamLocked c && created_new_stream t.

(** A start of the recording. Success: an active stream connected to the wanted target, no
    teardown scheduled, an empty ledger but for what was heard meanwhile; samples are being
    recorded unless the reusable stream had to be recreated. Failure: no stream is left. *)
Theorem begin_recording_outcome c :
  capture_inv c ->
  let r := BeginRecording c in
  capture_inv r.2 /\
  match r.1 with
  | Ok t => CanReuseStreamLocked r.2 = true /\ stream_active_ r.2 = true /\ idle_destroy_deadline_ r.2 = None /\
            IsRecording r.2 = negb (recreated c t)
  | Err _ => stream_ r.2 = false /\ IsRecording r.2 = false
  end.
Proof.
  intros Hc. destruct (begun_spec c Hc) as [L K]. cbv zeta in L, K. unfold BeginRecording, recreated.
  set (d := interleave (ResetDropCounters _)) in *. cbv zeta.
  assert (Hd : capture_inv d).
  { split; [done|]. rewrite K. destruct Hc as [_ [I1 I2 I3 I4 I5]]. constructor; cbn; [done|done|naive_solver|done|done]. }
  assert (HR : CanReuseStreamLocked d = CanReuseStreamLocked c) by (apply CanReuse_control; rewrite K; control_eq).
  rewrite HR. destruct (StreamReuseEnabled env && CanReuseStreamLocked c) eqn:E.
  - apply andb_true_iff in E as [_ E]. rewrite <-HR in E. assert (Es : stream_ d = true).
    { unfold CanReuseStreamLocked in E. by destruct (stream_ d). }
    destruct (begin_reused_spec (StreamReuseEnabled env) d Hd Es) as [L1 K1]; [by rewrite K|].
    destruct (begin_reused _ d) as [[t|e] c1]; cbn [fst snd] in *.
    + split; [split; [done|rewrite K1; case_match; apply live_inv]|]. destruct (created_new_stream t);
        apply control_fields in K1 as (E1 & E2 & E3 & E4 & E5 & E6 & E7); cbn in E1, E2, E3, E4, E5, E6, E7; split_and!; try done.
      * apply connection_reusable; congruence.
      * rewrite <-E. unfold CanReuseStreamLocked, CurrentTargetObject. by rewrite E2, E4, E5, Es.
    + split; [split; [done|rewrite K1; apply failed_inv]|]. by apply control_fields in K1 as (_ & E2 & E3 & _).
  - destruct (begin_fresh_spec (StreamReuseEnabled env) d Hd) as [L1 K1].
    destruct (begin_fresh _ d) as [[t|e] c1]; cbn [fst snd] in *.
    + destruct K1 as [_ K1]. split; [split; [done|rewrite K1; apply live_inv]|].
      apply control_fields in K1 as (E1 & E2 & E3 & E4 & E5 & E6 & E7); cbn in E1, E2, E3, E4, E5, E6, E7. split_and!; try done.
      apply connection_reusable; congruence.
    + split; [split; [done|rewrite K1; apply failed_inv]|]. by apply control_fields in K1 as (_ & E2 & E3 & _).
Qed.

(** The reusable stream that could not be activated: the start succeeds on a new stream, but
    the recording flag that the teardown cleared is not set again, so no buffer is heard. *)
Theorem recreated_stream_deaf c t c' b :
  capture_inv c -> BeginRecording c = (Ok t, c') -> recreated c t = true ->
  IsRecording c' = false /\ processCallback c' b = c'.
Proof.
  intros Hc E Hr. pose proof (begin_recording_outcome c Hc) as [_ Ho]. rewrite E in Ho. cbn [fst snd] in Ho.
  destruct Ho as (_ & _ & _ & Hi). rewrite Hr in Hi. split; [done|]. apply callback_idle. unfold IsRecording in Hi. by rewrite Hi, andb_false_r.
Qed.

(** *** The other operations *)

(** What ending a recording leaves when streams are reused: nothing, or an inactive stream
    with a scheduled teardown. *)
Definition released c : Prop :=
  recording_ c = false /\
  (stream_ c = false \/ (stream_active_ c = false /\ exists d, idle_destroy_deadline_ c = Some d)).

Lemma ScheduleIdleDestroy_spec c : ledger c -> exists d,
  ledger (ScheduleIdleDestroy c) /\ control (ScheduleIdleDestroy c) = control c <| k_deadline := Some d |>.
Proof.
  intros Hl. unfold ScheduleIdleDestroy, read_clock. destruct (steady_now _) as [now w]. cbv zeta. eexists. split; [by same_books c|]. done.
Qed.

Lemma deactivate_spec c : capture_inv c -> recording_ c = false -> stream_ c = true ->
  capture_inv (deactivate c) /\ released (deactivate c).
Proof.
  intros [Hl Hk] Hr Hs. pose proof (ki_loop _ Hk Hs : loop_ c = true) as El. unfold deactivate.
  destruct (SetStreamActive_spec false c Hl) as [L1 K1]. destruct (SetStreamActive false c) as [[[]|e] c1]; cbn [fst snd] in *.
  - destruct K1 as (_ & _ & K1). pose proof (control_fields _ _ K1) as (E1 & E2 & E3 & E4 & E5 & E6 & E7). cbn in E1, E2, E3, E4, E5, E6, E7.
    case_match.
    + destruct (destroy_after c1 L1) as [L2 K2]; [congruence..|]. split; [split; [done|rewrite K2; apply failed_inv]|].
      apply control_fields in K2 as (_ & F2 & F3 & _). cbn in F2, F3. split; [done|by left].
    + destruct (ScheduleIdleDestroy_spec c1 L1) as (d & L2 & K2). split.
      * split; [done|]. rewrite K2, K1. destruct Hk as [I1 I2 I3 I4 I5]. constructor; cbn in *; [done|done|congruence| |congruence]. by rewrite Hr.
      * apply control_fields in K2 as (_ & _ & F3 & _ & _ & F6 & F7). cbn in F3, F6, F7. split; [congruence|]. right. split; [congruence|eauto].
  - pose proof (control_fields _ _ K1) as (E1 & E2 & E3 & E4 & E5 & E6 & E7). cbn in E1, E2, E3, E4, E5, E6, E7.
    destruct (destroy_after c1 L1) as [L2 K2]; [congruence..|]. split; [split; [done|rewrite K2; apply failed_inv]|].
    apply control_fields in K2 as (_ & F2 & F3 & _). cbn in F2, F3. split; [done|by left].
Qed.

Lemma unset_recording c : capture_inv c -> capture_inv (set_recording false c) /\ recording_ (set_recording false c) = false /\
  stream_ (set_recording false c) = stream_ c.
Proof.
  intros [Hl Hk]. destruct (set_recording_spec false c Hl) as [L K].
  pose proof (control_fields _ _ K) as (_ & E2 & E3 & _). cbn in E2, E3. split; [|done]. split; [done|]. rewrite K.
  destruct Hk as [I1 I2 I3 I4 I5]. constructor; cbn; [done|done|done| |done]. intros d Hd. split; [done|]. by destruct (I4 d Hd).
Qed.
Lemma destroyed_released c : capture_inv c -> released (DestroyStream c).
Proof.
  intros Hc. destruct (DestroyStream_spec c Hc) as [_ K]. apply control_fields in K as (_ & E2 & E3 & _). cbn in E2, E3. split; [done|by left].
Qed.

Lemma EndRecording_inv c : capture_inv c -> capture_inv (EndRecording c) /\ recording_ (EndRecording c) = false.
Proof.
  intros Hc. destruct (unset_recording c Hc) as (I & R & S). unfold EndRecording. cbv zeta.
  destruct (StreamReuseEnabled env && stream_ _) eqn:E; [|done]. apply andb_true_iff in E as [_ E].
  destruct (deactivate_spec _ I R E) as [I' [R' _]]. by split.
Qed.
Lemma drain_inv c : capture_inv c -> capture_inv (drain_queue c).2.
Proof.
  intros [[L1 L2 L3 L4 L5] Hk]. split; [|done]. constructor; cbn; [by rewrite app_nil_r, L1|done..].
Qed.
Lemma StopAndGetBuffer_inv c : capture_inv c -> capture_inv (StopAndGetBuffer c).2 /\ released (StopAndGetBuffer c).2.
Proof.
  intros Hc. destruct (unset_recording c Hc) as (I & R & S). unfold StopAndGetBuffer. cbv zeta.
  assert (Hx : forall d, capture_inv d /\ released d -> capture_inv (drain_queue d).2 /\ released (drain_queue d).2).
  { intros d [Hd Hr]. split; [by apply drain_inv|]. exact Hr. }
  apply Hx. destruct (StreamReuseEnabled env && stream_ _) eqn:E.
  - apply andb_true_iff in E as [_ E]. by apply deactivate_spec.
  - split; [by apply destroyed_inv|by apply destroyed_released].
Qed.
Lemma cancel_inv c : capture_inv c -> capture_inv (CancelIdleDestroy c).
Proof.
  intros [Hl [I1 I2 I3 I4 I5]]. split; [by same_books c|]. constructor; cbn; [done|done|naive_solver|done|done].
Qed.
Lemma capture_stop_inv c : capture_inv c -> capture_inv (Stop c) /\ stream_ (Stop c) = false /\ recording_ (Stop c) = false.
Proof.
  intros Hc. destruct (unset_recording c Hc) as (I & _). apply cancel_inv in I. destruct (DestroyStream_spec _ I) as [_ K].
  apply destroyed_inv in I. split; [by apply drain_inv|]. apply control_fields in K as (_ & E2 & E3 & _). by split.
Qed.
Lemma SetTargetObject_inv target c : capture_inv c -> capture_inv (SetTargetObject target c).
Proof.
  intros Hc. unfold SetTargetObject. case_match; [done|]. cbv zeta.
  assert (capture_inv (c <| target_object_ := target |>)) as Hc'.
  { destruct Hc as [Hl [I1 I2 I3 I4 I5]]. split; [by same_books c|]. by constructor. }
  case_match; [by apply destroyed_inv|done].
Qed.
Lemma Maybe_inv c : capture_inv c -> capture_inv (MaybeDestroyExpiredStream c).2.
Proof.
  intros Hc. unfold MaybeDestroyExpiredStream, read_clock. destruct (recording_ c); [done|]. destruct (negb (stream_ c)); [done|].
  destruct (idle_destroy_deadline_ c); [|done]. destruct (steady_now _) as [now w].
  assert (capture_inv (c <| world := w |>)) as Hc' by (destruct Hc; split; [by same_books c|done]).
  case_match; [done|by apply destroyed_inv].
Qed.
Lemma TryDequeue_inv c : capture_inv c -> capture_inv (TryDequeue c).2.
Proof.
  intros Hc. unfold TryDequeue. destruct (queue_ c) as [|chunk q] eqn:Eq; [done|]. destruct Hc as [[L1 L2 L3 L4 L5] Hk].
  split; [|done]. constructor; cbn; [|done..]. rewrite <-L1, Eq. cbn. by rewrite app_assoc.
Qed.
Lemma callback_inv c b : capture_inv c -> capture_inv (processCallback c b).
Proof. intros [Hl Hk]. destruct (callback_keeps c b Hl) as [L K]. split; [done|by rewrite K]. Qed.
Lemma Start_inv c : capture_inv c -> capture_inv (Start c).2.
Proof.
  intros [Hl Hk]. unfold Start. destruct (loop_ c) eqn:El; [done|].
  assert (Es : stream_ c = false) by (destruct (stream_ c) eqn:E; [|done]; pose proof (ki_loop _ Hk E); cbn in *; congruence).
  destruct Hk as [I1 I2 I3 I4 I5]. cbn in *.
  assert (Hx : forall c', books c' = books c -> control c' = control c <| k_loop := loop_ c' |> -> capture_inv c').
  { intros c' Hb K. split; [by apply (ledger_books c)|]. rewrite K. constructor; cbn; [congruence|done..]. }
  destruct (pw_thread_loop_new (world c)) as [[|] w]; cbn [negb]; [|by apply Hx].
  cbv zeta. destruct (pw_thread_loop_start _) as [ret w']. case_match; by apply Hx.
Qed.

(** ** A recording, from the buffers to its consumer *)

(** What happens between the start of a recording and its end: PipeWire processes a buffer;
    the controller takes a chunk; settings change; the main loop looks for an expired stream. *)
Inductive recording_step : list (option PwBuffer) -> capture -> capture -> Prop :=
  | rs_process b c : buffer_ok b -> recording_step [b] c (processCallback c b)
  | rs_dequeue c : recording_step [] c (TryDequeue c).2
  | rs_notify fd c : recording_step [] c (SetNotifyFd fd c)
  | rs_target target c : recording_step [] c (SetTargetObject target c)
  | rs_expired c : recording_step [] c (MaybeDestroyExpiredStream c).2.
Inductive recording_run : list (option PwBuffer) -> capture -> capture -> Prop :=
  | rr_refl c : recording_run [] c c
  | rr_step bs1 bs2 c1 c2 c3 : recording_step bs1 c1 c2 -> recording_run bs2 c2 c3 -> recording_run (bs1 ++ bs2) c1 c3.

(** While the recording lasts no step ends it, and each buffer's samples are heard. *)
Lemma recording_step_keeps bs c c' : recording_step bs c c' ->
  capture_inv c -> recording_ c = true ->
  capture_inv c' /\ recording_ c' = true /\ heard c' = heard c ++ concat (buffer_samples <$> bs) /\ undefined c' = undefined c.
Proof.
  intros Hs Hc Hr. pose proof (ki_active _ (proj2 Hc) (ki_recording _ (proj2 Hc) Hr) : stream_ c = true) as Es.
  destruct Hs as [b c Hb|c|fd c|target c|c]; cbn [fmap list_fmap concat]; rewrite ?app_nil_r.
  - destruct (callback_hears c b Es Hr Hb (proj1 Hc)) as [Hh Hu]. destruct (callback_keeps c b (proj1 Hc)) as [_ K].
    apply control_fields in K as (_ & _ & E3 & _). cbn in E3. split_and!; [by apply callback_inv|congruence|done|done].
  - split; [by apply TryDequeue_inv|]. unfold TryDequeue. by destruct (queue_ c).
  - split; [|done]. destruct Hc as [Hl Hk]. split; [by same_books c|done].
  - split; [by apply SetTargetObject_inv|]. unfold SetTargetObject. case_match; [done|]. cbn. by rewrite Hr.
  - split; [by apply Maybe_inv|]. unfold MaybeDestroyExpiredStream. by rewrite Hr.
Qed.
Lemma recording_run_keeps bs c c' : recording_run bs c c' ->
  capture_inv c -> recording_ c = true ->
  capture_inv c' /\ recording_ c' = true /\ heard c' = heard c ++ concat (buffer_samples <$> bs) /\ undefined c' = undefined c.
Proof.
  induction 1 as [c|bs1 bs2 c1 c2 c3 Hs _ IH]; intros Hc Hr; [by rewrite app_nil_r|].
  destruct (recording_step_keeps _ _ _ Hs Hc Hr) as (I1 & R1 & H1 & U1). destruct (IH I1 R1) as (I2 & R2 & H2 & U2).
  split_and!; [done..| |congruence]. by rewrite H2, H1, fmap_app, concat_app, app_assoc.
Qed.

(** Ending a recording hears nothing more. *)
Lemma set_recording_false_books c : books (set_recording false c) = books c.
Proof. unfold set_recording. by destruct (interleave_idle (c <| recording_ := false |>)) as [w ->]; [apply andb_false_r|]. Qed.
Lemma deactivate_books c : recording_ c = false -> books (deactivate c) = books c.
Proof.
  intros Hr. assert (Hx : forall d, recording_ d = false -> books (interleave d) = books d).
  { intros d Hd. destruct (interleave_idle d) as [w ->]; [by rewrite Hd, andb_false_r|done]. }
  unfold deactivate, SetStreamActive. destruct (negb (loop_ c) || negb (stream_ c)); [apply DestroyStream_books|].
  assert (Hsch : forall d, books (ScheduleIdleDestroy d) = books d).
  { intros d. unfold ScheduleIdleDestroy, read_clock. by destruct (steady_now _). }
  assert (Hma : forall d, books (MarkStreamDeactivated d) = books d).
  { intros d. unfold MarkStreamDeactivated, read_clock. by destruct (steady_now _). }
  destruct (eqb (stream_active_ c) false); [case_match; [apply DestroyStream_books|apply Hsch]|].
  destruct (pw_stream_set_active false (world c)) as [ret w]. destruct (ret <? 0)%Z; cbn [negb].
  - rewrite DestroyStream_books. etrans; [by apply Hx|done].
  - destruct (IdleDestroyMs env <=? 0)%Z; [rewrite DestroyStream_books|rewrite Hsch]; rewrite Hma; (etrans; [by apply Hx|done]).
Qed.


(** ** The microphone is released *)

Lemma IdleDestroyMs_bounds : (0 <= IdleDestroyMs env <= 600000)%Z.
Proof.
  unfold IdleDestroyMs. destruct (env _) as [[|c value]|]; [lia| |lia]. cbv zeta. case_match; [lia|].
  destruct (from_chars _ _ _) as [[parsed [|]]|]; [|lia..]. destruct (Z.ltb_spec parsed 0); lia.
Qed.

Lemma ScheduleIdleDestroy_deadline c : exists w,
  idle_destroy_deadline_ (ScheduleIdleDestroy c) = Some ((steady_now w).1 + IdleDestroyMs env * 1000000)%Z.
Proof.
  exists (world c). unfold ScheduleIdleDestroy, read_clock. destruct (steady_now (world c)) as [now w]. cbn. f_equal.
  pose proof IdleDestroyMs_bounds. destruct (Z.leb_spec (IdleDestroyMs env) 0); lia.
Qed.


(** ** Room in the queue *)

Lemma enqueue_loop_no_drop fuel raw offset n i any c k :
  (forall q w, length q < kDefaultQueueCapacity -> queue_room q w = true) ->
  n - i <= kMaxChunkSamples * k -> length (queue_ c) + k <= kDefaultQueueCapacity ->
  lost (enqueue_loop fuel raw offset n i any c).2 = lost c.
Proof.
  intros Hroom. revert i any c k. induction fuel as [|fuel IH]; intros i any c k Hk Hq; cbn [enqueue_loop]; [done|].
  case_decide as Hi; [|done]. cbv zeta. destruct (copy_samples _ _ _) as [pcm|]; [|done].
  assert (exists k', k = S k') as [k' ->] by (exists (k - 1); unfold kMaxChunkSamples in *; destruct k; lia).
  unfold offer. cbn [world queue_]. rewrite Hroom by (cbn; lia). rewrite (IH _ _ _ k').
  - done.
  - unfold kMaxChunkSamples in *. lia.
  - cbn -[kDefaultQueueCapacity empty_chunk]. rewrite length_app. cbn [length]. lia.
Qed.

(** A callback drops nothing as long as its chunks fit the queue's capacity. *)
Lemma callback_no_drop c b k :
  (forall q w, length q < kDefaultQueueCapacity -> queue_room q w = true) ->
  length (queue_ c) + k <= kDefaultQueueCapacity ->
  (forall raw maxsize offset size, b ≫= buffer_fields = Some (raw, maxsize, (offset, size)) ->
     N.to_nat (size / 2) <= kMaxChunkSamples * k) ->
  lost (processCallback c b) = lost c.
Proof.
  intros Hroom Hq Hk. unfold processCallback, read_clock. destruct (negb (stream_ c)); [done|].
  destruct (b ≫= buffer_fields) as [[[raw maxsize] [offset size]]|] eqn:Eb; [|done].
  specialize (Hk _ _ _ _ eq_refl). destruct (recording_ c && _ && _); [|done]. cbv zeta. case_decide; [|done].
  destruct (steady_now (world c)) as [now w]. destruct (first_mark_keeps now w c) as [Hb _]. cbv zeta in Hb. revert Hb.
  generalize (if (first_buffer_ns_ (c <| world := w |>) =? 0)%Z
            then c <| world := w |> <| first_buffer_ns_ := now |> else c <| world := w |>).
  intros c1 [= _ Eq _ _ El _ _ _]. rewrite <-Eq in Hq. rewrite <-El. rewrite <-(Nat.sub_0_r (N.to_nat (size / 2))) in Hk.
  rewrite <-(enqueue_loop_no_drop (N.to_nat (size / 2)) raw offset (N.to_nat (size / 2)) 0 false c1 k Hroom Hk Hq).
  destruct (enqueue_loop _ _ _ _ _ _ _) as [any c2]. by case_match.
Qed.
End capture.

(** ** A scripted PipeWire *)

Record ScriptedPipe := { sp_codes : list Z; sp_buffers : list (list (option PwBuffer)); sp_now : Z }.
#[export] Instance ScriptedPipe_fields : Fields ScriptedPipe := fun w =>
  Build_ScriptedPipe (sp_codes w) (sp_buffers w) (sp_now w).
#[export] Instance scripted_pipewire : PipeWire ScriptedPipe := {|
  pw_thread_loop_new w := (true, w);
  pw_thread_loop_start w := (0%Z, w);
  pw_thread_loop_destroy w := w;
  pw_enumerate w := ({| en_loop := true; en_context := true; en_core := true; en_sync := 1; en_timer_armed := true;
                        en_globals := [] |}, w);
  pw_properties_new w := (true, w);
  pw_stream_new_simple _ w := (true, w);
  pw_stream_connect _ w := (0%Z, w);
  pw_stream_set_active _ w :=
    match sp_codes w with [] => (0%Z, w) | code :: codes => (code, w <| sp_codes := codes |>) end;
  pw_stream_destroy w := w;
  pw_process w := match sp_buffers w with [] => ([], w) | b :: bs => (b, w <| sp_buffers := bs |>) end;
  queue_room q _ := bool_decide (length q < kDefaultQueueCapacity);
  strerror _ := "error";
  steady_now w := (sp_now w, w <| sp_now := (sp_now w + 1000000)%Z |>);
|}.

Definition no_env (_ : bytes) : option bytes := None.
Definition sample_buffer (pcm : list Z) : option PwBuffer :=
  Some {| pw_datas := Some [{| spa_data := Some (as_bytes pcm); spa_maxsize := size (as_bytes pcm);
                               spa_chunk := Some (0%N, size (as_bytes pcm)) |}] |}.
Definition scripted (codes : list Z) : ScriptedPipe := {| sp_codes := codes; sp_buffers := []; sp_now := 1000000 |}.

Lemma new_capture_inv {W} (w : W) : capture_inv (new_capture w).
Proof. split; by constructor. Qed.

Definition opened (codes : list Z) : AudioCapture ScriptedPipe := (Start (new_capture (scripted codes))).2.
Lemma opened_inv codes : capture_inv (opened codes).
Proof. apply Start_inv, new_capture_inv. Qed.

Definition begun := BeginRecording no_env (opened []).
Definition first_buffer := sample_buffer [1; 2; -3]%Z.
Definition second_buffer := sample_buffer [4]%Z.
Definition one_taken := (TryDequeue (processCallback begun.2 first_buffer)).2.
Definition two_heard := processCallback one_taken second_buffer.

Lemma sample_buffer_ok pcm : (size (as_bytes pcm) < 4294967296)%N -> buffer_ok (sample_buffer pcm).
Proof. intros Hs raw maxsize offset n [= <- <- <- <-]. split; [done|lia]. Qed.


(** A recording ended and begun again when the kept stream can no longer be activated. *)
Definition kept := (StopAndGetBuffer no_env (BeginRecording no_env (opened [0; 0; -5]%Z)).2).2.
Lemma kept_inv : capture_inv kept.
Proof. apply StopAndGetBuffer_inv, begin_recording_outcome, opened_inv. Qed.
Lemma recreated_stream_deaf_witness :
  (BeginRecording no_env kept).1 = Ok {| stream_reused := false; created_new_stream := true; reuse_policy_enabled := true |} /\
  IsRecording (BeginRecording no_env kept).2 = false /\
  heard (processCallback (BeginRecording no_env kept).2 (sample_buffer [1; 2]%Z)) = [].
Proof.
  assert (E : BeginRecording no_env kept = (Ok {| stream_reused := false; created_new_stream := true; reuse_policy_enabled := true |},
    (BeginRecording no_env kept).2)) by (vm_compute; reflexivity).
  destruct (recreated_stream_deaf no_env kept _ _ (sample_buffer [1; 2]%Z) kept_inv E) as [H1 H2]; [vm_compute; reflexivity|].
  split; [vm_compute; reflexivity|]. split; [exact H1|]. rewrite H2. vm_compute. reflexivity.
Defined.


(** The end of a chunk is computed in 32 bits: an offset and a size whose sum wraps pass the
    check against the mapped size, and the copy reads outside the buffer. *)
Definition wrapping_buffer : option PwBuffer :=
  Some {| pw_datas := Some [{| spa_data := Some (as_bytes [1; 2]%Z); spa_maxsize := 4; spa_chunk := Some (4294967294%N, 4%N) |}] |}.
Lemma wrapped_chunk_reads_outside : undefined (processCallback begun.2 wrapping_buffer) = true.
Proof. vm_compute. reflexivity. Qed.
