(* ===== verification/DbusService.v ===== *)
(** * The daemon's D-Bus service and its client
    (src/src/daemon/runtime/dbus_service.cpp, src/src/daemon/main.cpp,
     src/src/daemon/notify/desktop_notification_sender.cpp, src/src/cli/runtime/dbus_client.cpp)

    Method calls: the table of methods, one handler each, the reply, and the command line
    tool's client that reads it. Signals: any thread queues an emission and wakes the main
    loop through an event descriptor; the main loop sends the queue. The bodies of messages
    are lists of typed values; sd-bus refuses a string that is not valid text ([text_ok]). *)

From S2P Require Import Prelude StringUtils Dbus Notification.

Definition kBusName : bytes := "org.fcitx.Vinput".
Definition kObjectPath : bytes := "/org/fcitx/Vinput".
Definition kInterface : bytes := "org.fcitx.Vinput.Service".
Definition kErrorOperationFailed : bytes := "org.fcitx.Vinput.Error.OperationFailed".
Definition kMethodStartRecording : bytes := "StartRecording".
Definition kMethodStartCommandRecording : bytes := "StartCommandRecording".
Definition kMethodStopRecording : bytes := "StopRecording".
Definition kMethodCancelOperation : bytes := "CancelOperation".
Definition kMethodGetStatus : bytes := "GetStatus".
Definition kMethodGetAsrBackendState : bytes := "GetAsrBackendState".
Definition kMethodReloadAsrBackend : bytes := "ReloadAsrBackend".
Definition kMethodStartAdapter : bytes := "StartAdapter".
Definition kMethodStopAdapter : bytes := "StopAdapter".
Definition kMethodStartClient : bytes := "StartClient".
Definition kMethodStopClient : bytes := "StopClient".
Definition kSignalRecognitionResult : bytes := "RecognitionResult".
Definition kSignalRecognitionPartial : bytes := "RecognitionPartial".
Definition kSignalStatusChanged : bytes := "StatusChanged".

(** ** Messages *)

Inductive BusValue := BStr (s : bytes) | BBool (b : bool) | BI32 (z : Z) | BU32 (n : N) | BStrings (l : list bytes) | BEmptyDict.
Definition value_signature (v : BusValue) : bytes :=
  match v with BStr _ => "s" | BBool _ => "b" | BI32 _ => "i" | BU32 _ => "u" | BStrings _ => "as" | BEmptyDict => "a{sv}" end.
Definition signature (body : list BusValue) : bytes := concat (value_signature <$> body).

(** What a handler leaves for sd-bus: an error set, a reply sent, or a negative code. *)
Inductive Reply := ReplyError (name message : bytes) | ReplyReturn (body : list BusValue) | ReplyCode (code : Z).

Record MethodResult := { ok : bool; payload : bytes; message : bytes }.
Definition Success (payload : bytes) : MethodResult := {| ok := true; payload := payload; message := [] |}.
Definition Failure (message : bytes) : MethodResult := {| ok := false; payload := []; message := message |}.

Definition EINVAL : Z := 22.
Definition ENXIO : Z := 6.

(** The handlers that main installs; [None] is an empty [std::function]. *)
Record Handlers (S : Type) := {
  start_handler_ : option (S -> MethodResult * S);
  start_command_handler_ : option (bytes -> S -> MethodResult * S);
  stop_handler_ : option (bytes -> S -> MethodResult * S);
  cancel_operation_handler_ : option (bool -> S -> MethodResult * S);
  status_handler_ : option (S -> bytes * S);
  asr_backend_state_handler_ : option (S -> AsrBackendState * S);
  reload_asr_backend_handler_ : option (S -> MethodResult * S);
  start_adapter_handler_ : option (bytes -> S -> MethodResult * S);
  stop_adapter_handler_ : option (bytes -> S -> MethodResult * S);
  start_client_handler_ : option (bytes -> S -> MethodResult * S);
  stop_client_handler_ : option (bytes -> S -> MethodResult * S);
}.
Arguments start_handler_ {S}. Arguments start_command_handler_ {S}. Arguments stop_handler_ {S}.
Arguments cancel_operation_handler_ {S}. Arguments status_handler_ {S}. Arguments asr_backend_state_handler_ {S}.
Arguments reload_asr_backend_handler_ {S}. Arguments start_adapter_handler_ {S}. Arguments stop_adapter_handler_ {S}.
Arguments start_client_handler_ {S}. Arguments stop_client_handler_ {S}.

Definition empty_state : AsrBackendState :=
  {| target_provider_id := []; target_model_id := []; effective_provider_id := []; effective_model_id := [];
     last_error := []; reload_in_progress := false; has_effective_backend := false; remote_endpoints := [] |}.

Section service.
Context {S : Type} (text_ok : bytes -> bool) (h : Handlers S).

Definition ReplyWithMethodResult (result : MethodResult) (reply_signature : bytes) : Reply :=
  if negb (ok result) then ReplyError kErrorOperationFailed (c_str (message result))
  else if is_empty reply_signature then ReplyReturn []
  else if text_ok (c_str (payload result)) then ReplyReturn [BStr (c_str (payload result))]
  else ReplyCode (- EINVAL).

(** A handler of a method without arguments; the result of an empty one is a success. *)
Definition reply_void (handler : option (S -> MethodResult * S)) (s : S) : Reply * S :=
  let '(result, s) := from_option (fun f => f s) (Success [], s) handler in (ReplyWithMethodResult result "", s).

(** A handler of a method with one string argument. *)
Definition reply_string (handler : option (bytes -> S -> MethodResult * S)) (reply_signature : bytes) (m : list BusValue) (s : S)
  : Reply * S :=
  match m with
  | BStr arg :: _ =>
      let '(result, s) := from_option (fun f => f arg s) (Success [], s) handler in (ReplyWithMethodResult result reply_signature, s)
  | _ => (ReplyCode (- ENXIO), s)
  end.

Definition handleStartRecording (m : list BusValue) (s : S) : Reply * S := reply_void (start_handler_ h) s.
Definition handleStartCommandRecording (m : list BusValue) (s : S) : Reply * S := reply_string (start_command_handler_ h) "" m s.
Definition handleStopRecording (m : list BusValue) (s : S) : Reply * S := reply_string (stop_handler_ h) "s" m s.
Definition handleCancelOperation (m : list BusValue) (s : S) : Reply * S :=
  match m with
  | BBool commit_raw_text :: _ =>
      let '(result, s) := from_option (fun f => f commit_raw_text s) (Success [], s) (cancel_operation_handler_ h) in
      (ReplyWithMethodResult result "", s)
  | _ => (ReplyCode (- ENXIO), s)
  end.
Definition handleGetStatus (m : list BusValue) (s : S) : Reply * S :=
  let '(status, s) := from_option (fun f => f s) (kStatusIdle, s) (status_handler_ h) in
  (if text_ok (c_str status) then ReplyReturn [BStr (c_str status)] else ReplyCode (- EINVAL), s).

(** [sd_bus_message_append] of the fields, then of the endpoints one by one. *)
Definition encode_state (state : AsrBackendState) : Reply :=
  let fields := c_str <$> [target_provider_id state; target_model_id state; effective_provider_id state;
                           effective_model_id state; last_error state] in
  let endpoints := c_str <$> remote_endpoints state in
  if forallb text_ok fields && forallb text_ok endpoints
  then ReplyReturn ((BStr <$> fields) ++ [BBool (reload_in_progress state); BBool (has_effective_backend state); BStrings endpoints])
  else ReplyCode (- EINVAL).
Definition handleGetAsrBackendState (m : list BusValue) (s : S) : Reply * S :=
  let '(state, s) := from_option (fun f => f s) (empty_state, s) (asr_backend_state_handler_ h) in (encode_state state, s).

Definition handleReloadAsrBackend (m : list BusValue) (s : S) : Reply * S := reply_void (reload_asr_backend_handler_ h) s.
Definition handleStartAdapter (m : list BusValue) (s : S) : Reply * S := reply_string (start_adapter_handler_ h) "" m s.
Definition handleStopAdapter (m : list BusValue) (s : S) : Reply * S := reply_string (stop_adapter_handler_ h) "" m s.
Definition handleStartClient (m : list BusValue) (s : S) : Reply * S := reply_string (start_client_handler_ h) "" m s.
Definition handleStopClient (m : list BusValue) (s : S) : Reply * S := reply_string (stop_client_handler_ h) "" m s.

(** The methods: name, signature of the call, signature of the reply, handler. *)
Definition vtable : list (bytes * bytes * bytes * (list BusValue -> S -> Reply * S)) :=
  [ (kMethodStartRecording, ""%bytes, ""%bytes, handleStartRecording);
    (kMethodStartCommandRecording, "s"%bytes, ""%bytes, handleStartCommandRecording);
    (kMethodStopRecording, "s"%bytes, "s"%bytes, handleStopRecording);
    (kMethodCancelOperation, "b"%bytes, ""%bytes, handleCancelOperation);
    (kMethodGetStatus, ""%bytes, "s"%bytes, handleGetStatus);
    (kMethodGetAsrBackendState, ""%bytes, "sssssbbas"%bytes, handleGetAsrBackendState);
    (kMethodReloadAsrBackend, ""%bytes, ""%bytes, handleReloadAsrBackend);
    (kMethodStartAdapter, "s"%bytes, ""%bytes, handleStartAdapter);
    (kMethodStopAdapter, "s"%bytes, ""%bytes, handleStopAdapter);
    (kMethodStartClient, "s"%bytes, ""%bytes, handleStartClient);
    (kMethodStopClient, "s"%bytes, ""%bytes, handleStopClient) ].

(** sd-bus looks the method up and checks the call's signature before it calls the handler. *)
Definition serve (member : bytes) (args : list BusValue) (s : S) : Reply * S :=
  match filter (fun e => e.1.1.1 = member) vtable with
  | [] => (ReplyError "org.freedesktop.DBus.Error.UnknownMethod" [], s)
  | (_, input, _, handler) :: _ =>
      if signature args =b input then handler args s
      else (ReplyError "org.freedesktop.DBus.Error.InvalidArgs" [], s)
  end.

(** ** The client *)

(** [bus_] is null when the user bus could not be opened. *)
Record DbusClient := { bus_ : bool }.

(** A call: the reply's body, or the error text. The message of an error the bus itself
    makes up is not known here: an error without one. *)
Definition CallDaemonMethod (c : DbusClient) (member : bytes) (args : list BusValue) (s : S) : result (list BusValue) * S :=
  if negb (bus_ c) then (Err "D-Bus not connected", s)
  else
    match serve member args s with
    | (ReplyReturn body, s) => (Ok body, s)
    | (ReplyError _ text, s) => (Err text, s)
    | (ReplyCode _, s) => (Err "D-Bus call failed", s)
    end.
Definition drop_body (r : result (list BusValue) * S) : result unit * S := (let! _ := r.1 in Ok tt, r.2).
Definition CallDaemonVoid (c : DbusClient) (member : bytes) (s : S) : result unit * S := drop_body (CallDaemonMethod c member [] s).
(** The argument is a C string, refused by sd-bus before anything is sent if it is not text. *)
Definition CallDaemonStringArg (c : DbusClient) (member arg : bytes) (s : S) : result unit * S :=
  if negb (bus_ c) then (Err "D-Bus not connected", s)
  else if text_ok (c_str arg) then drop_body (CallDaemonMethod c member [BStr (c_str arg)] s)
  else (Err "D-Bus call failed", s).

Definition GetDaemonStatus (c : DbusClient) (s : S) : result (option bytes) * S :=
  let '(r, s) := CallDaemonMethod c kMethodGetStatus [] s in
  (let! body := r in Ok (match body with BStr str :: _ => Some str | _ => None end), s).

(** [sd_bus_message_read] of "sssssbb": nothing is stored past the first mismatch. *)
Definition read_str (body : list BusValue) : bytes * list BusValue :=
  match body with BStr s :: rest => (s, rest) | _ => ([], []) end.
Definition read_bool (body : list BusValue) : bool * list BusValue :=
  match body with BBool b :: rest => (b, rest) | _ => (false, []) end.
Definition decode_state (body : list BusValue) : AsrBackendState :=
  let '(target_provider, body) := read_str body in
  let '(target_model, body) := read_str body in
  let '(effective_provider, body) := read_str body in
  let '(effective_model, body) := read_str body in
  let '(error, body) := read_str body in
  let '(reloading, body) := read_bool body in
  let '(effective, body) := read_bool body in
  {| target_provider_id := target_provider; target_model_id := target_model; effective_provider_id := effective_provider;
     effective_model_id := effective_model; last_error := error; reload_in_progress := reloading;
     has_effective_backend := effective;
     remote_endpoints := match body with BStrings l :: _ => l | _ => [] end |}.
Definition client_GetAsrBackendState (c : DbusClient) (s : S) : result AsrBackendState * S :=
  let '(r, s) := CallDaemonMethod c kMethodGetAsrBackendState [] s in (let! body := r in Ok (decode_state body), s).

Definition client_StartRecording (c : DbusClient) : S -> result unit * S := CallDaemonVoid c kMethodStartRecording.
Definition client_StartCommandRecording (c : DbusClient) (selected_text : bytes) : S -> result unit * S :=
  CallDaemonStringArg c kMethodStartCommandRecording selected_text.
Definition client_StopRecording (c : DbusClient) (scene_id : bytes) : S -> result unit * S :=
  CallDaemonStringArg c kMethodStopRecording scene_id.
Definition client_ReloadAsrBackend (c : DbusClient) : S -> result unit * S := CallDaemonVoid c kMethodReloadAsrBackend.
Definition client_StartAdapter (c : DbusClient) (id : bytes) : S -> result unit * S := CallDaemonStringArg c kMethodStartAdapter id.
Definition client_StopAdapter (c : DbusClient) (id : bytes) : S -> result unit * S := CallDaemonStringArg c kMethodStopAdapter id.
Definition client_StartClient (c : DbusClient) (id : bytes) : S -> result unit * S := CallDaemonStringArg c kMethodStartClient id.
Definition client_StopClient (c : DbusClient) (id : bytes) : S -> result unit * S := CallDaemonStringArg c kMethodStopClient id.

(** *** What a call means *)

(** Text that survives the bus: valid, and without a NUL. *)
Definition plain (s : bytes) : Prop := text_ok s = true /\ c_str s = s.
Record plain_state (st : AsrBackendState) : Prop := {
  ps_tp : plain (target_provider_id st); ps_tm : plain (target_model_id st); ps_ep : plain (effective_provider_id st);
  ps_em : plain (effective_model_id st); ps_err : plain (last_error st); ps_ends : Forall plain (remote_endpoints st);
}.

Lemma plain_ends l : Forall plain l -> c_str <$> l = l /\ forallb text_ok (c_str <$> l) = true.
Proof.
  induction 1 as [|x l [H1 H2] _ [IH1 IH2]]; [done|]. cbn. rewrite H2, IH1, H1. split; [done|]. by rewrite IH1 in IH2.
Qed.
Lemma encode_plain st : plain_state st -> exists body, encode_state st = ReplyReturn body /\ decode_state body = st.
Proof.
  intros [[H1 H1'] [H2 H2'] [H3 H3'] [H4 H4'] [H5 H5'] H6]. destruct (plain_ends _ H6) as [E6 E6'].
  eexists. unfold encode_state. cbn [fmap list_fmap forallb]. rewrite E6', H1', H2', H3', H4', H5', H1, H2, H3, H4, H5. cbn.
  split; [done|]. change (list_fmap bytes bytes c_str (remote_endpoints st)) with (c_str <$> remote_endpoints st). rewrite E6. by destruct st.
Qed.

(** The backend state the daemon reports is the one its client reads. *)
Theorem backend_state_roundtrip c f s :
  bus_ c = true -> asr_backend_state_handler_ h = Some f -> plain_state (f s).1 ->
  client_GetAsrBackendState c s = (Ok (f s).1, (f s).2).
Proof.
  intros Hb Hf Hp. unfold client_GetAsrBackendState, CallDaemonMethod. rewrite Hb. cbn [negb].
  change (serve kMethodGetAsrBackendState [] s) with (handleGetAsrBackendState [] s). unfold handleGetAsrBackendState. rewrite Hf. cbn [from_option].
  destruct (f s) as [st s'] eqn:E. cbn [fst snd] in *. destruct (encode_plain st Hp) as (body & -> & Hd). cbn. by rewrite Hd.
Qed.

(** A call with a string argument runs the handler once, on that argument; it succeeds
    exactly if the handler does, and a failure's text is the handler's message. *)
Lemma string_call_means member sig hd c arg s f :
  bus_ c = true -> plain arg -> hd = Some f ->
  serve member [BStr arg] s = reply_string hd sig [BStr arg] s ->
  (ok (f arg s).1 = true -> plain (payload (f arg s).1)) -> c_str (message (f arg s).1) = message (f arg s).1 ->
  CallDaemonStringArg c member arg s =
    ((if ok (f arg s).1 then Ok tt else Err (message (f arg s).1)), (f arg s).2).
Proof.
  intros Hb [Ht Hc] -> Hs Hp Hm. unfold CallDaemonStringArg, CallDaemonMethod, drop_body. rewrite Hb, Hc, Ht. cbn [negb]. rewrite Hs.
  unfold reply_string. cbn [from_option]. destruct (f arg s) as [r s'] eqn:E. cbn [fst snd] in *. unfold ReplyWithMethodResult.
  destruct (ok r); cbn [negb]; [|cbn; by rewrite Hm]. destruct (Hp eq_refl) as [P1 P2]. destruct (is_empty sig); [done|]. by rewrite P2, P1.
Qed.

(** The six string methods of the client. *)
Inductive StringMethod := MStartCommand | MStop | MStartAdapter | MStopAdapter | MStartClient | MStopClient.
Definition method_call (m : StringMethod) : DbusClient -> bytes -> S -> result unit * S :=
  match m with
  | MStartCommand => client_StartCommandRecording | MStop => client_StopRecording
  | MStartAdapter => client_StartAdapter | MStopAdapter => client_StopAdapter
  | MStartClient => client_StartClient | MStopClient => client_StopClient
  end.
Definition method_handler (m : StringMethod) : option (bytes -> S -> MethodResult * S) :=
  match m with
  | MStartCommand => start_command_handler_ h | MStop => stop_handler_ h
  | MStartAdapter => start_adapter_handler_ h | MStopAdapter => stop_adapter_handler_ h
  | MStartClient => start_client_handler_ h | MStopClient => stop_client_handler_ h
  end.

(** Each string method of the client reaches its own handler, once, with its argument; the
    call succeeds exactly if the handler does and otherwise carries the handler's message. *)
Theorem client_call_reaches_handler m c arg s f :
  bus_ c = true -> plain arg -> method_handler m = Some f ->
  (ok (f arg s).1 = true -> plain (payload (f arg s).1)) -> c_str (message (f arg s).1) = message (f arg s).1 ->
  method_call m c arg s = ((if ok (f arg s).1 then Ok tt else Err (message (f arg s).1)), (f arg s).2).
Proof. intros Hb Ha Hh Hp Hm. destruct m;
    first [ apply (string_call_means _ "" _ _ _ _ _ Hb Ha Hh); [reflexivity|done|done]
          | apply (string_call_means _ "s" _ _ _ _ _ Hb Ha Hh); [reflexivity|done|done] ]. Qed.

(** Every method's reply has the signature its table entry announces. *)
Theorem replies_typed name input output handler args s body s' :
  (name, input, output, handler) ∈ vtable -> handler args s = (ReplyReturn body, s') -> signature body = output.
Proof.
  assert (Hv : forall r sig b, ReplyWithMethodResult r sig = ReplyReturn b -> sig = [] \/ sig = "s"%bytes -> signature b = sig).
  { intros r sig b. unfold ReplyWithMethodResult. destruct (negb (ok r)); [done|]. intros E [Hsig|Hsig]; subst sig; cbn in E; [by injection E as <-|].
    case_match; [|done]. by injection E as <-. }
  assert (Hw : forall f st b st', reply_void f st = (ReplyReturn b, st') -> signature b = []).
  { intros f st b st'. unfold reply_void. destruct (from_option _ _ f) as [r x]. intros [= E _]. apply Hv in E; auto. }
  assert (Hs : forall f sig m st b st', sig = [] \/ sig = "s"%bytes -> reply_string f sig m st = (ReplyReturn b, st') -> signature b = sig).
  { intros f sig m st b st' Hsig. destruct m as [|[arg|? |? |? |? |] m]; cbn; try done. destruct (from_option _ _ f) as [r x]. intros [= E _]. by apply Hv in E. }
  assert (Hc : forall m st b st', handleCancelOperation m st = (ReplyReturn b, st') -> signature b = []).
  { intros m st b st'. unfold handleCancelOperation. destruct m as [|[] m]; try done. destruct (from_option _ _ _) as [r x].
    intros [= E _]. apply Hv in E; auto. }
  assert (Ht : forall m st b st', handleGetStatus m st = (ReplyReturn b, st') -> signature b = "s").
  { intros m st b st'. unfold handleGetStatus. destruct (from_option _ _ _) as [status x]. case_match; [|done]. by intros [= <- _]. }
  assert (Hg : forall m st b st', handleGetAsrBackendState m st = (ReplyReturn b, st') -> signature b = "sssssbbas").
  { intros m st b st'. unfold handleGetAsrBackendState. destruct (from_option _ _ _) as [state x]. unfold encode_state. cbv zeta.
    case_match; [|done]. by intros [= <- _]. }
  intros Hin Heq. unfold vtable in Hin.
  repeat (apply elem_of_cons in Hin as [[= -> -> -> ->]|Hin];
    [by first [ eapply Hc; exact Heq | eapply Ht; exact Heq | eapply Hg; exact Heq | eapply Hw; exact Heq
              | eapply Hs; [auto|exact Heq] ] |]).
  by apply elem_of_nil in Hin.
Qed.
End service.

(** ** Desktop notifications *)

Definition NotificationIcon (level : NotificationLevel) : bytes :=
  match level with Information => "dialog-information" | Warning => "dialog-warning" | Notification.Error => "dialog-error" end.
Definition NotificationTimeoutMs (level : NotificationLevel) : Z :=
  match level with Information => 3000 | Warning => 4000 | Notification.Error => 5000 end.
Definition MakeDaemonErrorNotification (body : bytes) : Notification :=
  {| n_title := "Voice Input"; n_body := body; n_level := Notification.Error |}.

(** A message that leaves on the bus. *)
Inductive Outgoing := Signal (member : bytes) (body : list BusValue) | NotifyCall (body : list BusValue).

Section emit.
Context (text_ok : bytes -> bool).

(** The call of org.freedesktop.Notifications, if the bus takes it. *)
Definition SendDesktopNotification (bus : bool) (n : Notification) : option Outgoing :=
  if negb bus then None
  else if text_ok (c_str (n_title n)) && text_ok (c_str (n_body n)) then
    Some (NotifyCall [BStr "fcitx5-vinput"; BU32 0; BStr (NotificationIcon (n_level n)); BStr (c_str (n_title n));
                      BStr (c_str (n_body n)); BStrings []; BEmptyDict; BI32 (NotificationTimeoutMs (n_level n))])
  else None.

(** ** The emit queue *)

Inductive PendingEmit := PendingResult (payload : bytes) | PendingPartial (payload : bytes) | PendingStatus (payload : bytes)
  | PendingNotification (n : Notification).

Definition sd_bus_emit_signal (member payload : bytes) : option Outgoing :=
  if text_ok (c_str payload) then Some (Signal member [BStr (c_str payload)]) else None.
(** What one item of the queue puts on the bus. *)
Definition send_item (bus : bool) (item : PendingEmit) : option Outgoing :=
  match item with
  | PendingResult p => sd_bus_emit_signal kSignalRecognitionResult p
  | PendingPartial p => sd_bus_emit_signal kSignalRecognitionPartial p
  | PendingStatus p => sd_bus_emit_signal kSignalStatusChanged p
  | PendingNotification n => SendDesktopNotification bus n
  end.

(** The service between its threads. An emitting thread pushes its item under the lock and
    then writes to the event descriptor; the main thread reads the descriptor, swaps the
    queue under the lock and then sends what it took. *)
Inductive MainState := MainPolling | MainWoken | MainSending (local : list PendingEmit).
Record EmitState := {
  emit_queue_ : list PendingEmit; event_counter : N; main : MainState;
  writing : nat;                       (* threads between the push and the write *)
  enqueued : list PendingEmit;         (* every item pushed so far *)
  outgoing : list (option Outgoing);   (* the outcome of every item sent so far *)
}.
#[local] Instance EmitState_fields : Fields EmitState := fun e =>
  Build_EmitState (emit_queue_ e) (event_counter e) (main e) (writing e) (enqueued e) (outgoing e).
Definition new_emit : EmitState := Build_EmitState [] 0 MainPolling 0 [] [].

Definition EmitRecognitionResult (text : bytes) : PendingEmit := PendingResult text.
Definition EmitRecognitionPartial (text : bytes) : PendingEmit := PendingPartial text.
Definition EmitStatusChanged (status : bytes) : PendingEmit := PendingStatus status.
Definition EmitDesktopNotification (n : Notification) : PendingEmit := PendingNotification n.

(** The two halves of [EnqueueEmit]. A write that would overflow the counter fails. *)
Definition enqueue_push (item : PendingEmit) (e : EmitState) : EmitState :=
  e <| emit_queue_ := emit_queue_ e ++ [item] |> <| enqueued := enqueued e ++ [item] |> <| writing := S (writing e) |>.
Definition enqueue_write (e : EmitState) : EmitState :=
  e <| writing := pred (writing e) |>
    <| event_counter := if (event_counter e + 1 <=? u64_max - 1)%N then (event_counter e + 1)%N else event_counter e |>.

(** The pieces of [FlushEmitQueue]. *)
Definition flush_read (e : EmitState) : EmitState := e <| event_counter := 0%N |> <| main := MainWoken |>.
Definition flush_swap (e : EmitState) : EmitState := e <| emit_queue_ := [] |> <| main := MainSending (emit_queue_ e) |>.
Definition flush_send (item : PendingEmit) (rest : list PendingEmit) (e : EmitState) : EmitState :=
  e <| outgoing := outgoing e ++ [send_item true item] |> <| main := MainSending rest |>.

Inductive emit_step : EmitState -> EmitState -> Prop :=
  | es_push item e : emit_step e (enqueue_push item e)
  | es_write e : 0 < writing e -> emit_step e (enqueue_write e)
  | es_read e : main e = MainPolling -> (0 < event_counter e)%N -> emit_step e (flush_read e)
  | es_swap e : main e = MainWoken -> emit_step e (flush_swap e)
  | es_send item rest e : main e = MainSending (item :: rest) -> emit_step e (flush_send item rest e)
  | es_done e : main e = MainSending [] -> emit_step e (e <| main := MainPolling |>).

Definition in_flight (m : MainState) : list PendingEmit := match m with MainSending local => local | _ => [] end.
Record emit_inv (e : EmitState) : Prop := {
  em_order : exists sent, enqueued e = sent ++ in_flight (main e) ++ emit_queue_ e /\ outgoing e = send_item true <$> sent;
  em_wake : emit_queue_ e <> [] -> (0 < event_counter e)%N \/ 0 < writing e \/ main e = MainWoken;
}.

Lemma emit_step_inv e e' : emit_step e e' -> emit_inv e -> emit_inv e'.
Proof.
  intros Hs [(sent & E & O) W]. destruct Hs as [item e|e Hw|e Hm Hc|e Hm|item rest e Hm|e Hm]; constructor; cbn.
  - exists sent. rewrite E, <-!app_assoc. done.
  - intros _. right. left. lia.
  - eauto.
  - intros _. left. destruct (N.leb_spec (event_counter e + 1) (u64_max - 1)); [lia|unfold u64_max in *; lia].
  - exists sent. rewrite Hm in E. done.
  - auto.
  - exists sent. rewrite Hm in E. cbn in E. by rewrite app_nil_r.
  - done.
  - exists (sent ++ [item]). rewrite Hm in E. cbn in E. rewrite fmap_app, O, E, <-!app_assoc. done.
  - rewrite Hm in W. intros Hq. destruct (W Hq) as [?|[?|?]]; [auto|auto|done].
  - exists sent. rewrite Hm in E. done.
  - rewrite Hm in W. intros Hq. destruct (W Hq) as [?|[?|?]]; [auto|auto|done].
Qed.

Lemma emit_inv_reachable e : rtc emit_step new_emit e -> emit_inv e.
Proof.
  intros Hr. assert (H0 : emit_inv new_emit) by (constructor; [by exists []|done]). revert H0.
  induction Hr as [|x y z Hs _ IH]; [done|]. intros H0. apply IH. by eapply emit_step_inv.
Qed.
Lemma emit_inv_wakes e : emit_inv e -> writing e = 0 -> main e = MainPolling -> emit_queue_ e <> [] -> (0 < event_counter e)%N.
Proof. intros [_ Hw] Hz Hm Hq. destruct (Hw Hq) as [?|[?|?]]; [done|lia|congruence]. Qed.

(** C11. Every emission is sent once, in the order of the pushes: what has been sent, the part the
    main thread holds and the queue are together everything that was pushed. A queue with
    work never sleeps: with no thread inside an emission and the main loop polling, the
    descriptor it polls is readable. *)
Theorem emissions_in_order e :
  rtc emit_step new_emit e ->
  (exists sent, enqueued e = sent ++ in_flight (main e) ++ emit_queue_ e /\ outgoing e = send_item true <$> sent) /\
  (writing e = 0 -> main e = MainPolling -> emit_queue_ e <> [] -> (0 < event_counter e)%N).
Proof.
  intros Hi%emit_inv_reachable. split; [apply (em_order _ Hi)|by apply emit_inv_wakes].
Qed.

(** One whole [FlushEmitQueue], when no thread emits meanwhile. *)
Definition FlushEmitQueue (e : EmitState) : EmitState :=
  e <| event_counter := 0%N |> <| emit_queue_ := [] |> <| outgoing := outgoing e ++ (send_item true <$> emit_queue_ e) |>.
Lemma flush_steps_send local e : main e = MainSending local ->
  rtc emit_step e (e <| outgoing := outgoing e ++ (send_item true <$> local) |> <| main := MainPolling |>).
Proof.
  revert e. induction local as [|item rest IH]; intros e Hm.
  - eapply rtc_l; [by apply es_done|]. cbn. rewrite app_nil_r. destruct e. apply rtc_refl.
  - eapply rtc_l; [by apply (es_send item rest)|]. etrans; [by apply IH|]. cbn. rewrite <-app_assoc. destruct e. apply rtc_refl.
Qed.
Lemma flush_is_steps e : main e = MainPolling -> (0 < event_counter e)%N -> rtc emit_step e (FlushEmitQueue e).
Proof.
  intros Hm Hc. eapply rtc_l; [by apply es_read|]. eapply rtc_l; [by apply es_swap|].
  etrans; [by apply (flush_steps_send (emit_queue_ e))|]. destruct e. cbn in *. subst. apply rtc_refl.
Qed.

(** When the emitters are quiet, the next turn of the main loop leaves nothing unsent. *)
Theorem quiet_flush_sends_all e :
  rtc emit_step new_emit e -> writing e = 0 -> main e = MainPolling -> emit_queue_ e <> [] ->
  exists e', rtc emit_step e e' /\ main e' = MainPolling /\ emit_queue_ e' = [] /\ outgoing e' = send_item true <$> enqueued e.
Proof.
  intros Hi%emit_inv_reachable Hw Hm Hq. destruct (em_order _ Hi) as (sent & E & O). exists (FlushEmitQueue e).
  split; [by apply flush_is_steps; [|apply emit_inv_wakes]|]. split_and!; [done|done|]. cbn. rewrite E, O, Hm. cbn. by rewrite fmap_app.
Qed.
End emit.

(** ** The main program (main.cpp) *)

(** The service's start: the event descriptor, the bus, the table, the name; a negative code
    ends it. *)
Definition Start_service (strerror : Z -> bytes) (eventfd errno opened added named : Z) : result unit :=
  if (eventfd <? 0)%Z then Err ("failed to create eventfd: " ++ strerror errno)
  else if (opened <? 0)%Z then Err ("failed to open user bus: " ++ strerror (- opened)%Z)
  else if (added <? 0)%Z then Err ("failed to add D-Bus vtable: " ++ strerror (- added)%Z)
  else if (named <? 0)%Z then Err ("failed to request D-Bus name: " ++ strerror (- named)%Z)
  else Ok tt.

(** The handler of an operation that reports a text on failure. *)
Definition reporting {S} (operation : bytes -> S -> result unit * S) (fallback id : bytes) (s : S) : MethodResult * S :=
  match operation id s with
  | (Ok _, s) => (Success [], s)
  | (Err e, s) => (Failure (if is_empty e then fallback else e), s)
  end.

(** The operations main connects to the service. *)
Record DaemonOperations (S : Type) := {
  do_StartRecording : S -> MethodResult * S;
  do_StartCommandRecording : bytes -> S -> MethodResult * S;
  do_StopRecording : bytes -> S -> MethodResult * S;
  do_CancelOperation : bool -> S -> MethodResult * S;
  do_GetStatus : S -> bytes * S;
  do_GetAsrBackendState : S -> AsrBackendState * S;
  do_ReloadAsrBackend : S -> MethodResult * S;
  adapter_Start : bytes -> S -> result unit * S;
  adapter_Stop : bytes -> S -> result unit * S;
  client_Start : bytes -> S -> result unit * S;
  client_Stop : bytes -> S -> result unit * S;
}.
Arguments do_StartRecording {S}. Arguments do_StartCommandRecording {S}. Arguments do_StopRecording {S}.
Arguments do_CancelOperation {S}. Arguments do_GetStatus {S}. Arguments do_GetAsrBackendState {S}.
Arguments do_ReloadAsrBackend {S}. Arguments adapter_Start {S}. Arguments adapter_Stop {S}.
Arguments client_Start {S}. Arguments client_Stop {S}.

Definition main_handlers {S} (o : DaemonOperations S) : Handlers S := {|
  start_handler_ := Some (do_StartRecording o);
  start_command_handler_ := Some (do_StartCommandRecording o);
  stop_handler_ := Some (do_StopRecording o);
  cancel_operation_handler_ := Some (do_CancelOperation o);
  status_handler_ := Some (do_GetStatus o);
  asr_backend_state_handler_ := Some (do_GetAsrBackendState o);
  reload_asr_backend_handler_ := Some (do_ReloadAsrBackend o);
  start_adapter_handler_ := Some (reporting (adapter_Start o) "failed to start adapter");
  stop_adapter_handler_ := Some (reporting (adapter_Stop o) "failed to stop adapter");
  start_client_handler_ := Some (reporting (client_Start o) "failed to start client");
  stop_client_handler_ := Some (reporting (client_Stop o) "failed to stop client");
|}.

(** The levels the command line sets, in order; the last one stays. *)
Fixpoint log_levels (args : list bytes) : list bytes :=
  match args with
  | [] => []
  | arg :: rest =>
      if StringUtils.starts_with arg "--log-level=" then drop 12 arg :: log_levels rest
      else if arg =b "--log-level"%bytes then
        match rest with level :: rest => level :: log_levels rest | [] => [] end
      else log_levels rest
  end.

(** One turn of the main loop: what [poll] returned and reported, whether the loop goes on,
    and what it does, in order. *)
Record PollResult := { poll_ret : Z; poll_eintr : bool; bus_readable : bool; notify_readable : bool; runtime_readable : bool }.
Inductive MainAction := DestroyExpired | FlushEmits | FlushDeferred | ProcessBus.
Definition loop_turn (p : PollResult) : bool * list MainAction :=
  if (poll_ret p <? 0)%Z then (poll_eintr p, [])
  else (true, [DestroyExpired] ++
    (if (0 <? poll_ret p)%Z then
       (if notify_readable p then [FlushEmits] else []) ++ (if runtime_readable p then [FlushDeferred] else []) ++
       (if bus_readable p then [ProcessBus] else [])
     else [])).

(** Emissions of a finished operation leave before the next call is served: in a turn that
    does both, the flush comes first. *)
Lemma flush_before_calls p : notify_readable p = true -> bus_readable p = true -> (0 < poll_ret p)%Z ->
  exists mid, (loop_turn p).2 = [DestroyExpired; FlushEmits] ++ mid ++ [ProcessBus].
Proof.
  intros Hn Hb Hp. unfold loop_turn. rewrite Hn, Hb. destruct (Z.ltb_spec (poll_ret p) 0); [lia|].
  destruct (Z.ltb_spec 0 (poll_ret p)); [|lia]. cbn. by exists (if runtime_readable p then [FlushDeferred] else []).
Qed.

(** ** Witnesses *)

Definition any_text (_ : bytes) : bool := true.
Definition counting (id : bytes) (s : list bytes) : result unit * list bytes :=
  if is_empty id then (Err [], s) else (Ok tt, s ++ [id]).
Definition sample_state : AsrBackendState :=
  {| target_provider_id := "local"; target_model_id := []; effective_provider_id := "local"; effective_model_id := "paraformer";
     last_error := []; reload_in_progress := true; has_effective_backend := true;
     remote_endpoints := ["ws://a"%bytes; "ws://b"%bytes] |}.
Definition sample_operations : DaemonOperations (list bytes) := {|
  do_StartRecording s := (Success [], s); do_StartCommandRecording _ s := (Success [], s);
  do_StopRecording _ s := (Failure "not recording", s); do_CancelOperation _ s := (Success [], s);
  do_GetStatus s := (kStatusIdle, s); do_GetAsrBackendState s := (sample_state, s); do_ReloadAsrBackend s := (Success [], s);
  adapter_Start := counting; adapter_Stop := counting; client_Start := counting; client_Stop := counting;
|}.

Lemma client_call_reaches_handler_witness :
  method_call any_text (main_handlers sample_operations) MStartAdapter {| bus_ := true |} "mtranserver" [] = (Ok tt, ["mtranserver"%bytes]) /\
  method_call any_text (main_handlers sample_operations) MStartClient {| bus_ := true |} "" [] = (Err "failed to start client", []).
Proof.
  split.
  - apply (client_call_reaches_handler any_text (main_handlers sample_operations) MStartAdapter {| bus_ := true |} "mtranserver" []
      (reporting counting "failed to start adapter")); [reflexivity|by split|reflexivity|intros _; by split|reflexivity].
  - apply (client_call_reaches_handler any_text (main_handlers sample_operations) MStartClient {| bus_ := true |} "" []
      (reporting counting "failed to start client")); [reflexivity|by split|reflexivity|done|reflexivity].
Defined.

Lemma backend_state_roundtrip_witness :
  client_GetAsrBackendState any_text (main_handlers sample_operations) {| bus_ := true |} [] = (Ok sample_state, []).
Proof.
  apply (backend_state_roundtrip any_text (main_handlers sample_operations) {| bus_ := true |} (fun s => (sample_state, s)) []);
    [reflexivity|reflexivity|]. constructor; try by split. repeat constructor.
Defined.

Definition two_emitted : EmitState :=
  enqueue_write (enqueue_push (EmitRecognitionResult "text") (enqueue_write (enqueue_push (EmitStatusChanged "idle") new_emit))).
Lemma two_emitted_reachable : rtc (emit_step any_text) new_emit two_emitted.
Proof.
  eapply rtc_l; [apply (es_push any_text (EmitStatusChanged "idle"))|]. eapply rtc_l; [apply es_write; cbn; lia|].
  eapply rtc_l; [apply (es_push any_text (EmitRecognitionResult "text"))|]. eapply rtc_l; [apply es_write; cbn; lia|]. apply rtc_refl.
Qed.
Lemma emissions_in_order_witness : (0 < event_counter two_emitted)%N.
Proof. apply (emissions_in_order any_text two_emitted two_emitted_reachable); [reflexivity|reflexivity|discriminate]. Defined.
Lemma quiet_flush_sends_all_witness :
  exists e', emit_queue_ e' = [] /\ outgoing e' = [Some (Signal "StatusChanged" [BStr "idle"]); Some (Signal "RecognitionResult" [BStr "text"])].
Proof.
  destruct (quiet_flush_sends_all any_text two_emitted two_emitted_reachable eq_refl eq_refl) as (e' & _ & _ & Hq & Ho); [discriminate|].
  exists e'. split; [exact Hq|]. rewrite Ho. reflexivity.
Defined.
