(* ===== verification/ModelCache.v ===== *)
(** * The cache of provider models (src/src/common/llm/provider_model_cache.cpp)

    A file with the model lists that the providers reported, keyed by provider. The file is
    its text (or the error of reading it) and the answer of the next write. *)

From S2P Require Import Prelude StringUtils Floats Json Scene CoreConfig ConfigCodec ModelManager Palette.

Record CacheFile := { cf_content : result bytes; cf_write : result unit }.
#[export] Instance CacheFile_fields : Fields CacheFile := fun f => Build_CacheFile (cf_content f) (cf_write f).

Record ModelEntry := { me_provider_id : bytes; me_model : bytes; me_full_id : bytes; active_for_command : bool }.

Definition members (v : json) : list (bytes * json) := match v with JObject m => m | _ => [] end.

Section cache.
Context `{Glaze} (write_pretty : json -> option bytes).

Definition ReadCacheFile (f : CacheFile) : option json :=
  match cf_content f with
  | Err _ => None
  | Ok content => match read_tree content with Ok v => if is_object v then Some v else None | Err _ => None end
  end.
Definition WriteCacheFile (data : json) (f : CacheFile) : result unit * CacheFile :=
  match write_pretty data with
  | None => (Err "failed to serialize provider model cache", f)
  | Some content =>
      match cf_write f with
      | Err e => (Err e, f)
      | Ok _ => (Ok tt, f <| cf_content := Ok content |>)
      end
  end.

(** The object under "providers", an empty one if there is none. *)
Definition provider_members (cache : json) : list (bytes * json) :=
  match Find cache "providers" with Some (JObject m) => m | _ => [] end.
Definition with_providers (providers : list (bytes * json)) (cache : json) : json :=
  JObject (map_set "providers" (JObject providers) (members cache)).

Definition cache_entry (models : list bytes) (now : Z) : json :=
  JObject [("models"%bytes, FromStrings models); ("updated_at"%bytes, JNumber (f64_of_Z now))].

Definition SaveProviderModels (provider_id : bytes) (models : list bytes) (now : Z) (f : CacheFile) : result unit * CacheFile :=
  if is_empty provider_id then (Err "Provider ID cannot be empty", f)
  else
    let cache := default EmptyObject (ReadCacheFile f) in
    WriteCacheFile (with_providers (map_set provider_id (cache_entry models now) (provider_members cache)) cache) f.

Definition RemoveProviderModels (provider_id : bytes) (f : CacheFile) : result unit * CacheFile :=
  if is_empty provider_id then (Ok tt, f)
  else
    match ReadCacheFile f with
    | None => (Ok tt, f)
    | Some cache =>
        match Find cache "providers" with
        | Some (JObject providers) =>
            if bool_decide (is_Some (map_find provider_id providers))
            then WriteCacheFile (with_providers (map_erase provider_id providers) cache) f
            else (Ok tt, f)
        | _ => (Ok tt, f)
        end
    end.

(** [std::set] of the configured providers, in its order. *)
Definition active_provider_ids (config : CoreConfig) : list bytes :=
  merge_sort id_le (elements (list_to_set (filter (fun id => id <> []) (lp_id <$> llm_providers (cc_llm config))) : gset bytes)).

(** The cached providers without the orphans, and the file if any was dropped. *)
Definition purge (config : CoreConfig) (f : CacheFile) : list (bytes * json) * CacheFile :=
  match ReadCacheFile f with
  | Some cache =>
      match Find cache "providers" with
      | Some (JObject providers) =>
          let kept := filter (fun kv => kv.1 ∈ active_provider_ids config) providers in
          if bool_decide (length kept = length providers) then (providers, f)
          else (kept, (WriteCacheFile (with_providers kept cache) f).2)
      | _ => ([], f)
      end
  | None => ([], f)
  end.

(** [add_entry]: each pair once, none with an empty part. *)
Definition add_entry (active : bytes * bytes) (acc : gset bytes * list ModelEntry) (pm : bytes * bytes) : gset bytes * list ModelEntry :=
  let '(seen, results) := acc in let '(pid, mdl) := pm in
  if is_empty pid || is_empty mdl then acc
  else
    let key := pid ++ "/" ++ mdl in
    if bool_decide (key ∈ seen) then acc
    else ({[key]} ∪ seen,
          results ++ [{| me_provider_id := pid; me_model := mdl; me_full_id := key;
                         active_for_command := (pid =b active.1) && (mdl =b active.2) |}]).

Definition command_binding (config : CoreConfig) : bytes * bytes :=
  match FindScene (definitions (cc_scenes config)) kCommandSceneId with
  | Some s => (sc_provider_id s, sc_model s)
  | None => ([], [])
  end.
Definition cached_pairs (config : CoreConfig) (providers : list (bytes * json)) : list (bytes * bytes) :=
  active_provider_ids config ≫= (fun pid =>
    match map_find pid providers with Some entry => pair pid <$> Strings_at entry "models" | None => [] end).
Definition scene_pairs (config : CoreConfig) : list (bytes * bytes) :=
  omap (fun s => if negb (is_empty (sc_provider_id s)) && negb (is_empty (sc_model s)) &&
                    bool_decide (sc_provider_id s ∈ active_provider_ids config)
                 then Some (sc_provider_id s, sc_model s) else None) (definitions (cc_scenes config)).
Definition LoadActiveModels (config : CoreConfig) (f : CacheFile) : list ModelEntry * CacheFile :=
  let '(providers, f) := purge config f in
  ((foldl (add_entry (command_binding config)) (∅, []) (cached_pairs config providers ++ scene_pairs config)).2, f).

(** ** What the list holds *)

Definition entries_of (active : bytes * bytes) (pairs : list (bytes * bytes)) : list ModelEntry :=
  (foldl (add_entry active) (∅, []) pairs).2.

Record entries_inv (pairs : list (bytes * bytes)) (acc : gset bytes * list ModelEntry) : Prop := {
  ei_seen : forall k, k ∈ acc.1 <-> k ∈ me_full_id <$> acc.2;
  ei_nodup : NoDup (me_full_id <$> acc.2);
  ei_from : Forall (fun e => (me_provider_id e, me_model e) ∈ pairs /\ me_full_id e = me_provider_id e ++ "/" ++ me_model e) acc.2;
  ei_all : forall p m, (p, m) ∈ pairs -> p <> [] -> m <> [] -> p ++ "/" ++ m ∈ me_full_id <$> acc.2;
}.
Lemma add_entry_inv active pairs acc pm : entries_inv pairs acc -> entries_inv (pairs ++ [pm]) (add_entry active acc pm).
Proof.
  destruct acc as [seen results], pm as [pid mdl]. intros [I1 I2 I3 I4]. cbn in *. unfold add_entry.
  assert (Hfrom : Forall (fun e => (me_provider_id e, me_model e) ∈ pairs ++ [(pid, mdl)] /\ me_full_id e = me_provider_id e ++ "/" ++ me_model e) results).
  { eapply Forall_impl; [exact I3|]. intros e [He Hf]. split; [|done]. apply elem_of_app. by left. }
  destruct (is_empty pid || is_empty mdl) eqn:Ee.
  { split; cbn; [done..|]. intros p m [Hp|[= -> ->]%list_elem_of_singleton]%elem_of_app Hp0 Hm0; [by apply I4|].
    apply is_empty_false in Hp0. apply is_empty_false in Hm0. by rewrite Hp0, Hm0 in Ee. }
  cbv zeta. case_bool_decide as Hk; split; cbn.
  - done.
  - done.
  - done.
  - intros p m [Hp|[= -> ->]%list_elem_of_singleton]%elem_of_app Hp0 Hm0; [by apply I4|]. by apply I1.
  - intros k. rewrite fmap_app, elem_of_app, elem_of_union, elem_of_singleton. cbn. rewrite list_elem_of_singleton, I1. tauto.
  - rewrite fmap_app. apply NoDup_app. split_and!; [done| |apply NoDup_singleton]. intros x Hx Hy%list_elem_of_singleton. subst x. apply Hk, I1, Hx.
  - apply Forall_app. split; [done|]. apply Forall_singleton. cbn. split; [|done]. apply elem_of_app. right. by apply list_elem_of_singleton.
  - intros p m [Hp|[= -> ->]%list_elem_of_singleton]%elem_of_app Hp0 Hm0; rewrite fmap_app, elem_of_app; [left; by apply I4|right]. by apply list_elem_of_singleton.
Qed.
Lemma entries_of_inv active pairs : exists acc, entries_inv pairs acc /\ entries_of active pairs = acc.2.
Proof.
  exists (foldl (add_entry active) (∅, []) pairs). split; [|done].
  induction pairs as [|pm pairs IH] using rev_ind; [by constructor; [set_solver|constructor|constructor|intros p m ?%elem_of_nil]|].
  rewrite foldl_app. by apply add_entry_inv.
Qed.

Lemma active_provider_spec config id : id ∈ active_provider_ids config <-> id <> [] /\ id ∈ lp_id <$> llm_providers (cc_llm config).
Proof.
  unfold active_provider_ids. rewrite (merge_sort_Permutation id_le _), elem_of_elements, elem_of_list_to_set, list_elem_of_filter. done.
Qed.

(** The offered models belong to configured providers, none twice. *)
Theorem listed_models_active config f :
  let entries := (LoadActiveModels config f).1 in
  NoDup (me_full_id <$> entries) /\
  Forall (fun e => me_provider_id e ∈ lp_id <$> llm_providers (cc_llm config)) entries.
Proof.
  unfold LoadActiveModels. destruct (purge config f) as [providers f']. cbn [fst].
  destruct (entries_of_inv (command_binding config) (cached_pairs config providers ++ scene_pairs config)) as ([seen es] & [_ I2 I3 _] & E).
  unfold entries_of in E. rewrite E. split; [done|]. eapply Forall_impl; [exact I3|]. intros e [[He|He]%elem_of_app _].
  - unfold cached_pairs in He. apply list_elem_of_bind in He as (pid & Hp & Hin). apply active_provider_spec in Hin as [_ Hin].
    destruct (map_find pid providers); [|by apply elem_of_nil in Hp]. apply list_elem_of_fmap in Hp as (m & [= -> _] & _). done.
  - apply list_elem_of_omap in He as (s & _ & Hs). case_match eqn:Hc; [|done]. injection Hs as <- _.
    apply andb_true_iff in Hc as [_ Hc%bool_decide_eq_true]. by apply active_provider_spec in Hc as [_ Hc].
Qed.

(** ** Round trip *)

(** What the cache relies on of the JSON library. *)
Definition text_reads_back : Prop := forall v text, write_pretty v = Some text -> read_tree text = Ok v.

Lemma string_items_strings l : string_items (JString <$> l) = l.
Proof. unfold string_items. induction l; cbn; [done|]. by f_equal. Qed.
Lemma find_with_providers ps cache : Find (with_providers ps cache) "providers" = Some (JObject ps).
Proof. unfold with_providers, Find. apply map_find_set_eq. Qed.
Lemma members_with_providers ps cache : provider_members (with_providers ps cache) = ps.
Proof. unfold provider_members. by rewrite find_with_providers. Qed.
Lemma map_find_filter {V} (P : bytes * V -> Prop) `{!forall x, Decision (P x)} k (m : list (bytes * V)) :
  (forall v, P (k, v)) -> map_find k (filter P m) = map_find k m.
Proof.
  intros Hk. induction m as [|[k' v] m IH]; [done|]. rewrite filter_cons. case_decide as Hp; cbn; rewrite ?IH; [done|].
  rewrite bool_decide_eq_false_2; [done|]. intros ->. by apply Hp.
Qed.
Lemma purge_keeps config f cache ps pid : ReadCacheFile f = Some cache -> Find cache "providers" = Some (JObject ps) ->
  pid ∈ active_provider_ids config -> map_find pid (purge config f).1 = map_find pid ps.
Proof.
  intros Hc Hp Hin. unfold purge. rewrite Hc, Hp. cbv zeta. case_bool_decide; [done|]. cbn [fst]. apply map_find_filter. done.
Qed.

(** The models a provider reported are offered once they are saved, as long as the provider
    is configured; saving leaves the lists of the other providers alone. *)
Theorem saved_models_offered config pid models now f f' m :
  text_reads_back -> SaveProviderModels pid models now f = (Ok tt, f') ->
  pid ∈ lp_id <$> llm_providers (cc_llm config) -> m ∈ models -> m <> [] ->
  pid ++ "/" ++ m ∈ me_full_id <$> (LoadActiveModels config f').1 /\
  forall other, other <> pid -> map_find other (provider_members (default EmptyObject (ReadCacheFile f'))) =
    map_find other (provider_members (default EmptyObject (ReadCacheFile f))).
Proof.
  intros Hrt Hs Hin Hm Hne. unfold SaveProviderModels in Hs. destruct (is_empty pid) eqn:Ep; [done|]. apply is_empty_false in Ep.
  cbv zeta in Hs. set (cache := default EmptyObject (ReadCacheFile f)) in *.
  set (ps := map_set pid (cache_entry models now) (provider_members cache)) in *.
  assert (Hr : ReadCacheFile f' = Some (with_providers ps cache)).
  { unfold WriteCacheFile in Hs. destruct (write_pretty _) as [text|] eqn:Ew; [|done]. destruct (cf_write f); [|done].
    injection Hs as <-. unfold ReadCacheFile. cbn. by rewrite (Hrt _ _ Ew). }
  split.
  - unfold LoadActiveModels. pose proof (purge_keeps config f' _ ps pid Hr (find_with_providers ps cache)) as Hk.
    destruct (purge config f') as [providers f'']. cbn [fst] in *.
    destruct (entries_of_inv (command_binding config) (cached_pairs config providers ++ scene_pairs config)) as ([seen es] & [_ _ _ I4] & E).
    unfold entries_of in E. rewrite E. apply I4; [|done|done]. apply elem_of_app. left. unfold cached_pairs.
    assert (Ha : pid ∈ active_provider_ids config) by by apply active_provider_spec.
    apply list_elem_of_bind. exists pid. split; [|done]. rewrite Hk by done. unfold ps. rewrite map_find_set_eq.
    apply list_elem_of_fmap. exists m. split; [done|]. change (m ∈ string_items (JString <$> models)). by rewrite string_items_strings.
  - intros other Ho. rewrite Hr. cbn [default]. unfold id. rewrite members_with_providers. by apply map_find_set_ne.
Qed.

(** A removed provider's list is gone from the file. *)
Lemma removed_models_gone pid f f' : pid <> [] -> text_reads_back -> RemoveProviderModels pid f = (Ok tt, f') ->
  map_find pid (provider_members (default EmptyObject (ReadCacheFile f'))) = None.
Proof.
  intros Hp Hrt. unfold RemoveProviderModels. apply is_empty_false in Hp. rewrite Hp. destruct (ReadCacheFile f) as [cache|] eqn:Ec.
  2: { intros [= <-]. by rewrite Ec. }
  destruct (Find cache "providers") as [[| | | | |ps]|] eqn:Ef.
  all: try (intros [= <-]; rewrite Ec; cbn [default]; unfold id, provider_members; by rewrite Ef).
  case_bool_decide as Hs.
  - unfold WriteCacheFile. destruct (write_pretty _) as [text|] eqn:Ew; [|done]. destruct (cf_write f); [|done]. intros [= <-].
    unfold ReadCacheFile. cbn. rewrite (Hrt _ _ Ew). cbn [is_object with_providers default]. unfold id.
    rewrite members_with_providers. apply map_find_erase_eq.
  - intros [= <-]. rewrite Ec. cbn [default]. unfold id, provider_members. rewrite Ef. by apply eq_None_not_Some.
Qed.
End cache.
