(* ===== verification/CommandLine.v ===== *)
(** * The command line tool (src/src/cli)

    The actions of the tool that change the configuration, the installed resources or the
    daemon. What an action calls is the class [CliWorld], the interface of components that
    are modelled on their own: the configuration store (ConfigStore.v), the daemon's client
    (DbusService.v), the registry and its scripts (Registry.v, Scripts.v), the models
    (ModelManager.v, ModelInstall.v), the model cache (ModelCache.v) and the devices
    (AudioCapture.v). An action is a computation that prints, changes the world and may
    leave early with an exit code. *)

From S2P Require Import Prelude StringUtils Json Version Scene CoreConfig ConfigCodec ConfigStore Interpolation Dbus.
From S2P Require Import ModelManager ModelInstall Registry Scripts AudioCapture.
From Stdlib Require Import Ascii.

(** What is printed; messages are in their untranslated form. *)
Inductive Line := PError (text : bytes) | PWarning (text : bytes) | PSuccess (text : bytes) | PInfo (text : bytes)
  | PJson (value : json) | PTable (rows : list (list bytes)).

(** How an action ends before its last statement. *)
Inductive Exit := Code (code : Z) | UndefinedBehaviour.

Record ModelsReply := { mr_ok : bool; mr_status : Z; mr_body : bytes; mr_error : bytes }.

Class CliWorld (W : Type) := {
  load_config : W -> CoreConfig;
  save_config : CoreConfig -> W -> bool * W;
  daemon_running : W -> (bool * bytes) * W;            (* the answer and the error text *)
  daemon_status : W -> result bytes * W;
  daemon_start : W -> result unit * W;
  daemon_stop : bytes -> W -> result unit * W;
  daemon_reload : W -> result unit * W;
  daemon_backend_state : W -> result AsrBackendState * W;
  daemon_start_adapter : bytes -> W -> result unit * W;
  daemon_stop_adapter : bytes -> W -> result unit * W;
  daemon_start_client : bytes -> W -> result unit * W;
  daemon_stop_client : bytes -> W -> result unit * W;
  adapter_running : bytes -> W -> bool;
  fetch_scripts : Kind -> CoreConfig -> list bytes -> W -> result (list RegistryEntry) * W;
  fetch_models : CoreConfig -> list bytes -> W -> result (list RemoteModelEntry) * W;
  fetch_i18n : CoreConfig -> W -> I18nMap * W;
  script_version : Kind -> RegistryEntry -> W -> ResourceVersionInfo;
  download_script : RegistryEntry -> Kind -> W -> result bytes * W;
  materialize_provider : CoreConfig -> RegistryEntry -> bytes -> result CoreConfig;
  materialize_adapter : CoreConfig -> RegistryEntry -> bytes -> list (bytes * bytes) -> result CoreConfig;
  remove_script : Kind -> bytes -> W -> W;
  unregister_script : bytes -> W -> W;
  installed_models : bytes -> W -> list ModelSummary;
  validate_model : bytes -> W -> result unit;
  remove_model : bytes -> W -> result unit * W;
  install_model : CoreConfig -> list bytes -> bytes -> W -> result unit * W;
  audio_sources : W -> list DeviceInfo;
  get_models : bytes -> option bytes -> W -> ModelsReply * W;     (* url, bearer token *)
  save_models : bytes -> list bytes -> W -> W;
  remove_models : bytes -> W -> W;
  environment : bytes -> option bytes;
  parse_json : bytes -> result json;
  trailing_text_error : bytes;
}.

Section cli.
Context {W : Type} `{CliWorld W}.

(** ** Actions *)

Definition M (A : Type) : Type := W -> (A + Exit) * list Line * W.
#[local] Instance M_ret : MRet M := fun _ a w => (inl a, [], w).
#[local] Instance M_bind : MBind M := fun _ _ k m w =>
  match m w with
  | (inl a, out, w) => let '(r, out', w) := k a w in (r, out ++ out', w)
  | (inr e, out, w) => (inr e, out, w)
  end.

Definition ask {A} (f : W -> A) : M A := fun w => (inl (f w), [], w).
Definition act {A} (f : W -> A * W) : M A := fun w => let '(a, w) := f w in (inl a, [], w).
Definition change (f : W -> W) : M unit := fun w => (inl tt, [], f w).
Definition say (l : Line) : M unit := fun w => (inl tt, [l], w).
Definition leave {A} (e : Exit) : M A := fun w => (inr e, [], w).
Definition fail {A} (text : bytes) : M A := say (PError text);; leave (Code 1).
Definition or_fail {A} (r : result A) : M A := match r with Ok a => mret a | Err e => fail e end.
Definition when (b : bool) (m : M unit) : M unit := if b then m else mret tt.

(** The exit code, the output and the world an action leaves. *)
Definition run (m : M unit) (w : W) : option Z * list Line * W :=
  match m w with
  | (inl _, out, w) => (Some 0%Z, out, w)
  | (inr (Code code), out, w) => (Some code, out, w)
  | (inr UndefinedBehaviour, out, w) => (None, out, w)
  end.

Definition quoted (before id after : bytes) : bytes := before ++ "'" ++ id ++ "'" ++ after.

Definition SaveConfigOrFail (config : CoreConfig) : M unit :=
  saved ← act (save_config config);
  if saved : bool then mret tt else fail "Failed to save config.".

Definition ToSceneConfig (s : Scenes) : SceneConfig := {| activeSceneId := activeScene s; scenes := definitions s |}.
Definition FromSceneConfig (c : SceneConfig) : Scenes := {| activeScene := activeSceneId c; definitions := scenes c |}.
Definition ResolveSceneId (explicit_id : bytes) : M bytes :=
  if negb (is_empty explicit_id) then mret explicit_id
  else
    config ← ask load_config;
    let sc := ToSceneConfig (cc_scenes config) in mret (sc_id (Resolve sc (activeSceneId sc))).

(** ** Resources (utils/resource_utils.cpp) *)

Definition ResolveSelector {T} (selector : bytes) (entries : list T) (kind_label : bytes) (get_id get_short_id : T -> bytes)
  : result bytes :=
  match list_find (fun e => get_short_id e = selector \/ get_id e = selector) entries with
  | Some (_, e) => Ok (get_id e)
  | None => Err (kind_label ++ " not found: " ++ selector)
  end.
(** The callers take an empty id for a failure. *)
Definition selected (r : result bytes) : M bytes :=
  match r with Ok [] => fail [] | Ok id => mret id | Err e => fail e end.

Record ResourceDisplayInfo := { di_id : bytes; di_short_id : bytes; di_title : bytes; di_description : bytes; di_readme_url : bytes }.
Definition HumanizeResourceId (id short_id : bytes) : bytes := if is_empty short_id then id else short_id.
Definition HumanizeResourceId_in (display_map : gmap bytes ResourceDisplayInfo) (id : bytes) : bytes :=
  match display_map !! id with None => id | Some info => HumanizeResourceId (di_id info) (di_short_id info) end.
Definition FormatTerminalLink (is_tty : bool) (label url : bytes) : bytes :=
  if is_empty label then []
  else if is_empty url || negb is_tty then label
  else
    let esc := Ascii.ascii_of_N 27 :: "]8;;" in let bel := [Ascii.ascii_of_N 7] in
    esc ++ url ++ bel ++ label ++ esc ++ bel.

Definition display_info (i18n : I18nMap) (id short_id readme_url : bytes) : ResourceDisplayInfo :=
  {| di_id := id; di_short_id := short_id; di_title := LookupI18n i18n (id ++ ".title") (HumanizeResourceId id short_id);
     di_description := LookupI18n i18n (id ++ ".description") []; di_readme_url := readme_url |}.
(** [emplace] keeps the first entry of an id. *)
Definition emplace (m : gmap bytes ResourceDisplayInfo) (info : ResourceDisplayInfo) : gmap bytes ResourceDisplayInfo :=
  match m !! di_id info with Some _ => m | None => <[di_id info := info]> m end.
Definition BuildModelDisplayMap (models : list RemoteModelEntry) (i18n : I18nMap) : gmap bytes ResourceDisplayInfo :=
  foldl (fun m e => emplace m (display_info i18n (re_id e) (re_short_id e) [])) ∅ models.
Definition BuildScriptDisplayMap (entries : list RegistryEntry) (i18n : I18nMap) : gmap bytes ResourceDisplayInfo :=
  foldl (fun m e => emplace m (display_info i18n (sc_id_ e) (sc_short_id e) (readme_url e))) ∅ entries.

Definition FetchModelDisplayMap (config : CoreConfig) : M (gmap bytes ResourceDisplayInfo) :=
  let urls := ModelRegistryUrls config in
  if is_empty urls then mret ∅
  else
    models ← act (fetch_models config urls);
    match models with
    | Err _ => mret ∅
    | Ok models => i18n ← act (fetch_i18n config); mret (BuildModelDisplayMap models i18n)
    end.
Definition registry_urls (kind : Kind) (config : CoreConfig) : list bytes :=
  match kind with kAsrProvider => AsrProviderRegistryUrls config | kLlmAdapter => LlmAdapterRegistryUrls config end.
Definition FetchScriptDisplayMap (config : CoreConfig) (kind : Kind) : M (gmap bytes ResourceDisplayInfo) :=
  let urls := registry_urls kind config in
  if is_empty urls then mret ∅
  else
    entries ← act (fetch_scripts kind config urls);
    match entries with
    | Err _ => mret ∅
    | Ok entries => i18n ← act (fetch_i18n config); mret (BuildScriptDisplayMap entries i18n)
    end.

(** The short id the registry knows for an installed resource. *)
Definition short_id_in (display_map : gmap bytes ResourceDisplayInfo) (id : bytes) : bytes :=
  match display_map !! id with Some info => if is_empty (di_short_id info) then id else di_short_id info | None => id end.
Definition ResolveScriptSelectorByShortId (selector : bytes) (entries : list RegistryEntry) (kind_label : bytes) : result bytes :=
  ResolveSelector selector entries kind_label sc_id_ sc_short_id.
Definition ResolveModelSelectorByShortId (selector : bytes) (models : list RemoteModelEntry) : result bytes :=
  ResolveSelector selector models "model" re_id re_short_id.
Definition ResolveInstalledModelSelector (selector : bytes) (models : list ModelSummary) (display_map : gmap bytes ResourceDisplayInfo)
  : result bytes :=
  ResolveSelector selector models "installed model" sm_id (fun m => short_id_in display_map (sm_id m)).
Definition ResolveInstalledAsrProviderSelector (config : CoreConfig) (selector : bytes) : M bytes :=
  display_map ← FetchScriptDisplayMap config kAsrProvider;
  selected (ResolveSelector selector (asr_providers (cc_asr config)) "ASR provider" AsrProviderId
              (fun p => short_id_in display_map (AsrProviderId p))).
Definition ResolveInstalledLlmAdapterSelector (config : CoreConfig) (selector : bytes) : M bytes :=
  display_map ← FetchScriptDisplayMap config kLlmAdapter;
  selected (ResolveSelector selector (llm_adapters (cc_llm config)) "LLM adapter" la_id (fun a => short_id_in display_map (la_id a))).

Fixpoint ParseEnvOverrides (env_overrides : list bytes) (out_env : gmap bytes bytes) : M (gmap bytes bytes) :=
  match env_overrides with
  | [] => mret out_env
  | item :: rest =>
      match SplitOnce item "="%char with
      | Some ((_ :: _) as key, value) => ParseEnvOverrides rest (<[key := value]> out_env)
      | _ => fail "Invalid --env: expected KEY=VALUE."
      end
  end.

(** ** Scenes (config/scene_actions.cpp) *)

(** The fields of a scene on the command line. *)
Record SceneArgs := {
  sa_label : bytes; sa_prompt : bytes; sa_provider : bytes; sa_model : bytes; sa_count : Z; sa_timeout : Z; sa_context : Z;
  sa_raw_cand : bool; sa_raw_prev : bool;
}.
Definition edit_scenes_with (f : SceneConfig -> result SceneConfig) (config : CoreConfig) : result CoreConfig :=
  let! sc := f (ToSceneConfig (cc_scenes config)) in Ok (config <| cc_scenes := FromSceneConfig sc |>).

Definition RunSceneConfigAdd (id : bytes) (a : SceneArgs) : M unit :=
  config ← ask load_config;
  let def := default_scene <| sc_id := Trim id |> <| sc_label := Trim (sa_label a) |> <| sc_prompt := Trim (sa_prompt a) |>
    <| sc_provider_id := Trim (sa_provider a) |> <| sc_model := Trim (sa_model a) |> <| llm_max_candidates := sa_count a |>
    <| timeout_ms := sa_timeout a |> <| context_lines := sa_context a |> <| raw_cand := sa_raw_cand a |> <| raw_prev := sa_raw_prev a |> in
  edited ← or_fail (edit_scenes_with (fun sc => AddScene sc def) config);
  SaveConfigOrFail edited;;
  say (PSuccess (quoted "Scene " id " added.")).
Definition RunSceneConfigUse (id : bytes) : M unit :=
  config ← ask load_config;
  edited ← or_fail (edit_scenes_with (fun sc => SetActiveScene sc id) config);
  SaveConfigOrFail edited;;
  say (PSuccess (quoted "Default scene set to " id ".")).
Definition RunSceneConfigRemove (id : bytes) (force : bool) : M unit :=
  config ← ask load_config;
  edited ← or_fail (edit_scenes_with (fun sc => RemoveScene sc id force) config);
  SaveConfigOrFail edited;;
  say (PSuccess (quoted "Scene " id " removed.")).

(** Only the options that were given change the scene. *)
Record SceneEdit := {
  se_label : option bytes; se_prompt : option bytes; se_provider : option bytes; se_model : option bytes; se_count : option Z;
  se_timeout : option Z; se_context : option Z; se_raw_cand : option bool; se_raw_prev : option bool;
}.
Definition apply_edit (e : SceneEdit) (s : Scene) : Scene :=
  let text old new := from_option Trim old new in
  s <| sc_label := text (sc_label s) (se_label e) |> <| sc_prompt := text (sc_prompt s) (se_prompt e) |>
    <| sc_provider_id := text (sc_provider_id s) (se_provider e) |> <| sc_model := text (sc_model s) (se_model e) |>
    <| llm_max_candidates := default (llm_max_candidates s) (se_count e) |> <| timeout_ms := default (timeout_ms s) (se_timeout e) |>
    <| context_lines := default (context_lines s) (se_context e) |> <| raw_cand := default (raw_cand s) (se_raw_cand e) |>
    <| raw_prev := default (raw_prev s) (se_raw_prev e) |>.
Definition RunSceneConfigEdit (id : bytes) (e : SceneEdit) : M unit :=
  config ← ask load_config;
  match FindScene (definitions (cc_scenes config)) id with
  | None => fail (quoted "Scene " id " not found.")
  | Some existing =>
      edited ← or_fail (edit_scenes_with (fun sc => UpdateScene sc id (apply_edit e existing)) config);
      SaveConfigOrFail edited;;
      say (PSuccess (quoted "Scene " id " updated."))
  end.

(** ** Language models (config/llm_actions.cpp) *)

Definition MaskSecret (secret : bytes) (head_keep tail_keep : nat) : bytes :=
  let star := Ascii.ascii_of_N 42 in
  if is_empty secret then []
  else if (length secret <=? tail_keep) || (length secret - tail_keep <=? head_keep) then replicate (length secret) star
  else take head_keep secret ++ replicate (length secret - head_keep - tail_keep) star ++ drop (length secret - tail_keep) secret.

Definition with_llm (config : CoreConfig) (providers : list LlmProvider) (adapters : list LlmAdapter) : CoreConfig :=
  config <| cc_llm := {| llm_providers := providers; llm_adapters := adapters |} |>.
Definition with_llm_providers (config : CoreConfig) (l : list LlmProvider) : CoreConfig := with_llm config l (llm_adapters (cc_llm config)).
Definition with_llm_adapters (config : CoreConfig) (l : list LlmAdapter) : CoreConfig := with_llm config (llm_providers (cc_llm config)) l.

Definition ParseExtraBody (raw : bytes) : result json :=
  if is_empty raw then Ok EmptyObject
  else if negb (IsSingleJsonValue raw) then Err ("Invalid --extra-body JSON: " ++ trailing_text_error)
  else
    match parse_json raw with
    | Err e => Err ("Invalid --extra-body JSON: " ++ e)
    | Ok parsed => if is_object parsed then Ok parsed
                   else Err ("--extra-body must be a JSON object (e.g. '{" ++ [ch_quote] ++ "enable_thinking" ++ [ch_quote] ++ ": false}').")
    end.

Definition RunLlmConfigAdd (id baseUrl apiKey extraBody : bytes) : M unit :=
  config ← ask load_config;
  match ViewLlmProvider config id with
  | Some _ => fail (quoted "LLM provider " id " already exists.")
  | None =>
      extra ← or_fail (ParseExtraBody extraBody);
      let provider := {| lp_id := Trim id; lp_base_url := Trim baseUrl; lp_api_key := Trim apiKey; lp_json_object := true; lp_extra_body := extra |} in
      SaveConfigOrFail (with_llm_providers config (llm_providers (cc_llm config) ++ [provider]));;
      say (PSuccess (quoted "LLM provider " id " added."))
  end.
Definition RunLlmConfigRemove (id : bytes) : M unit :=
  config ← ask load_config;
  match list_find (fun p => lp_id p = id) (llm_providers (cc_llm config)) with
  | None => fail (quoted "LLM provider " id " not found.")
  | Some (i, _) =>
      change (remove_models id);;
      SaveConfigOrFail (with_llm_providers config (delete i (llm_providers (cc_llm config))));;
      say (PSuccess (quoted "LLM provider " id " removed."))
  end.
Definition RunLlmConfigEdit (id : bytes) (baseUrl apiKey extraBody : option bytes) : M unit :=
  config ← ask load_config;
  match list_find (fun p => lp_id p = id) (llm_providers (cc_llm config)) with
  | None => fail (quoted "LLM provider " id " not found.")
  | Some (i, p) =>
      extra ← match extraBody with None => mret (lp_extra_body p) | Some raw => or_fail (ParseExtraBody raw) end;
      let edited := {| lp_id := lp_id p; lp_base_url := from_option Trim (lp_base_url p) baseUrl;
                       lp_api_key := from_option Trim (lp_api_key p) apiKey; lp_json_object := lp_json_object p; lp_extra_body := extra |} in
      SaveConfigOrFail (with_llm_providers config (<[i := edited]> (llm_providers (cc_llm config))));;
      say (PSuccess (quoted "LLM provider " id " updated."))
  end.

(** The iterator is used after the normalisation replaced the vector it points into. *)
Definition SetAdapterAutostart (json_output : bool) (id : bytes) (enable : bool) : M unit :=
  config ← ask load_config;
  resolved_id ← ResolveInstalledLlmAdapterSelector config id;
  match list_find (fun a => la_id a = resolved_id) (llm_adapters (cc_llm config)) with
  | None => fail (quoted "Adapter " id " not found.")
  | Some (i, a) =>
      let edited := {| la_id := la_id a; la_command := la_command a; la_args := la_args a; la_env := la_env a; la_autoStart := enable |} in
      SaveConfigOrFail (NormalizeCoreConfig (with_llm_adapters config (<[i := edited]> (llm_adapters (cc_llm config)))));;
      if json_output then leave UndefinedBehaviour
      else say (PSuccess (quoted "Adapter " id
                 (if enable then " enabled to autostart with daemon." else " disabled from autostart with daemon.")))
  end.

Definition RunLlmConfigRemoveAdapter (id : bytes) : M unit :=
  config ← ask load_config;
  resolved_id ← ResolveInstalledLlmAdapterSelector config id;
  running ← ask (adapter_running resolved_id);
  when running (
    stopped ← act (daemon_stop_adapter resolved_id);
    match stopped with Ok _ => mret tt | Err e => say (PWarning (quoted "Failed to stop running adapter " id (": " ++ e))) end);;
  let rest := filter (fun a => la_id a <> resolved_id) (llm_adapters (cc_llm config)) in
  if bool_decide (length rest = length (llm_adapters (cc_llm config))) then fail (quoted "Adapter " id " not found.")
  else
    change (remove_script kLlmAdapter resolved_id);;
    change (unregister_script resolved_id);;
    SaveConfigOrFail (with_llm_adapters config rest);;
    say (PSuccess (quoted "Adapter " id " removed.")).

(** The entry of the registry a selector means; shared by the actions that install. *)
Definition no_registry (kind : Kind) : bytes :=
  "No " ++ match kind with kAsrProvider => "ASR provider" | kLlmAdapter => "LLM adapter" end ++
  " registry base URLs configured. Edit config.json and set registry.base_urls.".
Definition kind_label (kind : Kind) : bytes := match kind with kAsrProvider => "ASR provider" | kLlmAdapter => "LLM adapter" end.
Definition kind_word (kind : Kind) : bytes := match kind with kAsrProvider => "ASR provider" | kLlmAdapter => "Adapter" end.
Definition registry_entries (kind : Kind) (config : CoreConfig) : M (list RegistryEntry) :=
  let urls := registry_urls kind config in
  if is_empty urls then fail (no_registry kind)
  else entries ← act (fetch_scripts kind config urls); or_fail entries.
(** The message names the id or, in an update, the selector. *)
Definition find_registry_entry (kind : Kind) (selector : bytes) (shown : bytes -> bytes) (entries : list RegistryEntry) : M RegistryEntry :=
  id ← selected (ResolveScriptSelectorByShortId selector entries (kind_label kind));
  match list_find (fun e => sc_id_ e = id) entries with
  | Some (_, e) => mret e
  | None => fail (quoted (kind_word kind ++ " ") (shown id) " not found in registry.")
  end.

(** A variable that is still blank after the installation. *)
Definition missing_env (a : LlmAdapter) (spec : EnvSpec) : bool :=
  env_required spec && match la_env a !! env_name spec with None => true | Some value => is_empty (Trim value) end.
Definition RunLlmConfigInstallAdapter (selector : bytes) (envOverrides : list bytes) : M unit :=
  overrides ← ParseEnvOverrides envOverrides ∅;
  loaded ← ask load_config;
  let config := NormalizeCoreConfig loaded in
  entries ← registry_entries kLlmAdapter config;
  entry ← find_registry_entry kLlmAdapter selector id entries;
  script ← act (download_script entry kLlmAdapter);
  scriptPath ← or_fail script;
  materialized ← or_fail (materialize_adapter config entry scriptPath (map_to_list overrides));
  let config := NormalizeCoreConfig materialized in
  SaveConfigOrFail config;;
  match ViewLlmAdapter config (sc_id_ entry) with
  | None => mret tt
  | Some installed =>
      foldr (fun spec k =>
        when (missing_env installed spec)
          (say (PWarning (quoted (quoted "Required env " (env_name spec) " is empty; ") selector
                            (" cannot start until it is set (re-run with -e " ++ env_name spec ++ "=<value>)."))));; k)
        (mret tt) (sc_envs entry)
  end;;
  say (PSuccess (quoted "Adapter " selector " added.")).

(** Updating one installed resource, on the configuration at hand. An adapter that runs is
    stopped before and started again after. *)
Definition updated_line (word short_id : bytes) (info : ResourceVersionInfo) : Line :=
  PSuccess (quoted (word ++ " ") short_id
    (if negb (is_empty (vi_installed_version info)) && negb (is_empty (vi_remote_version info))
     then " updated: " ++ vi_installed_version info ++ " -> " ++ vi_remote_version info else " updated.")).
Definition up_to_date (info : ResourceVersionInfo) : bool := match vi_status info with kUpToDate => true | _ => false end.

(** [updateSingle]: whether it succeeded, and the configuration. *)
Definition fetch_update (kind : Kind) (config : CoreConfig) (entry : RegistryEntry) : M (bool * CoreConfig) :=
  script ← act (download_script entry kind);
  match script with
  | Err e => say (PError (quoted "Failed to update " (sc_short_id entry) (": " ++ e)));; mret (false, config)
  | Ok path =>
      match (match kind with kAsrProvider => materialize_provider config entry path
                        | kLlmAdapter => materialize_adapter config entry path [] end) with
      | Err e => say (PError (quoted "Failed to update " (sc_short_id entry) (": " ++ e)));; mret (false, config)
      | Ok config => mret (true, config)
      end
  end.
Definition update_adapter_entry (force : bool) (config : CoreConfig) (entry : RegistryEntry) : M (bool * CoreConfig) :=
  info ← ask (script_version kLlmAdapter entry);
  if negb force && up_to_date info
  then say (PInfo (quoted "Adapter " (sc_short_id entry) " is already up to date."));; mret (true, config)
  else
    was_running ← ask (adapter_running (sc_id_ entry));
    when was_running (
      stopped ← act (daemon_stop_adapter (sc_id_ entry));
      match stopped with
      | Ok _ => mret tt
      | Err e => say (PWarning (quoted "Could not stop adapter " (sc_short_id entry) (" before update: " ++ e)))
      end);;
    done ← fetch_update kLlmAdapter config entry;
    if negb (done : bool * CoreConfig).1 then mret done
    else
      when was_running (
        started ← act (daemon_start_adapter (sc_id_ entry));
        match started with
        | Ok _ => say (PInfo (quoted "Adapter " (sc_short_id entry) " restarted."))
        | Err e => say (PWarning (quoted "Failed to restart adapter " (sc_short_id entry) (": " ++ e)))
        end);;
      say (updated_line "Adapter" (sc_short_id entry) info);; mret done.
Definition update_provider_entry (force : bool) (config : CoreConfig) (entry : RegistryEntry) : M (bool * CoreConfig) :=
  info ← ask (script_version kAsrProvider entry);
  if negb force && up_to_date info
  then say (PInfo (quoted "Provider " (sc_short_id entry) " is already up to date."));; mret (true, config)
  else
    done ← fetch_update kAsrProvider config entry;
    if negb (done : bool * CoreConfig).1 then mret done
    else say (updated_line "ASR provider" (sc_short_id entry) info);; mret done.

(** The installed resources that the registry lists, one after the other. *)
Fixpoint update_all (single : CoreConfig -> RegistryEntry -> M (bool * CoreConfig)) (entries : list RegistryEntry) (ids : list bytes)
    (any_updated : bool) (config : CoreConfig) : M (bool * CoreConfig) :=
  match ids with
  | [] => mret (any_updated, config)
  | id :: ids =>
      match list_find (fun e => sc_id_ e = id) entries with
      | None => update_all single entries ids any_updated config
      | Some (_, entry) => done ← single config entry; update_all single entries ids (any_updated || done.1) done.2
      end
  end.

Definition update_installed (kind : Kind) (selector : bytes) (all : bool) (nothing_selected : bytes)
    (ids_of : CoreConfig -> list bytes) (installed : CoreConfig -> bytes -> bool)
    (single : CoreConfig -> RegistryEntry -> M (bool * CoreConfig)) (save : CoreConfig -> M unit) : M unit :=
  if negb all && is_empty selector then fail nothing_selected
  else
    loaded ← ask load_config;
    let config := NormalizeCoreConfig loaded in
    entries ← registry_entries kind config;
    done ←
      (if all then update_all single entries (ids_of config) false config
       else
         entry ← find_registry_entry kind selector (fun _ => selector) entries;
         if negb (installed config (sc_id_ entry))
         then fail (quoted (kind_word kind ++ " ") selector " is not installed. Use 'add' instead.")
         else
           done ← single config entry;
           if negb (done : bool * CoreConfig).1 then leave (Code 1) else mret done);
    when (done : bool * CoreConfig).1 (save (NormalizeCoreConfig done.2)).

Definition RunLlmConfigUpdateAdapter (selector : bytes) (all force : bool) : M unit :=
  update_installed kLlmAdapter selector all
    "Specify an adapter short ID to update, or use --all to update all installed adapters."
    (fun c => la_id <$> llm_adapters (cc_llm c)) (fun c id => bool_decide (is_Some (ViewLlmAdapter c id)))
    (update_adapter_entry force) SaveConfigOrFail.

(** An adapter the daemon runs. *)
Definition call_adapter (calls : bytes -> M unit) (id done : bytes) : M unit :=
  config ← ask load_config;
  resolved_id ← ResolveInstalledLlmAdapterSelector config id;
  calls resolved_id;;
  say (PSuccess (quoted "Adapter " id done)).
Definition RunLlmConfigStartAdapter (id : bytes) : M unit :=
  call_adapter (fun r => started ← act (daemon_start_adapter r); or_fail started) id " started.".
Definition RunLlmConfigStopAdapter (id : bytes) : M unit :=
  call_adapter (fun r => stopped ← act (daemon_stop_adapter r); or_fail stopped) id " stopped.".
Definition RunLlmConfigRestartAdapter (id : bytes) : M unit :=
  call_adapter (fun r =>
    running ← ask (adapter_running r);
    when running (stopped ← act (daemon_stop_adapter r); or_fail stopped);;
    started ← act (daemon_start_adapter r); or_fail started) id " restarted.".

(** The keys of the providers are never printed whole. *)
Definition provider_json (p : LlmProvider) : json :=
  JObject [("api_key"%bytes, JString []); ("base_url"%bytes, JString (lp_base_url p));
           ("extra_body"%bytes, if is_object (lp_extra_body p) then lp_extra_body p else EmptyObject); ("id"%bytes, JString (lp_id p))].
Definition RunLlmConfigList (json_output : bool) : M unit :=
  config ← ask load_config;
  let providers := llm_providers (cc_llm config) in
  if json_output then say (PJson (JArray (provider_json <$> providers)))
  else say (PTable ((fun p => [lp_id p; lp_base_url p; MaskSecret (lp_api_key p) 4 4]) <$> providers)).

Fixpoint strip_slashes (reversed : bytes) : bytes :=
  match reversed with c :: r => if c =b "/"%char then strip_slashes r else reversed | [] => [] end.
Definition models_url (base_url : bytes) : bytes := reverse (strip_slashes (reverse base_url)) ++ "/models".
Definition reported_models (response : json) : list bytes :=
  match Find response "data" with
  | Some (JArray items) => omap (fun item => match Find item "id" with Some (JString m) => Some m | _ => None end) items
  | _ => []
  end.
Definition RunLlmConfigTest (json_output : bool) (id : bytes) : M unit :=
  config ← ask load_config;
  match ViewLlmProvider config id with
  | None => fail (quoted "LLM provider " id " not found.")
  | Some p =>
      if is_empty (lp_base_url p) then fail "Provider base_url is empty."
      else
        let key := InterpolateEnv environment (lp_api_key p) in
        when (HasInterpolation (lp_api_key p) && is_empty key)
          (say (PWarning (quoted (quoted "Environment variable " (lp_api_key p) " referenced in API key for provider ") (lp_id p)
                            " is unset or empty.")));;
        reply ← act (get_models (models_url (lp_base_url p)) (if is_empty key then None else Some key));
        if negb (mr_ok reply) then
          fail (if (mr_status reply =? 0)%Z then "Connection failed: " ++ mr_error reply
                else "HTTP " ++ to_string (mr_status reply) ++ ": " ++ mr_body reply)
        else
          match parse_json (mr_body reply) with
          | Err e => fail ("Invalid JSON response: " ++ e)
          | Ok response =>
              let models := reported_models response in
              change (save_models id models);;
              if json_output then
                say (PJson (JObject [("models"%bytes, FromStrings models); ("provider"%bytes, JString id); ("status"%bytes, JString "ok")]))
              else
                say (PSuccess (quoted "Connected to " id (". Found " ++ to_string (Z.of_nat (length models)) ++ " model(s).")));;
                when (negb (is_empty models)) (say (PTable ((fun m => [m]) <$> merge_sort id_le models)))
          end
  end.

(** ** Recognition (config/asr_actions.cpp) *)

Definition status_line (s : RequestedAsrBackendStatus) : Line :=
  match s with
  | kReloadInProgress => PInfo "Config saved and ASR backend reload is in progress."
  | kApplied => PInfo "Config saved and ASR runtime applied the requested backend."
  | kFailedStillUsingPrevious => PWarning "Config saved, but ASR runtime is still using the previous backend."
  | kFailedNoUsableBackend => PWarning "Config saved, but no usable ASR backend is active."
  | kConfigSaved | kUnknown => PInfo "Config saved. ASR runtime state is updating."
  end.
Definition ReportAsrRuntimeReloadStatus (config : CoreConfig) : M unit :=
  state ← act daemon_backend_state;
  match state with
  | Err e => when (negb (is_empty e)) (say (PWarning ("Config saved, but failed to confirm ASR runtime state: " ++ e)))
  | Ok state => say (status_line (ClassifyRequestedAsrBackend state (activeProvider (cc_asr config)) (PreferredLocalModel config)))
  end.
Definition reload_saved (config : CoreConfig) : M unit :=
  running ← act daemon_running;
  if negb (running : bool * bytes).1
  then when (negb (is_empty running.2)) (say (PWarning ("Config saved, but ASR backend reload was skipped: " ++ running.2)))
  else
    reloaded ← act daemon_reload;
    match reloaded with
    | Err e => say (PWarning ("Config saved, but failed to reload ASR backend: " ++ e))
    | Ok _ => ReportAsrRuntimeReloadStatus config
    end.
Definition SaveAsrConfigAndReload (config : CoreConfig) : M unit := SaveConfigOrFail config;; reload_saved config.

Definition with_active_provider (id : bytes) (config : CoreConfig) : CoreConfig := config <| cc_asr := cc_asr config <| activeProvider := id |> |>.
Definition RunAsrConfigRemove (id : bytes) : M unit :=
  config ← ask load_config;
  resolved_id ← ResolveInstalledAsrProviderSelector config id;
  match list_find (fun p => AsrProviderId p = resolved_id) (asr_providers (cc_asr config)) with
  | None => fail (quoted "ASR provider " id " not found.")
  | Some (i, p) =>
      if is_local p then fail "The local ASR provider cannot be removed. It is required for model management."
      else
        let edited := with_asr_providers config (delete i (asr_providers (cc_asr config))) in
        let edited := if activeProvider (cc_asr config) =b resolved_id then with_active_provider [] edited else edited in
        change (remove_script kAsrProvider resolved_id);;
        change (unregister_script resolved_id);;
        SaveAsrConfigAndReload edited;;
        say (PSuccess (quoted "ASR provider " id " removed."))
  end.
Definition RunAsrConfigUse (id : bytes) : M unit :=
  config ← ask load_config;
  resolved_id ← ResolveInstalledAsrProviderSelector config id;
  SaveAsrConfigAndReload (with_active_provider resolved_id config);;
  say (PSuccess (quoted "Configured ASR provider set to " id ".")).
Definition RunAsrConfigInstallProvider (selector : bytes) : M unit :=
  loaded ← ask load_config;
  let config := NormalizeCoreConfig loaded in
  entries ← registry_entries kAsrProvider config;
  entry ← find_registry_entry kAsrProvider selector id entries;
  script ← act (download_script entry kAsrProvider);
  scriptPath ← or_fail script;
  materialized ← or_fail (materialize_provider config entry scriptPath);
  SaveAsrConfigAndReload (NormalizeCoreConfig materialized);;
  say (PSuccess (quoted "ASR provider " selector " added.")).
Definition RunAsrConfigUpdateProvider (selector : bytes) (all force : bool) : M unit :=
  update_installed kAsrProvider selector all
    "Specify a provider short ID to update, or use --all to update all installed providers."
    (fun c => AsrProviderId <$> filter (fun p => is_local p = false) (asr_providers (cc_asr c)))
    (fun c id => bool_decide (is_Some (ViewAsrProvider c id))) (update_provider_entry force) SaveAsrConfigAndReload.

Definition ResolveInstalledModelOrReport (config : CoreConfig) (selector : bytes) : M bytes :=
  models ← ask (installed_models (PreferredLocalModel config));
  display_map ← FetchModelDisplayMap config;
  selected (ResolveInstalledModelSelector selector models display_map).
Definition RunAsrConfigInstallModel (selector : bytes) : M unit :=
  loaded ← ask load_config;
  let config := NormalizeCoreConfig loaded in
  let urls := ModelRegistryUrls config in
  if is_empty urls then fail "No model registry base URLs configured. Edit config.json and set registry.base_urls."
  else
    models ← act (fetch_models config urls);
    models ← or_fail models;
    id ← selected (ResolveModelSelectorByShortId selector models);
    installed ← act (install_model config urls id);
    or_fail installed;;
    say (PSuccess (quoted "Model " selector " added.")).
Definition RunAsrConfigRemoveModel (selector : bytes) : M unit :=
  config ← ask load_config;
  id ← ResolveInstalledModelOrReport config selector;
  removed ← act (remove_model id);
  or_fail removed;;
  when (PreferredLocalModel config =b id)
    match SetPreferredLocalModel config [] with
    | Err e => say (PWarning e)
    | Ok edited => SaveAsrConfigAndReload edited
    end;;
  say (PSuccess (quoted "Model " selector " removed.")).
Definition RunAsrConfigUseModel (selector : bytes) : M unit :=
  config ← ask load_config;
  id ← ResolveInstalledModelOrReport config selector;
  valid ← ask (validate_model id);
  match valid with
  | Err e => fail (quoted "Model " id (" is not valid: " ++ e))
  | Ok _ =>
      edited ← or_fail (SetPreferredLocalModel config id);
      SaveAsrConfigAndReload edited;;
      say (PSuccess (quoted "Preferred local model set to " selector "."))
  end.

(** [PreferredLocalProvider], as the place of the provider in the list. *)
Definition preferred_local (config : CoreConfig) : option (nat * AsrProvider) :=
  provider ← PreferredLocalAsrProvider config;
  '(i, p) ← list_find (fun p => AsrProviderId p = AsrProviderId provider) (asr_providers (cc_asr config));
  if is_local p then Some (i, p) else None.
Definition set_hotwords (path : bytes) (p : AsrProvider) : AsrProvider :=
  match p with LocalAsrProvider id timeout model _ => LocalAsrProvider id timeout model path | _ => p end.
Definition change_hotwords (path done : bytes) : M unit :=
  config ← ask load_config;
  match preferred_local config with
  | None => fail "No local ASR provider configured."
  | Some (i, p) =>
      SaveAsrConfigAndReload (with_asr_providers config (<[i := set_hotwords path p]> (asr_providers (cc_asr config))));;
      say (PSuccess done)
  end.
Definition RunAsrConfigSetHotword (path : bytes) : M unit := change_hotwords path "Hotwords file path saved.".
Definition RunAsrConfigClearHotword : M unit := change_hotwords [] "Hotwords file path cleared.".

(** ** Devices (config/device_actions.cpp) *)

Definition RunDeviceConfigUse (name : bytes) : M unit :=
  config ← ask load_config;
  let target := Trim name in
  devices ← ask audio_sources;
  when (negb (target =b "default") && bool_decide (~ target ∈ dev_name <$> devices))
    (say (PWarning (quoted "Device " name " not found in PipeWire. Setting it anyway.")));;
  SaveConfigOrFail (config <| cc_global := {| captureDevice := target; duckOutputWhileRecording := duckOutputWhileRecording (cc_global config);
                                             duckOutputVolume := duckOutputVolume (cc_global config) |} |>);;
  say (PSuccess (quoted "Capture device set to " target ". Restart daemon to apply changes.")).

(** ** Recording and clients (control/recording_actions.cpp, control/client_actions.cpp) *)

Definition ok_json (b : bool) (rest : list (bytes * json)) : json := JObject (map_set "ok" (JBool b) rest).
Definition failed {A} (json_output : bool) (text : bytes) : M A :=
  say (if json_output then PJson (ok_json false [("error"%bytes, JString text)]) else PError text);; leave (Code 1).
Definition EnsureDaemon (json_output : bool) : M unit :=
  running ← act daemon_running;
  if (running : bool * bytes).1 then mret tt
  else failed json_output (if is_empty running.2 then "Daemon is not running." else running.2).

Definition start_recording (json_output : bool) : M unit :=
  started ← act daemon_start;
  match started with
  | Err e => failed json_output e
  | Ok _ => say (if json_output then PJson (ok_json true [("action"%bytes, JString "start")]) else PInfo "Recording started.")
  end.
Definition stop_recording (json_output : bool) (scene_id : bytes) : M unit :=
  resolved ← ResolveSceneId scene_id;
  stopped ← act (daemon_stop resolved);
  match stopped with
  | Err e => failed json_output e
  | Ok _ =>
      say (if json_output then
             PJson (ok_json true ([("action"%bytes, JString "stop")] ++ (if is_empty resolved then [] else [("scene"%bytes, JString resolved)])))
           else if is_empty resolved then PInfo "Recording stopped."
           else PInfo ("Recording stopped (scene: " ++ resolved ++ ")."))
  end.
Definition RunRecordingControlStart (json_output : bool) : M unit := EnsureDaemon json_output;; start_recording json_output.
Definition RunRecordingControlStop (json_output : bool) (scene_id : bytes) : M unit :=
  EnsureDaemon json_output;; stop_recording json_output scene_id.
Definition RunRecordingControlToggle (json_output : bool) (scene_id : bytes) : M unit :=
  EnsureDaemon json_output;;
  status ← act daemon_status;
  match status with
  | Err e => failed json_output e
  | Ok status =>
      if status =b kStatusRecording then stop_recording json_output scene_id
      else if (status =b kStatusInferring) || (status =b kStatusPostprocessing)
      then failed json_output ("Daemon is busy (status: " ++ status ++ ").")
      else if status =b kStatusError then failed json_output "Daemon is in error state."
      else start_recording json_output
  end.

Inductive ClientKind := TriggerClient | ReceiverClient.
Definition KindLabel (kind : ClientKind) : bytes := match kind with TriggerClient => "trigger" | ReceiverClient => "receiver" end.
Definition GetClientList (config : CoreConfig) (kind : ClientKind) : list ClientSpec :=
  match kind with TriggerClient => triggers config | ReceiverClient => receivers config end.
Definition HasClientWithId (config : CoreConfig) (kind : ClientKind) (id : bytes) : bool := bool_decide (id ∈ cs_id <$> GetClientList config kind).
Definition call_client (json_output : bool) (kind : ClientKind) (id : bytes) (call : bytes -> W -> result unit * W) (action done : bytes) : M unit :=
  config ← ask load_config;
  if negb (HasClientWithId config kind id) then failed json_output (quoted [] id (" is not configured as a " ++ KindLabel kind ++ "."))
  else
    called ← act (call id);
    match called with
    | Err e => failed json_output e
    | Ok _ => say (if json_output then PJson (ok_json true [("action"%bytes, JString action); ("id"%bytes, JString id)])
                   else PSuccess (quoted "Client " id done))
    end.
Definition RunClientStart (json_output : bool) (kind : ClientKind) (id : bytes) : M unit :=
  call_client json_output kind id daemon_start_client "start" " started.".
Definition RunClientStop (json_output : bool) (kind : ClientKind) (id : bytes) : M unit :=
  call_client json_output kind id daemon_stop_client "stop" " stopped.".

(** ** What the actions do to the configuration *)

(** What the tool relies on of the store: a save that succeeds is what is loaded next,
    [saved c] for [c]; one that fails changes nothing. The other calls leave the
    configuration alone. *)
Definition leaves_config {A} (f : W -> A * W) : Prop := forall w, load_config (f w).2 = load_config w.
Class CliStore (saved : CoreConfig -> CoreConfig) := {
  save_true c w w' : save_config c w = (true, w') -> load_config w' = saved c;
  save_false c w w' : save_config c w = (false, w') -> load_config w' = load_config w;
  cl_running : leaves_config daemon_running; cl_status : leaves_config daemon_status; cl_start : leaves_config daemon_start;
  cl_stop id : leaves_config (daemon_stop id); cl_reload : leaves_config daemon_reload; cl_state : leaves_config daemon_backend_state;
  cl_scripts kind c urls : leaves_config (fetch_scripts kind c urls); cl_i18n c : leaves_config (fetch_i18n c);
  cl_remove_models id w : load_config (remove_models id w) = load_config w;
}.

Definition quiet {A} (m : M A) : Prop := forall w, load_config (m w).2 = load_config w.
Lemma quiet_ret {A} (a : A) : quiet (mret a). Proof. done. Qed.
Lemma quiet_ask {A} (f : W -> A) : quiet (ask f). Proof. done. Qed.
Lemma quiet_say l : quiet (say l). Proof. done. Qed.
Lemma quiet_leave {A} e : quiet (leave (A := A) e). Proof. done. Qed.
Lemma quiet_act {A} (f : W -> A * W) : leaves_config f -> quiet (act f).
Proof. intros Hf w. unfold act. specialize (Hf w). by destruct (f w). Qed.
Lemma quiet_change (f : W -> W) : (forall w, load_config (f w) = load_config w) -> quiet (change f).
Proof. intros Hf w. apply Hf. Qed.
Lemma quiet_bind {A B} (m : M A) (k : A -> M B) : quiet m -> (forall a, quiet (k a)) -> quiet (m ≫= k).
Proof.
  intros Hm Hk w. unfold mbind, M_bind. specialize (Hm w). destruct (m w) as [[[a|e] out] w1]; [|done]. cbn in Hm.
  specialize (Hk a w1). destruct (k a w1) as [[r out'] w2]. cbn in *. congruence.
Qed.
Lemma quiet_when b m : quiet m -> quiet (when b m). Proof. by destruct b. Qed.
End cli.

Create HintDb quiet.
#[export] Hint Resolve quiet_ret quiet_ask quiet_say quiet_leave quiet_act quiet_change quiet_bind quiet_when : quiet.
#[export] Hint Resolve cl_running cl_status cl_start cl_stop cl_reload cl_state cl_scripts cl_i18n cl_remove_models : quiet.

(** ** What a command leaves *)

Section commands.
Context {W : Type} `{CliWorld W}.
#[local] Existing Instances M_ret M_bind.
#[local] Abbreviation M := (M (W := W)).

(** The exit code and the world, without the output. *)
Definition final (m : M unit) (w : W) : option Z * W := ((run m w).1.1, (run m w).2).

Lemma final_silent {A} (m : M A) (a : A) (k : A -> M unit) w out w' : m w = (inl a, out, w') -> final (m ≫= k) w = final (k a) w'.
Proof. intros Hm. unfold final, run, mbind, M_bind. rewrite Hm. by destruct (k a w') as [[[?|[]] ?] ?]. Qed.
Lemma final_leave {A} (m : M A) code (k : A -> M unit) w out w' : m w = (inr (Code code), out, w') -> final (m ≫= k) w = (Some code, w').
Proof. intros Hm. unfold final, run, mbind, M_bind. by rewrite Hm. Qed.

Lemma final_assoc {A B} (m : M A) (k1 : A -> M B) (k2 : B -> M unit) w : final ((m ≫= k1) ≫= k2) w = final (m ≫= fun a => k1 a ≫= k2) w.
Proof.
  unfold final, run, mbind, M_bind. destruct (m w) as [[[a|[]] out] w1]; [|done..].
  destruct (k1 a w1) as [[[b|[]] out1] w2]; [|done..]. by destruct (k2 b w2) as [[[?|[]] ?] ?].
Qed.
Lemma final_ret {A} (a : A) k w : final (mret a ≫= k) w = final (k a) w. Proof. by eapply final_silent. Qed.
Lemma final_ask {A} (f : W -> A) k w : final (ask f ≫= k) w = final (k (f w)) w. Proof. by eapply final_silent. Qed.
Lemma final_change f k w : final (change f ≫= k) w = final (k tt) (f w). Proof. by eapply final_silent. Qed.
Lemma final_act {A} (f : W -> A * W) k w : final (act f ≫= k) w = final (k (f w).1) (f w).2.
Proof. eapply final_silent. unfold act. by destruct (f w). Qed.
Lemma final_say l w : final (say l) w = (Some 0%Z, w). Proof. done. Qed.
Lemma final_say_bind l k w : final (say l ≫= k) w = final (k tt) w. Proof. by eapply final_silent. Qed.
Lemma final_warn (b : bool) l k w : final (when b (say l) ≫= k) w = final (k tt) w.
Proof. destruct b; [apply final_say_bind | apply final_ret]. Qed.
Lemma final_fail text w : final (fail text) w = (Some 1%Z, w). Proof. done. Qed.
Lemma final_fail_bind {A} text (k : A -> M unit) w : final (fail text ≫= k) w = (Some 1%Z, w). Proof. by eapply final_leave. Qed.
Lemma final_or_fail {A} (r : result A) k w :
  final (or_fail r ≫= k) w = match r with Ok a => final (k a) w | Err _ => (Some 1%Z, w) end.
Proof. destruct r; [apply final_ret | apply final_fail_bind]. Qed.
Lemma final_save c k w :
  final (SaveConfigOrFail c ≫= k) w =
    let '(saved, w') := save_config c w in if saved then final (k tt) w' else (Some 1%Z, w').
Proof.
  destruct (save_config c w) as [[] w'] eqn:Hs; [eapply final_silent | eapply final_leave];
    unfold SaveConfigOrFail, mbind at 1, M_bind, act; by rewrite Hs.
Qed.

(** A part that neither stops nor touches the configuration can be passed over. *)
Definition proceeds {A} (m : M A) : Prop := forall w, exists a out w', m w = (inl a, out, w').
Lemma final_proceeds {A} (m : M A) (k : A -> M unit) w : proceeds m -> quiet m ->
  exists a w', load_config w' = load_config w /\ final (m ≫= k) w = final (k a) w'.
Proof.
  intros Hm Hq. destruct (Hm w) as (a & out & w' & Heq). exists a, w'. split; [|by eapply final_silent].
  specialize (Hq w). by rewrite Heq in Hq.
Qed.
Lemma proceeds_bind {A B} (m : M A) (k : A -> M B) : proceeds m -> (forall a, proceeds (k a)) -> proceeds (m ≫= k).
Proof.
  intros Hm Hk w. destruct (Hm w) as (a & out & w1 & H1). destruct (Hk a w1) as (b & out' & w2 & H2).
  exists b, (out ++ out'), w2. unfold mbind, M_bind. by rewrite H1, H2.
Qed.
Lemma proceeds_act {A} (f : W -> A * W) : proceeds (act f). Proof. intros w. unfold act. destruct (f w). by eauto. Qed.
Lemma proceeds_say l : proceeds (say l). Proof. intros w. by eexists _, _, _. Qed.
Lemma proceeds_when b m : proceeds m -> proceeds (when b m). Proof. destruct b; [done|]. intros _ w. by eexists _, _, _. Qed.
End commands.
#[export] Hint Resolve proceeds_bind proceeds_act proceeds_say proceeds_when : quiet.
Create Rewrite HintDb cli.
#[export] Hint Rewrite @final_ret @final_ask @final_change @final_say @final_say_bind @final_warn @final_fail @final_fail_bind
  @final_or_fail @final_save : cli.

(** ** The commands that edit the configuration *)

Inductive ConfigCommand :=
  | AddSceneCommand (id : bytes) (a : SceneArgs) | UseSceneCommand (id : bytes) | RemoveSceneCommand (id : bytes) (force : bool)
  | EditSceneCommand (id : bytes) (e : SceneEdit)
  | AddLlmCommand (id baseUrl apiKey extraBody : bytes) | RemoveLlmCommand (id : bytes)
  | EditLlmCommand (id : bytes) (baseUrl apiKey extraBody : option bytes)
  | UseDeviceCommand (name : bytes) | HotwordsCommand (path : bytes) | ClearHotwordsCommand.

Section editing.
Context {W : Type} `{CliWorld W}.
#[local] Existing Instances M_ret M_bind.

Definition perform (c : ConfigCommand) : M unit :=
  match c with
  | AddSceneCommand id a => RunSceneConfigAdd id a
  | UseSceneCommand id => RunSceneConfigUse id
  | RemoveSceneCommand id force => RunSceneConfigRemove id force
  | EditSceneCommand id e => RunSceneConfigEdit id e
  | AddLlmCommand id baseUrl apiKey extraBody => RunLlmConfigAdd id baseUrl apiKey extraBody
  | RemoveLlmCommand id => RunLlmConfigRemove id
  | EditLlmCommand id baseUrl apiKey extraBody => RunLlmConfigEdit id baseUrl apiKey extraBody
  | UseDeviceCommand name => RunDeviceConfigUse name
  | HotwordsCommand path => RunAsrConfigSetHotword path
  | ClearHotwordsCommand => RunAsrConfigClearHotword
  end.

(** What a command asks for: the configuration it wants, or why it cannot have it. *)
Definition wanted_scenes (c : CoreConfig) (r : result SceneConfig) : option CoreConfig :=
  match r with Ok sc => Some (c <| cc_scenes := FromSceneConfig sc |>) | Err _ => None end.
Definition as_option {A} (r : result A) : option A := match r with Ok a => Some a | Err _ => None end.
Definition wanted (cmd : ConfigCommand) (c : CoreConfig) : option CoreConfig :=
  let sc := ToSceneConfig (cc_scenes c) in
  let providers := llm_providers (cc_llm c) in
  match cmd with
  | AddSceneCommand id a => wanted_scenes c (AddScene sc
      {| sc_id := Trim id; sc_label := Trim (sa_label a); sc_prompt := Trim (sa_prompt a); sc_provider_id := Trim (sa_provider a);
         sc_model := Trim (sa_model a); llm_max_candidates := sa_count a; timeout_ms := sa_timeout a; context_lines := sa_context a;
         raw_cand := sa_raw_cand a; raw_prev := sa_raw_prev a; builtin := false |})
  | UseSceneCommand id => wanted_scenes c (SetActiveScene sc id)
  | RemoveSceneCommand id force => wanted_scenes c (RemoveScene sc id force)
  | EditSceneCommand id e => s ← FindScene (definitions (cc_scenes c)) id; wanted_scenes c (UpdateScene sc id (apply_edit e s))
  | AddLlmCommand id baseUrl apiKey extraBody =>
      guard (ViewLlmProvider c id = None);;
      extra ← as_option (ParseExtraBody extraBody);
      Some (with_llm_providers c (providers ++ [{| lp_id := Trim id; lp_base_url := Trim baseUrl; lp_api_key := Trim apiKey;
                                                    lp_json_object := true; lp_extra_body := extra |}]))
  | RemoveLlmCommand id =>
      '(i, _) ← list_find (fun p => lp_id p = id) providers; Some (with_llm_providers c (delete i providers))
  | EditLlmCommand id baseUrl apiKey extraBody =>
      '(i, p) ← list_find (fun p => lp_id p = id) providers;
      extra ← match extraBody with None => Some (lp_extra_body p) | Some raw => as_option (ParseExtraBody raw) end;
      Some (with_llm_providers c (<[i := {| lp_id := lp_id p; lp_base_url := from_option Trim (lp_base_url p) baseUrl;
                                            lp_api_key := from_option Trim (lp_api_key p) apiKey; lp_json_object := lp_json_object p;
                                            lp_extra_body := extra |}]> providers))
  | UseDeviceCommand name =>
      Some (c <| cc_global := {| captureDevice := Trim name; duckOutputWhileRecording := duckOutputWhileRecording (cc_global c);
                                 duckOutputVolume := duckOutputVolume (cc_global c) |} |>)
  | HotwordsCommand path =>
      '(i, p) ← preferred_local c; Some (with_asr_providers c (<[i := set_hotwords path p]> (asr_providers (cc_asr c))))
  | ClearHotwordsCommand =>
      '(i, p) ← preferred_local c; Some (with_asr_providers c (<[i := set_hotwords [] p]> (asr_providers (cc_asr c))))
  end.

(** ** Atomicity *)

Context (saved : CoreConfig -> CoreConfig) `{!CliStore saved}.

(** All or nothing, and the exit code tells which; nothing only when the command is
    refused or the save fails. *)
Definition committed (goal : option CoreConfig) (before : CoreConfig) (after : option Z * W) : Prop :=
  match goal with
  | None => after.1 = Some 1%Z /\ load_config after.2 = before
  | Some c =>
      after.1 = Some 0%Z /\ load_config after.2 = saved c \/
      after.1 = Some 1%Z /\ load_config after.2 = before /\ exists w, (save_config c w).1 = false
  end.

Lemma reload_proceeds c : proceeds (W := W) (reload_saved c).
Proof.
  unfold reload_saved, ReportAsrRuntimeReloadStatus. apply proceeds_bind; [auto with quiet|]. intros [[] e]; cbn; [|auto with quiet].
  apply proceeds_bind; [auto with quiet|]. intros []; [|auto with quiet].
  apply proceeds_bind; [auto with quiet|]. intros []; auto with quiet.
Qed.
Lemma reload_quiet c : quiet (W := W) (reload_saved c).
Proof.
  unfold reload_saved, ReportAsrRuntimeReloadStatus. apply quiet_bind; [eauto with quiet|]. intros [[] e]; cbn; [|auto with quiet].
  apply quiet_bind; [eauto with quiet|]. intros []; [|auto with quiet].
  apply quiet_bind; [eauto with quiet|]. intros []; auto with quiet.
Qed.
Lemma committed_save c k w : (forall w, load_config w = saved c -> (final k w).1 = Some 0%Z /\ load_config (final k w).2 = saved c) ->
  committed (Some c) (load_config w) (final (SaveConfigOrFail c;; k) w).
Proof.
  intros Hk. rewrite final_save. destruct (save_config c w) as [[] w'] eqn:Hs.
  - left. apply Hk. by eapply save_true.
  - right. split_and!; [done | by eapply save_false |]. exists w. by rewrite Hs.
Qed.
Lemma committed_save_say c l w : committed (Some c) (load_config w) (final (SaveConfigOrFail c;; say l) w).
Proof. by apply committed_save. Qed.
Lemma committed_save_asr c l w : committed (Some c) (load_config w) (final (SaveAsrConfigAndReload c;; say l) w).
Proof.
  unfold SaveAsrConfigAndReload. rewrite final_assoc. apply committed_save. intros w' Hw'.
  destruct (final_proceeds (reload_saved c) (fun _ => say l) w') as (a & w1 & Hw1 & ->); [apply reload_proceeds | apply reload_quiet |].
  rewrite final_say. cbn. by rewrite Hw1.
Qed.

Lemma committed_edit (f : SceneConfig -> result SceneConfig) c l w : c = load_config w ->
  committed (wanted_scenes c (f (ToSceneConfig (cc_scenes c)))) (load_config w)
    (final (edited ← or_fail (edit_scenes_with f c); SaveConfigOrFail edited;; say l) w).
Proof.
  intros ->. rewrite final_or_fail. unfold edit_scenes_with, wanted_scenes.
  destruct (f _); [apply committed_save_say | done].
Qed.
Lemma committed_hotwords path done w :
  committed ('(i, p) ← preferred_local (load_config w);
             Some (with_asr_providers (load_config w) (<[i := set_hotwords path p]> (asr_providers (cc_asr (load_config w))))))
    (load_config w) (final (change_hotwords path done) w).
Proof.
  unfold change_hotwords. rewrite final_ask. destruct (preferred_local _) as [[i p]|]; [apply committed_save_asr | done].
Qed.
End editing.
#[global] Arguments committed : simpl never.
#[global] Arguments final : simpl never.


(** ** Recording *)

Section recording.
Context {W : Type} `{CliWorld W}.
#[local] Existing Instances M_ret M_bind.

Definition code_of {A} (r : result A) : option Z := Some (match r with Ok _ => 0 | Err _ => 1 end)%Z.
(** The scene a stopped recording is processed with. *)
Definition scene_of (config : CoreConfig) (explicit_id : bytes) : bytes :=
  if is_empty explicit_id then sc_id (Resolve (ToSceneConfig (cc_scenes config)) (activeScene (cc_scenes config))) else explicit_id.

Lemma final_failed j text w : final (W := W) (failed j text) w = (Some 1%Z, w). Proof. done. Qed.
Lemma final_start j w : final (start_recording j) w = (code_of (daemon_start w).1, (daemon_start w).2).
Proof. unfold start_recording. rewrite final_act. by destruct (daemon_start w) as [[] ?]. Qed.
Lemma final_stop j scene w :
  final (stop_recording j scene) w =
    let stopped := daemon_stop (scene_of (load_config w) scene) w in (code_of stopped.1, stopped.2).
Proof.
  unfold stop_recording, ResolveSceneId, scene_of. destruct scene; cbn [is_empty negb];
    [rewrite final_assoc, final_ask | ]; cbn zeta; rewrite final_ret, final_act; by destruct (daemon_stop _ w) as [[] ?].
Qed.
Lemma final_ensure j k w : (daemon_running w).1.1 = true -> final (EnsureDaemon j ≫= k) w = final (k tt) (daemon_running w).2.
Proof. intros Hr. unfold EnsureDaemon. rewrite final_assoc, final_act, Hr. apply final_ret. Qed.

(** Toggling does what the phase of the daemon calls for, and nothing while it is busy. *)
Lemma toggle_follows_phase j scene w w1 w2 e st :
  daemon_running w = ((true, e), w1) -> daemon_status w1 = (Ok (StatusToString st), w2) ->
  final (RunRecordingControlToggle j scene) w =
    match st with
    | Idle => (code_of (daemon_start w2).1, (daemon_start w2).2)
    | Recording => let stopped := daemon_stop (scene_of (load_config w2) scene) w2 in (code_of stopped.1, stopped.2)
    | Inferring | Postprocessing | Error => (Some 1%Z, w2)
    end.
Proof.
  intros Hr Hs. unfold RunRecordingControlToggle. rewrite final_ensure; rewrite Hr; [|done]. cbn [snd].
  rewrite final_act, Hs. cbn [fst snd]. destruct st; [apply final_start | apply final_stop | done | done | done].
Qed.
(** Without a daemon no recording command does anything. *)
Lemma recording_needs_daemon j w w1 e scene : daemon_running w = ((false, e), w1) ->
  final (RunRecordingControlStart j) w = (Some 1%Z, w1) /\
  final (RunRecordingControlStop j scene) w = (Some 1%Z, w1) /\
  final (RunRecordingControlToggle j scene) w = (Some 1%Z, w1).
Proof.
  intros Hr. unfold RunRecordingControlStart, RunRecordingControlStop, RunRecordingControlToggle, EnsureDaemon.
  rewrite !final_assoc, !final_act, Hr. done.
Qed.
End recording.

(** ** Secrets *)

(** A key is shown with its length and at most its first and last characters. *)
Lemma MaskSecret_hides secret h t :
  length (MaskSecret secret h t) = length secret /\
  (forall i, i < length secret -> (h <= i /\ i < length secret - t) \/ length secret <= h + t ->
     MaskSecret secret h t !! i = Some (Ascii.ascii_of_N 42)).
Proof.
  unfold MaskSecret. set (star := Ascii.ascii_of_N 42). destruct secret as [|c s]; [by split; [|cbn; lia]|].
  cbn [is_empty]. set (secret := c :: s).
  destruct ((length secret <=? t) || (length secret - t <=? h)) eqn:Hshort; cbn iota.
  - split; [apply length_replicate|]. intros i Hi _. by apply lookup_replicate_2.
  - apply orb_false_iff in Hshort as [?%Nat.leb_gt ?%Nat.leb_gt]. split.
    + rewrite !length_app, length_take, length_replicate, length_drop. lia.
    + intros i Hi [[? ?]|?]; [|lia].
      rewrite lookup_app_r; rewrite length_take_le by lia; [|lia].
      rewrite lookup_app_l by (rewrite length_replicate; lia). apply lookup_replicate_2. lia.
Qed.

(** ** A scripted world *)

Module Demo.
Record World := {
  d_config : CoreConfig; d_writable : bool; d_running : list bytes;    (* the adapters that run *)
  d_scripts : list bytes;                                              (* the scripts that are installed *)
  d_downloads : bool; d_status : bytes;
}.
#[export] Instance World_fields : Fields World :=
  fun w => Build_World (d_config w) (d_writable w) (d_running w) (d_scripts w) (d_downloads w) (d_status w).
Definition answer {A} (a : A) (w : World) : A * World := (a, w).
Definition rewriter : RegistryEntry :=
  {| sc_id_ := "adapter.demo.rewriter"; sc_short_id := "rewriter"; sc_version := "2"; sc_sha256 := []; sc_vinput_version := [];
     sc_stream := false; sc_command := "python3"; script_urls := []; readme_url := []; sc_envs := [] |}.

#[export] Instance demo_cli : CliWorld World := {|
  load_config := d_config;
  save_config c w := if d_writable w then (true, w <| d_config := saved_demo c |>) else (false, w);
  daemon_running := answer (true, []);
  daemon_status w := (Ok (d_status w), w);
  daemon_start w := (Ok tt, w <| d_status := kStatusRecording |>);
  daemon_stop _ w := (Ok tt, w <| d_status := kStatusInferring |>);
  daemon_reload := answer (Ok tt);
  daemon_backend_state := answer (Err []);
  daemon_start_adapter id w := (Ok tt, w <| d_running := id :: d_running w |>);
  daemon_stop_adapter id w := (Ok tt, w <| d_running := filter (.≠ id) (d_running w) |>);
  daemon_start_client _ := answer (Ok tt);
  daemon_stop_client _ := answer (Ok tt);
  adapter_running id w := bool_decide (id ∈ d_running w);
  fetch_scripts kind _ _ := answer (Ok match kind with kLlmAdapter => [rewriter] | kAsrProvider => [] end);
  fetch_models _ _ := answer (Ok []);
  fetch_i18n _ := answer ∅;
  script_version _ _ _ := {| vi_installed_version := "1"; vi_remote_version := "2"; vi_installed_sha256 := []; vi_remote_sha256 := [];
                             vi_vinput_version := []; vi_status := kUpdateAvailable |};
  download_script e _ w := (if d_downloads w then Ok (sc_id_ e) else Err "offline", w);
  materialize_provider c _ _ := Ok c;
  materialize_adapter c _ _ _ := Ok c;
  remove_script _ id w := w <| d_scripts := filter (.≠ id) (d_scripts w) |>;
  unregister_script _ w := w;
  installed_models _ _ := [];
  validate_model _ _ := Ok tt;
  remove_model _ := answer (Ok tt);
  install_model _ _ _ := answer (Ok tt);
  audio_sources _ := [];
  get_models _ _ := answer {| mr_ok := false; mr_status := 0; mr_body := []; mr_error := "offline" |};
  save_models _ _ w := w;
  remove_models _ w := w;
  environment _ := None;
  parse_json _ := Err "unused";
  trailing_text_error := "unused";
|}.
#[export] Instance demo_store : CliStore saved_demo.
Proof.
  split; try done.
  - intros c w w'. cbn. destruct (d_writable w); intros [= <-]. done.
  - intros c w w'. cbn. destruct (d_writable w); intros [= <-]. done.
Qed.

Definition adapter : LlmAdapter :=
  {| la_id := "adapter.demo.rewriter"; la_command := "python3"; la_args := []; la_env := ∅; la_autoStart := false |}.
Definition provider : LlmProvider :=
  {| lp_id := "cloud"; lp_base_url := "https://first.example"; lp_api_key := []; lp_json_object := true; lp_extra_body := EmptyObject |}.
Definition config : CoreConfig :=
  saved_demo (default_core_config <| baseUrls := ["https://registry.example"%bytes] |>
    <| cc_llm := {| llm_providers := [provider]; llm_adapters := [adapter] |} |>
    <| cc_asr := cc_asr default_core_config <| asr_providers := [CommandAsrProvider "provider.demo.cloud" 5000 "python3" [] ∅] |> |>).
Definition world : World :=
  {| d_config := config; d_writable := true; d_running := ["adapter.demo.rewriter"%bytes];
     d_scripts := ["adapter.demo.rewriter"%bytes; "provider.demo.cloud"%bytes]; d_downloads := true; d_status := kStatusIdle |}.
End Demo.
#[local] Existing Instances Demo.World_fields Demo.demo_cli Demo.demo_store.


(** ** What the commands get wrong *)

(** With [--json] the autostart command reads an element of a vector that was replaced. *)
Example autostart_json_dangles : (final (SetAdapterAutostart true "rewriter" true) Demo.world).1 = None.
Proof. vm_compute. reflexivity. Qed.

(** The new id is compared before it is trimmed: the provider is reported as added, and the
    store drops it as a duplicate. *)
Example duplicate_reported_added :
  let '(code, out, w) := run (RunLlmConfigAdd " cloud" "https://second.example" [] []) Demo.world in
  code = Some 0%Z /\ out = [PSuccess "LLM provider ' cloud' added."] /\ Demo.d_config w = Demo.config.
Proof. vm_compute. done. Qed.

(** An update whose download fails leaves the adapter stopped, and with [--all] the
    failure is not in the exit code. *)
Example failed_update_stops_adapter :
  let w := Demo.world <| Demo.d_downloads := false |> in
  let one := final (RunLlmConfigUpdateAdapter "rewriter" false false) w in
  let all := final (RunLlmConfigUpdateAdapter [] true false) w in
  one.1 = Some 1%Z /\ Demo.d_running one.2 = [] /\ all.1 = Some 0%Z /\ Demo.d_running all.2 = [].
Proof. vm_compute. done. Qed.

(** The script of a provider is deleted before the configuration that drops it is saved: if
    that fails, the configuration still names the deleted script. *)
Example removal_deletes_script_first :
  let w := Demo.world <| Demo.d_writable := false |> in
  let after := final (RunAsrConfigRemove "provider.demo.cloud") w in
  after.1 = Some 1%Z /\ Demo.d_config after.2 = Demo.config /\ "provider.demo.cloud"%bytes ∉ Demo.d_scripts after.2.
Proof. split_and!; [vm_compute; reflexivity.. | apply (bool_decide_unpack _); vm_compute; exact I]. Qed.

(** Toggling twice records and stops. *)
Example toggle_twice :
  let w := (final (RunRecordingControlToggle false []) Demo.world).2 in
  Demo.d_status w = kStatusRecording /\ Demo.d_status (final (RunRecordingControlToggle false []) w).2 = kStatusInferring.
Proof. vm_compute. done. Qed.
