(* ===== verification/Hotwords.v ===== *)
(** * Hotwords (src/src/daemon/asr/hotword_utils.cpp)

    A hotword file has one word or phrase per line, optionally with a score
    ([word:3.5]). Unicode decoding and float parsing are parameters, and so are the
    answers of the file system. *)

From S2P Require Import Prelude StringUtils Floats Json Vocabulary.
From Stdlib Require Import Ascii SpecFloat.

Definition kMaxHotwordFileBytes : N := 1024 * 1024.

Record HotwordEntry := { hw_text : bytes; hw_score : bytes }.
Definition no_entry : HotwordEntry := {| hw_text := []; hw_score := [] |}.

(** What the file system says about a hotword file. *)
Record HotwordFile := {
  hf_regular : bool; hf_size : result N; hf_text : option bytes;
}.

Section hotwords.
(** [from_chars]: the float that is the whole text, in decimal or hexadecimal; [decode]:
    the length and the code point at the front of a text; [is_control]: category Cc. *)
Context (from_chars_float : bool -> bytes -> option flt)
        (decode : bytes -> option (nat * N)) (is_control : N -> bool).

(** The digits after an optional sign; [None] for a second sign or nothing. *)
Definition unsigned_part (value : bytes) : option bytes :=
  let checked digits :=
    if is_empty digits || starts_with digits "+" || starts_with digits "-" then None else Some digits in
  if starts_with value "+" || starts_with value "-" then checked (drop 1 value) else Some value.

Definition ParseHotwordScore (value : bytes) : option flt :=
  if is_empty value then None
  else
    digits ← unsigned_part value;
    let hex := starts_with digits "0x" || starts_with digits "0X" in
    parsed ← from_chars_float hex (if hex then drop 2 digits else digits);
    if is_finite parsed then Some (if starts_with value "-" then SFopp parsed else parsed) else None.

(** [Some (Err ..)]: the offset and reason; [None]: no progress is made. *)
Fixpoint validate_text (fuel : nat) (text : bytes) (offset : nat) : option (result unit * nat) :=
  if is_empty (drop offset text) then Some (Ok tt, 0)
  else
    match fuel with
    | O => None
    | S fuel =>
        match decode (drop offset text) with
        | None => Some (Err "invalid UTF-8 sequence", offset)
        | Some (n, cp) =>
            if (cp =? 0)%N then Some (Err "embedded NUL is not allowed", offset)
            else if negb ((cp =? 9)%N || (cp =? 10)%N || (cp =? 13)%N) && (is_control cp || (cp <? 32)%N)
            then Some (Err "control character is not allowed", offset)
            else validate_text fuel text (offset + n)
        end
    end.
Definition ValidateHotwordText (text : bytes) : option (result unit * nat) :=
  validate_text (length text) text 0.

Definition IsHotwordWhitespace (c : ascii) : bool :=
  (c =b " "%char) || (c =b "009"%char) || (c =b ch_cr) || (c =b ch_nl).

Definition ReadHotwordFile (path : bytes) (file : HotwordFile) : option (result bytes) :=
  if is_empty path then Some (Ok [])
  else if negb (hf_regular file) then Some (Err ("hotwords file is not a regular file: " ++ path))
  else
    match hf_size file with
    | Err e => Some (Err ("failed to inspect hotwords file '" ++ path ++ "': " ++ e))
    | Ok n =>
        if (kMaxHotwordFileBytes <? n)%N then Some (Err ("hotwords file exceeds 1 MiB limit: " ++ path))
        else
          match hf_text file with
          | None => Some (Err ("failed to read hotwords file: " ++ path))
          | Some content =>
              (* at most one byte more than the limit is read *)
              let text := take (N.to_nat (kMaxHotwordFileBytes + 1)) content in
              if (kMaxHotwordFileBytes <? size text)%N then Some (Err ("hotwords file exceeds 1 MiB limit: " ++ path))
              else
                '(valid, offset) ← ValidateHotwordText text;
                Some (match valid with
                      | Ok _ => Ok text
                      | Err reason => Err ("invalid hotwords file at byte " ++ to_string (Z.of_nat offset) ++ ": " ++ reason)
                      end)
          end
    end.

Definition IsValidScore (value : bytes) : bool :=
  match ParseHotwordScore value with Some _ => true | None => false end.

Definition LooksLikeScore (value : bytes) : bool :=
  match value with
  | [] => true
  | first :: _ =>
      isdigit first || (first =b "+"%char) || (first =b "-"%char) || (first =b "."%char)
      || EqualsIgnoreCase value "nan" || StartsWithIgnoreCase value "nan("
      || EqualsIgnoreCase value "inf" || EqualsIgnoreCase value "infinity"
  end.

(** Some colon follows white space. *)
Fixpoint spaced_colon (line : bytes) : bool :=
  match line with
  | a :: ((b :: _) as rest) => ((b =b ":"%char) && IsHotwordWhitespace a) || spaced_colon rest
  | _ => false
  end.

Definition spaces_error (line : bytes) : bytes := "invalid hotword score; use 'word:3.5' without spaces: " ++ line.

Definition ends_in_space (s : bytes) : bool :=
  match last s with Some c => IsHotwordWhitespace c | None => false end.

Definition ParseHotwordEntry (raw_line : bytes) : result HotwordEntry :=
  let line := Trim raw_line in
  if is_empty line then Ok no_entry
  else if spaced_colon line then Err (spaces_error line)
  else
    match RSplitOnce line ":"%char with
    | None => Ok {| hw_text := line; hw_score := [] |}
    | Some (raw_text, raw_score) =>
        let score := Trim raw_score in
        let text := Trim raw_text in
        let badly_spaced := ends_in_space raw_text || negb (raw_score =b score) in
        if IsValidScore score then
          if badly_spaced then Err (spaces_error line)
          else if is_empty text then Err ("hotword score has no preceding word or phrase: " ++ line)
          else Ok {| hw_text := text; hw_score := score |}
        else if badly_spaced || LooksLikeScore score then Err (spaces_error line)
        else Ok {| hw_text := line; hw_score := [] |}
    end.

Fixpoint parse_entries (lines : list bytes) : result (list HotwordEntry) :=
  match lines with
  | [] => Ok []
  | line :: lines =>
      let! entry := ParseHotwordEntry line in
      let! entries := parse_entries lines in
      Ok (if is_empty (hw_text entry) then entries else entry :: entries)
  end.

Definition LoadHotwordEntries (path : bytes) (file : HotwordFile) : option (result (list HotwordEntry)) :=
  r ← ReadHotwordFile path file;
  Some (let! content := r in parse_entries (SplitLines content)).

(** The score is a separate trailing token. *)
Definition transducer_line (e : HotwordEntry) : bytes :=
  hw_text e ++ (if is_empty (hw_score e) then [] else " :" ++ hw_score e) ++ [ch_nl].
Definition LoadTransducerHotwords (path : bytes) (file : HotwordFile) : option (result bytes) :=
  r ← LoadHotwordEntries path file;
  Some (let! entries := r in Ok (concat (transducer_line <$> entries))).

Definition LoadPromptHotwordsCsv (path : bytes) (file : HotwordFile) : option (result bytes) :=
  r ← LoadHotwordEntries path file;
  Some (let! entries := r in Ok (Join (hw_text <$> entries) ",")).

Definition IsTransducerHotwordFamily (family : bytes) : bool :=
  (family =b "transducer") || (family =b "nemo_transducer").
Definition IsPromptHotwordFamily (family : bytes) : bool :=
  (family =b "funasr_nano") || (family =b "qwen3_asr").

(** [model_config] and the vocabulary file of the model; [vocab_ok]: the validator. *)
Definition ValidateTransducerHotwordAssets (model_config : json) (bpe_vocab : bytes) (is_regular : bool)
    (vocab_ok : result unit) : result unit :=
  let modeling_unit := Json.String model_config "modeling_unit" [] in
  if is_empty modeling_unit
  then Err "hotword-capable transducer is missing model.modeling_unit; reinstall or update the model"
  else if negb (bool_decide (modeling_unit ∈ ["cjkchar" : bytes; "bpe"; "bbpe"; "cjkchar+bpe"]))
  then Err ("unsupported sherpa-onnx hotword modeling_unit '" ++ modeling_unit ++ "'")
  else if bool_decide (modeling_unit ∈ ["bpe" : bytes; "bbpe"; "cjkchar+bpe"]) then
    if is_empty bpe_vocab || negb is_regular
    then Err ("modeling_unit '" ++ modeling_unit ++ "' requires model.bpe_vocab")
    else vocab_ok
  else Ok tt.

(** ** What the loader accepts *)

(** A word or phrase as users write it: trimmed and not empty, no white space before a
    colon; the score, when there is one, is a number; without one there is no colon. *)
Record written_entry (e : HotwordEntry) : Prop := {
  we_text : hw_text e <> [];
  we_trimmed : trimmed (hw_text e);
  we_line : ch_nl ∉ hw_text e;
  we_colon : spaced_colon (hw_text e) = false;
  we_score : if is_empty (hw_score e) then ":"%char ∉ hw_text e
             else IsValidScore (hw_score e) = true /\ trimmed (hw_score e) /\
                  (":"%char ∉ hw_score e) /\ (ch_nl ∉ hw_score e);
}.

Definition entry_line (e : HotwordEntry) : bytes :=
  hw_text e ++ (if is_empty (hw_score e) then [] else ":" ++ hw_score e).
Definition hotword_text (es : list HotwordEntry) : bytes := concat ((fun e => entry_line e ++ [ch_nl]) <$> es).

Lemma spaced_colon_snoc t s :
  spaced_colon t = false -> ends_in_space t = false -> ":"%char ∉ s ->
  spaced_colon (t ++ ":"%char :: s) = false.
Proof.
  intros Ht He Hs.
  assert (forall a s, ":"%char ∉ s -> spaced_colon (a :: s) = false) as Hno.
  { clear. intros a s. revert a. induction s as [|b s IH]; intros a Hs; [done|]. cbn [spaced_colon].
    apply not_elem_of_cons in Hs as [Hb Hs]. rewrite bool_decide_eq_false_2 by congruence. cbn [andb orb]. by apply IH. }
  induction t as [|a t IH]; [by apply Hno|]. destruct t as [|b t].
  - unfold ends_in_space in He. simpl in He. cbn [app].
    change (spaced_colon (a :: ":"%char :: s)) with (((":"%char =b ":"%char) && IsHotwordWhitespace a) || spaced_colon (":"%char :: s)).
    by rewrite He, andb_false_r, Hno.
  - cbn [spaced_colon app] in Ht |- *. apply orb_false_iff in Ht as [-> Ht]. cbn [orb]. by apply IH.
Qed.

Lemma trimmed_ends_in_space t : trimmed t -> ends_in_space t = false.
Proof.
  intros [_ Hl]. unfold ends_in_space. destruct (last t) as [c|]; [|done]. specialize (Hl c eq_refl).
  destruct (IsHotwordWhitespace c) eqn:E; [|done]. exfalso. unfold IsHotwordWhitespace in E.
  rewrite !orb_true_iff, !bool_decide_eq_true in E. destruct E as [[[-> | ->]| ->]| ->]; done.
Qed.

Lemma trimmed_app t c s : t <> [] -> s <> [] -> trimmed t -> trimmed s -> trimmed (t ++ c :: s).
Proof.
  intros Ht Hs [Hh _] [_ Hl]. destruct t as [|a t]; [done|]. split; intros x.
  - intros [= <-]. by apply Hh.
  - destruct s as [|b s _] using rev_ind; [done|]. rewrite app_comm_cons, app_assoc, last_snoc. rewrite last_snoc in Hl. auto.
Qed.

Lemma ParseHotwordEntry_written e :
  written_entry e -> ParseHotwordEntry (entry_line e) = Ok e.
Proof.
  intros [Hne Ht Hnl Hc Hs]. destruct e as [t s]. unfold entry_line, ParseHotwordEntry in *. cbn [hw_text hw_score] in *.
  destruct (is_empty s) eqn:Es.
  - rewrite app_nil_r, (Trim_trimmed _ Ht), (proj2 (is_empty_false t)), Hc by done.
    rewrite RSplitOnce_absent by done. destruct s; done.
  - destruct Hs as (Hv & Hts & Hsc & _). apply is_empty_false in Es. cbn [app].
    rewrite (Trim_trimmed _ (trimmed_app _ _ _ Hne Es Ht Hts)), (proj2 (is_empty_false _)) by (by destruct t).
    rewrite spaced_colon_snoc, RSplitOnce_app by auto using trimmed_ends_in_space.
    rewrite (Trim_trimmed s), (Trim_trimmed t), Hv, trimmed_ends_in_space by done.
    rewrite bool_decide_eq_true_2 by done. cbn [orb negb]. by rewrite (proj2 (is_empty_false t)).
Qed.

Lemma entry_line_facts e : written_entry e -> (ch_nl ∉ entry_line e) /\ strip_cr (entry_line e) = entry_line e.
Proof.
  intros [Hne Ht Hnl Hc Hs]. unfold entry_line. destruct (is_empty (hw_score e)) eqn:Es.
  - rewrite app_nil_r. auto using strip_cr_trimmed.
  - destruct Hs as (_ & Hts & _ & Hsn). apply is_empty_false in Es. cbn [app]. split.
    + rewrite not_elem_of_app, not_elem_of_cons. done.
    + apply strip_cr_trimmed, trimmed_app; done.
Qed.

Lemma parse_entries_written es : Forall written_entry es -> parse_entries (entry_line <$> es) = Ok es.
Proof.
  induction 1 as [|e es He _ IH]; [done|]. rewrite fmap_cons. cbn [parse_entries].
  rewrite ParseHotwordEntry_written by done. cbn [result_bind]. rewrite IH. cbn [result_bind].
  by rewrite (proj2 (is_empty_false _) (we_text _ He)).
Qed.

Lemma ParseHotwordEntry_sound line e :
  ParseHotwordEntry line = Ok e ->
  e = no_entry \/
  (hw_text e <> [] /\ trimmed (hw_text e) /\ (hw_score e = [] \/ IsValidScore (hw_score e) = true)).
Proof.
  unfold ParseHotwordEntry. destruct (is_empty (Trim line)) eqn:E; [intros [= <-]; by left|].
  apply is_empty_false in E. destruct (spaced_colon _); [done|].
  destruct (RSplitOnce _ _) as [[t s]|]; [|intros [= <-]; right; cbn; auto using trimmed_Trim].
  destruct (IsValidScore _) eqn:Ev; destruct (_ || _); try done; [|intros [= <-]; right; cbn; auto using trimmed_Trim].
  destruct (is_empty (Trim t)) eqn:Et; [done|]. apply is_empty_false in Et.
  intros [= <-]. right. cbn. auto using trimmed_Trim.
Qed.

(** Every entry that is loaded, from any file, has a text without surrounding white space
    and a score that is empty or a finite number. *)
Lemma LoadHotwordEntries_sound path file es :
  LoadHotwordEntries path file = Some (Ok es) ->
  Forall (fun e => hw_text e <> [] /\ trimmed (hw_text e) /\
                   (hw_score e = [] \/ IsValidScore (hw_score e) = true)) es.
Proof.
  unfold LoadHotwordEntries. destruct (ReadHotwordFile _ _) as [[content|]|]; cbn [mbind option_bind result_bind]; try done. intros H%(inj Some).
  revert es H. generalize (SplitLines content). intros lines. induction lines as [|line lines IH]; intros es; cbn [parse_entries]; [by intros [= <-]|].
  destruct (ParseHotwordEntry line) as [e|] eqn:Ep; [|done]. cbn [result_bind].
  destruct (parse_entries lines) as [es'|]; [|done]. cbn [result_bind].
  intros [= <-]. specialize (IH _ eq_refl). destruct (is_empty (hw_text e)) eqn:Ee; [done|]. constructor; [|done].
  destruct (ParseHotwordEntry_sound _ _ Ep) as [-> |]; done.
Qed.

Lemma validate_text_all fuel text offset :
  (forall t, t <> [] -> t `suffix_of` text -> exists n cp, decode t = Some (n, cp) /\ (0 < n)%nat /\
     cp <> 0%N /\ ((cp = 9 \/ cp = 10 \/ cp = 13)%N \/ (is_control cp = false /\ (32 <= cp)%N))) ->
  (length text - offset <= fuel)%nat -> validate_text fuel text offset = Some (Ok tt, 0).
Proof.
  intros Hd. revert offset. induction fuel as [|fuel IH]; intros offset Hf; cbn [validate_text];
    destruct (is_empty (drop offset text)) eqn:E; try done; apply is_empty_false in E.
  - destruct E. apply drop_ge. lia.
  - destruct (Hd (drop offset text)) as (n & cp & -> & Hn & Hz & Hc); [done| |].
    { exists (take offset text). by rewrite take_drop. }
    apply N.eqb_neq in Hz. rewrite Hz.
    assert (negb ((cp =? 9)%N || (cp =? 10)%N || (cp =? 13)%N) && (is_control cp || (cp <? 32)%N) = false) as ->.
    { destruct Hc as [[-> |[-> | ->]]|[-> Hc]]; [done..|]. cbn [orb]. apply andb_false_iff. right. by apply N.ltb_ge. }
    apply IH. assert (drop offset text <> []) by done. destruct (decide (length text <= offset)) as [Hge|].
    + by rewrite drop_ge in E by done.
    + lia.
Qed.

(** Hotwords: the file written from any list of entries, one line each with the score
    after a colon, is accepted and loads as exactly these entries, in order, provided the
    file is within the limit and its text is clean UTF-8; the recogniser then gets one
    line per entry with the score as a separate token. *)
Theorem hotwords_roundtrip path es :
  path <> [] -> Forall written_entry es -> (size (hotword_text es) <= kMaxHotwordFileBytes)%N ->
  (forall t, t <> [] -> t `suffix_of` hotword_text es -> exists n cp, decode t = Some (n, cp) /\ (0 < n)%nat /\
     cp <> 0%N /\ ((cp = 9 \/ cp = 10 \/ cp = 13)%N \/ (is_control cp = false /\ (32 <= cp)%N))) ->
  let file := {| hf_regular := true; hf_size := Ok (size (hotword_text es)); hf_text := Some (hotword_text es) |} in
  LoadHotwordEntries path file = Some (Ok es) /\
  LoadTransducerHotwords path file = Some (Ok (concat (transducer_line <$> es))) /\
  LoadPromptHotwordsCsv path file = Some (Ok (Join (hw_text <$> es) ",")).
Proof.
  intros Hp Hes Hsz Hd file.
  assert (LoadHotwordEntries path file = Some (Ok es)) as HL.
  { unfold LoadHotwordEntries, ReadHotwordFile. rewrite (proj2 (is_empty_false _) Hp). cbn [negb hf_regular hf_size hf_text file].
    rewrite (proj2 (N.ltb_ge _ _) Hsz). rewrite take_ge by (unfold size in Hsz; lia).
    rewrite (proj2 (N.ltb_ge _ _) Hsz). unfold ValidateHotwordText. rewrite validate_text_all by (done || lia).
    cbn [mbind option_bind result_bind]. unfold hotword_text. rewrite SplitLines_lines; [by rewrite parse_entries_written|].
    eapply Forall_impl; [exact Hes|]. intros e He. by apply entry_line_facts. }
  unfold LoadTransducerHotwords, LoadPromptHotwordsCsv. by rewrite HL.
Qed.
End hotwords.

(** Two phrases, one with a score; the decoder of the plain ASCII range. *)
Definition ascii_decode (t : bytes) : option (nat * N) :=
  match t with c :: _ => Some (1, N_of_ascii c) | [] => None end.
Definition digits_float (hex : bool) (t : bytes) : option flt :=
  if t =b "3.5" then Some (f32_lit 35 10) else None.
Definition demo_entries : list HotwordEntry :=
  [{| hw_text := "wake up"; hw_score := [] |}; {| hw_text := "Rocq"; hw_score := "3.5" |}].

Lemma hotwords_roundtrip_witness :
  exists file, LoadTransducerHotwords digits_float ascii_decode (fun _ => false) "words.txt" file
               = Some (Ok ("wake up" ++ [ch_nl] ++ "Rocq :3.5" ++ [ch_nl])).
Proof.
  eexists. apply (hotwords_roundtrip digits_float ascii_decode (fun _ => false) "words.txt" demo_entries).
  - discriminate.
  - repeat constructor; try discriminate; try (intros ? [= <-]; reflexivity); try reflexivity;
      apply (bool_decide_unpack _); vm_compute; exact I.
  - vm_compute. discriminate.
  - intros t Ht [pre Hpre]. destruct t as [|c t]; [done|]. exists 1, (N_of_ascii c).
    assert (Forall (fun c => N_of_ascii c <> 0%N /\ ((N_of_ascii c = 9 \/ N_of_ascii c = 10 \/ N_of_ascii c = 13)%N \/
      (false = false /\ (32 <= N_of_ascii c)%N))) (hotword_text demo_entries)) as Hall.
    { apply (bool_decide_unpack _). vm_compute. exact I. }
    rewrite Hpre in Hall. apply Forall_app in Hall as [_ [Hc _]%Forall_cons]. split; [reflexivity|]. split; [lia|exact Hc].
Defined.
