(* ===== verification/LocalBackends.v ===== *)
(** * The local backends (src/src/daemon/asr/backends/sherpa_offline_backend.cpp,
    sherpa_streaming_backend.cpp, local_asr_model_loader.cpp, sherpa_json_helpers.h,
    asr_config.h)

    The speech library is a parameter: it creates a recogniser for a configuration, and a
    recogniser decodes audio. The configuration handed to it is the map of the fields that
    are set; a field that is not in the map is zero or null. Both sessions are instances of
    the recognition contract, so what is proved of sessions elsewhere holds of them. The
    statistics a streaming session keeps for its log are left out, and recordings have
    fewer than 2^31 samples. *)

From S2P Require Import Prelude StringUtils Floats Json CoreConfig RecognitionContract CommandBatch.
From S2P Require Import FileSystem ModelManager Vad Hotwords.
From Stdlib Require Import Ascii SpecFloat.

(** ** sherpa_json_helpers.h *)

Definition SafeStoi (s : bytes) (default_val : Z) : Z := default default_val (stoi s).

Definition JsonString (obj : json) (key default_val : bytes) : bytes := Json.String obj key default_val.

(** A number that an [int] holds exactly. *)
Definition int_rejects (d : flt) : bool :=
  negb (is_finite d) || has_fraction d || SFltb d (f64_of_Z (it_min int32)) || SFltb (f64_of_Z (it_max int32)) d.
Definition JsonInt (obj : json) (key : bytes) (default_val : Z) : Z :=
  match Find obj key with
  | Some (JNumber d) => if int_rejects d then default_val else default 0%Z (trunc d)
  | Some (JBool flag) => if flag then 1%Z else 0%Z
  | Some (JString text) => SafeStoi text default_val
  | _ => default_val
  end.
Definition JsonBool (obj : json) (key : bytes) (default_val : bool) : bool :=
  match Find obj key with
  | Some (JBool flag) => flag
  | Some (JNumber d) => negb (SFeqb d (f64_of_Z 0))
  | Some (JString text) => (text =b "true") || (text =b "1")
  | _ => default_val
  end.

Section json_float.
(** [std::stof]; [None] when it throws. *)
Context (stof : bytes -> option flt).
Definition SafeStof (s : bytes) (default_val : flt) : flt := default default_val (stof s).
Definition JsonFloat (obj : json) (key : bytes) (default_val : flt) : flt :=
  match Find obj key with
  | Some (JNumber d) => f32_of_f64 d
  | Some (JString text) => SafeStof text default_val
  | _ => default_val
  end.
End json_float.

(** ** asr_config.h, local_asr_model_loader.cpp *)

Record AsrConfig := {
  ac_language : bytes; ac_hotwords_file : bytes; thread_num : Z; ac_vad_enabled : bool; vad_model_path : bytes;
  ac_vad_threshold : flt; vad_min_speech_duration : flt; vad_min_silence_duration : flt; vad_speech_pad_ms : Z;
}.
#[export] Instance AsrConfig_fields : Fields AsrConfig := fun c =>
  Build_AsrConfig (ac_language c) (ac_hotwords_file c) (thread_num c) (ac_vad_enabled c) (vad_model_path c)
    (ac_vad_threshold c) (vad_min_speech_duration c) (vad_min_silence_duration c) (vad_speech_pad_ms c).
Definition default_asr_config : AsrConfig :=
  {| ac_language := []; ac_hotwords_file := []; thread_num := 4; ac_vad_enabled := true; vad_model_path := [];
     ac_vad_threshold := f32_lit 35 100; vad_min_speech_duration := f32_lit 10 100;
     vad_min_silence_duration := f32_lit 12 10; vad_speech_pad_ms := 500 |}.

Record LocalAsrModelContext := { lc_info : ModelInfo; lc_config : AsrConfig }.

(** [ensured] and [read]: the answers of the model manager for the provider's model. *)
Definition LoadLocalAsrModelContext (id model hotwordsFile : bytes) (ensured : result unit) (read : result ModelInfo)
  : result LocalAsrModelContext :=
  if is_empty model then Err ("Local ASR model configuration is missing for provider '" ++ id ++ "'.")
  else
    match ensured with
    | Err e => Err ("Local ASR model check failed for provider '" ++ id ++ "'." ++ [ch_nl] ++ e)
    | Ok _ =>
        match read with
        | Err e => Err ("Failed to read local ASR model metadata for provider '" ++ id ++ "': " ++ e)
        | Ok info =>
            Ok {| lc_info := info;
                  lc_config := default_asr_config <| ac_language := RuntimeLanguageHint info |> <| ac_hotwords_file := hotwordsFile |> |}
        end
    end.

(** [CreateSherpaOfflineBackend] and [CreateSherpaStreamingBackend]: the voice activity
    detection of each. *)
Definition offline_config (model_path : bytes) (vad : CoreConfig.Vad) (c : AsrConfig) : AsrConfig :=
  c <| ac_vad_enabled := vad_enabled vad |> <| vad_model_path := model_path |> <| ac_vad_threshold := f32_of_f64 (vad_threshold vad) |>
    <| vad_min_speech_duration := f32_of_f64 (minSpeechDuration vad) |>
    <| vad_min_silence_duration := f32_of_f64 (minSilenceDuration vad) |> <| vad_speech_pad_ms := speechPadMs vad |>.
Definition streaming_config (c : AsrConfig) : AsrConfig := c <| ac_vad_enabled := false |> <| vad_model_path := [] |>.

(** ** The recogniser's configuration *)

Inductive Field := FText (s : bytes) | FInt (z : Z) | FFloat (x : flt).
Abbreviation SherpaConfig := (gmap bytes Field).
Definition assign (fields : list (bytes * Field)) (c : SherpaConfig) : SherpaConfig := foldl (fun c kv => <[kv.1 := kv.2]> c) c fields.
(** A pointer field is set to [s.c_str()]; [when_text]: only if the text is not empty. *)
Definition text (key s : bytes) : list (bytes * Field) := [(key, FText (c_str s))].
Definition when_text (key s : bytes) : list (bytes * Field) := if is_empty s then [] else text key s.
Definition int (key : bytes) (z : Z) : list (bytes * Field) := [(key, FInt z)].
Definition flag (key : bytes) (b : bool) : list (bytes * Field) := int key (if b then 1 else 0).
Definition float (key : bytes) (x : flt) : list (bytes * Field) := [(key, FFloat x)].
Definition kModelType : bytes := "model_config.model_type".
(** [if (config.model_config.model_type == nullptr)] *)
Definition or_model_type (family : bytes) (c : SherpaConfig) : SherpaConfig :=
  match c !! kModelType with Some _ => c | None => assign (text kModelType family) c end.

(** The answers of the file system about a hotword file and the model's vocabulary. *)
Record HotwordAssets := { hotword_file : bytes -> HotwordFile; bpe_regular : bool; vocabulary_ok : result unit }.

Section creation.
Context (stof : bytes -> option flt) (from_chars_float : bool -> bytes -> option flt)
        (decode : bytes -> option (nat * N)) (is_control : N -> bool).

Definition load_transducer (a : HotwordAssets) (path : bytes) : option (result bytes) :=
  LoadTransducerHotwords from_chars_float decode is_control path (hotword_file a path).
Definition validate_assets (a : HotwordAssets) (info : ModelInfo) : result unit :=
  ValidateTransducerHotwordAssets (model_config info) (info_File info "bpe_vocab") (bpe_regular a) (vocabulary_ok a).

(** The families whose only file is the model itself. *)
Definition single_model_families : list bytes :=
  ["paraformer"; "zipformer_ctc"; "fire_red_asr_ctc"; "dolphin"; "nemo_ctc"; "wenet_ctc"; "tdnn"; "omnilingual"; "medasr"].

(** What a family's handler sets besides the model type; [hot]: the words of the provider's
    own file for a family that takes them as a prompt. *)
Definition family_fields (info : ModelInfo) (c : AsrConfig) (hot : option bytes) : option (list (bytes * Field)) :=
  let family := mi_family info in
  let cfg := Object (model_config info) family in
  let key name := "model_config." ++ family ++ "." ++ name in
  let file name := text (key name) (info_File info name) in
  let hotwords := when_text (key "hotwords") (default (JsonString cfg "hotwords" []) hot) in
  if bool_decide (family ∈ single_model_families) then Some (file "model")
  else if family =b "sense_voice" then
    Some (file "model" ++ text (key "language") (JsonString cfg "language" (ac_language c)) ++ flag (key "use_itn") (JsonBool cfg "use_itn" false))
  else if family =b "whisper" then
    Some (file "encoder" ++ file "decoder" ++ text (key "language") (JsonString cfg "language" (ac_language c)) ++
          text (key "task") (JsonString cfg "task" "transcribe") ++ int (key "tail_paddings") (JsonInt cfg "tail_paddings" (-1)) ++
          flag (key "enable_token_timestamps") (JsonBool cfg "enable_token_timestamps" false) ++
          flag (key "enable_segment_timestamps") (JsonBool cfg "enable_segment_timestamps" false))
  else if family =b "moonshine" then
    Some (file "preprocessor" ++ file "encoder" ++ file "uncached_decoder" ++ file "cached_decoder" ++
          when_text (key "merged_decoder") (info_File info "merged_decoder"))
  else if (family =b "transducer") || (family =b "nemo_transducer") then
    Some (text "model_config.transducer.encoder" (info_File info "encoder") ++ text "model_config.transducer.decoder" (info_File info "decoder") ++
          text "model_config.transducer.joiner" (info_File info "joiner"))
  else if family =b "fire_red_asr" then Some (file "encoder" ++ file "decoder")
  else if family =b "canary" then
    Some (file "encoder" ++ file "decoder" ++ text (key "src_lang") (JsonString cfg "src_lang" (ac_language c)) ++
          text (key "tgt_lang") (JsonString cfg "tgt_lang" (ac_language c)) ++ flag (key "use_pnc") (JsonBool cfg "use_pnc" false))
  else if family =b "funasr_nano" then
    Some (text (key "encoder_adaptor") (info_File info "encoder_adapter") ++ file "llm" ++ file "embedding" ++ file "tokenizer" ++
          text (key "language") (JsonString cfg "language" (ac_language c)) ++ flag (key "itn") (JsonBool cfg "itn" false) ++
          when_text (key "system_prompt") (JsonString cfg "system_prompt" []) ++ when_text (key "user_prompt") (JsonString cfg "user_prompt" []) ++
          hotwords ++ int (key "max_new_tokens") (JsonInt cfg "max_new_tokens" 1024) ++
          float (key "temperature") (JsonFloat stof cfg "temperature" (f32_of_Z 1)) ++
          float (key "top_p") (JsonFloat stof cfg "top_p" (f32_lit 9 10)) ++ int (key "seed") (JsonInt cfg "seed" 0))
  else if family =b "qwen3_asr" then
    Some (file "conv_frontend" ++ file "encoder" ++ file "decoder" ++ file "tokenizer" ++
          int (key "max_total_len") (JsonInt cfg "max_total_len" 4096) ++ int (key "max_new_tokens") (JsonInt cfg "max_new_tokens" 1024) ++
          float (key "temperature") (JsonFloat stof cfg "temperature" (f32_of_Z 1)) ++
          float (key "top_p") (JsonFloat stof cfg "top_p" (f32_lit 9 10)) ++ int (key "seed") (JsonInt cfg "seed" 0) ++ hotwords)
  else if family =b "telespeech_ctc" then Some (text "model_config.telespeech_ctc" (info_File info "telespeech_ctc"))
  else None.

(** The provider's words for a prompt family, when a file is configured. *)
Definition prompt_hotwords (info : ModelInfo) (c : AsrConfig) (a : HotwordAssets) : option (result (option bytes)) :=
  if negb (mi_supports_hotwords info && negb (is_empty (ac_hotwords_file c))) then Some (Ok None)
  else if IsPromptHotwordFamily (mi_family info) then
    r ← LoadPromptHotwordsCsv from_chars_float decode is_control (ac_hotwords_file c) (hotword_file a (ac_hotwords_file c));
    Some (let! csv := r in Ok (Some csv))
  else if negb (IsTransducerHotwordFamily (mi_family info))
  then Some (Err ("model family '" ++ mi_family info ++ "' does not expose an ASR hotword input in sherpa-onnx"))
  else Some (Ok None).
(** The normalised words for a transducer; empty when there are none. *)
Definition transducer_hotwords (info : ModelInfo) (c : AsrConfig) (a : HotwordAssets) : option (result bytes) :=
  if negb (mi_supports_hotwords info && IsTransducerHotwordFamily (mi_family info)) then Some (Ok [])
  else
    let selected := if is_empty (ac_hotwords_file c) then info_File info "hotwords_file" else ac_hotwords_file c in
    if is_empty selected then Some (Ok [])
    else
      r ← load_transducer a selected;
      Some (let! words := r in if is_empty words then Ok words else let! _ := validate_assets a info in Ok words).

(** The fields every family shares. *)
Definition offline_fields (info : ModelInfo) (c : AsrConfig) (words : bytes) : list (bytes * Field) :=
  let r := recognizer_config info in
  let m := model_config info in
  let feat := Object r "feat_config" in
  int "feat_config.sample_rate" (JsonInt feat "sample_rate" 16000) ++ int "feat_config.feature_dim" (JsonInt feat "feature_dim" 80) ++
  text "decoding_method" (JsonString r "decoding_method" "greedy_search") ++ int "max_active_paths" (JsonInt r "max_active_paths" 4) ++
  float "hotwords_score" (JsonFloat stof r "hotwords_score" (f32_lit 15 10)) ++ float "blank_penalty" (JsonFloat stof r "blank_penalty" (f32_of_Z 0)) ++
  (if is_empty words then [] else text "decoding_method" "modified_beam_search") ++
  when_text "model_config.tokens" (info_File info "tokens") ++
  int "model_config.num_threads" (JsonInt m "num_threads" (thread_num c)) ++ text "model_config.provider" (JsonString m "provider" "cpu") ++
  when_text kModelType (JsonString m "model_type" []) ++ when_text "model_config.bpe_vocab" (info_File info "bpe_vocab") ++
  when_text "model_config.modeling_unit" (JsonString m "modeling_unit" "cjkchar") ++
  (if is_empty (info_File info "lm") then []
   else text "lm_config.model" (info_File info "lm") ++ float "lm_config.scale" (JsonFloat stof (Object r "lm_config") "scale" (f32_lit 5 10))) ++
  when_text "rule_fsts" (info_File info "rule_fsts") ++ when_text "rule_fars" (info_File info "rule_fars").

(** The configuration before the hotwords file, and the words that go into it. [None]: the
    decoding of a hotword file makes no progress. *)
Definition offline_recognizer_config (info : ModelInfo) (c : AsrConfig) (a : HotwordAssets) : option (result (SherpaConfig * bytes)) :=
  hot ← prompt_hotwords info c a;
  match hot with
  | Err e => Some (Err e)
  | Ok hot =>
      words ← transducer_hotwords info c a;
      Some (let! words := words in
            match family_fields info c hot with
            | None => Err ("unsupported model family '" ++ mi_family info ++ "'")
            | Some fields => Ok (or_model_type (mi_family info) (assign (offline_fields info c words ++ fields) ∅), words)
            end)
  end.
End creation.

(** ** Creating an offline recogniser *)

(** The temporary directory, the clock, the atomic write, the removal of a file, and the
    library's constructor, which returns a handle or null. *)
Class OfflineLibrary (W R : Type) := {
  temp_directory_path : W -> result bytes;
  steady_count : W -> Z;
  write_text : bytes -> bytes -> W -> result unit * W;
  remove_temp : bytes -> W -> W;
  create_offline : SherpaConfig -> W -> option R * W;
}.

Section offline_creation.
Context {W R : Type} `{OfflineLibrary W R}.
Context (stof : bytes -> option flt) (from_chars_float : bool -> bytes -> option flt)
        (decode : bytes -> option (nat * N)) (is_control : N -> bool).

Definition WriteTemporaryHotwordFile (content : bytes) (w : W) : result bytes * W :=
  match temp_directory_path w with
  | Err e => (Err ("failed to locate temporary directory: " ++ e), w)
  | Ok dir =>
      let file := dir ++ "/vinput-hotwords-" ++ to_string (steady_count w) ++ ".txt" in
      let '(r, w) := write_text file content w in
      (let! _ := r in Ok file, w)
  end.

(** The library reads the words from a file that exists while it is created. *)
Definition create_with_hotwords (config : SherpaConfig) (words : bytes) (w : W) : result (option R) * W :=
  if is_empty words then let '(r, w) := create_offline config w in (Ok r, w)
  else
    match WriteTemporaryHotwordFile words w with
    | (Err e, w) => (Err e, w)
    | (Ok file, w) =>
        let '(r, w) := create_offline (assign (text "hotwords_file" file) config) w in
        (Ok r, if is_empty file then w else remove_temp file w)
    end.

Definition CreateOfflineRecognizer (info : ModelInfo) (c : AsrConfig) (a : HotwordAssets) (w : W) : option (result R * W) :=
  r ← offline_recognizer_config stof from_chars_float decode is_control info c a;
  Some match r with
       | Err e => (Err e, w)
       | Ok (config, words) =>
           match create_with_hotwords config words w with
           | (Err e, w) => (Err e, w)
           | (Ok (Some recognizer), w) => (Ok recognizer, w)
           | (Ok None, w) => (Err ("failed to create sherpa-onnx recognizer for family '" ++ mi_family info ++ "'"), w)
           end
       end.

(** The backend: [InitializeLocked] creates the recogniser once, and with it the voice
    activity detection, whose failure is only reported. *)
Record SherpaOfflineBackend := { ob_info : ModelInfo; ob_config : AsrConfig; ob_provider : bytes; ob_recognizer : option R; ob_vad : VadTrimmer }.
#[local] Instance SherpaOfflineBackend_fields : Fields SherpaOfflineBackend := fun b =>
  Build_SherpaOfflineBackend (ob_info b) (ob_config b) (ob_provider b) (ob_recognizer b) (ob_vad b).
Definition CreateSherpaOfflineBackend (model_path : bytes) (vad : CoreConfig.Vad) (id : bytes) (ctx : LocalAsrModelContext) : SherpaOfflineBackend :=
  {| ob_info := lc_info ctx; ob_config := offline_config model_path vad (lc_config ctx); ob_provider := id; ob_recognizer := None; ob_vad := new_trimmer |}.

Definition vad_params (c : AsrConfig) : VadTrimParams :=
  {| vp_threshold := ac_vad_threshold c; vp_min_speech_duration := vad_min_speech_duration c;
     vp_min_silence_duration := vad_min_silence_duration c; max_speech_duration := max_speech_duration default_vad_params;
     vp_speech_pad_ms := vad_speech_pad_ms c |}.
(** [create_vad]: the detector the library makes, for the provider and the parameters. *)
Definition InitializeLocked (create_vad : bytes -> VadTrimParams -> option bool) (a : HotwordAssets) (b : SherpaOfflineBackend) (w : W)
  : option (result unit * (SherpaOfflineBackend * W)) :=
  match ob_recognizer b with
  | Some _ => Some (Ok tt, (b, w))
  | None =>
      '(r, w) ← CreateOfflineRecognizer (ob_info b) (ob_config b) a w;
      Some match r with
           | Err e => (Err e, (b, w))
           | Ok recognizer =>
               let b := b <| ob_recognizer := Some recognizer |> in
               let c := ob_config b in
               (Ok tt,
                (if ac_vad_enabled c && negb (is_empty (vad_model_path c))
                 then b <| ob_vad := (Init (create_vad (JsonString (model_config (ob_info b)) "provider" "cpu")) (ob_vad b) (vad_model_path c) 16000 (vad_params c)).2 |>
                 else b, w))
           end
  end.
End offline_creation.
#[global] Arguments SherpaOfflineBackend : clear implicits.
#[export] Instance SherpaOfflineBackend_fields' R : Fields (SherpaOfflineBackend R) := fun b =>
  Build_SherpaOfflineBackend (ob_info b) (ob_config b) (ob_provider b) (ob_recognizer b) (ob_vad b).

(** ** The offline session *)

(** What decoding a recording gives: no stream, a text, or an exception. *)
Inductive Decoding := NoStream | Decoded (t : bytes) | Threw (what : bytes).
Definition kMinSamplesForInference : nat := 8000.

Definition float_of_pcm (sample : Z) : flt := SFdiv f32_prec f32_emax (f32_of_Z sample) (f32_of_Z 32768).

Definition is_ascii_alnum (c : ascii) : bool :=
  let n := N_of_ascii c in ((97 <=? n) && (n <=? 122) || ((65 <=? n) && (n <=? 90)) || ((48 <=? n) && (n <=? 57)))%N.
(** The texts of two segments are joined with a blank between two words. *)
Definition append_text (text seg_text : bytes) : bytes :=
  if is_empty seg_text then text
  else
    match last text, head seg_text with
    | Some l, Some r => if is_ascii_alnum l && is_ascii_alnum r then text ++ " " ++ seg_text else text ++ seg_text
    | _, _ => text ++ seg_text
    end.

Record SherpaOfflineSession (R : Type) := {
  os_recognizer : option R; os_vad_available : bool; os_vad : option VadTrimmer;
  os_finished : bool; os_samples : list flt; os_events : list RecognitionEvent;
  os_undefined : bool;           (* voice activity detection had undefined behaviour *)
}.
Arguments os_recognizer {R}. Arguments os_vad_available {R}. Arguments os_vad {R}. Arguments os_finished {R}.
Arguments os_samples {R}. Arguments os_events {R}. Arguments os_undefined {R}.
#[export] Instance SherpaOfflineSession_fields R : Fields (SherpaOfflineSession R) := fun s =>
  Build_SherpaOfflineSession R (os_recognizer s) (os_vad_available s) (os_vad s) (os_finished s) (os_samples s) (os_events s) (os_undefined s).
Definition new_offline {R} (recognizer : option R) (available : bool) (vad : option VadTrimmer) : SherpaOfflineSession R :=
  Build_SherpaOfflineSession R recognizer available vad false [] [] false.

Section offline_session.
Context {R : Type} (decode_offline : R -> list flt -> Decoding) (detect : list samples_t -> list (Z * nat)).
(** [FormatOfflineAsrError] prints the duration with one decimal. *)
Context (print_seconds : flt -> bytes).
Implicit Types (s : SherpaOfflineSession R).

Definition FormatOfflineAsrError (raw_error : bytes) (duration_sec : flt) : bytes :=
  let is_reshape_error := bool_decide (is_Some (find_sub raw_error "Reshape")) || bool_decide (is_Some (find_sub raw_error "cannot be reshaped")) in
  if is_reshape_error && SFltb (f64_of_Z 20) duration_sec
  then "Recognition failed: audio is about " ++ print_seconds duration_sec ++
       " seconds long, which exceeds what this offline model can reliably process. Please record in shorter segments or switch to a streaming model."
  else raw_error.

(** [sum]: the text, or the exception that ended it. *)
Definition InferOffline (recognizer : option R) (samples : list flt) : result bytes :=
  match recognizer with
  | None => Ok []
  | Some r => match decode_offline r samples with NoStream => Ok [] | Decoded t => Ok t | Threw what => Err what end
  end.
Fixpoint infer_segments (recognizer : option R) (segments : list samples_t) (text : bytes) : result bytes :=
  match segments with
  | [] => Ok text
  | segment :: segments =>
      if is_empty segment then infer_segments recognizer segments text
      else let! seg_text := InferOffline recognizer segment in infer_segments recognizer segments (append_text text seg_text)
  end.

Definition offline_PushAudio (pcm : list Z) s : result unit * SherpaOfflineSession R :=
  if os_finished s then (Err "Recognition session already finished.", s)
  else (Ok tt, s <| os_samples := os_samples s ++ (float_of_pcm <$> pcm) |>).

Definition emit_offline (events : list RecognitionEvent) s : SherpaOfflineSession R := s <| os_events := os_events s ++ events |>.
Definition conclude (text : result bytes) s : result unit * SherpaOfflineSession R :=
  match text with
  | Err what =>
      let friendly_err := FormatOfflineAsrError what (SFdiv f64_prec f64_emax (f64_of_Z (Z.of_nat (length (os_samples s)))) (f64_of_Z 16000)) in
      (Err friendly_err, emit_offline [error_event friendly_err; completed_event] s)
  | Ok text => (Ok tt, emit_offline ((if is_empty text then [] else [final_event text]) ++ [completed_event]) s)
  end.
Definition offline_Finish s : result unit * SherpaOfflineSession R :=
  if os_finished s then (Ok tt, s)
  else
    let s := s <| os_finished := true |> in
    if (length (os_samples s) <? kMinSamplesForInference)%nat then (Ok tt, emit_offline [completed_event] s)
    else
      match os_vad s with
      | Some vad =>
          if os_vad_available s && Available vad then
            match SegmentVad detect vad (os_samples s) 16000 with
            | None => (Ok tt, s <| os_undefined := true |>)
            | Some [] => (Ok tt, emit_offline [completed_event] s)
            | Some segments => conclude (infer_segments (os_recognizer s) segments []) s
            end
          else conclude (InferOffline (os_recognizer s) (os_samples s)) s
      | None => conclude (InferOffline (os_recognizer s) (os_samples s)) s
      end.
Definition offline_Cancel s : SherpaOfflineSession R := s <| os_finished := true |> <| os_samples := [] |> <| os_events := [completed_event] |>.
Definition offline_PollEvents s : list RecognitionEvent * SherpaOfflineSession R := (os_events s, s <| os_events := [] |>).

#[export] Instance offline_session : RecognitionSession (SherpaOfflineSession R) := {
  session_push := offline_PushAudio; session_finish := offline_Finish; session_cancel := offline_Cancel;
  session_interrupt s := s; session_poll := offline_PollEvents;
}.
End offline_session.

Definition offline_Describe {R} (b : SherpaOfflineBackend R) : BackendDescriptor :=
  {| bd_provider_id := ob_provider b; bd_provider_type := kLocalProviderType; bd_backend_id := "sherpa-offline";
     bd_capabilities := {| audio_delivery_mode := Buffered; supports_streaming := false; supports_partial_results := false;
                           requires_network := false; supports_hotwords := mi_supports_hotwords (ob_info b) |} |}.
Definition offline_CreateSession {W R} `{OfflineLibrary W R} stof from_chars_float decode is_control create_vad (a : HotwordAssets)
    (b : SherpaOfflineBackend R) (w : W) : option (result (SherpaOfflineSession R) * (SherpaOfflineBackend R * W)) :=
  '(r, (b, w)) ← InitializeLocked stof from_chars_float decode is_control create_vad a b w;
  Some match r with
       | Err e => (Err e, (b, w))
       | Ok _ => (Ok (new_offline (ob_recognizer b) (Available (ob_vad b)) (Some (ob_vad b))), (b, w))
       end.

(** ** The streaming recogniser *)

Definition kTailPaddingSamples : nat := 16000 * 66 / 100.
#[global] Arguments kTailPaddingSamples : simpl never.
Definition ChooseNumThreads (model_cfg : json) (runtime_default : Z) : Z :=
  if (0 <? runtime_default)%Z then runtime_default else JsonInt model_cfg "num_threads" 1.

(** The library: a recogniser of type [R] with streams of type [St]. [backlog] bounds how
    often a stream can be decoded before more audio is needed. *)
Class OnlineLibrary (R St : Type) := {
  CreateStream : R -> option St;
  AcceptWaveform : list flt -> St -> St;
  InputFinished : St -> St;
  IsReady : R -> St -> bool;
  Decode : R -> St -> St;
  GetText : R -> St -> bytes;
  backlog : R -> St -> nat;
}.
Class OnlineLibraryOk (R St : Type) `{OnlineLibrary R St} : Prop := {
  decode_consumes r st : IsReady r st = true -> (backlog r (Decode r st) < backlog r st)%nat;
}.

Record SherpaStreamingSession (R St : Type) := {
  ss_recognizer : option R; ss_stream : option St; ss_finished : bool; ss_total_samples : N; last_partial_text_ : bytes;
  ss_events : list RecognitionEvent;
  ss_fed : list flt;               (* everything handed to the stream *)
}.
Arguments ss_recognizer {R St}. Arguments ss_stream {R St}. Arguments ss_finished {R St}. Arguments ss_total_samples {R St}.
Arguments last_partial_text_ {R St}. Arguments ss_events {R St}. Arguments ss_fed {R St}.
#[export] Instance SherpaStreamingSession_fields R St : Fields (SherpaStreamingSession R St) := fun s =>
  Build_SherpaStreamingSession R St (ss_recognizer s) (ss_stream s) (ss_finished s) (ss_total_samples s) (last_partial_text_ s) (ss_events s) (ss_fed s).
Definition new_streaming {R St} (r : R) (st : St) : SherpaStreamingSession R St := Build_SherpaStreamingSession R St (Some r) (Some st) false 0 [] [] [].

Section streaming_session.
Context {R St : Type} `{OnlineLibrary R St}.
Implicit Types (s : SherpaStreamingSession R St).

Definition handles s : option (R * St) := match ss_stream s, ss_recognizer s with Some st, Some r => Some (r, st) | _, _ => None end.
Definition emit_streaming (e : RecognitionEvent) s : SherpaStreamingSession R St := s <| ss_events := ss_events s ++ [e] |>.
Definition GetCurrentText s : bytes := match handles s with None => [] | Some (r, st) => Trim (GetText r st) end.

(** One decoding and the partial text it shows. *)
Definition decode_once (r : R) (st : St) s : SherpaStreamingSession R St :=
  let s := s <| ss_stream := Some (Decode r st) |> in
  let text := GetCurrentText s in
  if negb (is_empty text) && negb (text =b last_partial_text_ s)
  then emit_streaming (partial_event text) (s <| last_partial_text_ := text |>)
  else s.
Fixpoint decode_loop (fuel : nat) s : SherpaStreamingSession R St :=
  match fuel, handles s with
  | S fuel, Some (r, st) => if IsReady r st then decode_loop fuel (decode_once r st s) else s
  | _, _ => s
  end.
Definition DecodeAvailable s : SherpaStreamingSession R St :=
  match handles s with None => s | Some (r, st) => decode_loop (S (backlog r st)) s end.

Definition feed (samples : list flt) (st : St) s : SherpaStreamingSession R St :=
  s <| ss_stream := Some (AcceptWaveform samples st) |> <| ss_fed := ss_fed s ++ samples |>.
Definition not_initialized : bytes := "Streaming recognizer is not initialized.".
Definition streaming_PushFloat (samples : list flt) s : result unit * SherpaStreamingSession R St :=
  if ss_finished s then (Err "Recognition session already finished.", s)
  else
    match handles s with
    | None => (Err not_initialized, s)
    | Some (_, st) =>
        if is_empty samples then (Ok tt, s)
        else (Ok tt, DecodeAvailable (feed samples st (s <| ss_total_samples := u64_add (ss_total_samples s) (N.of_nat (length samples)) |>)))
    end.
Definition streaming_PushAudio (pcm : list Z) s : result unit * SherpaStreamingSession R St := streaming_PushFloat (float_of_pcm <$> pcm) s.

(** The silence that lets the encoder see the end of the last word. *)
Definition pad_tail (st : St) s : SherpaStreamingSession R St :=
  if (0 <? ss_total_samples s)%N then feed (replicate kTailPaddingSamples (f32_of_Z 0)) st s else s.
Definition end_input s : SherpaStreamingSession R St :=
  match ss_stream s with None => s | Some st => s <| ss_stream := Some (InputFinished st) |> end.
Definition deliver_final s : SherpaStreamingSession R St :=
  let text := GetCurrentText s in
  if is_empty text then s
  else
    let s := if text =b last_partial_text_ s then s else emit_streaming (partial_event text) s <| last_partial_text_ := text |> in
    emit_streaming (final_event text) s.
Definition streaming_Finish s : result unit * SherpaStreamingSession R St :=
  if ss_finished s then (Ok tt, s)
  else
    match handles s with
    | None => (Err not_initialized, s)
    | Some (_, st) =>
        let s := DecodeAvailable (end_input (pad_tail st (s <| ss_finished := true |>))) in
        (Ok tt, emit_streaming completed_event (deliver_final s))
    end.
Definition streaming_Reset s : SherpaStreamingSession R St := s <| ss_stream := None |> <| ss_recognizer := None |>.
Definition streaming_Cancel s : SherpaStreamingSession R St := streaming_Reset (s <| ss_finished := true |> <| ss_events := [completed_event] |>).
Definition streaming_PollEvents s : list RecognitionEvent * SherpaStreamingSession R St := (ss_events s, s <| ss_events := [] |>).

#[export] Instance sherpa_streaming : RecognitionSession (SherpaStreamingSession R St) := {
  session_push := streaming_PushAudio; session_finish := streaming_Finish; session_cancel := streaming_Cancel;
  session_interrupt s := s; session_poll := streaming_PollEvents;
}.

(** [WarmupRecognizerLocked]: a fifth of a second of silence through a stream of its own. *)
Fixpoint decode_while (fuel : nat) (r : R) (st : St) : St :=
  match fuel with O => st | S fuel => if IsReady r st then decode_while fuel r (Decode r st) else st end.
Definition WarmupRecognizerLocked (r : R) : option St :=
  st ← CreateStream r;
  let st := AcceptWaveform (replicate 3200 (f32_of_Z 0)) st in
  let st := InputFinished (decode_while (S (backlog r st)) r st) in
  Some (decode_while (S (backlog r st)) r st).
End streaming_session.

Section streaming_creation.
Context {R St : Type} `{OnlineLibrary R St}.
Context (stof : bytes -> option flt) (from_chars_float : bool -> bytes -> option flt)
        (decode : bytes -> option (nat * N)) (is_control : N -> bool).
Context (create_online : SherpaConfig -> option R).

(** The words of the provider's or the model's file, else whether the model's own buffer is
    used. *)
Definition streaming_hotwords (info : ModelInfo) (c : AsrConfig) (a : HotwordAssets) : option (result (bytes * bool)) :=
  let family := mi_family info in
  if mi_supports_hotwords info && negb (is_empty (ac_hotwords_file c)) && negb (IsTransducerHotwordFamily family)
  then Some (Err ("model family '" ++ family ++ "' does not expose streaming ASR hotwords in sherpa-onnx"))
  else if negb (mi_supports_hotwords info && IsTransducerHotwordFamily family) then Some (Ok ([], false))
  else
    let selected := if is_empty (ac_hotwords_file c) then info_File info "hotwords_file" else ac_hotwords_file c in
    if negb (is_empty selected) then
      r ← load_transducer from_chars_float decode is_control a selected;
      Some (let! words := r in if is_empty words then Ok (words, false) else let! _ := validate_assets a info in Ok (words, false))
    else if negb (is_empty (JsonString (recognizer_config info) "hotwords_buf" []))
    then Some (let! _ := validate_assets a info in Ok ([], true))
    else Some (Ok ([], false)).

Definition buffer (key content : bytes) : list (bytes * Field) :=
  text key content ++ int (key ++ "_size") (to_i32 (Z.of_nat (length content))).
Definition hotword_fields (info : ModelInfo) (words : bytes) (use_buf : bool) : list (bytes * Field) :=
  if negb (is_empty words) then buffer "hotwords_buf" words ++ text "decoding_method" "modified_beam_search"
  else if use_buf then buffer "hotwords_buf" (JsonString (recognizer_config info) "hotwords_buf" []) ++ text "decoding_method" "modified_beam_search"
  else [].
Definition streaming_fields (info : ModelInfo) (c : AsrConfig) (words : bytes) (use_buf : bool) : list (bytes * Field) :=
  let r := recognizer_config info in
  let m := model_config info in
  let feat := Object r "feat_config" in
  let tokens_buf := JsonString m "tokens_buf" [] in
  int "feat_config.sample_rate" (JsonInt feat "sample_rate" 16000) ++ int "feat_config.feature_dim" (JsonInt feat "feature_dim" 80) ++
  text "model_config.tokens" (info_File info "tokens") ++ int "model_config.num_threads" (ChooseNumThreads m (thread_num c)) ++
  text "model_config.provider" (JsonString m "provider" "cpu") ++ text "decoding_method" (JsonString r "decoding_method" "greedy_search") ++
  int "max_active_paths" (JsonInt r "max_active_paths" 4) ++ float "blank_penalty" (JsonFloat stof r "blank_penalty" (f32_of_Z 0)) ++
  flag "enable_endpoint" (JsonBool r "enable_endpoint" true) ++
  float "rule1_min_trailing_silence" (JsonFloat stof r "rule1_min_trailing_silence" (f32_lit 24 10)) ++
  float "rule2_min_trailing_silence" (JsonFloat stof r "rule2_min_trailing_silence" (f32_lit 12 10)) ++
  float "rule3_min_utterance_length" (JsonFloat stof r "rule3_min_utterance_length" (f32_of_Z 20)) ++
  float "hotwords_score" (JsonFloat stof r "hotwords_score" (f32_lit 15 10)) ++
  when_text kModelType (JsonString m "model_type" []) ++ when_text "model_config.modeling_unit" (JsonString m "modeling_unit" []) ++
  when_text "model_config.bpe_vocab" (info_File info "bpe_vocab") ++
  (if is_empty tokens_buf then [] else buffer "model_config.tokens_buf" tokens_buf) ++
  when_text "rule_fsts" (info_File info "rule_fsts") ++ when_text "rule_fars" (info_File info "rule_fars") ++
  (if is_empty (info_File info "graph") then []
   else text "ctc_fst_decoder_config.graph" (info_File info "graph") ++
        int "ctc_fst_decoder_config.max_active" (JsonInt (Object r "ctc_fst_decoder_config") "max_active" 3000)) ++
  hotword_fields info words use_buf ++
  when_text "hr.lexicon" (info_File info "hr_lexicon") ++ when_text "hr.rule_fsts" (info_File info "hr_rule_fsts").

Definition streaming_family_fields (info : ModelInfo) : option (list (bytes * Field)) :=
  let family := mi_family info in
  let file name := text ("model_config." ++ family ++ "." ++ name) (info_File info name) in
  if family =b "transducer" then Some (file "encoder" ++ file "decoder" ++ file "joiner")
  else if family =b "zipformer2_ctc" then Some (file "model")
  else if family =b "paraformer" then Some (file "encoder" ++ file "decoder")
  else if family =b "nemo_ctc" then Some (file "model")
  else if family =b "t_one_ctc" then Some (file "model")
  else None.

Definition streaming_recognizer_config (info : ModelInfo) (c : AsrConfig) (a : HotwordAssets) : option (result SherpaConfig) :=
  r ← streaming_hotwords info c a;
  Some (let! hot := r in
        match streaming_family_fields info with
        | None => Err ("Unsupported sherpa-streaming model family '" ++ mi_family info ++ "'")
        | Some fields => Ok (assign (streaming_fields info c hot.1 hot.2 ++ fields) ∅)
        end).

Record SherpaStreamingBackend := { sb_info : ModelInfo; sb_config : AsrConfig; sb_provider : bytes; sb_recognizer : option R; warmed_up : option St }.
Definition CreateSherpaStreamingBackend (id : bytes) (ctx : LocalAsrModelContext) : SherpaStreamingBackend :=
  {| sb_info := lc_info ctx; sb_config := streaming_config (lc_config ctx); sb_provider := id; sb_recognizer := None; warmed_up := None |}.
Definition InitializeRecognizerLocked (a : HotwordAssets) (b : SherpaStreamingBackend) : option (result R * SherpaStreamingBackend) :=
  match sb_recognizer b with
  | Some recognizer => Some (Ok recognizer, b)
  | None =>
      r ← streaming_recognizer_config (sb_info b) (sb_config b) a;
      Some match r with
           | Err e => (Err e, b)
           | Ok config =>
               match create_online config with
               | None => (Err ("failed to create sherpa-streaming recognizer for family '" ++ mi_family (sb_info b) ++ "'"), b)
               | Some recognizer =>
                   (Ok recognizer,
                    {| sb_info := sb_info b; sb_config := sb_config b; sb_provider := sb_provider b; sb_recognizer := Some recognizer;
                       warmed_up := WarmupRecognizerLocked recognizer |})
               end
           end
  end.
Definition streaming_CreateSession (a : HotwordAssets) (b : SherpaStreamingBackend)
  : option (result (SherpaStreamingSession R St) * SherpaStreamingBackend) :=
  '(r, b) ← InitializeRecognizerLocked a b;
  Some match r with
       | Err e => (Err e, b)
       | Ok recognizer =>
           match CreateStream recognizer with
           | None => (Err "failed to create sherpa-streaming stream", b)
           | Some stream => (Ok (new_streaming recognizer stream), b)
           end
       end.
Definition streaming_Describe (b : SherpaStreamingBackend) : BackendDescriptor :=
  {| bd_provider_id := sb_provider b; bd_provider_type := kLocalProviderType; bd_backend_id := "sherpa-streaming";
     bd_capabilities := {| audio_delivery_mode := Chunked; supports_streaming := true; supports_partial_results := true;
                           requires_network := false; supports_hotwords := mi_supports_hotwords (sb_info b) |} |}.
End streaming_creation.

(** ** Offline sessions *)

Section offline_behaviour.
Context {R : Type} (decode_offline : R -> list flt -> Decoding) (detect : list samples_t -> list (Z * nat)) (print_seconds : flt -> bytes).
Implicit Types (s : SherpaOfflineSession R).

(** The pushes of a recording, all accepted. *)
Definition offline_pushes (chunks : list (list Z)) s : SherpaOfflineSession R := foldl (fun s pcm => (offline_PushAudio pcm s).2) s chunks.
Lemma offline_pushes_collect chunks s : os_finished s = false ->
  offline_pushes chunks s = s <| os_samples := os_samples s ++ (float_of_pcm <$> concat chunks) |>.
Proof.
  unfold offline_pushes. revert s. induction chunks as [|c chunks IH]; intros s Hf; cbn [foldl concat].
  - destruct s. cbn. by rewrite app_nil_r.
  - unfold offline_PushAudio at 2. rewrite Hf. cbn [snd]. rewrite IH by done. destruct s. cbn. by rewrite fmap_app, app_assoc.
Qed.

Lemma infer_segments_texts r segments texts acc : Forall (fun g => g <> []) segments ->
  Forall2 (fun g t => decode_offline r g = Decoded t) segments texts ->
  infer_segments decode_offline (Some r) segments acc = Ok (foldl append_text acc texts).
Proof.
  intros Hne Hd. revert acc Hne. induction Hd as [|g t segments texts Ht _ IH]; intros acc Hne; [done|].
  inversion_clear Hne as [|? ? Hg Hrest]. cbn [infer_segments foldl]. apply is_empty_false in Hg. rewrite Hg.
  unfold InferOffline. rewrite Ht. by apply IH.
Qed.
Lemma infer_segments_throws r pre g post what acc : Forall (fun g => g <> []) (pre ++ g :: post) ->
  Forall (fun g => exists t, decode_offline r g = Decoded t) pre -> decode_offline r g = Threw what ->
  infer_segments decode_offline (Some r) (pre ++ g :: post) acc = Err what.
Proof.
  intros Hne Hpre Hg. revert acc Hne. induction Hpre as [|x pre [t Ht] _ IH]; intros acc Hne; inversion_clear Hne as [|? ? Hx Hrest];
    apply is_empty_false in Hx; cbn [infer_segments app]; rewrite Hx; unfold InferOffline at 1.
  - by rewrite Hg.
  - rewrite Ht. by apply IH.
Qed.
Lemma Finish_segments s vad segments :
  os_finished s = false -> os_vad s = Some vad -> os_vad_available s = true -> Available vad = true ->
  (kMinSamplesForInference <= length (os_samples s))%nat -> SegmentVad detect vad (os_samples s) 16000 = Some segments ->
  offline_Finish decode_offline detect print_seconds s =
    conclude print_seconds (infer_segments decode_offline (os_recognizer s) segments []) (s <| os_finished := true |>).
Proof.
  intros Hf Hv Ha Hav Hn Hs. unfold offline_Finish. rewrite Hf. cbn [os_samples os_vad os_vad_available os_recognizer alter_field].
  destruct (Nat.ltb_spec (length (os_samples s)) kMinSamplesForInference) as [?|_]; [lia|].
  cbn. rewrite Hv, Ha, Hav, Hs. cbn. by destruct segments.
Qed.
End offline_behaviour.


Definition utter (n : nat) : list Z := replicate n 100%Z.

(** ** Streaming sessions *)

(** From the text [p] on, the partial texts [ts] were shown, one after the other, up to [q]:
    none is empty, none repeats the one before. *)
Fixpoint shows (p : bytes) (ts : list bytes) (q : bytes) : Prop :=
  match ts with [] => q = p | t :: ts => t <> [] /\ t <> p /\ shows t ts q end.
Lemma shows_app p ts m us q : shows p ts m -> shows m us q -> shows p (ts ++ us) q.
Proof. revert p. induction ts as [|t ts IH]; intros p; cbn; [by intros ->|]. intros (? & ? & ?) ?. eauto. Qed.

Inductive StreamOp := PushOp (pcm : list Z) | PollOp.
Definition pushed (ops : list StreamOp) : list Z := concat ((fun op => match op with PushOp pcm => pcm | PollOp => [] end) <$> ops).

Section streaming_behaviour.
Context {R St : Type} `{OnlineLibraryOk R St}.
Implicit Types (s : SherpaStreamingSession R St).

(** The calls of the owner, and the events it has polled. *)
Definition stream_call (seen : list RecognitionEvent * SherpaStreamingSession R St) (op : StreamOp)
  : list RecognitionEvent * SherpaStreamingSession R St :=
  match op with
  | PushOp pcm => (seen.1, (streaming_PushAudio pcm seen.2).2)
  | PollOp => let '(events, s) := streaming_PollEvents seen.2 in (seen.1 ++ events, s)
  end.
Definition stream_calls (ops : list StreamOp) s : list RecognitionEvent * SherpaStreamingSession R St := foldl stream_call ([], s) ops.

(** What decoding leaves. *)
Definition after_decoding s (st : St) (new : list bytes) (q : bytes) : SherpaStreamingSession R St :=
  s <| ss_stream := Some st |> <| last_partial_text_ := q |> <| ss_events := ss_events s ++ (partial_event <$> new) |>.
Lemma after_decoding_twice s st new q st' new' q' :
  after_decoding (after_decoding s st new q) st' new' q' = after_decoding s st' (new ++ new') q'.
Proof. unfold after_decoding. destruct s. cbn. by rewrite fmap_app, app_assoc. Qed.
Lemma decode_once_shows r st s : handles s = Some (r, st) ->
  exists new q, decode_once r st s = after_decoding s (Decode r st) new q /\ shows (last_partial_text_ s) new q.
Proof.
  intros _. unfold decode_once. set (text := GetCurrentText _). destruct (negb (is_empty text) && _) eqn:E.
  - exists [text], text. apply andb_true_iff in E as [E1%negb_true_iff%is_empty_false E2%negb_true_iff%bool_decide_eq_false].
    split; [by destruct s | done].
  - exists [], (last_partial_text_ s). split; [|done]. unfold after_decoding. destruct s. cbn. by rewrite app_nil_r.
Qed.
Lemma handles_after s r st st' new q : handles s = Some (r, st) -> handles (after_decoding s st' new q) = Some (r, st').
Proof. unfold handles. cbn. destruct (ss_stream s), (ss_recognizer s); naive_solver. Qed.

Lemma decode_loop_shows fuel r st s : handles s = Some (r, st) -> (backlog r st < fuel)%nat ->
  exists st' new q, decode_loop fuel s = after_decoding s st' new q /\ shows (last_partial_text_ s) new q /\ IsReady r st' = false.
Proof.
  revert st s. induction fuel as [|fuel IH]; intros st s Hh Hf; [lia|]. cbn [decode_loop]. rewrite Hh.
  destruct (IsReady r st) eqn:Hr.
  - destruct (decode_once_shows r st s Hh) as (new & q & Heq & Hs). rewrite Heq.
    destruct (IH (Decode r st) (after_decoding s (Decode r st) new q)) as (st' & new' & q' & Heq' & Hs' & Hr').
    { by eapply handles_after. }
    { pose proof (decode_consumes r st Hr). lia. }
    exists st', (new ++ new'), q'. rewrite Heq', after_decoding_twice. split_and!; [done | | done]. by eapply shows_app.
  - exists st, [], (last_partial_text_ s). split_and!; [|done|done]. unfold after_decoding, handles in *.
    destruct s as [rec [st0|] ? ? ? ? ?]; cbn in *; [|done]. destruct rec; [|done]. injection Hh as -> ->. by rewrite app_nil_r.
Qed.
Lemma DecodeAvailable_shows r st s : handles s = Some (r, st) ->
  exists st' new q, DecodeAvailable s = after_decoding s st' new q /\ shows (last_partial_text_ s) new q /\ IsReady r st' = false.
Proof. intros Hh. unfold DecodeAvailable. rewrite Hh. apply (decode_loop_shows _ r st); [done|lia]. Qed.

(** The session that has heard [audio], with the partial texts shown so far. *)
Record listening (r : R) (audio : list flt) (shown : list bytes) (seen : list RecognitionEvent * SherpaStreamingSession R St) : Prop := {
  li_recognizer : ss_recognizer seen.2 = Some r;
  li_stream : exists st, ss_stream seen.2 = Some st;
  li_open : ss_finished seen.2 = false;
  li_total : ss_total_samples seen.2 = u64_wrap (N.of_nat (length audio));
  li_fed : ss_fed seen.2 = audio;
  li_events : seen.1 ++ ss_events seen.2 = partial_event <$> shown;
  li_shown : shows [] shown (last_partial_text_ seen.2);
}.
Lemma listening_handles r audio shown seen : listening r audio shown seen -> exists st, handles seen.2 = Some (r, st).
Proof. intros [Hr [st Hst] _ _ _ _ _]. exists st. unfold handles. by rewrite Hst, Hr. Qed.

Lemma listening_push r audio shown seen pcm : listening r audio shown seen ->
  exists shown', listening r (audio ++ (float_of_pcm <$> pcm)) shown' (stream_call seen (PushOp pcm)).
Proof.
  intros Hl. destruct (listening_handles _ _ _ _ Hl) as [st Hst]. destruct Hl as [Hr _ Ho Ht Hf He Hs].
  destruct seen as [old s]. cbn [fst snd] in *. unfold stream_call, streaming_PushAudio, streaming_PushFloat. cbn [fst snd]. rewrite Ho, Hst.
  destruct (float_of_pcm <$> pcm) as [|x xs] eqn:Epcm; cbn [is_empty].
  { exists shown. rewrite app_nil_r. constructor; try done. cbn. unfold handles in Hst. destruct (ss_stream s); [by eauto|done]. }
  set (fed := feed _ _ _). destruct (DecodeAvailable_shows r (AcceptWaveform (x :: xs) st) fed) as (st' & new & q & Heq & Hnew & _).
  { unfold fed, handles, feed. cbn. by rewrite Hr. }
  exists (shown ++ new). cbn [snd]. rewrite Heq. unfold fed, feed, after_decoding in *. constructor; cbn in *; try done.
  - by eauto.
  - rewrite Ht, u64_add_wrap_l, length_app, Nat2N.inj_add. done.
  - by rewrite Hf.
  - by rewrite app_assoc, He, fmap_app.
  - by eapply shows_app.
Qed.
Lemma listening_poll r audio shown seen : listening r audio shown seen -> listening r audio shown (stream_call seen PollOp).
Proof. intros []. destruct seen as [old s]. constructor; cbn in *; try done. by rewrite app_nil_r. Qed.

Lemma listening_calls r ops audio shown seen : listening r audio shown seen ->
  exists shown', listening r (audio ++ (float_of_pcm <$> pushed ops)) shown' (foldl stream_call seen ops).
Proof.
  revert audio shown seen. induction ops as [|[pcm|] ops IH]; intros audio shown seen Hl; cbn [foldl].
  - exists shown. cbn. by rewrite app_nil_r.
  - destruct (listening_push _ _ _ _ pcm Hl) as [shown' Hl']. destruct (IH _ _ _ Hl') as [shown'' Hl'']. exists shown''.
    unfold pushed in *. cbn [fmap list_fmap concat]. by rewrite fmap_app, app_assoc.
  - apply (IH _ _ _ (listening_poll _ _ _ _ Hl)).
Qed.
Lemma listening_new r st : listening r [] [] ([], new_streaming r st).
Proof. constructor; cbn; try done. by eauto. Qed.

Definition padded (audio : list flt) : list flt := if is_empty audio then [] else audio ++ replicate kTailPaddingSamples (f32_of_Z 0).
Lemma pad_tail_feeds r audio shown seen st : listening r audio shown seen -> (N.of_nat (length audio) < 2 ^ 64)%N -> handles seen.2 = Some (r, st) ->
  let s := end_input (pad_tail st (seen.2 <| ss_finished := true |>)) in
  exists st', handles s = Some (r, st') /\ s = seen.2 <| ss_finished := true |> <| ss_stream := Some st' |> <| ss_fed := padded audio |>.
Proof.
  destruct seen as [old [rec stream fin total partial events fed]]. intros [Hr _ Ho Ht Hf _ _] Hlen Hst. cbn in Hr, Ho, Ht, Hf. subst rec fin total fed.
  unfold handles in Hst. cbn in Hst. destruct stream as [st0|]; [|done]. injection Hst as ->.
  unfold end_input, pad_tail, feed, padded. cbn [ss_total_samples alter_field snd].
  generalize (replicate kTailPaddingSamples (f32_of_Z 0)) as pad. intros pad.
  assert (is_empty audio = negb (0 <? u64_wrap (N.of_nat (length audio)))%N) as ->.
  { unfold u64_wrap. rewrite N.mod_small by done. by destruct audio. }
  unfold handles. cbn. destruct (0 <? u64_wrap _)%N eqn:E; cbn; [by eauto|].
  assert (audio = []) as -> by (destruct audio; [done|]; unfold u64_wrap in E; rewrite N.mod_small in E; done). by eauto.
Qed.
End streaming_behaviour.


(** A recogniser that decodes one thousand samples at a time and hears a letter in each
    four thousand. *)
Module DemoLibrary.
#[export] Instance letters : OnlineLibrary unit (N * N) := {
  CreateStream _ := Some (0, 0)%N; AcceptWaveform samples st := (st.1 + N.of_nat (length samples), st.2)%N; InputFinished st := st;
  IsReady _ st := (st.2 <? st.1)%N; Decode _ st := (st.1, st.2 + 1000)%N;
  GetText _ st := replicate (N.to_nat (st.2 / 4000)) "a"%char; backlog _ st := N.to_nat (st.1 - st.2);
}.
#[export] Instance letters_ok : OnlineLibraryOk unit (N * N).
Proof. constructor. intros r [fed heard]. cbn [IsReady Decode backlog letters fst snd]. intros Hr%N.ltb_lt. lia. Qed.
End DemoLibrary.
#[local] Existing Instances DemoLibrary.letters DemoLibrary.letters_ok.


(** ** Creation *)

Lemma or_model_type_set family c : is_Some (or_model_type family c !! kModelType).
Proof. unfold or_model_type. destruct (c !! kModelType) as [f|] eqn:E; [by rewrite E; eauto|]. cbn. rewrite lookup_insert_eq. by eauto. Qed.
(** A recogniser is only asked for with a model type. *)
Lemma offline_config_typed stof from_chars_float decode is_control info c a config words :
  offline_recognizer_config stof from_chars_float decode is_control info c a = Some (Ok (config, words)) ->
  is_Some (config !! kModelType).
Proof.
  unfold offline_recognizer_config. intros Hc. destruct (prompt_hotwords _ _ _ _ _ _) as [[hot|]|]; cbn in Hc; [|done|done].
  destruct (transducer_hotwords _ _ _ _ _ _) as [[w|]|]; cbn in Hc; [|done|done].
  destruct (family_fields _ _ _) as [fields|]; cbn in Hc; [|done].
  injection Hc as <- <-. exact (or_model_type_set (mi_family info) (assign (offline_fields stof info c w ++ fields) ∅)).
Qed.

(** What is in the file system, as far as the temporary file is concerned. *)
Class TemporaryFiles (W R : Type) `{OfflineLibrary W R} := {
  files : W -> gset bytes;
  write_ok p content w w' : write_text p content w = (Ok tt, w') -> files w' = {[p]} ∪ files w;
  write_failed p content e w w' : write_text p content w = (Err e, w') -> files w' = files w;
  remove_ok p w : files (remove_temp p w) = files w ∖ {[p]};
  create_keeps c w : files (create_offline c w).2 = files w;
}.
Section temporary.
Context {W R : Type} `{TemporaryFiles W R}.
Lemma written_file content w r w' : WriteTemporaryHotwordFile content w = (r, w') ->
  match r with Ok p => p <> [] /\ files w' = {[p]} ∪ files w | Err _ => files w' = files w end.
Proof.
  unfold WriteTemporaryHotwordFile. destruct (temp_directory_path w) as [dir|e]; [|by intros [= <- <-]].
  destruct (write_text _ _ w) as [[[]|e] w1] eqn:Hw; intros [= <- <-]; cbn.
  - split; [by destruct dir | by eapply write_ok].
  - by eapply write_failed.
Qed.

(** The file with the hotwords is gone when the recogniser has been made, or could not be. *)
Lemma hotwords_file_removed config words w r w' :
  (forall p w1, WriteTemporaryHotwordFile words w = (Ok p, w1) -> p ∉ files w) ->
  create_with_hotwords config words w = (r, w') -> files w' = files w.
Proof.
  intros Hfresh. unfold create_with_hotwords. destruct (is_empty words).
  - pose proof (create_keeps config w) as Hk. destruct (create_offline config w). by intros [= <- <-].
  - destruct (WriteTemporaryHotwordFile words w) as [[p|e] w1] eqn:Hw; pose proof (written_file _ _ _ _ Hw) as Hf; cbn in Hf; [|by intros [= <- <-]].
    destruct Hf as [Hne%is_empty_false Hf]. specialize (Hfresh p w1 eq_refl).
    set (config' := assign _ _). pose proof (create_keeps config' w1) as Hk. destruct (create_offline config' w1) as [rec w2]. rewrite Hne.
    intros [= <- <-]. rewrite remove_ok. cbn in Hk. rewrite Hk, Hf. set_solver.
Qed.
End temporary.

(** The model's own number of threads is never used by a streaming recogniser. *)
Lemma streaming_threads_fixed id model hotwords ensured read ctx metadata :
  LoadLocalAsrModelContext id model hotwords ensured read = Ok ctx ->
  ChooseNumThreads metadata (thread_num (streaming_config (lc_config ctx))) = 4%Z.
Proof.
  unfold LoadLocalAsrModelContext. destruct (is_empty model); [done|]. destruct ensured as [|]; [|done]. destruct read as [info|]; [|done].
  by intros [= <-].
Qed.
