(* ===== verification/HttpClient.v ===== *)
(** * The HTTP client (src/src/common/net/http_client.cpp, http_types.h)

    Requests over pooled connections. The HTTP library is a parameter: it takes a URL apart,
    and a transfer is what it reports, the blocks of a download one by one. A client of the
    library is a handle with the address and the proxy it was made for; the pool keeps
    handles that are not in use. What the file system answers is part of the transfer. *)

From S2P Require Import Prelude StringUtils.
From Stdlib Require Import Ascii.

Inductive HttpMethod := HttpGet | HttpPost | HttpPut | HttpDelete | HttpHead.
Abbreviation Headers := (list (bytes * bytes)).
Record Request := {
  q_url : bytes; q_method : HttpMethod; q_headers : Headers; q_body : bytes; q_timeout_ms : Z; q_connect_timeout_ms : Z;
  q_follow_redirects : bool; q_max_response_bytes : N; q_proxy : option bytes;
}.
#[export] Instance Request_fields : Fields Request := fun q =>
  Build_Request (q_url q) (q_method q) (q_headers q) (q_body q) (q_timeout_ms q) (q_connect_timeout_ms q) (q_follow_redirects q)
    (q_max_response_bytes q) (q_proxy q).
Definition default_request : Request :=
  {| q_url := []; q_method := HttpGet; q_headers := []; q_body := []; q_timeout_ms := 30000; q_connect_timeout_ms := 5000;
     q_follow_redirects := true; q_max_response_bytes := 10 * 1024 * 1024; q_proxy := None |}.
Definition FindHeader (headers : Headers) (name : bytes) : option bytes :=
  snd <$> (snd <$> list_find (fun h => EqualsIgnoreCase h.1 name = true) headers).

Record Response := {
  p_status : Z; p_body : bytes; p_headers : Headers; p_effective_url : bytes; p_error : bytes; p_cancelled : bool;
}.
#[export] Instance Response_fields : Fields Response := fun p =>
  Build_Response (p_status p) (p_body p) (p_headers p) (p_effective_url p) (p_error p) (p_cancelled p).
Definition no_response : Response :=
  {| p_status := 0; p_body := []; p_headers := []; p_effective_url := []; p_error := []; p_cancelled := false |}.
Definition successful (status : Z) : bool := (200 <=? status)%Z && (status <? 300)%Z.
Definition Ok_response (p : Response) : bool := successful (p_status p) && is_empty (p_error p) && negb (p_cancelled p).

(** ** Connections *)

Record ConnectionIdentity := { id_origin : bytes; id_credential : bytes; id_proxy_policy : bytes }.
#[export] Instance ConnectionIdentity_eq_dec : EqDecision ConnectionIdentity.
Proof. solve_decision. Defined.
#[export] Instance ConnectionIdentity_countable : Countable ConnectionIdentity.
Proof.
  apply (inj_countable' (fun i => (id_origin i, id_credential i, id_proxy_policy i)) (fun '(a, b, c) => Build_ConnectionIdentity a b c)).
  by intros [].
Defined.

Record UrlComponents := { u_scheme : bytes; u_host : bytes; u_port : bytes; u_path : bytes; u_query : bytes }.

Section client.
Context (parse_url : bytes -> option UrlComponents) (getenv : bytes -> option bytes).

Definition proxy_variables : list bytes :=
  ["http_proxy"; "HTTP_PROXY"; "https_proxy"; "HTTPS_PROXY"; "all_proxy"; "ALL_PROXY"; "no_proxy"; "NO_PROXY"].
Definition policy_entry (name : bytes) : bytes :=
  match getenv name with Some value => name ++ "=" ++ value ++ [ascii_of_N 0] | None => [] end.
Definition BuildProxyPolicySignature : bytes := concat (policy_entry <$> proxy_variables).
Definition ExtractAuthorization (headers : Headers) : bytes := default [] (FindHeader headers "authorization").
Definition HasUserAgent (headers : Headers) : bool := bool_decide (is_Some (FindHeader headers "user-agent")).

Definition origin_of (u : UrlComponents) : bytes :=
  let host := if bool_decide (":"%char ∈ u_host u) && negb (starts_with (u_host u) "[") then "[" ++ u_host u ++ "]" else u_host u in
  u_scheme u ++ "://" ++ host ++ (if is_empty (u_port u) then [] else ":" ++ u_port u).
Definition path_and_query (u : UrlComponents) : bytes := (if is_empty (u_path u) then "/" else u_path u) ++ u_query u.
Definition identity_of (u : UrlComponents) (q : Request) : ConnectionIdentity :=
  {| id_origin := origin_of u; id_credential := ExtractAuthorization (q_headers q);
     id_proxy_policy := match q_proxy q with Some proxy => "custom=" ++ proxy | None => BuildProxyPolicySignature end |}.

(** The client of the library: its address, its proxy and the hosts that bypass it. *)
Record Client := { c_origin : bytes; c_proxy : option (bytes * Z); c_no_proxy : list bytes }.
Definition apply_proxy (proxy_str : bytes) : option (bytes * Z) :=
  let p_url := if starts_with proxy_str "http://" || starts_with proxy_str "https://" then proxy_str else "http://" ++ proxy_str in
  u ← parse_url p_url;
  Some (u_host u, if negb (is_empty (u_port u)) then default 0%Z (stoi (u_port u)) else if u_scheme u =b "https" then 443%Z else 80%Z).
Definition first_set (names : list bytes) : option bytes := head (omap getenv names).
Definition ambient_proxy (u : UrlComponents) : option bytes :=
  first_set ((if u_scheme u =b "https" then ["https_proxy" : bytes; "HTTPS_PROXY"] else ["http_proxy" : bytes; "HTTP_PROXY"]) ++ ["all_proxy" : bytes; "ALL_PROXY"]).
Definition no_proxy_patterns : list bytes :=
  match first_set ["no_proxy" : bytes; "NO_PROXY"] with
  | None => []
  | Some text => filter (fun p => p <> []) (Trim <$> Split text ","%char)
  end.
Definition make_client (u : UrlComponents) (q : Request) : Client :=
  {| c_origin := origin_of u;
     c_proxy := match q_proxy q with
                | Some proxy => if is_empty proxy then None else apply_proxy proxy
                | None => match ambient_proxy u with Some ((_ :: _) as proxy) => apply_proxy proxy | _ => None end
                end;
     c_no_proxy := match q_proxy q with Some _ => [] | None => no_proxy_patterns end |}.

Record ClientSettings := { keep_alive : bool; follow_location : bool; read_timeout : Z * Z; connection_timeout : Z * Z; write_timeout : Z * Z; payload_max_length : N }.
Definition split_ms (ms : Z) : Z * Z := (Z.quot ms 1000, Z.rem ms 1000 * 1000)%Z.
Definition settings_of (q : Request) (to_file : bool) : ClientSettings :=
  {| keep_alive := true; follow_location := q_follow_redirects q; read_timeout := split_ms (q_timeout_ms q);
     connection_timeout := split_ms (q_connect_timeout_ms q); write_timeout := split_ms (q_timeout_ms q);
     payload_max_length := if to_file then 0%N else q_max_response_bytes q |}.
Definition sent_headers (q : Request) : Headers :=
  q_headers q ++ (if HasUserAgent (q_headers q) then [] else [("User-Agent"%bytes, "fcitx5-vinput"%bytes)]).
Definition content_type (method : HttpMethod) (headers : Headers) : option bytes :=
  match method with
  | HttpPost => Some (default "application/x-www-form-urlencoded" (FindHeader headers "Content-Type"))
  | HttpPut | HttpDelete => Some (default "application/octet-stream" (FindHeader headers "Content-Type"))
  | HttpGet | HttpHead => None
  end.

End client.

(** ** The pool *)

Definition kMaxPoolPerHost : nat := 4.
Abbreviation Pool := (gmap ConnectionIdentity (list nat)).
Definition idle (pool : Pool) (id : ConnectionIdentity) : list nat := default [] (pool !! id).
(** The clients of an identity with the next one to hand out first. *)
Definition Acquire (id : ConnectionIdentity) (pool : Pool) : option nat * Pool :=
  match idle pool id with
  | c :: rest => (Some c, <[id := rest]> pool)
  | [] => (None, pool)
  end.
Definition Release (id : ConnectionIdentity) (c : nat) (pool : Pool) : Pool :=
  if (length (idle pool id) <? kMaxPoolPerHost)%nat then <[id := c :: idle pool id]> pool else <[id := idle pool id]> pool.

(** ** Transfers *)

Inductive HttpError := Canceled | ExceedMaxPayloadSize | OtherError (text : bytes).
#[export] Instance HttpError_eq_dec : EqDecision HttpError.
Proof. solve_decision. Defined.
(** What the library reports: a final response, with the location it followed, or an error. *)
Inductive Reply := Replied (status : Z) (body : bytes) (headers : Headers) (location : bytes) | Failed (err : HttpError).

(** What the library is asked to send, and over which client. *)
Record Call := {
  call_client : nat; call_settings : ClientSettings; call_method : HttpMethod; call_path : bytes; call_headers : Headers;
  call_body : bytes; call_content_type : option bytes;
}.
(** A download is a GET whatever the method of the request. *)
Definition call_of (cli : nat) (u : UrlComponents) (q : Request) (to_file : bool) : Call :=
  let method := if to_file then HttpGet else q_method q in
  {| call_client := cli; call_settings := settings_of q to_file; call_method := method; call_path := path_and_query u;
     call_headers := sent_headers q; call_body := match method with HttpGet | HttpHead => [] | _ => q_body q end;
     call_content_type := content_type method (q_headers q) |}.

(** A block of a download: whether the token is set when it arrives, whether the file takes
    it, and whether the progress callback lets the transfer go on. *)
Record Block := { b_data : bytes; b_cancelled : bool; b_written : bool; b_progress : bool }.
Abbreviation Files := (gmap bytes bytes).

(** Everything one call of [Execute] is answered. *)
Record Answers := {
  token_before : bool; token_after : bool; token_late : bool;     (* the cancel token, each time it is read *)
  reply : Call -> Reply;                                          (* of the library to a call *)
  blocks : list Block; open_ok : bool; rename_ok : bool;
  on_disk : bytes -> bytes;                                       (* the file after the last flush *)
  temp_suffix : bytes;
  file_copy : Files -> result unit * Files; file_read : result bytes;    (* for file: URLs *)
}.

Definition cancelled_response : Response := no_response <| p_cancelled := true |> <| p_error := "Request cancelled" |>.

(** The content receiver and the progress callback: what was written, and whether the library
    was allowed to finish. *)
Fixpoint receive (blocks : list Block) (written : bytes) : bool * bytes :=
  match blocks with
  | [] => (true, written)
  | b :: blocks =>
      if b_cancelled b then (false, written)
      else if negb (b_written b) then (false, written)
      else if negb (b_progress b) then (false, written ++ b_data b)
      else receive blocks (written ++ b_data b)
  end.
Definition transfer (call : Call) (a : Answers) : Reply * bytes :=
  let '(went_on, written) := receive (blocks a) [] in (if went_on then reply a call else Failed Canceled, written).

Definition temp_path (dest : bytes) (a : Answers) : bytes := dest ++ ".tmp." ++ temp_suffix a.
(** The download: into a temporary file, then over the destination. A file that the client
    made itself can be removed again. *)
Definition download (call : Call) (dest : bytes) (a : Answers) (fs : Files) : Reply * Files :=
  let tmp := temp_path dest a in
  let '(res, written) := transfer call a in
  let content := on_disk a written in
  let fs := <[tmp := content]> fs in
  (res, match res with
        | Replied status _ _ _ =>
            if successful status then if rename_ok a then delete tmp (<[dest := content]> fs) else delete tmp fs
            else delete tmp fs
        | Failed _ => delete tmp fs
        end).

Definition absolute_location (origin loc : bytes) : bytes := if starts_with loc "/" then origin ++ loc else loc.
Definition effective_url_of (origin url : bytes) (headers : Headers) (location : bytes) : bytes :=
  match FindHeader headers "Location" with
  | Some ((_ :: _) as loc) => absolute_location origin loc
  | _ => if is_empty location then url else absolute_location origin location
  end.
Definition response_of (origin : bytes) (q : Request) (a : Answers) (res : Reply) : Response :=
  match res with
  | Replied status body headers location =>
      {| p_status := status; p_body := body; p_headers := headers; p_effective_url := effective_url_of origin (q_url q) headers location;
         p_error := []; p_cancelled := false |}
  | Failed err =>
      if bool_decide (err = Canceled) || token_late a then cancelled_response
      else no_response <| p_error := match err with
                                     | ExceedMaxPayloadSize => "Response exceeded maximum allowed size"
                                     | OtherError text => text
                                     | Canceled => []
                                     end |>
  end.
(** A client is dropped when the transfer failed and nobody asked for the cancellation. *)
Definition keeps_client (a : Answers) (res : Reply) : bool := token_after a || match res with Replied _ _ _ _ => true | Failed _ => false end.

Definition execute_file (q : Request) (dest : option bytes) (a : Answers) (fs : Files) : Response * Files :=
  let done := no_response <| p_status := 200%Z |> <| p_effective_url := q_url q |> in
  match dest with
  | Some _ =>
      match file_copy a fs with
      | (Err e, fs) => (no_response <| p_status := 404%Z |> <| p_error := "Failed to copy local file: " ++ e |>, fs)
      | (Ok _, fs) => (done, fs)
      end
  | None =>
      match file_read a with
      | Err e => (no_response <| p_status := 404%Z |> <| p_error := e |>, fs)
      | Ok body => (done <| p_body := body |>, fs)
      end
  end.

(** The request over a connection: the response, whether the client goes back to the pool,
    and the files. *)
Definition execute_http (cli : nat) (u : UrlComponents) (q : Request) (dest : option bytes) (a : Answers) (fs : Files) : Response * bool * Files :=
  if token_before a then (cancelled_response, true, fs)
  else
    match dest with
    | Some dest =>
        if negb (open_ok a) then (no_response <| p_error := "Failed to open destination file: " ++ temp_path dest a |>, true, fs)
        else
          let '(res, fs) := download (call_of cli u q true) dest a fs in
          (if token_after a then cancelled_response else response_of (origin_of u) q a res, keeps_client a res, fs)
    | None =>
        let res := reply a (call_of cli u q false) in
        (if token_after a then cancelled_response else response_of (origin_of u) q a res, keeps_client a res, fs)
    end.

Definition Execute (parse_url : bytes -> option UrlComponents) (getenv : bytes -> option bytes) (fresh : nat) (q : Request) (dest : option bytes)
    (a : Answers) (pool : Pool) (fs : Files) : Response * Pool * Files :=
  match parse_url (q_url q) with
  | None => (no_response <| p_error := "Invalid URL: " ++ q_url q |>, pool, fs)
  | Some u =>
      if u_scheme u =b "file" then let '(p, fs) := execute_file q dest a fs in (p, pool, fs)
      else
        let id := identity_of getenv u q in
        let '(acquired, pool) := Acquire id pool in
        let cli := default fresh acquired in
        let '(p, kept, fs) := execute_http cli u q dest a fs in
        (p, if kept then Release id cli pool else pool, fs)
  end.

Definition Get (url : bytes) (timeout_ms : Z) : Request := default_request <| q_url := url |> <| q_timeout_ms := timeout_ms |>.
Definition Post (url body : bytes) (headers : Headers) (timeout_ms : Z) : Request :=
  default_request <| q_url := url |> <| q_method := HttpPost |> <| q_body := body |> <| q_headers := headers |> <| q_timeout_ms := timeout_ms |>.
Definition PostJson (url json_body : bytes) (extra_headers : Headers) (timeout_ms : Z) : Request :=
  Post url json_body (extra_headers ++ [("Content-Type"%bytes, "application/json"%bytes)]) timeout_ms.
Definition DownloadUrl (url : bytes) : Request := default_request <| q_url := url |>.

(** ** Isolation *)

(** A call of [Execute]: the environment and the URL it sees, and its request. *)
Record Caller := { x_env : bytes -> option bytes; x_url : UrlComponents; x_request : Request }.
(** Values of environment variables are C strings, and the library's URL pattern ends a
    scheme at the first colon. *)
Record caller_ok (x : Caller) : Prop := {
  co_env name value : x_env x name = Some value -> ascii_of_N 0 ∉ value;
  co_scheme : ":"%char ∉ u_scheme (x_url x);
}.
Definition caller_id (x : Caller) : ConnectionIdentity := identity_of (x_env x) (x_url x) (x_request x).
Definition caller_client (parse_url : bytes -> option UrlComponents) (x : Caller) : Client :=
  make_client parse_url (x_env x) (x_url x) (x_request x).

(** The requests under way and the pool, between the calls of all threads. A client keeps the
    address and the proxy it was made with: they are set for new clients only. *)
Record Connections := { pool : Pool; held : list (Caller * nat); made : gmap nat (ConnectionIdentity * Client); next : nat }.
Definition no_connections : Connections := {| pool := ∅; held := []; made := ∅; next := 0 |}.

(** The identity determines the client. *)

Lemma split_at_unique (c : ascii) a b x y : c ∉ a -> c ∉ b -> a ++ c :: x = b ++ c :: y -> a = b /\ x = y.
Proof.
  revert b. induction a as [|a0 a IH]; intros [|b0 b] Ha Hb; cbn; intros [= ]; subst; try done; try set_solver.
  destruct (IH b) as [-> ->]; set_solver.
Qed.
Lemma signature_head getenv names :
  concat (policy_entry getenv <$> names) = [] \/
  exists n rest, n ∈ names /\ concat (policy_entry getenv <$> names) = n ++ "="%char :: rest.
Proof.
  induction names as [|n names IH]; [by left|]. cbn. unfold policy_entry at 1 3. destruct (getenv n) as [v|].
  - right. exists n. eexists. split; [by left|]. by rewrite <- app_assoc.
  - destruct IH as [->|(n' & rest & Hn & ->)]; [by left|right; exists n', rest; split; [by right|done]].
Qed.
Lemma signature_clash getenv n names rest : n ∉ names -> Forall (fun n => "="%char ∉ n) (n :: names) ->
  n ++ "="%char :: rest <> concat (policy_entry getenv <$> names).
Proof.
  intros Hn Hall E. destruct (signature_head getenv names) as [E'|(n' & rest' & Hin & E')]; rewrite E' in E; [by destruct n|].
  rewrite Forall_forall in Hall. apply split_at_unique in E as [-> _]; [done|apply Hall; by left|apply Hall; by right].
Qed.
Lemma signature_inj g h names : NoDup names -> Forall (fun n => "="%char ∉ n) names ->
  (forall n v, g n = Some v -> ascii_of_N 0 ∉ v) -> (forall n v, h n = Some v -> ascii_of_N 0 ∉ v) ->
  concat (policy_entry g <$> names) = concat (policy_entry h <$> names) -> forall n, n ∈ names -> g n = h n.
Proof.
  intros Hnd Heq Hg Hh. induction names as [|n names IH]; [by intros _ ? ?%elem_of_nil|].
  apply NoDup_cons in Hnd as [Hn Hnd]. pose proof (signature_clash g n names) as Cg. pose proof (signature_clash h n names) as Ch.
  cbn. unfold policy_entry at 1 3. intros E.
  assert (g n = h n /\ concat (policy_entry g <$> names) = concat (policy_entry h <$> names)) as [En E'].
  { destruct (g n) as [v|] eqn:Hv, (h n) as [w|] eqn:Hw; cbn in E; rewrite <- ?app_assoc in E; cbn in E; [| by eapply Ch in E | by eapply eq_sym, Cg in E | done].
    apply app_inv_head in E. injection E as E. rewrite <- ?app_assoc in E. apply split_at_unique in E as [-> E]; [done|by eapply Hg|by eapply Hh]. }
  apply Forall_cons in Heq as [_ Heq]. intros m [->|Hm]%elem_of_cons; [done|]. by apply IH.
Qed.
Lemma first_set_ext g h names : (forall n, n ∈ names -> g n = h n) -> first_set g names = first_set h names.
Proof.
  unfold first_set. intros E. f_equal. induction names as [|n names IH]; [done|]. cbn. rewrite (E n) by by left.
  rewrite IH; [done|]. intros m Hm. apply E. by right.
Qed.
Lemma policy_ambient g h u v : u_scheme u = u_scheme v -> (forall n, n ∈ proxy_variables -> g n = h n) ->
  ambient_proxy g u = ambient_proxy h v /\ no_proxy_patterns g = no_proxy_patterns h.
Proof.
  intros Hs E. unfold ambient_proxy, no_proxy_patterns. rewrite Hs.
  split; [|rewrite (first_set_ext g h); [done|]]; [destruct (_ =b _); apply first_set_ext|]; intros n Hn; apply E; unfold proxy_variables; set_solver.
Qed.

Section isolation.
Context (parse_url : bytes -> option UrlComponents).

Lemma identity_client x y : caller_ok x -> caller_ok y -> caller_id x = caller_id y -> caller_client parse_url x = caller_client parse_url y.
Proof.
  intros [Ex Sx] [Ey Sy] [= Ho _ Hp]. unfold caller_client, make_client. rewrite Ho.
  assert (u_scheme (x_url x) = u_scheme (x_url y)) as Hs by (by eapply split_at_unique in Ho as [-> _]).
  destruct (q_proxy (x_request x)) as [p|] eqn:Hx, (q_proxy (x_request y)) as [q|] eqn:Hy.
  - by injection Hp as ->.
  - destruct (signature_head (x_env y) proxy_variables) as [E|(n & rest & Hn & E)]; unfold BuildProxyPolicySignature in Hp; rewrite E in Hp; [done|].
    repeat (apply elem_of_cons in Hn as [->|Hn]; [done|]). by apply elem_of_nil in Hn.
  - destruct (signature_head (x_env x) proxy_variables) as [E|(n & rest & Hn & E)]; unfold BuildProxyPolicySignature in Hp; rewrite E in Hp; [done|].
    repeat (apply elem_of_cons in Hn as [->|Hn]; [done|]). by apply elem_of_nil in Hn.
  - destruct (policy_ambient (x_env x) (x_env y) (x_url x) (x_url y) Hs) as [-> ->]; [|done].
    eapply signature_inj; [| |exact Ex|exact Ey|exact Hp]; [vm_compute; apply (bool_decide_unpack _); by vm_compute | by apply (bool_decide_unpack _); vm_compute].
Qed.

Inductive conn_step : Connections -> Connections -> Prop :=
  | cs_reuse x c pool' s : caller_ok x -> Acquire (caller_id x) (pool s) = (Some c, pool') ->
      conn_step s {| pool := pool'; held := (x, c) :: held s; made := made s; next := next s |}
  | cs_make x pool' s : caller_ok x -> Acquire (caller_id x) (pool s) = (None, pool') ->
      conn_step s {| pool := pool'; held := (x, next s) :: held s;
                     made := <[next s := (caller_id x, caller_client parse_url x)]> (made s); next := S (next s) |}
  | cs_release x c s pre post : held s = pre ++ (x, c) :: post ->
      conn_step s {| pool := Release (caller_id x) c (pool s); held := pre ++ post; made := made s; next := next s |}
  | cs_drop x c s pre post : held s = pre ++ (x, c) :: post ->
      conn_step s {| pool := pool s; held := pre ++ post; made := made s; next := next s |}.

Record conn_inv (s : Connections) : Prop := {
  ci_idle id c : c ∈ idle (pool s) id -> exists x, caller_ok x /\ caller_id x = id /\ made s !! c = Some (id, caller_client parse_url x);
  ci_held x c : (x, c) ∈ held s -> caller_ok x /\ made s !! c = Some (caller_id x, caller_client parse_url x);
  ci_fresh c : is_Some (made s !! c) -> c < next s;
  ci_unique id : NoDup (idle (pool s) id);
  ci_exclusive : NoDup (snd <$> held s);
  ci_disjoint id c : c ∈ idle (pool s) id -> c ∉ (snd <$> held s);
  ci_bounded id : length (idle (pool s) id) <= kMaxPoolPerHost;
}.

Lemma idle_insert p id l id' : idle (<[id := l]> p) id' = if decide (id = id') then l else idle p id'.
Proof. unfold idle. destruct (decide (id = id')) as [->|Hne]; [by rewrite lookup_insert_eq | by rewrite lookup_insert_ne]. Qed.
Lemma Acquire_Some id p c p' : Acquire id p = (Some c, p') -> exists rest, idle p id = c :: rest /\ p' = <[id := rest]> p.
Proof. unfold Acquire. destruct (idle p id) as [|c0 rest]; [done|]. intros [= -> <-]. by exists rest. Qed.
Lemma Acquire_None id p p' : Acquire id p = (None, p') -> p' = p.
Proof. unfold Acquire. destruct (idle p id); [by intros [= <-]|done]. Qed.

Lemma conn_reuse_inv x c p' s : caller_ok x -> Acquire (caller_id x) (pool s) = (Some c, p') -> conn_inv s ->
  conn_inv {| pool := p'; held := (x, c) :: held s; made := made s; next := next s |}.
Proof.
  set (id := caller_id x). intros Hok (rest & Hidle & ->)%Acquire_Some [Hi Hh Hf Hu He Hd Hb].
  assert (forall id' x, x ∈ idle (<[id := rest]> (pool s)) id' -> x ∈ idle (pool s) id') as Hsub.
  { intros id' y. rewrite idle_insert. destruct (decide (id = id')) as [<-|]; [|done]. rewrite Hidle. by right. }
  assert (c ∈ idle (pool s) id) as Hc by (rewrite Hidle; by left).
  constructor; cbn [pool held made next].
  - intros id' y Hy. by apply Hi, Hsub.
  - intros y d [[= -> ->]|Hy]%elem_of_cons; [|by apply Hh]. destruct (Hi _ _ Hc) as (z & Hz & Ez & Em). split; [done|].
    rewrite Em. by rewrite (identity_client x z Hok Hz).
  - done.
  - intros id'. specialize (Hu id'). rewrite idle_insert. destruct (decide (id = id')) as [<-|]; [|done]. rewrite Hidle in Hu. by inversion Hu.
  - cbn. constructor; [by eapply Hd | done].
  - intros id' y Hy. cbn. rewrite elem_of_cons. intros [->|Hy']; [|by apply (Hd id' y); [apply Hsub|]].
    assert (id' = id) as -> by (destruct (Hi id' c (Hsub _ _ Hy)) as (? & _ & _ & ?), (Hi id c Hc) as (? & _ & _ & ?); congruence).
    specialize (Hu id). rewrite idle_insert, decide_True in Hy by done. rewrite Hidle in Hu. by inversion Hu.
  - intros id'. specialize (Hb id'). rewrite idle_insert. destruct (decide (id = id')) as [<-|]; [|done]. rewrite Hidle in Hb. cbn in Hb. lia.
Qed.
Lemma conn_make_inv x p' s : caller_ok x -> Acquire (caller_id x) (pool s) = (None, p') -> conn_inv s ->
  conn_inv {| pool := p'; held := (x, next s) :: held s; made := <[next s := (caller_id x, caller_client parse_url x)]> (made s); next := S (next s) |}.
Proof.
  intros Hok ->%Acquire_None [Hi Hh Hf Hu He Hd Hb].
  assert (forall c r, made s !! c = Some r -> c <> next s) as Hne by (intros c r Hc ->; specialize (Hf _ (ex_intro _ _ Hc)); lia).
  constructor; cbn [pool held made next]; try done.
  - intros id' y Hy. destruct (Hi _ _ Hy) as (z & ? & ? & Em). exists z. rewrite lookup_insert_ne; [done|]. intros E. by eapply Hne.
  - intros y d [[= -> ->]|Hy]%elem_of_cons; [by rewrite lookup_insert_eq|]. destruct (Hh _ _ Hy) as [? Em]. rewrite lookup_insert_ne; [done|].
    intros E. by eapply Hne.
  - intros y. destruct (decide (y = next s)) as [->|]; [lia|]. rewrite lookup_insert_ne by done. intros Hx%Hf. lia.
  - cbn. constructor; [|done]. intros ([y d] & Hx & Hin)%list_elem_of_fmap. cbn in Hx. subst d. destruct (Hh _ _ Hin) as [_ Em]. by eapply Hne.
  - intros id' y Hy. cbn. rewrite elem_of_cons. intros [->|Hy']; [|by apply (Hd id' y)]. destruct (Hi _ _ Hy) as (z & ? & ? & Em). by eapply Hne.
Qed.
Lemma conn_leave_inv x c s pre post : held s = pre ++ (x, c) :: post -> conn_inv s ->
  conn_inv {| pool := pool s; held := pre ++ post; made := made s; next := next s |} /\
  (caller_ok x /\ made s !! c = Some (caller_id x, caller_client parse_url x)) /\ (c ∉ snd <$> (pre ++ post)) /\ forall id', c ∉ idle (pool s) id'.
Proof.
  intros Hheld [Hi Hh Hf Hu He Hd Hb]. rewrite Hheld in *.
  assert (forall y, y ∈ pre ++ post -> y ∈ pre ++ (x, c) :: post) as Hsub by set_solver.
  rewrite fmap_app, fmap_cons in He. cbn [snd] in He. apply NoDup_app in He as (Hpre & Hdis & Hpost). apply NoDup_cons in Hpost as [Hc Hpost].
  split; [|split; [apply Hh; set_solver|split]].
  - constructor; cbn [pool held made next]; try done.
    + intros y d Hy. by apply Hh, Hsub.
    + rewrite fmap_app. apply NoDup_app. split_and!; [done| |done]. intros y Hy Hy'. apply (Hdis y Hy). by right.
    + intros id' y Hy Hin. apply (Hd id' y Hy). rewrite fmap_app, fmap_cons. rewrite fmap_app in Hin. set_solver.
  - rewrite fmap_app, elem_of_app. intros [Hx|Hx]; [|done]. apply (Hdis c Hx). by left.
  - intros id' Hx. apply (Hd id' c Hx). rewrite fmap_app, fmap_cons. set_solver.
Qed.
Lemma Release_idle id c p id' : idle (Release id c p) id' =
  if decide (id = id') then if (length (idle p id) <? kMaxPoolPerHost)%nat then c :: idle p id else idle p id else idle p id'.
Proof. unfold Release. destruct (_ <? _)%nat; rewrite idle_insert; by destruct (decide (id = id')) as [<-|]. Qed.
Lemma conn_release_inv x c s pre post : held s = pre ++ (x, c) :: post -> conn_inv s ->
  conn_inv {| pool := Release (caller_id x) c (pool s); held := pre ++ post; made := made s; next := next s |}.
Proof.
  intros Hheld Hinv. destruct (conn_leave_inv _ _ _ _ _ Hheld Hinv) as ([Hi Hh Hf Hu He Hd Hb] & [Hok Hm] & Hout & Hidle). cbn in *.
  assert (forall id' y, y ∈ idle (Release (caller_id x) c (pool s)) id' -> y ∈ idle (pool s) id' \/ y = c /\ caller_id x = id') as Hsplit.
  { intros id' y. rewrite Release_idle. destruct (decide (caller_id x = id')) as [<-|]; [|auto]. destruct (_ <? _)%nat; [|auto]. set_solver. }
  constructor; cbn [pool held made next]; try done.
  - intros id' y [Hy|[-> <-]]%Hsplit; [by apply Hi|by exists x].
  - intros id'. rewrite Release_idle. destruct (decide (caller_id x = id')) as [<-|]; [|done]. destruct (_ <? _)%nat; [|done]. by constructor.
  - intros id' y [Hy|[-> <-]]%Hsplit; [by apply (Hd id')|done].
  - intros id'. rewrite Release_idle. destruct (decide (caller_id x = id')) as [<-|]; [|done].
    destruct (Nat.ltb_spec (length (idle (pool s) (caller_id x))) kMaxPoolPerHost); [cbn; lia|done].
Qed.
Lemma conn_step_inv s s' : conn_step s s' -> conn_inv s -> conn_inv s'.
Proof.
  intros Hs Hi. destruct Hs; [by eapply conn_reuse_inv | by apply conn_make_inv | by apply conn_release_inv | by eapply conn_leave_inv].
Qed.
Lemma no_connections_inv : conn_inv no_connections.
Proof.
  assert (forall id, idle ∅ id = []) as Hidle by (intros id; unfold idle; by rewrite lookup_empty).
  constructor; cbn [pool held made next no_connections]; intros *; rewrite ?Hidle, ?lookup_empty; first [by intros ?%elem_of_nil | by intros [] | cbn; lia | constructor].
Qed.
Lemma connections_reachable s : rtc conn_step no_connections s -> conn_inv s.
Proof.
  intros Hr. pose proof no_connections_inv as H0. revert H0. induction Hr as [|x y z Hs _ IH]; [done|]. intros H0. apply IH. by eapply conn_step_inv.
Qed.

(** C33. Connections are never shared across identities: whatever the threads do and however
    the environment changes between their requests, a request runs on a client made for its
    own origin, credential and proxy policy, with the address, the proxy and the bypass list
    that a new client would get for this very request; a client serves one request at a
    time; and no identity keeps more than four idle clients. *)
Theorem connections_isolated s :
  rtc conn_step no_connections s ->
  (forall x c, (x, c) ∈ held s ->
     exists id, made s !! c = Some (id, caller_client parse_url x) /\ id_origin id = origin_of (x_url x) /\
       id_credential id = ExtractAuthorization (q_headers (x_request x))) /\
  NoDup (snd <$> held s) /\
  (forall id c, c ∈ idle (pool s) id -> c ∉ (snd <$> held s) /\ (fst <$> made s !! c) = Some id) /\
  (forall id, NoDup (idle (pool s) id) /\ length (idle (pool s) id) <= kMaxPoolPerHost).
Proof.
  intros [Hi Hh _ Hu He Hd Hb]%connections_reachable. split_and!; [intros x c []%Hh; by eexists | done | | by split].
  intros id c Hc. split; [by eapply Hd|]. by destruct (Hi _ _ Hc) as (x & _ & _ & ->).
Qed.

(** A request is an acquisition followed by a release or a drop of the same client. *)
Lemma Execute_steps getenv q dest a s fs u p pool' fs' :
  parse_url (q_url q) = Some u -> u_scheme u <> "file"%bytes -> caller_ok {| x_env := getenv; x_url := u; x_request := q |} ->
  Execute parse_url getenv (next s) q dest a (pool s) fs = (p, pool', fs') ->
  exists s', rtc conn_step s s' /\ pool s' = pool' /\ held s' = held s.
Proof.
  unfold Execute. intros -> Hfile Hok. rewrite bool_decide_eq_false_2 by done. set (x := {| x_env := getenv; x_url := u; x_request := q |}) in *.
  change (identity_of getenv u q) with (caller_id x).
  destruct (Acquire (caller_id x) (pool s)) as [[c|] p1] eqn:Ha; cbn [default]; destruct (execute_http _ _ _ _ _ _) as [[r kept] fs1]; intros [= _ <- _].
  - destruct kept; (eexists; split; [eapply rtc_l; [by apply cs_reuse|]; eapply rtc_l; [|apply rtc_refl]|]);
      [by apply (cs_release x c _ []) | done | by apply (cs_drop x c _ []) | done].
  - destruct kept; (eexists; split; [eapply rtc_l; [by apply cs_make|]; eapply rtc_l; [|apply rtc_refl]|]);
      [by apply (cs_release x (next s) _ []) | done | by apply (cs_drop x (next s) _ []) | done].
Qed.

End isolation.

(** ** Downloads *)

Lemma receive_all blocks written written' : receive blocks written = (true, written') -> written' = written ++ concat (b_data <$> blocks).
Proof.
  revert written. induction blocks as [|b blocks IH]; intros written; cbn; [intros [= <-]; by rewrite app_nil_r|].
  destruct (b_cancelled b); [done|]. destruct (b_written b); [|done]. destruct (b_progress b); [|done]. cbn. intros ->%IH. by rewrite app_assoc.
Qed.
Lemma temp_path_ne dest a : temp_path dest a <> dest.
Proof. unfold temp_path. intros E%(f_equal length). rewrite length_app in E. cbn in E. lia. Qed.


(** ** Witnesses *)

Definition an_env (name : bytes) : option bytes := if name =b "https_proxy" then Some ("proxy.example:3128"%bytes) else None.
Definition a_parser (url : bytes) : option UrlComponents :=
  if url =b "http://proxy.example:3128" then Some {| u_scheme := "http"; u_host := "proxy.example"; u_port := "3128"; u_path := []; u_query := [] |} else None.
Definition a_url : UrlComponents := {| u_scheme := "https"; u_host := "example"; u_port := []; u_path := "/model.bin"; u_query := [] |}.
Definition a_caller : Caller := {| x_env := an_env; x_url := a_url; x_request := default_request |}.
(** One request after another on the same connection, through the proxy of the environment. *)
Definition reused : Connections :=
  {| pool := <[caller_id a_caller := []]> (Release (caller_id a_caller) 0 ∅); held := [(a_caller, 0)];
     made := {[0 := (caller_id a_caller, caller_client a_parser a_caller)]}; next := 1 |}.
Lemma a_caller_ok : caller_ok a_caller.
Proof.
  split; cbn; [|by apply (bool_decide_unpack _); vm_compute]. intros name value. unfold an_env. case_bool_decide; [|done]. intros [= <-].
  by apply (bool_decide_unpack _); vm_compute.
Qed.
Lemma reused_reachable : rtc (conn_step a_parser) no_connections reused.
Proof.
  eapply rtc_l; [apply (cs_make a_parser a_caller ∅); [apply a_caller_ok | done]|].
  eapply rtc_l; [by apply (cs_release a_parser a_caller 0 _ [] [])|].
  eapply rtc_l; [apply (cs_reuse a_parser a_caller 0 (<[caller_id a_caller := []]> (Release (caller_id a_caller) 0 ∅))); [apply a_caller_ok|] | apply rtc_refl].
  unfold Acquire. cbn [pool]. by rewrite Release_idle, decide_True by done.
Qed.
Lemma connections_isolated_witness :
  exists id, made reused !! 0 = Some (id, {| c_origin := "https://example"; c_proxy := Some ("proxy.example"%bytes, 3128%Z); c_no_proxy := [] |}) /\
    id_origin id = "https://example" /\ id_credential id = [].
Proof. refine (proj1 (connections_isolated a_parser reused reused_reachable) a_caller 0 _). left. Defined.

Definition block (data : bytes) : Block := {| b_data := data; b_cancelled := false; b_written := true; b_progress := true |}.
Definition answers (renamed : bool) (disk : bytes -> bytes) : Answers :=
  {| token_before := false; token_after := false; token_late := false; reply _ := Replied 200 [] [] []; blocks := [block "mod"; block "el"];
     open_ok := true; rename_ok := renamed; on_disk := disk; temp_suffix := "7"; file_copy fs := (Ok tt, fs); file_read := Ok [] |}.
Definition a_call : Call := call_of 0 a_url default_request true.
Definition old_model : Files := {["model.bin"%bytes := "old"%bytes]}.

(** ** What a download reports *)

(** A failed rename is dropped: the response is a success although nothing is in place. *)
Example rename_failure_reported_ok :
  let '(p, _, fs) := execute_http 0 a_url default_request (Some "model.bin"%bytes) (answers false id) ∅ in
  Ok_response p = true /\ fs !! "model.bin"%bytes = None.
Proof. vm_compute. done. Qed.
(** So is a failure of the last flush: a truncated file takes the place of the old one. *)
Example flush_failure_reported_ok :
  let '(p, _, fs) := execute_http 0 a_url default_request (Some "model.bin"%bytes) (answers true (take 3)) {["model.bin"%bytes := "old"%bytes]} in
  Ok_response p = true /\ fs !! "model.bin"%bytes = Some "mod"%bytes.
Proof. vm_compute. done. Qed.
(** A cancelled transfer leaves the old file. *)
Example cancelled_download_keeps_file :
  let a := answers true id in
  let a := {| token_before := false; token_after := true; token_late := true; reply := reply a;
              blocks := [block "mod"; {| b_data := "el"; b_cancelled := true; b_written := true; b_progress := true |}];
              open_ok := true; rename_ok := true; on_disk := id; temp_suffix := "7"; file_copy := file_copy a; file_read := file_read a |} in
  let '(p, _, fs) := execute_http 0 a_url default_request (Some "model.bin"%bytes) a {["model.bin"%bytes := "old"%bytes]} in
  p_cancelled p = true /\ fs !! "model.bin"%bytes = Some "old"%bytes.
Proof. vm_compute. done. Qed.
