(* ===== verification/Sandbox.v ===== *)
(** * Sandbox, service control and download progress

    The sandbox the add-on may run in (src/src/common/utils/sandbox.cpp), the installation of
    the service unit (addon/core/vinput.cpp), the calls of systemctl and journalctl with the
    commands built on them (cli/runtime/systemd_client.cpp, cli/control/daemon_actions.cpp),
    and the progress line of a download (common/utils/download_progress.cpp). What the file
    system says about paths, the environment and the exit codes of programs are arguments. *)

From S2P Require Import Prelude StringUtils FileSystem FileUtils Json.
From Stdlib Require Import Ascii.

(** ** Detection *)

Definition nonempty (v : option bytes) : bool := match v with Some (_ :: _) => true | _ => false end.
Definition DetectSandbox (flatpak_id container info_path : option bytes) (exists_ : bytes -> bool) : bool :=
  if nonempty flatpak_id then true
  else if bool_decide (container = Some ("flatpak" : bytes)) then true
  else match info_path with Some ((_ :: _) as path) => exists_ path | _ => false end.

(** What the system says about a path. *)
Record PathFacts := { p_exists : bool; p_directory : bool; p_read_write : bool; p_write_search : bool }.

Section sandbox.
Context (facts : fpath -> PathFacts) (getenv : bytes -> option bytes) (uid : Z).

Definition IsInSandbox : bool :=
  DetectSandbox (getenv "FLATPAK_ID") (getenv "container") (Some "/.flatpak-info") (fun p => p_exists (facts (to_fpath p))).

Definition IsDirectoryWritable (path : fpath) : bool :=
  if empty_path path then false
  else if p_exists (facts path) then p_directory (facts path) && p_write_search (facts path)
  else
    let parent := parent_path path in
    negb (empty_path parent) && negb ((rooted parent =b rooted path) && (names parent =b names path)) &&
    p_exists (facts parent) && p_directory (facts parent) && p_write_search (facts parent).

Record ProbeOptions := { pipewire_socket_path : fpath; systemd_dir : fpath; cache_dir : fpath }.
Definition ProbeMissingPermissions (o : ProbeOptions) : list bytes :=
  (if empty_path (pipewire_socket_path o) || negb (p_read_write (facts (pipewire_socket_path o))) then ["pipewire" : bytes] else []) ++
  (if IsDirectoryWritable (systemd_dir o) then [] else ["xdg-config/systemd" : bytes]) ++
  (if IsDirectoryWritable (cache_dir o) then [] else ["xdg-cache" : bytes]).
Definition probe_options : ProbeOptions :=
  {| pipewire_socket_path :=
       match getenv "XDG_RUNTIME_DIR" with
       | Some ((_ :: _) as runtime_dir) => below_dir (to_fpath runtime_dir) ["pipewire-0"]
       | _ => below_dir (to_fpath "/run/user") [to_string uid; "pipewire-0"]
       end;
     systemd_dir := UserSystemdUnitDir getenv; cache_dir := VinputCacheDir getenv |}.
Definition MissingSandboxPermissions : list bytes := if IsInSandbox then ProbeMissingPermissions probe_options else [].

Definition WrapHostCommand (args : list bytes) : list bytes := if IsInSandbox then ["flatpak-spawn" : bytes; "--host"] ++ args else args.
Definition DaemonLogFilter : list bytes :=
  if IsInSandbox then ["journalctl"; "--user"; "-t"; "flatpak"; "--grep"; "vinput"]
  else ["journalctl"; "--user-unit"; DaemonServiceUnitName].

Definition kFlatpakAppId : bytes := "org.fcitx.Fcitx5".
Definition override_of (perm : bytes) : bytes :=
  if perm =b "pipewire" then "flatpak override --user --filesystem=xdg-run/pipewire-0 " ++ kFlatpakAppId ++ [ch_nl]
  else if perm =b "xdg-config/systemd" then "flatpak override --user --filesystem=xdg-config/systemd:create " ++ kFlatpakAppId ++ [ch_nl]
  else if perm =b "xdg-cache" then "flatpak override --user --filesystem=xdg-cache " ++ kFlatpakAppId ++ [ch_nl]
  else [].
Definition FormatOverrideCommands (missing_permissions : list bytes) : bytes :=
  let result := concat (override_of <$> missing_permissions) in
  if is_empty result then [] else result ++ "flatpak kill " ++ kFlatpakAppId.

(** The new command replaces the line from the marker to its end. *)
Definition exec_marker : bytes := "ExecStart=".
Definition sandboxed_exec : bytes :=
  "ExecStart=flatpak run --command=" ++ show (DaemonExecutablePath IsInSandbox) ++ " " ++ kFlatpakAppId ++ [ch_nl] ++
  "ExecStop=pkill -INT vinput-daemon".
Definition RewriteServiceUnit (content : bytes) : bytes :=
  if negb IsInSandbox then content
  else
    match find_sub content exec_marker with
    | None => content
    | Some pos =>
        let rest := drop pos content in
        take pos content ++ sandboxed_exec ++ match find_sub rest [ch_nl] with Some n => drop n rest | None => [] end
    end.

(** ** The unit of the daemon (addon/core/vinput.cpp) *)

(** The steps that can fail: [None] for a file that is not there, an error otherwise. *)
Record InstallAnswers := {
  ia_exists : result bool; ia_template : option bytes; ia_parent : result unit; ia_write : result unit; ia_reload : Z;
}.
Inductive InstallStep := Warned (commands : bytes) | CheckFailed | NoTemplate | ParentFailed | WriteFailed_ | Written (path : fpath) (content : bytes)
  | Ran (command : bytes) | ReloadFailed (code : Z).
Definition ensureDaemonServiceInstalled (a : InstallAnswers) : list InstallStep :=
  if negb IsInSandbox then []
  else
    let missing := MissingSandboxPermissions in
    (if is_empty missing then [] else [Warned (FormatOverrideCommands missing)]) ++
    let dest := DaemonServiceUnitInstallPath getenv in
    if empty_path dest then []
    else
      match ia_exists a with
      | Err _ => [CheckFailed]
      | Ok true => []
      | Ok false =>
          match ia_template a with
          | None => [NoTemplate]
          | Some template =>
              match ia_parent a, ia_write a with
              | Err _, _ => [ParentFailed]
              | Ok _, Err _ => [WriteFailed_]
              | Ok _, Ok _ =>
                  [Written dest (RewriteServiceUnit template); Ran (Join (WrapHostCommand ["systemctl"; "--user"; "daemon-reload"]) " ")] ++
                  (if (ia_reload a =? 0)%Z then [] else [ReloadFailed (ia_reload a)])
              end
          end
      end.

(** ** Service control (cli/runtime/systemd_client.cpp) *)

(** Programs: the exit code of a call, and of a captured call with what it printed; [None]
    when it cannot be started. *)
Context (call_program : list bytes -> option Z) (capture_program : list bytes -> option (Z * bytes * bytes)).

Definition RunCommand (args : list bytes) : Z :=
  let actual_args := WrapHostCommand args in
  if is_empty actual_args then (-1)%Z else default (-1)%Z (call_program actual_args).
Definition RunCommandCapture (args : list bytes) : Z * bytes :=
  let actual_args := WrapHostCommand args in
  if is_empty actual_args then ((-1)%Z, [])
  else match capture_program actual_args with Some (code, out, err) => (code, out ++ err) | None => ((-1)%Z, []) end.
Definition BuildJournalctlCommand (follow : bool) (lines : Z) : list bytes :=
  DaemonLogFilter ++ ["-n"; to_string lines] ++ (if follow then ["-f" : bytes] else []).
Definition JournalctlLogsText (lines : Z) : bytes :=
  let '(code, output) := RunCommandCapture (BuildJournalctlCommand false lines) in if (code <? 0)%Z then [] else output.
Definition JournalctlLogs (follow : bool) (lines : Z) : Z := RunCommand (BuildJournalctlCommand follow lines).

Record DaemonControlResult := { exit_code : Z; failure_message : bytes }.
Definition control_ok (r : DaemonControlResult) : bool := (exit_code r =? 0)%Z.
Definition BuildFailureMessage (what : bytes) (exit_code : Z) : bytes :=
  let message := what ++ " failed (exit code: " ++ to_string exit_code ++ ")" in
  let logs := JournalctlLogsText 20 in
  if is_empty logs then message else message ++ [ch_nl; ch_nl] ++ logs.
Definition RunWithDiagnostics (args : list bytes) (what : bytes) : DaemonControlResult :=
  let code := RunCommand args in
  {| exit_code := code; failure_message := if (code =? 0)%Z then [] else BuildFailureMessage what code |}.
Definition systemctl (verb : bytes) : list bytes := ["systemctl"; "--user"; verb; DaemonServiceUnitName].
Definition SystemctlStop : Z := RunCommand (systemctl "stop").
Definition SystemctlStartWithDiagnostics : DaemonControlResult := RunWithDiagnostics (systemctl "start") "systemctl start".
Definition SystemctlRestartWithDiagnostics : DaemonControlResult := RunWithDiagnostics (systemctl "restart") "systemctl restart".

(** ** The daemon commands (cli/control/daemon_actions.cpp) *)

Inductive Printed := ErrorLine (text : bytes) | WarningLine (text : bytes) | InfoLine (text : bytes) | SuccessLine (text : bytes) | JsonLine (value : json).

(** The loop over the lines of the commands, by position. *)
Fixpoint command_lines (fuel : nat) (text : bytes) : list bytes :=
  match fuel, text with
  | S fuel, _ :: _ =>
      let '(line, rest) := match find_sub text [ch_nl] with Some n => (take n text, drop (S n) text) | None => (text, []) end in
      (if is_empty line then [] else [line]) ++ command_lines fuel rest
  | _, _ => []
  end.
Definition permission_advice : list Printed :=
  if negb IsInSandbox then []
  else
    let missing := MissingSandboxPermissions in
    if is_empty missing then []
    else
      [WarningLine "Missing Flatpak permissions:"] ++ ((fun perm => WarningLine ("  - " ++ perm)) <$> missing) ++
      let override_cmds := FormatOverrideCommands missing in
      if is_empty override_cmds then []
      else [InfoLine "To grant permissions, run:"] ++ ((fun line => InfoLine ("  " ++ line)) <$> command_lines (length override_cmds) override_cmds).
Definition RunDaemonControlStatus (json_output running : bool) (status : result bytes) : list Printed * Z :=
  if negb running then
    (if json_output then [JsonLine (JObject [("running"%bytes, JBool false)])]
     else [ErrorLine "Daemon is not running."] ++ permission_advice, 1%Z)
  else
    match status with
    | Err e =>
        ([if json_output then JsonLine (JObject [("error"%bytes, JString e); ("running"%bytes, JBool true); ("status"%bytes, JNull)]) else ErrorLine e], 1%Z)
    | Ok status =>
        ([if json_output then JsonLine (JObject [("running"%bytes, JBool true); ("status"%bytes, JString status)])
          else InfoLine (take 255 ("Daemon status: " ++ status))], 0%Z)
    end.
Definition report_control (r : DaemonControlResult) (done : bytes) : list Printed * Z :=
  if control_ok r then ([SuccessLine done], 0%Z) else ([ErrorLine (failure_message r)], 1%Z).
Definition RunDaemonControlStart : list Printed * Z := report_control SystemctlStartWithDiagnostics "Daemon started.".
Definition RunDaemonControlRestart : list Printed * Z := report_control SystemctlRestartWithDiagnostics "Daemon restarted.".
Definition RunDaemonControlStop : list Printed * Z :=
  let r := SystemctlStop in
  if (r =? 0)%Z then ([SuccessLine "Daemon stopped."], 0%Z)
  else ([ErrorLine ("systemctl stop failed (exit code: " ++ to_string r ++ ")")], 1%Z).
Definition RunDaemonControlLogs (follow : bool) (lines : Z) : list Printed * Z := ([], JournalctlLogs follow lines).

End sandbox.

(** ** Download progress (common/utils/download_progress.cpp) *)

(** [bar]: the progress of the terminal's bar, which is complete at 100. *)
Record ProgressBar := { label : bytes; total : Z; is_tty : bool; last_percent : Z; bar : option Z }.
Definition new_bar (label : bytes) (total : Z) (is_tty : bool) : ProgressBar :=
  {| label := label; total := total; is_tty := is_tty; last_percent := -1; bar := if is_tty && (0 <? total)%Z then Some 0%Z else None |}.
(** The product is taken in 64 bits, the quotient is cut to an [int]. *)
Definition percent_of (current total : Z) : Z :=
  let quotient := (current * 100 mod 2 ^ 64 / total)%Z in
  let int := ((quotient + 2 ^ 31) mod 2 ^ 32 - 2 ^ 31)%Z in Z.min int 100.
Definition Update (current : Z) (p : ProgressBar) : ProgressBar * list bytes :=
  if (total p =? 0)%Z then (p, [])
  else
    let percent := percent_of current (total p) in
    match is_tty p, bar p with
    | true, Some shown =>
        if (100 <=? shown)%Z then (p, [])
        else ({| label := label p; total := total p; is_tty := is_tty p; last_percent := percent; bar := Some percent |}, [])
    | _, _ =>
        let bucket := (Z.quot percent 10 * 10)%Z in
        let last_bucket := if (last_percent p <? 0)%Z then (-1)%Z else (Z.quot (last_percent p) 10 * 10)%Z in
        if (last_bucket <? bucket)%Z
        then ({| label := label p; total := total p; is_tty := is_tty p; last_percent := percent; bar := bar p |},
              [label p ++ ": " ++ to_string bucket ++ "%" ++ [ch_nl]])
        else (p, [])
    end.
Definition Finish (p : ProgressBar) : ProgressBar * list bytes :=
  match is_tty p, bar p with
  | true, Some shown =>
      ((if (100 <=? last_percent p)%Z && (shown <? 100)%Z
        then {| label := label p; total := total p; is_tty := is_tty p; last_percent := last_percent p; bar := Some 100%Z |} else p), [[ch_nl]])
  | _, _ => (p, [])
  end.

(** ** Properties *)

Lemma percent_exact current total : (0 <= current <= total)%Z -> (0 < total)%Z -> (total * 100 < 2 ^ 64)%Z ->
  percent_of current total = (current * 100 / total)%Z /\ (0 <= percent_of current total <= 100)%Z.
Proof.
  intros Hc Ht Hb. unfold percent_of. rewrite (Z.mod_small (current * 100)) by lia.
  assert (0 <= current * 100 / total <= 100)%Z as Hq.
  { split; [apply Z.div_pos; lia|]. apply Z.div_le_upper_bound; lia. }
  rewrite Z.mod_small by lia. lia.
Qed.

Fixpoint updates (currents : list Z) (p : ProgressBar) : list bytes :=
  match currents with [] => [] | c :: currents => let '(p, out) := Update c p in out ++ updates currents p end.
Definition bucket_line (p : ProgressBar) (k : nat) : bytes := label p ++ ": " ++ to_string (Z.of_nat k * 10) ++ "%" ++ [ch_nl].

Lemma updates_buckets currents p : is_tty p = false -> (0 < total p)%Z -> (total p * 100 < 2 ^ 64)%Z -> (-1 <= last_percent p <= 100)%Z ->
  Forall (fun c => (0 <= c <= total p)%Z) currents ->
  exists ks, updates currents p = bucket_line p <$> ks /\ StronglySorted lt ks /\
    Forall (fun k => k <= 10 /\ (last_percent p < 0 \/ last_percent p / 10 < Z.of_nat k)%Z) ks.
Proof.
  revert p. induction currents as [|c currents IH]; intros p Htty Ht Hb Hl Hall; [exists []; by repeat constructor|].
  apply Forall_cons in Hall as [Hc Hall]. destruct (percent_exact c (total p) Hc Ht Hb) as [_ Hp].
  cbn. unfold Update. rewrite Htty. destruct (Z.eqb_spec (total p) 0); [lia|]. set (percent := percent_of c (total p)) in *.
  rewrite (Z.quot_div_nonneg percent) by lia.
  destruct (Z.ltb_spec (if (last_percent p <? 0)%Z then -1 else Z.quot (last_percent p) 10 * 10) (percent / 10 * 10)) as [Hlt|Hge].
  - set (p' := {| label := label p; total := total p; is_tty := false; last_percent := percent; bar := bar p |}).
    destruct (IH p') as (ks & Hk & Hs & Hf); [done..|cbn; lia|done|]. exists (Z.to_nat (percent / 10) :: ks).
    assert (0 <= percent / 10 <= 10)%Z by (split; [apply Z.div_pos; lia | apply Z.div_le_upper_bound; lia]).
    split_and!.
    + cbn. unfold bucket_line at 1. rewrite Z2Nat.id by lia. f_equal. exact Hk.
    + constructor; [done|]. eapply Forall_impl; [exact Hf|]. subst p'. cbn. intros k [_ [?|?]]; lia.
    + constructor.
      * split; [lia|]. destruct (Z.ltb_spec (last_percent p) 0) as [?|Hn]; [by left|right].
        rewrite Z.quot_div_nonneg in Hlt by lia. lia.
      * eapply Forall_impl; [exact Hf|]. subst p'. cbn. intros k [? [?|?]]; [lia|]. split; [done|].
        destruct (Z.ltb_spec (last_percent p) 0) as [?|Hn]; [by left|right]. rewrite Z.quot_div_nonneg in Hlt by lia. lia.
  - destruct (IH p) as (ks & Hk & Hs & Hf); [done..|]. by exists ks.
Qed.
(** Without a terminal a download prints each reached tenth once, in rising order and never
    beyond 100, whatever is reported: at most eleven lines. *)
Theorem progress_lines_bounded currents label total :
  (0 < total)%Z -> (total * 100 < 2 ^ 64)%Z -> Forall (fun c => (0 <= c <= total)%Z) currents ->
  let p := new_bar label total false in
  exists ks, updates currents p = bucket_line p <$> ks /\ StronglySorted lt ks /\ Forall (fun k => k <= 10) ks.
Proof.
  intros Ht Hb Hall p. destruct (updates_buckets currents p) as (ks & ? & ? & Hf); [done..|cbn; lia|done|]. exists ks. split_and!; [done..|].
  eapply Forall_impl; [exact Hf|]. by intros k [? _].
Qed.

(** Rewriting a unit touches the line of the command and nothing else. *)
Lemma find_char_spec c s :
  match find_sub s [c] with
  | Some n => c ∉ take n s /\ exists rest, drop n s = c :: rest
  | None => c ∉ s
  end.
Proof.
  induction s as [|x s IH]; cbn; [apply not_elem_of_nil|]. destruct (c =b x) eqn:E; cbn.
  - apply bool_decide_eq_true in E as <-. split; [apply not_elem_of_nil|by eexists].
  - apply bool_decide_eq_false in E. destruct (find_sub s [c]) as [n|]; cbn; [destruct IH as [? ?]; split; [set_solver|done]|set_solver].
Qed.
Lemma service_unit_line facts getenv content pos :
  IsInSandbox facts getenv = true -> find_sub content exec_marker = Some pos ->
  exists line rest, content = take pos content ++ line ++ rest /\ ch_nl ∉ line /\ (rest = [] \/ exists r, rest = ch_nl :: r) /\
    RewriteServiceUnit facts getenv content = take pos content ++ sandboxed_exec facts getenv ++ rest.
Proof.
  intros Hin Hf. unfold RewriteServiceUnit. rewrite Hin, Hf. cbn [negb]. pose proof (find_char_spec ch_nl (drop pos content)) as Hn.
  destruct (find_sub (drop pos content) [ch_nl]) as [n|].
  - destruct Hn as [Hn [r Hr]]. exists (take n (drop pos content)), (drop n (drop pos content)). rewrite !take_drop. split_and!; [done..| by right; eexists | done].
  - exists (drop pos content), []. rewrite app_nil_r, take_drop. split_and!; [done..|by left|done].
Qed.

(** What the status command advises: one command for every missing permission, then the
    restart. The probe names known permissions only. *)
Definition permissions : list bytes := ["pipewire"; "xdg-config/systemd"; "xdg-cache"].
Definition override_line (perm : bytes) : bytes := removelast (override_of perm).
Lemma probe_known facts o : Forall (fun perm => perm ∈ permissions) (ProbeMissingPermissions facts o).
Proof.
  unfold ProbeMissingPermissions, permissions. repeat apply Forall_app_2; [destruct (_ || _)|destruct (IsDirectoryWritable _ _)..];
    repeat constructor; set_solver.
Qed.
Lemma command_lines_next fuel text : text <> [] ->
  command_lines (S fuel) text =
    let '(line, rest) := match find_sub text [ch_nl] with Some n => (take n text, drop (S n) text) | None => (text, []) end in
    (if is_empty line then [] else [line]) ++ command_lines fuel rest.
Proof. by destruct text. Qed.
Lemma command_lines_step line rest fuel : line <> [] -> ch_nl ∉ line ->
  command_lines (S fuel) (line ++ ch_nl :: rest) = line :: command_lines fuel rest.
Proof.
  intros Hne Hnl. rewrite command_lines_next by by destruct line.
  assert (find_sub (line ++ ch_nl :: rest) [ch_nl] = Some (length line)) as ->.
  { clear -Hnl. induction line as [|x line IH]; cbn; [by rewrite bool_decide_eq_true_2|]. rewrite bool_decide_eq_false_2 by set_solver. cbn.
    rewrite IH by set_solver. done. }
  rewrite take_app_length, <- (Nat.add_1_r (length line)), drop_app_add. by destruct line.
Qed.
Lemma override_shape perm : perm ∈ permissions -> override_of perm = override_line perm ++ [ch_nl] /\ override_line perm <> [] /\ ch_nl ∉ override_line perm.
Proof.
  intros Hp. repeat (apply elem_of_cons in Hp as [->|Hp]; [split_and!; [by vm_compute..|apply (bool_decide_unpack _); by vm_compute]|]). by apply elem_of_nil in Hp.
Qed.
Lemma command_lines_overrides missing fuel : Forall (fun perm => perm ∈ permissions) missing -> length missing < fuel ->
  command_lines fuel (concat (override_of <$> missing) ++ "flatpak kill " ++ kFlatpakAppId) =
  (override_line <$> missing) ++ ["flatpak kill " ++ kFlatpakAppId].
Proof.
  revert fuel. induction missing as [|perm missing IH]; intros [|fuel] Hall Hf; [cbn in Hf; lia| |cbn in Hf; lia|].
  - by destruct fuel.
  - apply Forall_cons in Hall as [Hp Hall]. destruct (override_shape perm Hp) as (E & Hne & Hnl).
    rewrite !fmap_cons. cbn [concat]. rewrite E, <- !app_assoc. cbn [app]. rewrite command_lines_step by done. cbn. f_equal. apply IH; [done|]. cbn in Hf. lia.
Qed.
Lemma override_length missing : Forall (fun perm => perm ∈ permissions) missing -> length missing <= length (concat (override_of <$> missing)).
Proof.
  induction 1 as [|perm missing Hp _ IH]; [done|]. cbn. rewrite length_app. destruct (override_shape perm Hp) as (-> & Hne & _). rewrite length_app. cbn. lia.
Qed.

(** For a sandboxed daemon that does not run, the status command names every missing
    permission and prints exactly one command line for each of them, in order, followed by
    the one that restarts the application; it exits with 1. *)
Theorem status_advises_permissions facts getenv uid status :
  IsInSandbox facts getenv = true -> MissingSandboxPermissions facts getenv uid <> [] ->
  let missing := MissingSandboxPermissions facts getenv uid in
  RunDaemonControlStatus facts getenv uid false false status =
    ([ErrorLine "Daemon is not running."; WarningLine "Missing Flatpak permissions:"] ++ ((fun perm => WarningLine ("  - " ++ perm)) <$> missing) ++
     [InfoLine "To grant permissions, run:"] ++ ((fun line => InfoLine ("  " ++ line)) <$> (override_line <$> missing) ++ ["flatpak kill org.fcitx.Fcitx5" : bytes]), 1%Z).
Proof.
  intros Hin Hne missing. assert (Forall (fun perm => perm ∈ permissions) missing) as Hk.
  { unfold missing, MissingSandboxPermissions. rewrite Hin. apply probe_known. }
  unfold RunDaemonControlStatus, permission_advice. fold missing. rewrite Hin. cbn [negb]. f_equal.
  destruct missing as [|perm rest] eqn:E; [done|]. rewrite <- E in *. replace (is_empty missing) with false by by rewrite E.
  pose proof (override_length missing Hk) as Hlen. unfold FormatOverrideCommands. cbn zeta.
  replace (is_empty (concat (override_of <$> missing))) with false by (destruct (concat _); [rewrite E in Hlen; cbn in Hlen; lia|done]).
  replace (is_empty (concat (override_of <$> missing) ++ "flatpak kill " ++ kFlatpakAppId)) with false by by destruct (concat _).
  rewrite command_lines_overrides; [done..|]. rewrite !length_app. cbn. lia.
Qed.

(** ** Witnesses *)

Definition in_flatpak (name : bytes) : option bytes := if name =b "FLATPAK_ID" then Some ("org.fcitx.Fcitx5" : bytes) else if name =b "HOME" then Some ("/home/u" : bytes) else None.
Definition locked (p : fpath) : PathFacts := {| p_exists := false; p_directory := false; p_read_write := true; p_write_search := false |}.
Lemma status_advises_permissions_witness :
  RunDaemonControlStatus locked in_flatpak 1000 false false (Ok []) =
  ([ErrorLine "Daemon is not running."; WarningLine "Missing Flatpak permissions:"; WarningLine "  - xdg-config/systemd"; WarningLine "  - xdg-cache";
    InfoLine "To grant permissions, run:";
    InfoLine "  flatpak override --user --filesystem=xdg-config/systemd:create org.fcitx.Fcitx5";
    InfoLine "  flatpak override --user --filesystem=xdg-cache org.fcitx.Fcitx5"; InfoLine "  flatpak kill org.fcitx.Fcitx5"], 1%Z).
Proof. rewrite (status_advises_permissions locked in_flatpak 1000 (Ok [])); [vm_compute; reflexivity | vm_compute; reflexivity | vm_compute; discriminate]. Defined.
Lemma progress_lines_bounded_witness :
  exists ks, updates [0; 5; 34; 39; 200; 150]%Z (new_bar "model" 200 false) = bucket_line (new_bar "model" 200 false) <$> ks /\
    StronglySorted lt ks /\ Forall (fun k => k <= 10) ks.
Proof. apply (progress_lines_bounded [0; 5; 34; 39; 200; 150]%Z "model" 200); [lia | lia | repeat constructor; lia]. Defined.

(** A unit as it is installed. *)
Example rewritten_unit :
  RewriteServiceUnit locked in_flatpak ("[Service]" ++ [ch_nl] ++ "ExecStart=/usr/bin/vinput-daemon" ++ [ch_nl] ++ "[Install]") =
  "[Service]" ++ [ch_nl] ++ "ExecStart=flatpak run --command=/app/addons/Vinput/bin/vinput-daemon org.fcitx.Fcitx5" ++ [ch_nl] ++
  "ExecStop=pkill -INT vinput-daemon" ++ [ch_nl] ++ "[Install]".
Proof. vm_compute. reflexivity. Qed.
(** A unit directory two levels below the last existing one counts as not writable, although
    it could be created: on a first start the permission is reported as missing. *)
Example new_home_reported_missing :
  ProbeMissingPermissions
    (fun p => let here := bool_decide (length (names p) <= 3) in
              {| p_exists := here; p_directory := here; p_read_write := true; p_write_search := here |})
    (probe_options (fun name => if name =b "HOME" then Some ("/home/u" : bytes) else Some []) 1000) = ["xdg-config/systemd" : bytes].
Proof. vm_compute. reflexivity. Qed.
