(* ===== verification/GuiForms.v ===== *)
(** * Forms of the settings window (src/src/gui/utils, src/src/gui/dialogs)

    The parts of the window that are functions of what the user typed: lines and environment
    variables, the editor of a command, the dialogs for adapters, providers and scenes, the
    list of models of a provider, and the progress a download worker reports. Qt is a class:
    trimming, sorting and searching its strings, reading URLs and JSON documents. A dialog
    is the list of its submissions: [None] where the user cancels. *)

From S2P Require Import Prelude StringUtils Json Scene CoreConfig ConfigCodec Interpolation Registry Scripts PostProcessor.
From Stdlib Require Import Ascii.

Class Qt := {
  trimmed : bytes -> bytes;
  trimmed_nil : trimmed [] = [];
  contains_ignoring_case : bytes -> bytes -> bool;
  sort_strings : list bytes -> list bytes;
  url_from_user_input : bytes -> option (bytes * bytes);      (* scheme and host, when valid *)
  json_document : bytes -> option json;
}.

Inductive Dialog (A : Type) := Cancelled | Accepted (a : A) | StillOpen.
#[global] Arguments Cancelled {A}. #[global] Arguments Accepted {A}. #[global] Arguments StillOpen {A}.

Section forms.
Context `{Qt}.

(** ** Lines *)

Definition NonEmptyLines (text : bytes) : list bytes := filter (fun l => l <> []) (trimmed <$> split_ref ch_nl text).
Fixpoint parse_env (lines : list bytes) (env : gmap bytes bytes) : result (gmap bytes bytes) :=
  match lines with
  | [] => Ok env
  | line :: lines =>
      match SplitOnce line "="%char with
      | Some ((_ :: _) as key, value) => parse_env lines (<[key := value]> env)
      | _ => Err ("Invalid env entry '" ++ line ++ "'. Use KEY=VALUE.")
      end
  end.
Definition ParseCommandEnv (text : bytes) : result (gmap bytes bytes) := parse_env (NonEmptyLines text) ∅.

(** [CommandEditorGroup]: the texts of its three fields. *)
Record CommandEditor := { edit_command : bytes; text_args : bytes; text_env : bytes }.
Definition Populate (command : bytes) (args : list bytes) (env : gmap bytes bytes) : CommandEditor :=
  {| edit_command := command; text_args := Join args [ch_nl]; text_env := JoinKeyValue (map_entries env) [ch_nl] "=" |}.
Definition Extract (e : CommandEditor) : bytes * list bytes * result (gmap bytes bytes) :=
  (trimmed (edit_command e), NonEmptyLines (text_args e), ParseCommandEnv (text_env e)).

(** A spin box keeps its value in its range. *)
Definition spin (lo hi value : Z) : Z := Z.max lo (Z.min hi value).

(** ** The dialogs *)

(** Adapters: the texts and the check box at every press of OK, until it is accepted. *)
Fixpoint ShowAdapterDialog (initial : LlmAdapter) (submissions : list (option (CommandEditor * bool))) : Dialog LlmAdapter :=
  match submissions with
  | [] => StillOpen
  | None :: _ => Cancelled
  | Some (editor, auto_start) :: submissions =>
      let '(command, args, env) := Extract editor in
      match env with
      | Err _ => ShowAdapterDialog initial submissions
      | Ok env => Accepted {| la_id := la_id initial; la_command := command; la_args := args; la_env := env; la_autoStart := auto_start |}
      end
  end.

Record AsrProviderData := {
  ap_id : bytes; ap_type : bytes; ap_timeout_ms : Z; ap_model : bytes; ap_command : bytes; ap_args : list bytes; ap_env : gmap bytes bytes;
}.
Record AsrProviderForm := { pf_name : bytes; pf_type : bytes; pf_timeout : Z; pf_model : bytes; pf_editor : CommandEditor }.
Definition asr_form (initial : AsrProviderData) : AsrProviderForm :=
  {| pf_name := ap_id initial; pf_type := ap_type initial;
     pf_timeout := spin 1000 300000 (if (0 <? ap_timeout_ms initial)%Z then ap_timeout_ms initial else 1000);
     pf_model := if ap_type initial =b kLocalProviderType then ap_model initial else [];
     pf_editor := if ap_type initial =b kLocalProviderType then {| edit_command := []; text_args := []; text_env := [] |}
                  else Populate (ap_command initial) (ap_args initial) (ap_env initial) |}.
Definition read_asr_form (f : AsrProviderForm) : result AsrProviderData :=
  let name := trimmed (pf_name f) in
  let '(command, args, env) := Extract (pf_editor f) in
  if is_empty name then Err "Provider name must not be empty."
  else if pf_type f =b kLocalProviderType then
    Ok {| ap_id := name; ap_type := pf_type f; ap_timeout_ms := pf_timeout f; ap_model := trimmed (pf_model f); ap_command := []; ap_args := []; ap_env := ∅ |}
  else if is_empty command then Err "Command providers require a command."
  else
    match env with
    | Err e => Err e
    | Ok env => Ok {| ap_id := name; ap_type := pf_type f; ap_timeout_ms := pf_timeout f; ap_model := []; ap_command := command; ap_args := args; ap_env := env |}
    end.
Fixpoint ShowAsrProviderDialog (submissions : list (option AsrProviderForm)) : Dialog AsrProviderData :=
  match submissions with
  | [] => StillOpen
  | None :: _ => Cancelled
  | Some f :: submissions => match read_asr_form f with Ok data => Accepted data | Err _ => ShowAsrProviderDialog submissions end
  end.

(** ** Language model providers *)

Definition ValidateProviderInput (name base_url : bytes) : result unit :=
  if is_empty (trimmed name) then Err "Provider name must not be empty."
  else
    match url_from_user_input (trimmed base_url) with
    | Some (scheme, host) =>
        if is_empty scheme || is_empty host || (negb (scheme =b "http") && negb (scheme =b "https"))
        then Err "Base URL must be a valid http:// or https:// URL." else Ok tt
    | None => Err "Base URL must be a valid http:// or https:// URL."
    end.

Definition model_ids (data : list json) : list bytes :=
  filter (fun id => id <> []) ((fun v => match Find v "id" with Some (JString id) => id | _ => [] end) <$> data).
Definition removeDuplicates (l : list bytes) : list bytes := dedup id ∅ l.
Definition ParseOpenAiModelsResponse (payload : bytes) : result (list bytes) :=
  match json_document payload with
  | Some ((JObject _) as doc) =>
      match Find doc "data" with
      | Some (JArray data) => Ok (sort_strings (removeDuplicates (model_ids data)))
      | _ => Err "Provider returned invalid JSON for /v1/models."
      end
  | _ => Err "Provider returned invalid JSON for /v1/models."
  end.

Definition FormatScriptUpdateStatus (info : ResourceVersionInfo) (installed : bool) : bytes :=
  match vi_status info with
  | kIncompatible => "incompatible (requires vinput " ++ vi_vinput_version info ++ ")"
  | status =>
      if negb installed then "available"
      else
        match status with
        | kUpdateAvailable =>
            if negb (is_empty (vi_installed_version info)) && negb (is_empty (vi_remote_version info))
            then "update available (" ++ vi_installed_version info ++ " -> " ++ vi_remote_version info ++ ")" else "update available"
        | _ => if is_empty (vi_installed_version info) then "installed" else "installed (" ++ vi_installed_version info ++ ")"
        end
  end.

(** ** The models of a provider, in the dialog of a scene *)

Record ProviderInfo := { pi_id : bytes; pi_base_url : bytes; pi_api_key : bytes }.
Definition ProviderModelCacheKey (p : ProviderInfo) : bytes := pi_base_url p ++ [ch_nl] ++ pi_api_key p.
Definition LoadLlmProviders (config : CoreConfig) : list ProviderInfo :=
  filter (fun p => pi_id p <> [])
    ((fun p => {| pi_id := lp_id p; pi_base_url := lp_base_url p; pi_api_key := lp_api_key p |}) <$> llm_providers (cc_llm config)).

(** The request: its address, its bearer token and its time limit. *)
Definition StartOpenAiModelsRequest (env : bytes -> option bytes) (base_url api_key : bytes) (timeout_ms : Z) : bytes * option bytes * Z :=
  let key := InterpolateEnv env api_key in
  (JoinPath base_url "/models", if is_empty key then None else Some ("Bearer " ++ key), timeout_ms).

(** The editable box of models: inserting into an empty box selects the first item, clearing
    it empties its text. [desired]: the model to select once the list is there. *)
Record ModelBox := {
  mb_enabled : bool; mb_items : list bytes; mb_text : bytes; mb_desired : bytes; mb_generation : Z; mb_key : bytes;
}.
#[export] Instance ModelBox_fields : Fields ModelBox := fun b =>
  Build_ModelBox (mb_enabled b) (mb_items b) (mb_text b) (mb_desired b) (mb_generation b) (mb_key b).
(** [fetches]: the replies that are awaited; [cache]: the lists fetched before. *)
Record Fetch := { f_generation : Z; f_key : bytes; f_provider : bytes }.
Record ModelFetch := { box : ModelBox; cache : gmap bytes (list bytes); fetches : list Fetch; saved_models : list (bytes * list bytes) }.
#[export] Instance ModelFetch_fields : Fields ModelFetch := fun m => Build_ModelFetch (box m) (cache m) (fetches m) (saved_models m).

Definition clear_box (b : ModelBox) : ModelBox := b <| mb_items := [] |> <| mb_text := [] |>.
Definition select_desired (b : ModelBox) : ModelBox :=
  b <| mb_text := if is_empty (mb_desired b) then mb_text b else mb_desired b |> <| mb_desired := [] |>.
Definition ApplyFetchedProviderModels (models : list bytes) (b : ModelBox) : ModelBox :=
  select_desired (clear_box b <| mb_enabled := true |> <| mb_items := models |> <| mb_text := default [] (head models) |>).
Definition ApplyProviderModelFetchError (b : ModelBox) : ModelBox := select_desired (clear_box b <| mb_enabled := true |>).
Definition FetchModelsFromProviderAsync (p : ProviderInfo) (m : ModelFetch) : ModelFetch :=
  if is_empty (pi_base_url p) then m <| box := clear_box (box m) <| mb_enabled := true |> |>
  else
    let key := ProviderModelCacheKey p in
    let generation := (mb_generation (box m) + 1)%Z in
    let b := box m <| mb_generation := generation |> <| mb_key := key |> in
    match cache m !! key with
    | Some models => m <| box := ApplyFetchedProviderModels models b |>
    | None => m <| box := clear_box b <| mb_enabled := false |> |>
                <| fetches := fetches m ++ [{| f_generation := generation; f_key := key; f_provider := pi_id p |}] |>
    end.
(** A reply: the payload, or [None] for a network error. *)
Definition on_models_reply (i : nat) (payload : option bytes) (m : ModelFetch) : ModelFetch :=
  match fetches m !! i with
  | None => m
  | Some f =>
      let m := m <| fetches := delete i (fetches m) |> in
      let stale := negb (mb_generation (box m) =? f_generation f)%Z || negb (mb_key (box m) =b f_key f) in
      if stale then m
      else
        match (match payload with Some payload => ParseOpenAiModelsResponse payload | None => Err [] end) with
        | Ok models => m <| cache := <[f_key f := models]> (cache m) |> <| saved_models := saved_models m ++ [(f_provider f, models)] |>
                         <| box := ApplyFetchedProviderModels models (box m) |>
        | Err _ => m <| box := ApplyProviderModelFetchError (box m) |>
        end
  end.
Definition refreshModels (providers : list ProviderInfo) (selected : bytes) (m : ModelFetch) : ModelFetch :=
  if is_empty selected then m <| box := clear_box (box m) <| mb_enabled := true |> |>
  else match list_find (fun p => pi_id p = selected) providers with Some (_, p) => FetchModelsFromProviderAsync p m | None => m end.
Definition SetupProviderModelCombos (config : CoreConfig) (cache : gmap bytes (list bytes)) (currentProvider currentModel : bytes) : ModelFetch :=
  let m := {| box := {| mb_enabled := true; mb_items := []; mb_text := []; mb_desired := currentModel; mb_generation := 0; mb_key := [] |};
              cache := cache; fetches := []; saved_models := [] |} in
  if is_empty currentProvider then m
  else
    let providers := LoadLlmProviders config in
    (* a text that is not in the list leaves the selection at its first, empty entry *)
    refreshModels providers (if bool_decide (currentProvider ∈ pi_id <$> providers) then currentProvider else []) m.

(** ** Scenes *)

Record SceneForm := {
  sf_id : bytes; sf_label : bytes; sf_prompt : bytes; sf_provider : bytes; sf_model : bytes; sf_context : Z; sf_candidates : Z; sf_timeout : Z;
  sf_raw_cand : bool; sf_raw_prev : bool;
}.
Definition kDefaultUiLlmMaxCandidates : Z := 3.
(** The dialog before the user touches it; the model is what the box shows. *)
Definition scene_form (initial : option Scene) (provider model : bytes) : SceneForm :=
  match initial with
  | Some s =>
      {| sf_id := sc_id s; sf_label := sc_label s; sf_prompt := sc_prompt s; sf_provider := provider; sf_model := model;
         sf_context := spin 0 9999 (context_lines s); sf_candidates := spin kMinLlmMaxCandidates kMaxLlmMaxCandidates (llm_max_candidates s);
         sf_timeout := spin 1000 300000 (timeout_ms s); sf_raw_cand := raw_cand s; sf_raw_prev := raw_prev s |}
  | None =>
      {| sf_id := []; sf_label := []; sf_prompt := []; sf_provider := provider; sf_model := model; sf_context := kDefaultContextLines;
         sf_candidates := kDefaultUiLlmMaxCandidates; sf_timeout := kDefaultTimeoutMs; sf_raw_cand := true; sf_raw_prev := true |}
  end.
Definition read_scene_form (initial : option Scene) (f : SceneForm) : Scene :=
  default default_scene initial <| sc_id := trimmed (sf_id f) |> <| sc_label := trimmed (sf_label f) |> <| sc_prompt := trimmed (sf_prompt f) |>
    <| sc_provider_id := trimmed (sf_provider f) |> <| sc_model := trimmed (sf_model f) |> <| context_lines := sf_context f |>
    <| llm_max_candidates := sf_candidates f |> <| timeout_ms := sf_timeout f |> <| raw_cand := sf_raw_cand f |> <| raw_prev := sf_raw_prev f |>.

(** ** Download workers *)

(** [last]: the percentage and the time, in milliseconds, of the last signal. *)
Record Worker := { wk_cancelled : bool; wk_last : option (Z * Z) }.
Definition SetTask (w : Worker) : Worker := {| wk_cancelled := false; wk_last := None |}.
Definition CancelWorker (w : Worker) : Worker := {| wk_cancelled := true; wk_last := wk_last w |}.
Definition ReportProgress (now percent : Z) (w : Worker) : Worker * bool :=
  let emit := ({| wk_cancelled := wk_cancelled w; wk_last := Some (percent, now) |}, true) in
  if wk_cancelled w then (w, false)
  else
    match wk_last w with
    | None => emit
    | Some (last_percent, last_emit) =>
        if (percent <? 100)%Z && ((percent =? last_percent)%Z || (now - last_emit <? 100)%Z) then (w, false) else emit
    end.
(** The error signal at the end of a task. *)
Definition worker_run (task : result unit) (cancelled_at_end : bool) : option bytes :=
  match task with Err e => if cancelled_at_end then None else Some e | Ok _ => None end.

End forms.

(** ** What an editor gives back *)

Lemma JoinKeyValue_Join l d kv : JoinKeyValue l d kv = Join ((fun e => (e.1 ++ kv) ++ e.2) <$> l) d.
Proof.
  unfold JoinKeyValue, Join. destruct l as [|[k v] l]; [done|]. cbn. generalize ((k ++ kv) ++ v). induction l as [|[k' v'] l IH]; intros r; cbn; [done|]. apply IH.
Qed.
Lemma SplitOnce_app c k v : c ∉ k -> SplitOnce (k ++ c :: v) c = Some (k, v).
Proof.
  intros Hk. unfold SplitOnce, find_char, find_char_from. rewrite drop_0.
  assert (find_if (fun x => x =b c) (k ++ c :: v) = Some (length k)) as ->.
  { induction k as [|x k IH]; cbn; [by rewrite bool_decide_eq_true_2|]. rewrite bool_decide_eq_false_2 by set_solver. rewrite IH by set_solver. done. }
  cbn [fmap option_fmap option_map mbind option_bind Nat.add]. unfold substr. by rewrite drop_0, take_app_length, drop_app_add.
Qed.

Section round_trip.
Context `{Qt}.

(** A text that a line of the editor gives back: one line without blanks around it. *)
Definition clean (text : bytes) : Prop := text <> [] /\ trimmed text = text /\ ch_nl ∉ text.
Definition clean_entry (e : bytes * bytes) : Prop := e.1 <> [] /\ "="%char ∉ e.1 /\ clean (e.1 ++ "=" ++ e.2).

Lemma NonEmptyLines_Join lines : Forall clean lines -> NonEmptyLines (Join lines [ch_nl]) = lines.
Proof.
  intros Hc. unfold NonEmptyLines. destruct (decide (lines = [])) as [->|Hne].
  { cbn. by rewrite trimmed_nil. }
  rewrite split_ref_Join; [|done|by eapply Forall_impl; [exact Hc|]; intros x (_ & _ & ?)].
  clear Hne. induction Hc as [|line lines (Hl & Ht & _) _ IH]; [done|]. rewrite fmap_cons, Ht, filter_cons_True by done. by f_equal.
Qed.
Lemma parse_env_entries l env : NoDup l.*1 -> Forall clean_entry l ->
  parse_env ((fun e => (e.1 ++ "=") ++ e.2) <$> l) env = Ok (list_to_map l ∪ env).
Proof.
  revert env. induction l as [|[k v] l IH]; intros env Hnd Hc; [cbn; by rewrite (left_id_L ∅ (∪))|].
  apply Forall_cons in Hc as [(Hk & Heq & _) Hc]. apply NoDup_cons in Hnd as [Hn Hnd].
  rewrite fmap_cons. cbn [parse_env fst snd list_to_map foldr uncurry] in *. rewrite <- app_assoc. change (k ++ "=" ++ v) with (k ++ "="%char :: v).
  rewrite SplitOnce_app by done.
  destruct k as [|c k]; [done|]. rewrite IH by done. f_equal.
  rewrite <- insert_union_l, insert_union_r; [done|]. by apply not_elem_of_list_to_map_1.
Qed.

(** Opening the editor of a command and accepting it unchanged gives the same command,
    arguments and environment, as long as each of them fits on a line without blanks around
    it. *)
Theorem command_editor_roundtrip command args env :
  trimmed command = command -> Forall clean args -> map_Forall (fun k v => clean_entry (k, v)) env ->
  Extract (Populate command args env) = (command, args, Ok env).
Proof.
  intros Hc Ha He. unfold Extract, Populate, ParseCommandEnv. cbn [edit_command text_args text_env]. rewrite Hc, NonEmptyLines_Join by done.
  assert (Forall clean_entry (map_entries env)) as Hall.
  { apply Forall_forall. intros [k v] Hin. unfold map_entries in Hin. rewrite merge_sort_Permutation in Hin. by apply He, elem_of_map_to_list. }
  rewrite JoinKeyValue_Join, NonEmptyLines_Join.
  - rewrite parse_env_entries; [|unfold map_entries; rewrite merge_sort_Permutation; apply NoDup_fst_map_to_list|done].
    by rewrite list_to_map_entries, (right_id_L ∅ (∪)).
  - apply Forall_fmap. eapply Forall_impl; [exact Hall|]. intros [k v] (_ & _ & ?). cbn in *. by rewrite <- app_assoc.
Qed.

(** An accepted dialog keeps the identity of what it edits. *)
Lemma adapter_dialog_id initial submissions a : ShowAdapterDialog initial submissions = Accepted a -> la_id a = la_id initial.
Proof.
  induction submissions as [|[[editor auto]|] submissions IH]; cbn; [done| |done].
  destruct (ParseCommandEnv _); [|done]. by intros [= <-].
Qed.

(** Once the list of models is there, or could not be fetched, the box shows the model of the
    scene. *)
Lemma scene_model_shown config cache provider model p payload m :
  model <> [] -> provider <> [] -> list_find (fun p => pi_id p = provider) (LoadLlmProviders config) = Some p -> pi_base_url p.2 <> [] ->
  m = SetupProviderModelCombos config cache provider model ->
  mb_text (box (if fetches m is [] then m else on_models_reply 0 payload m)) = model.
Proof.
  intros Hm Hp Hf Hu ->. unfold SetupProviderModelCombos. destruct provider as [|c provider]; [done|]. cbn [is_empty].
  assert (c :: provider ∈ pi_id <$> LoadLlmProviders config) as Hin.
  { destruct p as [i p]. apply list_find_Some in Hf as (Hl & <- & _). apply list_elem_of_fmap. exists p. split; [done|]. by eapply list_elem_of_lookup_2. }
  rewrite bool_decide_eq_true_2 by done. unfold refreshModels. cbn [is_empty]. destruct p as [i p]. rewrite Hf. cbn in Hu.
  unfold FetchModelsFromProviderAsync. destruct (pi_base_url p) eqn:Hb; [done|]. cbn [is_empty box].
  cbn. destruct (cache !! _) as [models|] eqn:Hc; cbn.
  - by destruct model.
  - rewrite bool_decide_eq_true_2 by done. cbn. destruct payload as [payload|]; [destruct (ParseOpenAiModelsResponse payload)|]; cbn; by destruct model.
Qed.
End round_trip.

(** ** Witnesses *)

Module DemoForms.
Definition listing : json := JObject [("data"%bytes, JArray [JObject [("id"%bytes, JString "first-model")]; JObject [("id"%bytes, JString "gpt-x")]])].
#[export] Instance plain_qt : Qt :=
  {| trimmed := Trim; trimmed_nil := eq_refl; contains_ignoring_case h n := bool_decide (is_Some (find_sub h n)); sort_strings := id;
     url_from_user_input _ := None; json_document _ := Some listing |}.
Definition openai : LlmProvider :=
  {| lp_id := "openai"; lp_base_url := "https://api.example/v1"; lp_api_key := "k"; lp_json_object := true; lp_extra_body := EmptyObject |}.
Definition config : CoreConfig := default_core_config <| cc_llm := {| llm_providers := [openai]; llm_adapters := [] |} |>.
Definition rewrite_scene : Scene := default_scene <| sc_id := "rewrite" |> <| sc_provider_id := "openai" |> <| sc_model := "gpt-x" |>.
Definition opened : ModelFetch := SetupProviderModelCombos config ∅ "openai" "gpt-x".
End DemoForms.

Lemma command_editor_roundtrip_witness :
  Extract (H := DemoForms.plain_qt) (Populate "python3" ["-u"%bytes; "run me.py"] {["KEY"%bytes := "a=b"%bytes]}) =
  ("python3"%bytes, ["-u"%bytes; "run me.py"], Ok {["KEY"%bytes := "a=b"%bytes]}).
Proof.
  apply (command_editor_roundtrip (H := DemoForms.plain_qt) "python3" ["-u"%bytes; "run me.py"] {["KEY"%bytes := "a=b"%bytes]}).
  - vm_compute. reflexivity.
  - repeat constructor; try done; apply (bool_decide_unpack _); vm_compute; reflexivity.
  - apply map_Forall_singleton. repeat split; try done; apply (bool_decide_unpack _); vm_compute; reflexivity.
Defined.

(** Blanks around an argument are lost by an edit that changes nothing. *)
Example argument_blanks_lost : Extract (H := DemoForms.plain_qt) (Populate "sh" ["-c"%bytes; " ls "] ∅) = ("sh"%bytes, ["-c"%bytes; "ls"], Ok ∅).
Proof. vm_compute. reflexivity. Qed.
(** An empty argument disappears, and one of two lines becomes two. *)
Example arguments_split :
  Extract (H := DemoForms.plain_qt) (Populate "sh" ["-c"%bytes; "a" ++ [ch_nl] ++ "b"; []] ∅) = ("sh"%bytes, ["-c"%bytes; "a"; "b"], Ok ∅).
Proof. vm_compute. reflexivity. Qed.
(** Accepting the dialog of a scene before the models are listed clears its model. *)
Example model_lost_before_listing :
  let b := box DemoForms.opened in
  mb_text b = [] /\
  sc_model (read_scene_form (H := DemoForms.plain_qt) (Some DemoForms.rewrite_scene) (scene_form (Some DemoForms.rewrite_scene) "openai" (mb_text b))) = [].
Proof. vm_compute. done. Qed.
(** A reply for a provider that is no longer selected fills the box: clearing the selection
    does not begin a new generation. *)
Example late_reply_applied :
  let m := on_models_reply (H := DemoForms.plain_qt) 0 (Some []) (refreshModels (LoadLlmProviders DemoForms.config) [] DemoForms.opened) in
  mb_items (box m) = ["first-model"%bytes; "gpt-x"] /\ mb_text (box m) = "gpt-x".
Proof. vm_compute. done. Qed.
