(* ===== verification/SettingsWindow.v ===== *)
(** * The settings window (src/src/gui/pages, src/src/gui/app/mainwindow.cpp)

    The actions of the window that change the configuration, the installed resources or the
    daemon, over the interface [CliWorld] the command line tool uses as well. While a dialog
    or a question is open the event loop runs, and so do downloads in the background, other
    programs and the user's editor: [during] is what they do to the world in the meantime.
    A selection is the id stored in the selected row. An action prints boxes, log lines and
    signals, and may return early. Long calls of the daemon run in a thread; the action
    says that it starts one, and the thread and its continuation are definitions of their
    own. *)

From S2P Require Import Prelude StringUtils Json Scene CoreConfig ConfigCodec ConfigStore Dbus Registry Scripts ModelManager ModelInstall AudioCapture.
From S2P Require Import Floats CommandLine GuiForms.
From Stdlib Require Import Ascii.

Inductive BoxKind := Warning | Critical | Information.
Inductive Page := LlmList | AdapterList | SceneList | AsrList | Resources | AdapterButtons.
Inductive Shown := Box (kind : BoxKind) (text : bytes) | Log (text : bytes) | ConfigChanged | Refreshed (page : Page)
  | StartReload | StartAdapterControl (id : bytes) (start : bool) | StartModelsRequest (url key : bytes) | Closed.

Class GuiWorld (W : Type) := {
  gui_cli :: CliWorld W;
  write_text_file : bytes -> bytes -> W -> result unit * W;
  restart_service : W -> result unit * W;
}.

Section window.
Context {W : Type} `{GuiWorld W} `{Qt}.

Definition G (A : Type) : Type := W -> option A * list Shown * W.
#[local] Instance G_ret : MRet G := fun _ a w => (Some a, [], w).
#[local] Instance G_bind : MBind G := fun _ _ k m w =>
  match m w with
  | (Some a, out, w) => let '(r, out', w) := k a w in (r, out ++ out', w)
  | (None, out, w) => (None, out, w)
  end.
Definition see {A} (f : W -> A) : G A := fun w => (Some (f w), [], w).
Definition do_ {A} (f : W -> A * W) : G A := fun w => let '(a, w) := f w in (Some a, [], w).
Definition passes (f : W -> W) : G unit := fun w => (Some tt, [], f w).
Definition show_ (s : Shown) : G unit := fun w => (Some tt, [s], w).
Definition stop {A} : G A := fun w => (None, [], w).
Definition refuse {A} (kind : BoxKind) (text : bytes) : G A := show_ (Box kind text);; stop.
Definition on (b : bool) (m : G unit) : G unit := if b then m else mret tt.
Definition given {A} (o : option A) : G A := match o with Some a => mret a | None => stop end.

(** [ConfigManager]: each call is atomic, a load and a later save are not. *)
Definition Load : G CoreConfig := see load_config.
Definition Save (config : CoreConfig) : G bool := do_ (save_config config).
Definition save_or (kind : BoxKind) (config : CoreConfig) : G unit :=
  saved ← Save config;
  if saved : bool then mret tt else refuse kind "Failed to save config.".

(** ** The page of the language models (llm_page.cpp) *)

Definition extra_body_hint : bytes := "Extra body must be a JSON object (e.g. {" ++ [ch_quote] ++ "enable_thinking" ++ [ch_quote] ++ ": false}).".
Definition ParseExtraBodyInput (text : bytes) : result json :=
  let raw := trimmed text in
  if is_empty raw then Ok EmptyObject
  else if negb (IsSingleJsonValue raw) then Err extra_body_hint
  else
    match parse_json raw with
    | Err e => Err ("Invalid extra_body JSON: " ++ e)
    | Ok parsed => if is_object parsed then Ok parsed else Err extra_body_hint
    end.

Record ProviderForm := { lf_name : bytes; lf_base_url : bytes; lf_api_key : bytes; lf_extra_body : bytes }.
Record ProviderFormResult := { fr_id : bytes; fr_base_url : bytes; fr_api_key : bytes; fr_extra_body : json }.
Definition read_provider_form (f : ProviderForm) : result ProviderFormResult :=
  let name := trimmed (lf_name f) in
  let base_url := trimmed (lf_base_url f) in
  match ValidateProviderInput name base_url with
  | Err e => Err e
  | Ok _ =>
      match ParseExtraBodyInput (lf_extra_body f) with
      | Err e => Err e
      | Ok extra => Ok {| fr_id := name; fr_base_url := base_url; fr_api_key := trimmed (lf_api_key f); fr_extra_body := extra |}
      end
  end.
(** Shown once: a refused form is not shown again. The name of an existing provider cannot
    be edited. *)
Definition ShowProviderDialog (initial : option bytes) (submission : option ProviderForm) (during : W -> W) : G ProviderFormResult :=
  passes during;;
  f ← given submission;
  let f := match initial with Some name => {| lf_name := name; lf_base_url := lf_base_url f; lf_api_key := lf_api_key f; lf_extra_body := lf_extra_body f |} | None => f end in
  match read_provider_form f with Ok r => mret r | Err e => refuse Warning e end.

Definition add_provider (r : ProviderFormResult) (c : CoreConfig) : CoreConfig :=
  with_llm_providers c (llm_providers (cc_llm c) ++
    [{| lp_id := fr_id r; lp_base_url := fr_base_url r; lp_api_key := fr_api_key r; lp_json_object := true; lp_extra_body := fr_extra_body r |}]).
Definition onLlmAdd (submission : option ProviderForm) (during : W -> W) : G unit :=
  r ← ShowProviderDialog None submission during;
  config ← Load;
  match ViewLlmProvider config (fr_id r) with
  | Some _ => refuse Warning (quoted "LLM provider " (fr_id r) " already exists.")
  | None => save_or Warning (add_provider r config);; show_ (Refreshed LlmList);; show_ ConfigChanged
  end.

(** The key stays when the field is left empty. *)
Definition edit_provider (id : bytes) (r : ProviderFormResult) (c : CoreConfig) : option CoreConfig :=
  '(i, p) ← list_find (fun p => lp_id p = id) (llm_providers (cc_llm c));
  Some (with_llm_providers c (<[i := {| lp_id := lp_id p; lp_base_url := fr_base_url r;
                                         lp_api_key := if is_empty (fr_api_key r) then lp_api_key p else fr_api_key r;
                                         lp_json_object := lp_json_object p; lp_extra_body := fr_extra_body r |}]> (llm_providers (cc_llm c)))).
Definition onLlmEdit (selected : option bytes) (submission : option ProviderForm) (during : W -> W) : G unit :=
  id ← given selected;
  config ← Load;
  _ ← given (ViewLlmProvider config id);
  r ← ShowProviderDialog (Some id) submission during;
  match edit_provider id r config with Some edited => save_or Warning edited | None => mret tt end;;
  show_ (Refreshed LlmList);; show_ ConfigChanged.

(** The number of scenes that used the provider, and the configuration without it. *)
Definition remove_provider (id : bytes) (c : CoreConfig) : option (Z * CoreConfig) :=
  '(i, _) ← list_find (fun p => lp_id p = id) (llm_providers (cc_llm c));
  let '(cleared, sc) := ClearProviderReferences (ToSceneConfig (cc_scenes c)) id in
  let c := with_llm_providers c (delete i (llm_providers (cc_llm c))) in
  Some (cleared, if (0 <? cleared)%Z then c <| cc_scenes := FromSceneConfig sc |> else c).
Definition ask_user (yes : bool) (during : W -> W) : G unit := passes during;; if yes then mret tt else stop.
Definition onLlmRemove (selected : option bytes) (yes : bool) (during : W -> W) : G unit :=
  id ← given selected;
  ask_user yes during;;
  config ← Load;
  cleared ← match remove_provider id config with
            | Some (cleared, edited) => passes (remove_models id);; save_or Warning edited;; mret cleared
            | None => mret 0%Z
            end;
  show_ (Refreshed LlmList);; show_ (Refreshed SceneList);; show_ ConfigChanged;;
  on (0 <? cleared)%Z (show_ (Box Information (quoted "Removed provider " id (" and cleared it from " ++ to_string cleared ++ " scene(s).")))).

Definition onLlmTest (selected : option bytes) : G unit :=
  id ← given selected;
  config ← Load;
  match ViewLlmProvider config id with
  | None => refuse Warning (quoted "Provider " id " not found.")
  | Some p =>
      if is_empty (lp_base_url p) then refuse Warning "Provider base_url is empty."
      else show_ (StartModelsRequest (lp_base_url p) (lp_api_key p))
  end.
Definition on_test_reply (id : bytes) (payload : result bytes) : G unit :=
  match payload with
  | Err e => show_ (Box Warning (quoted "Connection to " id (" failed:" ++ [ch_nl] ++ e)))
  | Ok payload =>
      match ParseOpenAiModelsResponse payload with
      | Err _ => show_ (Box Warning (quoted "Invalid response from " id "."))
      | Ok models =>
          passes (save_models id models);;
          show_ (Box Information (quoted "Connected to " id ("." ++ [ch_nl] ++ "Found " ++ to_string (Z.of_nat (length models)) ++ " model(s)." ++
            (if is_empty (Join models [ch_nl]) then [] else [ch_nl; ch_nl] ++ Join models [ch_nl]))))
      end
  end.

Definition edit_adapter (id : bytes) (a : LlmAdapter) (c : CoreConfig) : option CoreConfig :=
  '(i, _) ← list_find (fun a => la_id a = id) (llm_adapters (cc_llm c)); Some (with_llm_adapters c (<[i := a]> (llm_adapters (cc_llm c)))).
Definition AdapterTitleForGui (i18n : I18nMap) (id : bytes) : bytes := LookupI18n i18n (id ++ ".title") id.
Definition accepted {A} (d : Dialog A) : option A := match d with Accepted a => Some a | _ => None end.
Definition onAdapterEdit (i18n : I18nMap) (selected : option bytes) (submissions : list (option (CommandEditor * bool))) (during : W -> W) : G unit :=
  id ← given selected;
  config ← Load;
  match list_find (fun a => la_id a = id) (llm_adapters (cc_llm config)) with
  | None => refuse Warning (quoted "Adapter " (AdapterTitleForGui i18n id) " not found in configuration.")
  | Some (_, current) =>
      passes during;;
      updated ← given (accepted (ShowAdapterDialog current submissions));
      edited ← given (edit_adapter id updated config);
      save_or Critical edited;;
      show_ (Refreshed AdapterList);; show_ ConfigChanged
  end.
Definition remove_adapter (id : bytes) (c : CoreConfig) : option CoreConfig :=
  let rest := filter (fun a => la_id a <> id) (llm_adapters (cc_llm c)) in
  if bool_decide (length rest = length (llm_adapters (cc_llm c))) then None else Some (with_llm_adapters c rest).
Definition onAdapterRemove (selected : option bytes) (yes : bool) (during : W -> W) : G unit :=
  id ← given selected;
  ask_user yes during;;
  running ← see (adapter_running id);
  on running (_ ← do_ (daemon_stop_adapter id); mret tt);;
  config ← Load;
  edited ← given (remove_adapter id config);
  passes (remove_script kLlmAdapter id);;
  save_or Critical edited;;
  show_ (Refreshed AdapterList);; show_ ConfigChanged.

(** Starting and stopping an adapter: in a thread, with both buttons disabled. *)
Definition executeAdapterControl (selected : option bytes) (start : bool) : G unit :=
  id ← given selected; show_ (StartAdapterControl id start).
Definition adapter_control_job (id : bytes) (start : bool) : G (result unit) :=
  do_ (if start then daemon_start_adapter id else daemon_stop_adapter id).
Definition on_adapter_controlled (title : bytes) (announce start : bool) (r : result unit) : G unit :=
  match r with
  | Ok _ => on (announce && start) (show_ (Box Information (quoted "Adapter " title " started.")));; show_ (Refreshed AdapterList)
  | Err e => show_ (Refreshed AdapterButtons);; show_ (Box Warning e)
  end.

Definition SceneLabelForGui (s : Scene) : bytes :=
  if (sc_id s =b kRawSceneId) || (sc_label s =b kRawSceneLabelKey) then "Raw"
  else if (sc_id s =b kCommandSceneId) || (sc_label s =b kCommandSceneLabelKey) then "Command"
  else if is_empty (sc_label s) then sc_id s else sc_label s.
Definition MutateSceneConfig (action : SceneConfig -> result SceneConfig) : G unit :=
  config ← Load;
  match edit_scenes_with action config with
  | Err e => refuse Warning e
  | Ok edited => save_or Warning edited
  end.
Definition scene_changed : G unit := show_ (Refreshed SceneList);; show_ ConfigChanged.
Definition onSceneAdd (submission : option SceneForm) (during : W -> W) : G unit :=
  passes during;;
  f ← given submission;
  MutateSceneConfig (fun sc => AddScene sc (read_scene_form None f));; scene_changed.
Definition onSceneEdit (selected : option bytes) (submission : option SceneForm) (during : W -> W) : G unit :=
  id ← given selected;
  config ← Load;
  found ← given (FindScene (definitions (cc_scenes config)) id);
  passes during;;
  f ← given submission;
  MutateSceneConfig (fun sc => UpdateScene sc id (read_scene_form (Some found) f));; scene_changed.
Definition onSceneRemove (selected : option bytes) (yes : bool) (during : W -> W) : G unit :=
  id ← given selected;
  ask_user yes during;;
  MutateSceneConfig (fun sc => RemoveScene sc id true);; scene_changed.
Definition onSceneSetActive (selected : option bytes) : G unit :=
  id ← given selected;
  MutateSceneConfig (fun sc => SetActiveScene sc id);; scene_changed.

(** ** The page of the controls (control_page.cpp) *)

Definition ReloadAsrBackend : G (bool * bytes) :=
  running ← do_ daemon_running;
  if negb (running : bool * bytes).1 then mret (is_empty running.2, running.2)
  else
    reloaded ← do_ daemon_reload;
    mret (match reloaded with Ok _ => (true, []) | Err e => (false, e) end).
Definition on_reloaded (r : bool * bytes) : G unit :=
  on (negb r.1) (show_ (Box Warning ("Config saved, but failed to reload ASR backend: " ++ r.2))).

Definition provider_data (p : AsrProvider) : AsrProviderData :=
  match p with
  | LocalAsrProvider id timeout model _ =>
      {| ap_id := id; ap_type := kLocalProviderType; ap_timeout_ms := timeout; ap_model := model; ap_command := []; ap_args := []; ap_env := ∅ |}
  | CommandAsrProvider id timeout command args env =>
      {| ap_id := id; ap_type := kCommandProviderType; ap_timeout_ms := timeout; ap_model := []; ap_command := command; ap_args := args; ap_env := env |}
  end.
(** A local provider is built without its id and its hotwords. *)
Definition provider_of (d : AsrProviderData) : AsrProvider :=
  if ap_type d =b kLocalProviderType then LocalAsrProvider [] (ap_timeout_ms d) (ap_model d) []
  else CommandAsrProvider (ap_id d) (ap_timeout_ms d) (ap_command d) (ap_args d) (ap_env d).
Definition edit_asr_provider (id : bytes) (d : AsrProviderData) (c : CoreConfig) : CoreConfig :=
  with_asr_providers c (filter (fun p => AsrProviderId p <> id) (asr_providers (cc_asr c)) ++ [provider_of d]).
Definition onAsrEdit (selected : option bytes) (submissions : list (option AsrProviderForm)) (during : W -> W) : G unit :=
  id ← given selected;
  config ← Load;
  _ ← given (list_find (fun p => AsrProviderId p = id) (asr_providers (cc_asr config)));
  passes during;;
  updated ← given (accepted (ShowAsrProviderDialog submissions));
  save_or Critical (edit_asr_provider id updated config);;
  show_ (Refreshed AsrList);; show_ ConfigChanged;; show_ StartReload.
Definition onAsrSetActive (selected : option bytes) : G unit :=
  id ← given selected;
  config ← Load;
  save_or Critical (with_active_provider id config);;
  show_ (Refreshed AsrList);; show_ ConfigChanged;; show_ StartReload.
Definition set_autostart (id : bytes) (checked : bool) (c : CoreConfig) : option CoreConfig :=
  '(i, a) ← list_find (fun a => la_id a = id) (llm_adapters (cc_llm c));
  if Bool.eqb (la_autoStart a) checked then None
  else Some (with_llm_adapters c (<[i := {| la_id := la_id a; la_command := la_command a; la_args := la_args a; la_env := la_env a;
                                            la_autoStart := checked |}]> (llm_adapters (cc_llm c)))).
Definition onAdapterAutostartToggled (selected : option bytes) (checked : bool) : G unit :=
  id ← given selected;
  config ← Load;
  edited ← given (set_autostart id checked config);
  save_or Critical edited;;
  show_ (Refreshed AdapterList);; show_ ConfigChanged.

(** ** The page of the resources (resource_page.cpp) *)

Definition onUseModelClicked (selected : option bytes) : G unit :=
  id ← given selected;
  config ← Load;
  match SetPreferredLocalModel config id with
  | Err e => refuse Critical e
  | Ok edited => save_or Critical edited;; show_ (Refreshed Resources);; show_ ConfigChanged;; show_ StartReload
  end.
Definition clear_model (c : CoreConfig) : CoreConfig :=
  match SetPreferredLocalModel c [] with Ok c => c | Err _ => c end.
Definition onRemoveModelClicked (selected : option bytes) (yes : bool) (during : W -> W) : G unit :=
  id ← given selected;
  ask_user yes during;;
  config ← Load;
  let reload_backend := PreferredLocalModel config =b id in
  removed ← do_ (remove_model id);
  match removed with Err e => refuse Warning e | Ok _ => mret tt end;;
  on reload_backend (save_or Warning (clear_model config));;
  show_ (Log ("Removed " ++ id ++ "."));; show_ (Refreshed Resources);; show_ ConfigChanged;;
  on reload_backend (show_ StartReload).

Definition CleanupInstalledScript (kind : Kind) (id : bytes) : G unit := passes (remove_script kind id);; passes (unregister_script id).

(** The task of a download worker; [cancelled]: the token at each of the three places it is
    read. The error text is the worker's. *)
Record TaskTokens := { tk_fetched : bool; tk_downloaded : bool; tk_materialized : bool }.
Definition restart_adapter (stopped : bool) (id err : bytes) : G (result unit) :=
  if negb stopped then mret (if is_empty err then Ok tt else Err err)
  else
    started ← do_ (daemon_start_adapter id);
    mret (match started with
          | Ok _ => if is_empty err then Ok tt else Err err
          | Err e => Err (err ++ (if is_empty err then [] else "; ") ++ (if is_empty e then "Failed to restart adapter." else e))
          end).
(** The task fails, after the adapter was started again. *)
Definition abandon (stopped : bool) (id err : bytes) : G (result unit) :=
  r ← restart_adapter stopped id err; mret (match r with Ok _ => Err [] | Err e => Err e end).
Definition install_entry (kind : Kind) (id : bytes) (entry : RegistryEntry) (stopped : bool) (tk : TaskTokens) : G (result unit) :=
  script ← do_ (download_script entry kind);
  match script with
  | Err e => abandon stopped id e
  | Ok path =>
      if tk_downloaded tk then abandon stopped id []
      else
        config ← Load;
        match (match kind with kAsrProvider => materialize_provider config entry path | kLlmAdapter => materialize_adapter config entry path [] end) with
        | Err e => abandon stopped id e
        | Ok edited =>
            if tk_materialized tk then abandon stopped id []
            else
              saved ← Save edited;
              if saved : bool then restart_adapter stopped id [] else abandon stopped id "Failed to save configuration."
        end
  end.
Definition ExecuteScriptInstallOrUpdateTask (kind : Kind) (id : bytes) (is_update : bool) (tk : TaskTokens) : G (result unit) :=
  config ← Load;
  entries ← do_ (fetch_scripts kind config (registry_urls kind config));
  match entries with
  | Err e => mret (Err e)
  | Ok entries =>
      if tk_fetched tk then mret (Err [])
      else
        match list_find (fun e => sc_id_ e = id) entries with
        | None => mret (Err (match kind with kAsrProvider => "Provider not found in registry." | kLlmAdapter => "Adapter not found in registry." end))
        | Some (_, entry) =>
            running ← see (adapter_running id);
            if match kind with kLlmAdapter => is_update && running | kAsrProvider => false end then
              stopped ← do_ (daemon_stop_adapter id);
              match stopped with
              | Err e => mret (Err (if is_empty e then "Failed to stop adapter." else e))
              | Ok _ => install_entry kind id entry true tk
              end
            else install_entry kind id entry false tk
        end
  end.

(** Removing a script: a running adapter is stopped first, and started again when the
    configuration cannot be saved. *)
Definition removeScriptItem (kind : Kind) (selected : option bytes) (yes : bool) (during : W -> W)
    (mutate : bytes -> CoreConfig -> G CoreConfig) (post_remove : CoreConfig -> G unit) : G unit :=
  id ← given selected;
  ask_user yes during;;
  running ← see (adapter_running id);
  let stops := match kind with kLlmAdapter => running | kAsrProvider => false end in
  on stops (stopped ← do_ (daemon_stop_adapter id);
            match stopped with Ok _ => mret tt | Err _ => refuse Warning "Failed to stop adapter." end);;
  config ← Load;
  edited ← mutate id config;
  saved ← Save edited;
  (if saved : bool then mret tt
   else on stops (_ ← do_ (daemon_start_adapter id); mret tt);; refuse Critical "Failed to save config.");;
  CleanupInstalledScript kind id;;
  show_ (Log id);; show_ (Refreshed Resources);; show_ ConfigChanged;;
  post_remove config.
Definition drop_provider (id : bytes) (c : CoreConfig) : option (bool * CoreConfig) :=
  '(i, p) ← list_find (fun p => AsrProviderId p = id) (asr_providers (cc_asr c));
  if is_local p then None
  else
    let was_active := activeProvider (cc_asr c) =b id in
    let c := with_asr_providers c (delete i (asr_providers (cc_asr c))) in
    Some (was_active, if was_active then with_active_provider [] c else c).
Definition mutate_provider (id : bytes) (c : CoreConfig) : G CoreConfig :=
  match list_find (fun p => AsrProviderId p = id) (asr_providers (cc_asr c)) with
  | None => stop
  | Some (_, p) =>
      if is_local p then refuse Warning "The local ASR provider cannot be removed." else given (snd <$> drop_provider id c)
  end.
Definition onRemoveProviderClicked (selected : option bytes) (yes : bool) (during : W -> W) : G unit :=
  removeScriptItem kAsrProvider selected yes during mutate_provider
    (fun config => on (match selected with Some id => activeProvider (cc_asr config) =b id | None => false end) (show_ StartReload)).
Definition drop_adapter (id : bytes) (c : CoreConfig) : option CoreConfig :=
  '(i, _) ← list_find (fun a => la_id a = id) (llm_adapters (cc_llm c)); Some (with_llm_adapters c (delete i (llm_adapters (cc_llm c)))).
Definition onRemoveAdapterClicked (selected : option bytes) (yes : bool) (during : W -> W) : G unit :=
  removeScriptItem kLlmAdapter selected yes during (fun id c => given (drop_adapter id c)) (fun _ => mret tt).

(** ** The main window (mainwindow.cpp) *)

(** The fields the button "Save Settings" reads: those of the control page and of the page of
    the hotwords. [lround] and the spin box of the gain are Qt's and the C library's. *)
Record SettingsForm := {
  fm_devices : list (bytes * bytes);      (* the entries of the box: text and name *)
  fm_index : nat; fm_normalize : bool; fm_gain : flt; fm_vad : bool; fm_duck : bool; fm_duck_percent : Z;
  fm_hotwords_file : bytes; fm_hotwords_text : bytes;
}.
Definition default_entry : bytes * bytes := ("default"%bytes, "default"%bytes).
Definition device_entry (d : DeviceInfo) : bytes * bytes := (if is_empty (description d) then dev_name d else description d, dev_name d).
(** [ControlPage::reload]: the last entry of that name is selected, the first one else. *)
Definition device_index (devices : list DeviceInfo) (active : bytes) : nat :=
  foldl (fun index i => match devices !! i with Some d => if dev_name d =b active then S i else index | None => index end) 0 (seq 0 (length devices)).
Definition control_reload (round_gain : flt -> flt) (round_percent : flt -> Z) (devices : list DeviceInfo) (c : CoreConfig) (f : SettingsForm) : SettingsForm :=
  {| fm_devices := default_entry :: (device_entry <$> devices); fm_index := device_index devices (captureDevice (cc_global c));
     fm_normalize := normalizeAudio (cc_asr c); fm_gain := round_gain (inputGain (cc_asr c)); fm_vad := vad_enabled (asr_vad (cc_asr c));
     fm_duck := duckOutputWhileRecording (cc_global c); fm_duck_percent := spin 0 100 (round_percent (duckOutputVolume (cc_global c)));
     fm_hotwords_file := fm_hotwords_file f; fm_hotwords_text := fm_hotwords_text f |}.
(** [HotwordPage::reload]: a file that cannot be read leaves the text of before. *)
Definition hotwords_reload (read : bytes -> option bytes) (c : CoreConfig) (f : SettingsForm) : SettingsForm :=
  let path := default [] (head (omap (fun p => match p with LocalAsrProvider _ _ _ hotwords => Some hotwords | _ => None end) (asr_providers (cc_asr c)))) in
  {| fm_devices := fm_devices f; fm_index := fm_index f; fm_normalize := fm_normalize f; fm_gain := fm_gain f; fm_vad := fm_vad f; fm_duck := fm_duck f;
     fm_duck_percent := fm_duck_percent f; fm_hotwords_file := path;
     fm_hotwords_text := if is_empty path then [] else default (fm_hotwords_text f) (read path) |}.
Definition currentDevice (f : SettingsForm) : bytes :=
  match fm_devices f !! fm_index f with Some (text, name) => if is_empty name then text else name | None => [] end.

Definition apply_settings (f : SettingsForm) (c : CoreConfig) : CoreConfig :=
  let device := currentDevice f in
  let file := trimmed (fm_hotwords_file f) in
  let asr := cc_asr c in
  c <| cc_global := {| captureDevice := if is_empty device || (device =b "default") then [] else device; duckOutputWhileRecording := fm_duck f;
                       duckOutputVolume := SpecFloat.SFdiv f64_prec f64_emax (f64_of_Z (fm_duck_percent f)) (f64_of_Z 100) |} |>
    <| cc_asr := asr <| normalizeAudio := fm_normalize f |> <| inputGain := fm_gain f |>
         <| asr_vad := {| vad_enabled := fm_vad f; vad_threshold := vad_threshold (asr_vad asr); minSpeechDuration := minSpeechDuration (asr_vad asr);
                          minSilenceDuration := minSilenceDuration (asr_vad asr); speechPadMs := speechPadMs (asr_vad asr) |} |>
         <| asr_providers := set_hotwords file <$> asr_providers asr |> |>.
Definition onSaveClicked (f : SettingsForm) : G unit :=
  config ← Load;
  let file := trimmed (fm_hotwords_file f) in
  on (negb (is_empty file)) (
    written ← do_ (write_text_file file (fm_hotwords_text f));
    match written with Ok _ => mret tt | Err _ => refuse Critical "Failed to save hotwords file." end);;
  save_or Critical (apply_settings f config);;
  restarted ← do_ restart_service;
  match restarted with
  | Err e => refuse Critical e
  | Ok _ => show_ (Box Information "Settings saved successfully!");; show_ Closed
  end.

End window.

(** ** What an action leaves *)

Section actions.
Context {W : Type} `{GuiWorld W} `{Qt}.
#[local] Existing Instances G_ret G_bind.
#[local] Abbreviation G := (G (W := W)).

Definition after {A} (m : G A) (w : W) : CoreConfig := load_config (m w).2.

Lemma after_some {A B} (m : G A) (a : A) (k : A -> G B) w out w' : m w = (Some a, out, w') -> after (m ≫= k) w = after (k a) w'.
Proof. intros Hm. unfold after, mbind, G_bind. rewrite Hm. by destruct (k a w') as [[??]?]. Qed.
Lemma after_none {A B} (m : G A) (k : A -> G B) w out w' : m w = (None, out, w') -> after (m ≫= k) w = load_config w'.
Proof. intros Hm. unfold after, mbind, G_bind. by rewrite Hm. Qed.
Lemma after_assoc {A B C} (m : G A) (k1 : A -> G B) (k2 : B -> G C) w : after ((m ≫= k1) ≫= k2) w = after (m ≫= fun a => k1 a ≫= k2) w.
Proof.
  unfold after, mbind, G_bind. destruct (m w) as [[[a|] out] w1]; [|done]. destruct (k1 a w1) as [[[b|] out1] w2]; [|done].
  by destruct (k2 b w2) as [[??]?].
Qed.
Lemma after_ret {A B} (a : A) (k : A -> G B) w : after (mret a ≫= k) w = after (k a) w. Proof. by eapply after_some. Qed.
Lemma after_see {A B} (f : W -> A) (k : A -> G B) w : after (see f ≫= k) w = after (k (f w)) w. Proof. by eapply after_some. Qed.
Lemma after_load {B} (k : CoreConfig -> G B) w : after (Load ≫= k) w = after (k (load_config w)) w. Proof. by eapply after_some. Qed.
Lemma after_passes {B} f (k : unit -> G B) w : after (passes f ≫= k) w = after (k tt) (f w). Proof. by eapply after_some. Qed.
Lemma after_do {A B} (f : W -> A * W) (k : A -> G B) w : after (do_ f ≫= k) w = after (k (f w).1) (f w).2.
Proof. eapply after_some. unfold do_. by destruct (f w). Qed.
Lemma after_show {B} s (k : unit -> G B) w : after (show_ s ≫= k) w = after (k tt) w. Proof. by eapply after_some. Qed.
Lemma after_given {A B} (o : option A) (k : A -> G B) w : after (given o ≫= k) w = match o with Some a => after (k a) w | None => load_config w end.
Proof. destruct o; [apply after_ret | by eapply after_none]. Qed.
Lemma after_refuse {A B} kind text (k : A -> G B) w : after (refuse kind text ≫= k) w = load_config w. Proof. by eapply after_none. Qed.
Lemma after_question {B} yes during (k : unit -> G B) w :
  after (ask_user yes during ≫= k) w = if yes then after (k tt) (during w) else load_config (during w).
Proof. unfold ask_user. rewrite after_assoc, after_passes. destruct yes; [apply after_ret | by eapply after_none]. Qed.
Lemma after_save {B} kind c (k : unit -> G B) w :
  after (save_or kind c ≫= k) w = let '(saved, w') := save_config c w in if saved then after (k tt) w' else load_config w'.
Proof.
  unfold save_or, Save. rewrite after_assoc, after_do. destruct (save_config c w) as [[] w']; cbn [fst snd]; [apply after_ret | apply after_refuse].
Qed.
Lemma after_tail s w : after (show_ s) w = load_config w. Proof. done. Qed.
End actions.
Create Rewrite HintDb gui.
#[export] Hint Rewrite @after_assoc @after_ret @after_see @after_load @after_passes @after_do @after_show @after_given @after_refuse @after_question
  @after_tail : gui.
#[global] Arguments after : simpl never.

(** The actions that edit the configuration. *)
Inductive SettingsAction :=
  | LlmAdd (submission : option ProviderForm) | LlmEdit (selected : option bytes) (submission : option ProviderForm)
  | LlmRemove (selected : option bytes) (yes : bool)
  | AdapterEdit (selected : option bytes) (submissions : list (option (CommandEditor * bool))) | AdapterRemove (selected : option bytes) (yes : bool)
  | SceneAdd (submission : option SceneForm) | SceneEdit_ (selected : option bytes) (submission : option SceneForm)
  | SceneRemove (selected : option bytes) (yes : bool) | SceneSetActive (selected : option bytes)
  | AsrEdit (selected : option bytes) (submissions : list (option AsrProviderForm)) | AsrSetActive (selected : option bytes)
  | AutostartToggled (selected : option bytes) (checked : bool) | UseModel (selected : option bytes)
  | RemoveProvider (selected : option bytes) (yes : bool).

Section editing_window.
Context {W : Type} `{GuiWorld W} `{Qt}.
#[local] Existing Instances G_ret G_bind.

Definition act_on (a : SettingsAction) (during : W -> W) : G (W := W) unit :=
  match a with
  | LlmAdd submission => onLlmAdd submission during
  | LlmEdit selected submission => onLlmEdit selected submission during
  | LlmRemove selected yes => onLlmRemove selected yes during
  | AdapterEdit selected submissions => onAdapterEdit ∅ selected submissions during
  | AdapterRemove selected yes => onAdapterRemove selected yes during
  | SceneAdd submission => onSceneAdd submission during
  | SceneEdit_ selected submission => onSceneEdit selected submission during
  | SceneRemove selected yes => onSceneRemove selected yes during
  | SceneSetActive selected => onSceneSetActive selected
  | AsrEdit selected submissions => onAsrEdit selected submissions during
  | AsrSetActive selected => onAsrSetActive selected
  | AutostartToggled selected checked => onAdapterAutostartToggled selected checked
  | UseModel selected => onUseModelClicked selected
  | RemoveProvider selected yes => onRemoveProviderClicked selected yes during
  end.

(** Whether a dialog or a question opens. *)
Definition opens (a : SettingsAction) (c : CoreConfig) : bool :=
  match a with
  | LlmAdd _ | SceneAdd _ => true
  | LlmEdit (Some id) _ => bool_decide (is_Some (ViewLlmProvider c id))
  | AdapterEdit (Some id) _ => bool_decide (is_Some (list_find (fun a => la_id a = id) (llm_adapters (cc_llm c))))
  | SceneEdit_ (Some id) _ => bool_decide (is_Some (FindScene (definitions (cc_scenes c)) id))
  | AsrEdit (Some id) _ => bool_decide (is_Some (list_find (fun p => AsrProviderId p = id) (asr_providers (cc_asr c))))
  | LlmRemove (Some _) _ | AdapterRemove (Some _) _ | SceneRemove (Some _) _ | RemoveProvider (Some _) _ => true
  | _ => false
  end.

(** The configuration an action asks for, given the one before its dialog and the one after:
    three edits start from the former. *)
Definition asked (a : SettingsAction) (before now : CoreConfig) : option CoreConfig :=
  let scenes_now := ToSceneConfig (cc_scenes now) in
  match a with
  | LlmAdd submission =>
      f ← submission; r ← as_option (read_provider_form f); guard (ViewLlmProvider now (fr_id r) = None);; Some (add_provider r now)
  | LlmEdit selected submission =>
      id ← selected; _ ← ViewLlmProvider before id; f ← submission;
      r ← as_option (read_provider_form {| lf_name := id; lf_base_url := lf_base_url f; lf_api_key := lf_api_key f; lf_extra_body := lf_extra_body f |});
      edit_provider id r before
  | LlmRemove selected yes => id ← selected; guard (yes = true);; snd <$> remove_provider id now
  | AdapterEdit selected submissions =>
      id ← selected; '(_, current) ← list_find (fun a => la_id a = id) (llm_adapters (cc_llm before));
      a ← accepted (ShowAdapterDialog current submissions); edit_adapter id a before
  | AdapterRemove selected yes => id ← selected; guard (yes = true);; remove_adapter id now
  | SceneAdd submission => f ← submission; wanted_scenes now (AddScene scenes_now (read_scene_form None f))
  | SceneEdit_ selected submission =>
      id ← selected; s ← FindScene (definitions (cc_scenes before)) id; f ← submission;
      wanted_scenes now (UpdateScene scenes_now id (read_scene_form (Some s) f))
  | SceneRemove selected yes => id ← selected; guard (yes = true);; wanted_scenes now (RemoveScene scenes_now id true)
  | SceneSetActive selected => id ← selected; wanted_scenes now (SetActiveScene scenes_now id)
  | AsrEdit selected submissions =>
      id ← selected; _ ← list_find (fun p => AsrProviderId p = id) (asr_providers (cc_asr before));
      d ← accepted (ShowAsrProviderDialog submissions); Some (edit_asr_provider id d before)
  | AsrSetActive selected => id ← selected; Some (with_active_provider id now)
  | AutostartToggled selected checked => id ← selected; set_autostart id checked now
  | UseModel selected => id ← selected; as_option (SetPreferredLocalModel now id)
  | RemoveProvider selected yes => id ← selected; guard (yes = true);; snd <$> drop_provider id now
  end.

Class GuiStore (saved : CoreConfig -> CoreConfig) := {
  gs_store :: CliStore saved;
  gs_stop_adapter id : leaves_config (daemon_stop_adapter id);
  gs_start_adapter id : leaves_config (daemon_start_adapter id);
  gs_download entry kind : leaves_config (download_script entry kind);
  gs_remove_script kind id w : load_config (remove_script kind id w) = load_config w;
  gs_unregister id w : load_config (unregister_script id w) = load_config w;
}.
Context (saved : CoreConfig -> CoreConfig) `{!GuiStore saved}.

(** The request is carried out as a whole, or nothing happens: because there is no request,
    or because the store cannot be written. *)
Definition settled (goal : option CoreConfig) (before after : CoreConfig) : Prop :=
  match goal with
  | None => after = before
  | Some c => after = saved c \/ after = before /\ exists w, (save_config c w).1 = false
  end.

Lemma settled_save {B} kind c (k : unit -> G (W := W) B) w : (forall w, after (k tt) w = load_config w) ->
  settled (Some c) (load_config w) (after (save_or kind c ≫= k) w).
Proof.
  intros Hk. rewrite after_save. destruct (save_config c w) as [[] w'] eqn:Hs; cbn.
  - left. rewrite Hk. by eapply save_true.
  - right. split; [by eapply save_false|]. exists w. by rewrite Hs.
Qed.
Lemma settled_mutate (f : SceneConfig -> result SceneConfig) w :
  settled (wanted_scenes (load_config w) (f (ToSceneConfig (cc_scenes (load_config w))))) (load_config w)
    (after (MutateSceneConfig (W := W) f;; scene_changed) w).
Proof.
  unfold MutateSceneConfig. rewrite after_assoc, after_load. unfold edit_scenes_with, wanted_scenes. destruct (f _);
    [by apply settled_save | apply after_refuse].
Qed.
Lemma after_dialog {B} initial submission during (k : ProviderFormResult -> G (W := W) B) w :
  after (ShowProviderDialog initial submission during ≫= k) w =
  match (f ← submission;
         as_option (read_provider_form (match initial with
           | Some name => {| lf_name := name; lf_base_url := lf_base_url f; lf_api_key := lf_api_key f; lf_extra_body := lf_extra_body f |}
           | None => f end))) with
  | Some r => after (k r) (during w)
  | None => load_config (during w)
  end.
Proof.
  unfold ShowProviderDialog. rewrite after_assoc, after_passes, after_assoc, after_given. destruct submission as [f|]; cbn; [|done].
  destruct initial; cbn; (destruct (read_provider_form _); cbn; [apply after_ret | apply after_refuse]).
Qed.
(** Stopping an adapter does not touch the configuration. *)
Lemma after_stop_adapter {B} (b : bool) id (k : unit -> G (W := W) B) w :
  exists w', load_config w' = load_config w /\ after (on b (_ ← do_ (daemon_stop_adapter id); mret tt) ≫= k) w = after (k tt) w'.
Proof.
  destruct b; cbn [on]; [|exists w; by rewrite after_ret].
  exists (daemon_stop_adapter id w).2. rewrite after_assoc, after_do, after_ret. split; [apply gs_stop_adapter|done].
Qed.
Lemma settled_remove_provider id w :
  settled (snd <$> drop_provider id (load_config w)) (load_config w)
    (after (edited ← mutate_provider (W := W) id (load_config w);
            saved ← Save edited;
            (if saved : bool then mret tt else on false (_ ← do_ (daemon_start_adapter id); mret tt);; refuse Critical "Failed to save config.");;
            CleanupInstalledScript kAsrProvider id;;
            show_ (Log id);; show_ (Refreshed Resources);; show_ ConfigChanged;;
            on (activeProvider (cc_asr (load_config w)) =b id) (show_ StartReload)) w).
Proof.
  unfold mutate_provider, drop_provider. destruct (list_find _ _) as [[i p]|]; cbn [mbind option_bind]; [|done].
  destruct (is_local p); [by rewrite after_refuse|]. cbn [fmap option_fmap option_map snd given]. rewrite after_ret. unfold Save. rewrite after_do.
  match goal with |- context [save_config ?c w] => destruct (save_config c w) as [[] w'] eqn:Hs end; cbn [fst snd].
  - left. rewrite after_ret. unfold CleanupInstalledScript. rewrite after_assoc, after_passes, after_passes, !after_show.
    transitivity (load_config w'); [|by eapply save_true].
    destruct (_ =b _); unfold after; cbn; by rewrite gs_unregister, gs_remove_script.
  - right. rewrite after_assoc. cbn [on]. rewrite after_ret, after_refuse. split; [by eapply save_false|]. exists w. by rewrite Hs.
Qed.
End editing_window.
#[global] Arguments settled : simpl never.


(** ** Updating an adapter that runs *)

Section updating.
Context {W : Type} `{GuiWorld W} `{Qt} (saved : CoreConfig -> CoreConfig) `{!GuiStore (W := W) saved}.
#[local] Existing Instances G_ret G_bind.

(** How a task that has stopped the adapter ends: the last thing it does is to start it. *)
Definition ends_started (id : bytes) (entry : RegistryEntry) (before : CoreConfig) (end_ : option (result unit) * list Shown * W) : Prop :=
  (exists w1, end_.2 = (daemon_start_adapter id w1).2) /\
  (load_config end_.2 = before \/ exists path c, materialize_adapter before entry path [] = Ok c /\ load_config end_.2 = saved c) /\
  (end_.1.1 = Some (Ok tt) -> exists path c, materialize_adapter before entry path [] = Ok c /\ load_config end_.2 = saved c).

Lemma abandon_started id entry before err w : load_config w = before -> ends_started id entry before (abandon true id err w).
Proof.
  intros Hw. pose proof (gs_start_adapter id w) as Hl. unfold abandon, restart_adapter, mbind, G_bind, do_, mret, G_ret. cbn [negb].
  destruct (daemon_start_adapter id w) as [r w'] eqn:Hs. cbn in Hl. split_and!; cbn.
  - exists w. by rewrite Hs.
  - left. congruence.
  - destruct r; [destruct (is_empty err)|]; done.
Qed.
Lemma install_started id entry tk w : ends_started id entry (load_config w) (install_entry kLlmAdapter id entry true tk w).
Proof.
  unfold install_entry, mbind at 1, G_bind at 1, do_. pose proof (gs_download entry kLlmAdapter w) as Hd.
  destruct (download_script entry kLlmAdapter w) as [[path|e] w1]; cbn in Hd.
  2: { pose proof (abandon_started id entry (load_config w) e w1 Hd) as Ha. by destruct (abandon true id e w1) as [[??]?]. }
  destruct (tk_downloaded tk).
  { pose proof (abandon_started id entry (load_config w) [] w1 Hd) as Ha. by destruct (abandon true id [] w1) as [[??]?]. }
  unfold mbind at 1, G_bind at 1, Load, see. rewrite Hd.
  destruct (materialize_adapter (load_config w) entry path []) as [edited|e] eqn:Hm.
  2: { pose proof (abandon_started id entry (load_config w) e w1 Hd) as Ha. by destruct (abandon true id e w1) as [[??]?]. }
  destruct (tk_materialized tk).
  { pose proof (abandon_started id entry (load_config w) [] w1 Hd) as Ha. by destruct (abandon true id [] w1) as [[??]?]. }
  unfold mbind at 1, G_bind at 1, Save, do_. destruct (save_config edited w1) as [[] w2] eqn:Hs.
  - apply save_true in Hs. unfold restart_adapter, mbind, G_bind, do_, mret, G_ret. cbn [negb].
    pose proof (gs_start_adapter id w2) as Hl. destruct (daemon_start_adapter id w2) as [r w'] eqn:Hst. cbn in Hl.
    split_and!; cbn; [exists w2; by rewrite Hst | right | intros _]; exists path, edited; (split; [done|congruence]).
  - apply save_false in Hs. rewrite Hd in Hs.
    pose proof (abandon_started id entry (load_config w) "Failed to save configuration." w2 Hs) as Ha.
    by destruct (abandon true id _ w2) as [[??]?].
Qed.
End updating.

(** C32. An update that has stopped a running adapter starts it again as its last step, whatever
    fails in between: the download, the new entry, the store, or because the user cancels.
    The configuration is the old one or the one with the new entry, and a reported success
    means the latter. *)
Theorem adapter_update_restarts {W} `{GuiWorld W} `{Qt} (saved : CoreConfig -> CoreConfig) `{!GuiStore (W := W) saved} id tk w entries w1 i entry w2 :
  fetch_scripts kLlmAdapter (load_config w) (registry_urls kLlmAdapter (load_config w)) w = (Ok entries, w1) -> tk_fetched tk = false ->
  list_find (fun e => sc_id_ e = id) entries = Some (i, entry) -> adapter_running id w1 = true -> daemon_stop_adapter id w1 = (Ok tt, w2) ->
  ends_started saved id entry (load_config w) (ExecuteScriptInstallOrUpdateTask kLlmAdapter id true tk w).
Proof.
  intros Hf Ht He Hr Hs. assert (load_config w2 = load_config w) as Hw.
  { pose proof (gs_stop_adapter (saved := saved) id w1) as H1. rewrite Hs in H1. cbn in H1. rewrite H1.
    pose proof (cl_scripts (saved := saved) kLlmAdapter (load_config w) (registry_urls kLlmAdapter (load_config w)) w) as H2. by rewrite Hf in H2. }
  unfold ExecuteScriptInstallOrUpdateTask, mbind, G_bind, Load, see, do_. rewrite Hf, Ht, He, Hr. cbn. rewrite Hs, <- Hw.
  pose proof (install_started saved id entry tk w2) as Hi. by destruct (install_entry kLlmAdapter id entry true tk w2) as [[??]?].
Qed.

(** ** Witnesses *)

Module DemoWindow.
#[export] Existing Instances Demo.World_fields Demo.demo_cli Demo.demo_store DemoForms.plain_qt.
#[export] Instance demo_gui : GuiWorld Demo.World := {| gui_cli := Demo.demo_cli; write_text_file _ _ w := (Ok tt, w); restart_service w := (Ok tt, w) |}.
#[export] Instance demo_gui_store : GuiStore (W := Demo.World) saved_demo.
Proof. split; try done. apply Demo.demo_store. Qed.

(** Another program installs an adapter while a dialog is open. *)
Definition helper : LlmAdapter := {| la_id := "adapter.demo.helper"; la_command := "python3"; la_args := []; la_env := ∅; la_autoStart := false |}.
Definition installs_helper (w : Demo.World) : Demo.World :=
  w <| Demo.d_config := saved_demo (with_llm_adapters (Demo.d_config w) (llm_adapters (cc_llm (Demo.d_config w)) ++ [helper])) |>.
Definition adapters_of (c : CoreConfig) : list bytes := la_id <$> llm_adapters (cc_llm c).

Definition submitted : CommandEditor * bool := ({| edit_command := "node"; text_args := "run.js"; text_env := [] |}, true).
Definition edit_rewriter : SettingsAction := AdapterEdit (Some "adapter.demo.rewriter"%bytes) [Some submitted].
End DemoWindow.
#[local] Existing Instances DemoWindow.demo_gui DemoWindow.demo_gui_store.
#[local] Existing Instances Demo.World_fields Demo.demo_cli Demo.demo_store DemoForms.plain_qt.

Lemma adapter_update_restarts_witness :
  ends_started (H := DemoWindow.demo_gui) saved_demo "adapter.demo.rewriter" Demo.rewriter (load_config Demo.world)
    (ExecuteScriptInstallOrUpdateTask kLlmAdapter "adapter.demo.rewriter" true {| tk_fetched := false; tk_downloaded := true; tk_materialized := false |} Demo.world).
Proof.
  apply (adapter_update_restarts (H := DemoWindow.demo_gui) (H0 := DemoForms.plain_qt) saved_demo "adapter.demo.rewriter" {| tk_fetched := false; tk_downloaded := true; tk_materialized := false |} Demo.world
    [Demo.rewriter] Demo.world 0 Demo.rewriter (Demo.world <| Demo.d_running := [] |>)); vm_compute; reflexivity.
Defined.

(** ** What the window gets wrong *)

(** An adapter that is installed while the dialog of another one is open is lost when the
    dialog is accepted; the dialog of a scene does not lose it. *)
Example edit_loses_concurrent_install :
  DemoWindow.adapters_of (after (act_on DemoWindow.edit_rewriter DemoWindow.installs_helper) Demo.world) = ["adapter.demo.rewriter"%bytes] /\
  DemoWindow.adapters_of (after (act_on (SceneSetActive (Some kRawSceneId)) id) (DemoWindow.installs_helper Demo.world)) =
    ["adapter.demo.rewriter"%bytes; "adapter.demo.helper"].
Proof. vm_compute. done. Qed.
(** Choosing the type "local" for a command provider removes it: the new provider has no id,
    and the store drops it. *)
Example local_type_removes_provider :
  let form := {| pf_name := "provider.demo.cloud"; pf_type := kLocalProviderType; pf_timeout := 5000; pf_model := "paraformer";
                 pf_editor := {| edit_command := []; text_args := []; text_env := [] |} |} in
  let c := after (act_on (AsrEdit (Some "provider.demo.cloud"%bytes) [Some form]) id) Demo.world in
  bool_decide ("provider.demo.cloud"%bytes ∈ AsrProviderId <$> asr_providers (cc_asr c)) = false.
Proof. vm_compute. done. Qed.
(** "Save Settings" forgets a capture device that is not plugged in at the moment. *)
Example unplugged_device_forgotten :
  let c := Demo.config <| cc_global := {| captureDevice := "usb-mic"; duckOutputWhileRecording := false; duckOutputVolume := f64_of_Z 0 |} |> in
  let blank := {| fm_devices := []; fm_index := 0; fm_normalize := false; fm_gain := f64_of_Z 1; fm_vad := false; fm_duck := false; fm_duck_percent := 0;
                  fm_hotwords_file := []; fm_hotwords_text := [] |} in
  let form := control_reload id (fun _ => 0%Z) [] c blank in
  captureDevice (cc_global (apply_settings form c)) = [].
Proof. vm_compute. done. Qed.
