(* ===== verification/ResourcePage.v ===== *)
(** * Tables, refreshes and downloads of the settings window (src/src/gui/pages, src/src/gui/app)

    The rows of the tables, their filter and the buttons they enable, as functions of the
    configuration and the registry; the lists of the other pages; and the refresh of the
    page as a state machine: a refresh fetches the registry in a thread, then reloads the
    translations in another one ([I18nCache], utils/i18n_cache.cpp), and only then is the
    button enabled again. Each of them carries a generation. Downloads run in workers, of
    which the page follows one; the news of the project are shown once. *)

From S2P Require Import Prelude StringUtils Floats Json Scene CoreConfig Supervisor Dbus Registry Scripts ModelManager ModelInstall GuiForms CommandLine SettingsWindow.
From Stdlib Require Import Ascii.

(** ** Rows *)

(** A cell: its text, and its data when there is any. *)
Abbreviation Cell := (bytes * bytes)%type.
Definition MakeCell (text data : bytes) : Cell := (text, data).
Definition text_cell (text : bytes) : Cell := MakeCell text [].

Section tables.
Context `{Qt} (i18n : I18nMap).

Definition ResolveLocalizedTitle (id : bytes) : bytes :=
  let title := LookupI18n i18n (id ++ ".title") [] in if is_empty title then id else title.

Definition cell_matches (needle : bytes) (c : Cell) : bool := contains_ignoring_case (c.1 ++ [ch_nl] ++ c.2) needle.
(** [None]: a cell that was never set. Whether the row stays visible. *)
Definition row_visible (filter_text : bytes) (row : list (option Cell)) : bool :=
  let needle := trimmed filter_text in is_empty needle || existsb (fun c => match c with Some c => cell_matches needle c | None => false end) row.
Definition ApplyTableFilter (filter_text : bytes) (rows : list (list (option Cell))) : list bool := row_visible filter_text <$> rows.

Record SelectedResourceItem := { sel_id : bytes; sel_title : bytes }.
(** [current]: the current row of the table, which is the selected one if any is. *)
Definition GetSelectedResourceItem (rows : list (list (option Cell))) (has_selection : bool) (current : Z) : option SelectedResourceItem :=
  if negb has_selection || (current <? 0)%Z then None
  else
    row ← rows !! Z.to_nat current; name ← row !! 0; name ← name;
    Some {| sel_id := name.2; sel_title := if is_empty name.1 then name.2 else name.1 |}.

Definition script_row (kind : Kind) (e : RegistryEntry) (installed : bool) (info : ResourceVersionInfo) : list Cell :=
  [MakeCell (ResolveLocalizedTitle (sc_id_ e)) (sc_id_ e); text_cell (LookupI18n i18n (sc_id_ e ++ ".description") [])] ++
  (match kind with kAsrProvider => [text_cell (if sc_stream e then "stream" else "non-stream")] | kLlmAdapter => [] end) ++
  [text_cell (FormatScriptUpdateStatus info installed);
   if is_empty (readme_url e) then text_cell "-" else MakeCell "Open README" (readme_url e)].
Definition script_installed (kind : Kind) (c : CoreConfig) (id : bytes) : bool :=
  match kind with kAsrProvider => bool_decide (is_Some (ViewAsrProvider c id)) | kLlmAdapter => bool_decide (is_Some (ViewLlmAdapter c id)) end.
Definition PopulateRemoteScripts (kind : Kind) (c : CoreConfig) (version : RegistryEntry -> bool -> ResourceVersionInfo) (entries : list RegistryEntry)
  : list (list Cell) :=
  (fun e => let installed := script_installed kind c (sc_id_ e) in script_row kind e installed (version e installed)) <$> entries.

Definition state_text (s : ModelState) : bytes := match s with Active => "active" | Broken => "broken" | _ => "installed" end.
Context (FormatFileSize : N -> bytes).
Definition populateLocalModels (models : list ModelSummary) : list (list Cell) :=
  (fun m => [MakeCell (ResolveLocalizedTitle (sm_id m)) (sm_id m); text_cell (sm_type m); text_cell (sm_language m); text_cell (FormatFileSize (sm_size m));
             text_cell (if sm_hotwords m then "yes" else "no"); text_cell (state_text (sm_state m))]) <$> models.
Definition populateRemoteModels (local_ids : list bytes) (models : list RemoteModelEntry) : list (list Cell) :=
  (fun m => [MakeCell (ResolveLocalizedTitle (re_id m)) (re_id m); text_cell (LookupI18n i18n (re_id m ++ ".description") []); text_cell (entry_model_type m);
             text_cell (re_language m); text_cell (FormatFileSize (re_size_bytes m)); text_cell (if entry_supports_hotwords m then "yes" else "no");
             text_cell (if bool_decide (re_id m ∈ local_ids) then "installed" else "available")]) <$> models.

(** The buttons for a script: install, update and remove. *)
Definition UpdateScriptActionButtons (selected : option SelectedResourceItem) (installed : bytes -> bool) (status : option UpdateStatus) : bool * bool * bool :=
  match selected with
  | None => (false, false, false)
  | Some s =>
      let installed := installed (sel_id s) in
      let incompatible := bool_decide (status = Some kIncompatible) in
      (negb installed && negb incompatible, installed && negb incompatible, installed)
  end.

(** ** The lists of the other pages *)

Definition dot : bytes := " "%char :: ascii_of_N 194 :: ascii_of_N 183 :: [" "%char].
(** Rows as text and id. *)
Definition llm_rows (c : CoreConfig) : list Cell := (fun p => (lp_id p ++ " @ " ++ lp_base_url p, lp_id p)) <$> llm_providers (cc_llm c).
Definition adapter_rows (running : bytes -> bool) (c : CoreConfig) : list Cell :=
  (fun a => (LookupI18n i18n (la_id a ++ ".title") (la_id a) ++ dot ++ (if running (la_id a) then "running" else "stopped") ++ dot ++
             (if la_autoStart a then "autostart" else "manual") ++ (if is_empty (la_command a) then [] else dot ++ la_command a), la_id a))
  <$> llm_adapters (cc_llm c).
Definition scene_rows (c : CoreConfig) : list Cell :=
  (fun s => (SceneLabelForGui s ++ (if sc_id s =b activeScene (cc_scenes c) then " *" else []), sc_id s)) <$> definitions (cc_scenes c).

(** What is known of a provider: which one is configured, which one works, which one is
    being loaded or failed to load. *)
Definition asr_markers (c : CoreConfig) (state : option AsrBackendState) (id : bytes) : list bytes :=
  let same f := match state with Some s => f s =b id | None => is_empty id end in
  let effective := same effective_provider_id in
  let target := same target_provider_id in
  let loading := match state with Some s => reload_in_progress s | None => false end in
  let failed := match state with Some s => negb (is_empty (last_error s)) | None => false end in
  (if activeProvider (cc_asr c) =b id then ["configured" : bytes] else []) ++ (if effective then ["effective" : bytes] else []) ++
  (if loading && target && negb effective then ["loading" : bytes] else []) ++ (if failed && target then ["reload failed" : bytes] else []).
Definition asr_row (c : CoreConfig) (state : option AsrBackendState) (p : AsrProvider) : Cell :=
  let id := AsrProviderId p in
  let markers := asr_markers c state id in
  (LookupI18n i18n (id ++ ".title") id ++ " [" ++ AsrProviderType p ++ "]" ++
   (match p with
    | LocalAsrProvider _ _ model _ => dot ++ (if is_empty model then "(not set)" else LookupI18n i18n (model ++ ".title") model)
    | CommandAsrProvider _ _ command _ _ => dot ++ command
    end) ++ (if is_empty markers then [] else dot ++ Join markers ", ") ++
   (match state with
    | Some s => if (effective_provider_id s =b id) && negb (is_empty (remote_endpoints s)) then dot ++ Join (remote_endpoints s) " / " else []
    | None => []
    end), id).
Definition populateAsrList (c : CoreConfig) (state : option AsrBackendState) : list Cell := asr_row c state <$> asr_providers (cc_asr c).

(** The buttons of the adapters: start, stop, autostart, and whether it is checked. *)
Definition updateAdapterButtons (item : option (bool * bool)) : bool * bool * bool * bool :=
  match item with None => (false, false, false, false) | Some (running, autostart) => (negb running, running, true, autostart) end.
(** The edit button is for command providers. *)
Definition updateAsrButtons (item_type : option bytes) : bool * bool :=
  match item_type with None => (false, false) | Some type => (negb (type =b kLocalProviderType), true) end.
(** The label of the daemon and its three buttons. *)
Definition refreshDaemonStatus (running : bool) (status : result bytes) (state : option AsrBackendState) : bytes * (bool * bool * bool) :=
  if negb running then ("Stopped", (true, false, false))
  else
    (match status with
     | Err e => "Running (Status Error: " ++ e ++ ")"
     | Ok status =>
         match state with
         | Some s => if reload_in_progress s then "Running: " ++ status ++ " (loading backend)"
                     else if negb (is_empty (last_error s)) then "Running: " ++ status ++ " (backend error)" else "Running: " ++ status
         | None => "Running: " ++ status
         end
     end, (false, true, true)).
End tables.

(** ** Refreshes *)

(** [fetching], [loading]: the generations of the threads that have not reported yet;
    [remote]: the generation whose lists the tables show. *)
Record Refresh := {
  refreshGeneration : nat; refreshWaitingForI18n : bool; i18nWaitGeneration : nat; button : bool; i18nGeneration : nat;
  remote : option nat; fetching : list nat; loading : list nat;
}.
#[export] Instance Refresh_fields : Fields Refresh := fun r =>
  Build_Refresh (refreshGeneration r) (refreshWaitingForI18n r) (i18nWaitGeneration r) (button r) (i18nGeneration r) (remote r) (fetching r) (loading r).
(** After the constructors: [LoadFromDiskSync] has run once. *)
Definition opened_page : Refresh :=
  {| refreshGeneration := 0; refreshWaitingForI18n := false; i18nWaitGeneration := 0; button := true; i18nGeneration := 1; remote := None;
     fetching := []; loading := [] |}.

Definition refreshAll (r : Refresh) : Refresh :=
  let generation := S (refreshGeneration r) in
  r <| refreshGeneration := generation |> <| refreshWaitingForI18n := false |> <| i18nWaitGeneration := 0 |> <| button := false |>
    <| fetching := fetching r ++ [generation] |>.
(** [I18nCache::ReloadFromDisk]: the new generation, and the thread. *)
Definition ReloadFromDisk (r : Refresh) : nat * Refresh :=
  let generation := S (i18nGeneration r) in (generation, r <| i18nGeneration := generation |> <| loading := loading r ++ [generation] |>).
(** The reply of the [i]-th thread that fetches the registry. *)
Definition on_fetched (i : nat) (r : Refresh) : Refresh :=
  match fetching r !! i with
  | None => r
  | Some generation =>
      let r := r <| fetching := delete i (fetching r) |> in
      if negb (generation =? refreshGeneration r)%nat then r
      else
        let r := r <| remote := Some generation |> <| refreshWaitingForI18n := true |> in
        let '(wait, r) := ReloadFromDisk r in r <| i18nWaitGeneration := wait |>
  end.
(** The tables are painted again in any case; only the reload that this refresh waits for
    ends it, with or without an error. *)
Definition finishRefreshAfterI18n (generation : nat) (r : Refresh) : Refresh :=
  if negb (refreshWaitingForI18n r) || negb (generation =? i18nWaitGeneration r)%nat then r
  else r <| refreshWaitingForI18n := false |> <| i18nWaitGeneration := 0 |> <| button := true |>.
(** The reply of the [i]-th thread that reads the translations. *)
Definition on_loaded (i : nat) (r : Refresh) : Refresh :=
  match loading r !! i with
  | None => r
  | Some generation =>
      let r := r <| loading := delete i (loading r) |> in
      if negb (generation =? i18nGeneration r)%nat then r else finishRefreshAfterI18n generation r
  end.

(** The user asks for refreshes, threads report in any order. *)
Inductive job_step : Refresh -> Refresh -> Prop :=
  | js_fetched i r : i < length (fetching r) -> job_step r (on_fetched i r)
  | js_loaded i r : i < length (loading r) -> job_step r (on_loaded i r).
Inductive page_step : Refresh -> Refresh -> Prop :=
  | ps_refresh r : page_step r (refreshAll r)
  | ps_job r r' : job_step r r' -> page_step r r'.

(** The page rests, waits for its own fetch, or waits for its own reload of the translations. *)
Inductive phase_of (r : Refresh) : Prop :=
  | Resting : button r = true -> refreshWaitingForI18n r = false -> refreshGeneration r ∉ fetching r ->
      (refreshGeneration r = 0 \/ remote r = Some (refreshGeneration r)) -> phase_of r
  | Fetching : button r = false -> refreshWaitingForI18n r = false -> refreshGeneration r ∈ fetching r -> phase_of r
  | Waiting : button r = false -> refreshWaitingForI18n r = true -> i18nWaitGeneration r = i18nGeneration r -> i18nGeneration r ∈ loading r ->
      refreshGeneration r ∉ fetching r -> remote r = Some (refreshGeneration r) -> phase_of r.
Record refresh_inv (r : Refresh) : Prop := {
  ri_phase : phase_of r;
  ri_fetching : Forall (fun g => g <= refreshGeneration r) (fetching r) /\ NoDup (fetching r);
  ri_loading : Forall (fun g => g <= i18nGeneration r) (loading r) /\ NoDup (loading r);
}.

Lemma snoc_fresh (l : list nat) n : Forall (fun g => g <= n) l /\ NoDup l -> Forall (fun g => g <= S n) (l ++ [S n]) /\ NoDup (l ++ [S n]).
Proof.
  intros [Hf Hn]. split.
  - apply Forall_app. split; [eapply Forall_impl; [exact Hf|]; cbn; lia | by repeat constructor].
  - apply NoDup_app. split_and!; [done| |apply NoDup_singleton]. intros x Hx ->%list_elem_of_singleton. rewrite Forall_forall in Hf. specialize (Hf _ Hx). lia.
Qed.
Lemma delete_bounded (l : list nat) i n : Forall (fun g => g <= n) l /\ NoDup l -> Forall (fun g => g <= n) (delete i l) /\ NoDup (delete i l).
Proof. intros [Hf Hn]. split; [by apply Forall_delete | by eapply sublist_NoDup, sublist_delete]. Qed.
Lemma elem_of_delete_other (l : list nat) i x y : l !! i = Some x -> x <> y -> (y ∈ delete i l <-> y ∈ l).
Proof.
  intros Hi Hne. rewrite delete_take_drop. rewrite <- (take_drop_middle l i x Hi) at 3. rewrite !elem_of_app, elem_of_cons. split; [tauto|]. intros [?|[?|?]]; [tauto|congruence|tauto].
Qed.
Lemma elem_of_delete_self (l : list nat) i x : l !! i = Some x -> NoDup l -> x ∉ delete i l.
Proof.
  intros Hi Hn. rewrite delete_take_drop. rewrite <- (take_drop_middle l i x Hi) in Hn. apply NoDup_app in Hn as (_ & Hd & Hr). apply NoDup_cons in Hr as [Hr _].
  rewrite elem_of_app. intros [Hx|Hx]; [|done]. apply (Hd x Hx). by left.
Qed.

Lemma refreshAll_inv r : refresh_inv r -> refresh_inv (refreshAll r).
Proof.
  intros [_ Hf Hl]. constructor; [apply Fetching; cbn; [done..|set_solver] | by apply snoc_fresh | done].
Qed.
Lemma on_fetched_inv i r : refresh_inv r -> refresh_inv (on_fetched i r).
Proof.
  intros Hr. unfold on_fetched. destruct (fetching r !! i) as [g|] eqn:Hi; [|done]. destruct Hr as [Hp Hf Hl]. cbn.
  destruct (Nat.eqb_spec g (refreshGeneration r)) as [->|Hne]; cbn.
  - assert (refreshGeneration r ∈ fetching r) as Hin by by eapply list_elem_of_lookup_2. destruct Hf as [Hf Hn].
    constructor; cbn; [|by apply delete_bounded|by apply snoc_fresh].
    destruct Hp as [? ? Hno|Hb _ _|? ? ? ? Hno]; [done| |done]. apply Waiting; cbn; [done..|set_solver| |done]. by apply elem_of_delete_self.
  - pose proof (elem_of_delete_other _ _ _ (refreshGeneration r) Hi Hne) as Hd.
    constructor; cbn; [|by apply delete_bounded|done].
    destruct Hp; [apply Resting | apply Fetching | apply Waiting]; cbn; rewrite ?Hd; done.
Qed.
Lemma on_loaded_inv i r : refresh_inv r -> refresh_inv (on_loaded i r).
Proof.
  intros Hr. unfold on_loaded. destruct (loading r !! i) as [g|] eqn:Hi; [|done]. destruct Hr as [Hp Hf Hl]. cbn.
  destruct (Nat.eqb_spec g (i18nGeneration r)) as [->|Hne]; cbn; unfold finishRefreshAfterI18n; cbn.
  - destruct Hp as [? Hw|? Hw|? Hw Hg ? ? ?]; rewrite Hw; cbn.
    + constructor; cbn; [by apply Resting | done | by apply delete_bounded].
    + constructor; cbn; [by apply Fetching | done | by apply delete_bounded].
    + rewrite Hg, Nat.eqb_refl. cbn. constructor; cbn; [apply Resting; cbn; auto | done | by apply delete_bounded].
  - pose proof (elem_of_delete_other _ _ _ (i18nGeneration r) Hi Hne) as Hd.
    constructor; cbn; [|done|by apply delete_bounded].
    destruct Hp; [by apply Resting | by apply Fetching | apply Waiting; cbn; rewrite ?Hd; done].
Qed.
Lemma page_reachable r : rtc page_step opened_page r -> refresh_inv r.
Proof.
  intros Hr. assert (refresh_inv opened_page) as H0.
  { constructor; cbn; [apply Resting; cbn; [done..|set_solver|by left] | by repeat constructor | by repeat constructor]. }
  revert H0. induction Hr as [|x y z Hs _ IH]; [done|]. intros Hx. apply IH. destruct Hs as [|? ? []]; [by apply refreshAll_inv | by apply on_fetched_inv | by apply on_loaded_inv].
Qed.

(** The reports still to come: a fetch may be followed by a reload. *)
Definition pending (r : Refresh) : nat := 2 * length (fetching r) + length (loading r).
Lemma job_decreases r r' : job_step r r' -> pending r' < pending r.
Proof.
  unfold pending. intros [i r0 Hi|i r0 Hi].
  - unfold on_fetched. destruct (fetching r0 !! i) as [g|] eqn:E; [|apply lookup_ge_None in E; lia]. pose proof (length_delete _ _ (mk_is_Some _ _ E)) as Hd. cbn.
    destruct (negb _); cbn; rewrite ?length_app; cbn; lia.
  - unfold on_loaded. destruct (loading r0 !! i) as [g|] eqn:E; [|apply lookup_ge_None in E; lia]. pose proof (length_delete _ _ (mk_is_Some _ _ E)) as Hd. cbn.
    destruct (negb _); cbn; [lia|]. unfold finishRefreshAfterI18n. cbn. destruct (_ || _); cbn; lia.
Qed.

Definition both_asked : Refresh := refreshAll (refreshAll opened_page).
Definition two_refreshes : Refresh := on_loaded 0 (on_fetched 0 (on_fetched 1 both_asked)).
Lemma two_refreshes_reachable : rtc page_step opened_page two_refreshes.
Proof.
  apply (rtc_l _ _ (refreshAll opened_page)); [apply ps_refresh|]. apply (rtc_l _ _ both_asked); [apply ps_refresh|].
  apply (rtc_l _ _ (on_fetched 1 both_asked)); [apply ps_job, (js_fetched 1 both_asked), le_n|].
  apply (rtc_l _ _ (on_fetched 0 (on_fetched 1 both_asked))); [apply ps_job, (js_fetched 0 (on_fetched 1 both_asked)), le_n|].
  apply rtc_once, ps_job, (js_loaded 0 (on_fetched 0 (on_fetched 1 both_asked))), le_n.
Qed.

(** ** Downloads *)

(** [workers]: those that run, and whether their signals still reach the page; [buttons]: the
    ones for models; [progress]: whether the progress is visible. *)
Record Downloads := { current : option nat; workers : list (nat * bool); buttons : bool; progress : bool; next_worker : nat }.
#[export] Instance Downloads_fields : Fields Downloads := fun d => Build_Downloads (current d) (workers d) (buttons d) (progress d) (next_worker d).
Definition no_downloads : Downloads := {| current := None; workers := []; buttons := true; progress := false; next_worker := 0 |}.

Definition abortDownload (d : Downloads) : Downloads :=
  match current d with
  | None => d
  | Some c => d <| current := None |> <| workers := (fun '(w, connected) => (w, connected && negb (w =? c)%nat)) <$> workers d |>
  end.
Definition start_worker (d : Downloads) : Downloads :=
  d <| current := Some (next_worker d) |> <| workers := workers d ++ [(next_worker d, true)] |> <| next_worker := S (next_worker d) |>.
Definition onDownloadModelClicked (d : Downloads) : Downloads := start_worker (abortDownload d <| buttons := false |> <| progress := true |>).
Definition startScriptDownloadTask (d : Downloads) : Downloads := start_worker (abortDownload d).
(** [None]: after an error. A worker that is not the current one changes nothing. *)
Definition onDownloadFinished (originating_worker : option nat) (d : Downloads) : Downloads :=
  match current d, originating_worker with
  | Some c, Some o => if negb (c =? o)%nat then d else d <| current := None |> <| buttons := true |> <| progress := false |>
  | _, _ => d <| current := None |> <| buttons := true |> <| progress := false |>
  end.
(** A report of the [i]-th worker: its error, then its end. *)
Definition on_worker_error (i : nat) (d : Downloads) : Downloads :=
  match workers d !! i with Some (_, true) => onDownloadFinished None d | _ => d end.
Definition on_worker_end (i : nat) (d : Downloads) : Downloads :=
  match workers d !! i with
  | Some (w, connected) => let d := d <| workers := delete i (workers d) |> in if connected : bool then onDownloadFinished (Some w) d else d
  | None => d
  end.
Inductive download_step : Downloads -> Downloads -> Prop :=
  | ds_model d : download_step d (onDownloadModelClicked d)
  | ds_script d : download_step d (startScriptDownloadTask d)
  | ds_error i d : download_step d (on_worker_error i d)
  | ds_end i d : download_step d (on_worker_end i d).

Definition workers_ok (next : nat) (l : list (nat * bool)) : Prop := Forall (fun x => x.1 < next) l /\ NoDup (fst <$> l).
(** Buttons that are disabled wait for a worker whose end reaches the page. *)
Record downloads_inv (d : Downloads) : Prop := {
  di_current w : current d = Some w -> (w, true) ∈ workers d;
  di_buttons : buttons d = false -> is_Some (current d);
  di_progress : progress d = negb (buttons d);
  di_workers : workers_ok (next_worker d) (workers d);
}.
Lemma abort_workers d : workers_ok (next_worker d) (workers d) -> workers_ok (next_worker (abortDownload d)) (workers (abortDownload d)).
Proof.
  unfold abortDownload. destruct (current d) as [c|]; [|done]. intros [Hf Hn]. unfold workers_ok. cbn. split.
  - apply Forall_fmap. eapply Forall_impl; [exact Hf|]. by intros [].
  - rewrite <- list_fmap_compose. erewrite list_fmap_ext; [exact Hn|]. by intros i [] ?.
Qed.
Lemma start_worker_inv d : workers_ok (next_worker d) (workers d) -> progress d = negb (buttons d) -> downloads_inv (start_worker d).
Proof.
  intros [Hf Hn] Hp. constructor; cbn; [|by eexists|done|].
  - intros w [= <-]. apply elem_of_app. right. by apply list_elem_of_singleton.
  - split; cbn.
    + apply Forall_app. split; [eapply Forall_impl; [exact Hf|]; cbn; lia | repeat constructor; cbn; lia].
    + rewrite fmap_app. apply NoDup_app. split_and!; [done| |apply NoDup_singleton]. intros x Hx ->%list_elem_of_singleton.
      apply list_elem_of_fmap in Hx as ([w b] & Hw & Hin). rewrite Forall_forall in Hf. specialize (Hf _ Hin). cbn in *. lia.
Qed.
Lemma abort_flags d : buttons (abortDownload d) = buttons d /\ progress (abortDownload d) = progress d.
Proof. unfold abortDownload. by destruct (current d). Qed.
Lemma worker_other d i w b c : NoDup (fst <$> workers d) -> workers d !! i = Some (w, b) -> (c, true) ∈ workers d -> c <> w -> (c, true) ∈ delete i (workers d).
Proof.
  intros Hn Hi Hc Hne. rewrite delete_take_drop. rewrite <- (take_drop_middle _ _ _ Hi) in Hc. set_solver.
Qed.
Lemma end_inv i d : downloads_inv d -> downloads_inv (on_worker_end i d).
Proof.
  intros [Hc Hb Hp [Hf Hn]]. unfold on_worker_end. destruct (workers d !! i) as [[w connected]|] eqn:Hi; [|done].
  assert (workers_ok (next_worker d) (delete i (workers d))) as Hok.
  { split; [by apply Forall_delete|]. rewrite delete_take_drop, fmap_app. rewrite <- (take_drop_middle _ _ _ Hi), fmap_app, fmap_cons in Hn.
    apply NoDup_app in Hn as (? & Hd & [_ ?]%NoDup_cons). apply NoDup_app. split_and!; [done| |done]. intros x Hx Hx'. apply (Hd x Hx). by right. }
  destruct connected.
  - unfold onDownloadFinished. cbn. destruct (current d) as [c|] eqn:Ec; [|by constructor].
    destruct (Nat.eqb_spec c w) as [->|Hne]; cbn; [by constructor|]. constructor; cbn; rewrite ?Ec; [|done..]. intros x [= <-].
    eapply worker_other; [done..| by apply Hc | done].
  - constructor; cbn; [|done..]. intros c Ec. eapply worker_other; [done..| by apply Hc |]. intros ->. specialize (Hc _ Ec).
    assert (Hw : (w, true) = (w, false)); [|done]. apply list_elem_of_lookup in Hc as [j Hj].
    assert (j = i) as ->; [|congruence]. eapply (NoDup_lookup (fst <$> workers d)); [done|rewrite list_lookup_fmap, Hj; done|rewrite list_lookup_fmap, Hi; done].
Qed.
Lemma download_step_inv d d' : download_step d d' -> downloads_inv d -> downloads_inv d'.
Proof.
  intros [d0|d0|i d0|i d0] Hi.
  - unfold onDownloadModelClicked. apply start_worker_inv; [|done]. apply abort_workers, Hi.
  - unfold startScriptDownloadTask. destruct (abort_flags d0) as [Eb Ep]. apply start_worker_inv; [apply abort_workers, Hi|]. rewrite Eb, Ep. apply Hi.
  - unfold on_worker_error. destruct (workers d0 !! i) as [[w []]|]; [|done..]. destruct Hi as [Hc Hb Hp Hw].
    unfold onDownloadFinished. destruct (current d0); by constructor.
  - by apply end_inv.
Qed.
(** The buttons for models come back: whatever is started, aborted or fails, once no worker
    runs they are enabled and no progress is shown. *)
Lemma downloads_end d : rtc download_step no_downloads d -> workers d = [] -> buttons d = true /\ progress d = false.
Proof.
  intros Hr He. assert (downloads_inv d) as [Hc Hb Hp _].
  { assert (downloads_inv no_downloads) as H0 by (constructor; [done..|]; split; constructor).
    revert H0. induction Hr as [|x y z Hs _ IH]; [done|]. intros H0. apply IH; [done|]. by eapply download_step_inv. }
  destruct (buttons d) eqn:Eb; [done|]. destruct (Hb eq_refl) as [w Hw]. specialize (Hc w Hw). rewrite He in Hc. set_solver.
Qed.

(** ** News of the project (mainwindow.cpp) *)

(** The text of the user's language: the locale, its language, English, else the first. *)
Definition member_text (node : json) (key : bytes) : option bytes := match Find node key with Some (JString text) => Some text | _ => None end.
Definition localizedString (system_locale : bytes) (node : option json) : bytes :=
  match node with
  | Some (JString text) => text
  | Some ((JObject members) as node) =>
      let locale := NormalizeLocale system_locale true in
      let lang := ExtractLanguageCode locale in
      let candidates := [member_text node locale] ++ (if lang =b locale then [] else [member_text node lang]) ++ [member_text node "en"] ++
                        ((fun '(_, value) => match value with JString text => Some text | _ => None end) <$> members) in
      default [] (head (omap id candidates))
  | _ => []
  end.
(** [stream >> int]: zero when there is no number, the limit when it is too large. *)
Definition extract_int (text : bytes) : Z := match extract pid_type text with Extracted v _ | ExtractFailed v => v end.
Record News := { news_id : Z; news_title : bytes; news_text : bytes; news_url : bytes }.
(** [document]: what was downloaded and parsed; [last_read]: the file of the last one read. *)
Definition checkNotification (system_locale : bytes) (document : option json) (last_read : option bytes) : option News :=
  j ← document;
  remote_id ← Int j "id" 0;
  let local_id := match last_read with Some text => extract_int text | None => 0%Z end in
  if (remote_id <=? 0)%Z || (remote_id <=? local_id)%Z then None
  else Some {| news_id := remote_id; news_title := localizedString system_locale (Find j "title"); news_text := localizedString system_locale (Find j "text");
               news_url := String j "url" [] |}.
(** The box was closed: the id is written to the file of the last one read. *)
Definition onNotificationReady (n : News) : bytes := to_string (news_id n).

Lemma extract_int_printed n : (0 <= n <= it_max pid_type)%Z -> extract_int (to_string n) = n.
Proof. intros Hn. unfold extract_int. rewrite <- (app_nil_r (to_string n)), extract_printed; [done|lia|cbn in *; lia|done]. Qed.
(** News that were shown and closed are not shown again, and later news are. *)
Theorem news_shown_once locale j n : checkNotification locale (Some j) None = Some n ->
  checkNotification locale (Some j) (Some (onNotificationReady n)) = None /\
  forall j' m, Int j' "id" 0 = Some m -> (news_id n < m)%Z ->
    exists n', checkNotification locale (Some j') (Some (onNotificationReady n)) = Some n' /\ news_id n' = m.
Proof.
  unfold checkNotification. cbn. destruct (Int j "id" 0) as [remote|] eqn:Hi; [|done]. cbn.
  assert (remote <= it_max pid_type)%Z as Hmax.
  { unfold Int in Hi. destruct (Int64 j "id" 0) as [v|]; [|done]. cbn in Hi. injection Hi as <-. unfold to_i32. pose proof (Z.mod_pos_bound (v + 2147483648) 4294967296 ltac:(lia)). cbn -[Z.modulo]. lia. }
  destruct (Z.leb_spec remote 0); [done|]. cbn. intros [= <-]. cbn. unfold onNotificationReady. cbn. rewrite extract_int_printed by lia. split.
  - by rewrite (proj2 (Z.leb_le remote remote)) by lia.
  - intros j' m -> Hm. cbn. rewrite (proj2 (Z.leb_gt m 0)), (proj2 (Z.leb_gt m remote)) by lia. by eexists.
Qed.
Definition some_news : json := JObject [("id"%bytes, JNumber (f64_of_Z 7)); ("text"%bytes, JObject [("en"%bytes, JString "hello"); ("zh"%bytes, JString "ni hao")])].
Lemma news_shown_once_witness : checkNotification "zh_CN.UTF-8" (Some some_news) (Some "7"%bytes) = None /\
  news_text <$> checkNotification "zh_CN.UTF-8" (Some some_news) None = Some "ni hao"%bytes.
Proof.
  split; [|vm_compute; reflexivity].
  exact (proj1 (news_shown_once "zh_CN.UTF-8" some_news {| news_id := 7; news_title := []; news_text := "ni hao"; news_url := [] |} eq_refl)).
Defined.
