(* ===== verification/Frontend.v ===== *)
(** * The input method addon (src/src/addon: input/vinput_keyevent.cpp, dbus/vinput_dbus.cpp,
    dbus/status_poll_gate.h, core/vinput.cpp and the menus of menu/vinput_menu.cpp)

    The addon turns key presses into requests to the daemon and the daemon's signals into
    text in the application. It runs on the Fcitx event loop, one event at a time; a
    handler is a function on the record [Engine], which also collects what the addon sends
    and shows. Input contexts are identifiers. Time, the configuration, what Fcitx says
    about keys and candidate lists, and the answers of D-Bus are arguments. *)

From S2P Require Import Prelude StringUtils Json Preview Scene CoreConfig Palette Dbus RecognitionResult.
From Stdlib Require Import Ascii.

(** ** The status poll gate *)

Record Ticket := { tk_id : N; tk_generation : N }.
#[export] Instance Ticket_eq_dec : EqDecision Ticket.
Proof. solve_decision. Defined.

Record StatusPollGate := { generation_ : N; request_id_ : N; active_ : bool }.
Definition new_gate : StatusPollGate := {| generation_ := 0; request_id_ := 0; active_ := false |}.

Definition TryBegin (g : StatusPollGate) : option Ticket * StatusPollGate :=
  if active_ g then (None, g)
  else
    let id := u64_add (request_id_ g) 1 in
    (Some {| tk_id := id; tk_generation := generation_ g |},
     {| generation_ := generation_ g; request_id_ := id; active_ := true |}).
Definition Invalidate (g : StatusPollGate) : StatusPollGate :=
  {| generation_ := u64_add (generation_ g) 1; request_id_ := request_id_ g; active_ := active_ g |}.
Definition IsActive (g : StatusPollGate) (t : Ticket) : bool := active_ g && (request_id_ g =? tk_id t)%N.
Definition CompleteTicket (t : Ticket) (g : StatusPollGate) : bool * StatusPollGate :=
  if IsActive g t
  then ((tk_generation t =? generation_ g)%N,
        {| generation_ := generation_ g; request_id_ := request_id_ g; active_ := false |})
  else (false, g).
Definition CancelGate (g : StatusPollGate) : StatusPollGate :=
  {| generation_ := u64_add (generation_ g) 1; request_id_ := u64_add (request_id_ g) 1; active_ := false |}.

(** ** Keys, as Fcitx offers them *)

Class FcitxKey (Key : Type) := {
  key_eq_dec :: EqDecision Key;
  no_key : Key;                                    (* fcitx::Key() *)
  normalize : Key -> Key;
  sym : Key -> N;
  keyListIndex : Key -> list Key -> option nat;
  isModifier : Key -> bool;
  isReleaseOfModifier : Key -> Key -> bool;
  check : Key -> N -> bool;
  checkKeyList : Key -> list Key -> bool;
  digitSelection : Key -> option nat;
  plain : Key -> bool;                             (* states() == KeyStates() *)
  keySymToUTF8 : N -> bytes;
}.

(** The key symbols the addon names. *)
Definition FcitxKey_Escape : N := 65307.
Definition FcitxKey_Return : N := 65293.
Definition FcitxKey_KP_Enter : N := 65421.
Definition FcitxKey_Up : N := 65362.
Definition FcitxKey_Down : N := 65364.
Definition FcitxKey_BackSpace : N := 65288.
Definition FcitxKey_Page_Up : N := 65365.
Definition FcitxKey_Page_Down : N := 65366.
Definition FcitxKey_KP_Page_Up : N := 65434.
Definition FcitxKey_KP_Page_Down : N := 65435.

Module Phase.
Inductive SessionPhase := PendingStart | Recording | Inferring | Postprocessing.
End Phase.
#[export] Instance Phase_eq_dec : EqDecision Phase.SessionPhase.
Proof. solve_decision. Defined.

Inductive HotkeyRole := RoleNone | RoleMenu | RoleTrigger | RoleCommand.
#[export] Instance HotkeyRole_eq_dec : EqDecision HotkeyRole.
Proof. solve_decision. Defined.

Inductive TriggerMode := Tap | Hold | Both.
#[export] Instance TriggerMode_eq_dec : EqDecision TriggerMode.
Proof. solve_decision. Defined.

Abbreviation IC := N.

(** What the addon sends and shows. *)
Inductive Output :=
  | CallStart
  | CallStartCommand (selected_text : bytes)
  | CallStop (scene_id : bytes)
  | CallCancel (commit_raw : bool)
  | CallGetStatus
  | Preedit (ic : IC) (text aux : bytes)
  | MenuClosed (ic : IC)
  | MenuShown (ic : IC) (entries : list nat)
  | MenuPaged (ic : IC) (next : bool)
  | MenuMoved (ic : IC) (next : bool)
  | CallReloadAsrBackend
  | CallStartAdapter (adapter_id : bytes)
  | CallStopAdapter (adapter_id : bytes)
  | SaveConfig (c : CoreConfig)
  | NotifyError (message : bytes)
  | NotifyInfo (message : bytes)
  | DeleteSurrounding (ic : IC) (offset : Z) (len : Z)
  | Commit (ic : IC) (text : bytes)
  | ContextLine (text source : bytes) (keep : Z).

Section frontend.
Context {Key : Type} `{FcitxKey Key} `{Unicode}.

Record Session := {
  phase : Phase.SessionPhase; ic : IC; trigger : Key; press_time : Z; command_mode : bool; trigger_released : bool;
  sess_raw_prev : bool; transcript_text : bytes; stop_on_release : bool;
}.
#[export] Instance Session_fields : Fields Session :=
  fun s => Build_Session (phase s) (ic s) (trigger s) (press_time s) (command_mode s) (trigger_released s)
             (sess_raw_prev s) (transcript_text s) (stop_on_release s).

Record Engine := {
  bus : bool;
  gate : StatusPollGate;
  start_call : bool; stop_call : bool; status_call : option Ticket;   (* the pending call slots *)
  session : option Session;
  status_ic : option IC; last_active_ic : option IC; palette_menu_ic : option IC; result_menu_ic : option IC;
  trigger_keys : list Key; command_keys : list Key; menu_keys : list Key;
  page_prev_keys : list Key; page_next_keys : list Key;
  trigger_mode : TriggerMode; max_streaming_display_width : Z;
  held_key_sym : option N; held_role : HotkeyRole; chord_interrupted : bool; held_press_time : Z;
  palette_menu_visible : bool; result_menu_visible : bool;
  active_scene_id : bytes; scene_config : SceneConfig;
  palette_items : list PaletteItem; palette_query : bytes;
  suppressed_commit : option bytes; command_selected_text : bytes;
  context_text : bytes; context_ic : option IC; context_timer : bool; max_context_lines : Z;
  result_candidates : list Candidate; result_is_command : bool;
  last_trigger_time : Z; sync_blocked_until : Z; last_known_status : bytes; polled_idle_since : option Z;
  postprocessing_release : option Key;
  stop_timer : option Z; status_timer : bool;
  outputs : list Output;
}.
#[export] Instance Engine_fields : Fields Engine :=
  fun e => Build_Engine (bus e) (gate e) (start_call e) (stop_call e) (status_call e) (session e)
    (status_ic e) (last_active_ic e) (palette_menu_ic e) (result_menu_ic e)
    (trigger_keys e) (command_keys e) (menu_keys e) (page_prev_keys e) (page_next_keys e)
    (trigger_mode e) (max_streaming_display_width e)
    (held_key_sym e) (held_role e) (chord_interrupted e) (held_press_time e)
    (palette_menu_visible e) (result_menu_visible e) (active_scene_id e) (scene_config e)
    (palette_items e) (palette_query e) (suppressed_commit e) (command_selected_text e)
    (context_text e) (context_ic e) (context_timer e) (max_context_lines e)
    (result_candidates e) (result_is_command e) (last_trigger_time e) (sync_blocked_until e)
    (last_known_status e) (polled_idle_since e) (postprocessing_release e) (stop_timer e) (status_timer e) (outputs e).

(** What the addon asks for while it handles an event. *)
Record Env := {
  now : Z;                                   (* steady clock, milliseconds *)
  call_ok : bool;                            (* callAsync gives a slot *)
  config : CoreConfig;                       (* LoadCoreConfig *)
  surrounding : option (bytes * N * N);      (* text, cursor and anchor, when valid *)
  primary : option bytes;                    (* the clipboard addon's primary selection *)
  palette_world : PaletteWorld;
  save_ok : bool;                            (* SaveCoreConfig *)
  sync_status : option bytes;                (* a GetStatus that is waited for *)
  sync_reply : option (unit + bytes);        (* another call that is waited for: no reply, an error *)
}.

Context (utf8_validate : bytes -> bool) (ncharByteLength : bytes -> N -> nat).

Definition emit (o : Output) (e : Engine) : Engine := e <| outputs := outputs e ++ [o] |>.

(** ** Small helpers *)

Definition rememberInputContext (i : option IC) (e : Engine) : Engine :=
  match i with None => e | Some i => e <| last_active_ic := Some i |> end.

Definition resolveFrontendInputContext (fallback : option IC) (e : Engine) : option IC :=
  match session e with
  | Some s => Some (ic s)
  | None =>
      match status_ic e, fallback with
      | Some i, _ => Some i
      | None, Some i => Some i
      | None, None => last_active_ic e
      end
  end.

Definition kDaemonFailureCooldown : Z := 1500.
Definition daemonSyncAllowed (env : Env) (e : Engine) : bool := (sync_blocked_until e <=? now env)%Z.
Definition noteDaemonSyncFailure (env : Env) (e : Engine) : Engine :=
  e <| sync_blocked_until := (now env + kDaemonFailureCooldown)%Z |>.
Definition clearDaemonSyncFailure (e : Engine) : Engine := e <| sync_blocked_until := 0%Z |>.

Definition resetPaletteMenuState (e : Engine) : Engine :=
  e <| palette_menu_ic := None |> <| palette_menu_visible := false |> <| palette_query := [] |>.
Definition hidePaletteMenu (e : Engine) : Engine :=
  match palette_menu_visible e, palette_menu_ic e with
  | true, Some i => emit (MenuClosed i) (resetPaletteMenuState e)
  | _, _ => resetPaletteMenuState e
  end.
Definition resetResultMenuState (e : Engine) : Engine :=
  e <| result_menu_ic := None |> <| result_menu_visible := false |> <| result_candidates := [] |>.
Definition hideResultMenu (e : Engine) : Engine :=
  match result_menu_visible e, result_menu_ic e with
  | true, Some i => emit (MenuClosed i) (resetResultMenuState e)
  | _, _ => resetResultMenuState e
  end.
Definition dismissMenusForVoiceActivity (e : Engine) : Engine := hideResultMenu (hidePaletteMenu e).

Definition updateVoicePresentation (i : option IC) (preedit aux : bytes) (e : Engine) : Engine :=
  match i with
  | None => e
  | Some i => emit (Preedit i preedit aux) (dismissMenusForVoiceActivity e)
  end.
Definition clearVoicePresentation (i : option IC) (e : Engine) : Engine := updateVoicePresentation i [] [] e.

Definition cancelPendingStop (e : Engine) : Engine := e <| stop_timer := None |>.
(** No pending start is ever armed; what is left is the held key. *)
Definition cancelPendingStart (e : Engine) : Engine := e <| held_role := RoleNone |> <| held_key_sym := None |>.

Definition kReleaseDebounce : Z := 500.
Definition kTriggerDebounce : Z := 80.
Definition kTapMaxHoldDuration : Z := 200.
Definition scheduleStopRecording (env : Env) (e : Engine) : Engine :=
  e <| stop_timer := Some (now env + kReleaseDebounce)%Z |>.

Definition set_gate (f : StatusPollGate -> StatusPollGate) (e : Engine) : Engine := e <| gate := f (gate e) |>.

Definition stopStatusSyncIfIdle (e : Engine) : Engine :=
  match session e, status_ic e with
  | None, None => set_gate CancelGate (e <| status_timer := false |> <| status_call := None |>)
  | _, _ => e
  end.
Definition ensureStatusSync (e : Engine) : Engine :=
  match session e, status_ic e with
  | None, None => stopStatusSyncIfIdle e
  | _, _ => e <| status_timer := true |>
  end.

(** The text shown for a transcript; [LimitPreviewText] always ends (Preview.v). *)
Definition limited (text : bytes) (width : Z) : bytes := default text (LimitPreviewText text width).
Definition live_preedit (transcript fallback : bytes) (e : Engine) : bytes :=
  default fallback (ComposeLivePreedit transcript fallback (max_streaming_display_width e)).

Definition StartingPreeditText : bytes := "... Starting ...".
Definition RecordingPreeditText : bytes := "... Recording ...".
Definition CommandingPreeditText : bytes := "... Commanding ...".
Definition InferringPreeditText : bytes := "... Recognizing ...".
Definition ApplyingCommandPreeditText : bytes := "... Applying command ... (Esc: Cancel)".
Definition PostprocessingPreeditText (command raw : bool) : bytes :=
  if command then ApplyingCommandPreeditText
  else if raw then "... Postprocessing ... (Enter: Use raw ASR text, Esc: Cancel)"
  else "... Postprocessing ... (Esc: Cancel)".
Definition CommandTranscriptPreeditText (text : bytes) : bytes := "Command: " ++ text.
Definition NoSelectionPreeditText : bytes := "Please select text first.".
Definition CommandDisabledPreeditText : bytes := "Command mode is disabled (candidate count is 0).".
Definition CommandNoProviderPreeditText : bytes := "No LLM provider configured for command mode.".
Definition DaemonUnavailablePreeditText : bytes := "Voice input daemon is unavailable.".
Definition DaemonTemporarilyUnavailable : bytes := "Voice input daemon is temporarily unavailable.".
Definition DaemonNotRespondingPreeditText : bytes := "Voice input daemon is not responding.".

(** ** The context history *)

Definition kContextSourceUser : bytes := "user".

Definition SanitizeUtf8 (text : bytes) : bytes := if is_empty text then text else u_encode (u_decode text).

Definition is_cjk (cp : N) : bool := is_unified_ideograph cp || is_ideographic cp.
Definition IsCjkAtBoundary (left right : bytes) : bool :=
  is_cjk (if is_empty left then 0%N else default 0%N (last (u_decode left)))
  || is_cjk (if is_empty right then 0%N else default 0%N (decode_codepoint right)).

(** U+2026 is the ellipsis. *)
Definition EndsWithSentenceTerminal (text : bytes) : bool :=
  if is_empty text then false
  else match last (u_decode text) with
       | None => false
       | Some cp => is_sentence_terminal cp || (cp =? 8230)%N || (cp =? 10)%N
       end.

Definition write_context (text source : bytes) (e : Engine) : Engine :=
  emit (ContextLine (SanitizeUtf8 text) (SanitizeUtf8 source) (max_context_lines e)) e.

(** [flushContextBuffer], with its call of [appendContextEntry] for the user's own text. *)
Definition flushContextBuffer (e : Engine) : Engine :=
  let e := e <| context_ic := None |> in
  if is_empty (context_text e) then e
  else
    let e := if (max_context_lines e <=? 0)%Z then e else write_context (context_text e) kContextSourceUser e in
    e <| context_text := [] |> <| context_timer := false |>.

Definition appendContextEntry (text source : bytes) (e : Engine) : Engine :=
  if (max_context_lines e <=? 0)%Z || is_empty text then e
  else
    let e := if negb (source =b kContextSourceUser) && negb (is_empty (context_text e)) then flushContextBuffer e else e in
    write_context text source e.

Definition suppressNextCommitContext (text : bytes) (e : Engine) : Engine :=
  e <| suppressed_commit := (if is_empty text then None else Some text) |>.

Definition accumulateContextBuffer (text : bytes) (i : option IC) (e : Engine) : Engine :=
  let e := if negb (bool_decide (i = context_ic e)) && negb (is_empty (context_text e)) then flushContextBuffer e else e in
  let glue := if is_empty (context_text e) then []
              else if negb (IsCjkAtBoundary (context_text e) text) && negb (ends_with (context_text e) " ")
                   then " " else [] : bytes in
  let e := e <| context_ic := i |> <| context_text := context_text e ++ glue ++ text |> in
  if EndsWithSentenceTerminal (context_text e) then flushContextBuffer e else e <| context_timer := true |>.

Definition onCommitString (text : bytes) (i : option IC) (e : Engine) : Engine :=
  if (max_context_lines e <=? 0)%Z || is_empty text then e <| suppressed_commit := None |>
  else
    match suppressed_commit e with
    | Some t => if t =b text then e <| suppressed_commit := None |>
                else accumulateContextBuffer text i (e <| suppressed_commit := None |>)
    | None => accumulateContextBuffer text i e
    end.

(** [commitString] of Fcitx: the text, and the commit event the addon watches itself. *)
Definition commitString (i : IC) (text : bytes) (e : Engine) : Engine :=
  onCommitString text (Some i) (emit (Commit i text) e).

Definition reloadSceneConfig (c : CoreConfig) (e : Engine) : Engine :=
  let e := e <| scene_config := {| activeSceneId := activeScene (cc_scenes c); scenes := definitions (cc_scenes c) |} |>
             <| active_scene_id := activeScene (cc_scenes c) |>
             <| max_context_lines := foldr (fun s m => Z.max (context_lines s) m) 0%Z (definitions (cc_scenes c)) |> in
  if (max_context_lines e <=? 0)%Z
  then e <| context_text := [] |> <| context_ic := None |> <| context_timer := false |> else e.

Definition scene_raw_prev (e : Engine) : bool := raw_prev (Resolve (scene_config e) (active_scene_id e)).

(** ** The session *)

Definition new_session (t : Z) : Session :=
  {| phase := Phase.PendingStart; ic := 0%N; trigger := no_key; press_time := t; command_mode := false;
     trigger_released := false; sess_raw_prev := true; transcript_text := []; stop_on_release := false |}.

Definition enter (env : Env) (p : Phase.SessionPhase) (i : IC) (k : Key) (command raw : bool) (e : Engine) : Engine :=
  let s := default (new_session (now env)) (session e) in
  e <| session := Some (s <| phase := p |> <| ic := i |> <| trigger := k |> <| command_mode := command |>
                          <| sess_raw_prev := raw |>) |>
    <| status_ic := Some i |>.

(** The preedit of a context that no longer has the status is cleared. *)
Definition leave_status_ic (i : IC) (e : Engine) : Engine :=
  match status_ic e with
  | Some j => if (j =? i)%N then e else clearVoicePresentation (Some j) e
  | None => e
  end.

Definition enterPendingStartState (env : Env) (i : option IC) (k : Key) (command : bool) (e : Engine) : Engine :=
  match i with
  | None => e
  | Some i =>
      let e := leave_status_ic i (set_gate Invalidate (rememberInputContext (Some i) e)) in
      let e := enter env Phase.PendingStart i k command (scene_raw_prev e) e in
      ensureStatusSync (updateVoicePresentation (Some i) (live_preedit [] StartingPreeditText e) [] e)
  end.

Definition session_raw_prev (e : Engine) : bool :=
  match session e with Some s => sess_raw_prev s | None => scene_raw_prev e end.

Definition enterRecordingState (env : Env) (i : option IC) (k : Key) (command : bool) (e : Engine) : Engine :=
  match i with
  | None => e
  | Some i =>
      let e := leave_status_ic i (rememberInputContext (Some i) e) in
      let stop_after_start :=
        match session e with
        | Some s => (bool_decide (trigger_mode e = Hold) || stop_on_release s)
                    && bool_decide (phase s = Phase.PendingStart) && trigger_released s
        | None => false
        end in
      let e := enter env Phase.Recording i k command (session_raw_prev e) e in
      let transcript := match session e with Some s => transcript_text s | None => [] end in
      let e := updateVoicePresentation (Some i)
                 (live_preedit transcript (if command then CommandingPreeditText else RecordingPreeditText) e) [] e in
      let e := ensureStatusSync e in
      if stop_after_start then scheduleStopRecording env e else e
  end.

Definition enterBusyState (env : Env) (i : option IC) (command : bool) (preedit : bytes) (postprocessing : bool)
    (raw : option bool) (e : Engine) : Engine :=
  match i with
  | None => e
  | Some i =>
      let e := leave_status_ic i (rememberInputContext (Some i) e) in
      let raw := default (session_raw_prev e) raw in
      let e := enter env (if postprocessing then Phase.Postprocessing else Phase.Inferring) i no_key command raw e in
      let transcript := match session e with Some s => transcript_text s | None => [] end in
      let e :=
        if negb raw then updateVoicePresentation (Some i) preedit [] e
        else if postprocessing && negb (is_empty transcript) then
          updateVoicePresentation (Some i) (if command then ApplyingCommandPreeditText else preedit)
            (limited (if command then CommandTranscriptPreeditText transcript else transcript) (max_streaming_display_width e)) e
        else updateVoicePresentation (Some i) (live_preedit transcript preedit e) [] e in
      ensureStatusSync e
  end.

Definition finishFrontendSession (fallback : option IC) (e : Engine) : Engine :=
  let e := set_gate Invalidate e in
  let i := match session e, fallback with
           | Some s, _ => Some (ic s)
           | None, Some i => Some i
           | None, None => status_ic e
           end in
  let e := e <| session := None |> <| polled_idle_since := None |> <| command_selected_text := [] |>
             <| status_ic := (if bool_decide (status_ic e = i) then None else status_ic e) |> in
  stopStatusSyncIfIdle (clearVoicePresentation i e).

(** ** Calls to the daemon *)

(** A call with a reply: refused while the daemon is given time to recover. *)
Definition call_daemon (env : Env) (call : Output) (slot : bool -> Engine -> Engine) (e : Engine) : bool * Engine :=
  if negb (bus e) || negb (daemonSyncAllowed env e) then (false, noteDaemonSyncFailure env e)
  else
    let e := emit call e in
    let e := slot (call_ok env) e in
    if call_ok env then (true, e) else (false, noteDaemonSyncFailure env e).

Definition callStartRecording (env : Env) (e : Engine) : bool * Engine :=
  call_daemon env CallStart (fun b e => e <| start_call := b |>)
    (flushContextBuffer (e <| command_selected_text := [] |>)).
Definition callStartCommandRecording (env : Env) (selected : bytes) (e : Engine) : bool * Engine :=
  call_daemon env (CallStartCommand selected) (fun b e => e <| start_call := b |>)
    (flushContextBuffer (e <| command_selected_text := selected |>)).
Definition callStopRecording (env : Env) (scene_id : bytes) (e : Engine) : bool * Engine :=
  call_daemon env (CallStop scene_id) (fun b e => e <| stop_call := b |>) e.
Definition callCancelOperation (commit_raw : bool) (e : Engine) : Engine :=
  if bus e then emit (CallCancel commit_raw) e else e.

Definition RenderMethodCallFailure (name message fallback : bytes) : bytes :=
  if bool_decide (name ∈ ["org.freedesktop.DBus.Error.ServiceUnknown" : bytes; "org.freedesktop.DBus.Error.NameHasNoOwner"])
  then DaemonUnavailablePreeditText
  else if bool_decide (name ∈ ["org.freedesktop.DBus.Error.NoReply" : bytes; "org.freedesktop.DBus.Error.Timeout"])
  then DaemonNotRespondingPreeditText
  else if is_empty message then fallback
  else match find_char message ch_nl with Some n => take n message | None => message end.

(** A reply: [None] without a message, [Some (Err (name, text))] for an error. *)
Definition Reply := option (unit + bytes * bytes).
Definition reply_failed (r : Reply) : option bytes :=
  match r with
  | Some (inl _) => None
  | Some (inr (name, message)) => Some (RenderMethodCallFailure name message DaemonUnavailablePreeditText)
  | None => Some DaemonUnavailablePreeditText
  end.

(** The callback of [callStartRecording], [callStartCommandRecording] and
    [callStopRecording], after the slot is released. *)
Definition on_call_reply (env : Env) (r : Reply) (e : Engine) : Engine :=
  match reply_failed r with
  | None => clearDaemonSyncFailure e
  | Some text =>
      let e := noteDaemonSyncFailure env e in
      let i := resolveFrontendInputContext None e in
      updateVoicePresentation i text [] (finishFrontendSession i e)
  end.
Definition on_start_reply (env : Env) (r : Reply) (e : Engine) : Engine := on_call_reply env r (e <| start_call := false |>).
Definition on_stop_reply (env : Env) (r : Reply) (e : Engine) : Engine := on_call_reply env r (e <| stop_call := false |>).

(** ** Recording *)

Definition finishStopRecording (env : Env) (e : Engine) : Engine :=
  match session e with
  | Some s =>
      if bool_decide (phase s = Phase.Recording) then
        let e := reloadSceneConfig (config env) e in
        let scene := Resolve (scene_config e) (active_scene_id e) in
        let s := s <| sess_raw_prev := raw_prev scene |> <| trigger := no_key |> in
        let e := e <| active_scene_id := sc_id scene |> <| session := Some s |> in
        let e := enterBusyState env (Some (ic s)) (command_mode s) InferringPreeditText false (Some (raw_prev scene)) e in
        (callStopRecording env (sc_id scene) e).2
      else e
  | None => e
  end.

Definition applyDaemonStatusLocally (env : Env) (status : bytes) (fallback : option IC) (prefer_command : bool) (e : Engine)
  : Engine :=
  if (status =b kStatusIdle) && (match session e, status_ic e with None, None => true | _, _ => false end) then e
  else
    match resolveFrontendInputContext fallback e with
    | None => e
    | Some i =>
        let command := match session e with Some s => command_mode s | None => prefer_command end in
        if status =b kStatusRecording then
          enterRecordingState env (Some i) (match session e with Some s => trigger s | None => no_key end) command e
        else if status =b kStatusInferring then
          enterBusyState env (Some i) command InferringPreeditText false (Some (session_raw_prev e)) e
        else if status =b kStatusPostprocessing then
          enterBusyState env (Some i) command (PostprocessingPreeditText command (session_raw_prev e)) true
            (Some (session_raw_prev e)) e
        else finishFrontendSession (Some i) e
    end.

(** The selected text: from the application, else the primary selection. *)
Definition selection (env : Env) : bytes :=
  let selected :=
    match surrounding env with
    | Some (text, cursor, anchor) =>
        if negb (cursor =? anchor)%N && utf8_validate text then
          let char_from := N.min cursor anchor in
          let char_to := N.max cursor anchor in
          let byte_from := ncharByteLength text char_from in
          substr text byte_from (ncharByteLength (drop byte_from text) (char_to - char_from))
        else []
    | None => []
    end in
  if is_empty selected then
    match primary env with Some p => if utf8_validate p then p else [] | None => [] end
  else selected.

(** After a refused start. *)
Definition start_refused (env : Env) (i : option IC) (e : Engine) : Engine :=
  let e := finishFrontendSession i e in
  if negb (bus e) then updateVoicePresentation i DaemonTemporarilyUnavailable [] e
  else if negb (daemonSyncAllowed env e) then updateVoicePresentation i DaemonNotRespondingPreeditText [] e
  else e.

Definition start_command (env : Env) (i : option IC) (k : Key) (e : Engine) : Engine :=
  let refuse text e := updateVoicePresentation i text [] e in
  let c := config env in
  match CommandScene c with
  | None => refuse CommandDisabledPreeditText (finishFrontendSession i e)
  | Some scene =>
      if (llm_max_candidates scene <=? 0)%Z then refuse CommandDisabledPreeditText (finishFrontendSession i e)
      else if is_empty (sc_provider_id scene)
              || (match ViewLlmProvider c (sc_provider_id scene), ViewLlmAdapter c (sc_provider_id scene) with
                  | None, None => true | _, _ => false end)
      then refuse CommandNoProviderPreeditText (finishFrontendSession i e)
      else
        let selected := selection env in
        if is_empty selected then
          refuse NoSelectionPreeditText
            (if bool_decide (status_ic e = i) then finishFrontendSession i e else clearVoicePresentation i e)
        else
          let '(ok, e) := callStartCommandRecording env selected (enterPendingStartState env i k true e) in
          if ok : bool then e else start_refused env i e
  end.

Definition startVoiceRecording (env : Env) (i : option IC) (k : Key) (is_command : bool) (e : Engine) : Engine :=
  match i with
  | None => e
  | Some _ =>
      let e := cancelPendingStop (dismissMenusForVoiceActivity e) in
      let status := last_known_status e in
      if negb is_command && (match session e with None => true | Some _ => false end) && (status =b kStatusRecording) then
        finishStopRecording env (enterRecordingState env i k false e)
      else if negb (is_empty status) && negb (status =b kStatusIdle) then
        applyDaemonStatusLocally env status i is_command e
      else if is_command then start_command env i k e
      else
        let '(ok, e) := callStartRecording env (enterPendingStartState env i k false e) in
        if ok : bool then e else start_refused env i e
  end.

(** ** Signals and replies *)

Definition kPolledIdleRecoveryDelay : Z := 5000.

Definition syncFrontendWithDaemonStatus (env : Env) (e : Engine) : Engine :=
  if negb (bus e) || negb (daemonSyncAllowed env e) then e
  else
    match TryBegin (gate e) with
    | (None, _) => e
    | (Some t, g) =>
        let e := emit CallGetStatus (e <| gate := g |>) in
        if call_ok env then e <| status_call := Some t |>
        else noteDaemonSyncFailure env (set_gate CancelGate (e <| status_call := None |>))
    end.

(** The status timer. *)
Definition on_status_timer (env : Env) (e : Engine) : Engine :=
  let e := syncFrontendWithDaemonStatus env e in
  match session e, status_ic e with
  | None, None => e <| status_timer := false |>
  | _, _ => e
  end.

(** The reply to a status query: the status, or [None] for an error. *)
Definition on_status_reply (env : Env) (t : Ticket) (r : option bytes) (e : Engine) : Engine :=
  if negb (IsActive (gate e) t) then e
  else
    let '(current, g) := CompleteTicket t (gate e) in
    let e := e <| status_call := None |> <| gate := g |> in
    if negb current then e
    else
      match r with
      | None => noteDaemonSyncFailure env e
      | Some status =>
          let e := clearDaemonSyncFailure e <| last_known_status := status |> in
          if is_empty status || (match session e, status_ic e with None, None => true | _, _ => false end) then e
          else
            let apply e := applyDaemonStatusLocally env status None false (e <| polled_idle_since := None |>) in
            match session e with
            | Some _ =>
                if status =b kStatusIdle then
                  let since := default (now env) (polled_idle_since e) in
                  let e := e <| polled_idle_since := Some since |> in
                  if (now env - since <? kPolledIdleRecoveryDelay)%Z then e else apply e
                else apply e
            | None => apply e
            end
      end.

Definition onStatusChanged (env : Env) (status : bytes) (e : Engine) : Engine :=
  let e := set_gate Invalidate e <| last_known_status := status |> <| polled_idle_since := None |> in
  let e := rememberInputContext (resolveFrontendInputContext None e) e in
  applyDaemonStatusLocally env status None false e.

Definition handleRecognitionPartial (env : Env) (text : bytes) (e : Engine) : Engine :=
  if is_empty text then e
  else
    match resolveFrontendInputContext None e with
    | None => e
    | Some i =>
        let e := rememberInputContext (Some i) e in
        match session e with
        | None => e
        | Some s =>
            let s := s <| transcript_text := text |> in
            let e := e <| session := Some s |> in
            if bool_decide (phase s = Phase.Postprocessing) then
              enterBusyState env (Some i) (command_mode s) (PostprocessingPreeditText (command_mode s) (sess_raw_prev s)) true
                (Some (sess_raw_prev s)) e
            else if bool_decide (phase s = Phase.Inferring) && negb (sess_raw_prev s) then e
            else updateVoicePresentation (Some i)
                   (live_preedit text (if command_mode s then CommandingPreeditText else RecordingPreeditText) e) [] e
        end
    end.

(** The spoken text among the candidates of a result. *)
Definition asr_candidate (is_command : bool) (command_selected : bytes) (p : Payload) : option Candidate :=
  match list_find (fun c => cand_source c = kSourceAsr) (candidates p) with
  | Some (_, c) => Some c
  | None =>
      snd <$> list_find (fun c => cand_source c = kSourceRaw /\ (is_command = false \/ cand_text c <> command_selected)) (candidates p)
  end.

Definition showResultMenu (i : IC) (p : Payload) (e : Engine) : Engine :=
  if is_empty (candidates p) then e
  else
    let e := hidePaletteMenu e in
    emit (MenuShown i (seq 0 (length (candidates p))))
      (e <| result_menu_ic := Some i |> <| result_menu_visible := true |> <| result_candidates := candidates p |>).

(** In command mode the text replaces the selection. *)
Definition delete_selection (env : Env) (i : IC) (e : Engine) : Engine :=
  match surrounding env with
  | Some (_, cursor, anchor) =>
      if (cursor =? anchor)%N then e
      else emit (DeleteSurrounding i (Z.of_N (N.min cursor anchor) - Z.of_N cursor) (Z.abs (Z.of_N cursor - Z.of_N anchor))) e
  | None => e
  end.

Definition onRecognitionResult (env : Env) (p : Payload) (e : Engine) : Engine :=
  let is_command := match session e with Some s => command_mode s | None => false end in
  let selected := if is_command then command_selected_text e else [] in
  match resolveFrontendInputContext None e with
  | None => e
  | Some i =>
      let e := finishFrontendSession (Some i) (rememberInputContext (Some i) e) in
      if is_empty (commitText p) then e
      else
        let e := match asr_candidate is_command selected p with
                 | Some c => if is_empty (cand_text c) then e else appendContextEntry (cand_text c) kSourceAsr e
                 | None => e
                 end in
        let llm := filter (fun c => cand_source c = kSourceLlm) (candidates p) in
        let commit_from_llm := existsb (fun c => cand_text c =b commitText p) llm in
        if (if is_command then 1 <? length llm else 1 <? length (candidates p)) then
          showResultMenu i p (e <| result_is_command := is_command |>)
        else
          let e := if commit_from_llm then appendContextEntry (commitText p) kSourceLlm e else e in
          let e := suppressNextCommitContext (commitText p) e in
          let e := if is_command then delete_selection env i e else e in
          commitString i (commitText p) e
  end.

(** ** Menus *)

(** The candidate list of the panel: the size of its page, the cursor, and which entry of
    the addon each position stands for. *)
Record MenuView := { mv_size : nat; mv_cursor : Z; mv_movable : bool; mv_entry : nat -> nat }.

Definition rebuildPaletteMenu (i : option IC) (e : Engine) : Engine :=
  match i with
  | None => e
  | Some i => emit (MenuShown i (palette_filtered (palette_query e) initializePaletteRegistry (palette_items e))) e
  end.
Definition showPaletteMenu (env : Env) (i : option IC) (e : Engine) : Engine :=
  match i with
  | None => e
  | Some _ =>
      rebuildPaletteMenu i
        (e <| palette_items := reloadPaletteItems (palette_world env) (config env) initializePaletteRegistry |>
           <| palette_menu_ic := i |> <| palette_menu_visible := true |> <| palette_query := [] |>)
  end.

(** *** Calls that wait for the reply *)

Definition queryDaemonStatus (env : Env) (e : Engine) : bytes * Engine :=
  if negb (bus e) || negb (daemonSyncAllowed env e) then ([], e)
  else
    let e := emit CallGetStatus e in
    match sync_status env with
    | None => ([], noteDaemonSyncFailure env e)
    | Some status => (status, clearDaemonSyncFailure e <| last_known_status := status |>)
    end.

(** [None], or the error. *)
Definition callSyncRpc (env : Env) (call : Output) (fallback : bytes) (e : Engine) : option bytes * Engine :=
  if negb (bus e) || negb (daemonSyncAllowed env e) then
    (Some (if bus e then "Daemon access is temporarily throttled." else "D-Bus is unavailable." : bytes), noteDaemonSyncFailure env e)
  else
    let e := emit call e in
    match sync_reply env with
    | None => (Some ("Failed to contact vinput-daemon." : bytes), noteDaemonSyncFailure env e)
    | Some (inr message) => (Some (if is_empty message then fallback else message), noteDaemonSyncFailure env e)
    | Some (inl _) => (None, clearDaemonSyncFailure e)
    end.
Definition callReloadAsrBackend (env : Env) : Engine -> option bytes * Engine :=
  callSyncRpc env CallReloadAsrBackend "Failed to reload ASR backend.".
Definition callStartAdapter (env : Env) (id : bytes) : Engine -> option bytes * Engine :=
  callSyncRpc env (CallStartAdapter id) "Failed to start adapter.".
Definition callStopAdapter (env : Env) (id : bytes) : Engine -> option bytes * Engine :=
  callSyncRpc env (CallStopAdapter id) "Failed to stop adapter.".

Definition notifyError (message : bytes) (e : Engine) : Engine := if is_empty message then e else emit (NotifyError message) e.
Definition notifyInfo (message : bytes) (e : Engine) : Engine := if is_empty message then e else emit (NotifyInfo message) e.
Definition notify_failure (error fallback : bytes) (e : Engine) : Engine := notifyError (if is_empty error then fallback else error) e.

(** [onSelect] of the four commands, in a build with local recognition. *)
Definition onSelect_model (env : Env) (it : PaletteItem) (e : Engine) : Engine :=
  let e := emit (SaveConfig (SetActiveCommandModel (pi_provider_id it) (pi_model_id it) (config env))) e in
  if save_ok env then notifyInfo ("Command model set to '" ++ pi_provider_id it ++ " / " ++ pi_model_id it ++ "'.") e
  else notifyError "Failed to save core config" e.
Definition onSelect_asr (env : Env) (it : PaletteItem) (e : Engine) : Engine :=
  match select_asr it (config env) with
  | Err error => notifyError error e
  | Ok c =>
      let e := emit (SaveConfig c) e in
      if negb (save_ok env) then notifyError "Failed to save ASR config." e
      else
        let requested := notifyInfo ("ASR switch requested for '" ++ pi_text it ++ "'.") in
        let '(status, e) := queryDaemonStatus env e in
        if is_empty status then requested e
        else match callReloadAsrBackend env e with
             | (Some error, e) => notify_failure error "Failed to reload ASR backend." e
             | (None, e) => requested e
             end
  end.
Definition onSelect_scene (env : Env) (it : PaletteItem) (e : Engine) : Engine :=
  let e := emit (SaveConfig (select_scene it (config env))) e in
  if negb (save_ok env) then notifyError "Failed to save scene config." e
  else notifyInfo ("Scene switched to '" ++ pi_text it ++ "'.") (e <| active_scene_id := pi_scene_id it |>).
Definition onSelect_adapter (env : Env) (it : PaletteItem) (e : Engine) : Engine :=
  if pi_adapter_running it then
    match callStopAdapter env (pi_adapter_id it) e with
    | (Some error, e) => notify_failure error "Failed to stop adapter." e
    | (None, e) => notifyInfo ("Adapter '" ++ pi_text it ++ "' stopped.") e
    end
  else
    match callStartAdapter env (pi_adapter_id it) e with
    | (Some error, e) => notify_failure error "Failed to start adapter." e
    | (None, e) => notifyInfo ("Adapter '" ++ pi_text it ++ "' started.") e
    end.
Definition onSelect (env : Env) (it : PaletteItem) (e : Engine) : Engine :=
  match pi_category it with
  | CatCommandModel => onSelect_model env it e
  | CatAsr => onSelect_asr env it e
  | CatScene => onSelect_scene env it e
  | CatAdapter => onSelect_adapter env it e
  | CatCustom => e                               (* no command of this category *)
  end.

Definition selectPaletteItem (env : Env) (index : nat) (i : option IC) (e : Engine) : Engine :=
  match palette_items e !! index with
  | None => hidePaletteMenu e
  | Some it =>
      if pi_is_command_entry it then
        let e := e <| palette_query := entry_query it |> in
        rebuildPaletteMenu (match palette_menu_ic e with Some j => Some j | None => i end) e
      else onSelect env it (hidePaletteMenu e)
  end.

Definition selectResultCandidate (env : Env) (index : nat) (i : option IC) (e : Engine) : Engine :=
  match result_candidates e !! index, i with
  | Some chosen, Some i =>
      let e := hideResultMenu e in
      let e := if cand_source chosen =b kSourceLlm then appendContextEntry (cand_text chosen) kSourceLlm e else e in
      let e := suppressNextCommitContext (cand_text chosen) e in
      let e := if result_is_command e then delete_selection env i e <| result_is_command := false |> else e in
      commitString i (cand_text chosen) e
  | _, _ => hideResultMenu e
  end.

Definition IsKeySym (k : Key) (s : N) : bool := (sym (normalize k) =? s)%N && plain (normalize (normalize k)).
Definition IsEnterKey (k : Key) : bool := IsKeySym k FcitxKey_Return || IsKeySym k FcitxKey_KP_Enter.
Definition IsPagePrevKey (k : Key) : bool := IsKeySym k FcitxKey_Page_Up || IsKeySym k FcitxKey_KP_Page_Up.
Definition IsPageNextKey (k : Key) : bool := IsKeySym k FcitxKey_Page_Down || IsKeySym k FcitxKey_KP_Page_Down.
Definition IsPureModifierKey (k : Key) : bool := isModifier (normalize k).
Definition IsPrintableMenuInput (k : Key) : bool :=
  if IsEnterKey k || IsKeySym k FcitxKey_Escape || IsKeySym k FcitxKey_BackSpace || IsKeySym k FcitxKey_Up
     || IsKeySym k FcitxKey_Down || IsPagePrevKey k || IsPageNextKey k || IsPureModifierKey k then false
  else match digitSelection k with
       | Some _ => false
       | None =>
           let utf8 := keySymToUTF8 (sym (normalize k)) in
           plain (normalize k) && negb (is_empty utf8)
           && forallb (fun c => (32 <=? N_of_ascii c)%N && negb (N_of_ascii c =? 127)%N) utf8
       end.

Definition matchKeyListIndex (k : Key) (l : list Key) (is_release : bool) : option nat :=
  match keyListIndex k l with
  | Some i => Some i
  | None =>
      if is_release && isModifier k
      then fst <$> list_find (fun k' => isReleaseOfModifier k k' = true) l
      else None
  end.

Record KeyEvent := { ke_ic : option IC; ke_key : Key; ke_orig : Key; ke_release : bool; ke_menu : option MenuView }.

(** A chosen position of the candidate list. *)
Definition chosen_entry (view : option MenuView) (position : Z) : option nat :=
  match view with
  | Some v => if (0 <=? position)%Z && (position <? Z.of_nat (mv_size v))%Z then Some (mv_entry v (Z.to_nat position)) else None
  | None => None
  end.
Definition movable (view : option MenuView) : bool := match view with Some v => mv_movable v | None => false end.

(** Was the key handled? *)
Definition handleResultMenuKeyEvent (env : Env) (ev : KeyEvent) (e : Engine) : bool * Engine :=
  match result_menu_visible e, result_menu_ic e with
  | true, Some i =>
      let k := ke_key ev in
      let digit := digitSelection k in
      if ke_release ev then
        (match digit with Some _ => true | None => false end || checkKeyList k (page_prev_keys e)
         || checkKeyList k (page_next_keys e) || check k FcitxKey_Up || check k FcitxKey_Down || check k FcitxKey_Return
         || check k FcitxKey_KP_Enter || check k FcitxKey_Escape, e)
      else if check k FcitxKey_Escape then (true, hideResultMenu e)
      else if (match ke_menu ev with None => true | Some v => mv_size v =? 0 end) || is_empty (result_candidates e)
      then (false, hideResultMenu e)
      else if checkKeyList k (page_prev_keys e) then (true, emit (MenuPaged i false) e)
      else if checkKeyList k (page_next_keys e) then (true, emit (MenuPaged i true) e)
      else
        match match digit with Some d => chosen_entry (ke_menu ev) (Z.of_nat d) | None => None end with
        | Some index => (true, selectResultCandidate env index (Some i) e)
        | None =>
            if movable (ke_menu ev) && check k FcitxKey_Up then (true, emit (MenuMoved i false) e)
            else if movable (ke_menu ev) && check k FcitxKey_Down then (true, emit (MenuMoved i true) e)
            else if check k FcitxKey_Return || check k FcitxKey_KP_Enter then
              (true, match chosen_entry (ke_menu ev) (Z.max 0 (match ke_menu ev with Some v => mv_cursor v | None => -1 end)) with
                     | Some index => selectResultCandidate env index (Some i) e
                     | None => hideResultMenu e
                     end)
            else (false, hideResultMenu e)
        end
  | _, _ => (false, e)
  end.

(** The query changes and the menu is rebuilt; an empty query closes it. *)
Definition edit_query (i : IC) (f : bytes -> bytes) (e : Engine) : Engine :=
  if is_empty (palette_query e) then hidePaletteMenu e
  else rebuildPaletteMenu (Some i) (e <| palette_query := f (palette_query e) |>).

Definition handlePaletteMenuKeyEvent (env : Env) (ev : KeyEvent) (e : Engine) : bool * Engine :=
  match palette_menu_visible e, palette_menu_ic e with
  | true, Some i =>
      let k := ke_key ev in
      match matchKeyListIndex k (menu_keys e) (ke_release ev) with
      | Some _ => (false, e)
      | None =>
          let printable := IsPrintableMenuInput k in
          let handled := IsPagePrevKey k || IsPageNextKey k || (match digitSelection k with Some _ => true | None => false end)
                         || IsKeySym k FcitxKey_BackSpace || IsKeySym k FcitxKey_Up || IsKeySym k FcitxKey_Down
                         || IsEnterKey k || IsKeySym k FcitxKey_Escape || IsPureModifierKey k || printable in
          if ke_release ev then (handled, e)
          else if negb handled then (false, hidePaletteMenu e)
          else if IsPureModifierKey k then (true, e)
          else if IsKeySym k FcitxKey_Escape then (true, edit_query i (fun _ => []) e)
          else if IsKeySym k FcitxKey_BackSpace then (true, edit_query i PopLastUtf8Char e)
          else if printable then
            (true, rebuildPaletteMenu (Some i)
                     (e <| palette_query := palette_query e ++ keySymToUTF8 (sym (normalize k)) |>))
          else if IsPagePrevKey k then (true, emit (MenuPaged i false) e)
          else if IsPageNextKey k then (true, emit (MenuPaged i true) e)
          else
            match match digitSelection k with Some d => chosen_entry (ke_menu ev) (Z.of_nat d) | None => None end with
            | Some index => (true, selectPaletteItem env index (Some i) e)
            | None =>
                if movable (ke_menu ev) && IsKeySym k FcitxKey_Up then (true, emit (MenuMoved i false) e)
                else if movable (ke_menu ev) && IsKeySym k FcitxKey_Down then (true, emit (MenuMoved i true) e)
                else if IsEnterKey k then
                  (true, match chosen_entry (ke_menu ev) (Z.max 0 (match ke_menu ev with Some v => mv_cursor v | None => -1 end)) with
                         | Some index => selectPaletteItem env index (Some i) e
                         | None => hidePaletteMenu e
                         end)
                else (false, hidePaletteMenu e)
            end
      end
  | _, _ => (false, e)
  end.

Definition toggleCommandPalette (env : Env) (i : option IC) (e : Engine) : Engine :=
  if palette_menu_visible e then hidePaletteMenu e
  else match session e with Some _ => e | None => showPaletteMenu env i e end.

(** ** Keys *)

(** A recording is thrown away. *)
Definition discard (e : Engine) : Engine :=
  match session e with
  | Some s => clearVoicePresentation (Some (ic s)) (finishFrontendSession (Some (ic s)) (callCancelOperation false e))
  | None => e
  end.

Definition update_session (f : Session -> Session) (e : Engine) : Engine := e <| session := f <$> session e |>.

(** The role of a key and the configured key it matches ([keyListIndex] gives an index of
    the list). *)
Definition classify (k : Key) (is_release : bool) (e : Engine) : option (HotkeyRole * Key) :=
  let matched l := i ← matchKeyListIndex k l is_release; l !! i in
  match matched (trigger_keys e), matched (command_keys e), matched (menu_keys e) with
  | Some m, _, _ => Some (RoleTrigger, m)
  | None, Some m, _ => Some (RoleCommand, m)
  | None, None, Some m => Some (RoleMenu, m)
  | None, None, None => None
  end.
Definition is_voice (r : HotkeyRole) : bool := bool_decide (r = RoleTrigger \/ r = RoleCommand).

(** A press of the hotkey while a recording starts or runs. *)
Definition press_again (env : Env) (s : Session) (m : Key) (e : Engine) : Engine :=
  if bool_decide (trigger s = m) then
    if trigger_released s then
      if bool_decide (phase s = Phase.PendingStart) then discard e else finishStopRecording env e
    else e
  else discard e.

Definition new_press (env : Env) (i : option IC) (k : Key) (role : HotkeyRole) (m : Key) (e : Engine) : Engine :=
  let e := e <| held_key_sym := Some (sym k) |> <| held_role := role |> <| chord_interrupted := false |>
             <| held_press_time := now env |> in
  if is_voice role && negb (bool_decide (trigger_mode e = Tap)) then
    update_session (fun s => s <| press_time := now env |> <| stop_on_release := true |> <| trigger_released := false |>)
      (startVoiceRecording env i m (bool_decide (role = RoleCommand)) e)
  else e.

Definition press (env : Env) (i : option IC) (k : Key) (role : HotkeyRole) (m : Key) (e : Engine) : Engine :=
  if is_voice role then
    let since_last := (now env - last_trigger_time e)%Z in
    let e := e <| last_trigger_time := now env |> in
    if (since_last <? kTriggerDebounce)%Z then e
    else
      let e := cancelPendingStop (dismissMenusForVoiceActivity e) in
      match session e with
      | Some s =>
          if bool_decide (phase s = Phase.Recording \/ phase s = Phase.PendingStart)
          then press_again env s m e
          else new_press env i k role m e
      | None => new_press env i k role m e
      end
  else new_press env i k role m e.

Definition is_recording (e : Engine) : bool :=
  match session e with Some s => bool_decide (phase s = Phase.Recording) | None => false end.

(** The release of the key that is held. *)
Definition release_held (env : Env) (i : option IC) (role : HotkeyRole) (m : Key) (e : Engine) : Engine :=
  if bool_decide (role = RoleMenu) then
    match session e with None => toggleCommandPalette env i e | Some _ => e end
  else
    match trigger_mode e with
    | Hold => if is_recording e then scheduleStopRecording env e else e
    | Tap =>
        match session e with
        | None =>
            update_session (fun s => s <| press_time := now env |> <| trigger_released := true |> <| stop_on_release := false |>)
              (startVoiceRecording env i m (bool_decide (role = RoleCommand)) e)
        | Some _ => if is_recording e then scheduleStopRecording env e else e
        end
    | Both =>
        if (now env - held_press_time e <? kTapMaxHoldDuration)%Z
        then update_session (fun s => s <| trigger_released := true |> <| stop_on_release := false |>) e
        else if is_recording e then scheduleStopRecording env e else e
    end.

Definition release (env : Env) (i : option IC) (k : Key) (role : HotkeyRole) (m : Key) (e : Engine) : Engine :=
  let during e :=
    match session e with
    | Some s =>
        if bool_decide (trigger s = m) then
          let e := e <| session := Some (s <| trigger_released := true |>) |> in
          if stop_on_release s && bool_decide (phase s = Phase.Recording) then scheduleStopRecording env e else e
        else e
    | None => e
    end in
  if bool_decide (held_role e = role) && bool_decide (held_key_sym e = Some (sym k)) then
    let e := e <| held_role := RoleNone |> <| held_key_sym := None |> in
    if chord_interrupted e then cancelPendingStart (e <| chord_interrupted := false |>)
    else during (release_held env i role m e)
  else during e.

(** A key that is no hotkey breaks the held one. *)
Definition other_press (e : Engine) : Engine :=
  if bool_decide (held_role e = RoleNone) then e
  else
    let e := cancelPendingStart (e <| chord_interrupted := true |>) in
    match session e with
    | Some s => if stop_on_release s && negb (trigger_released s) then discard e else e
    | None => e
    end.

(** Was the event filtered? *)
Definition handleKeyEvent (env : Env) (ev : KeyEvent) (e : Engine) : bool * Engine :=
  let e := rememberInputContext (ke_ic ev) e in
  let k := ke_key ev in
  let pending_release :=
    match postprocessing_release e with
    | Some r => ke_release ev && (sym (normalize k) =? sym (normalize r))%N
    | None => false
    end in
  if pending_release then (true, e <| postprocessing_release := None |>)
  else
    let cancel :=
      match session e with
      | Some s =>
          if bool_decide (phase s = Phase.Postprocessing) && (last_known_status e =b kStatusPostprocessing) then
            let discard_key := check k FcitxKey_Escape in
            let raw_key := sess_raw_prev s && negb (command_mode s) && (check k FcitxKey_Return || check k FcitxKey_KP_Enter) in
            if discard_key || raw_key then Some raw_key else None
          else None
      | None => None
      end in
    match cancel with
    | Some commit_raw =>
        (true, if ke_release ev then e else callCancelOperation commit_raw (e <| postprocessing_release := Some k |>))
    | None =>
        let '(handled, e) := if result_menu_visible e then handleResultMenuKeyEvent env ev e else (false, e) in
        if handled : bool then (true, e)
        else
          let '(handled, e) := if palette_menu_visible e then handlePaletteMenuKeyEvent env ev e else (false, e) in
          if handled : bool then (true, e)
          else
            let k := normalize (ke_orig ev) in
            match classify k (ke_release ev) e with
            | None => (false, if ke_release ev then e else other_press e)
            | Some (role, m) =>
                (true, if ke_release ev then release env (ke_ic ev) k role m e else press env (ke_ic ev) k role m e)
            end
    end.

(** ** The other events *)

Definition on_created (i : IC) (e : Engine) : Engine := rememberInputContext (Some i) e.

Definition on_destroyed (i : IC) (e : Engine) : Engine :=
  let gone o := bool_decide (o = Some i) in
  let e :=
    match session e with
    | Some s =>
        if (ic s =? i)%N then
          let e := if bool_decide (phase s = Phase.Inferring) then e else callCancelOperation false e in
          e <| session := None |> <| polled_idle_since := None |>
        else e
    | None => e
    end in
  let e := if gone (status_ic e) then stopStatusSyncIfIdle (e <| status_ic := None |>) else e in
  let e := if gone (last_active_ic e) then e <| last_active_ic := None |> else e in
  let e := if gone (palette_menu_ic e) then resetPaletteMenuState e else e in
  let e := if gone (result_menu_ic e) then resetResultMenuState e else e in
  if gone (context_ic e) then flushContextBuffer e else e.

Definition on_focus_out (i : IC) (e : Engine) : Engine :=
  let e := e <| held_key_sym := None |> <| held_role := RoleNone |> <| chord_interrupted := true |> in
  match session e with
  | Some s => if (ic s =? i)%N && stop_on_release s then discard e else e
  | None => e
  end.

(** The settings of the addon. *)
Record VinputConfig := {
  triggerKeys : list Key; commandKeys : list Key; menuKeys : list Key; pagePrevKeys : list Key; pageNextKeys : list Key;
  triggerMode : TriggerMode; maxStreamingDisplayWidth : Z;
}.
Definition applySettings (env : Env) (c : VinputConfig) (e : Engine) : Engine :=
  let e := e <| trigger_keys := triggerKeys c |> <| command_keys := commandKeys c |> <| menu_keys := menuKeys c |>
             <| page_prev_keys := pagePrevKeys c |> <| page_next_keys := pageNextKeys c |>
             <| trigger_mode := triggerMode c |> <| max_streaming_display_width := maxStreamingDisplayWidth c |> in
  reloadSceneConfig (config env) e <| palette_items := reloadPaletteItems (palette_world env) (config env) initializePaletteRegistry |>.
(** ** The event loop *)

Inductive Event :=
  | EvKey (ev : KeyEvent)
  | EvCreated (i : IC) | EvDestroyed (i : IC) | EvFocusOut (i : IC)
  | EvCommitString (text : bytes) (i : IC)
  | EvStopTimer | EvStatusTimer | EvContextTimer
  | EvStartReply (r : Reply) | EvStopReply (r : Reply) | EvStatusReply (t : Ticket) (r : option bytes)
  | EvStatusChanged (status : bytes) | EvPartial (text : bytes) | EvResult (p : Payload)
  | EvPaletteClick (index : nat) (i : IC) | EvResultClick (index : nat) (i : IC)
  | EvSettings (c : VinputConfig).

Definition handle (env : Env) (ev : Event) (e : Engine) : Engine :=
  match ev with
  | EvKey k => (handleKeyEvent env k e).2
  | EvCreated i => on_created i e
  | EvDestroyed i => on_destroyed i e
  | EvFocusOut i => on_focus_out i e
  | EvCommitString text i => onCommitString text (Some i) e
  | EvStopTimer => finishStopRecording env (e <| stop_timer := None |>)
  | EvStatusTimer => on_status_timer env e
  | EvContextTimer => flushContextBuffer (e <| context_timer := false |>)
  | EvStartReply r => on_start_reply env r e
  | EvStopReply r => on_stop_reply env r e
  | EvStatusReply t r => on_status_reply env t r e
  | EvStatusChanged status => onStatusChanged env status e
  | EvPartial text => handleRecognitionPartial env text e
  | EvResult p => onRecognitionResult env p e
  | EvPaletteClick index i => selectPaletteItem env index (Some i) e
  | EvResultClick index i => selectResultCandidate env index (Some i) e
  | EvSettings c => applySettings env c e
  end.

(** The input context an event comes from, and the one an output is for. *)
Definition event_ic (ev : Event) : option IC :=
  match ev with
  | EvKey k => ke_ic k
  | EvDestroyed i | EvFocusOut i | EvCommitString _ i | EvPaletteClick _ i | EvResultClick _ i => Some i
  | _ => None
  end.
Definition output_ic (o : Output) : option IC :=
  match o with
  | Preedit i _ _ | MenuClosed i | MenuShown i _ | MenuPaged i _ | MenuMoved i _ | DeleteSurrounding i _ _ | Commit i _ => Some i
  | _ => None
  end.

(** One step of the system: the input contexts that exist, and the engine with the outputs
    of this event only. *)
Inductive step : gset IC * Engine -> gset IC * Engine -> Prop :=
  | step_created L e env i : i ∉ L ->
      step (L, e) ({[i]} ∪ L, handle env (EvCreated i) (e <| outputs := [] |>))
  | step_destroyed L e env i : i ∈ L ->
      step (L, e) (L ∖ {[i]}, handle env (EvDestroyed i) (e <| outputs := [] |>))
  | step_event L e env ev :
      match ev with EvCreated _ | EvDestroyed _ => False | _ => True end ->
      match event_ic ev with Some i => i ∈ L | None => True end ->
      step (L, e) (L, handle env ev (e <| outputs := [] |>)).

(** ** Invariants *)

Create HintDb frontend.

Definition live (L : gset IC) (o : option IC) : Prop := match o with Some i => i ∈ L | None => True end.

(** Everything the addon refers to, and writes to, exists. *)
Definition refs (e : Engine) : list (option IC) :=
  [ic <$> session e; status_ic e; last_active_ic e; palette_menu_ic e; result_menu_ic e; context_ic e].
Definition safe (L : gset IC) (e : Engine) : Prop :=
  Forall (live L) (refs e) /\ Forall (fun o => live L (output_ic o)) (outputs e).

(** The status context is the session's, and a query is pending exactly while its slot is
    held. *)
Definition coupled (e : Engine) : Prop := status_ic e = ic <$> session e.
Definition gated (e : Engine) : Prop :=
  match status_call e with
  | Some t => active_ (gate e) = true /\ tk_id t = request_id_ (gate e)
  | None => active_ (gate e) = false
  end.
Definition inv (L : gset IC) (e : Engine) : Prop := safe L e /\ coupled e /\ gated e.
(** A session is polled. *)
Definition polled (e : Engine) : Prop := is_Some (session e) -> status_timer e = true.
Definition good (L : gset IC) (e : Engine) : Prop := inv L e /\ polled e.

(** A helper that touches neither the session, nor the polling, nor an input context. *)
Record quiet (e e' : Engine) : Prop := {
  quiet_refs : refs e' = refs e; quiet_out : outputs e' = outputs e; quiet_session : session e' = session e;
  quiet_gate : active_ (gate e') = active_ (gate e) /\ request_id_ (gate e') = request_id_ (gate e);
  quiet_call : status_call e' = status_call e; quiet_timer : status_timer e' = status_timer e;
}.
Lemma quiet_inv L e e' : quiet e e' -> inv L e -> inv L e'.
Proof.
  intros [Hr Ho Hs [Hg1 Hg2] Hc Ht] ([Hs1 Hs2] & Hco & Hga). split; [|split].
  - split; [rewrite Hr | rewrite Ho]; done.
  - unfold coupled in *. injection Hr as _ E _ _ _ _. by rewrite E, Hs.
  - unfold gated in *. by rewrite Hc, Hg1, Hg2.
Qed.
Lemma quiet_polled e e' : quiet e e' -> polled e -> polled e'.
Proof. intros Hq. unfold polled. by rewrite (quiet_session _ _ Hq), (quiet_timer _ _ Hq). Qed.

Ltac quiet := eapply quiet_inv; [|eassumption]; by constructor.

Lemma inv_emit L o e : live L (output_ic o) -> inv L e -> inv L (emit o e).
Proof.
  intros Ho ([Hs1 Hs2] & Hco & Hga). split; [split|done]; [done|].
  apply Forall_app. by repeat constructor.
Qed.
Lemma inv_remember L o e : live L o -> inv L e -> inv L (rememberInputContext o e).
Proof.
  intros Ho Hi. destruct o as [i|]; [|done]. destruct Hi as ([Hs1 Hs2] & Hco & Hga).
  unfold refs in Hs1. decompose_Forall_hyps. by repeat constructor.
Qed.
Lemma inv_hidePalette L e : inv L e -> inv L (hidePaletteMenu e).
Proof.
  intros ([Hs1 Hs2] & Hco & Hga). unfold refs in Hs1. decompose_Forall_hyps.
  assert (inv L (resetPaletteMenuState e)) by (by repeat constructor).
  unfold hidePaletteMenu. repeat case_match; auto. apply inv_emit; [|done]. cbn. by simplify_option_eq.
Qed.
Lemma inv_hideResult L e : inv L e -> inv L (hideResultMenu e).
Proof.
  intros ([Hs1 Hs2] & Hco & Hga). unfold refs in Hs1. decompose_Forall_hyps.
  assert (inv L (resetResultMenuState e)) by (by repeat constructor).
  unfold hideResultMenu. repeat case_match; auto. apply inv_emit; [|done]. cbn. by simplify_option_eq.
Qed.
Hint Resolve inv_emit inv_remember inv_hidePalette inv_hideResult : frontend.

Lemma inv_update L i p a e : live L i -> inv L e -> inv L (updateVoicePresentation i p a e).
Proof. intros Hl Hi. unfold updateVoicePresentation, dismissMenusForVoiceActivity. destruct i; eauto with frontend. Qed.
Lemma inv_status L e : inv L e -> live L (status_ic e).
Proof. intros ([Hs1 _] & _). unfold refs in Hs1. by decompose_Forall_hyps. Qed.
Lemma inv_session L e s : inv L e -> session e = Some s -> ic s ∈ L.
Proof. intros ([Hs1 _] & _) E. unfold refs in Hs1. rewrite E in Hs1. by decompose_Forall_hyps. Qed.
Lemma inv_resolve L o e : live L o -> inv L e -> live L (resolveFrontendInputContext o e).
Proof.
  intros Ho ([Hs1 _] & _). unfold refs in Hs1. decompose_Forall_hyps.
  unfold resolveFrontendInputContext. repeat case_match; by simplify_option_eq.
Qed.
Lemma inv_invalidate L e : inv L e -> inv L (set_gate Invalidate e).
Proof. intros Hi. eapply quiet_inv; [|done]. by constructor. Qed.
Lemma inv_leave L i e : inv L e -> inv L (leave_status_ic i e).
Proof.
  intros Hi. pose proof (inv_status L e Hi) as Hs. unfold leave_status_ic, clearVoicePresentation.
  repeat case_match; auto. by apply inv_update.
Qed.
Lemma inv_enter L env p i k c r e : i ∈ L -> inv L e -> inv L (enter env p i k c r e).
Proof.
  intros Hl ([Hs1 Hs2] & Hco & Hga). unfold refs in Hs1. decompose_Forall_hyps. by repeat constructor.
Qed.
Lemma inv_stop_sync L e : inv L e -> inv L (stopStatusSyncIfIdle e).
Proof.
  intros Hi. unfold stopStatusSyncIfIdle. repeat case_match; auto.
  destruct Hi as ([Hs1 Hs2] & Hco & Hga). split; [done | split; [done|]]. reflexivity.
Qed.
Lemma good_ensure L e : inv L e -> good L (ensureStatusSync e).
Proof.
  intros Hi. unfold ensureStatusSync. pose proof Hi as (_ & Hco & _). unfold coupled in Hco.
  destruct (session e) eqn:E.
  - split; [destruct Hi as ([Hs1 Hs2] & Hc & Hga); by split | done].
  - rewrite Hco. split; [by apply inv_stop_sync|]. unfold stopStatusSyncIfIdle. rewrite E, Hco. cbn. intros [? H']. cbn in H'. congruence.
Qed.
(** What keeps the session and the timer keeps [polled]. *)
Definition framed (e e' : Engine) : Prop := session e' = session e /\ status_timer e' = status_timer e.
Lemma good_framed L e e' : framed e e' -> (inv L e -> inv L e') -> good L e -> good L e'.
Proof. intros [Hs Ht] Hi [He Hp]. split; [auto|]. unfold polled. by rewrite Hs, Ht. Qed.
Lemma good_quiet L e e' : quiet e e' -> good L e -> good L e'.
Proof. intros Hq [Hi Hp]. split; [by eapply quiet_inv | by eapply quiet_polled]. Qed.

Lemma framed_update i p a e : framed e (updateVoicePresentation i p a e).
Proof.
  unfold updateVoicePresentation, dismissMenusForVoiceActivity, hidePaletteMenu, hideResultMenu.
  repeat case_match; done.
Qed.
Lemma framed_flush e : framed e (flushContextBuffer e).
Proof. unfold flushContextBuffer. repeat case_match; done. Qed.

Lemma inv_forget_context L e : inv L e -> inv L (e <| context_ic := None |>).
Proof. intros ([Hs1 Hs2] & Hco & Hga). unfold refs in Hs1. decompose_Forall_hyps. by repeat constructor. Qed.
Lemma inv_write L t src e : inv L e -> inv L (write_context t src e).
Proof. by apply inv_emit. Qed.
Lemma inv_flush L e : inv L e -> inv L (flushContextBuffer e).
Proof.
  intros Hi%inv_forget_context. unfold flushContextBuffer. case_match; [done|].
  eapply quiet_inv; [by constructor|]. case_match; [done|]. by apply inv_write.
Qed.

Lemma good_emit L o e : live L (output_ic o) -> good L e -> good L (emit o e).
Proof. intros Ho. apply good_framed; [done|]. by apply inv_emit. Qed.
Lemma good_remember L o e : live L o -> good L e -> good L (rememberInputContext o e).
Proof. intros Ho. apply good_framed; [by destruct o|]. by apply inv_remember. Qed.
Lemma good_hidePalette L e : good L e -> good L (hidePaletteMenu e).
Proof. apply good_framed; [unfold hidePaletteMenu; by repeat case_match | apply inv_hidePalette]. Qed.
Lemma good_hideResult L e : good L e -> good L (hideResultMenu e).
Proof. apply good_framed; [unfold hideResultMenu; by repeat case_match | apply inv_hideResult]. Qed.
Lemma good_dismiss L e : good L e -> good L (dismissMenusForVoiceActivity e).
Proof. intros Hg. by apply good_hideResult, good_hidePalette. Qed.
Lemma good_update L i p a e : live L i -> good L e -> good L (updateVoicePresentation i p a e).
Proof. intros Hl. apply good_framed; [apply framed_update | by apply inv_update]. Qed.
Lemma good_flush L e : good L e -> good L (flushContextBuffer e).
Proof. apply good_framed; [apply framed_flush | apply inv_flush]. Qed.
Lemma good_cancel L b e : good L e -> good L (callCancelOperation b e).
Proof. intros Hg. unfold callCancelOperation. case_match; [by apply good_emit | done]. Qed.
Lemma good_schedule L env e : good L e -> good L (scheduleStopRecording env e).
Proof. by apply good_quiet. Qed.
Lemma good_note L env e : good L e -> good L (noteDaemonSyncFailure env e).
Proof. by apply good_quiet. Qed.
Lemma good_settings L c e : good L e -> good L (reloadSceneConfig c e).
Proof.
  intros [Hi Hp]. unfold reloadSceneConfig. case_match; [|by split].
  split; [|done]. destruct Hi as ([Hs1 Hs2] & Hco & Hga). unfold refs in Hs1. decompose_Forall_hyps. by repeat constructor.
Qed.
Hint Resolve good_emit good_remember good_hidePalette good_hideResult good_dismiss good_update good_flush good_cancel
  good_schedule good_note good_settings : frontend.
Hint Extern 1 (live _ _) => first [exact I | assumption] : frontend.

Lemma good_pending L env i k c e : live L i -> good L e -> good L (enterPendingStartState env i k c e).
Proof.
  intros Hl [Hi Hp]. unfold enterPendingStartState. destruct i as [i|]; [|done].
  apply good_ensure, inv_update; [done|]. by apply inv_enter, inv_leave, inv_invalidate, inv_remember.
Qed.
Lemma good_recording L env i k c e : live L i -> good L e -> good L (enterRecordingState env i k c e).
Proof.
  intros Hl [Hi Hp]. unfold enterRecordingState. destruct i as [i|]; [|done]. cbv zeta.
  assert (Hq : forall b e', good L e' -> good L (if b : bool then scheduleStopRecording env e' else e')).
  { intros [] e' Hg; [by apply good_schedule | done]. }
  apply Hq, good_ensure, inv_update; [done|]. by apply inv_enter, inv_leave, inv_remember.
Qed.
Lemma good_busy L env i c p po r e : live L i -> good L e -> good L (enterBusyState env i c p po r e).
Proof.
  intros Hl [Hi Hp]. unfold enterBusyState. destruct i as [i|]; [|done]. cbv zeta.
  assert (He : forall r, inv L (enter env (if po then Phase.Postprocessing else Phase.Inferring) i no_key c r
                      (leave_status_ic i (rememberInputContext (Some i) e)))).
  { intros. by apply inv_enter, inv_leave, inv_remember. }
  apply good_ensure. repeat case_match; by apply inv_update.
Qed.
Lemma polled_stop e : session e = None -> polled (stopStatusSyncIfIdle e).
Proof. intros E. unfold polled, stopStatusSyncIfIdle. rewrite E. case_match; intros [? Hs]; cbn in Hs; congruence. Qed.
Lemma good_finish L o e : live L o -> good L e -> good L (finishFrontendSession o e).
Proof.
  intros Ho [Hi Hp]. unfold finishFrontendSession. cbv zeta.
  pose proof (inv_invalidate L e Hi) as Hi'. set (e1 := set_gate Invalidate e) in *. clearbody e1. clear Hi Hp e.
  set (j := match session e1 with Some s => Some (ic s) | None => _ end).
  assert (Hj : live L j).
  { subst j. pose proof (inv_status _ _ Hi'). destruct (session e1) eqn:E; [exact (inv_session _ _ _ Hi' E)|].
    by destruct o. }
  assert (inv L (e1 <| session := None |> <| polled_idle_since := None |> <| command_selected_text := [] |>
             <| status_ic := (if bool_decide (status_ic e1 = j) then None else status_ic e1) |>)) as H2.
  { destruct Hi' as ([Hs1 Hs2] & Hco & Hga). unfold refs in Hs1. decompose_Forall_hyps.
    assert (Hn : (if bool_decide (status_ic e1 = j) then None else status_ic e1) = None).
    { case_bool_decide as Hb; [done|]. subst j. unfold coupled in Hco. destruct (session e1); [by destruct (Hb Hco) | done]. }
    split; [split; [by repeat constructor; rewrite ?Hn|done] | split; [by unfold coupled; cbn | done]]. }
  split; [by apply inv_stop_sync, inv_update|].
  apply polled_stop. unfold clearVoicePresentation. by rewrite (proj1 (framed_update _ _ _ _)).
Qed.
Hint Resolve good_pending good_recording good_busy good_finish : frontend.
Lemma good_live_session L e s : good L e -> session e = Some s -> ic s ∈ L.
Proof. intros [Hi _]. by apply inv_session. Qed.
Lemma good_call L env call slot e :
  live L (output_ic call) -> (forall b e', quiet e' (slot b e')) -> good L e -> good L (call_daemon env call slot e).2.
Proof.
  intros Ho Hq Hg. unfold call_daemon. case_match; [by apply good_note|]. cbv zeta.
  assert (good L (slot (call_ok env) (emit call e))) by (eapply good_quiet; [apply Hq | by apply good_emit]).
  case_match; [done | by apply good_note].
Qed.
Lemma good_callStart L env e : good L e -> good L (callStartRecording env e).2.
Proof. intros Hg. apply good_call; [done | done | by apply good_flush, (good_quiet L e)]. Qed.
Lemma good_callCommand L env t e : good L e -> good L (callStartCommandRecording env t e).2.
Proof. intros Hg. apply good_call; [done | done | by apply good_flush, (good_quiet L e)]. Qed.
Lemma good_callStop L env t e : good L e -> good L (callStopRecording env t e).2.
Proof. intros Hg. by apply good_call. Qed.
Lemma good_resolve L o e : live L o -> good L e -> live L (resolveFrontendInputContext o e).
Proof. intros Ho [Hi _]. by apply inv_resolve. Qed.
Hint Resolve good_callStart good_callCommand good_callStop good_resolve good_live_session : frontend.

Lemma good_session_update L (f : Session -> Session) e :
  (forall s, session e = Some s -> ic (f s) = ic s) -> good L e -> good L (update_session f e).
Proof.
  intros Hf [([Hs1 Hs2] & Hco & Hga) Hp].
  assert (Hic : ic <$> (f <$> session e) = ic <$> session e) by (destruct (session e); cbn; by rewrite ?Hf).
  split; [split; [|split; [|done]]|].
  - split; [|done]. change (refs (update_session f e)) with ((ic <$> (f <$> session e)) :: tail (refs e)). by rewrite Hic.
  - change (status_ic e = ic <$> (f <$> session e)). by rewrite Hic.
  - change (is_Some (f <$> session e) -> status_timer e = true). intros Hs. apply Hp. by apply fmap_is_Some in Hs.
Qed.
(** Assigning to fields of [*session_]. *)
Lemma good_set_session L s s' e : session e = Some s -> ic s' = ic s -> good L e -> good L (e <| session := Some s' |>).
Proof.
  intros E Hs Hg. assert (He : e <| session := Some s' |> = update_session (fun _ => s') e) by (unfold update_session; by rewrite E).
  rewrite He. apply good_session_update; [|done]. intros s0 E0. congruence.
Qed.

Lemma good_reply L env r e : good L e -> good L (on_call_reply env r e).
Proof.
  intros Hg. unfold on_call_reply. case_match; [|by eapply good_quiet; [|done]].
  assert (good L (noteDaemonSyncFailure env e)) by auto with frontend.
  apply good_update; [|apply good_finish; [|done]]; by apply good_resolve.
Qed.
Lemma good_finishStop L env e : good L e -> good L (finishStopRecording env e).
Proof.
  intros Hg. unfold finishStopRecording. destruct (session e) as [s|] eqn:E; [|done]. case_match; [|done]. cbv zeta.
  set (scene := Resolve _ _). pose proof (good_live_session L e s Hg E) as Hl.
  apply good_callStop, good_busy; [done|].
  eapply (good_set_session L s); [| |eapply good_quiet; [|by apply (good_settings L (config env) e)]]; [|done|by constructor].
  unfold reloadSceneConfig. by case_match.
Qed.
Lemma good_apply L env status o c e : live L o -> good L e -> good L (applyDaemonStatusLocally env status o c e).
Proof.
  intros Ho Hg. pose proof (good_resolve L o e Ho Hg) as Hr.
  unfold applyDaemonStatusLocally. case_match; [done|]. destruct (resolveFrontendInputContext o e); [|done].
  cbv zeta. repeat case_match; eauto with frontend.
Qed.
Lemma good_refused L env i e : live L i -> good L e -> good L (start_refused env i e).
Proof. intros Hl Hg. unfold start_refused. cbv zeta. repeat case_match; auto with frontend. Qed.
Hint Resolve good_reply good_finishStop good_apply good_refused : frontend.

Lemma good_after_call L env i (r : bool * Engine) :
  live L i -> good L r.2 -> good L (let '(ok, e) := r in if ok : bool then e else start_refused env i e).
Proof. destruct r as [[] e]; cbn; auto with frontend. Qed.

Lemma good_start_command L env i k e : live L i -> good L e -> good L (start_command env i k e).
Proof.
  intros Hl Hg. unfold start_command, clearVoicePresentation. cbv zeta.
  destruct (CommandScene _); [|auto with frontend]. case_match; [auto with frontend|].
  destruct (is_empty _ || _); [auto with frontend|]. destruct (is_empty _).
  - case_match; auto with frontend.
  - apply good_after_call; auto with frontend.
Qed.
Lemma good_start L env i k c e : live L i -> good L e -> good L (startVoiceRecording env i k c e).
Proof.
  intros Hl Hg. unfold startVoiceRecording. destruct i as [i|]; [|done]. cbv zeta.
  assert (Hg' : good L (cancelPendingStop (dismissMenusForVoiceActivity e))).
  { eapply good_quiet; [|by apply good_dismiss]. done. }
  destruct (_ && _ && _); [auto with frontend|]. destruct (_ && _); [auto with frontend|].
  destruct c; [by apply good_start_command|]. apply good_after_call; auto with frontend.
Qed.
Hint Resolve good_start : frontend.
Lemma good_discard L e : good L e -> good L (discard e).
Proof.
  intros Hg. unfold discard, clearVoicePresentation. destruct (session e) as [s|] eqn:E; [|done].
  pose proof (good_live_session L e s Hg E). auto with frontend.
Qed.
Lemma good_sync L env e : good L e -> good L (syncFrontendWithDaemonStatus env e).
Proof.
  intros Hg. unfold syncFrontendWithDaemonStatus. case_match; [done|]. unfold TryBegin.
  destruct (active_ (gate e)) eqn:Ea; [done|]. destruct Hg as [([Hs1 Hs2] & Hco & Hga) Hp].
  assert (Hout : Forall (fun o => live L (output_ic o)) (outputs e ++ [CallGetStatus])) by (apply Forall_app; by repeat constructor).
  case_match; by (split; [split; [split; [done | exact Hout] | done] | done]).
Qed.
Lemma good_status_timer L env e : good L e -> good L (on_status_timer env e).
Proof.
  intros Hg%(good_sync L env). unfold on_status_timer. cbv zeta. set (e1 := syncFrontendWithDaemonStatus env e) in *. clearbody e1.
  destruct (session e1) eqn:E; [done|]. destruct (status_ic e1); [done|].
  destruct Hg as [([Hs1 Hs2] & Hco & Hga) Hp]. split; [done|]. intros [s Hs]. cbn in Hs. congruence.
Qed.
Lemma good_status_reply L env t r e : good L e -> good L (on_status_reply env t r e).
Proof.
  intros Hg. unfold on_status_reply, CompleteTicket. destruct (IsActive (gate e) t) eqn:Ea; [|done]. cbn [negb].
  assert (Hg' : good L (e <| status_call := None |>
     <| gate := {| generation_ := generation_ (gate e); request_id_ := request_id_ (gate e); active_ := false |} |>)).
  { by destruct Hg as [([Hs1 Hs2] & Hco & Hga) Hp]. }
  set (e1 := e <| status_call := None |> <| gate := _ |>) in *. clearbody e1. case_match; [done|].
  destruct r as [status|]; [|auto with frontend]. cbv zeta. case_match; [by eapply good_quiet; [|done]|].
  assert (Hq : forall x, good L (clearDaemonSyncFailure e1 <| last_known_status := status |> <| polled_idle_since := x |>)).
  { intros x. by eapply good_quiet; [|done]. }
  repeat case_match; try (apply good_apply; [done|]); apply Hq.
Qed.
Lemma good_status_changed L env status e : good L e -> good L (onStatusChanged env status e).
Proof.
  intros Hg. unfold onStatusChanged. cbv zeta. apply good_apply; [done|].
  assert (good L (set_gate Invalidate e <| last_known_status := status |> <| polled_idle_since := None |>))
    by (by eapply good_quiet; [|done]).
  apply good_remember; [by apply good_resolve | done].
Qed.
Lemma good_partial L env text e : good L e -> good L (handleRecognitionPartial env text e).
Proof.
  intros Hg. pose proof (good_resolve L None e I Hg) as Hr. unfold handleRecognitionPartial. case_match; [done|].
  destruct (resolveFrontendInputContext None e) as [i|]; [|done]. cbv zeta.
  pose proof (good_remember L (Some i) e Hr Hg) as Hg'. set (e1 := rememberInputContext _ _) in *. clearbody e1.
  destruct (session e1) as [s|] eqn:E; [|done].
  assert (Hs : good L (e1 <| session := Some (s <| transcript_text := text |>) |>)) by (by apply (good_set_session L s)).
  destruct (bool_decide _); [apply good_busy; [exact Hr | exact Hs]|].
  destruct (_ && _); [exact Hs | apply good_update; [exact Hr | exact Hs]].
Qed.
Lemma good_append L t src e : good L e -> good L (appendContextEntry t src e).
Proof.
  intros Hg. unfold appendContextEntry, write_context. repeat case_match; auto with frontend.
Qed.
Lemma good_commit_event L t i e : live L i -> good L e -> good L (onCommitString t i e).
Proof.
  intros Hl Hg.
  assert (Ha : forall e, good L e -> good L (accumulateContextBuffer t i e)).
  { clear e Hg. intros e Hg. unfold accumulateContextBuffer. cbv zeta.
    set (e1 := if _ && _ then flushContextBuffer e else e). assert (Hg1 : good L e1) by (subst e1; case_match; auto with frontend).
    clearbody e1. set (g := if is_empty _ then _ else _).
    assert (good L (e1 <| context_ic := i |> <| context_text := context_text e1 ++ g ++ t |>)).
    { clearbody g. destruct Hg1 as [([Hs1 Hs2] & Hco & Hga) Hp]. split; [|done]. split; [|done].
      split; [|done]. unfold refs in Hs1. decompose_Forall_hyps. by repeat constructor. }
    case_match; [auto with frontend | by eapply good_quiet; [|done]]. }
  assert (Hq : good L (e <| suppressed_commit := None |>)) by (by eapply good_quiet; [|done]).
  unfold onCommitString. repeat case_match; auto.
Qed.
Lemma good_commit L i t e : i ∈ L -> good L e -> good L (commitString i t e).
Proof. intros Hl Hg. by apply good_commit_event, good_emit. Qed.
Hint Resolve good_discard good_append good_commit : frontend.
Lemma good_delete L env i e : i ∈ L -> good L e -> good L (delete_selection env i e).
Proof. intros Hl Hg. unfold delete_selection. repeat case_match; auto with frontend. Qed.
Lemma good_suppress L t e : good L e -> good L (suppressNextCommitContext t e).
Proof. by apply good_quiet. Qed.
Hint Resolve good_delete good_suppress : frontend.

Lemma good_show_result L i p e : i ∈ L -> good L e -> good L (showResultMenu i p e).
Proof.
  intros Hl Hg. unfold showResultMenu. case_match; [done|]. cbv zeta. apply good_emit; [done|].
  destruct (good_hidePalette L e Hg) as [([Hs1 Hs2] & Hco & Hga) Hp]. split; [|done]. split; [|done].
  split; [|done]. unfold refs in Hs1. set (e1 := hidePaletteMenu e) in *. clearbody e1. decompose_Forall_hyps. by repeat constructor.
Qed.
Lemma good_result L env p e : good L e -> good L (onRecognitionResult env p e).
Proof.
  intros Hg. pose proof (good_resolve L None e I Hg) as Hr. unfold onRecognitionResult. cbv zeta.
  destruct (resolveFrontendInputContext None e) as [i|]; [|done].
  assert (Hg' : good L (finishFrontendSession (Some i) (rememberInputContext (Some i) e))) by auto with frontend.
  set (e1 := finishFrontendSession _ _) in *. clearbody e1. destruct (is_empty (commitText p)); [done|].
  set (e2 := match asr_candidate _ _ _ with Some _ => _ | None => _ end).
  assert (good L e2) by (subst e2; repeat case_match; auto with frontend). clearbody e2.
  destruct (if match session e with Some s => command_mode s | None => false end then _ else _).
  { apply good_show_result; [done|]. by eapply good_quiet; [|done]. }
  apply good_commit; [done|]. repeat case_match; auto with frontend.
Qed.
Hint Resolve good_result good_partial good_status_changed good_status_reply good_status_timer good_show_result : frontend.
Lemma good_menu_ics L e : good L e -> live L (palette_menu_ic e) /\ live L (result_menu_ic e).
Proof. intros [([Hs1 _] & _) _]. unfold refs in Hs1. by decompose_Forall_hyps. Qed.
Lemma good_rebuild L i e : live L i -> good L e -> good L (rebuildPaletteMenu i e).
Proof. intros Hl Hg. unfold rebuildPaletteMenu. destruct i; auto with frontend. Qed.
Hint Resolve good_rebuild : frontend.
Lemma good_show_palette L env i e : live L i -> good L e -> good L (showPaletteMenu env i e).
Proof.
  intros Hl Hg. unfold showPaletteMenu. destruct i as [i|]; [|done]. apply good_rebuild; [done|].
  destruct Hg as [([Hs1 Hs2] & Hco & Hga) Hp]. split; [|done]. split; [|done].
  split; [|done]. unfold refs in Hs1. decompose_Forall_hyps. by repeat constructor.
Qed.
Lemma good_notify L b t e : good L e -> good L (if b : bool then notifyError t e else notifyInfo t e).
Proof. intros Hg. unfold notifyError, notifyInfo. repeat case_match; auto with frontend. Qed.
Lemma good_error L t e : good L e -> good L (notifyError t e).
Proof. apply (good_notify L true). Qed.
Lemma good_info L t e : good L e -> good L (notifyInfo t e).
Proof. apply (good_notify L false). Qed.
Lemma good_query L env e : good L e -> good L (queryDaemonStatus env e).2.
Proof.
  intros Hg. unfold queryDaemonStatus. case_match; [done|]. case_match; cbn [snd]; [|auto with frontend].
  eapply good_quiet; [|apply (good_emit L CallGetStatus e); done]. done.
Qed.
Lemma good_rpc L env call t e : live L (output_ic call) -> good L e -> good L (callSyncRpc env call t e).2.
Proof.
  intros Hl Hg. unfold callSyncRpc. repeat case_match; cbn [snd]; auto with frontend.
  eapply good_quiet; [|apply (good_emit L call e); done]. done.
Qed.
Hint Resolve good_error good_info : frontend.
Lemma good_onSelect L env it e : good L e -> good L (onSelect env it e).
Proof.
  intros Hg. unfold onSelect. case_match; [| | | |done].
  - unfold onSelect_asr. case_match; [|auto with frontend]. cbv zeta. case_match; [auto with frontend|].
    set (e1 := emit _ e). assert (K1 : good L e1) by (subst e1; auto with frontend). clearbody e1.
    pose proof (good_query L env e1 K1) as K2. destruct (queryDaemonStatus env e1) as [status e2]. cbn [snd] in K2.
    case_match; [auto with frontend|].
    pose proof (good_rpc L env CallReloadAsrBackend "Failed to reload ASR backend." e2 I K2) as K3. unfold callReloadAsrBackend.
    destruct (callSyncRpc env CallReloadAsrBackend _ e2) as [[error|] e3]; cbn [snd] in K3; unfold notify_failure; auto with frontend.
  - unfold onSelect_scene. cbv zeta. case_match; [auto with frontend|]. apply good_info.
    eapply good_quiet; [|apply (good_emit L (SaveConfig (select_scene it (config env))) e); done]. done.
  - unfold onSelect_model. cbv zeta. case_match; auto with frontend.
  - unfold onSelect_adapter, callStopAdapter, callStartAdapter, notify_failure. case_match;
      match goal with |- context [callSyncRpc env ?c ?t e] => pose proof (good_rpc L env c t e I Hg) as K3; destruct (callSyncRpc env c t e) as [[error|] e3] end;
      cbn [snd] in K3; auto with frontend.
Qed.
Lemma good_select_palette L env n i e : live L i -> good L e -> good L (selectPaletteItem env n i e).
Proof.
  intros Hl Hg. pose proof (good_menu_ics L e Hg) as [Hm _]. unfold selectPaletteItem. cbv zeta.
  destruct (_ !! n) as [it|]; [|auto with frontend]. case_match; [|by apply good_onSelect, good_hidePalette].
  apply good_rebuild; [by cbn; case_match | by eapply good_quiet; [|done]].
Qed.
Lemma good_select_result L env n i e : live L i -> good L e -> good L (selectResultCandidate env n i e).
Proof.
  intros Hl Hg. unfold selectResultCandidate. cbv zeta.
  destruct (_ !! n) as [c|], i as [i|]; auto with frontend. apply good_commit; [done|].
  set (e1 := suppressNextCommitContext _ _). assert (good L e1) by (subst e1; case_match; auto with frontend).
  case_match; [|done]. eapply good_quiet; [|apply (good_delete L env i e1); done]. done.
Qed.
Lemma good_toggle L env i e : live L i -> good L e -> good L (toggleCommandPalette env i e).
Proof.
  intros Hl Hg. unfold toggleCommandPalette. repeat case_match; auto with frontend. by apply good_show_palette.
Qed.
Hint Resolve good_show_palette good_select_palette good_select_result good_toggle : frontend.

Lemma good_result_key L env ev e : good L e -> good L (handleResultMenuKeyEvent env ev e).2.
Proof.
  intros Hg. pose proof (good_menu_ics L e Hg) as [_ Hm]. unfold handleResultMenuKeyEvent. cbv zeta.
  destruct (result_menu_visible e); [|done]. destruct (result_menu_ic e) as [i|]; [|done].
  repeat match goal with |- context [if ?b then _ else _] => destruct b; cbn [snd]; [auto with frontend; fail|] end.
  repeat case_match; cbn [snd]; auto with frontend.
Qed.
Lemma good_palette_key L env ev e : good L e -> good L (handlePaletteMenuKeyEvent env ev e).2.
Proof.
  intros Hg. pose proof (good_menu_ics L e Hg) as [Hm _]. unfold handlePaletteMenuKeyEvent. cbv zeta.
  destruct (palette_menu_visible e); [|done]. destruct (palette_menu_ic e) as [i|]; [|done].
  assert (Hq : forall q, good L (e <| palette_query := q |>)) by (intros; by eapply good_quiet; [|done]).
  assert (Hedit : forall f, good L (edit_query i f e)) by (intros f; unfold edit_query; case_match; auto with frontend).
  destruct (matchKeyListIndex _ _ _); [done|].
  repeat match goal with |- context [if ?b then _ else _] => destruct b; cbn [snd]; [auto with frontend; fail|] end.
  repeat case_match; cbn [snd]; auto with frontend.
Qed.

Lemma good_new_press L env i k r m e : live L i -> good L e -> good L (new_press env i k r m e).
Proof.
  intros Hl Hg. unfold new_press. cbv zeta.
  set (e1 := e <| held_key_sym := _ |> <| held_role := _ |> <| chord_interrupted := _ |> <| held_press_time := _ |>).
  assert (good L e1) by (by eapply good_quiet; [|done]). clearbody e1.
  case_match; [|done]. apply good_session_update; auto with frontend.
Qed.
Hint Resolve good_new_press : frontend.
Lemma good_press L env i k r m e : live L i -> good L e -> good L (press env i k r m e).
Proof.
  intros Hl Hg. unfold press, press_again. cbv zeta. destruct (is_voice r); [|auto with frontend].
  set (e1 := e <| last_trigger_time := _ |>). assert (good L e1) by (by eapply good_quiet; [|done]). clearbody e1.
  case_match; [done|].
  assert (good L (cancelPendingStop (dismissMenusForVoiceActivity e1))) by (eapply good_quiet; [|by apply good_dismiss]; done).
  set (e2 := cancelPendingStop _) in *. clearbody e2. repeat case_match; auto with frontend.
Qed.
Lemma good_release L env i k r m e : live L i -> good L e -> good L (release env i k r m e).
Proof.
  intros Hl Hg. unfold release. cbv zeta.
  assert (Hd : forall e, good L e -> good L
    match session e with
    | Some s =>
        if bool_decide (trigger s = m) then
          if stop_on_release s && bool_decide (phase s = Phase.Recording)
          then scheduleStopRecording env (e <| session := Some (s <| trigger_released := true |>) |>)
          else e <| session := Some (s <| trigger_released := true |>) |>
        else e
    | None => e
    end).
  { clear e Hg. intros e Hg. destruct (session e) as [s|] eqn:E; [|done].
    assert (good L (e <| session := Some (s <| trigger_released := true |>) |>)) by (by apply (good_set_session L s)).
    repeat case_match; auto with frontend. }
  destruct (_ && _); [|by apply Hd]. set (e1 := e <| held_role := _ |> <| held_key_sym := _ |>).
  assert (good L e1) by (by eapply good_quiet; [|done]). clearbody e1. case_match; [by eapply good_quiet; [|done]|].
  apply Hd. unfold release_held. repeat case_match; auto with frontend; apply good_session_update; auto with frontend.
Qed.
Lemma good_other L e : good L e -> good L (other_press e).
Proof.
  intros Hg. unfold other_press. cbv zeta. case_match; [done|].
  assert (good L (cancelPendingStart (e <| chord_interrupted := true |>))) by (by eapply good_quiet; [|done]).
  set (e1 := cancelPendingStart _) in *. clearbody e1. repeat case_match; auto with frontend.
Qed.
Lemma good_key L env ev e : live L (ke_ic ev) -> good L e -> good L (handleKeyEvent env ev e).2.
Proof.
  intros Hl Hg. unfold handleKeyEvent. cbv zeta. pose proof (good_remember L _ e Hl Hg) as Hg1.
  set (e1 := rememberInputContext _ _) in *. clearbody e1. clear Hg.
  match goal with |- context [if ?b then _ else _] => destruct b end; [by eapply good_quiet; [|done]|].
  match goal with |- context [match ?o with Some _ => _ | None => let '(_, _) := _ in _ end] => destruct o as [raw|] end.
  { cbn. case_match; [done|]. apply good_cancel. by eapply good_quiet; [|done]. }
  assert (H2 : good L (if result_menu_visible e1 then handleResultMenuKeyEvent env ev e1 else (false, e1)).2)
    by (case_match; [by apply good_result_key | done]).
  destruct (if result_menu_visible e1 then _ else _) as [[] e2]; [done|]. cbn [snd] in H2.
  assert (H3 : good L (if palette_menu_visible e2 then handlePaletteMenuKeyEvent env ev e2 else (false, e2)).2)
    by (case_match; [by apply good_palette_key | done]).
  destruct (if palette_menu_visible e2 then _ else _) as [[] e3]; [done|]. cbn [snd] in H3.
  destruct (classify _ _ e3) as [[r m]|]; cbn [snd]; case_match; auto using good_press, good_release, good_other.
Qed.
(** Half way through the handler of a destroyed context: the first [n] references are
    cleaned. *)
Definition live_after (L : gset IC) (i : IC) (done : bool) (o : option IC) : Prop := live (if done then L ∖ {[i]} else L) o.
Definition cleaned (L : gset IC) (i : IC) (n : nat) (e : Engine) : Prop :=
  (live_after L i (0 <? n) (ic <$> session e) /\ live_after L i (1 <? n) (status_ic e)
   /\ live_after L i (2 <? n) (last_active_ic e) /\ live_after L i (3 <? n) (palette_menu_ic e)
   /\ live_after L i (4 <? n) (result_menu_ic e) /\ live_after L i (5 <? n) (context_ic e))
  /\ Forall (fun o => live (L ∖ {[i]}) (output_ic o)) (outputs e) /\ gated e.
Lemma live_other L i o : live L o -> o <> Some i -> live (L ∖ {[i]}) o.
Proof. destruct o; [|done]. cbn. set_solver. Qed.

Lemma cleaned_start L i e : inv L e -> outputs e = [] -> cleaned L i 0 e.
Proof.
  intros ([Hs1 _] & _ & Hga) Ho. unfold refs in Hs1. decompose_Forall_hyps. split; [done|]. by rewrite Ho.
Qed.
Lemma cleaned_session L i e : cleaned L i 0 e ->
  let e1 := match session e with
            | Some s =>
                if (ic s =? i)%N then
                  (if bool_decide (phase s = Phase.Inferring) then e else callCancelOperation false e)
                    <| session := None |> <| polled_idle_since := None |>
                else e
            | None => e
            end in
  cleaned L i 1 e1 /\ status_ic e1 = status_ic e /\ status_timer e1 = status_timer e
  /\ ic <$> session e1 = (if bool_decide (ic <$> session e = Some i) then None else ic <$> session e).
Proof.
  intros ((H1 & H2 & H3 & H4 & H5 & H6) & Ho & Hga) e1. subst e1. unfold callCancelOperation.
  destruct (session e) as [s|] eqn:E; cbn [fmap option_fmap option_map] in *.
  - destruct (N.eqb_spec (ic s) i) as [Hi|Hn].
    + rewrite (bool_decide_true (Some (ic s) = Some i)) by congruence.
      assert (Ho' : Forall (fun o => live (L ∖ {[i]}) (output_ic o)) (outputs e ++ [CallCancel false])) by (by apply Forall_app_2; [|repeat constructor]).
      repeat case_match; by split_and!.
    + rewrite bool_decide_false by congruence. rewrite E. split_and!; try done.
      unfold cleaned. rewrite E. split_and!; try done. apply live_other; [done | by intros [= ?]].
  - rewrite bool_decide_false by congruence. rewrite E. split_and!; try done. unfold cleaned. rewrite E. by split_and!.
Qed.
Lemma cleaned_status L i e e1 :
  coupled e -> polled e -> cleaned L i 1 e1 -> status_ic e1 = status_ic e -> status_timer e1 = status_timer e ->
  ic <$> session e1 = (if bool_decide (ic <$> session e = Some i) then None else ic <$> session e) ->
  let e2 := if bool_decide (status_ic e1 = Some i) then stopStatusSyncIfIdle (e1 <| status_ic := None |>) else e1 in
  cleaned L i 2 e2 /\ coupled e2 /\ polled e2.
Proof.
  intros Hco Hp ((H1 & H2 & H3 & H4 & H5 & H6) & Ho & Hga) Hst Htm Hse e2. subst e2.
  unfold coupled in Hco. rewrite <- Hco, <- Hst in Hse. case_bool_decide as Hb.
  - apply fmap_None in Hse. unfold stopStatusSyncIfIdle, coupled, polled, cleaned. cbn. rewrite Hse. cbn. rewrite Hse.
    split_and!; done.
  - unfold cleaned. split_and!; try done; [by apply live_other|]. unfold polled in *. rewrite Htm. intros Hs. apply Hp.
    rewrite <- (fmap_is_Some ic), <- Hco, <- Hst, <- Hse. by apply fmap_is_Some.
Qed.
Lemma cleaned_rest L i e2 : cleaned L i 2 e2 -> coupled e2 -> polled e2 ->
  good (L ∖ {[i]})
    (let gone o := bool_decide (o = Some i) in
     let e := if gone (last_active_ic e2) then e2 <| last_active_ic := None |> else e2 in
     let e := if gone (palette_menu_ic e) then resetPaletteMenuState e else e in
     let e := if gone (result_menu_ic e) then resetResultMenuState e else e in
     if gone (context_ic e) then flushContextBuffer e else e).
Proof.
  cbv zeta. intros ((H1 & H2 & H3 & H4 & H5 & H6) & Ho & Hga) Hco Hp.
  set (e3 := if bool_decide _ then _ else e2).
  assert (cleaned L i 3 e3 /\ coupled e3 /\ polled e3) as (((K1 & K2 & K3 & K4 & K5 & K6) & Ko & Kg) & Kc & Kp).
  { subst e3. unfold cleaned. case_bool_decide; split_and!; try done; by apply live_other. }
  clearbody e3. clear e2 H1 H2 H3 H4 H5 H6 Ho Hga Hco Hp. set (e4 := if bool_decide _ then _ else e3).
  assert (cleaned L i 4 e4 /\ coupled e4 /\ polled e4) as (((H1 & H2 & H3 & H4 & H5 & H6) & Ho & Hga) & Hco & Hp).
  { subst e4. unfold cleaned. case_bool_decide; split_and!; try done; by apply live_other. }
  clearbody e4. clear e3 K1 K2 K3 K4 K5 K6 Ko Kg Kc Kp. set (e5 := if bool_decide _ then _ else e4).
  assert (cleaned L i 5 e5 /\ coupled e5 /\ polled e5) as (((K1 & K2 & K3 & K4 & K5 & K6) & Ko & Kg) & Kc & Kp).
  { subst e5. unfold cleaned. case_bool_decide; split_and!; try done; by apply live_other. }
  clearbody e5. clear e4 H1 H2 H3 H4 H5 H6 Ho Hga Hco Hp. case_bool_decide as Hb.
  - replace (flushContextBuffer e5) with (flushContextBuffer (e5 <| context_ic := None |>)) by done.
    apply good_flush. split; [|done]. split; [|done]. split; [|done]. unfold refs. by repeat constructor.
  - split; [|done]. split; [|done]. split; [|done]. unfold refs. repeat constructor; try done. by apply live_other.
Qed.
Lemma good_destroyed L i e : good L e -> outputs e = [] -> good (L ∖ {[i]}) (on_destroyed i e).
Proof.
  intros [Hi Hp] Ho. pose proof Hi as (_ & Hco & _). unfold on_destroyed.
  pose proof (cleaned_session L i e (cleaned_start L i e Hi Ho)) as (H1 & Hst & Htm & Hse).
  by destruct (cleaned_status L i e _ Hco Hp H1 Hst Htm Hse) as (H2 & Hc2 & Hp2); apply cleaned_rest.
Qed.

Lemma good_handle L env ev e :
  match ev with EvCreated _ | EvDestroyed _ => False | _ => True end -> live L (event_ic ev) -> good L e -> good L (handle env ev e).
Proof.
  intros Hn Hl Hg. destruct ev; try done; cbn [handle event_ic] in *; auto with frontend.
  - by apply good_key.
  - unfold on_focus_out. cbv zeta.
    set (e1 := e <| held_key_sym := _ |> <| held_role := _ |> <| chord_interrupted := _ |>).
    assert (good L e1) by (by eapply good_quiet; [|done]). clearbody e1. repeat case_match; auto with frontend.
  - by apply good_commit_event.
  - apply good_reply. by eapply good_quiet; [|done].
  - apply good_reply. by eapply good_quiet; [|done].
  - unfold applySettings. cbv zeta. eapply good_quiet; [by constructor|]. apply good_settings. by eapply good_quiet; [|done].
Qed.
Lemma good_step L e L' e' : step (L, e) (L', e') -> good L e -> good L' e'.
Proof.
  assert (Hclear : forall L e, good L e -> good L (e <| outputs := [] |>)).
  { intros L0 e0 [([Hs1 Hs2] & Hco & Hga) Hp]. by repeat split. }
  intros Hst Hg. inversion Hst; subst.
  - apply good_remember; [cbn; set_solver|]. destruct (Hclear _ _ Hg) as [([Hs1 Hs2] & Hco & Hga) Hp].
    split; [|done]. split; [|done]. split; [|done]. eapply Forall_impl; [exact Hs1|]. intros []; cbn; set_solver.
  - apply good_destroyed; auto.
  - apply good_handle; auto.
Qed.
Lemma good_run c c' : rtc step c c' -> good c.1 c.2 -> good c'.1 c'.2.
Proof.
  induction 1 as [|[L e] [L1 e1] c2 Hst _ IH]; [done|]. intros Hg. apply IH. by apply (good_step L e).
Qed.

(** ** Properties *)

(** The engine before any event. *)
Definition fresh (e : Engine) : Prop :=
  session e = None /\ Forall (fun o => o = None) (refs e) /\ outputs e = [] /\ status_call e = None /\ active_ (gate e) = false.

Lemma good_reachable e0 L e : fresh e0 -> rtc step (∅, e0) (L, e) -> good L e.
Proof.
  intros (Hs & Hr & Ho & Hc & Ha) Hst. apply (good_run _ _ Hst).
  split; [split; [split; [|cbn; by rewrite Ho]|]|].
  - eapply Forall_impl; [exact Hr|]. by intros ? ->.
  - split; [|unfold gated; cbn; by rewrite Hc]. unfold refs in Hr. decompose_Forall_hyps. unfold coupled. cbn. by rewrite Hs.
  - unfold polled. cbn. rewrite Hs. by intros [? ?].
Qed.

(** C5. Whatever the order of key presses, focus changes, created and destroyed input contexts,
    daemon signals, replies and timers: the addon refers only to input contexts that exist
    and writes only to these; the context that shows the status is the one of the session; a
    session is polled until it ends; and the poll gate is taken exactly while a query is
    pending, so polling never blocks itself. *)
Theorem frontend_safe e0 L e :
  fresh e0 -> rtc step (∅, e0) (L, e) ->
  Forall (live L) (refs e) /\ Forall (fun o => live L (output_ic o)) (outputs e)
  /\ status_ic e = ic <$> session e /\ (is_Some (session e) -> status_timer e = true)
  /\ (active_ (gate e) = true <-> is_Some (status_call e)).
Proof.
  intros Hf Hst. destruct (good_reachable _ _ _ Hf Hst) as [([Hs1 Hs2] & Hco & Hga) Hp].
  do 4 (split; [done|]). revert Hga. unfold gated.
  destruct (status_call e); [intros [-> _]; by split | intros ->; split; [done | by intros [? ?]]].
Qed.
(** ** Following the daemon *)

Lemma finish_session o e : session (finishFrontendSession o e) = None /\ (coupled e -> status_ic (finishFrontendSession o e) = None).
Proof.
  unfold finishFrontendSession, clearVoicePresentation. cbv zeta. set (e1 := set_gate Invalidate e).
  set (j := match session e1 with Some s => Some (ic s) | None => _ end).
  set (e2 := e1 <| session := None |> <| polled_idle_since := None |> <| command_selected_text := [] |> <| status_ic := _ |>).
  assert (Hu : session (updateVoicePresentation j [] [] e2) = None /\ status_ic (updateVoicePresentation j [] [] e2) = status_ic e2).
  { split; [apply framed_update|]. unfold updateVoicePresentation, dismissMenusForVoiceActivity, hidePaletteMenu, hideResultMenu.
    repeat case_match; done. }
  destruct Hu as [Hu1 Hu2]. set (e3 := updateVoicePresentation j [] [] e2) in *.
  assert (Hs : session (stopStatusSyncIfIdle e3) = session e3 /\ status_ic (stopStatusSyncIfIdle e3) = status_ic e3).
  { unfold stopStatusSyncIfIdle. repeat case_match; cbn; split; congruence. }
  destruct Hs as [-> ->]. split; [done|]. intros Hco. rewrite Hu2.
  assert (Hc1 : status_ic e1 = ic <$> session e1) by exact Hco. cbn -[e1 j]. subst j.
  destruct (session e1); [by rewrite bool_decide_true by exact Hc1|]. case_bool_decide; [done | exact Hc1].
Qed.

Lemma framed_leave i e : framed e (leave_status_ic i e).
Proof. unfold leave_status_ic. repeat case_match; try done. apply framed_update. Qed.
Lemma ensure_session e : session (ensureStatusSync e) = session e.
Proof. unfold ensureStatusSync, stopStatusSyncIfIdle. by repeat case_match. Qed.

(** The session after entering a phase. *)
Lemma recording_session env i k c e : exists s,
  session (enterRecordingState env (Some i) k c e) = Some s /\ phase s = Phase.Recording /\ ic s = i /\ trigger s = k /\ command_mode s = c
  /\ match session e with
      | Some s0 => trigger_released s = trigger_released s0 /\ stop_on_release s = stop_on_release s0 /\ transcript_text s = transcript_text s0
      | None => trigger_released s = false /\ stop_on_release s = false
      end.
Proof.
  unfold enterRecordingState. cbv zeta. set (e1 := leave_status_ic i _).
  assert (He : session e1 = session e) by (subst e1; by rewrite (proj1 (framed_leave _ _))). clearbody e1.
  set (e2 := enter env Phase.Recording i k c (session_raw_prev e1) e1).
  exists (default (new_session (now env)) (session e1) <| phase := Phase.Recording |> <| ic := i |> <| trigger := k |>
     <| command_mode := c |> <| sess_raw_prev := session_raw_prev e1 |>).
  split; [|rewrite <- He; destruct (session e1); done].
  set (b := match session e1 with Some _ => _ | None => false end).
  transitivity (session e2); [|done].
  assert (Hx : forall p, session (ensureStatusSync (updateVoicePresentation (Some i) p [] e2)) = session e2).
  { intros p. rewrite ensure_session. apply framed_update. }
  destruct b; [etransitivity; [|apply Hx]; reflexivity | apply Hx].
Qed.
Lemma busy_session env i c p po r e : exists s,
  session (enterBusyState env (Some i) c p po r e) = Some s /\ phase s = (if po then Phase.Postprocessing else Phase.Inferring)
  /\ ic s = i /\ command_mode s = c /\ trigger s = no_key.
Proof.
  unfold enterBusyState. cbv zeta. set (e1 := leave_status_ic i _). clearbody e1.
  set (r' := default _ r). set (e2 := enter env _ i no_key c r' e1).
  exists (default (new_session (now env)) (session e1) <| phase := (if po then Phase.Postprocessing else Phase.Inferring) |> <| ic := i |>
     <| trigger := no_key |> <| command_mode := c |> <| sess_raw_prev := r' |>).
  split; [|done]. transitivity (session e2); [|done]. rewrite ensure_session.
  destruct (negb r'); [apply framed_update|]. destruct (_ && _); apply framed_update.
Qed.
(** What the daemon's status means for the session. *)
Definition phase_of_status (status : bytes) : option Phase.SessionPhase :=
  if status =b kStatusRecording then Some Phase.Recording
  else if status =b kStatusInferring then Some Phase.Inferring
  else if status =b kStatusPostprocessing then Some Phase.Postprocessing
  else None.

Lemma apply_status env status o c e i :
  coupled e -> resolveFrontendInputContext o e = Some i ->
  phase <$> session (applyDaemonStatusLocally env status o c e) = phase_of_status status
  /\ ic <$> session (applyDaemonStatusLocally env status o c e) = (phase_of_status status ≫= fun _ => Some i)
  /\ command_mode <$> session (applyDaemonStatusLocally env status o c e)
     = (phase_of_status status ≫= fun _ => Some (match session e with Some s => command_mode s | None => c end)).
Proof.
  intros Hco Hr. unfold applyDaemonStatusLocally. destruct (_ && _) eqn:Eidle.
  - apply andb_true_iff in Eidle as [Es En]. apply bool_decide_eq_true in Es. subst status.
    destruct (session e) eqn:E; [done|]. by vm_compute.
  - rewrite Hr. cbv zeta. unfold phase_of_status.
    destruct (decide (status = kStatusRecording)) as [?|N1].
    { rewrite !bool_decide_true by done.
      match goal with |- context [enterRecordingState env (Some i) ?k ?c e] =>
        destruct (recording_session env i k c e) as (s & -> & Hp & Hi & _ & Hc & _) end. cbn. by rewrite Hp, Hi, Hc. }
    destruct (decide (status = kStatusInferring)) as [?|N2].
    { rewrite !(bool_decide_false (status = kStatusRecording)), !bool_decide_true by done.
      match goal with |- context [enterBusyState env (Some i) ?c ?p ?po ?r e] =>
        destruct (busy_session env i c p po r e) as (s & -> & Hp & Hi & Hc & _) end. cbn. by rewrite Hp, Hi, Hc. }
    destruct (decide (status = kStatusPostprocessing)) as [?|N3].
    { rewrite !(bool_decide_false (status = kStatusRecording)), !(bool_decide_false (status = kStatusInferring)),
        !bool_decide_true by done.
      match goal with |- context [enterBusyState env (Some i) ?c ?p ?po ?r e] =>
        destruct (busy_session env i c p po r e) as (s & -> & Hp & Hi & Hc & _) end. cbn. by rewrite Hp, Hi, Hc. }
    rewrite !bool_decide_false by done. by rewrite (proj1 (finish_session (Some i) e)).
Qed.

(** The session follows the daemon: after a status signal the addon is in the phase the
    daemon reports, in the context that already had the session (or the last active one),
    and in the same mode; any other status ends the session. *)
Theorem status_followed e0 L e env status i :
  fresh e0 -> rtc step (∅, e0) (L, e) -> resolveFrontendInputContext None e = Some i ->
  let e' := handle env (EvStatusChanged status) e in
  phase <$> session e' = phase_of_status status
  /\ ic <$> session e' = (phase_of_status status ≫= fun _ => Some i)
  /\ command_mode <$> session e' = (phase_of_status status ≫= fun _ => Some (match session e with Some s => command_mode s | None => false end))
  /\ status_ic e' = ic <$> session e'.
Proof.
  intros Hf Hst Hr e'. pose proof (good_reachable _ _ _ Hf Hst) as Hg. subst e'. cbn [handle].
  pose proof (good_status_changed L env status e Hg) as [(_ & Hco' & _) _].
  destruct Hg as [(_ & Hco & _) _]. unfold onStatusChanged in *. cbv zeta in *.
  set (e1 := rememberInputContext _ _) in *.
  assert (session e1 = session e /\ resolveFrontendInputContext None e1 = Some i /\ coupled e1) as (Hs1 & Hr1 & Hc1).
  { change (resolveFrontendInputContext None (set_gate Invalidate e <| last_known_status := status |> <| polled_idle_since := None |>))
      with (resolveFrontendInputContext None e) in (value of e1).
    subst e1. rewrite Hr. split_and!; try done. revert Hr. unfold resolveFrontendInputContext. cbn. by repeat case_match. }
  destruct (apply_status env status None false e1 i Hc1 Hr1) as (H1 & H2 & H3). rewrite Hs1 in H3. by split_and!.
Qed.
(** ** Hold to talk *)

(** What the handlers of a running dictation leave alone: the configuration, the menus that
    are closed and the key that is held. *)
Definition settings (e : Engine) :=
  (bus e, sync_blocked_until e, (trigger_keys e, command_keys e, menu_keys e, trigger_mode e),
   (palette_menu_visible e, result_menu_visible e, postprocessing_release e),
   (held_role e, held_key_sym e, chord_interrupted e, held_press_time e)).
Definition closed (e : Engine) : Prop := palette_menu_visible e = false /\ result_menu_visible e = false.
Definition kept (e e' : Engine) : Prop := settings e' = settings e.

Lemma kept_trans e1 e2 e3 : kept e1 e2 -> kept e2 e3 -> kept e1 e3.
Proof. unfold kept. congruence. Qed.
Lemma kept_closed e e' : kept e e' -> closed e -> closed e'.
Proof. unfold kept, settings, closed. intros [=] [? ?]. split; congruence. Qed.
Lemma kept_dismiss e : closed e -> kept e (dismissMenusForVoiceActivity e) /\ stop_timer (dismissMenusForVoiceActivity e) = stop_timer e
  /\ outputs (dismissMenusForVoiceActivity e) = outputs e /\ session (dismissMenusForVoiceActivity e) = session e.
Proof.
  intros [Hp Hr]. unfold dismissMenusForVoiceActivity, hidePaletteMenu. rewrite Hp. unfold hideResultMenu. cbn. rewrite Hr.
  split; [|done]. unfold kept, settings. cbn. by rewrite Hp, Hr.
Qed.
(** An update of the panel adds its preedit to the outputs. *)
Lemma kept_update i p a e : closed e ->
  kept e (updateVoicePresentation i p a e) /\ stop_timer (updateVoicePresentation i p a e) = stop_timer e
  /\ exists l, outputs (updateVoicePresentation i p a e) = outputs e ++ l.
Proof.
  intros Hc. destruct i as [i|]; [|by split_and!; try exists []; rewrite ?app_nil_r].
  destruct (kept_dismiss e Hc) as (Hk & Hs & Ho & _). cbn. unfold emit. cbn.
  split; [exact Hk | split; [exact Hs | exists [Preedit i p a]]]. by rewrite Ho.
Qed.

(** The three together. *)
Definition calm (e e' : Engine) : Prop :=
  kept e e' /\ stop_timer e' = stop_timer e /\ exists l, outputs e' = outputs e ++ l.
Lemma calm_refl e e' : settings e' = settings e -> stop_timer e' = stop_timer e -> outputs e' = outputs e -> calm e e'.
Proof. intros ? ? Ho. split_and!; [done..|]. exists []. by rewrite app_nil_r. Qed.
Lemma calm_emit e o : calm e (emit o e).
Proof. split_and!; [done..|]. by exists [o]. Qed.
Lemma calm_trans e1 e2 e3 : calm e1 e2 -> calm e2 e3 -> calm e1 e3.
Proof.
  intros (K1 & T1 & l1 & O1) (K2 & T2 & l2 & O2). split_and!; [by eapply kept_trans | congruence|].
  exists (l1 ++ l2). by rewrite O2, O1, app_assoc.
Qed.
Lemma calm_closed e e' : calm e e' -> closed e -> closed e'.
Proof. intros (K & _). by apply kept_closed. Qed.
Lemma calm_leave i e : closed e -> calm e (leave_status_ic i e).
Proof.
  intros Hc. unfold leave_status_ic, clearVoicePresentation. repeat case_match; try by apply calm_refl.
  by apply kept_update.
Qed.
Lemma calm_remember o e : calm e (rememberInputContext o e).
Proof. destruct o; by apply calm_refl. Qed.
Lemma calm_ensure e : calm e (ensureStatusSync e).
Proof. unfold ensureStatusSync, stopStatusSyncIfIdle. repeat case_match; by apply calm_refl. Qed.
Lemma calm_flush e : calm e (flushContextBuffer e).
Proof.
  unfold flushContextBuffer. case_match; [by apply calm_refl|]. case_match; [by apply calm_refl|].
  eapply calm_trans; [apply (calm_emit e)|]. by apply calm_refl.
Qed.

Lemma calm_pending env i k c e : closed e -> calm e (enterPendingStartState env (Some i) k c e).
Proof.
  intros Hc. unfold enterPendingStartState. cbv zeta.
  set (e0 := set_gate Invalidate (rememberInputContext (Some i) e)). assert (H0' : calm e e0) by by apply calm_refl.
  assert (H1 : calm e (leave_status_ic i e0)) by (eapply calm_trans; [exact H0'|]; by apply calm_leave).
  set (e1 := leave_status_ic i e0) in *. clearbody e1. eapply calm_trans; [exact H1|].
  eapply calm_trans; [|apply calm_ensure]. apply (kept_update (Some i) _ [] (enter env Phase.PendingStart i k c (scene_raw_prev e1) e1)).
  by apply (calm_closed e).
Qed.
Lemma pending_session env i k c e : session e = None -> exists s,
  session (enterPendingStartState env (Some i) k c e) = Some s /\ phase s = Phase.PendingStart /\ ic s = i /\ trigger s = k
  /\ command_mode s = c.
Proof.
  intros Hs. unfold enterPendingStartState. cbv zeta. rewrite ensure_session, (proj1 (framed_update _ _ _ _)).
  eexists. split; [reflexivity|]. done.
Qed.
Lemma callStart_ok env e : bus e = true -> daemonSyncAllowed env e = true -> call_ok env = true -> closed e -> exists e',
  callStartRecording env e = (true, e') /\ session e' = session e /\ calm e e' /\ CallStart ∈ outputs e'.
Proof.
  intros Hb Ha Hk Hc. unfold callStartRecording, call_daemon.
  set (e1 := flushContextBuffer (e <| command_selected_text := [] |>)).
  assert (H1 : calm e e1) by (eapply calm_trans; [|apply calm_flush]; by apply calm_refl).
  assert (Hs1 : session e1 = session e) by exact (proj1 (framed_flush (e <| command_selected_text := [] |>))). clearbody e1.
  pose proof H1 as (K & _). unfold kept, settings in K. injection K as Kb Ks _ _ _ _ _ _ _ _ _ _ _.
  unfold daemonSyncAllowed in *. rewrite Kb, Ks, Hb, Ha, Hk. cbn [negb orb]. cbv zeta. eexists. split; [reflexivity|].
  split_and!; [exact Hs1 | |].
  - eapply calm_trans; [exact H1|]. eapply calm_trans; [apply (calm_emit e1 CallStart)|]. by apply calm_refl.
  - apply elem_of_app. right. by apply list_elem_of_singleton.
Qed.

Definition status_free (status : bytes) : bool := is_empty status || (status =b kStatusIdle).
Lemma status_free_start status : status_free status = true ->
  (status =b kStatusRecording) = false /\ (negb (is_empty status) && negb (status =b kStatusIdle)) = false.
Proof.
  unfold status_free. intros [Hs|Hs]%orb_true_iff.
  - destruct status; [|done]. by vm_compute.
  - rewrite Hs. apply bool_decide_eq_true in Hs as ->. rewrite andb_false_r. split; [|done]. by vm_compute.
Qed.

(** A press that starts a recording. *)
Lemma start_dictation env i k e :
  session e = None -> closed e -> bus e = true -> daemonSyncAllowed env e = true -> call_ok env = true ->
  status_free (last_known_status e) = true ->
  exists s, session (startVoiceRecording env (Some i) k false e) = Some s /\ phase s = Phase.PendingStart /\ ic s = i
    /\ trigger s = k /\ kept e (startVoiceRecording env (Some i) k false e)
    /\ stop_timer (startVoiceRecording env (Some i) k false e) = None /\ CallStart ∈ outputs (startVoiceRecording env (Some i) k false e).
Proof.
  intros Hs Hc Hb Ha Hk Hf. unfold startVoiceRecording. cbv zeta.
  destruct (kept_dismiss e Hc) as (Kd & _ & _ & Sd). set (e1 := cancelPendingStop (dismissMenusForVoiceActivity e)).
  assert (K1 : kept e e1) by exact Kd. assert (S1 : session e1 = None) by (etransitivity; [exact Sd | exact Hs]).
  assert (L1 : last_known_status e1 = last_known_status e).
  { subst e1. unfold dismissMenusForVoiceActivity, hidePaletteMenu, hideResultMenu. repeat case_match; done. }
  assert (T1 : stop_timer e1 = None) by done. clearbody e1. rewrite L1, S1.
  destruct (status_free_start _ Hf) as [-> ->]. cbn [andb negb].
  pose proof (kept_closed _ _ K1 Hc) as C1.
  destruct (pending_session env i k false e1 S1) as (s & Es & Hp & Hi & Ht & _).
  pose proof (calm_pending env i k false e1 C1) as C2. set (e2 := enterPendingStartState _ _ _ _ _) in *. clearbody e2.
  destruct (calm_closed _ _ C2 C1) as [Hc2 Hc2']. destruct C2 as (K2 & T2 & _).
  pose proof (kept_trans _ _ _ K1 K2) as K. unfold kept, settings in K. pose proof K as K'. injection K' as Kb Ks _ _ _ _ _ _ _ _ _ _ _.
  destruct (callStart_ok env e2) as (e3 & -> & S3 & C3 & O3); [congruence | unfold daemonSyncAllowed in *; by rewrite Ks | done | done |].
  exists s. destruct C3 as (K3 & T3 & _). split_and!; try done; [congruence | by eapply kept_trans | congruence].
Qed.
(** A dictation that was started by holding [m]. *)
Definition dictating (i : IC) (m : Key) (p : Phase.SessionPhase) (released : bool) (e : Engine) : Prop :=
  exists s, session e = Some s /\ phase s = p /\ ic s = i /\ trigger s = m /\ stop_on_release s = true /\ trigger_released s = released.

Lemma press_holds env i k m e :
  session e = None -> closed e -> bus e = true -> daemonSyncAllowed env e = true -> call_ok env = true ->
  status_free (last_known_status e) = true -> trigger_mode e <> Tap -> (kTriggerDebounce <= now env - last_trigger_time e)%Z ->
  let e' := press env (Some i) k RoleTrigger m e in
  dictating i m Phase.PendingStart false e' /\ stop_timer e' = None /\ CallStart ∈ outputs e'
  /\ kept (e <| held_key_sym := Some (sym k) |> <| held_role := RoleTrigger |> <| chord_interrupted := false |>
              <| held_press_time := now env |>) e'.
Proof.
  intros Hs Hc Hb Ha Hk Hf Hm Ht e'. subst e'. unfold press, new_press. change (is_voice RoleTrigger) with true.
  change (bool_decide (RoleTrigger = RoleCommand)) with false. cbv iota zeta beta.
  replace (now env - last_trigger_time e <? kTriggerDebounce)%Z with false by lia.
  set (e1 := e <| last_trigger_time := now env |>). destruct (kept_dismiss e1 Hc) as (Kd & _ & _ & Sd).
  set (e2 := cancelPendingStop (dismissMenusForVoiceActivity e1)).
  assert (K2 : kept e e2) by exact Kd. assert (S2 : session e2 = None) by (etransitivity; [exact Sd | exact Hs]).
  assert (L2 : last_known_status e2 = last_known_status e).
  { subst e2 e1. unfold dismissMenusForVoiceActivity, hidePaletteMenu, hideResultMenu. repeat case_match; done. }
  clearbody e2. clear Kd Sd. rewrite S2. cbn [andb].
  set (e3 := e2 <| held_key_sym := _ |> <| held_role := _ |> <| chord_interrupted := _ |> <| held_press_time := _ |>).
  pose proof (kept_closed _ _ K2 Hc) as C2. unfold kept, settings in K2. injection K2 as Kb Ks Kt Kc Km Kmo Kp Kr Kpr _ _ _ _.
  replace (bool_decide (trigger_mode e3 = Tap)) with false by (symmetry; apply bool_decide_false; change (trigger_mode e2 <> Tap); congruence). cbn [negb].
  destruct (start_dictation env i m e3) as (s & Es & Hp & Hi & Htr & K4 & T4 & O4); try done.
  { change (bus e2 = true). congruence. } { unfold daemonSyncAllowed in *. change (sync_blocked_until e3) with (sync_blocked_until e2). by rewrite Ks. }
  { change (status_free (last_known_status e2) = true). by rewrite L2. }
  set (e4 := startVoiceRecording env (Some i) m false e3) in *. clearbody e4. unfold update_session. rewrite Es. cbn [fmap option_fmap option_map].
  split_and!; [eexists; split; [reflexivity | done] | done | done |].
  transitivity (settings e4); [done|]. unfold kept in K4. rewrite K4. unfold settings, e3. cbn. by rewrite Kb, Ks, Kt, Kc, Km, Kmo, Kp, Kr, Kpr.
Qed.
Lemma key_plain env ev e :
  closed e -> postprocessing_release e = None ->
  match session e with Some s => phase s <> Phase.Postprocessing | None => True end ->
  (handleKeyEvent env ev e).2 =
    let e1 := rememberInputContext (ke_ic ev) e in
    let k := normalize (ke_orig ev) in
    match classify k (ke_release ev) e with
    | None => if ke_release ev then e1 else other_press e1
    | Some (role, m) => if ke_release ev then release env (ke_ic ev) k role m e1 else press env (ke_ic ev) k role m e1
    end.
Proof.
  intros [Hp Hr] Hn Hs. unfold handleKeyEvent. cbv zeta. set (e1 := rememberInputContext _ e).
  assert (E1 : session e1 = session e /\ palette_menu_visible e1 = false /\ result_menu_visible e1 = false /\ postprocessing_release e1 = None
    /\ (forall k r, classify k r e1 = classify k r e)) by (subst e1; destruct (ke_ic ev); done).
  clearbody e1. destruct E1 as (Es & Epal & -> & -> & Ec). rewrite Es. destruct (session e) as [s|].
  - rewrite (bool_decide_false (phase s = _)) by done. cbn [andb]. rewrite Epal, Ec. by destruct (classify _ _ e) as [[]|].
  - rewrite Epal, Ec. by destruct (classify _ _ e) as [[]|].
Qed.

Definition long_hold (env : Env) (e : Engine) : Prop :=
  trigger_mode e = Hold \/ trigger_mode e = Both /\ (kTapMaxHoldDuration <= now env - held_press_time e)%Z.

Lemma release_dictating env i k m p e :
  dictating i m p false e -> held_role e = RoleTrigger -> held_key_sym e = Some (sym k) -> chord_interrupted e = false -> long_hold env e ->
  let e' := release env (Some i) k RoleTrigger m e in
  dictating i m p true e' /\ kept (e <| held_role := RoleNone |> <| held_key_sym := None |>) e'
  /\ stop_timer e' = (if bool_decide (p = Phase.Recording) then Some (now env + kReleaseDebounce)%Z else stop_timer e).
Proof.
  intros (s & Es & Hp & Hi & Ht & Hst & Hrel) Hr Hk Hch Hm e'. subst e'. unfold release. cbv zeta.
  rewrite Hr, Hk. rewrite !bool_decide_true by done. cbn [andb].
  set (e1 := e <| held_role := RoleNone |> <| held_key_sym := None |>).
  change (chord_interrupted e1) with (chord_interrupted e). rewrite Hch.
  assert (Hrec : is_recording e1 = bool_decide (p = Phase.Recording)) by (unfold is_recording; change (session e1) with (session e); by rewrite Es, Hp).
  assert (Hh : release_held env (Some i) RoleTrigger m e1 = if bool_decide (p = Phase.Recording) then scheduleStopRecording env e1 else e1).
  { unfold release_held. change (bool_decide (RoleTrigger = RoleMenu)) with false. cbv iota.
    change (trigger_mode e1) with (trigger_mode e). change (held_press_time e1) with (held_press_time e).
    destruct Hm as [->|[-> Hd]]; rewrite Hrec; [done|]. by replace (now env - held_press_time e <? kTapMaxHoldDuration)%Z with false by lia. }
  rewrite Hh. assert (S1 : session e1 = Some s) by exact Es. change (stop_timer e) with (stop_timer e1). clearbody e1. clear Hh.
  assert (Hd : dictating i m p true (e1 <| stop_timer := stop_timer e1 |> <| session := Some (s <| trigger_released := true |>) |>)).
  { exists (s <| trigger_released := true |>). done. }
  case_bool_decide as Hpr.
  - change (session (scheduleStopRecording env e1)) with (session e1). rewrite S1, bool_decide_true by done.
    rewrite Hst, Hp, bool_decide_true by done. cbn [andb]. split; [exact Hd|]. done.
  - rewrite S1, bool_decide_true by done. rewrite Hst, Hp, bool_decide_false by done. cbn [andb]. split; [exact Hd|]. done.
Qed.
Lemma recording_timer env i k c e : closed e ->
  kept e (enterRecordingState env (Some i) k c e)
  /\ stop_timer (enterRecordingState env (Some i) k c e) =
     match session e with
     | Some s => if (bool_decide (trigger_mode e = Hold) || stop_on_release s) && bool_decide (phase s = Phase.PendingStart) && trigger_released s
                 then Some (now env + kReleaseDebounce)%Z else stop_timer e
     | None => stop_timer e
     end.
Proof.
  intros Hc. unfold enterRecordingState. cbv zeta.
  assert (H1 : calm e (leave_status_ic i (rememberInputContext (Some i) e)))
    by (eapply calm_trans; [apply (calm_remember (Some i))|]; by apply calm_leave).
  assert (S1 : session (leave_status_ic i (rememberInputContext (Some i) e)) = session e) by (by rewrite (proj1 (framed_leave _ _))).
  set (e1 := leave_status_ic i _) in *. clearbody e1. rewrite S1.
  assert (Hm : trigger_mode e1 = trigger_mode e) by (destruct H1 as ([= _ _ _ _ _ -> _ _ _ _ _ _ _] & _); done). rewrite Hm.
  set (b := match session e with Some _ => _ | None => false end).
  assert (H2 : forall p, calm e1 (ensureStatusSync (updateVoicePresentation (Some i) p []
                 (enter env Phase.Recording i k c (session_raw_prev e1) e1)))).
  { intros p. eapply calm_trans; [|apply calm_ensure].
    apply (kept_update (Some i) p [] (enter env Phase.Recording i k c (session_raw_prev e1) e1)). by apply (calm_closed e). }
  specialize (H2 (live_preedit (match session (enter env Phase.Recording i k c (session_raw_prev e1) e1) with
     Some s => transcript_text s | None => [] end) (if c then CommandingPreeditText else RecordingPreeditText)
     (enter env Phase.Recording i k c (session_raw_prev e1) e1))).
  destruct (calm_trans _ _ _ H1 H2) as (K & T & _). clear H1 H2. revert K T.
  generalize (ensureStatusSync (updateVoicePresentation (Some i) (live_preedit
     (match session (enter env Phase.Recording i k c (session_raw_prev e1) e1) with Some s => transcript_text s | None => [] end)
     (if c then CommandingPreeditText else RecordingPreeditText) (enter env Phase.Recording i k c (session_raw_prev e1) e1)) []
     (enter env Phase.Recording i k c (session_raw_prev e1) e1))). intros e2 K T.
  subst b. destruct (session e) as [s|]; [|done]. by destruct (_ && _ && _).
Qed.

Lemma status_recording env i m p rel e :
  closed e -> dictating i m p rel e ->
  let e' := onStatusChanged env kStatusRecording e in
  dictating i m Phase.Recording rel e' /\ kept e e'
  /\ stop_timer e' = (if bool_decide (p = Phase.PendingStart) && rel then Some (now env + kReleaseDebounce)%Z else stop_timer e).
Proof.
  intros Hc (s & Es & Hp & Hi & Ht & Hst & Hrel) e'. subst e'. unfold onStatusChanged. cbv zeta.
  set (e0 := set_gate Invalidate e <| last_known_status := kStatusRecording |> <| polled_idle_since := None |>).
  assert (E0 : resolveFrontendInputContext None e0 = Some i)
    by (unfold resolveFrontendInputContext; change (session e0) with (session e); rewrite Es; by f_equal).
  rewrite E0. set (e1 := rememberInputContext (Some i) e0).
  assert (E1 : session e1 = Some s /\ kept e e1 /\ stop_timer e1 = stop_timer e /\ resolveFrontendInputContext None e1 = Some i).
  { unfold resolveFrontendInputContext. change (session e1) with (session e). rewrite Es. by rewrite Hi. }
  clearbody e1. clear E0 e0. destruct E1 as (Es1 & K1 & T1 & E1). unfold applyDaemonStatusLocally.
  change (bool_decide (kStatusRecording = kStatusIdle)) with false. change (bool_decide (kStatusRecording = kStatusRecording)) with true.
  cbn [andb]. rewrite E1, Es1. cbv zeta iota.
  destruct (recording_session env i (trigger s) (command_mode s) e1) as (s' & Es' & Hp' & Hi' & Ht' & _ & Hx). rewrite Es1 in Hx.
  destruct Hx as (Hx1 & Hx2 & _). destruct (recording_timer env i (trigger s) (command_mode s) e1 (kept_closed _ _ K1 Hc)) as [K2 T2].
  rewrite Es1 in T2. split_and!; [exists s'; split_and!; congruence | by eapply kept_trans |].
  rewrite T2, Hst, orb_true_r, Hp, Hrel, T1. by destruct (bool_decide _), rel.
Qed.
Lemma calm_busy env i c p po r e : closed e -> calm e (enterBusyState env (Some i) c p po r e).
Proof.
  intros Hc. unfold enterBusyState. cbv zeta.
  assert (H1 : calm e (leave_status_ic i (rememberInputContext (Some i) e)))
    by (eapply calm_trans; [apply (calm_remember (Some i))|]; by apply calm_leave).
  set (e1 := leave_status_ic i _) in *. clearbody e1. set (r' := default _ r). set (e2 := enter _ _ i no_key c r' e1).
  assert (H2 : calm e e2) by (eapply calm_trans; [exact H1|]; by apply calm_refl).
  pose proof (calm_closed _ _ H2 Hc) as C2. clearbody e2. eapply calm_trans; [|apply calm_ensure].
  destruct (negb r'); [|destruct (_ && _)]; (eapply calm_trans; [exact H2|]); by apply kept_update.
Qed.

(** The scene the configuration has active. *)
Definition active_scene (c : CoreConfig) : Scene :=
  Resolve {| activeSceneId := activeScene (cc_scenes c); scenes := definitions (cc_scenes c) |} (activeScene (cc_scenes c)).

Lemma stop_sends env i m rel e :
  closed e -> dictating i m Phase.Recording rel e -> bus e = true -> daemonSyncAllowed env e = true -> call_ok env = true ->
  let e' := finishStopRecording env (e <| stop_timer := None |>) in
  phase <$> session e' = Some Phase.Inferring /\ CallStop (sc_id (active_scene (config env))) ∈ outputs e' /\ stop_call e' = true.
Proof.
  intros Hc (s & Es & Hp & Hi & Ht & Hst & Hrel) Hb Ha Hk e'. subst e'. unfold finishStopRecording.
  change (session (e <| stop_timer := None |>)) with (session e). rewrite Es, (bool_decide_true (phase s = _)) by done. cbv zeta.
  set (e1 := reloadSceneConfig (config env) (e <| stop_timer := None |>)).
  assert (K1 : kept e e1) by (subst e1; unfold reloadSceneConfig; by case_match).
  assert (Hsc : Resolve (scene_config e1) (active_scene_id e1) = active_scene (config env)) by (subst e1; unfold reloadSceneConfig; by case_match).
  rewrite Hsc. clearbody e1. set (scene := active_scene (config env)).
  set (s1 := s <| sess_raw_prev := _ |> <| trigger := _ |>).
  set (e2 := e1 <| active_scene_id := _ |> <| session := _ |>).
  assert (K2 : kept e e2) by exact K1. clearbody e2.
  destruct (busy_session env (ic s1) (command_mode s1) InferringPreeditText false (Some (raw_prev scene)) e2) as (s3 & E3 & P3 & _).
  pose proof (calm_busy env (ic s1) (command_mode s1) InferringPreeditText false (Some (raw_prev scene)) e2 (kept_closed _ _ K2 Hc)) as (K3 & _ & _).
  set (e3 := enterBusyState _ _ _ _ _ _ _) in *. clearbody e3. pose proof (kept_trans _ _ _ K2 K3) as K.
  unfold kept, settings in K. injection K as Kb Ks _ _ _ _ _ _ _ _ _ _ _.
  unfold callStopRecording, call_daemon, daemonSyncAllowed in *. rewrite Kb, Ks, Hb, Ha, Hk. cbn. rewrite E3. cbn.
  split; [by rewrite P3|]. split; [|done]. apply elem_of_app. right. by apply list_elem_of_singleton.
Qed.

(** The key of a dictation is still held. *)
Definition held (k m : Key) (t : Z) (e : Engine) : Prop :=
  closed e /\ postprocessing_release e = None /\ held_role e = RoleTrigger /\ held_key_sym e = Some (sym k)
  /\ chord_interrupted e = false /\ held_press_time e = t /\ classify k true e = Some (RoleTrigger, m).
Lemma kept_held k m t e e' : kept e e' -> held k m t e -> held k m t e'.
Proof.
  unfold kept, settings, held, closed, classify. intros [= _ _ Et Ec Em _ -> -> -> -> -> -> ->].
  by rewrite Et, Ec, Em.
Qed.
Lemma release_event env ev i m p t e :
  ke_ic ev = Some i -> ke_release ev = true -> held (normalize (ke_orig ev)) m t e -> dictating i m p false e ->
  p <> Phase.Postprocessing -> trigger_mode e = Hold \/ trigger_mode e = Both /\ (t + kTapMaxHoldDuration <= now env)%Z ->
  let e' := handle env (EvKey ev) e in
  dictating i m p true e' /\ closed e' /\ bus e' = bus e /\ sync_blocked_until e' = sync_blocked_until e
  /\ stop_timer e' = (if bool_decide (p = Phase.Recording) then Some (now env + kReleaseDebounce)%Z else stop_timer e).
Proof.
  intros Hi Hr (Hc & Hn & H1 & H2 & H3 & <- & Hcl) Hd Hp Hm e'. subst e'. cbn [handle].
  rewrite key_plain; [|done|done|destruct Hd as (s & -> & -> & _); done]. cbv zeta. rewrite Hi, Hr, Hcl.
  destruct (release_dictating env i (normalize (ke_orig ev)) m p (rememberInputContext (Some i) e)) as (Hd' & Hk' & Ht'); try done.
  { unfold long_hold. cbn. destruct Hm as [?|[? ?]]; [by left | right; split; [done | lia]]. }
  unfold kept, settings in Hk'. injection Hk' as Kb Ks _ _ _ _ Kp Kr _ _ _ _ _.
  destruct Hc as [Hc1 Hc2]. split_and!; try done. split; [exact (eq_trans Kp Hc1) | exact (eq_trans Kr Hc2)].
Qed.

(** C6. Hold to talk. The trigger is pressed while nothing is going on: the daemon is asked to
    record. Whether the key is released before or after the daemon reports that it records,
    the recording is scheduled to stop half a second later, and when the timer fires the
    daemon is told to stop with the scene that is active then and the addon waits for the
    result. Neither order loses the release. *)
Theorem hold_to_talk e env1 env2 env3 env4 press_ev release_ev i m :
  session e = None -> closed e -> postprocessing_release e = None -> bus e = true -> status_free (last_known_status e) = true ->
  (kTriggerDebounce <= now env1 - last_trigger_time e)%Z -> (sync_blocked_until e <= now env1 <= now env2)%Z ->
  (now env2 <= now env3 <= now env4)%Z -> call_ok env1 = true -> call_ok env4 = true ->
  ke_ic press_ev = Some i -> ke_release press_ev = false -> ke_ic release_ev = Some i -> ke_release release_ev = true ->
  sym (normalize (ke_orig release_ev)) = sym (normalize (ke_orig press_ev)) ->
  classify (normalize (ke_orig press_ev)) false e = Some (RoleTrigger, m) ->
  classify (normalize (ke_orig release_ev)) true e = Some (RoleTrigger, m) ->
  trigger_mode e = Hold \/ trigger_mode e = Both /\ (now env1 + kTapMaxHoldDuration <= now env2)%Z ->
  let pressed := handle env1 (EvKey press_ev) e in
  let recording := EvStatusChanged kStatusRecording in
  let late := handle env3 (EvKey release_ev) (handle env2 recording pressed) in
  let early := handle env3 recording (handle env2 (EvKey release_ev) pressed) in
  CallStart ∈ outputs pressed
  /\ forall x, x = late \/ x = early ->
     dictating i m Phase.Recording true x /\ stop_timer x = Some (now env3 + kReleaseDebounce)%Z
     /\ (let y := handle env4 EvStopTimer x in
         phase <$> session y = Some Phase.Inferring /\ CallStop (sc_id (active_scene (config env4))) ∈ outputs y).
Proof.
  intros Hs Hc Hn Hb Hf Hdeb Ht1 Ht2 Hk1 Hk4 Hp1 Hp2 Hr1 Hr2 Hsym Hcp Hcr Hmode pressed recording late early.
  assert (Hpressed : dictating i m Phase.PendingStart false pressed /\ stop_timer pressed = None /\ CallStart ∈ outputs pressed
    /\ kept (e <| held_key_sym := Some (sym (normalize (ke_orig press_ev))) |> <| held_role := RoleTrigger |> <| chord_interrupted := false |>
              <| held_press_time := now env1 |>) pressed).
  { subst pressed. cbn [handle]. rewrite key_plain by (try done; by rewrite Hs). cbv zeta. rewrite Hp1, Hp2, Hcp.
    destruct (press_holds env1 i (normalize (ke_orig press_ev)) m (rememberInputContext (Some i) e)) as (A & B & C & D); try done.
    { unfold daemonSyncAllowed. cbn. lia. } { cbn. destruct Hmode as [->|[-> _]]; done. } }
  clearbody pressed. destruct Hpressed as (Hd & _ & Hcall & Hkept). split; [done|].
  set (t := now env1) in *.
  assert (Hheld : held (normalize (ke_orig release_ev)) m t pressed).
  { eapply kept_held; [exact Hkept|]. rewrite <- Hsym. by split_and!. }
  unfold kept, settings in Hkept. injection Hkept as Kb Ks _ _ _ Km _ _ _ _ _ _ _. clear Hcp Hcr.
  assert (Hx : forall x, x = late \/ x = early -> dictating i m Phase.Recording true x /\ stop_timer x = Some (now env3 + kReleaseDebounce)%Z
    /\ closed x /\ bus x = true /\ sync_blocked_until x = sync_blocked_until e).
  { intros x [->| ->].
    - destruct (status_recording env2 i m Phase.PendingStart false pressed (proj1 Hheld) Hd) as (D & K & T).
      pose proof (kept_held _ _ _ _ _ K Hheld) as Hh. subst late. cbn [handle recording]. set (e1 := onStatusChanged env2 _ _) in *. clearbody e1.
      unfold kept, settings in K. injection K as Kb1 Ks1 _ _ _ Km1 _ _ _ _ _ _ _.
      destruct (release_event env3 release_ev i m Phase.Recording t e1) as (D3 & C3 & B3 & S3 & T3); try done.
      { rewrite Km1, Km. destruct Hmode as [?|[? ?]]; [by left | right; split; [done | lia]]. }
      split_and!; [exact D3 | exact T3 | exact C3 | exact (eq_trans B3 (eq_trans Kb1 (eq_trans Kb Hb)))
        | exact (eq_trans S3 (eq_trans Ks1 Ks))].
    - destruct (release_event env2 release_ev i m Phase.PendingStart t pressed) as (D3 & C3 & B3 & S3 & T3); try done.
      { by rewrite Km. }
      subst early. set (e1 := handle env2 (EvKey release_ev) pressed) in *. clearbody e1.
      destruct (status_recording env3 i m Phase.PendingStart true e1 C3 D3) as (D & K & T).
      pose proof (kept_closed _ _ K C3). unfold kept, settings in K. injection K as Kb1 Ks1 _ _ _ Km1 _ _ _ _ _ _ _.
      split_and!; [exact D | exact T | done | exact (eq_trans Kb1 (eq_trans B3 (eq_trans Kb Hb)))
        | exact (eq_trans Ks1 (eq_trans S3 Ks))]. }
  intros x Hxe. destruct (Hx x Hxe) as (D & T & C & B & S). split_and!; [done..| |];
    destruct (stop_sends env4 i m true x C D B) as (P & O & _); try done; unfold daemonSyncAllowed; rewrite S; lia.
Qed.
(** ** Recovery from a lost signal *)

(** The timer fires and the daemon answers. *)
Definition poll (env : Env) (status : bytes) (e : Engine) : Engine :=
  let e := handle env EvStatusTimer e in
  match status_call e with Some t => handle env (EvStatusReply t (Some status)) e | None => e end.

(** A session whose query can go out. *)
Definition pollable (env : Env) (s : Session) (e : Engine) : Prop :=
  session e = Some s /\ coupled e /\ bus e = true /\ (sync_blocked_until e <= now env)%Z /\ call_ok env = true
  /\ status_call e = None /\ active_ (gate e) = false.

Lemma poll_idle env s e : pollable env s e ->
  exists e1, coupled e1 /\ session e1 = Some s /\ bus e1 = true /\ sync_blocked_until e1 = 0%Z /\ status_call e1 = None
    /\ active_ (gate e1) = false /\ polled_idle_since e1 = Some (default (now env) (polled_idle_since e))
    /\ poll env kStatusIdle e =
       if (now env - default (now env) (polled_idle_since e) <? kPolledIdleRecoveryDelay)%Z then e1
       else finishFrontendSession (Some (ic s)) (e1 <| polled_idle_since := None |>).
Proof.
  intros (Hs & Hco & Hb & Ht & Hk & Hc & Ha).
  set (g := {| generation_ := generation_ (gate e); request_id_ := u64_add (request_id_ (gate e)) 1; active_ := true |}).
  set (t := {| tk_id := u64_add (request_id_ (gate e)) 1; tk_generation := generation_ (gate e) |}).
  assert (E1 : handle env EvStatusTimer e = emit CallGetStatus (e <| gate := g |>) <| status_call := Some t |>).
  { cbn [handle]. unfold on_status_timer, syncFrontendWithDaemonStatus, daemonSyncAllowed, TryBegin. rewrite Hb, Ha, Hk.
    replace (sync_blocked_until e <=? now env)%Z with true by lia. cbn. by rewrite Hs. }
  unfold poll. rewrite E1. cbv zeta. set (e' := emit _ _ <| status_call := Some t |>). change (status_call e') with (Some t).
  cbv iota. cbn [handle]. set (since := default (now env) (polled_idle_since e)).
  set (e1 := clearDaemonSyncFailure (e' <| status_call := None |> <| gate := {| generation_ := generation_ g; request_id_ := request_id_ g; active_ := false |} |>)
    <| last_known_status := kStatusIdle |> <| polled_idle_since := Some since |>).
  assert (S1 : session e1 = Some s) by exact Hs. exists e1. split_and!; try done.
  assert (Happly : applyDaemonStatusLocally env kStatusIdle None false (e1 <| polled_idle_since := None |>)
                   = finishFrontendSession (Some (ic s)) (e1 <| polled_idle_since := None |>)).
  { unfold applyDaemonStatusLocally, resolveFrontendInputContext. change (session (e1 <| polled_idle_since := None |>)) with (session e1).
    rewrite S1. reflexivity. }
  unfold on_status_reply, CompleteTicket, IsActive. change (gate e') with g. change (request_id_ g =? tk_id t)%N with (tk_id t =? tk_id t)%N.
  change (tk_generation t =? generation_ g)%N with (tk_generation t =? tk_generation t)%N. rewrite !N.eqb_refl.
  change (active_ g && true) with true. cbn [negb]. cbv zeta iota.
  change (is_empty kStatusIdle) with false. change (bool_decide (kStatusIdle = kStatusIdle)) with true. cbn [orb].
  change (session (clearDaemonSyncFailure _ <| last_known_status := _ |>)) with (session e). rewrite Hs. cbv iota.
  change (polled_idle_since (clearDaemonSyncFailure _ <| last_known_status := _ |>)) with (polled_idle_since e). fold since.
  case_match; [done | exact Happly].
Qed.

Lemma finish_timer o e : coupled e -> status_timer (finishFrontendSession o e) = false.
Proof.
  intros Hco. destruct (finish_session o e) as [Hs Hi]. specialize (Hi Hco). revert Hs Hi. unfold finishFrontendSession. cbv zeta.
  match goal with |- context [stopStatusSyncIfIdle ?x] => generalize x end. intros x. unfold stopStatusSyncIfIdle.
  repeat case_match; cbn; congruence.
Qed.

(** C8. A lost "idle" signal does not leave the addon waiting: a session the daemon no longer
    knows survives the first poll (the signal or the result may still be on its way) and ends
    with a poll five seconds later, without an input context that shows the status and with
    the timer stopped. Before that it is kept. *)
Theorem idle_recovery e0 L e s env1 env2 :
  fresh e0 -> rtc step (∅, e0) (L, e) -> session e = Some s -> bus e = true -> status_call e = None -> polled_idle_since e = None ->
  (sync_blocked_until e <= now env1)%Z -> (0 <= now env2)%Z -> call_ok env1 = true -> call_ok env2 = true ->
  let e1 := poll env1 kStatusIdle e in
  let e2 := poll env2 kStatusIdle e1 in
  session e1 = Some s
  /\ ((now env2 < now env1 + kPolledIdleRecoveryDelay)%Z -> session e2 = Some s)
  /\ ((now env1 + kPolledIdleRecoveryDelay <= now env2)%Z -> session e2 = None /\ status_ic e2 = None /\ status_timer e2 = false).
Proof.
  intros Hf Hst Hs Hb Hc Hi Ht1 Ht2 Hk1 Hk2 e1 e2.
  destruct (good_reachable _ _ _ Hf Hst) as [(_ & Hco & Hga) _].
  assert (Ha : active_ (gate e) = false) by (unfold gated in Hga; by rewrite Hc in Hga).
  destruct (poll_idle env1 s e) as (x & Cx & Sx & Bx & Tx & Ix & Gx & Px & Ex); [by split_and!|]. rewrite Hi in Px, Ex. cbn [default] in Px, Ex.
  replace (now env1 - now env1 <? kPolledIdleRecoveryDelay)%Z with true in Ex by (unfold kPolledIdleRecoveryDelay; lia).
  cbv iota in Ex. subst e2 e1. rewrite Ex. clear Ex. split; [done|].
  destruct (poll_idle env2 s x) as (y & Cy & Sy & _ & _ & _ & _ & _ & Ey); [split_and!; try done; lia|]. rewrite Px in Ey. cbn [default id] in Ey.
  split; intros Hd.
  - replace (now env2 - now env1 <? kPolledIdleRecoveryDelay)%Z with true in Ey by lia. by rewrite Ey.
  - replace (now env2 - now env1 <? kPolledIdleRecoveryDelay)%Z with false in Ey by lia. rewrite Ey.
    destruct (finish_session (Some (ic s)) (y <| polled_idle_since := None |>)) as [F1 F2].
    split_and!; [exact F1 | by apply F2 | by apply finish_timer].
Qed.
(** ** Results *)

Definition commits (l : list Output) : list (IC * bytes) :=
  omap (fun o => match o with Commit i t => Some (i, t) | _ => None end) l.
Definition wants_menu (is_command : bool) (p : Payload) : bool :=
  if is_command then 1 <? length (filter (fun c => cand_source c = kSourceLlm) (candidates p)) else 1 <? length (candidates p).

Lemma commits_app l1 l2 : commits (l1 ++ l2) = commits l1 ++ commits l2.
Proof. apply omap_app. Qed.

(** Nothing is committed on the way. *)
Definition silent (e e' : Engine) : Prop := commits (outputs e') = commits (outputs e).
Lemma silent_trans e1 e2 e3 : silent e1 e2 -> silent e2 e3 -> silent e1 e3.
Proof. unfold silent. congruence. Qed.
Lemma silent_emit e o : match o with Commit _ _ => False | _ => True end -> silent e (emit o e).
Proof. intros Ho. unfold silent, emit. cbn. rewrite commits_app. destruct o; try done; by rewrite app_nil_r. Qed.
Lemma silent_flush e : silent e (flushContextBuffer e).
Proof.
  unfold flushContextBuffer. repeat case_match; try done. by apply (silent_emit e).
Qed.
Lemma silent_append t src e : silent e (appendContextEntry t src e).
Proof.
  unfold appendContextEntry, write_context. repeat case_match; try done; [|by apply silent_emit].
  eapply silent_trans; [apply silent_flush|]. by apply silent_emit.
Qed.
Lemma silent_hidePalette e : silent e (hidePaletteMenu e).
Proof. unfold hidePaletteMenu. repeat case_match; try done. by apply (silent_emit (resetPaletteMenuState e)). Qed.
Lemma silent_hideResult e : silent e (hideResultMenu e).
Proof. unfold hideResultMenu. repeat case_match; try done. by apply (silent_emit (resetResultMenuState e)). Qed.
Lemma silent_finish o e : silent e (finishFrontendSession o e).
Proof.
  unfold finishFrontendSession, clearVoicePresentation, updateVoicePresentation, dismissMenusForVoiceActivity. cbv zeta.
  set (e1 := set_gate Invalidate e <| session := _ |> <| polled_idle_since := _ |> <| command_selected_text := _ |> <| status_ic := _ |>).
  assert (H1 : silent e e1) by done. clearbody e1. eapply silent_trans; [exact H1|].
  assert (Hstop : forall x, silent x (stopStatusSyncIfIdle x)) by (intros x; unfold stopStatusSyncIfIdle; by repeat case_match).
  eapply silent_trans; [|apply Hstop].
  match goal with |- context [match ?o with Some _ => _ | None => e1 end] => destruct o as [j|] end; [|done].
  eapply silent_trans; [apply silent_hidePalette|]. eapply silent_trans; [apply silent_hideResult|]. by apply silent_emit.
Qed.
Lemma silent_onCommit t i e : silent e (onCommitString t i e).
Proof.
  assert (Ha : forall e, silent e (accumulateContextBuffer t i e)).
  { clear e. intros e. unfold accumulateContextBuffer. cbv zeta.
    set (e1 := if _ && _ then flushContextBuffer e else e). assert (H1 : silent e e1) by (subst e1; case_match; [apply silent_flush | done]).
    clearbody e1. eapply silent_trans; [exact H1|]. case_match; [|done].
    match goal with |- silent _ (flushContextBuffer ?x) => apply (silent_trans _ x); [done | apply silent_flush] end. }
  unfold onCommitString. repeat case_match; try done; try apply Ha.
  apply (silent_trans _ (e <| suppressed_commit := None |>)); [done | apply Ha].
Qed.
Lemma commit_once i t e : commits (outputs (commitString i t e)) = commits (outputs e) ++ [(i, t)].
Proof. unfold commitString. rewrite silent_onCommit. unfold emit. cbn. by rewrite commits_app. Qed.
Lemma silent_delete env i e : silent e (delete_selection env i e).
Proof. unfold delete_selection. repeat case_match; try done. by apply silent_emit. Qed.
Lemma select_commits env n i c e : result_candidates e !! n = Some c ->
  commits (outputs (selectResultCandidate env n (Some i) e)) = commits (outputs e) ++ [(i, cand_text c)].
Proof.
  intros Hn. unfold selectResultCandidate. rewrite Hn. cbv zeta. rewrite commit_once. f_equal.
  set (e1 := if cand_source c =b kSourceLlm then appendContextEntry (cand_text c) kSourceLlm (hideResultMenu e) else hideResultMenu e).
  assert (H1 : silent e e1).
  { subst e1. case_match; [|apply silent_hideResult]. eapply silent_trans; [apply silent_hideResult | apply silent_append]. }
  clearbody e1. rewrite <- H1. case_match; [|done]. exact (silent_delete env i (suppressNextCommitContext (cand_text c) e1)).
Qed.

Lemma session_append t src e : session (appendContextEntry t src e) = session e.
Proof.
  unfold appendContextEntry, write_context, emit. repeat case_match; try done. cbn. apply framed_flush.
Qed.
Lemma session_commit i t e : session (commitString i t e) = session e.
Proof.
  assert (Ha : forall x, session (accumulateContextBuffer t (Some i) x) = session x).
  { intros x. unfold accumulateContextBuffer. cbv zeta. set (e1 := if _ && _ then flushContextBuffer x else x).
    assert (H1 : session e1 = session x) by (subst e1; case_match; [apply framed_flush | done]). rewrite <- H1. clearbody e1.
    case_match; [|done]. etransitivity; [apply framed_flush | done]. }
  unfold commitString, onCommitString. repeat case_match; try done; by etransitivity; [apply Ha|].
Qed.
Lemma session_show i p e : session (showResultMenu i p e) = session e.
Proof. unfold showResultMenu, hidePaletteMenu. by repeat case_match. Qed.
Lemma show_result i p e : is_empty (candidates p) = false ->
  silent e (showResultMenu i p e) /\ result_menu_visible (showResultMenu i p e) = true /\ result_menu_ic (showResultMenu i p e) = Some i
  /\ result_candidates (showResultMenu i p e) = candidates p.
Proof.
  intros Hn. unfold showResultMenu. rewrite Hn. cbv zeta. split; [|done].
  eapply silent_trans; [apply silent_hidePalette|].
  apply (silent_trans _ (hidePaletteMenu e <| result_menu_ic := Some i |> <| result_menu_visible := true |> <| result_candidates := candidates p |>));
    [done | by apply silent_emit].
Qed.
Lemma wants_menu_some b p : wants_menu b p = true -> is_empty (candidates p) = false.
Proof. unfold wants_menu. by destruct b, (candidates p). Qed.

(** C7. The result of a dictation is delivered once. The session ends; a single choice is
    committed at once, exactly once, to the context that dictated; several choices open the
    menu of that context without committing anything, and choosing an entry commits its text
    there once. *)
Theorem result_delivered e0 L e env env' p i :
  fresh e0 -> rtc step (∅, e0) (L, e) -> resolveFrontendInputContext None e = Some i -> is_empty (commitText p) = false ->
  let is_command := match session e with Some s => command_mode s | None => false end in
  let e' := handle env (EvResult p) e in
  session e' = None /\ status_ic e' = None
  /\ commits (outputs e') = commits (outputs e) ++ (if wants_menu is_command p then [] else [(i, commitText p)])
  /\ (wants_menu is_command p = true ->
      result_menu_visible e' = true /\ result_menu_ic e' = Some i /\ result_candidates e' = candidates p
      /\ forall n c, candidates p !! n = Some c ->
         commits (outputs (handle env' (EvResultClick n i) e')) = commits (outputs e') ++ [(i, cand_text c)]).
Proof.
  intros Hf Hst Hr Hne is_command e'.
  pose proof (good_reachable _ _ _ Hf Hst) as Hg. pose proof (good_result L env p e Hg) as [(_ & Hco' & _) _].
  assert (Hsess : session e' = None
    /\ commits (outputs e') = commits (outputs e) ++ (if wants_menu is_command p then [] else [(i, commitText p)])
    /\ (wants_menu is_command p = true ->
         result_menu_visible e' = true /\ result_menu_ic e' = Some i /\ result_candidates e' = candidates p)).
  { clear Hco'. subst e'. cbn [handle]. unfold onRecognitionResult. cbv zeta. fold is_command. rewrite Hr, Hne.
    assert (H1 : session (finishFrontendSession (Some i) (rememberInputContext (Some i) e)) = None) by apply finish_session.
    assert (H2 : silent e (finishFrontendSession (Some i) (rememberInputContext (Some i) e)))
      by (apply (silent_trans _ (rememberInputContext (Some i) e)); [done | apply silent_finish]).
    set (e1 := finishFrontendSession _ _) in *. clearbody e1. fold (wants_menu is_command p).
    set (e2 := match asr_candidate _ _ p with Some _ => _ | None => _ end).
    assert (K2 : silent e e2 /\ session e2 = None).
    { subst e2. destruct (asr_candidate _ _ p) as [c|]; [|done]. destruct (is_empty (cand_text c)); [done|]. split; [|by rewrite session_append]. eapply silent_trans; [exact H2 | apply silent_append]. }
    clearbody e2. destruct K2 as [K2 S2]. destruct (wants_menu is_command p) eqn:Ew.
    - destruct (show_result i p (e2 <| result_is_command := is_command |>) (wants_menu_some _ _ Ew)) as (M0 & M1 & M2 & M3).
      split_and!; [by rewrite session_show | rewrite app_nil_r; exact (eq_trans M0 K2) | by intros _].
    - rewrite commit_once, session_commit. split_and!; [| |done].
      + set (e3 := if existsb _ _ then _ else e2). assert (S3 : session e3 = None) by (subst e3; case_match; by rewrite ?session_append).
        clearbody e3. unfold delete_selection. repeat case_match; done.
      + f_equal. set (e3 := if existsb _ _ then _ else e2).
        assert (K3 : silent e e3) by (subst e3; case_match; [eapply silent_trans; [exact K2 | apply silent_append] | done]).
        clearbody e3. rewrite <- K3. case_match; [|done].
        exact (silent_delete env i (suppressNextCommitContext (commitText p) e3)). }
  destruct Hsess as (Hs & Hc & Hm). split_and!; [done | | done | ].
  - change (coupled e') in Hco'. unfold coupled in Hco'. rewrite Hs in Hco'. exact Hco'.
  - intros Hw. destruct (Hm Hw) as (M1 & M2 & M3). split_and!; [done..|]. intros n c Hn. cbn [handle].
    apply select_commits. by rewrite M3.
Qed.
End frontend.

(** ** Witnesses

    Keys are symbols without modifiers; the trigger is one key. *)
#[export] Instance plain_keys : FcitxKey N := {|
  no_key := 0%N; normalize := id; sym := id;
  keyListIndex := fun k l => fst <$> list_find (eq k) l;
  isModifier := fun _ => false; isReleaseOfModifier := fun _ _ => false;
  check := N.eqb; checkKeyList := fun k l => existsb (N.eqb k) l;
  digitSelection := fun _ => None; plain := fun _ => true;
  keySymToUTF8 := fun k => if (k <? 127)%N then [ascii_of_N k] else [];
|}.

Definition demo_trigger : N := 65507.
Definition demo_engine : Engine (Key := N) := {|
  bus := true; gate := new_gate; start_call := false; stop_call := false; status_call := None; session := None;
  status_ic := None; last_active_ic := None; palette_menu_ic := None; result_menu_ic := None;
  trigger_keys := [demo_trigger]; command_keys := []; menu_keys := []; page_prev_keys := []; page_next_keys := [];
  trigger_mode := Hold; max_streaming_display_width := 40;
  held_key_sym := None; held_role := RoleNone; chord_interrupted := false; held_press_time := 0;
  palette_menu_visible := false; result_menu_visible := false; active_scene_id := []; scene_config := {| activeSceneId := []; scenes := [] |};
  palette_items := []; palette_query := []; suppressed_commit := None; command_selected_text := [];
  context_text := []; context_ic := None; context_timer := false; max_context_lines := 0;
  result_candidates := []; result_is_command := false; last_trigger_time := 0; sync_blocked_until := 0;
  last_known_status := []; polled_idle_since := None; postprocessing_release := None; stop_timer := None; status_timer := false;
  outputs := [];
|}.
Definition demo_env (t : Z) : Env := {|
  now := t; call_ok := true; config := default_core_config; surrounding := None; primary := None;
  palette_world := {| pw_local_models := []; pw_title := id; pw_models := []; pw_running := fun _ => false |};
  save_ok := true; sync_status := None; sync_reply := None;
|}.
Definition demo_key (is_release : bool) : KeyEvent (Key := N) :=
  {| ke_ic := Some 1%N; ke_key := demo_trigger; ke_orig := demo_trigger; ke_release := is_release; ke_menu := None |}.

Abbreviation demo_handle := (handle (fun _ => true) (fun _ n => N.to_nat n)).
Abbreviation demo_step := (step (fun _ => true) (fun _ n => N.to_nat n)).

(** A context appears and the trigger is pressed in it. *)
Definition demo_created : Engine := demo_handle (demo_env 1000) (EvCreated 1) (demo_engine <| outputs := [] |>).
Definition demo_pressed : Engine := demo_handle (demo_env 2000) (EvKey (demo_key false)) (demo_created <| outputs := [] |>).
Lemma demo_fresh : fresh demo_engine.
Proof. by repeat constructor. Qed.
Lemma demo_reached : rtc demo_step (∅, demo_engine) ({[1%N]} ∪ ∅, demo_pressed).
Proof.
  eapply rtc_l; [apply (step_created _ _ ∅ demo_engine (demo_env 1000) 1%N); set_solver|]. eapply rtc_l; [|apply rtc_refl].
  apply (step_event _ _ _ demo_created (demo_env 2000) (EvKey (demo_key false))); [done|]. cbn. set_solver.
Qed.

Lemma frontend_safe_witness : status_ic demo_pressed = Some 1%N /\ status_timer demo_pressed = true.
Proof.
  destruct (frontend_safe _ _ demo_engine ({[1%N]} ∪ ∅) demo_pressed demo_fresh demo_reached) as (_ & _ & Hi & Ht & _).
  split; [rewrite Hi; vm_compute; reflexivity | apply Ht; vm_compute; eauto].
Defined.

Lemma status_followed_witness :
  phase <$> session (demo_handle (demo_env 3000) (EvStatusChanged kStatusInferring) demo_pressed) = Some Phase.Inferring.
Proof.
  destruct (status_followed _ _ demo_engine ({[1%N]} ∪ ∅) demo_pressed (demo_env 3000) kStatusInferring 1%N demo_fresh demo_reached) as (Hp & _);
    [vm_compute; reflexivity | exact Hp].
Defined.

Lemma hold_to_talk_witness :
  CallStart ∈ outputs (demo_handle (demo_env 2000) (EvKey (demo_key false)) demo_engine).
Proof.
  apply (hold_to_talk (fun _ => true) (fun _ n => N.to_nat n) demo_engine
           (demo_env 2000) (demo_env 2300) (demo_env 2600) (demo_env 3200) (demo_key false) (demo_key true) 1%N demo_trigger);
    first [reflexivity | by vm_compute | cbn; lia | by left].
Defined.

Lemma idle_recovery_witness :
  let poll := poll (fun _ => true) (fun _ n => N.to_nat n) in
  session (poll (demo_env 8000) kStatusIdle (poll (demo_env 3000) kStatusIdle demo_pressed)) = None.
Proof.
  destruct (session demo_pressed) as [s|] eqn:E; [|vm_compute in E; discriminate].
  apply (idle_recovery _ _ demo_engine ({[1%N]} ∪ ∅) demo_pressed s (demo_env 3000) (demo_env 8000) demo_fresh demo_reached E);
    first [reflexivity | by vm_compute | cbn; lia].
Defined.

Lemma result_delivered_witness :
  let e' := demo_handle (demo_env 3000) (EvResult {| commitText := "hello"; candidates := [] |}) demo_pressed in
  session e' = None /\ commits (outputs e') = [(1%N, "hello" : bytes)].
Proof.
  destruct (result_delivered _ _ demo_engine ({[1%N]} ∪ ∅) demo_pressed (demo_env 3000) (demo_env 3000)
    {| commitText := "hello"; candidates := [] |} 1%N demo_fresh demo_reached) as (Hs & _ & Hc & _); [vm_compute; reflexivity..|].
  split; [exact Hs|]. rewrite Hc. vm_compute. reflexivity.
Defined.
