(* ===== verification/Controller.v ===== *)
(** * The runtime controller (src/src/daemon/runtime/daemon_runtime_controller.cpp)

    The controller ties the state machine, the audio buffer, the session
    lifecycle and the pipeline together. Its handlers run on the main thread and
    on client threads; recognition and post-processing run on one worker thread.
    A handler is a function on the controller state, with the answers of its
    environment (capture, configuration file, session creation) as arguments; the
    worker advances by [worker_step], between two of which any handler may run.
    A recording start is split at its two unlocked calls, because a cancellation
    is allowed to overtake it there; every other handler is one step, also where it
    gives up the lock between two sections ([StopRecording], the push loop of
    [HandleIncomingAudio]). What the controller sends is recorded in
    [outputs]. *)

From S2P Require Import Prelude StringUtils Floats Json Scene CoreConfig Dbus StateMachine AudioUtils AudioBuffer RecognitionContract SessionLifecycle SessionManager RecognitionResult ClientProtocol.
From Stdlib Require Import SpecFloat.

(** ** Helpers *)

Definition kNonSilentPeakThreshold : flt := f32_lit 2 100.
Definition kNonSilentRmsThreshold : flt := f32_lit 5 1000.

Definition UsesBufferedDelivery (d : BackendDescriptor) : bool :=
  audio_delivery_mode (bd_capabilities d) =b Buffered.

(** [static_cast<float>(sample) / 32768.0F] *)
Definition f32_sample (sample : Z) : flt :=
  SFdiv f32_prec f32_emax (f32_of_Z sample) (f32_of_Z 32768).

Definition HasNonSilentAudio (pcm : list Z) : bool :=
  if is_empty pcm then false
  else
    let '(sum_squares, peak) :=
      foldl (fun '(sum, peak) sample =>
        let value := f32_sample sample in
        (SFadd f64_prec f64_emax sum (f64_mul (f64_of_f32 value) (f64_of_f32 value)),
         fmax peak (SFabs value))) (S754_zero false, S754_zero false) pcm in
    let rms := f32_of_f64 (SFsqrt f64_prec f64_emax
      (SFdiv f64_prec f64_emax sum_squares (f64_of_Z (Z.of_nat (length pcm))))) in
    SFleb kNonSilentPeakThreshold peak || SFleb kNonSilentRmsThreshold rms.

(** What leaves the daemon. *)
Inductive output :=
  | EmitStatusChanged (status : bytes)
  | EmitRecognitionPartial (text : bytes)
  | EmitRecognitionResult (p : Payload)
  | EmitDesktopNotification (message : bytes)
  | Broadcast (e : EventWire)
  | SynchronizeBackendCall                (* recognition_manager_->SynchronizeBackend *)
  | CaptureBegin | CaptureEnd | CaptureStop
  | DuckOutput | RestoreOutput.

Record RecognitionOrder := {
  order_mode : AudioDeliveryMode;
  order_session : option session_id;
  order_backend : BackendDescriptor;
  order_pcm : list Z;
  order_request : PostprocessRequest;
  order_ime : bool;
}.

Definition empty_request : PostprocessRequest :=
  {| req_text := []; req_scene_id := []; req_is_command := false; req_selected_text := [] |}.

(** The moved-from order: the optional keeps a value until it is reset. *)
Definition moved_from (o : RecognitionOrder) : RecognitionOrder :=
  {| order_mode := order_mode o; order_session := None; order_backend := order_backend o;
     order_pcm := []; order_request := empty_request; order_ime := order_ime o |}.

(** The members reset by [ResetRecordingStateLocked]; a time point is a flag. *)
Record RecordingInfo := {
  latest_final_text : bytes;
  recording_started_at : bool;
  first_non_silent_at : bool;
  first_partial_logged : bool;
}.
Definition no_recording : RecordingInfo :=
  {| latest_final_text := []; recording_started_at := false; first_non_silent_at := false;
     first_partial_logged := false |}.
#[export] Instance recording_fields : Fields RecordingInfo := fun r =>
  {| latest_final_text := latest_final_text r; recording_started_at := recording_started_at r;
     first_non_silent_at := first_non_silent_at r; first_partial_logged := first_partial_logged r |}.

(** Where the worker thread stands in [WorkerMain]. *)
Inductive worker_state :=
  | WK_top                                                     (* while (worker_running_) *)
  | WK_wait                                                    (* worker_cv_.wait *)
  | WK_recognize (o : RecognitionOrder)                        (* push and finish the session *)
  | WK_pipeline (o : RecognitionOrder) (settings : CoreConfig) (* pipeline_->Process *)
  | WK_processing (o : RecognitionOrder) (r : RecognitionPipelineResult) (* the LLM call *)
  | WK_commit (o : RecognitionOrder) (r : RecognitionPipelineResult)
  | WK_exception (what : bytes)
  | WK_reset                                                   (* ResetToIdle *)
  | WK_exit.

(** A recording start between its critical sections. *)
Record start_job := {
  job_ime : bool; job_is_command : bool; job_selected_text : bytes; job_device : bytes;
  job_settings : CoreConfig; job_opened : bool;
}.

Definition MethodResult := result unit.

Section controller.
Context {State : Type} `{RecognitionSession State}.
Context (failure_error : State -> option bytes).
(** The answer of [recognition_manager_->SynchronizeBackend] after a history. *)
Context (synchronize : list output -> result unit).
(** [std::make_unique<AsyncRecognitionSession>(session)] *)
Context (make_async : State -> State).
Context (pipeline : option PostProcessor).

Record Controller := {
  machine : RuntimeStateMachine;
  postprocessing_cancel_requested : bool;
  current_order : option RecognitionOrder;
  lifecycle : SessionLifecycleManager State;
  active_backend : BackendDescriptor;
  audio : AudioRecordingBuffer;
  recording : RecordingInfo;
  start_recording_in_progress : bool;
  pending_asr_backend_reload : bool;
  session_ime : bool;
  pending_capture_stop : bool;
  accepting_chunks : bool;
  worker_running : bool;
  worker : worker_state;
  starts : list start_job;          (* recording starts under way *)
  capture_recording : bool;         (* capture_->IsRecording() *)
  next_session : session_id;        (* the next session object *)
  undefined : bool;                 (* an audio conversion was undefined *)
  outputs : list output;
}.

#[export] Instance controller_fields : Fields Controller := fun c =>
  {| machine := machine c; postprocessing_cancel_requested := postprocessing_cancel_requested c;
     current_order := current_order c; lifecycle := lifecycle c; active_backend := active_backend c;
     audio := audio c; recording := recording c;
     start_recording_in_progress := start_recording_in_progress c;
     pending_asr_backend_reload := pending_asr_backend_reload c; session_ime := session_ime c;
     pending_capture_stop := pending_capture_stop c; accepting_chunks := accepting_chunks c;
     worker_running := worker_running c; worker := worker c; starts := starts c;
     capture_recording := capture_recording c; next_session := next_session c;
     undefined := undefined c; outputs := outputs c |}.

Definition send (os : list output) (c : Controller) : Controller := c <| outputs := outputs c ++ os |>.

(** An audio operation, undefined only for a non-finite gain. *)
Definition with_audio (b : option AudioRecordingBuffer) (c : Controller) : Controller :=
  match b with Some b => c <| audio := b |> | None => c <| undefined := true |> end.

Definition status_outputs (status : Status) (ime : bool) : list output :=
  (if ime then [EmitStatusChanged (StatusToString status)] else [])
  ++ [Broadcast (StatusEvent (StatusToString status) ime)].

Definition NotifyStatusChanged (status : Status) (c : Controller) : Controller :=
  send (status_outputs status (session_ime c)) c.

Definition ResetRecordingState (c : Controller) : Controller :=
  c <| audio := ClearBuffer (audio c) |> <| recording := no_recording |>
    <| active_backend := default_descriptor |>.

Definition ScheduleCaptureStopOnMainThread (c : Controller) : Controller :=
  c <| pending_capture_stop := true |>.

Definition msg_reload_failed : bytes :=
  "ASR backend reload failed. The previous backend may still be active.".
Definition reload_message (e : bytes) : bytes :=
  if is_empty e then msg_reload_failed else msg_reload_failed ++ ch_nl :: e.

(** [SynchronizeAsrBackend]: the request, and its answer. *)
Definition SynchronizeAsrBackend (c : Controller) : result unit * Controller :=
  let c := send [SynchronizeBackendCall] c in (synchronize (outputs c), c).

Definition MaybeApplyPendingAsrBackendReload (c : Controller) : Controller :=
  if negb (pending_asr_backend_reload c) || negb (phase_ (machine c) =b Idle) then c
  else
    match SynchronizeAsrBackend (c <| pending_asr_backend_reload := false |>) with
    | (Ok _, c) => c
    | (Err e, c) => send [EmitDesktopNotification (reload_message e)] c
    end.

Definition ReloadAsrBackend (c : Controller) : MethodResult * Controller :=
  if negb (phase_ (machine c) =b Idle) || start_recording_in_progress c
  then (Ok tt, c <| pending_asr_backend_reload := true |>)
  else
    match SynchronizeAsrBackend c with
    | (Ok _, c) => (Ok tt, c)
    | (Err e, c) => (Err (reload_message e), c)
    end.

(** The callback for the result of a reload, set by the constructor. *)
Definition ReloadResult (success : bool) (message : bytes) (c : Controller) : Controller :=
  if success || is_empty message then c
  else send [EmitDesktopNotification (msg_reload_failed ++ ch_nl :: message)] c.

Definition ResetToIdle (c : Controller) : Controller :=
  let was_ime := session_ime c in
  let c := ResetRecordingState
             (c <| start_recording_in_progress := false |>
                <| postprocessing_cancel_requested := false |>
                <| machine := (OnResetToIdle (machine c)).2 |>
                <| current_order := None |>) in
  MaybeApplyPendingAsrBackendReload
    (send (RestoreOutput :: status_outputs Idle was_ime) (c <| session_ime := true |>)).

(** ** Audio and session events *)

Definition FailActiveSession (s : option session_id) (message : bytes) (c : Controller)
  : bool * Controller :=
  if negb (IsActiveSession s (lifecycle c)) then (false, c)
  else
    let c := ResetRecordingState (c <| accepting_chunks := false |>) in
    let '(detached, m) := DetachActive (lifecycle c) in
    let c := c <| lifecycle := CancelAndRetireSession detached m |>
               <| machine := (OnAudioError (machine c)).2 |> in
    let c := NotifyStatusChanged Error c in
    let c := send [EmitDesktopNotification message; CaptureEnd; RestoreOutput]
               (c <| capture_recording := false |>) in
    (true, ScheduleCaptureStopOnMainThread c).

(** The push loop of [HandleIncomingAudio], one chunk per iteration. *)
Fixpoint push_loop (fuel : nat) (s : option session_id) (chunk : list Z) (c : Controller) : Controller :=
  match fuel with
  | O => c
  | Datatypes.S fuel =>
      let '(r, m) := LifecyclePushAudio s chunk (lifecycle c) in
      let c := c <| lifecycle := m |> in
      match r with
      | Err e => (FailActiveSession s e c).2
      | Ok _ =>
          if negb (IsActiveSession s (lifecycle c))
          then c <| lifecycle := RetireSession s (lifecycle c) |>
          else
            match PopStreamingChunk (audio c) kStreamingChunkSamples with
            | (Some chunk, b) => push_loop fuel s chunk (c <| audio := b |>)
            | (None, b) => c <| audio := b |>
            end
      end
  end.

Definition HandleIncomingAudio (pcm : list Z) (c : Controller) : Controller :=
  if negb (accepting_chunks c) || is_empty pcm then c
  else if start_recording_in_progress c && negb (HasActiveSession (lifecycle c))
  then with_audio (AppendStartup (audio c) pcm) c
  else if negb (HasActiveSession (lifecycle c)) then c
  else
    let s := active_session (lifecycle c) in
    let c :=
      if first_non_silent_at (recording c) then c
      else match PrepareGainAdjustedInput pcm (gain_ (audio c)) with
           | Some view =>
               if HasNonSilentAudio view
               then c <| recording := recording c <| first_non_silent_at := true |> |> else c
           | None => c <| undefined := true |>
           end in
    let c := with_audio (Append (audio c) pcm) c in
    if UsesBufferedDelivery (active_backend c) then c
    else
      match PopStreamingChunk (audio c) kStreamingChunkSamples with
      | (Some chunk, b) =>
          push_loop (Datatypes.S (length (streaming_pcm_ (audio c)))) s chunk (c <| audio := b |>)
      | (None, b) => c <| audio := b |>
      end.

(** The fuel of the push loop is enough: an iteration that goes on has popped a
    full chunk, so more fuel changes nothing. *)
Lemma push_loop_fuel f f' s chunk c :
  length (streaming_pcm_ (audio c)) < f -> f <= f' -> push_loop f' s chunk c = push_loop f s chunk c.
Proof.
  revert f' chunk c. induction f as [|f IH]; intros f' chunk c Hl Hf; [lia|].
  destruct f' as [|f']; [lia|]. cbn [push_loop].
  destruct (LifecyclePushAudio s chunk (lifecycle c)) as [[[]|e] m]; [|done].
  cbn [audio lifecycle alter_field]. destruct (negb _); [done|].
  destruct (PopStreamingChunk (audio c) kStreamingChunkSamples) as [[chunk'|] b] eqn:E; [|done].
  apply IH; [|lia]. apply pop_shrinks in E. cbn. lia.
Qed.

(** The chunks the capture queue holds. *)
Definition DrainIncomingAudio (chunks : list (list Z)) (c : Controller) : Controller :=
  if negb (accepting_chunks c) then c
  else foldl (fun c chunk => if is_empty chunk then c else HandleIncomingAudio chunk c) c chunks.

Definition partial_outputs (text : bytes) (ime : bool) : list output :=
  (if ime then [EmitRecognitionPartial text] else []) ++ [Broadcast (PartialEvent text ime)].

Definition HandlePartialText (e : RecognitionEvent) (c : Controller) : Controller :=
  if is_empty (ev_text e) then c
  else send (partial_outputs (ev_text e) (session_ime c))
         (c <| recording := recording c <| first_partial_logged := true |> |>).

Definition HandleFinalText (e : RecognitionEvent) (c : Controller) : Controller :=
  if is_empty (ev_text e) then c
  else send (partial_outputs (ev_text e) (session_ime c))
         (c <| recording := recording c <| latest_final_text := ev_text e |> |>).

Definition DispatchSingleEvent (c : Controller) (e : RecognitionEvent) : Controller :=
  match ev_kind e with
  | PartialText => HandlePartialText e c
  | FinalText => HandleFinalText e c
  | ErrorEvent | Completed => c
  end.

Definition ApplyRecognitionEvents (evs : list RecognitionEvent) (c : Controller) : Controller :=
  foldl DispatchSingleEvent c evs.

Definition PollActiveSessionEvents (c : Controller) : Controller :=
  if negb (phase_ (machine c) =b Recording) || negb (HasActiveSession (lifecycle c))
     || UsesBufferedDelivery (active_backend c)
  then c
  else
    let s := active_session (lifecycle c) in
    let '(poll, m) := PollSessionEvents failure_error s (lifecycle c) in
    let c := ApplyRecognitionEvents (pr_events poll) (c <| lifecycle := m |>) in
    match pr_failure poll with
    | Some e => (FailActiveSession s e c).2
    | None => c
    end.

Definition busy_phase (p : Status) : bool :=
  match p with Recording | Inferring | Postprocessing => true | Idle | Error => false end.

(** [chunks] is the content of the capture queue; [reuse] is the capture's
    stream reuse policy. *)
Definition FlushDeferredActions (chunks : list (list Z)) (reuse : bool) (c : Controller) : Controller :=
  let c := c <| lifecycle := (FlushReapedSessions (lifecycle c)).2 |> in
  let c := PollActiveSessionEvents (DrainIncomingAudio chunks c) in
  if negb (pending_capture_stop c) then c
  else
    let c := c <| pending_capture_stop := false |> in
    if start_recording_in_progress c || capture_recording c || busy_phase (phase_ (machine c))
    then send [RestoreOutput] c
    else ResetToIdle (send ((if reuse then [] else [CaptureStop]) ++ [RestoreOutput]) c).

(** ** Starting a recording *)

(** Up to the unlock of the first critical section. *)
Definition start_begin (ime is_command : bool) (selected_text device : bytes) (config : CoreConfig)
    (chunks : list (list Z)) (reuse : bool) (c : Controller) : MethodResult * Controller :=
  let c := if pending_capture_stop c then FlushDeferredActions chunks reuse c else c in
  if negb (phase_ (machine c) =b Idle) || start_recording_in_progress c then (Err msg_busy, c)
  else
    let job := {| job_ime := ime; job_is_command := is_command; job_selected_text := selected_text;
                  job_device := device; job_settings := NormalizeCoreConfig config;
                  job_opened := false |} in
    (Ok tt,
     c <| pending_capture_stop := false |>
       <| audio := Reset (audio c) f32_one |>
       <| session_ime := ime |>
       <| start_recording_in_progress := true |>
       <| accepting_chunks := true |>
       <| starts := starts c ++ [job] |>).

Definition abort_start (c : Controller) : Controller :=
  c <| start_recording_in_progress := false |> <| accepting_chunks := false |>
    <| audio := ClearBuffer (audio c) |>.

Definition opened (j : start_job) : start_job :=
  {| job_ime := job_ime j; job_is_command := job_is_command j;
     job_selected_text := job_selected_text j; job_device := job_device j;
     job_settings := job_settings j; job_opened := true |}.

(** [capture_->BeginRecording], for the job [j] of the starts [l1 ++ j :: l2]. *)
Definition start_open (l1 : list start_job) (j : start_job) (l2 : list start_job) (r : result unit)
    (c : Controller) : MethodResult * Controller :=
  match r with
  | Ok _ => (Ok tt, send [CaptureBegin] (c <| capture_recording := true |>
                                           <| starts := l1 ++ opened j :: l2 |>))
  | Err e =>
      let message := if job_is_command j then "Failed to start command recording."
                     else "Failed to start recording." in
      (Err (if is_empty e then message else StripSuffix message "." ++ ": " ++ e),
       abort_start (c <| starts := l1 ++ l2 |>))
  end.

(** [EndRecording] and the reset of the start, on both failing paths. *)
Definition abort_capture (c : Controller) : Controller :=
  ScheduleCaptureStopOnMainThread
    (send [CaptureEnd; RestoreOutput] (abort_start (c <| capture_recording := false |>))).

(** The session, the backend and the phase of the new recording. *)
Definition install_recording (j : start_job) (backend : BackendDescriptor) (session : State)
    (c : Controller) : Controller :=
  let id := next_session c in
  let m := lifecycle c <| sessions := <[id := session]> (sessions (lifecycle c)) |> in
  c <| current_order := None |>
    <| next_session := Datatypes.S id |>
    <| lifecycle := InstallActiveSession (Some id) m |>
    <| active_backend := backend |>
    <| machine := (OnStartRecording (machine c) (job_is_command j) (job_selected_text j)).2 |>.

(** The buffer, with the gain and the audio collected meanwhile, and the timers. *)
Definition activate_recording (j : start_job) (c : Controller) : Controller :=
  let b := SetGain (audio c) (f32_of_f64 (inputGain (cc_asr (job_settings j)))) in
  let c := with_audio (Activate b (UsesBufferedDelivery (active_backend c))) c in
  c <| recording := no_recording <| recording_started_at := true |> |>
    <| accepting_chunks := true |>
    <| start_recording_in_progress := false |>.

(** [CreateSession] and the critical section that installs the session. *)
Definition start_finish (l1 : list start_job) (j : start_job) (l2 : list start_job)
    (created : result (BackendDescriptor * State)) (c : Controller) : MethodResult * Controller :=
  let c := c <| starts := l1 ++ l2 |> in
  match created with
  | Err e =>
      (Err (if is_empty e then "Failed to start recognition session."
            else "Failed to start recognition session. " ++ e), abort_capture c)
  | Ok (backend, session) =>
      let session := if UsesBufferedDelivery backend then session else make_async session in
      if negb (start_recording_in_progress c) || negb (phase_ (machine c) =b Idle)
      then (Err msg_busy, abort_capture c)
      else
        let c := activate_recording j (install_recording j backend session c) in
        let c := if duckOutputWhileRecording (cc_global (job_settings j)) then send [DuckOutput] c else c in
        (Ok tt, NotifyStatusChanged Recording c)
  end.

(** ** Stopping and cancelling *)

(** The first critical section, and the end of the capture that follows it. *)
Definition stop_begin (ime : bool) (c : Controller) : MethodResult * Controller :=
  if negb (phase_ (machine c) =b Recording) then (Err msg_not_recording, c)
  else
    (Ok tt, send [CaptureStop; RestoreOutput]
              (c <| session_ime := ime |> <| accepting_chunks := false |>
                 <| capture_recording := false |>)).

(** The order handed to the worker; [sm] is the machine after the stop. *)
Definition make_order (s : option session_id) (pcm : list Z) (scene_id : bytes)
    (sm : RuntimeStateMachine) (c : Controller) : RecognitionOrder :=
  {| order_mode := audio_delivery_mode (bd_capabilities (active_backend c));
     order_session := s; order_backend := active_backend c; order_pcm := pcm;
     order_request := {| req_text := latest_final_text (recording c);
                         req_scene_id := scene_id; req_is_command := is_command_ sm;
                         req_selected_text := selected_text_ sm |};
     order_ime := session_ime c |}.

(** The second critical section, with what follows it. [captured] is the buffer
    [capture_->StopAndGetBuffer()] returned. *)
Definition stop_finish (scene_id : bytes) (captured : list Z) (c : Controller) : Controller :=
  if negb (HasActiveSession (lifecycle c)) then
    let c := c <| machine := (OnResetToIdle (machine c)).2 |> <| current_order := None |> in
    MaybeApplyPendingAsrBackendReload (NotifyStatusChanged Idle c)
  else
    let c := if is_empty captured then c else with_audio (Append (audio c) captured) c in
    let '(t, sm) := OnStopRecording (machine c) (TotalSampleCount (audio c)) kMinSamplesForRecognition in
    let '(s, m) := DetachActive (lifecycle c) in
    if is_too_short t then
      let c := ResetRecordingState (c <| machine := sm |> <| current_order := None |>) in
      let c := NotifyStatusChanged (new_phase t) c in
      let c := c <| lifecycle := CancelAndRetireSession s m |> in
      MaybeApplyPendingAsrBackendReload c
    else
      let '(pcm, b) := if UsesBufferedDelivery (active_backend c) then TakeBufferedPcm (audio c)
                       else DrainStreamingTail (audio c) in
      let order := make_order s pcm scene_id sm c in
      let c := c <| machine := sm |> <| lifecycle := m |> <| audio := b |>
                 <| current_order := Some order |>
                 <| active_backend := default_descriptor |> in
      NotifyStatusChanged (new_phase t) c.

(** The whole handler, without a step of another thread between its halves. *)
Definition StopRecording (ime : bool) (scene_id : bytes) (captured : list Z) (c : Controller)
  : MethodResult * Controller :=
  match stop_begin ime c with
  | (Ok _, c) => (Ok tt, stop_finish scene_id captured c)
  | (Err e, c) => (Err e, c)
  end.

Definition CancelOperation (ime commit_raw_text : bool) (c : Controller) : MethodResult * Controller :=
  let starting := start_recording_in_progress c in
  let c := if starting then abort_start c else c in
  let stop_capture c := send [CaptureStop; RestoreOutput] (c <| capture_recording := false |>) in
  let '(t, sm) := OnCancel (machine c) commit_raw_text in
  if negb (accepted t) then
    if starting then (Ok tt, c) else (Err (rejection_reason t), c)
  else
    let c := c <| machine := sm |> <| session_ime := ime |> in
    if should_stop_capture t then
      let c := ResetRecordingState (c <| accepting_chunks := false |>) in
      let '(s, m) := DetachActive (lifecycle c) in
      let c := NotifyStatusChanged (new_phase t) (c <| lifecycle := m |> <| current_order := None |>) in
      let reload := pending_asr_backend_reload c in
      let c := stop_capture c in
      let c := c <| lifecycle := CancelAndRetireSession s (lifecycle c) |> in
      (Ok tt, if reload then MaybeApplyPendingAsrBackendReload c else c)
    else
      let c := if should_commit_raw_text t || should_discard_text t
               then c <| postprocessing_cancel_requested := true |> else c in
      (Ok tt, if starting then stop_capture c else c).

(** ** Injected text *)

Definition InjectText (ime : bool) (stage : InjectStage) (text scene_id : bytes) (c : Controller)
  : MethodResult * Controller :=
  match stage with
  | StagePartial => (Ok tt, send (partial_outputs text ime) c)
  | StageFinal =>
      if is_empty scene_id then
        let payload := {| commitText := text;
                          candidates := [{| cand_text := text; cand_source := kSourceRaw |}] |} in
        (Ok tt, send ((if ime then [EmitRecognitionResult payload] else [])
                      ++ (if is_empty text then [] else [Broadcast (CommittedEventOf payload ime)])) c)
      else if negb (phase_ (machine c) =b Idle) then (Err msg_busy, c)
      else
        let order :=
          {| order_mode := Chunked; order_session := None; order_backend := default_descriptor;
             order_pcm := [];
             order_request := {| req_text := text; req_scene_id := scene_id;
                                 req_is_command := false; req_selected_text := [] |};
             order_ime := ime |} in
        (Ok tt, c <| session_ime := ime |> <| current_order := Some order |>)
  end.

(** ** The worker thread *)

(** The audio of the order, normalised when configured and buffered. *)
Definition order_push (o : RecognitionOrder) (settings : CoreConfig) : option (list Z) :=
  if normalizeAudio (cc_asr settings) && negb (is_empty (order_pcm o)) && (order_mode o =b Buffered)
  then mapM float_sample (PeakNormalize (f32_sample <$> order_pcm o) f32_one (f32_lit 1 10))
  else Some (order_pcm o).

Definition EnterPostprocessing (c : Controller) : Controller :=
  let '(t, sm) := OnInferenceComplete (machine c) true in
  send (status_outputs (new_phase t) (session_ime c)) (c <| machine := sm |>).

(** The recognition part of the loop body. *)
Definition recognize (o : RecognitionOrder) (settings : CoreConfig) (c : Controller) : Controller :=
  match order_session o with
  | None => c <| worker := WK_pipeline o settings |>
  | Some s =>
      match order_push o settings with
      | None => c <| undefined := true |> <| worker := WK_reset |>
      | Some pcm =>
          let '(pushed, m) := if is_empty (order_pcm o) then (Ok tt, lifecycle c)
                              else LifecyclePushAudio (Some s) pcm (lifecycle c) in
          match pushed with
          | Err e => c <| lifecycle := m |> <| worker := WK_exception e |>
          | Ok _ =>
              let '(r, m) := FinishSessionAndCollectResult (Some s) m in
              let c := c <| lifecycle := m |> in
              if negb (rr_ok r) || negb (is_empty (rr_error r)) then
                send [EmitDesktopNotification (if is_empty (rr_error r) then kFailedToFinishSessionError
                                               else rr_error r)]
                  (c <| worker := WK_reset |>)
              else
                let request := if is_empty (rr_text r) then order_request o
                               else order_request o <| req_text := rr_text r |> in
                let o' := {| order_mode := order_mode o; order_session := None;
                             order_backend := order_backend o; order_pcm := [];
                             order_request := request; order_ime := order_ime o |} in
                send (if is_empty (rr_text r) then [] else partial_outputs (req_text request) (order_ime o))
                  (c <| worker := WK_pipeline o' settings |>)
          end
      end
  end.

(** The payload and errors after the action the user chose meanwhile. *)
Definition apply_action (action : PostprocessingState) (text : bytes) (r : RecognitionPipelineResult)
  : RecognitionPipelineResult :=
  match action with
  | CommitRaw =>
      {| res_payload := {| commitText := text;
                           candidates := [{| cand_text := text; cand_source := kSourceRaw |}] |};
         res_errors := [] |}
  | Discard => {| res_payload := empty_payload; res_errors := [] |}
  | _ => r
  end.

Definition result_outputs (r : RecognitionPipelineResult) (ime : bool) : list output :=
  (EmitDesktopNotification <$> res_errors r)
  ++ (if ime then [EmitRecognitionResult (res_payload r)] else [])
  ++ (if is_empty (commitText (res_payload r)) then []
      else [Broadcast (CommittedEventOf (res_payload r) ime)]).

(** One step of [WorkerMain]; [config] is the configuration it loads. [None]
    while it waits, and after its exit. *)
Definition worker_step (config : CoreConfig) (c : Controller) : option Controller :=
  match worker c with
  | WK_top => Some (c <| worker := if worker_running c then WK_wait else WK_exit |>)
  | WK_wait =>
      match current_order c with
      | Some o => Some (c <| worker := WK_recognize o |> <| current_order := Some (moved_from o) |>)
      | None => if worker_running c then None else Some (c <| worker := WK_exit |>)
      end
  | WK_recognize o => Some (recognize o (NormalizeCoreConfig config) c)
  | WK_pipeline o settings =>
      let c := c <| postprocessing_cancel_requested := false |> in
      let '(r, entered) := Process pipeline (order_request o) settings in
      Some (if entered then EnterPostprocessing c <| worker := WK_processing o r |>
            else c <| worker := WK_commit o r |>)
  | WK_processing o r => Some (c <| worker := WK_commit o r |>)
  | WK_commit o r =>
      let '(action, sm) := TakePostprocessingState (machine c) in
      Some (send (result_outputs (apply_action action (req_text (order_request o)) r) (order_ime o))
              (c <| machine := sm |> <| worker := WK_reset |>))
  | WK_exception what =>
      Some (send [EmitDesktopNotification what]
              (c <| machine := (TakePostprocessingState (machine c)).2 |> <| worker := WK_reset |>))
  | WK_reset => Some (ResetToIdle c <| worker := WK_top |>)
  | WK_exit => None
  end.

Definition StartWorker (c : Controller) : Controller :=
  if worker_running c then c else c <| worker_running := true |> <| worker := WK_top |>.

(** [Shutdown] up to the join of the worker, and after it. *)
Definition Shutdown_begin (c : Controller) : Controller :=
  let c := send [CaptureStop; RestoreOutput]
             (c <| accepting_chunks := false |> <| pending_capture_stop := false |>
                <| capture_recording := false |>) in
  c <| start_recording_in_progress := false |> <| worker_running := false |>
    <| machine := StateMachine.Clear (machine c) |>
    <| lifecycle := CancelAndRetireActive (lifecycle c) |>.
Definition Shutdown_end (c : Controller) : Controller :=
  c <| lifecycle := ClearSessions (FlushReapedSessions (lifecycle c)).2 |>.

Definition GetStatus (c : Controller) : bytes := StatusToString (phase_ (machine c)).

Definition GetAsrBackendState (snapshot : ReloadSnapshot) : AsrBackendState :=
  {| Dbus.target_provider_id := rs_target_provider_id snapshot;
     Dbus.target_model_id := rs_target_model_id snapshot;
     Dbus.effective_provider_id := rs_effective_provider_id snapshot;
     Dbus.effective_model_id := rs_effective_model_id snapshot;
     Dbus.last_error := rs_last_error snapshot;
     Dbus.reload_in_progress := rs_reload_in_progress snapshot;
     Dbus.has_effective_backend := rs_has_effective_backend snapshot;
     Dbus.remote_endpoints := [] |}.

(** A client command that does not start a recording. *)
Definition DispatchClientCommand (cmd : ClientCommand) (captured : list Z) (c : Controller)
  : option (MethodResult * Controller) :=
  match cmd with
  | StartCommand _ _ _ _ => None
  | StopCommand ime scene => Some (StopRecording ime scene captured c)
  | CancelCommand ime raw => Some (CancelOperation ime raw c)
  | InjectCommand ime stage text scene => Some (InjectText ime stage text scene c)
  end.

(** ** The controller invariant

    It relates four components: the state machine, the active session, the
    order and the position of the worker. *)

Definition core (c : Controller) : RuntimeStateMachine * option session_id * option RecognitionOrder * worker_state :=
  (machine c, active_session (lifecycle c), current_order c, worker c).

Definition in_flight (p : Status) : Prop := p = Inferring \/ p = Postprocessing.

(** A pending order means inference; a busy worker matches the phase. *)
Definition worker_ok (p : Status) (o : option RecognitionOrder) (w : worker_state) : Prop :=
  match w with
  | WK_top | WK_wait | WK_exit =>
      match o with Some _ => p = Inferring | None => ~ in_flight p end
  | WK_recognize _ | WK_pipeline _ _ => p = Inferring
  | WK_processing _ _ => p = Postprocessing
  | WK_commit _ _ | WK_exception _ | WK_reset => in_flight p
  end.

Definition core_inv (k : RuntimeStateMachine * option session_id * option RecognitionOrder * worker_state) : Prop :=
  let '(m, a, o, w) := k in
  machine_inv m /\ (phase_ m = Recording <-> is_Some a) /\ worker_ok (phase_ m) o w.

Definition controller_inv (c : Controller) : Prop := core_inv (core c).

(** The helpers that leave the core alone. *)
Lemma core_send os c : core (send os c) = core c.
Proof. reflexivity. Qed.
Lemma core_with_audio b c : core (with_audio b c) = core c.
Proof. by destruct b. Qed.
Lemma core_Notify p c : core (NotifyStatusChanged p c) = core c.
Proof. reflexivity. Qed.
Lemma core_ResetRecording c : core (ResetRecordingState c) = core c.
Proof. reflexivity. Qed.
Lemma core_abort_start c : core (abort_start c) = core c.
Proof. reflexivity. Qed.
Lemma core_Maybe c : core (MaybeApplyPendingAsrBackendReload c) = core c.
Proof.
  unfold MaybeApplyPendingAsrBackendReload. destruct (_ || _); [done|].
  unfold SynchronizeAsrBackend. by destruct (synchronize _).
Qed.

Lemma core_ResetToIdle c :
  core (ResetToIdle c) = (StateMachine.Clear (machine c), active_session (lifecycle c), None, worker c).
Proof. unfold ResetToIdle. rewrite core_Maybe. reflexivity. Qed.

Lemma idle_worker p o w : worker_ok p o w -> ~ in_flight p -> o = None /\ worker_ok p None w /\
  (w = WK_top \/ w = WK_wait \/ w = WK_exit).
Proof.
  unfold in_flight. destruct w; simpl; unfold in_flight; try (destruct o); intuition congruence.
Qed.

Lemma machine_inv_Clear m : machine_inv (StateMachine.Clear m).
Proof. by apply machine_invb_spec. Qed.

(** The machine operations the controller uses keep the machine well formed. *)
Lemma machine_inv_ops m :
  machine_inv m ->
  machine_inv (OnAudioError m).2 /\
  (forall cmd sel, machine_inv (OnStartRecording m cmd sel).2) /\
  (forall n k, machine_inv (OnStopRecording m n k).2) /\
  (forall raw, machine_inv (OnCancel m raw).2) /\
  (forall b, machine_inv (OnInferenceComplete m b).2) /\
  machine_inv (TakePostprocessingState m).2.
Proof.
  intros Hm. split_and!; [|intros ? ?|intros ? ?|intros ?|intros ?|].
  - pose proof (machine_inv_fire m EvAudioError Hm) as Hf. simpl in Hf. by destruct (OnAudioError m).
  - pose proof (machine_inv_fire m (EvStartRecording cmd sel) Hm) as Hf. simpl in Hf.
    by destruct (OnStartRecording m cmd sel).
  - pose proof (machine_inv_fire m (EvStopRecording n k) Hm) as Hf. simpl in Hf.
    by destruct (OnStopRecording m n k).
  - pose proof (machine_inv_fire m (EvCancel raw) Hm) as Hf. simpl in Hf. by destruct (OnCancel m raw).
  - pose proof (machine_inv_fire m (EvInferenceComplete b) Hm) as Hf. simpl in Hf.
    by destruct (OnInferenceComplete m b).
  - exact (machine_inv_fire m EvTakePostprocessingState Hm).
Qed.

(** The lifecycle operations that keep the active session. *)
Lemma active_CancelAndRetire s (m : SessionLifecycleManager State) :
  active_session (CancelAndRetireSession s m) = active_session m.
Proof. by destruct s. Qed.
Lemma active_Retire s (m : SessionLifecycleManager State) :
  active_session (RetireSession s m) = active_session m.
Proof. by destruct s. Qed.
Lemma active_Push s pcm (m : SessionLifecycleManager State) :
  active_session (LifecyclePushAudio s pcm m).2 = active_session m.
Proof.
  unfold LifecyclePushAudio. destruct s as [s|]; [|done]. destruct (sessions m !! s); [|done].
  by destruct (session_push pcm s0).
Qed.
Lemma active_Poll s (m : SessionLifecycleManager State) :
  active_session (PollSessionEvents failure_error s m).2 = active_session m.
Proof.
  unfold PollSessionEvents. destruct (s ≫= _) as [[x st]|]; [|done]. by destruct (session_poll st).
Qed.
Lemma active_Finish s (m : SessionLifecycleManager State) :
  active_session (FinishSessionAndCollectResult s m).2 = active_session m.
Proof.
  unfold FinishSessionAndCollectResult. destruct (s ≫= _) as [[x st]|]; [|done].
  destruct (session_finish st) as [r st']. by destruct (session_poll st').
Qed.

Lemma set_lifecycle_core m c :
  active_session m = active_session (lifecycle c) -> core (c <| lifecycle := m |>) = core c.
Proof. intros Ha. unfold core; simpl. by rewrite Ha. Qed.

Lemma controller_inv_core c c' : core c' = core c -> controller_inv c -> controller_inv c'.
Proof. unfold controller_inv. by intros ->. Qed.

Lemma inv_ResetToIdle c :
  controller_inv c -> active_session (lifecycle c) = None -> 
  (worker c = WK_top \/ worker c = WK_wait \/ worker c = WK_exit) -> controller_inv (ResetToIdle c).
Proof.
  intros Hi Ha Hw. unfold controller_inv. rewrite core_ResetToIdle. simpl. rewrite Ha.
  split; [apply machine_inv_Clear|]. split; [by split; [|intros [? ?]]|].
  unfold in_flight. by destruct Hw as [-> |[-> | ->]]; simpl; intros [?|?].
Qed.

Lemma inv_Fail s msg c : controller_inv c -> controller_inv (FailActiveSession s msg c).2.
Proof.
  intros Hi. unfold FailActiveSession. destruct (IsActiveSession s (lifecycle c)) eqn:E; [|done].
  unfold IsActiveSession in E. destruct s as [s|]; [|done]. apply bool_decide_eq_true in E.
  destruct Hi as (Hm & Hr & Hw). cbn [core fst snd] in *.
  assert (phase_ (machine c) = Recording) as Hp by (apply Hr; by rewrite E).
  match goal with |- controller_inv ?x => assert (core x = ((OnAudioError (machine c)).2, None, current_order c, worker c)) as Hc end.
  { unfold core; simpl. rewrite E. reflexivity. }
  unfold controller_inv. rewrite Hc. simpl. split; [by apply machine_inv_ops|].
  unfold OnAudioError. rewrite Hp in *. simpl. split; [by split; [|intros [? ?]]|].
  destruct (idle_worker _ _ _ Hw) as (-> & _ & [-> |[-> | ->]]); simpl; unfold in_flight; intuition congruence.
Qed.

Lemma inv_push_loop fuel s chunk c : controller_inv c -> controller_inv (push_loop fuel s chunk c).
Proof.
  revert chunk c. induction fuel as [|fuel IH]; intros chunk c Hi; cbn [push_loop]; [done|].
  pose proof (active_Push s chunk (lifecycle c)) as Ha.
  destruct (LifecyclePushAudio s chunk (lifecycle c)) as [r m]; cbn [snd] in Ha.
  assert (controller_inv (c <| lifecycle := m |>)) as Hi' by (eapply controller_inv_core; [by apply set_lifecycle_core|done]).
  destruct r as [[]|e]; [|by apply inv_Fail].
  destruct (negb _).
  - eapply controller_inv_core; [apply set_lifecycle_core, active_Retire|done].
  - destruct (PopStreamingChunk _ _) as [[chunk'|] b]; [apply IH|];
      (eapply controller_inv_core; [|exact Hi']; reflexivity).
Qed.

Lemma inv_HandleIncomingAudio pcm c : controller_inv c -> controller_inv (HandleIncomingAudio pcm c).
Proof.
  intros Hi. unfold HandleIncomingAudio. destruct (_ || _); [done|].
  destruct (start_recording_in_progress c && _); [by eapply controller_inv_core; [apply core_with_audio|]|].
  destruct (negb _); [done|]. cbv zeta.
  match goal with |- context [with_audio (Append (audio ?x) pcm) ?x] => assert (controller_inv x) as Hx; [|generalize dependent x] end.
  { destruct (first_non_silent_at _); [done|]. destruct (PrepareGainAdjustedInput _ _); [|done].
    by destruct (HasNonSilentAudio _). }
  intros x Hx. assert (controller_inv (with_audio (Append (audio x) pcm) x)) as Hy.
  { by eapply controller_inv_core; [apply core_with_audio|]. }
  generalize dependent (with_audio (Append (audio x) pcm) x). intros y Hy.
  destruct (UsesBufferedDelivery _); [done|].
  destruct (PopStreamingChunk _ _) as [[chunk|] b]; [apply inv_push_loop|]; by eapply controller_inv_core; [reflexivity|].
Qed.

Lemma inv_DrainIncomingAudio chunks c : controller_inv c -> controller_inv (DrainIncomingAudio chunks c).
Proof.
  unfold DrainIncomingAudio. destruct (negb _); [done|]. revert c.
  induction chunks as [|x chunks IH]; intros c Hi; simpl; [done|]. apply IH.
  destruct (is_empty x); [done|by apply inv_HandleIncomingAudio].
Qed.

Lemma core_ApplyEvents evs c : core (ApplyRecognitionEvents evs c) = core c.
Proof.
  unfold ApplyRecognitionEvents. revert c. induction evs as [|e evs IH]; intros c; simpl; [done|].
  rewrite IH. unfold DispatchSingleEvent, HandlePartialText, HandleFinalText.
  destruct (ev_kind e); try done; by destruct (is_empty _).
Qed.

Lemma inv_PollActive c : controller_inv c -> controller_inv (PollActiveSessionEvents c).
Proof.
  intros Hi. unfold PollActiveSessionEvents. destruct (_ || _); [done|].
  pose proof (active_Poll (active_session (lifecycle c)) (lifecycle c)) as Ha.
  destruct (PollSessionEvents _ _ _) as [poll m]; cbn [snd] in Ha.
  assert (controller_inv (ApplyRecognitionEvents (pr_events poll) (c <| lifecycle := m |>))) as Hx.
  { eapply controller_inv_core; [rewrite core_ApplyEvents; by apply set_lifecycle_core|done]. }
  destruct (pr_failure poll); [by apply inv_Fail|done].
Qed.

Lemma inv_Flush chunks reuse c : controller_inv c -> controller_inv (FlushDeferredActions chunks reuse c).
Proof.
  intros Hi. unfold FlushDeferredActions. cbv zeta.
  assert (controller_inv (PollActiveSessionEvents (DrainIncomingAudio chunks
    (c <| lifecycle := (FlushReapedSessions (lifecycle c)).2 |>)))) as Hx.
  { apply inv_PollActive, inv_DrainIncomingAudio. by eapply controller_inv_core; [apply set_lifecycle_core|]. }
  generalize dependent (PollActiveSessionEvents (DrainIncomingAudio chunks
    (c <| lifecycle := (FlushReapedSessions (lifecycle c)).2 |>))). clear c Hi. intros c Hi.
  destruct (negb _); [done|]. destruct (_ || busy_phase _) eqn:E; [done|].
  apply orb_false_iff in E as [_ E]. simpl in E. destruct Hi as (Hm & Hr & Hw). simpl in *.
  apply inv_ResetToIdle; simpl.
  - by split_and!.
  - destruct (active_session (lifecycle c)); [|done]. by rewrite (proj2 Hr) in E.
  - apply (idle_worker _ _ _ Hw). unfold in_flight. intros [Hp|Hp]; by rewrite Hp in E.
Qed.

Lemma inv_start_begin ime cmd sel dev config chunks reuse c :
  controller_inv c -> controller_inv (start_begin ime cmd sel dev config chunks reuse c).2.
Proof.
  intros Hi. unfold start_begin.
  assert (controller_inv (if pending_capture_stop c then FlushDeferredActions chunks reuse c else c)) as Hx
    by (destruct (pending_capture_stop c); [by apply inv_Flush|done]).
  generalize dependent (if pending_capture_stop c then FlushDeferredActions chunks reuse c else c).
  intros x Hx. destruct (_ || _); exact Hx.
Qed.

Lemma inv_start_open l1 j l2 r c : controller_inv c -> controller_inv (start_open l1 j l2 r c).2.
Proof. intros Hi. destruct r; exact Hi. Qed.

Lemma active_Install s (m : SessionLifecycleManager State) :
  active_session (InstallActiveSession s m) = s.
Proof. unfold InstallActiveSession. destruct (active_session m); [apply active_CancelAndRetire|done]. Qed.

Lemma core_abort_capture c : core (abort_capture c) = core c.
Proof.
  unfold abort_capture. transitivity (core (abort_start (c <| capture_recording := false |>))); [done|].
  by rewrite core_abort_start.
Qed.

(** A successful start installs its session and leaves no order behind. *)
Lemma core_install j backend session c :
  core (install_recording j backend session c) =
  ((OnStartRecording (machine c) (job_is_command j) (job_selected_text j)).2,
   Some (next_session c), None, worker c).
Proof.
  unfold install_recording. generalize (active_Install (Some (next_session c))
    (lifecycle c <| sessions := <[next_session c := session]> (sessions (lifecycle c)) |>)).
  generalize (InstallActiveSession (Some (next_session c))
    (lifecycle c <| sessions := <[next_session c := session]> (sessions (lifecycle c)) |>)).
  intros m Hm. unfold core; simpl. by rewrite Hm.
Qed.

Lemma core_activate j c : core (activate_recording j c) = core c.
Proof. unfold activate_recording. cbv zeta. etransitivity; [|apply core_with_audio]. reflexivity. Qed.

Lemma core_start_finish l1 j l2 created c :
  core (start_finish l1 j l2 created c).2 =
  match created with
  | Ok _ =>
      if negb (start_recording_in_progress c) || negb (phase_ (machine c) =b Idle) then core c
      else ((OnStartRecording (machine c) (job_is_command j) (job_selected_text j)).2,
            Some (next_session c), None, worker c)
  | Err _ => core c
  end.
Proof.
  unfold start_finish. cbv zeta. set (d := c <| starts := l1 ++ l2 |>).
  assert (core d = core c /\ start_recording_in_progress d = start_recording_in_progress c /\
          machine d = machine c /\ next_session d = next_session c /\ worker d = worker c)
    as (Hc & -> & Hm & Hn & Hw) by done.
  rewrite <- Hc, <- Hn, <- Hw, Hm. clearbody d. rewrite <- Hm. clear.
  destruct created as [[backend session]|e]; [|apply core_abort_capture].
  destruct (_ || _); cbn [snd]; [apply core_abort_capture|]. rewrite core_Notify.
  destruct (duckOutputWhileRecording _); rewrite ?core_send, core_activate; apply core_install.
Qed.

Lemma inv_start_finish l1 j l2 created c :
  controller_inv c -> controller_inv (start_finish l1 j l2 created c).2.
Proof.
  intros Hi. unfold controller_inv. rewrite core_start_finish.
  destruct created as [[backend session]|e]; [|exact Hi].
  destruct (_ || _) eqn:E; [exact Hi|]. apply orb_false_iff in E as [_ Hp].
  apply negb_false_iff, bool_decide_eq_true in Hp. destruct Hi as (Hm & Hr & Hw). cbn [core] in *.
  split; [by apply machine_inv_ops|]. unfold OnStartRecording. rewrite Hp in *. simpl.
  split; [split; [by eexists|done]|].
  destruct (idle_worker _ _ _ Hw) as (_ & _ & [-> |[-> | ->]]); simpl; unfold in_flight; intuition congruence.
Qed.

Lemma core_Retire_any s d m :
  core (d <| lifecycle := CancelAndRetireSession s m |>) =
  (machine d, active_session m, current_order d, worker d).
Proof. unfold core; simpl. by rewrite active_CancelAndRetire. Qed.

(** With a session, a stop either drops a short recording or leaves an order. *)
Lemma core_stop_finish scene captured c :
  is_Some (active_session (lifecycle c)) -> phase_ (machine c) = Recording ->
  let d := if is_empty captured then c else with_audio (Append (audio c) captured) c in
  let '(t, sm) := OnStopRecording (machine c) (TotalSampleCount (audio d)) kMinSamplesForRecognition in
  exists o, core (stop_finish scene captured c) = (sm, None, if is_too_short t then None else Some o, worker c).
Proof.
  intros [s Hs] Hp. unfold stop_finish.
  assert (HasActiveSession (lifecycle c) = true) as -> by (unfold HasActiveSession; by rewrite Hs).
  cbn [negb]. cbv zeta. set (d := if is_empty captured then c else with_audio (Append (audio c) captured) c).
  assert (core d = core c) as [= Hm Ha Ho Hw] by (unfold d; destruct (is_empty captured); [done|apply core_with_audio]).
  clearbody d. rewrite <- Hm, <- Hw. clear Ho. rewrite Hs in Ha. rewrite <- Hm in Hp.
  unfold OnStopRecording. rewrite Hp. change (negb (Recording =b Recording)) with false. cbv iota.
  unfold DetachActive. rewrite Ha. unfold AbortRecordingToIdle.
  destruct (_ <? _)%N; cbn [is_too_short new_phase].
  - exists (make_order None [] scene (machine d) d). rewrite core_Maybe, core_Retire_any; reflexivity.
  - destruct (UsesBufferedDelivery _); [destruct (TakeBufferedPcm _)|destruct (DrainStreamingTail _)];
      eexists; reflexivity.
Qed.

Lemma inv_StopRecording ime scene captured c :
  controller_inv c -> controller_inv (StopRecording ime scene captured c).2.
Proof.
  intros Hi. unfold StopRecording, stop_begin.
  destruct (negb (phase_ (machine c) =b Recording)) eqn:Hp; [exact Hi|].
  apply negb_false_iff, bool_decide_eq_true in Hp.
  match goal with |- context [stop_finish _ _ ?x] => assert (core x = core c) as Hc by done; generalize dependent x end.
  intros d [= Hm Ha Ho Hw']. destruct Hi as (Him & Hr & Hw). cbn [core snd] in *.
  rewrite <- Hm, <- ?Ha, <- ?Ho, <- ?Hw' in *. clear Hm Ha Ho Hw' c.
  pose proof (core_stop_finish scene captured d (proj1 Hr Hp) Hp) as Hc. cbv zeta in Hc.
  pose proof (proj1 (proj2 (proj2 (machine_inv_ops _ Him)))) as Hinv.
  unfold OnStopRecording in *. rewrite Hp in *. change (negb (Recording =b Recording)) with false in *. cbv iota in Hc, Hinv.
  destruct (idle_worker _ _ _ Hw) as (_ & _ & Hidle); [unfold in_flight; intuition congruence|].
  unfold controller_inv. specialize (Hinv (TotalSampleCount (audio
    (if is_empty captured then d else with_audio (Append (audio d) captured) d))) kMinSamplesForRecognition).
  destruct (_ <? _)%N; destruct Hc as [o ->]; (split; [exact Hinv|]);
    (split; [by split; [|intros [? ?]]|]); simpl; unfold in_flight;
    destruct Hidle as [-> |[-> | ->]]; simpl; unfold in_flight; intuition congruence.
Qed.

Lemma core_CancelOperation ime raw c :
  core (CancelOperation ime raw c).2 =
  let t := (OnCancel (machine c) raw).1 in
  (if accepted t then (OnCancel (machine c) raw).2 else machine c,
   if accepted t && should_stop_capture t then None else active_session (lifecycle c),
   if accepted t && should_stop_capture t then None else current_order c, worker c).
Proof.
  unfold CancelOperation. cbv zeta. generalize (start_recording_in_progress c). intros b.
  set (d := if b then abort_start c else c).
  assert (core d = core c) as [= Hm Ha Ho Hw] by (unfold d; destruct b; [apply core_abort_start|done]).
  clearbody d. rewrite <- Hm, <- Ha, <- Ho, <- Hw. clear Hm Ha Ho Hw c.
  destruct (OnCancel (machine d) raw) as [t sm]. cbn [fst snd].
  destruct (accepted t); cbn [negb andb]; [|by destruct b].
  destruct (should_stop_capture t).
  - unfold DetachActive. cbn [snd].
    match goal with |- core (if ?r then ?x else ?y) = _ => assert (core (if r then x else y) = core y) as -> end.
    { match goal with |- context [if ?r then _ else _] => destruct r end; [apply core_Maybe|done]. }
    rewrite core_Retire_any. reflexivity.
  - destruct b, (_ || _); reflexivity.
Qed.

Lemma inv_CancelOperation ime raw c : controller_inv c -> controller_inv (CancelOperation ime raw c).2.
Proof.
  intros (Hm & Hr & Hw). cbn [core] in *. unfold controller_inv. rewrite core_CancelOperation. cbv zeta.
  pose proof (proj1 (proj2 (proj2 (proj2 (machine_inv_ops _ Hm)))) raw) as Hinv.
  unfold core_inv. revert Hinv. unfold OnCancel. destruct (phase_ (machine c)) eqn:Hp.
  - intros _. split_and!; [done| |]; cbn; by rewrite Hp.
  - intros Hinv. split_and!; [exact Hinv|by split; [|intros [? ?]]|]. cbn.
    destruct (idle_worker _ _ _ Hw) as (_ & _ & [-> |[-> | ->]]); simpl; unfold in_flight; intuition congruence.
  - intros _. split_and!; [done| |]; cbn; by rewrite Hp.
  - intros Hinv. destruct (negb _); cbn; (split_and!; [done| |]); cbn; by rewrite ?Hp.
  - intros _. split_and!; [done| |]; cbn; by rewrite Hp.
Qed.

(** Injected text that needs no scene bypasses the worker. *)
Lemma inv_InjectText ime stage text scene c :
  (stage = StageFinal -> scene = []) -> controller_inv c -> controller_inv (InjectText ime stage text scene c).2.
Proof. intros Hs Hi. destruct stage; [exact Hi|]. rewrite Hs by done. exact Hi. Qed.

Lemma inv_ReloadAsrBackend c : controller_inv c -> controller_inv (ReloadAsrBackend c).2.
Proof.
  intros Hi. unfold ReloadAsrBackend. destruct (_ || _); [exact Hi|].
  unfold SynchronizeAsrBackend. destruct (synchronize _); exact Hi.
Qed.

Lemma inv_ReloadResult success message c : controller_inv c -> controller_inv (ReloadResult success message c).
Proof. intros Hi. unfold ReloadResult. by destruct (_ || _). Qed.

(** ** The worker *)

(** The recognition part keeps the machine, the active session and the order. *)
Lemma core_recognize o settings c :
  exists w, core (recognize o settings c) = (machine c, active_session (lifecycle c), current_order c, w) /\
    match w with WK_pipeline _ _ | WK_exception _ | WK_reset => True | _ => False end.
Proof.
  unfold recognize. destruct (order_session o) as [s|]; [|by eexists].
  destruct (order_push o settings) as [pcm|]; [|by eexists].
  pose proof (active_Push (Some s) pcm (lifecycle c)) as Ha.
  destruct (is_empty (order_pcm o)); [clear Ha|destruct (LifecyclePushAudio (Some s) pcm (lifecycle c)) as [[[]|e] m]];
    cbn [snd] in *; [| |by eexists; split; [unfold core; simpl; rewrite Ha|]].
  - pose proof (active_Finish (Some s) (lifecycle c)) as Ha.
    destruct (FinishSessionAndCollectResult (Some s) (lifecycle c)) as [r m]. cbn [snd] in Ha. rewrite <- Ha.
    destruct (_ || _); by eexists.
  - pose proof (active_Finish (Some s) m) as Ha'. rewrite <- Ha.
    destruct (FinishSessionAndCollectResult (Some s) m) as [r m']. cbn [snd] in Ha'. rewrite <- Ha'.
    destruct (_ || _); by eexists.
Qed.

Lemma inv_worker_step config c c' :
  worker_step config c = Some c' -> controller_inv c -> controller_inv c'.
Proof.
  intros Hstep (Hm & Hr & Hw). cbn [core] in *. unfold worker_step in Hstep.
  destruct (worker c) as [| |o|o settings|o r|o r|what| |] eqn:Ew; simpl in Hw; try discriminate Hstep.
  - injection Hstep as <-. unfold controller_inv, core; simpl. by destruct (worker_running c).
  - destruct (current_order c) as [o|] eqn:Eo; [|destruct (worker_running c); [done|]];
      injection Hstep as <-; unfold controller_inv, core; simpl; by rewrite ?Eo.
  - injection Hstep as <-. destruct (core_recognize o (NormalizeCoreConfig config) c) as (w & Hc & Hkind).
    unfold controller_inv. rewrite Hc. split_and!; [done..|]. destruct w; try done; by left.
  - destruct (Process _ _ _) as [r entered]. injection Hstep as <-.
    destruct entered; unfold controller_inv, core; simpl; [|split_and!; [done..|by left]].
    unfold EnterPostprocessing, OnInferenceComplete. simpl. rewrite Hw in *. simpl.
    split_and!; [|split; [done|by intros ?%Hr]|done].
    pose proof (proj1 (proj2 (proj2 (proj2 (proj2 (machine_inv_ops _ Hm))))) true) as Hinv.
    unfold OnInferenceComplete in Hinv. rewrite Hw in Hinv. exact Hinv.
  - injection Hstep as <-. unfold controller_inv, core; simpl. split_and!; [done..|by right].
  - injection Hstep as <-. unfold controller_inv, core; simpl. split_and!; [by apply machine_inv_ops|done..].
  - injection Hstep as <-. unfold controller_inv, core; simpl. split_and!; [by apply machine_inv_ops|done..].
  - injection Hstep as <-. unfold controller_inv.
    assert (core (ResetToIdle c <| worker := WK_top |>) = (StateMachine.Clear (machine c), active_session (lifecycle c), None, WK_top)) as ->.
    { pose proof (core_ResetToIdle c) as Hc. generalize dependent (ResetToIdle c). intros d [= H1 H2 H3 _]. unfold core; simpl. by rewrite H1, H2, H3. }
    split_and!; [apply machine_inv_Clear| |simpl; unfold in_flight; intuition congruence].
    split; [done|]. intros Hs. apply Hr in Hs. unfold in_flight in Hw. rewrite Hs in Hw. intuition congruence.
Qed.

(** ** Interleavings

    A step of the main thread or of a client thread. The halves of a recording
    start are separate steps. Text injected for a scene is a step of its own
    kind, because it occupies the worker without leaving the idle phase. *)
Inductive handler_step : Controller -> Controller -> Prop :=
  | hs_flush chunks reuse c : handler_step c (FlushDeferredActions chunks reuse c)
  | hs_start_begin ime cmd sel dev config chunks reuse c :
      handler_step c (start_begin ime cmd sel dev config chunks reuse c).2
  | hs_start_open l1 j l2 r c :
      starts c = l1 ++ j :: l2 -> job_opened j = false -> handler_step c (start_open l1 j l2 r c).2
  | hs_start_finish l1 j l2 created c :
      starts c = l1 ++ j :: l2 -> job_opened j = true -> handler_step c (start_finish l1 j l2 created c).2
  | hs_stop ime scene captured c : handler_step c (StopRecording ime scene captured c).2
  | hs_cancel ime raw c : handler_step c (CancelOperation ime raw c).2
  | hs_inject ime stage text scene c :
      (stage = StageFinal -> scene = []) -> handler_step c (InjectText ime stage text scene c).2
  | hs_reload c : handler_step c (ReloadAsrBackend c).2
  | hs_reload_result success message c : handler_step c (ReloadResult success message c).

Inductive ctl_step : Controller -> Controller -> Prop :=
  | cs_handler c c' : handler_step c c' -> ctl_step c c'
  | cs_worker config c c' : worker_step config c = Some c' -> ctl_step c c'.

(** A controller after construction and [StartWorker]. *)
Definition started (c : Controller) : Prop :=
  machine c = initial /\ current_order c = None /\ active_session (lifecycle c) = None /\
  worker c = WK_top.

Lemma inv_handler_step c c' : handler_step c c' -> controller_inv c -> controller_inv c'.
Proof.
  destruct 1; eauto using inv_Flush, inv_start_begin, inv_start_open, inv_start_finish,
    inv_StopRecording, inv_CancelOperation, inv_InjectText, inv_ReloadAsrBackend, inv_ReloadResult.
Qed.

Lemma inv_reachable c c' : started c -> rtc ctl_step c c' -> controller_inv c'.
Proof.
  intros (Hm & Ho & Ha & Hw) Hrun.
  assert (controller_inv c) as Hi.
  { unfold controller_inv, core. rewrite Hm, Ho, Ha, Hw. split_and!; [by apply machine_invb_spec| |].
    - by split; [|intros [? ?]].
    - simpl. unfold in_flight. intuition congruence. }
  clear Hm Ho Ha Hw. induction Hrun as [|x y z Hs _ IH]; [done|]. apply IH.
  destruct Hs; eauto using inv_handler_step, inv_worker_step.
Qed.

Definition worker_busy (w : worker_state) : Prop :=
  match w with WK_top | WK_wait | WK_exit => False | _ => True end.


(** ** Progress of the worker *)

(** The steps the worker still needs before it is done with its order. *)
Definition work_left (c : Controller) : nat :=
  match worker c with
  | WK_top => if current_order c is Some _ then 7 else 0
  | WK_wait => if current_order c is Some _ then 6 else 0
  | WK_recognize _ => 5
  | WK_pipeline _ _ => 4
  | WK_processing _ _ => 3
  | WK_commit _ _ | WK_exception _ => 2
  | WK_reset => 1
  | WK_exit => 0
  end.

(** Without an active session incoming audio is buffered or dropped. *)
Lemma core_Drain_inactive chunks c :
  active_session (lifecycle c) = None -> core (DrainIncomingAudio chunks c) = core c.
Proof.
  intros Ha. unfold DrainIncomingAudio. destruct (negb _); [done|]. revert c Ha.
  induction chunks as [|x chunks IH]; intros c Ha; simpl; [done|].
  destruct (is_empty x); [by apply IH|].
  assert (core (HandleIncomingAudio x c) = core c) as Hc.
  { unfold HandleIncomingAudio. destruct (_ || _); [done|]. destruct (_ && _); [apply core_with_audio|].
    unfold HasActiveSession. by rewrite Ha. }
  rewrite IH; [done|]. unfold core in Hc. congruence.
Qed.

(** While the daemon is inferring or post-processing, the main thread has
    nothing to tear down. *)
Lemma core_Flush_in_flight chunks reuse c :
  controller_inv c -> in_flight (phase_ (machine c)) -> core (FlushDeferredActions chunks reuse c) = core c.
Proof.
  intros (_ & Hr & _) Hf. cbn [core] in Hr. unfold FlushDeferredActions. cbv zeta.
  assert (active_session (lifecycle c) = None) as Ha.
  { destruct (active_session (lifecycle c)) as [s|] eqn:E; [|done].
    rewrite (proj2 Hr) in Hf by done. by destruct Hf. }
  set (d := c <| lifecycle := (FlushReapedSessions (lifecycle c)).2 |>).
  assert (core d = core c) as Hd by (by apply set_lifecycle_core).
  assert (active_session (lifecycle d) = None) as Ha' by exact Ha. clear Ha. rename Ha' into Ha.
  clearbody d. rewrite <- Hd. pose proof (core_Drain_inactive chunks d Ha) as Hx. rewrite <- Hx.
  assert (phase_ (machine (DrainIncomingAudio chunks d)) = phase_ (machine c)) as Hp
    by (unfold core in Hx, Hd; congruence).
  clear Hx. generalize dependent (DrainIncomingAudio chunks d). clear Hd d Ha. intros d Hp.
  assert (PollActiveSessionEvents d = d) as ->.
  { unfold PollActiveSessionEvents. rewrite Hp. by destruct Hf as [-> | ->]. }
  destruct (negb _); [done|]. simpl.
  assert (busy_phase (phase_ (machine d)) = true) as -> by (rewrite Hp; by destruct Hf as [-> | ->]).
  by rewrite orb_true_r.
Qed.

(** No handler disturbs the worker or the order it works on. *)
Lemma handler_in_flight c c' :
  handler_step c c' -> controller_inv c -> in_flight (phase_ (machine c)) ->
  phase_ (machine c') = phase_ (machine c) /\ current_order c' = current_order c /\ worker c' = worker c.
Proof.
  assert (forall d, core d = core c -> phase_ (machine d) = phase_ (machine c) /\
            current_order d = current_order c /\ worker d = worker c) as Hcore.
  { unfold core. intros d [= Hm _ Ho Hw]. by rewrite Hm. }
  destruct 1 as [chunks reuse c|ime cmd sel dev config chunks reuse c|l1 j l2 r c|l1 j l2 created c
    |ime scene captured c|ime raw c|ime stage text scene c Hs|c|success message c]; intros Hi Hf.
  - apply Hcore. by apply core_Flush_in_flight.
  - apply Hcore. unfold start_begin.
    assert (core (if pending_capture_stop c then FlushDeferredActions chunks reuse c else c) = core c) as Hx
      by (destruct (pending_capture_stop c); [by apply core_Flush_in_flight|done]).
    generalize dependent (if pending_capture_stop c then FlushDeferredActions chunks reuse c else c).
    intros x Hx. assert (phase_ (machine x) = phase_ (machine c)) as Hp by (unfold core in Hx; congruence).
    rewrite Hp. by destruct Hf as [-> | ->].
  - apply Hcore. by destruct r.
  - apply Hcore. rewrite core_start_finish. destruct created; [|done].
    destruct Hf as [-> | ->]; by rewrite orb_true_r.
  - apply Hcore. unfold StopRecording, stop_begin. by destruct Hf as [-> | ->].
  - pose proof (core_CancelOperation ime raw c) as Hc. unfold core in Hc. cbv zeta in Hc.
    injection Hc as Hm _ Ho Hw. rewrite Hm, Ho, Hw. unfold OnCancel.
    destruct Hf as [Hp|Hp]; rewrite Hp; cbn; [by rewrite Hp|]. by destruct (negb _); cbn; rewrite ?Hp.
  - apply Hcore. destruct stage; [done|]. by rewrite Hs.
  - apply Hcore. unfold ReloadAsrBackend. destruct (_ || _); [done|].
    unfold SynchronizeAsrBackend. by destruct (synchronize _).
  - apply Hcore. unfold ReloadResult. by destruct (_ || _).
Qed.

(** A step of the worker is never blocked and brings the order nearer to its
    end, which leaves the daemon idle. *)
Lemma worker_step_progress config c :
  0 < work_left c -> (worker c = WK_top -> worker_running c = true) ->
  exists c', worker_step config c = Some c' /\ work_left c' < work_left c /\
    active_session (lifecycle c') = active_session (lifecycle c) /\
    (work_left c' = 0 -> phase_ (machine c') = Idle /\ current_order c' = None /\ worker c' = WK_top) /\
    (0 < work_left c' -> worker c' <> WK_top).
Proof.
  unfold work_left at 1 3, worker_step.
  destruct (worker c) as [| |o|o settings|o r|o r|what| |] eqn:Ew; intros Hl Hrun.
  - rewrite (Hrun eq_refl). destruct (current_order c) as [o|] eqn:Eo; [|by apply Nat.lt_irrefl in Hl].
    eexists; split; [reflexivity|]. unfold work_left; simpl. rewrite Eo. split_and!; [lia|done|lia|done].
  - destruct (current_order c) as [o|] eqn:Eo; [|by apply Nat.lt_irrefl in Hl].
    eexists; split; [reflexivity|]. unfold work_left; simpl. split_and!; [lia|done|lia|done].
  - eexists; split; [reflexivity|].
    destruct (core_recognize o (NormalizeCoreConfig config) c) as (w & Hc & Hkind).
    generalize dependent (recognize o (NormalizeCoreConfig config) c). intros d [= _ Ha _ Hw].
    unfold work_left. rewrite Hw, Ha. destruct w; try done; (split_and!; [lia|done|lia|done]).
  - destruct (Process _ _ _) as [r entered]. eexists; split; [reflexivity|].
    destruct entered; [unfold EnterPostprocessing; destruct (OnInferenceComplete _ _)|];
      unfold work_left; simpl; (split_and!; [lia|done|lia|done]).
  - eexists; split; [reflexivity|]. unfold work_left; simpl. split_and!; [lia|done|lia|done].
  - eexists; split; [reflexivity|]. unfold work_left; simpl. split_and!; [lia|done|lia|done].
  - eexists; split; [reflexivity|]. unfold work_left; simpl. split_and!; [lia|done|lia|done].
  - eexists; split; [reflexivity|]. pose proof (core_ResetToIdle c) as Hc.
    generalize dependent (ResetToIdle c). intros d [= Hm Ha Ho _].
    unfold work_left; simpl. rewrite Ho, Hm, Ha. split_and!; [lia|done|done|lia].
  - by apply Nat.lt_irrefl in Hl.
Qed.


(** The worker on its own, with the configurations it loads. *)
Fixpoint worker_run (configs : list CoreConfig) (c : Controller) : option Controller :=
  match configs with
  | [] => Some c
  | config :: configs => worker_step config c ≫= worker_run configs
  end.

Lemma worker_drains config k c :
  work_left c <= k -> 0 < work_left c -> worker c <> WK_top ->
  exists n c', n <= work_left c /\ worker_run (replicate n config) c = Some c' /\
    phase_ (machine c') = Idle /\ current_order c' = None /\
    active_session (lifecycle c') = active_session (lifecycle c).
Proof.
  revert c. induction k as [|k IH]; intros c Hk Hl Ht; [lia|].
  destruct (worker_step_progress config c Hl ltac:(done)) as (c1 & Hc & Hlt & Ha & H0 & Hnt).
  destruct (decide (work_left c1 = 0)) as [E|E].
  - exists 1, c1. simpl. rewrite Hc. destruct (H0 E) as (? & ? & ?). split_and!; [lia|done..].
  - destruct (IH c1 ltac:(lia) ltac:(lia) ltac:(apply Hnt; lia)) as (n & c2 & Hn & Hc2 & ? & ? & ?).
    exists (Datatypes.S n), c2. simpl. rewrite Hc. split_and!; [lia|done..|congruence].
Qed.

Lemma busy_left w c : worker c = w -> worker_busy w -> 0 < work_left c /\ worker c <> WK_top.
Proof. intros <- Hb. unfold work_left. destruct (worker c); try done; (split; [lia|done]). Qed.

(** Text injected for a scene while the worker processes an earlier injection
    is accepted and becomes the current order, and is then dropped: the worker,
    left to itself, returns to an idle daemon whose order was reset without
    having been read. The phase test of [InjectText] does not see the worker,
    because an injected order does not leave the idle phase. *)
Theorem second_injection_lost ime text scene config c :
  phase_ (machine c) = Idle -> worker_busy (worker c) -> scene <> [] ->
  let r := InjectText ime StageFinal text scene c in
  r.1 = Ok tt /\
  (exists o, current_order r.2 = Some o /\ req_text (order_request o) = text) /\
  exists n c', n <= 5 /\ worker_run (replicate n config) r.2 = Some c' /\
    phase_ (machine c') = Idle /\ current_order c' = None.
Proof.
  intros Hp Hb Hs r. assert (is_empty scene = false) as He by (by destruct scene).
  assert (r.1 = Ok tt /\ worker r.2 = worker c /\ exists o, current_order r.2 = Some o /\ req_text (order_request o) = text)
    as (-> & Hw & Ho).
  { unfold r, InjectText. rewrite He, Hp. split_and!; [done..|by eexists]. }
  split_and!; [done..|]. rewrite <- Hw in Hb.
  destruct (busy_left _ _ eq_refl Hb) as [Hl Ht].
  destruct (worker_drains config _ r.2 (le_n _) Hl Ht) as (n & c' & Hn & Hr & ? & ? & _).
  exists n, c'. split_and!; [|done..]. unfold work_left in Hn. clear -Hn Hb. destruct (worker r.2); try done; lia.
Qed.

(** A recording started while the worker processes an injection loses its
    phase: when the worker is done the daemon reports idle although the session
    is still active, and stopping the recording is refused. *)
Theorem injection_ends_recording ime scene captured config c s :
  phase_ (machine c) = Recording -> active_session (lifecycle c) = Some s -> worker_busy (worker c) ->
  exists n c', n <= 5 /\ worker_run (replicate n config) c = Some c' /\
    phase_ (machine c') = Idle /\ active_session (lifecycle c') = Some s /\
    (StopRecording ime scene captured c').1 = Err msg_not_recording.
Proof.
  intros Hp Ha Hb. destruct (busy_left _ _ eq_refl Hb) as [Hl Ht].
  destruct (worker_drains config _ c (le_n _) Hl Ht) as (n & c' & Hn & Hr & Hi & _ & Ha').
  exists n, c'. split_and!; [|done|done|congruence|].
  - unfold work_left in Hn. clear -Hn Hb. destruct (worker c); try done; lia.
  - unfold StopRecording, stop_begin. by rewrite Hi.
Qed.

(** ** What is committed *)

(** The payloads handed to the input method. *)
Definition results (os : list output) : list Payload :=
  omap (fun o => match o with EmitRecognitionResult p => Some p | _ => None end) os.
Lemma results_app os os' : results (os ++ os') = results os ++ results os'.
Proof. apply omap_app. Qed.
Lemma results_status p ime : results (status_outputs p ime) = [].
Proof. by destruct ime. Qed.
Lemma results_partial text ime : results (partial_outputs text ime) = [].
Proof. by destruct ime. Qed.
Lemma results_result r ime : results (result_outputs r ime) = if ime then [res_payload r] else [].
Proof.
  unfold result_outputs. rewrite !results_app.
  assert (results (EmitDesktopNotification <$> res_errors r) = []) as -> by (induction (res_errors r); done).
  destruct ime, (is_empty _); done.
Qed.
Lemma results_Reset c : results (outputs (ResetToIdle c)) = results (outputs c).
Proof.
  unfold ResetToIdle, MaybeApplyPendingAsrBackendReload. cbv zeta.
  set (d := ResetRecordingState _). assert (outputs d = outputs c) as <- by done. clearbody d.
  set (x := send _ (d <| session_ime := true |>)).
  assert (results (outputs x) = results (outputs d)) as <-.
  { unfold x; cbn. rewrite results_app. cbn. by rewrite results_status, app_nil_r. }
  clearbody x. destruct (_ || _); [done|]. unfold SynchronizeAsrBackend.
  destruct (synchronize _); cbn; rewrite !results_app; cbn; by rewrite !app_nil_r.
Qed.

Lemma step_pipeline config o settings c :
  worker c = WK_pipeline o settings ->
  let '(r, entered) := Process pipeline (order_request o) settings in
  exists c', worker_step config c = Some c' /\
    worker c' = (if entered then WK_processing o r else WK_commit o r) /\
    machine c' = (if entered then (OnInferenceComplete (machine c) true).2 else machine c) /\
    results (outputs c') = results (outputs c).
Proof.
  intros Hw. unfold worker_step. rewrite Hw. destruct (Process _ _ _) as [r entered].
  eexists; split; [reflexivity|]. destruct entered; [|done].
  unfold EnterPostprocessing. simpl. destruct (OnInferenceComplete (machine c) true) as [t sm]. simpl.
  split_and!; [done..|]. by rewrite results_app, results_status, app_nil_r.
Qed.

(** The commit and the reset, from the action chosen by then. *)
Lemma step_commit config o r c :
  worker c = WK_commit o r ->
  let out := apply_action (postprocessing_state_ (machine c)) (req_text (order_request o)) r in
  exists c', worker_run [config; config] c = Some c' /\ phase_ (machine c') = Idle /\ worker c' = WK_top /\
    results (outputs c') = results (outputs c) ++ (if order_ime o then [res_payload out] else []).
Proof.
  intros Hw out.
  set (d := send (result_outputs out (order_ime o))
              (c <| machine := (TakePostprocessingState (machine c)).2 |> <| worker := WK_reset |>)).
  assert (worker_run [config; config] c = (worker_step config d ≫= Some)) as ->.
  { simpl. unfold worker_step at 2. by rewrite Hw. }
  assert (worker d = WK_reset /\ results (outputs d) = results (outputs c) ++ (if order_ime o then [res_payload out] else [])) as [Hd Ho].
  { split; [done|]. unfold d. cbn. by rewrite results_app, results_result. }
  clearbody d. unfold worker_step. rewrite Hd. eexists; split; [reflexivity|].
  rewrite <- Ho, <- (results_Reset d). pose proof (core_ResetToIdle d) as Hc.
  generalize dependent (ResetToIdle d). intros x [= Hm _ _ _]. simpl. by rewrite Hm.
Qed.

Lemma worker_run_app l1 l2 c : worker_run (l1 ++ l2) c = (worker_run l1 c ≫= worker_run l2).
Proof.
  revert c. induction l1 as [|x l1 IH]; intros c; simpl; [done|].
  destruct (worker_step x c); simpl; [apply IH|done].
Qed.

(** The recognition part when the session succeeds. *)
Lemma recognize_ok o settings c s pcm m1 r m2 :
  order_session o = Some s -> order_push o settings = Some pcm ->
  (if is_empty (order_pcm o) then (Ok tt, lifecycle c) else LifecyclePushAudio (Some s) pcm (lifecycle c)) = (Ok tt, m1) ->
  FinishSessionAndCollectResult (Some s) m1 = (r, m2) -> rr_ok r = true -> rr_error r = [] ->
  let text := if is_empty (rr_text r) then req_text (order_request o) else rr_text r in
  exists o', order_request o' = order_request o <| req_text := text |> /\ order_ime o' = order_ime o /\
    worker (recognize o settings c) = WK_pipeline o' settings /\
    machine (recognize o settings c) = machine c /\
    results (outputs (recognize o settings c)) = results (outputs c).
Proof.
  intros Hs Hpcm Hpush Hfin Hok Herr text. unfold recognize. rewrite Hs, Hpcm, Hpush, Hfin, Hok, Herr. simpl.
  eexists; split_and!; [| |reflexivity|reflexivity|]; simpl; unfold text.
  - destruct (is_empty (rr_text r)); [by destruct (order_request o)|done].
  - reflexivity.
  - rewrite results_app. destruct (is_empty (rr_text r)); rewrite ?results_partial; simpl; by rewrite app_nil_r.
Qed.

(** C3. A dictation reaches the input method exactly once: when the session of an
    order takes its audio and finishes without error, the worker, left to itself,
    commits the payload that the pipeline computes for the recognised text (the
    last final text of the recording when the session reports none) and returns
    to an idle daemon, in at most 5 steps. *)
Theorem dictation_committed_once config c o s pcm m1 r m2 :
  let settings := NormalizeCoreConfig config in
  worker c = WK_recognize o -> phase_ (machine c) = Inferring ->
  postprocessing_state_ (machine c) = Inactive ->
  order_session o = Some s -> order_push o settings = Some pcm ->
  (if is_empty (order_pcm o) then (Ok tt, lifecycle c) else LifecyclePushAudio (Some s) pcm (lifecycle c)) = (Ok tt, m1) ->
  FinishSessionAndCollectResult (Some s) m1 = (r, m2) -> rr_ok r = true -> rr_error r = [] ->
  let text := if is_empty (rr_text r) then req_text (order_request o) else rr_text r in
  let processed := (Process pipeline (order_request o <| req_text := text |>) settings).1 in
  exists n c', n <= 5 /\ worker_run (replicate n config) c = Some c' /\
    phase_ (machine c') = Idle /\ worker c' = WK_top /\
    results (outputs c') = results (outputs c) ++ (if order_ime o then [res_payload processed] else []).
Proof.
  intros settings Hw Hp Hst Hs Hpcm Hpush Hfin Hok Herr text processed.
  destruct (recognize_ok o settings c s pcm m1 r m2 Hs Hpcm Hpush Hfin Hok Herr) as (o' & Hreq & <- & Hw1 & Hm1 & <-).
  assert (worker_step config c = Some (recognize o settings c)) as Hstep by (unfold worker_step; by rewrite Hw).
  generalize dependent (recognize o settings c). intros c1 Hw1 Hm1 Hstep.
  pose proof (step_pipeline config o' settings c1 Hw1) as Hpl. unfold processed, text. rewrite <- Hreq. clear text processed Hreq.
  destruct (Process pipeline (order_request o') settings) as [res entered] eqn:Ep.
  destruct Hpl as (c2 & Hstep2 & Hw2 & Hm2 & <-). destruct entered.
  - assert (exists c3, worker_step config c2 = Some c3 /\ worker c3 = WK_commit o' res /\ machine c3 = machine c2 /\ outputs c3 = outputs c2)
      as (c3 & Hstep3 & Hw3 & Hm3 & <-) by (unfold worker_step; rewrite Hw2; by eexists).
    destruct (step_commit config o' res c3 Hw3) as (c4 & Hrun & Hi & Ht & Hres).
    exists 5, c4. split_and!; [done| |done|done|].
    + cbn [replicate worker_run]. rewrite Hstep. cbn. rewrite Hstep2. cbn. rewrite Hstep3. exact Hrun.
    + rewrite Hres, Hm3, Hm2, Hm1. unfold OnInferenceComplete. rewrite Hp. simpl. by destruct (is_command_ _).
  - destruct (step_commit config o' res c2 Hw2) as (c4 & Hrun & Hi & Ht & Hres).
    exists 4, c4. split_and!; [lia| |done|done|].
    + cbn [replicate worker_run]. rewrite Hstep. cbn. rewrite Hstep2. exact Hrun.
    + by rewrite Hres, Hm2, Hm1, Hst.
Qed.

(** A cancellation during post-processing only records the choice. *)
Lemma Cancel_postprocessing ime raw c :
  phase_ (machine c) = Postprocessing ->
  worker (CancelOperation ime raw c).2 = worker c /\
  results (outputs (CancelOperation ime raw c).2) = results (outputs c) /\
  machine (CancelOperation ime raw c).2 = (OnCancel (machine c) raw).2.
Proof.
  intros Hp. pose proof (core_CancelOperation ime raw c) as Hc. unfold core in Hc. cbv zeta in Hc.
  injection Hc as Hm _ _ Hw. split; [exact Hw|]. split.
  - unfold CancelOperation. cbv zeta. destruct (start_recording_in_progress c).
    + cbn [machine alter_field abort_start]. unfold OnCancel. rewrite Hp.
      destruct (negb (_ || _)); simpl; [done|]. destruct raw; simpl; by rewrite results_app, app_nil_r.
    + unfold OnCancel. rewrite Hp. destruct (negb (_ || _)); simpl; [done|]. by destruct raw.
  - rewrite Hm. unfold OnCancel. rewrite Hp. by destruct (negb (_ || _)).
Qed.

(** C9. The user's choice during post-processing decides what is committed: a
    dictation may be committed raw (the recognised text, as the only candidate)
    or discarded (an empty payload), a command only discarded; any other request
    is refused and the language model's payload is committed unchanged. *)
Theorem cancel_decides_commit ime raw config c o r :
  worker c = WK_processing o r -> phase_ (machine c) = Postprocessing ->
  start_recording_in_progress c = false ->
  postprocessing_state_ (machine c) = (if is_command_ (machine c) then Command else Dictation) ->
  let res := CancelOperation ime raw c in
  let text := req_text (order_request o) in
  let allowed := negb raw || negb (is_command_ (machine c)) in
  res.1 = (if allowed then Ok tt else Err msg_no_action) /\
  exists c', worker_run (replicate 3 config) res.2 = Some c' /\ phase_ (machine c') = Idle /\
    results (outputs c') = results (outputs c) ++
      (if order_ime o
       then [if negb allowed then res_payload r
             else if raw then {| commitText := text; candidates := [{| cand_text := text; cand_source := kSourceRaw |}] |}
             else empty_payload]
       else []).
Proof.
  intros Hw Hp Hsr Hst res text allowed. destruct (Cancel_postprocessing ime raw c Hp) as (Hw1 & Ho & Hm). split.
  - unfold res, CancelOperation, allowed, OnCancel. cbv zeta. rewrite Hsr, Hp, Hst.
    by destruct raw, (is_command_ (machine c)).
  - fold res in Hw1, Ho, Hm. rewrite <- Ho. clearbody res. destruct res as [x d]. cbn [snd] in *. clear x Ho.
    assert (exists d1, worker_step config d = Some d1 /\ worker d1 = WK_commit o r /\ machine d1 = machine d /\ outputs d1 = outputs d)
      as (d1 & Hstep & Hw2 & Hm2 & <-) by (unfold worker_step; rewrite Hw1, Hw; by eexists).
    destruct (step_commit config o r d1 Hw2) as (c4 & Hrun & Hi & _ & Hres).
    exists c4. split_and!; [cbn [replicate worker_run]; by rewrite Hstep|done|].
    rewrite Hres, Hm2, Hm. unfold allowed, OnCancel. rewrite Hp, Hst. revert Hst.
    destruct raw, (is_command_ (machine c)); intros Hst; simpl; by rewrite ?Hst.
Qed.
End controller.
Arguments Controller State : clear implicits.

(** ** A concrete daemon *)

(** A post-processor that marks what it has seen. *)
Definition sample_pp : PostProcessor :=
  {| pp_Process text _ _ := ({| commitText := "LLM: " ++ text; candidates := [] |}, []);
     pp_ProcessCommand text sel _ _ := ({| commitText := "LLM: " ++ text; candidates := [] |}, []) |}.

Definition sample_sync (_ : list output) : result unit := Ok tt.

Definition good_script : scripted :=
  {| sd_finish := Ok tt; sd_events := [{| ev_kind := FinalText; ev_text := "hello"; ev_error := [] |}] |}.

Definition sample_controller : Controller scripted :=
  {| machine := initial; postprocessing_cancel_requested := false; current_order := None;
     lifecycle := no_sessions; active_backend := default_descriptor; audio := empty_buffer;
     recording := no_recording; start_recording_in_progress := false;
     pending_asr_backend_reload := false; session_ime := true; pending_capture_stop := false;
     accepting_chunks := false; worker_running := true; worker := WK_top; starts := [];
     capture_recording := false; next_session := 0; undefined := false; outputs := [] |}.

Definition sample_begin ime cmd (c : Controller scripted) : Controller scripted :=
  (start_begin (fun _ => None) sample_sync ime cmd [] [] default_core_config [] false c).2.
Definition sample_job ime cmd : start_job :=
  {| job_ime := ime; job_is_command := cmd; job_selected_text := []; job_device := [];
     job_settings := NormalizeCoreConfig default_core_config; job_opened := false |}.
Definition sample_open l1 ime cmd l2 (c : Controller scripted) : Controller scripted :=
  (start_open l1 (sample_job ime cmd) l2 (Ok tt) c).2.
Definition sample_finish l1 ime cmd l2 (c : Controller scripted) : MethodResult * Controller scripted :=
  start_finish id l1 (opened (sample_job ime cmd)) l2 (Ok (default_descriptor, good_script)) c.

(** A recording, and the order its stop leaves. *)
Definition sample_recording : Controller scripted :=
  (sample_finish [] true false [] (sample_open [] true false [] (sample_begin true false sample_controller))).2.
Definition sample_stopped : Controller scripted :=
  (StopRecording sample_sync true [] (replicate (Z.to_nat 8000) 0%Z) sample_recording).2.

Lemma sample_recording_reachable :
  rtc (ctl_step (fun _ => None) sample_sync id (Some sample_pp)) sample_controller sample_recording.
Proof.
  unfold sample_recording, sample_finish, sample_open, sample_begin.
  eapply rtc_l; [apply cs_handler, (hs_start_begin (fun _ => None) sample_sync id true false [] [] default_core_config [] false)|].
  eapply rtc_l; [apply cs_handler, (hs_start_open (fun _ => None) sample_sync id [] (sample_job true false) [] (Ok tt));
                 [vm_compute; reflexivity|reflexivity]|].
  eapply rtc_l; [apply cs_handler, (hs_start_finish (fun _ => None) sample_sync id [] (opened (sample_job true false)) []
                   (Ok (default_descriptor, good_script))); [vm_compute; reflexivity|reflexivity]|].
  apply rtc_refl.
Qed.

Lemma sample_stopped_reachable :
  rtc (ctl_step (fun _ => None) sample_sync id (Some sample_pp)) sample_controller sample_stopped.
Proof.
  unfold sample_stopped. eapply rtc_r; [apply sample_recording_reachable|].
  apply cs_handler, (hs_stop (fun _ => None) sample_sync id true [] (replicate (Z.to_nat 8000) 0%Z)).
Qed.

Lemma sample_started : started sample_controller.
Proof. by split_and!. Qed.



(** An injection the worker has taken up, and a recording started meanwhile. *)
Definition sample_injected : Controller scripted :=
  default sample_controller (worker_run sample_sync (Some sample_pp) [default_core_config; default_core_config]
    (InjectText true StageFinal "one" "polish" sample_controller).2).
Definition sample_overlap : Controller scripted :=
  (sample_finish [] true false [] (sample_open [] true false [] (sample_begin true false sample_injected))).2.

Lemma second_injection_lost_witness :
  exists n c', n <= 5 /\
    worker_run sample_sync (Some sample_pp) (replicate n default_core_config)
      (InjectText true StageFinal "two" "polish" sample_injected).2 = Some c' /\ current_order c' = None.
Proof.
  destruct (second_injection_lost sample_sync (Some sample_pp) true "two" "polish" default_core_config sample_injected)
    as (_ & _ & n & c' & Hn & Hr & _ & Ho); [vm_compute; reflexivity|vm_compute; exact I|discriminate|].
  exists n, c'. split; [exact Hn|]. split; [exact Hr|exact Ho].
Defined.

Lemma injection_ends_recording_witness :
  exists n c', n <= 5 /\ worker_run sample_sync (Some sample_pp) (replicate n default_core_config) sample_overlap = Some c' /\
    HasActiveSession (lifecycle c') = true /\ (StopRecording sample_sync true [] [] c').1 = Err msg_not_recording.
Proof.
  destruct (injection_ends_recording sample_sync (Some sample_pp) true [] [] default_core_config sample_overlap 0)
    as (n & c' & Hn & Hr & _ & Ha & Hs); [vm_compute; reflexivity|vm_compute; reflexivity|vm_compute; exact I|].
  exists n, c'. split; [exact Hn|]. split; [exact Hr|]. split; [|exact Hs]. unfold HasActiveSession. by rewrite Ha.
Defined.

(** An order with a session, in the hands of the worker. *)
Definition sample_order : RecognitionOrder :=
  {| order_mode := Chunked; order_session := Some 0; order_backend := default_descriptor; order_pcm := [];
     order_request := empty_request; order_ime := true |}.
Definition sample_sessions : SessionLifecycleManager scripted := no_sessions <| sessions := <[0 := good_script]> ∅ |>.
Definition at_phase (p : Status) (s : PostprocessingState) (w : worker_state) : Controller scripted :=
  sample_controller <| lifecycle := sample_sessions |> <| worker := w |>
    <| machine := {| phase_ := p; postprocessing_state_ := s; is_command_ := false; selected_text_ := [] |} |>.

Lemma dictation_committed_once_witness :
  exists n c', worker_run sample_sync (Some sample_pp) (replicate n default_core_config)
      (at_phase Inferring Inactive (WK_recognize sample_order)) = Some c' /\
    map commitText (results (outputs c')) = ["hello" : bytes].
Proof.
  destruct (dictation_committed_once sample_sync (Some sample_pp) default_core_config
    (at_phase Inferring Inactive (WK_recognize sample_order)) sample_order 0 [] sample_sessions
    (FinishSessionAndCollectResult (Some 0) sample_sessions).1
    (FinishSessionAndCollectResult (Some 0) sample_sessions).2) as (n & c' & _ & Hr & _ & _ & Ho);
    [reflexivity|reflexivity|reflexivity|reflexivity|vm_compute; reflexivity|reflexivity|reflexivity|reflexivity|reflexivity|].
  exists n, c'. split; [exact Hr|]. rewrite Ho. vm_compute. reflexivity.
Defined.

Lemma cancel_decides_commit_witness :
  (CancelOperation sample_sync true true (at_phase Postprocessing Dictation (WK_processing sample_order
     {| res_payload := empty_payload; res_errors := [] |}))).1 = Ok tt.
Proof.
  destruct (cancel_decides_commit sample_sync None true true default_core_config
    (at_phase Postprocessing Dictation (WK_processing sample_order {| res_payload := empty_payload; res_errors := [] |}))
    sample_order {| res_payload := empty_payload; res_errors := [] |}) as (Hr & _);
    [reflexivity|reflexivity|reflexivity|reflexivity|exact Hr].
Defined.

(** A cancelled recording start is revived by the next one. A client starts a
    recording; while its session is being created the start is cancelled and
    another is made; the first start then finds the flag set by the second, and
    installs its own session, in command mode although a dictation was asked for
    last. The second start is refused, and its clean-up ends the capture and
    clears the audio of the recording that is now in progress: the daemon reports
    that it records and accepts no audio. *)
Theorem cancelled_start_revived :
  let c := sample_open [] false true [] (sample_begin false true sample_controller) in
  let '(cancelled, c) := CancelOperation sample_sync true false c in
  let c := sample_begin true false c in
  let '(first, c) := sample_finish [] false true [sample_job true false] c in
  let c := sample_open [] true false [] c in
  let '(second, c) := sample_finish [] true false [] c in
  let c := FlushDeferredActions (fun _ => None) sample_sync [] false c in
  cancelled = Ok tt /\ first = Ok tt /\ second = Err msg_busy /\
  phase_ (machine c) = Recording /\ is_command_ (machine c) = true /\
  accepting_chunks c = false /\ capture_recording c = false.
Proof. vm_compute. auto 10. Qed.
